(* ===== verification/_CoqProject ===== *)
-Q . S2P
Prelude.v
CMem.v
Signals.v
Lwip.v
Strings.v
Numbers.v
ReadWriteInt.v
IpAddr.v
IpAddr6.v
Addr.v
Tree.v
Bavl.v
LinkedList.v
Pending.v
Reactor.v
Connection.v
Interfaces.v
IpPackets.v
TunDevice.v
PacketProto.v
ChunkBuffer.v
PacketBuffer.v
PacketProtoFlow.v
Senders.v
InactivityMonitor.v
FairQueue.v
SocksClient.v
UdpGwProto.v
UdpGwClient.v
SocksUdpGwClient.v
Tun2Socks.v
Program.v
