(* ===== verification/Prelude.v ===== *)
(** * Verification of the tun2socks data plane of the Psiphon Android client

    The Android client sends the traffic of the whole device through a local SOCKS proxy.
    Its native library, src/Android/badvpn, terminates TCP in user space (tun2socks/tun2socks.c over
    lwip), opens a SOCKS connection for each TCP connection (socksclient/BSocksClient.c), and carries
    UDP over one more such connection to a gateway (udpgw_client/UdpGwClient.c, kept connected by
    tun2socks/SocksUdpGwClient.c).  The code is an event-driven C program: objects with handlers,
    connected by asynchronous interfaces, run from one list of pending jobs by an event loop
    (system/BReactor_badvpn.c).

    ** How the code is modelled

    A C function is a function on a record of the object's fields and, where it accesses a
    buffer, on a byte memory (a finite map from addresses); it returns [Ok] of the new state or
    [Fault] for a failed [ASSERT] or an access outside of mapped memory.  A handler also
    returns the list of calls it makes to the objects it is connected to, in the order it makes
    them.  A component's [...World] module adds its surroundings: which requests are
    outstanding at each interface, and a [step] function from events (what the surroundings may do,
    by the documentation of the interfaces) to the state after the handler and its calls.  Worlds
    also record the history the theorems speak about (packets accepted, bytes received).
    All of these are executable.

    What the kernel and the C library answer (system calls, [malloc], [getaddrinfo]) and what lwip does (apart from its
    lists of connections, [Lwip]) are inputs of the models or parameters; what is assumed of them is what they document: a new
    descriptor is not one that is open, [epoll_wait] reports events of descriptors that are
    registered and does not return before its timeout without one, a read returns no more
    than it is asked for, an error on a descriptor is reported with a hangup or with every event that is waited for ([error_ok]
    of [Connection]; the example [connection_lone_error] is a run in which it is not, which fails an assertion).

    Integers have the width of the C type: [size_t] is 32 bits (the library is built for
    32-bit ARM), [uint64_t] values wrap, lengths are [int] and bounded where the code bounds
    them.

    ** Files

    Foundations:
    - [CMem]: integer types, byte order (misc/byteorder.h), sizes and rounding (misc/bsize.h,
      misc/balign.h), memory, allocation (misc/balloc.h).
    - [Strings], [Numbers]: misc/cstring.h and misc/find_char.h; misc/parse_number.h.
    - [ReadWriteInt]: misc/read_write_int.h.
    - [IpAddr], [IpAddr6], [Addr]: misc/ipaddr.h; misc/ipaddr6.h; system/BAddr.h.
    - [Tree], [Bavl]: ordered sets as the components use them, and structure/BAVL.h, the balanced trees with
      their pointers, which implement them.
    - [LinkedList]: structure/LinkedList1.h, doubly linked lists, which implement the sequences that the components keep.

    The event loop and what it serves:
    - [Pending]: base/BPending.c over structure/SLinkedList_impl.h, and its refinement of a list of
      jobs.
    - [Reactor]: system/BReactor_badvpn.c and system/BTime.h, in the Linux build.
    - [Connection]: system/BConnection_unix.c, listeners, connectors and connections, over [Reactor].
    - [Signals]: system/BUnixSignal.c, system/BSignal.c, system/BNetwork.c, over the process's descriptors and the
      dispositions of its signals.

    The flow between objects:
    - [Interfaces]: flow/PacketPassInterface, StreamPassInterface, PacketRecvInterface and
      StreamRecvInterface over the job list; the contract [FlowInterface] that all four satisfy;
      [PortView], what a user or provider of an interface can rely on, which the worlds of the
      other files use.
    - [PacketProto]: protocol/packetproto.h, flow/PacketProtoEncoder.c, flow/PacketProtoDecoder.c.
    - [ChunkBuffer]: structure/ChunkBuffer2.h, a circular buffer of packets in memory.
    - [PacketBuffer]: flow/PacketBuffer.c, a FIFO over the circular buffer.
    - [PacketProtoFlow]: flow/BufferWriter.c and flow/PacketProtoFlow.c, the chain writer,
      encoder, buffer, composed over two of the interfaces.
    - [Senders]: flow/PacketStreamSender.c and flow/PacketPassConnector.c.
    - [InactivityMonitor]: flowextra/PacketPassInactivityMonitor.c.
    - [FairQueue]: flow/PacketPassFairQueue.c.

    The program:
    - [IpPackets]: UDP over IP, misc/ipv4_proto.h, misc/ipv6_proto.h, misc/udp_proto.h and the handlers of
      tun2socks/tun2socks.c that read and write packets.
    - [TunDevice]: tuntap/BTap.c and flow/SinglePacketBuffer.c, with those handlers behind them.
    - [SocksClient]: socksclient/BSocksClient.c.
    - [UdpGwProto], [UdpGwClient], [SocksUdpGwClient]: protocol/udpgw_proto.h, udpgw_client/UdpGwClient.c and
      tun2socks/SocksUdpGwClient.c, the last composed with the worlds of the two clients it uses.
    - [Tun2Socks]: the connections of tun2socks/tun2socks.c, between lwip and the SOCKS client.
    - [Lwip]: lwip's lists of connections (lwip/src/core/tcp.c), which outlive a run and decide whether a listener can
      be bound.
    - [Program]: start, arguments and end of tun2socks/tun2socks.c with the clients and lwip's lists, and
      misc/read_file.h.

    ** What is shown

    For each component: no run that its surroundings can cause fails an assertion or accesses
    memory outside of its buffers, and its invariant holds throughout; what comes out of it is what
    went in, in order (queues, encoders, senders, connections), by refinement of a queue or of the
    format; errors are reported exactly when they occur; times and sizes do not overflow.  Some of this is under
    conditions, which the theorems state.

    - Framing: the decoder recovers the packets from the encoder's stream, however it is cut into pieces.
    - The fair queue: a bound on how much more one busy flow can be served than another; its times are rescaled only when
      one would overflow.
    - Trees and lists: they refine sorted sequences and sequences, and a search in a tree is logarithmic.
    - The event loop: it refines a set of jobs, timers and descriptors; a timer whose time has come is served.
    - Stream connections, as long as errors are reported as above: a descriptor is closed once and only by its owner, the
      streams are those of the kernel, no wakeup is lost.
    - The device: its packets are handled once and in order, and what of them is submitted as UDP is exactly the valid
      datagrams; replies are datagrams over IP whose checksum is that of RFC 768, except that the code sends 0
      for 0xFFFF.
    - The SOCKS client: its verdict on the server's replies is exact, message by message, and what it sends is what they
      require.
    - The UDP gateway client: its connections have distinct identifiers and addresses; a datagram is sent as the
      format says, a reply goes to the user it belongs to; over SOCKS, there is always a connection or a timer that
      leads to one, and from every state it can become connected.
    - TCP connections: nothing is used after it is freed, also when callbacks wait for other jobs; the streams are
      carried in order; the window is exact; a half-closed connection ends.  A callback answers ERR_ABRT exactly when the
      connection was closed or aborted in it (lwip's documentation asks for it only after an abort).
    - The program: whatever fails, everything is released, and no connections are left in lwip's lists, so that it can run
      and listen again; it ends when it is told to, because its timer is always set; with assertions compiled in
      it aborts as the service calls it.
    - Text: addresses and numbers that are printed parse back, and the parsers never leave their input; an IPv6 address is
      printed with its first longest run of zeros compressed.

    ** Fuel and bounds

    Most recursive definitions are structural in the list or number they process.  The others have fuel, which is proved to
    be enough: the carries of a checksum fold in 3 rounds; the search for a connection identifier
    takes at most the maximal number of connections; a tree's loops at most the number of its nodes and one more
    ([Bavl]'s [enough]), a search twice the logarithm; the event loop's traversals the size of its tree of timers and one
    more; a file is read in at most one round for each byte and one more; the calls that TCP callbacks nest are at most
    4 deep.  Bounds that appear as hypotheses ([INT_MAX], [PACKETPROTO_MAXPAYLOAD],
    [malloc_documented]) are those of the C types, of the code's own assertions, and of [malloc] on
    the 32-bit ABI.

    ** Not modelled

    lwip (but for its lists of connections), OpenSSH and the other vendored programs (the peer-to-peer VPN, the NCD language, parser generators); the builds
    of the modelled files for Windows, FreeBSD and other event mechanisms; datagram sockets, processes and
    threads, and the UDP gateway's server, which the Android library does not contain; flow modules that it does not use;
    generic balanced trees and other lists and hash tables; the command line, logging and debug
    counters; the Java, C++, Go and Python parts of the repository. *)

From Stdlib Require Export ZArith Lia.
From stdpp Require Export base tactics list gmap numbers option decidable relations.

Global Open Scope Z_scope.

(** ** Outcomes of C code

    A C function either returns, or stops the program: an [ASSERT] that fails
    calls [abort] (misc/debug.h, [ASSERT_FORCE]), and an access outside of
    mapped memory is a crash.  Both are values, so that "this code never
    crashes" is an ordinary statement. *)

Inductive fault :=
| AssertFailed   (** [ASSERT(e)] with [e] false *)
| BadAccess.     (** a load or store outside of the mapped memory *)

Inductive result (A : Type) :=
| Ok (a : A)
| Fault (f : fault).
Arguments Ok {A} a.
Arguments Fault {A} f.

#[export] Instance fault_eq_dec : EqDecision fault.
Proof. solve_decision. Defined.

#[export] Instance result_eq_dec {A} `{EqDecision A} : EqDecision (result A).
Proof. solve_decision. Defined.

#[export] Instance result_ret : MRet result := @Ok.
#[export] Instance result_bind : MBind result := λ A B f r,
  match r with Ok a => f a | Fault e => Fault e end.
#[export] Instance result_fmap : FMap result := λ A B f r,
  match r with Ok a => Ok (f a) | Fault e => Fault e end.

Definition is_ok {A} (r : result A) : Prop := ∃ a, r = Ok a.

Definition is_ok_b {A} (r : result A) : bool :=
  match r with Ok _ => true | Fault _ => false end.

(** [ASSERT(b)] followed by the rest of the function. *)
Definition c_assert {A} (b : bool) (k : result A) : result A :=
  if b then k else Fault AssertFailed.

(** A partial read of a C object, faulting when it is absent. *)
Definition or_fault {A} (f : fault) (o : option A) : result A :=
  match o with Some a => Ok a | None => Fault f end.

Declare Scope csem_scope.
Delimit Scope csem_scope with csem.
Notation "'ASSERT' b ;; k" := (c_assert b k)
  (at level 100, b at level 99, k at level 200, right associativity,
   format "'ASSERT'  b  ;; '//' k") : csem_scope.
Global Open Scope csem_scope.

(** ** Automation *)

Create HintDb csem.

Lemma c_assert_ok {A} b (k : result A) r : c_assert b k = Ok r ↔ b = true ∧ k = Ok r.
Proof. destruct b; simpl; naive_solver. Qed.

Lemma c_assert_true {A} b (k : result A) : b = true → c_assert b k = k.
Proof. by intros ->. Qed.

Lemma bind_ok {A B} (x : result A) (f : A → result B) (r : B) :
  x ≫= f = Ok r ↔ ∃ a, x = Ok a ∧ f a = Ok r.
Proof. destruct x; simpl; naive_solver. Qed.

Lemma ok_bind {A B} (a : A) (f : A → result B) : Ok a ≫= f = f a.
Proof. done. Qed.

(** Turn boolean comparisons of the code into propositions. *)
Ltac zify_bool :=
  repeat match goal with
  | H : _ && _ = true |- _ => apply andb_true_iff in H; destruct H
  | H : _ || _ = false |- _ => apply orb_false_iff in H; destruct H
  | H : negb _ = true |- _ => apply negb_true_iff in H
  | H : negb _ = false |- _ => apply negb_false_iff in H
  | H : (_ <=? _) = true |- _ => apply Z.leb_le in H
  | H : (_ <=? _) = false |- _ => apply Z.leb_gt in H
  | H : (_ <? _) = true |- _ => apply Z.ltb_lt in H
  | H : (_ <? _) = false |- _ => apply Z.ltb_ge in H
  | H : (_ =? _) = true |- _ => apply Z.eqb_eq in H
  | H : (_ =? _) = false |- _ => apply Z.eqb_neq in H
  | H : bool_decide _ = true |- _ => apply bool_decide_eq_true in H
  | H : bool_decide _ = false |- _ => apply bool_decide_eq_false in H
  end.

(** Split the conditionals of a handler, keeping what each branch knows. *)
Ltac case_if :=
  match goal with
  | |- context [if ?b then _ else _] => destruct b eqn:?
  | H : context [if ?b then _ else _] |- _ => destruct b eqn:?
  end; zify_bool.

(** Identify the results of two runs of the same code. *)
Ltac same_run :=
  repeat match goal with
  | H1 : ?x = Ok _, H2 : ?x = Ok _ |- _ => rewrite H1 in H2; simplify_eq
  end.

(** Decompose a successful run of a handler into its successful parts. *)
Ltac inv_ok :=
  repeat (simplify_eq/=; match goal with
  | H : c_assert _ _ = Ok _ |- _ => apply c_assert_ok in H; destruct H
  | H : _ ≫= _ = Ok _ |- _ => apply bind_ok in H; destruct H as [? [? H]]
  | H : or_fault _ ?o = Ok _ |- _ => destruct o eqn:?; simpl in H; [|discriminate]
  | H : Fault _ = Ok _ |- _ => discriminate
  end); simplify_eq/=.

(** Discharge the assertions of a handler from the arithmetic context. *)
Ltac run_assert :=
  match goal with
  | |- context [c_assert ?b ?k] =>
    rewrite (c_assert_true b k) by
      (repeat (apply andb_true_iff; split);
       first [ done | apply Z.leb_le; lia | apply Z.ltb_lt; lia
             | apply Z.eqb_eq; lia | apply bool_decide_eq_true; first [done | lia]
             | by apply negb_true_iff ])
  end.

#[export] Hint Resolve c_assert_true : csem.

(** ** Running a component

    The model of a component and its surroundings is a state, a function that performs the
    calls a handler makes, and a step function on the events that can happen: [None] for an
    event that is not possible in the state, [Some (Fault _)] for one that makes the code fail. *)

Section calls.
Context {W C : Type} (do_call : W → C → result W).

Fixpoint run_calls (w : W) (cs : list C) : result W :=
  match cs with [] => Ok w | c :: cs => w ← do_call w c; run_calls w cs end.

Lemma run_calls_app w cs1 cs2 : run_calls w (cs1 ++ cs2) = w' ← run_calls w cs1; run_calls w' cs2.
Proof.
  revert w. induction cs1 as [|c cs1 IH]; intros w; [done|]. cbn [run_calls app].
  destruct (do_call w c); [apply IH | done].
Qed.
End calls.

Section running.
Context {W E : Type} (step : W → E → option (result W)).

Fixpoint run_steps (w : W) (es : list E) : option (result W) :=
  match es with
  | [] => Some (Ok w)
  | e :: es => match step w e with
               | Some (Ok w') => run_steps w' es
               | r => r
               end
  end.

(** An invariant that every possible event keeps, without failing, is kept by every run. *)
Lemma run_steps_inv (I : W → Prop) :
  (∀ w e r, I w → step w e = Some r → ∃ w', r = Ok w' ∧ I w') →
  ∀ es w r, I w → run_steps w es = Some r → ∃ w', r = Ok w' ∧ I w'.
Proof.
  intros Hstep es. induction es as [|e es IH]; intros w r Hw Hr; simpl in Hr; [naive_solver|].
  destruct (step w e) as [r'|] eqn:Hs; [|done].
  destruct (Hstep _ _ _ Hw Hs) as (w' & -> & Hw'). eauto.
Qed.
End running.

(** ** Finite checks *)

Fixpoint forall_from (n : nat) (x : Z) (P : Z → bool) : bool :=
  match n with O => true | S n => P x && forall_from n (x + 1) P end.

(** A decidable property of all numbers below [n], to be computed. *)
Definition forall_upto (n : Z) (P : Z → bool) : bool := forall_from (Z.to_nat n) 0 P.

Lemma forall_upto_ok n P x : forall_upto n P = true → 0 ≤ x < n → P x = true.
Proof.
  assert (Hgo : ∀ k a, forall_from k a P = true → a ≤ x < a + Z.of_nat k → P x = true).
  { induction k as [|k IH]; intros a H Hx; simpl in *; [lia|].
    apply andb_true_iff in H as [H1 H2]. destruct (decide (x = a)) as [->|]; [done|].
    apply (IH (a + 1)); [done | lia]. }
  intros H Hx. apply (Hgo _ _ H). lia.
Qed.
