(* ===== verification/CMem.v ===== *)
(** * Machine integers, byte order and byte-addressed memory

    The C types the sources use, kept at their width, the byte-order helpers of
    misc/byteorder.h for a little-endian build ([-DBADVPN_LITTLE_ENDIAN] in
    Android.mk), the overflow-checked sizes of misc/bsize.h, the rounding
    helpers of misc/balign.h, and a flat memory: a finite map from addresses to
    byte values, in which an access to an address that is not in the map is a
    fault.  Pointers are addresses, so that pointer arithmetic and aliasing are
    those of the code. *)

From S2P Require Import Prelude.

(** ** Integer types *)

Definition INT_MAX : Z := 2 ^ 31 - 1.
Definition UINT16_MAX : Z := 2 ^ 16 - 1.
Definition UINT64_MAX : Z := 2 ^ 64 - 1.
(** [size_t] of the 32-bit ABI (armeabi) the library is built for. *)
Definition SIZE_MAX : Z := 2 ^ 32 - 1.

Definition to_u8 (x : Z) : Z := x mod 2 ^ 8.
Definition to_u16 (x : Z) : Z := x mod 2 ^ 16.
Definition to_u32 (x : Z) : Z := x mod 2 ^ 32.
Definition to_u64 (x : Z) : Z := x mod 2 ^ 64.
Definition to_size (x : Z) : Z := x mod (SIZE_MAX + 1).

Definition is_int (x : Z) : Prop := - INT_MAX - 1 ≤ x ≤ INT_MAX.
Definition is_byte (b : Z) : Prop := 0 ≤ b < 256.

Definition bmin_int (a b : Z) : Z := if a <? b then a else b.
Definition bmax_uint64 (a b : Z) : Z := if b <? a then a else b.

(** [B_COMPARE(a, b)] of misc/compare.h *)
Definition B_COMPARE (a b : Z) : Z := Z.b2z (b <? a) - Z.b2z (a <? b).

(** ** Bytes of integers *)

(** The [n] bytes of an integer, least significant first. *)
Fixpoint le_bytes (n : nat) (x : Z) : list Z :=
  match n with
  | O => []
  | S n => x mod 256 :: le_bytes n (x / 256)
  end.

(** The integer with the given bytes, least significant first. *)
Fixpoint le_value (bs : list Z) : Z :=
  match bs with
  | [] => 0
  | b :: bs => b + 256 * le_value bs
  end.

(** The object representation of an integer and its value, host order. *)
Definition badvpn_reverse16 (x : Z) : Z := le_value (reverse (le_bytes 2 x)).
Definition badvpn_reverse32 (x : Z) : Z := le_value (reverse (le_bytes 4 x)).

Definition hton8 (x : Z) : Z := to_u8 x.
Definition hton16 (x : Z) : Z := badvpn_reverse16 (to_u16 x).
Definition hton32 (x : Z) : Z := badvpn_reverse32 (to_u32 x).
Definition htol8 (x : Z) : Z := to_u8 x.
Definition htol16 (x : Z) : Z := to_u16 x.
Definition ntoh8 (x : Z) : Z := hton8 x.
Definition ntoh16 (x : Z) : Z := hton16 x.
Definition ntoh32 (x : Z) : Z := hton32 x.
Definition ltoh8 (x : Z) : Z := htol8 x.
Definition ltoh16 (x : Z) : Z := htol16 x.

(** ** Rounding (misc/balign.h) *)

Definition bdivide_up (a b : Z) : Z :=
  let r := a mod b in if 0 <? r then a / b + 1 else a / b.

(** ** Overflow-checked sizes (misc/bsize.h) *)

Record bsize_t := { is_overflow : bool; bs_value : Z }.

Definition bsize_fromsize (v : Z) : bsize_t := {| is_overflow := false; bs_value := v |}.

Definition bsize_overflow : bsize_t := {| is_overflow := true; bs_value := 0 |}.

Definition bsize_fromint (v : Z) : bsize_t :=
  {| is_overflow := (v <? 0) || (SIZE_MAX <? v); bs_value := to_size v |}.

(** [None] is the failure return. *)
Definition bsize_tosize (s : bsize_t) : option Z := if is_overflow s then None else Some (bs_value s).

Definition bsize_toint (s : bsize_t) : option Z :=
  if is_overflow s || (INT_MAX <? bs_value s) then None else Some (bs_value s).

Definition bsize_add (s1 s2 : bsize_t) : bsize_t :=
  {| is_overflow := is_overflow s1 || is_overflow s2
                    || (SIZE_MAX - bs_value s1 <? bs_value s2);
     bs_value := to_size (bs_value s1 + bs_value s2) |}.

Definition bsize_max (s1 s2 : bsize_t) : bsize_t :=
  {| is_overflow := is_overflow s1 || is_overflow s2;
     bs_value := to_size (Z.b2z (bs_value s2 <? bs_value s1) * bs_value s1
                          + Z.b2z (bs_value s1 <=? bs_value s2) * bs_value s2) |}.

Definition bsize_mul (s1 s2 : bsize_t) : bsize_t :=
  {| is_overflow := is_overflow s1 || is_overflow s2
       || (negb (bs_value s1 =? 0) && (SIZE_MAX / bs_value s1 <? bs_value s2));
     bs_value := to_size (bs_value s1 * bs_value s2) |}.

(** ** Memory *)

(** Addresses; [NULL] is 0. *)
Abbreviation ptr := Z.
Definition NULL : ptr := 0.

Abbreviation mem := (gmap Z Z).

Fixpoint load (m : mem) (p : ptr) (n : nat) : result (list Z) :=
  match n with
  | O => Ok []
  | S n => b ← or_fault BadAccess (m !! p); bs ← load m (p + 1) n; Ok (b :: bs)
  end.

Fixpoint store (m : mem) (p : ptr) (bs : list Z) : result mem :=
  match bs with
  | [] => Ok m
  | b :: bs => _ ← or_fault BadAccess (m !! p); store (<[p := b]> m) (p + 1) bs
  end.

(** [memcpy]/[memmove]: the source is read before the destination is written. *)
Definition memmove (m : mem) (dst src : ptr) (n : Z) : result mem :=
  bs ← load m src (Z.to_nat n); store m dst bs.

Definition load_u16 (m : mem) (p : ptr) : result Z := le_value <$> load m p 2.
Definition store_u16 (m : mem) (p : ptr) (x : Z) : result mem := store m p (le_bytes 2 x).
(** An [int] object; the sources only keep non-negative values in them. *)
Definition load_int (m : mem) (p : ptr) : result Z := le_value <$> load m p 4.
Definition store_int (m : mem) (p : ptr) (x : Z) : result mem := store m p (le_bytes 4 x).

(** [p .. p + n) is allocated. *)
Definition mapped (m : mem) (p : ptr) (n : Z) : Prop :=
  ∀ a, p ≤ a < p + n → is_Some (m !! a).

(** The bytes [bs] are at [p]. *)
Definition holds_at (m : mem) (p : ptr) (bs : list Z) : Prop :=
  ∀ (i : nat) b, bs !! i = Some b → m !! (p + Z.of_nat i) = Some b.

(** [malloc(n)] returning [p]: the bytes of the new block, here zero, are added. *)
Fixpoint map_block (m : mem) (p : ptr) (n : nat) : mem :=
  match n with O => m | S n => <[p := 0]> (map_block m (p + 1) n) end.

(** ** Lemmas: integers *)

Lemma length_le_bytes n x : length (le_bytes n x) = n.
Proof. revert x. induction n; intros; simpl; auto. Qed.

Lemma le_bytes_bytes n x : Forall is_byte (le_bytes n x).
Proof.
  revert x. induction n; intros x; simpl; constructor; auto.
  apply Z.mod_pos_bound. lia.
Qed.

Lemma le_value_bytes n x : 0 ≤ x < 256 ^ Z.of_nat n → le_value (le_bytes n x) = x.
Proof.
  revert x. induction n as [|n IH]; intros x Hx.
  { simpl in *. lia. }
  cbn [le_bytes le_value]. rewrite IH.
  { pose proof (Z.div_mod x 256 ltac:(lia)). lia. }
  rewrite Nat2Z.inj_succ, Z.pow_succ_r in Hx by lia.
  split; [apply Z.div_pos; lia | apply Z.div_lt_upper_bound; lia].
Qed.

Lemma le_value_bound bs : Forall is_byte bs → 0 ≤ le_value bs < 256 ^ Z.of_nat (length bs).
Proof.
  induction 1 as [|b bs Hb Hbs IH]; [simpl; lia|]. cbn [length le_value].
  rewrite Nat2Z.inj_succ, Z.pow_succ_r by lia. unfold is_byte in Hb. lia.
Qed.

Lemma le_bytes_value bs : Forall is_byte bs → le_bytes (length bs) (le_value bs) = bs.
Proof.
  induction 1 as [|b bs Hb Hbs IH]; [done|]. cbn [length le_value le_bytes].
  unfold is_byte in Hb. f_equal.
  - rewrite Z.mul_comm, Z.mod_add, Z.mod_small; lia.
  - rewrite Z.mul_comm, Z.div_add, Z.div_small by lia. exact IH.
Qed.

Lemma bdivide_up_spec a b :
  0 ≤ a → 0 < b → b * bdivide_up a b - b < a ≤ b * bdivide_up a b.
Proof.
  intros Ha Hb. unfold bdivide_up.
  pose proof (Z.div_mod a b ltac:(lia)). pose proof (Z.mod_pos_bound a b Hb).
  case_if; nia.
Qed.

Lemma bdivide_up_nonneg a b : 0 ≤ a → 0 < b → 0 ≤ bdivide_up a b.
Proof.
  intros. unfold bdivide_up. pose proof (Z.div_pos a b ltac:(lia) ltac:(lia)).
  case_if; lia.
Qed.

Lemma bdivide_up_mono a a' b : 0 ≤ a ≤ a' → 0 < b → bdivide_up a b ≤ bdivide_up a' b.
Proof.
  intros. pose proof (bdivide_up_spec a b ltac:(lia) ltac:(lia)).
  pose proof (bdivide_up_spec a' b ltac:(lia) ltac:(lia)). nia.
Qed.

(** ** Lemmas: memory *)

Lemma mapped_sub m p n q k : mapped m p n → p ≤ q → q + k ≤ p + n → mapped m q k.
Proof. intros H ?? a ?. apply H. lia. Qed.

Lemma mapped_insert m p n a b : mapped m p n → mapped (<[a := b]> m) p n.
Proof.
  intros H x Hx. destruct (decide (a = x)) as [->|].
  - rewrite lookup_insert_eq. eauto.
  - rewrite lookup_insert_ne by done. auto.
Qed.

Lemma holds_at_nil m p : holds_at m p [].
Proof. intros i b. by rewrite lookup_nil. Qed.

Lemma holds_at_cons m p b bs :
  holds_at m p (b :: bs) ↔ m !! p = Some b ∧ holds_at m (p + 1) bs.
Proof.
  split.
  - intros H. split.
    + specialize (H 0%nat b eq_refl). by rewrite Z.add_0_r in H.
    + intros i c Hi. specialize (H (S i) c Hi). by replace (p + 1 + Z.of_nat i) with (p + Z.of_nat (S i)) by lia.
  - intros [H1 H2] [|i] c Hi; simplify_eq/=.
    + by rewrite Z.add_0_r.
    + replace (p + Z.of_nat (S i)) with (p + 1 + Z.of_nat i) by lia. auto.
Qed.

Lemma load_ok m p n bs : load m p n = Ok bs ↔ length bs = n ∧ holds_at m p bs.
Proof.
  revert p bs. induction n as [|n IH]; intros p bs; simpl.
  - split.
    + intros. simplify_eq. split; [done | apply holds_at_nil].
    + intros [Hl _]. by apply nil_length_inv in Hl as ->.
  - split.
    + intros H. inv_ok.
      match goal with HL : load _ _ _ = Ok _ |- _ => apply IH in HL as [<- Hh] end.
      split; [done|]. by apply holds_at_cons.
    + intros [Hl Hh]. destruct bs as [|b bs]; [done|].
      apply holds_at_cons in Hh as [Hb Hh]. rewrite Hb. simpl.
      rewrite (proj2 (IH (p + 1) bs)); [done|]. simpl in Hl. split; [lia | done].
Qed.

Lemma load_mapped m p n : mapped m p (Z.of_nat n) → ∃ bs, load m p n = Ok bs.
Proof.
  revert p. induction n as [|n IH]; intros p H; simpl; [eauto|].
  destruct (H p) as [b Hb]; [lia|]. rewrite Hb. simpl.
  destruct (IH (p + 1)) as [bs Hbs].
  { eapply mapped_sub; [exact H | lia | lia]. }
  rewrite Hbs. eauto.
Qed.

(** What a store leaves in memory, address by address. *)
Lemma store_lookup m p bs m' a :
  store m p bs = Ok m' →
  m' !! a = if decide (p ≤ a < p + Z.of_nat (length bs))
            then bs !! Z.to_nat (a - p) else m !! a.
Proof.
  revert m p. induction bs as [|b bs IH]; intros m p H; cbn [store length] in H.
  - simplify_eq. case_decide; [simpl in *; lia | done].
  - inv_ok. rewrite (IH _ _ H). simpl length.
    destruct (decide (a = p)) as [->|Hne].
    + rewrite decide_False by lia. rewrite decide_True by lia.
      rewrite lookup_insert_eq. by rewrite Z.sub_diag.
    + case_decide as D; [rewrite decide_True by lia | rewrite decide_False by lia].
      * replace (Z.to_nat (a - p)) with (S (Z.to_nat (a - (p + 1)))) by lia. done.
      * by rewrite lookup_insert_ne.
Qed.

Lemma store_mapped_ok m p bs :
  mapped m p (Z.of_nat (length bs)) → ∃ m', store m p bs = Ok m'.
Proof.
  revert m p. induction bs as [|b bs IH]; intros m p H; cbn [store]; [eauto|].
  destruct (H p) as [c Hc]; [simpl; lia|]. rewrite Hc. simpl.
  apply IH. apply mapped_insert. eapply mapped_sub; [exact H | lia |]. simpl. lia.
Qed.

Lemma store_app m p bs cs :
  store m p (bs ++ cs) = m ← store m p bs; store m (p + Z.of_nat (length bs)) cs.
Proof.
  revert m p. induction bs as [|b bs IH]; intros m p; cbn [store app length].
  - by rewrite ok_bind, Z.add_0_r.
  - destruct (m !! p); [|done]. simpl. rewrite IH. destruct (store _ _ bs); simpl; [|done].
    f_equal. lia.
Qed.

(** A store never unmaps or maps anything. *)
Lemma store_mapped m p bs m' q n : store m p bs = Ok m' → mapped m q n → mapped m' q n.
Proof.
  revert m p. induction bs as [|b bs IH]; intros m p H Hm; cbn [store] in H; inv_ok; [done|].
  eapply IH; [done|]. by apply mapped_insert.
Qed.

Lemma store_holds m p bs m' : store m p bs = Ok m' → holds_at m' p bs.
Proof.
  intros H i b Hi. rewrite (store_lookup _ _ _ _ _ H).
  pose proof (lookup_lt_Some _ _ _ Hi).
  rewrite decide_True by lia. replace (Z.to_nat (p + Z.of_nat i - p)) with i by lia. done.
Qed.

Lemma store_frame m p bs m' q cs :
  store m p bs = Ok m' → holds_at m q cs →
  q + Z.of_nat (length cs) ≤ p ∨ p + Z.of_nat (length bs) ≤ q →
  holds_at m' q cs.
Proof.
  intros H Hh Hd i b Hi. rewrite (store_lookup _ _ _ _ _ H).
  pose proof (lookup_lt_Some _ _ _ Hi). rewrite decide_False by lia. by apply Hh.
Qed.

Lemma holds_at_app m p bs cs :
  holds_at m p (bs ++ cs) ↔ holds_at m p bs ∧ holds_at m (p + Z.of_nat (length bs)) cs.
Proof.
  revert p. induction bs as [|b bs IH]; intros p; cbn [length app].
  - rewrite Z.add_0_r. split; [split; [apply holds_at_nil | done] | by intros [_ ?]].
  - rewrite !holds_at_cons, IH. replace (p + Z.of_nat (S (length bs)))
      with (p + 1 + Z.of_nat (length bs)) by lia. naive_solver.
Qed.

Lemma holds_at_mapped m p bs : holds_at m p bs → mapped m p (Z.of_nat (length bs)).
Proof.
  intros H a Ha. destruct (lookup_lt_is_Some_2 bs (Z.to_nat (a - p))) as [b Hb]; [lia|].
  specialize (H _ _ Hb). replace (p + Z.of_nat (Z.to_nat (a - p))) with a in H by lia. eauto.
Qed.

Lemma mapped_holds m p n : 0 ≤ n → mapped m p n → ∃ bs, length bs = Z.to_nat n ∧ holds_at m p bs.
Proof.
  intros Hn H. destruct (load_mapped m p (Z.to_nat n)) as [bs Hbs].
  { by rewrite Z2Nat.id. }
  apply load_ok in Hbs. eauto.
Qed.

Lemma holds_at_unique m p bs cs :
  holds_at m p bs → holds_at m p cs → length bs = length cs → bs = cs.
Proof.
  revert p cs. induction bs as [|b bs IH]; intros p [|c cs] H1 H2 Hl; try done.
  apply holds_at_cons in H1 as [? H1]. apply holds_at_cons in H2 as [? H2].
  simplify_eq/=. f_equal. eauto.
Qed.

Lemma holds_at_take m p bs n : holds_at m p bs → holds_at m p (take n bs).
Proof.
  intros H. rewrite <- (take_drop n bs) in H. apply holds_at_app in H. naive_solver.
Qed.

Lemma holds_at_drop m p bs n :
  (n ≤ length bs)%nat → holds_at m p bs → holds_at m (p + Z.of_nat n) (drop n bs).
Proof.
  intros Hn H. rewrite <- (take_drop n bs) in H. apply holds_at_app in H as [_ H].
  by rewrite length_take_le in H.
Qed.

Lemma load_u16_ok m p b0 b1 :
  holds_at m p [b0; b1] → load_u16 m p = Ok (b0 + 256 * b1).
Proof.
  intros H. unfold load_u16. rewrite (proj2 (load_ok m p 2 [b0; b1])) by done.
  simpl. f_equal. lia.
Qed.

Lemma load_int_ok m p bs :
  length bs = 4%nat → holds_at m p bs → load_int m p = Ok (le_value bs).
Proof. intros Hl H. unfold load_int. by rewrite (proj2 (load_ok m p 4 bs)). Qed.

Lemma memmove_ok m dst src n bs :
  length bs = Z.to_nat n → holds_at m src bs → mapped m dst n → 0 ≤ n →
  ∃ m', memmove m dst src n = Ok m' ∧ store m dst bs = Ok m'.
Proof.
  intros Hl Hh Hm Hn. unfold memmove. rewrite (proj2 (load_ok _ _ _ _) (conj Hl Hh)).
  simpl. destruct (store_mapped_ok m dst bs) as [m' Hs]; [|eauto].
  by rewrite Hl, Z2Nat.id.
Qed.

Lemma map_block_mapped m p n : mapped (map_block m p n) p (Z.of_nat n).
Proof.
  revert p. induction n as [|n IH]; intros p a Ha; [simpl in *; lia|]. cbn [map_block].
  destruct (decide (p = a)) as [->|].
  - rewrite lookup_insert_eq. eauto.
  - rewrite lookup_insert_ne by done. apply IH. lia.
Qed.

Lemma map_block_frame m p n a : ¬ (p ≤ a < p + Z.of_nat n) → map_block m p n !! a = m !! a.
Proof.
  revert p. induction n as [|n IH]; intros p Ha; [done|]. cbn [map_block].
  rewrite lookup_insert_ne by lia. apply IH. lia.
Qed.

#[export] Hint Resolve store_mapped store_holds holds_at_nil holds_at_mapped
  le_bytes_bytes : csem.

(** ** misc/balloc.h

    [malloc] is the C library's: [malloc n] is the address of a new block of [n] bytes, or
    [None] when there is no memory.  [malloc_documented] is what the components rely on; on the
    32-bit ABI no object is larger than [PTRDIFF_MAX], which is [INT_MAX]. *)

Module BAlloc.
Section balloc.
Context (malloc : Z → option ptr).

Definition malloc_documented : Prop :=
  ∀ n p, malloc n = Some p → 0 < p ∧ n ≤ INT_MAX.

Definition BAlloc (bytes : Z) : option ptr := if bytes =? 0 then malloc 1 else malloc bytes.

Definition BAllocSize (bytes : bsize_t) : option ptr :=
  if is_overflow bytes then None else BAlloc (bs_value bytes).

Definition BAllocArray (count bytes : Z) : option ptr :=
  if (count =? 0) || (bytes =? 0) then malloc 1 else
  if SIZE_MAX / bytes <? count then None else BAlloc (to_size (count * bytes)).

Definition BAllocArray2 (count2 count1 bytes : Z) : option ptr :=
  if (count2 =? 0) || (count1 =? 0) || (bytes =? 0) then malloc 1 else
  if SIZE_MAX / bytes <? count1 then None else
  if SIZE_MAX / to_size (count1 * bytes) <? count2 then None else
  BAlloc (to_size (count2 * to_size (count1 * bytes))).

(** A successful array allocation is for exactly the bytes of the array. *)
Lemma BAllocArray_ok count bytes p :
  malloc_documented → 0 < count → 0 < bytes → BAllocArray count bytes = Some p →
  0 < p ∧ count * bytes ≤ INT_MAX.
Proof.
  intros Hm Hc Hb H. unfold BAllocArray, BAlloc in H.
  rewrite (proj2 (Z.eqb_neq count 0)), (proj2 (Z.eqb_neq bytes 0)) in H by lia. simpl in H.
  destruct (Z.ltb_spec (SIZE_MAX / bytes) count) as [|Hle]; [done|].
  assert (count * bytes ≤ SIZE_MAX).
  { pose proof (Z.mul_div_le SIZE_MAX bytes Hb). nia. }
  unfold to_size in H. rewrite Z.mod_small in H by nia.
  rewrite (proj2 (Z.eqb_neq _ _)) in H by nia. by apply Hm.
Qed.
End balloc.
End BAlloc.
