(* ===== verification/Signals.v ===== *)
(** * Signals: system/BUnixSignal.c, system/BSignal.c, and the set-up in system/BNetwork.c

    The program catches signals with a pipe for each (the self-pipe variant, which Android's build uses): a C signal
    handler writes a byte to it, and the event loop reads it.

    [UnixSignal] and [Signal] have the functions, over the descriptors that are open, those the event loop
    watches, and the signals with a handler and those that are ignored; [SignalFacts] shows that nothing is left behind, neither by a
    failure on the way nor at the end, and that a signal that is caught is reported.

    [dbg] is whether assertions are compiled in ([NDEBUG] is not defined): what the program does to these two
    objects when it does not use them ([Program.v]) depends on it. *)

From S2P Require Import Prelude CMem.

(** [ASSERT] of misc/debug.h, where it matters that it may be compiled out. *)
Definition assert_if {A} (dbg b : bool) (k : result A) : result A := ASSERT (negb dbg || b) ;; k.

(** ** The system *)

Record os := mkos {
  files : gset Z;
  watched : gset Z;
  handlers : gset Z;
  ignored : gset Z;
}.

(** A descriptor the kernel returns is not open; one that is closed is open, and not watched any more. *)
Definition open_fd (o : os) (n : Z) : result os :=
  ASSERT bool_decide (n ∉ files o) ;; Ok (mkos ({[n]} ∪ files o) (watched o) (handlers o) (ignored o)).

Definition close_fd (o : os) (n : Z) : result os :=
  ASSERT bool_decide (n ∈ files o) ;; ASSERT bool_decide (n ∉ watched o) ;;
  Ok (mkos (files o ∖ {[n]}) (watched o) (handlers o) (ignored o)).

Definition watch_fd (o : os) (n : Z) : result os :=
  ASSERT bool_decide (n ∈ files o) ;; ASSERT bool_decide (n ∉ watched o) ;;
  Ok (mkos (files o) ({[n]} ∪ watched o) (handlers o) (ignored o)).

Definition unwatch_fd (o : os) (n : Z) : result os :=
  ASSERT bool_decide (n ∈ watched o) ;; Ok (mkos (files o) (watched o ∖ {[n]}) (handlers o) (ignored o)).

(** [sigaction]: a handler, [SIG_DFL] and [SIG_IGN]. *)
Definition sigaction_handler (o : os) (signo : Z) : os := mkos (files o) (watched o) ({[signo]} ∪ handlers o) (ignored o ∖ {[signo]}).

Definition sigaction_default (o : os) (signo : Z) : os := mkos (files o) (watched o) (handlers o ∖ {[signo]}) (ignored o ∖ {[signo]}).

Definition sigaction_ignore (o : os) (signo : Z) : os :=
  mkos (files o) (watched o) (handlers o ∖ {[signo]}) ({[signo]} ∪ ignored o).

Module UnixSignal.

Definition BUNIXSIGNAL_MAX_SIGNALS : Z := 64.

Record entry := mke {
  signo : Z;
  pipe_read : Z;
  pipe_write : Z;
}.

(** The array of entries: NULL, allocated, or freed with the pointer left. *)
Inductive array := Null | Allocated | Freed.

#[global] Instance array_eq_dec : EqDecision array.
Proof. solve_decision. Defined.

(** [entries] are the first [num_entries] of the array. *)
Record t := mk {
  arr : array;
  entries : list entry;
}.

(** What the system answers for a signal: the two ends of the pipe, and whether the other calls succeed. *)
Record answer := mka {
  on_pipe : option (Z * Z);
  on_nonblock : bool;
  on_add : bool;
  on_sigaction : bool;
}.

Definition free_selfpipe_entry (o : os) (e : entry) : result os :=
  let o := sigaction_default o (signo e) in
  o ← unwatch_fd o (pipe_read e);
  o ← close_fd o (pipe_read e);
  close_fd o (pipe_write e).

(** [while (o->num_entries > 0)] *)
Fixpoint free_entries (o : os) (es : list entry) : result os :=
  match es with
  | [] => Ok o
  | e :: es => o ← free_entries o es; free_selfpipe_entry o e
  end.

Definition BFree_array (a : array) : result array :=
  match a with Null => Ok Null | Allocated => Ok Freed | Freed => Fault BadAccess end.

(** The body of the loop for a signal of the set; [None] when it fails, after [loop_fail2], [loop_fail1] or [loop_fail0]. *)
Definition init_entry (o : os) (i : Z) (a : answer) : result (os * option entry) :=
  match on_pipe a with
  | None => Ok (o, None)
  | Some (r, w) =>
      o ← open_fd o r;
      o ← open_fd o w;
      let loop_fail1 o := o ← close_fd o r; o ← close_fd o w; Ok (o, None) in
      if negb (on_nonblock a) then loop_fail1 o else
      if negb (on_add a) then loop_fail1 o else
      o ← watch_fd o r;
      if negb (on_sigaction a) then o ← unwatch_fd o r; loop_fail1 o
      else Ok (sigaction_handler o i, Some (mke i r w))
  end.

(** The loop over the signals, from [i]; the flag is whether it came to the end. *)
Fixpoint init_loop (o : os) (sset : list Z) (ans : Z → answer) (sigs : list Z) (es : list entry)
    : result (os * list entry * bool) :=
  match sigs with
  | [] => Ok (o, es, true)
  | i :: sigs =>
      if negb (bool_decide (i ∈ sset)) then init_loop o sset ans sigs es else
      '(o, e) ← init_entry o i (ans i);
      match e with
      | None => Ok (o, es, false)
      | Some e => init_loop o sset ans sigs (es ++ [e])
      end
  end.

(** [alloc] is whether the array can be allocated; the flag is the return value. *)
Definition Init (o : os) (old : t) (sset : list Z) (alloc : bool) (ans : Z → answer) : result (os * t * bool) :=
  if negb alloc then Ok (o, mk Null (entries old), false) else
  '(o, es, ok) ← init_loop o sset ans (seqZ 1 (BUNIXSIGNAL_MAX_SIGNALS - 1)) [];
  if (ok : bool) then Ok (o, mk Allocated es, true) else
  o ← free_entries o es;
  a ← BFree_array Allocated;
  Ok (o, mk a [], false).

(** Blocking the signals has no effect here. *)
Definition Free (o : os) (s : t) : result (os * t) :=
  o ← free_entries o (entries s);
  a ← BFree_array (arr s);
  Ok (o, mk a []).

(** The C signal handler writes a byte to the pipe of the signal, whose buffer holds [capacity]; [unread] are the bytes in
    each, by signal. *)
Definition signal_handler (capacity : Z) (signo : Z) (unread : gmap Z Z) : result (gmap Z Z) :=
  ASSERT (0 <=? signo) ;;
  ASSERT (signo <? BUNIXSIGNAL_MAX_SIGNALS) ;;
  n ← or_fault BadAccess (unread !! signo);
  Ok (if n <? capacity then <[signo := n + 1]> unread else unread).

(** The event loop's handler of a pipe reads a byte; the flag is whether it calls the user's handler, with the entry's signal. *)
Definition pipe_read_fd_handler (e : entry) (unread : gmap Z Z) : result (gmap Z Z * bool) :=
  n ← or_fault BadAccess (unread !! signo e);
  Ok (if n =? 0 then (unread, false) else (<[signo e := n - 1]> unread, true)).

End UnixSignal.

Module Signal.

(** [bsignal_global] *)
Record t := mk {
  initialized : bool;
  finished : bool;
  signal : UnixSignal.t;
}.

Definition SIGINT : Z := 2.
Definition SIGTERM : Z := 15.

(** Static storage is zero. *)
Definition initial : t := mk false false (UnixSignal.mk UnixSignal.Null []).

Definition Init (dbg : bool) (o : os) (g : t) (alloc : bool) (ans : Z → UnixSignal.answer) : result (os * t * bool) :=
  assert_if dbg (negb (initialized g))
  ('(o, s, ok) ← UnixSignal.Init o (signal g) [SIGTERM; SIGINT] alloc ans;
   if (ok : bool) then Ok (o, mk true false s, true) else Ok (o, mk (initialized g) (finished g) s, false)).

Definition Finish (dbg : bool) (o : os) (g : t) : result (os * t) :=
  assert_if dbg (initialized g)
  (assert_if dbg (negb (finished g))
  ('(o, s) ← UnixSignal.Free o (signal g);
   Ok (o, mk (initialized g) true s))).

(** The handler of the signals calls the program's. *)
Definition unix_signal_handler (dbg : bool) (g : t) (signo : Z) : result unit :=
  assert_if dbg ((signo =? SIGTERM) || (signo =? SIGINT))
  (assert_if dbg (initialized g) (assert_if dbg (negb (finished g)) (Ok tt))).

End Signal.

Definition SIGPIPE : Z := 13.

(** [bnetwork_initialized] and [BNetwork_GlobalInit], with the system: SIGPIPE is ignored from then on; [sigaction_ok] is
    whether that call succeeds, the second flag the return value. *)
Definition BNetwork_GlobalInit (dbg : bool) (o : os) (initialized sigaction_ok : bool) : result (os * bool * bool) :=
  assert_if dbg (negb initialized)
  (if negb sigaction_ok then Ok (o, initialized, false) else Ok (sigaction_ignore o SIGPIPE, true, true)).

Module SignalFacts.
Import UnixSignal.

(** The ends of the entries' pipes, and their signals. *)
Definition fds_of (es : list entry) : list Z := es ≫= λ e, [pipe_read e; pipe_write e].
Definition reads_of (es : list entry) : list Z := pipe_read <$> es.
Definition signals_of (es : list entry) : list Z := signo <$> es.

(** The system with the entries. *)
Definition with_entries (o : os) (es : list entry) : os :=
  mkos (files o ∪ list_to_set (fds_of es)) (watched o ∪ list_to_set (reads_of es))
       (handlers o ∪ list_to_set (signals_of es)) (ignored o).

(** Entries of other descriptors and signals than those in use. *)
Record fresh (o : os) (es : list entry) : Prop := {
  f_nodup : NoDup (fds_of es);
  f_signals : NoDup (signals_of es);
  f_files : ∀ n, n ∈ fds_of es → n ∉ files o;
  f_watched : ∀ n, n ∈ fds_of es → n ∉ watched o;
  f_handlers : ∀ n, n ∈ signals_of es → n ∉ handlers o;
  f_ignored : ∀ n, n ∈ signals_of es → n ∉ ignored o;
}.

Lemma fds_cons e es : fds_of (e :: es) = pipe_read e :: pipe_write e :: fds_of es.
Proof. done. Qed.

Lemma reads_fds n es : n ∈ reads_of es → n ∈ fds_of es.
Proof.
  unfold reads_of, fds_of. rewrite list_elem_of_fmap, list_elem_of_bind. intros (e & -> & He). exists e.
  split; [by left | done].
Qed.

Lemma os_eq (o o' : os) :
  files o = files o' → watched o = watched o' → handlers o = handlers o' → ignored o = ignored o' → o = o'.
Proof. destruct o, o'. simpl. by intros -> -> -> ->. Qed.

Lemma open_ok o n : n ∉ files o → open_fd o n = Ok (mkos ({[n]} ∪ files o) (watched o) (handlers o) (ignored o)).
Proof. intros H. unfold open_fd. by rewrite bool_decide_true. Qed.

Lemma close_fd_ok o n : n ∈ files o → n ∉ watched o → close_fd o n = Ok (mkos (files o ∖ {[n]}) (watched o) (handlers o) (ignored o)).
Proof. intros H1 H2. unfold close_fd. by rewrite !bool_decide_true. Qed.

Lemma watch_ok o n : n ∈ files o → n ∉ watched o → watch_fd o n = Ok (mkos (files o) ({[n]} ∪ watched o) (handlers o) (ignored o)).
Proof. intros H1 H2. unfold watch_fd. by rewrite !bool_decide_true. Qed.

Lemma unwatch_ok o n : n ∈ watched o → unwatch_fd o n = Ok (mkos (files o) (watched o ∖ {[n]}) (handlers o) (ignored o)).
Proof. intros H. unfold unwatch_fd. by rewrite bool_decide_true. Qed.

(** Freeing entries leaves what was there without them. *)
Lemma free_entries_ok es : ∀ o, fresh o es → free_entries (with_entries o es) es = Ok o.
Proof.
  induction es as [|e es IH]; intros o [Hn Hsn Hf Hw Hh Hg]; cbn [free_entries].
  - f_equal. apply os_eq; simpl; set_solver +.
  - rewrite fds_cons in *. apply NoDup_cons in Hn as [Hr Hn]. apply NoDup_cons in Hn as [Hwr Hn].
    apply NoDup_cons in Hsn as [Hs Hsn]. rewrite not_elem_of_cons in Hr. destruct Hr as [Hrw Hr].
    set (o1 := mkos ({[pipe_read e]} ∪ ({[pipe_write e]} ∪ files o)) ({[pipe_read e]} ∪ watched o) ({[signo e]} ∪ handlers o)
      (ignored o)).
    assert (with_entries o (e :: es) = with_entries o1 es) as ->.
    { unfold with_entries. rewrite fds_cons. apply os_eq; simpl; set_solver +. }
    assert (Hr0 : pipe_read e ∉ files o) by (apply Hf; left).
    assert (Hw0 : pipe_write e ∉ files o) by (apply Hf; right; left).
    assert (Hs0 : signo e ∉ handlers o) by (apply Hh; left). assert (Hg0 : signo e ∉ ignored o) by (apply Hg; left).
    assert (Hr1 : pipe_read e ∉ watched o) by (apply Hw; left).
    assert (Hw1 : pipe_write e ∉ watched o) by (apply Hw; right; left).
    rewrite IH; [|split; simpl; [done|done|..]].
    2:{ intros n Hin. rewrite !elem_of_union, !elem_of_singleton. intros [-> | [-> | Hx]]; [done|done|].
        revert Hx. apply Hf. by do 2 right. }
    2:{ intros n Hin. rewrite !elem_of_union, !elem_of_singleton. intros [-> | Hx]; [done|].
        revert Hx. apply Hw. by do 2 right. }
    2:{ intros n Hin. rewrite !elem_of_union, !elem_of_singleton. intros [-> | Hx]; [done|].
        revert Hx. apply Hh. by right. }
    2:{ intros n Hin. apply Hg. by right. }
    rewrite ok_bind. unfold free_selfpipe_entry, sigaction_default, o1. cbn [files watched handlers ignored].
    rewrite unwatch_ok, ok_bind by (simpl; set_solver +). cbn [files watched handlers ignored].
    rewrite close_fd_ok, ok_bind by (simpl; set_solver + Hr1). cbn [files watched handlers ignored].
    rewrite close_fd_ok by (simpl; set_solver + Hrw Hw1). cbn [files watched handlers ignored].
    f_equal. apply os_eq; simpl; [set_solver + Hr0 Hw0 | set_solver + Hr1 | set_solver + Hs0 | set_solver + Hg0].
Qed.

Lemma fds_snoc es e : fds_of (es ++ [e]) = fds_of es ++ [pipe_read e; pipe_write e].
Proof. unfold fds_of. rewrite bind_app. simpl. done. Qed.

Lemma fresh_snoc o es e :
  fresh o es → pipe_read e ≠ pipe_write e →
  pipe_read e ∉ fds_of es → pipe_write e ∉ fds_of es → signo e ∉ signals_of es →
  pipe_read e ∉ files o → pipe_write e ∉ files o → pipe_read e ∉ watched o → pipe_write e ∉ watched o →
  signo e ∉ handlers o → signo e ∉ ignored o → fresh o (es ++ [e]).
Proof.
  intros [Hn Hsn Hf Hw Hh Hg] Hne Hr Hwr Hs Hrf Hwf Hrw Hww Hsh Hsg.
  unfold signals_of in *. split; rewrite ?fds_snoc; unfold signals_of; rewrite ?fmap_app; simpl.
  - apply NoDup_app. split; [done|]. split.
    + intros x Hx. rewrite elem_of_cons, list_elem_of_singleton. by intros [-> | ->].
    + apply NoDup_cons. split; [by rewrite list_elem_of_singleton | apply NoDup_singleton].
  - apply NoDup_app. split; [done|]. split; [|apply NoDup_singleton].
    intros x Hx. rewrite list_elem_of_singleton. by intros ->.
  - intros n. rewrite elem_of_app, elem_of_cons, list_elem_of_singleton. intros [?|[-> | ->]]; auto.
  - intros n. rewrite elem_of_app, elem_of_cons, list_elem_of_singleton. intros [?|[-> | ->]]; auto.
  - intros n. rewrite elem_of_app, list_elem_of_singleton. intros [?| ->]; auto.
  - intros n. rewrite elem_of_app, list_elem_of_singleton. intros [?| ->]; auto.
Qed.

(** Starting to catch one more signal. *)
Lemma init_entry_ok o es i a :
  fresh o es → i ∉ handlers o → i ∉ ignored o → i ∉ signals_of es →
  (∀ r w, on_pipe a = Some (r, w) → r ≠ w ∧ r ∉ files o ∧ w ∉ files o ∧ r ∉ watched o ∧ w ∉ watched o ∧
     r ∉ fds_of es ∧ w ∉ fds_of es) →
  init_entry (with_entries o es) i a = Ok (with_entries o es, None) ∨
  ∃ r w, on_pipe a = Some (r, w) ∧ fresh o (es ++ [mke i r w]) ∧
    init_entry (with_entries o es) i a = Ok (with_entries o (es ++ [mke i r w]), Some (mke i r w)).
Proof.
  intros Hf Hi Hig Hsi Hp. unfold init_entry. destruct (on_pipe a) as [[r w]|]; [|by left].
  destruct (Hp r w eq_refl) as (Hne & Hr & Hw & Hrw & Hww & Hre & Hwe).
  assert (Hrr : r ∉ reads_of es) by (by intros ?%reads_fds). assert (Hwr : w ∉ reads_of es) by (by intros ?%reads_fds).
  set (o0 := with_entries o es).
  assert (Hr0 : r ∉ files o0) by (simpl; set_solver + Hr Hre). assert (Hw0 : w ∉ files o0) by (simpl; set_solver + Hw Hwe).
  assert (Hr1 : r ∉ watched o0) by (simpl; set_solver + Hrw Hrr). assert (Hw1 : w ∉ watched o0) by (simpl; set_solver + Hww Hwr).
  rewrite open_ok, ok_bind by done. rewrite open_ok, ok_bind by (simpl; set_solver + Hw0 Hne). cbn [files watched handlers ignored].
  set (o2 := mkos ({[w]} ∪ ({[r]} ∪ files o0)) (watched o0) (handlers o0) (ignored o0)).
  assert (Hfail : (o3 ← close_fd o2 r; o4 ← close_fd o3 w; Ok (o4, @None entry)) = Ok (o0, None)).
  { rewrite close_fd_ok, ok_bind by (simpl; first [done | set_solver +]). cbn [files watched handlers ignored o2].
    rewrite close_fd_ok, ok_bind by (simpl; first [done | set_solver + Hne]). do 2 f_equal.
    apply os_eq; simpl; [set_solver + Hr0 Hw0 | done | done | done]. }
  destruct (on_nonblock a); cbn [negb]; [|by left]. destruct (on_add a); cbn [negb]; [|by left].
  rewrite watch_ok, ok_bind by (simpl; first [done | set_solver +]). destruct (on_sigaction a); cbn [negb].
  - right. exists r, w. split; [done|]. split.
    + by apply fresh_snoc.
    + do 2 f_equal. unfold sigaction_handler, with_entries, reads_of, signals_of. rewrite fds_snoc, !fmap_app.
      apply os_eq; simpl; [set_solver + | set_solver + | set_solver + | set_solver + Hig].
  - left. assert (unwatch_fd (mkos (files o2) ({[r]} ∪ watched o2) (handlers o2) (ignored o2)) r = Ok o2) as ->.
    { rewrite unwatch_ok by (simpl; set_solver +). f_equal. apply os_eq; simpl; [done | set_solver + Hr1 | done | done]. }
    by rewrite ok_bind.
Qed.

(** What the kernel returns for the signals' pipes: descriptors that are not in use; the signals are not handled or ignored. *)
Definition good_answers (o : os) (sset : list Z) (ans : Z → answer) : Prop :=
  (∀ i r w, i ∈ sset → on_pipe (ans i) = Some (r, w) → r ≠ w ∧ r ∉ files o ∧ w ∉ files o) ∧
  (∀ i j r w r' w', i ∈ sset → j ∈ sset → i ≠ j → on_pipe (ans i) = Some (r, w) → on_pipe (ans j) = Some (r', w') →
     r ≠ r' ∧ r ≠ w' ∧ w ≠ r' ∧ w ≠ w') ∧
  watched o ⊆ files o ∧ ∀ i, i ∈ sset → i ∉ handlers o ∧ i ∉ ignored o.

(** An entry is of a signal of the set, with the pipe the kernel made for it. *)
Definition made_for (sset : list Z) (ans : Z → answer) (e : entry) : Prop :=
  signo e ∈ sset ∧ on_pipe (ans (signo e)) = Some (pipe_read e, pipe_write e).

Lemma init_loop_ok o sset ans sigs : good_answers o sset ans → NoDup sigs → ∀ es,
  fresh o es → (∀ e, e ∈ es → made_for sset ans e ∧ signo e ∉ sigs) →
  ∃ es' ok, init_loop (with_entries o es) sset ans sigs es = Ok (with_entries o es', es', ok) ∧ fresh o es' ∧
    ∀ e, e ∈ es' → made_for sset ans e.
Proof.
  intros (Hp & Hpp & Hsub & Hh). induction sigs as [|i sigs IH]; intros Hnd es Hf Hes; cbn [init_loop].
  { exists es, true. split_and!; [done..|]. intros e He. by apply Hes. }
  apply NoDup_cons in Hnd as [Hi Hnd]. case_bool_decide as Hin; cbn [negb].
  - destruct (init_entry_ok o es i (ans i) Hf (proj1 (Hh i Hin)) (proj2 (Hh i Hin))) as [->|(r & w & Hpi & Hf' & ->)].
    + unfold signals_of. rewrite list_elem_of_fmap. intros (e & -> & He).
      destruct (Hes e He) as [_ Hnot]. apply Hnot. left.
    + intros r w Hpi. destruct (Hp i r w Hin Hpi) as (Hne & Hr & Hw).
      assert (Hfd : ∀ n, n = r ∨ n = w → n ∉ fds_of es).
      { intros n Hn. unfold fds_of. rewrite list_elem_of_bind. intros (e & Hx & He).
        destruct (Hes e He) as [[Hes1 Hes3] Hes2].
        destruct (Hpp i (signo e) r w _ _ Hin Hes1 ltac:(intros ->; apply Hes2; left) Hpi Hes3) as (? & ? & ? & ?).
        rewrite elem_of_cons, list_elem_of_singleton in Hx. naive_solver. }
      split_and!; auto; intros Hx; by apply Hsub in Hx.
    + rewrite ok_bind. exists es, false. split_and!; [done..|]. intros e He. by apply Hes.
    + rewrite ok_bind. apply IH; [done | done |]. intros e. rewrite elem_of_app, list_elem_of_singleton.
      intros [He| ->]; [|by split]. destruct (Hes e He) as [? Hnot]. rewrite not_elem_of_cons in Hnot. naive_solver.
  - apply IH; [done | done |]. intros e He. destruct (Hes e He) as [? Hnot]. rewrite not_elem_of_cons in Hnot. naive_solver.
Qed.

Lemma with_none o : with_entries o [] = o.
Proof. apply os_eq; simpl; set_solver +. Qed.

(** Nothing is left behind: by a failure, and after [Free]. *)
Lemma unix_signal_ok o old sset alloc ans :
  good_answers o sset ans →
  ∃ o' s ok, Init o old sset alloc ans = Ok (o', s, ok) ∧
    if ok then arr s = Allocated ∧ Free o' s = Ok (o, mk Freed []) ∧ files o ⊆ files o' ∧ o' = with_entries o (entries s)
              ∧ fresh o (entries s) ∧ ∀ e, e ∈ entries s → made_for sset ans e
    else o' = o ∧ (arr s = Null ∧ entries s = entries old ∨ arr s = Freed ∧ entries s = []).
Proof.
  intros Hg. unfold Init. destruct alloc; cbn [negb].
  2:{ exists o, (mk Null (entries old)), false. split; [done|]. split; [done|]. by left. }
  destruct (init_loop_ok o sset ans (seqZ 1 (BUNIXSIGNAL_MAX_SIGNALS - 1)) Hg (NoDup_seqZ _ _) []) as (es & ok & Hl & Hf & Hmade).
  { split; try apply NoDup_nil_2; by intros ? ?%not_elem_of_nil. }
  { by intros e ?%not_elem_of_nil. }
  rewrite with_none in Hl. rewrite Hl, ok_bind. destruct ok.
  - do 3 eexists. split; [reflexivity|]. cbn [arr entries]. split; [done|]. split_and!; [|simpl; set_solver + |done|done|done].
    unfold Free. cbn [entries arr]. rewrite free_entries_ok, ok_bind by done. done.
  - rewrite free_entries_ok, ok_bind by done. cbn [BFree_array]. rewrite ok_bind. do 3 eexists. split; [reflexivity|].
    split; [done|]. by right.
Qed.

(** A signal that is caught is reported: while it is unread, the loop's handler of its pipe calls the user's, which is
    called at most once for each time. *)
Lemma signal_reported capacity e unread n :
  0 ≤ signo e < BUNIXSIGNAL_MAX_SIGNALS → 0 < capacity → unread !! signo e = Some n → 0 ≤ n ≤ capacity →
  ∃ unread' n', signal_handler capacity (signo e) unread = Ok unread' ∧ unread' !! signo e = Some n' ∧
    0 < n' ≤ capacity ∧ n' ≤ n + 1 ∧
    pipe_read_fd_handler e unread' = Ok (<[signo e := n' - 1]> unread', true).
Proof.
  intros Hs Hc Hu Hn. unfold signal_handler, pipe_read_fd_handler.
  rewrite (proj2 (Z.leb_le _ _)), (proj2 (Z.ltb_lt _ _)) by lia. cbn [c_assert]. rewrite Hu. cbn [or_fault]. rewrite ok_bind.
  destruct (Z.ltb_spec n capacity).
  - do 2 eexists. split; [done|]. rewrite lookup_insert_eq. split; [done|]. split; [lia|]. split; [lia|].
    cbn [or_fault]. rewrite ok_bind. by rewrite (proj2 (Z.eqb_neq _ _)) by lia.
  - exists unread, n. split; [done|]. split; [done|]. split; [lia|]. split; [lia|]. rewrite Hu. cbn [or_fault].
    rewrite ok_bind. by rewrite (proj2 (Z.eqb_neq _ _)) by lia.
Qed.

End SignalFacts.
