(* ===== verification/Lwip.v ===== *)
(** * Lwip: lwip's lists of connections (lwip/src/core/tcp.c, tcp_in.c, include/lwip/tcp_impl.h)

    lwip keeps the protocol control blocks of its connections in static lists, which outlive a run of the program:
    those bound to the interface, the active ones and those in TIME-WAIT (the listening ones are the listeners of
    Program.v).  A listener can only be bound to an interface that no block of its IP version is bound to, so
    that what one run leaves in the lists keeps the next one from listening.

    [Lwip] has the blocks, as far as that concerns the program (their version, state and error callback), and what
    connecting, accepting, closing, aborting and the course of a connection do to the lists.  [LwipFacts] has
    the invariant that relates the lists to the program's clients, and that every way a connection goes keeps
    it; ending the program (Program.v) depends on it. *)

From S2P Require Import Prelude CMem.

Module Lwip.

(** [pcb->state]; [CONNECTED] stands for ESTABLISHED and the states in which it is closed. *)
Inductive state := CLOSED | SYN_RCVD | CONNECTED | TIME_WAIT.

#[global] Instance state_eq_dec : EqDecision state.
Proof. solve_decision. Defined.

(** A block, which stands for the address [pid]; [errf] is the client whose error callback is set, if one is. *)
Record pcb := mkpcb {
  pid : nat;
  isipv6 : bool;
  pstate : state;
  errf : option nat;
}.

(** [tcp_bound_pcbs], [tcp_active_pcbs], [tcp_tw_pcbs]. *)
Record lists := mklists {
  bound : list pcb;
  active : list pcb;
  tw : list pcb;
}.

(** Static storage is zero. *)
Definition no_pcbs : lists := mklists [] [] [].

Definition TCP_REG (l : list pcb) (p : pcb) : list pcb := p :: l.

Fixpoint TCP_RMV (l : list pcb) (n : nat) : list pcb :=
  match l with
  | [] => []
  | p :: l => if bool_decide (pid p = n) then l else p :: TCP_RMV l n
  end.

(** The block at an address, and an assignment to its fields. *)
Definition find_pcb (l : list pcb) (n : nat) : option pcb := head (filter (λ p, pid p = n) l).
Definition set_pcb (l : list pcb) (n : nat) (f : pcb → pcb) : list pcb := (λ p, if bool_decide (pid p = n) then f p else p) <$> l.

(** [tcp_err]. *)
Definition tcp_err (c : option nat) (p : pcb) : pcb := mkpcb (pid p) (isipv6 p) (pstate p) c.

Definition set_state (s : state) (p : pcb) : pcb := mkpcb (pid p) (isipv6 p) s (errf p).

(** A block of [tcp_new]: not in a list. *)
Definition tcp_alloc (n : nat) (v6 : bool) : pcb := mkpcb n v6 CLOSED None.

(** Whether it could be bound.  Every block is bound to the one interface there is: those of connections take it over from
    their listener ([tcp_listen_input]); [listening] is whether there is a listener of the block's version. *)
Definition tcp_bind_to_netif (l : lists) (listening : bool) (p : pcb) : lists * bool :=
  if listening || existsb (λ c, Bool.eqb (isipv6 p) (isipv6 c)) (bound l ++ active l ++ tw l) then (l, false)
  else (mklists (TCP_REG (bound l) p) (active l) (tw l), true).

(** What [tcp_close] and [tcp_listen] do to a bound block, which they then free. *)
Definition unbind (l : lists) (n : nat) : lists := mklists (TCP_RMV (bound l) n) (active l) (tw l).

(** A SYN for a listener. *)
Definition tcp_listen_input (l : lists) (n : nat) (v6 : bool) : lists :=
  mklists (bound l) (TCP_REG (active l) (mkpcb n v6 SYN_RCVD None)) (tw l).

(** The accept callback took the connection: the client has set its callbacks. *)
Definition accepted (l : lists) (n : nat) : lists :=
  mklists (bound l) (set_pcb (active l) n (λ p, tcp_err (Some n) (set_state CONNECTED p))) (tw l).

(** [tcp_abort]: the lists, and the client whose error callback is called then.  A block that is bound and not connected
    is freed, but stays in its list. *)
Definition tcp_abandon (l : lists) (p : pcb) : lists * option nat :=
  match pstate p with
  | TIME_WAIT => (mklists (bound l) (active l) (TCP_RMV (tw l) (pid p)), None)
  | _ => (mklists (bound l) (TCP_RMV (active l) (pid p)) (tw l), errf p)
  end.

(** What becomes of a connection that nobody owns (any more): it is still to be closed, waits, or is freed. *)
Inductive fate := Closing | Waiting | Freed.

(** A block whose callbacks are removed: after [tcp_close] it is in the list of the active ones if it sent a FIN, and otherwise
    it was reset, and waits or is freed; [tcp_abort] and an error free it; and so do segments and timers later. *)
Definition settle (n : nat) (to : fate) (l : lists) : lists :=
  match to with
  | Closing => mklists (bound l) (set_pcb (active l) n (tcp_err None)) (tw l)
  | Waiting =>
      mklists (bound l) (TCP_RMV (active l) n)
        (match find_pcb (active l) n with
         | Some p => TCP_REG (tw l) (tcp_err None (set_state TIME_WAIT p))
         | None => tw l
         end)
  | Freed => mklists (bound l) (TCP_RMV (active l) n) (tw l)
  end.

(** The end of the wait. *)
Definition waited (n : nat) (l : lists) : lists := mklists (bound l) (active l) (TCP_RMV (tw l) n).

(** On the program's side, a client and whether it has given up its block ([client_closed]); [leave_pcb] is that it does. *)
Definition leave_pcb (n : nat) (cs : list (nat * bool)) : list (nat * bool) :=
  (λ c, if bool_decide (c.1 = n) then (c.1, true) else c) <$> cs.

End Lwip.

Module LwipFacts.
Import Lwip.

(** *** The lists *)

Lemma rmv_in l n p : p ∈ TCP_RMV l n → p ∈ l.
Proof.
  induction l as [|q l IH]; [done|]. cbn [TCP_RMV]. case_bool_decide; [by right|].
  rewrite !elem_of_cons. intros [->|H']; [by left | right; auto].
Qed.

Lemma in_rmv l n p : p ∈ l → pid p ≠ n → p ∈ TCP_RMV l n.
Proof.
  induction l as [|q l IH]; [done|]. cbn [TCP_RMV]. rewrite elem_of_cons. intros [->|Hin] Hne.
  - rewrite bool_decide_false by done. left.
  - case_bool_decide; [done|]. right. auto.
Qed.

Lemma rmv_ids l n : NoDup (pid <$> l) → NoDup (pid <$> TCP_RMV l n) ∧ ∀ p, p ∈ TCP_RMV l n → pid p ≠ n.
Proof.
  induction l as [|q l IH]; intros Hn; [split; [done|by intros p ?%not_elem_of_nil]|]. cbn [TCP_RMV].
  rewrite fmap_cons in Hn. apply NoDup_cons in Hn as [Hq Hn]. destruct (IH Hn) as [H1 H2]. case_bool_decide as E.
  - split; [done|]. intros p Hp Ep. apply Hq. rewrite E, <- Ep. by apply list_elem_of_fmap_2.
  - split.
    + rewrite fmap_cons. apply NoDup_cons. split; [|done]. intros (p & Ep & Hp)%list_elem_of_fmap. apply Hq. rewrite Ep.
      apply list_elem_of_fmap_2. by eapply rmv_in.
    + intros p. rewrite elem_of_cons. intros [->|Hp]; auto.
Qed.

Lemma find_spec l n p : find_pcb l n = Some p → p ∈ l ∧ pid p = n.
Proof.
  unfold find_pcb. intros H. assert (p ∈ filter (λ p, pid p = n) l) as Hin.
  { destruct (filter _ l); [done|]. injection H as ->. left. }
  apply list_elem_of_filter in Hin. tauto.
Qed.

Lemma find_some l p : p ∈ l → ∃ q, find_pcb l (pid p) = Some q.
Proof.
  intros Hp. unfold find_pcb. assert (p ∈ filter (λ q, pid q = pid p) l) as Hin by by apply list_elem_of_filter.
  destruct (filter _ l); [by apply not_elem_of_nil in Hin | by eexists].
Qed.

Lemma set_in l n f p : p ∈ set_pcb l n f → ∃ q, q ∈ l ∧ (pid q = n ∧ p = f q ∨ pid q ≠ n ∧ p = q).
Proof.
  unfold set_pcb. intros (q & -> & Hq)%list_elem_of_fmap. exists q. split; [done|]. case_bool_decide; auto.
Qed.

Lemma in_set l n f p : p ∈ l → (if bool_decide (pid p = n) then f p else p) ∈ set_pcb l n f.
Proof. intros H. apply (list_elem_of_fmap_2 (λ p, if bool_decide (pid p = n) then f p else p)) in H. exact H. Qed.

Lemma set_ids l n f : (∀ p, pid (f p) = pid p) → pid <$> set_pcb l n f = pid <$> l.
Proof. intros Hf. unfold set_pcb. rewrite <- list_fmap_compose. apply list_fmap_ext. intros _ p _. simpl. by case_bool_decide. Qed.

(** *** The clients and their blocks *)

Lemma leave_fst n cs : (leave_pcb n cs).*1 = cs.*1.
Proof. unfold leave_pcb. rewrite <- list_fmap_compose. apply list_fmap_ext. intros _ c _. simpl. by case_bool_decide. Qed.

Lemma leave_open n m cs : (m, false) ∈ leave_pcb n cs ↔ (m, false) ∈ cs ∧ m ≠ n.
Proof.
  unfold leave_pcb. rewrite list_elem_of_fmap. split.
  - intros ([k b] & E & Hin). simpl in E. case_bool_decide; simplify_eq. done.
  - intros [Hin Hne]. exists (m, false). split; [|done]. simpl. by rewrite bool_decide_false.
Qed.

Lemma leave_none n cs : (n, false) ∉ cs → leave_pcb n cs = cs.
Proof.
  intros H. induction cs as [|[m b] cs IH]; [done|]. rewrite not_elem_of_cons in H. destruct H as [Hm H].
  unfold leave_pcb in *. rewrite fmap_cons, (IH H). simpl. case_bool_decide as E; [|done]. destruct b; [done|]. congruence.
Qed.

(** Nothing is bound; a block's error callback is that of its client, which has not given it up; and every such client has one,
    which is active. *)
Record conns (cs : list (nat * bool)) (l : lists) : Prop := {
  c_bound : bound l = [];
  c_active : ∀ p, p ∈ active l → pstate p ≠ TIME_WAIT ∧ ∀ n, errf p = Some n → n = pid p ∧ (n, false) ∈ cs;
  c_tw : ∀ p, p ∈ tw l → pstate p = TIME_WAIT;
  c_open : ∀ n, (n, false) ∈ cs → ∃ p, p ∈ active l ∧ pid p = n ∧ errf p = Some n;
  c_ids : NoDup (pid <$> active l);
}.

Lemma conns_none : conns [] no_pcbs.
Proof. split; try done; try apply NoDup_nil_2; intros ? ?%not_elem_of_nil; done. Qed.

Lemma same_block l p q : NoDup (pid <$> l) → p ∈ l → q ∈ l → pid p = pid q → p = q.
Proof.
  intros Hn Hp Hq E. apply list_elem_of_lookup in Hp as [i Hi]. apply list_elem_of_lookup in Hq as [j Hj].
  assert (i = j) as ->; [|congruence]. apply (NoDup_lookup (pid <$> l) i j (pid p) Hn); rewrite list_lookup_fmap, ?Hi, ?Hj; simpl; congruence.
Qed.

Lemma conns_syn cs l n v6 : conns cs l → n ∉ pid <$> active l → conns cs (tcp_listen_input l n v6).
Proof.
  intros [H1 H2 H3 H4 H5] Hn. split; simpl; [done| |done| |].
  - unfold TCP_REG. intros p. rewrite elem_of_cons. intros [->|Hp]; [done|auto].
  - intros m Hm. destruct (H4 m Hm) as (p & ? & ?). exists p. split; [by right|done].
  - apply NoDup_cons. done.
Qed.

Lemma conns_accepted cs l n p :
  conns cs l → n ∉ cs.*1 → p ∈ active l → pid p = n → conns (cs ++ [(n, false)]) (accepted l n).
Proof.
  intros [H1 H2 H3 H4 H5] Hn Hp Ep. split; simpl; [done| |done| |].
  - intros q (r & Hr & [[Er ->]|[Er ->]])%set_in; simpl.
    + split; [done|]. intros m [= <-]. split; [done|]. apply elem_of_app. right. left.
    + destruct (H2 r Hr) as [? Hm]. split; [done|]. intros m Em. destruct (Hm m Em). split; [done|]. apply elem_of_app. by left.
  - intros m. rewrite elem_of_app, list_elem_of_singleton. intros [Hm|[= ->]].
    + destruct (H4 m Hm) as (q & Hq & Eq & ?). exists q. split; [|done].
      pose proof (in_set _ n (λ p, tcp_err (Some n) (set_state CONNECTED p)) _ Hq) as Hin.
      rewrite bool_decide_false in Hin; [done|]. intros E. apply Hn. apply list_elem_of_fmap. exists (m, false). split; [simpl; congruence|done].
    + exists (tcp_err (Some n) (set_state CONNECTED p)). split; [|done].
      pose proof (in_set _ n (λ p, tcp_err (Some n) (set_state CONNECTED p)) _ Hp) as Hin. by rewrite bool_decide_true in Hin.
  - by rewrite set_ids.
Qed.

Lemma conns_settle cs l n to : conns cs l → conns (leave_pcb n cs) (settle n to l).
Proof.
  intros [H1 H2 H3 H4 H5]. destruct (rmv_ids _ n H5) as [Hnd Hne].
  assert (Hrmv : ∀ t, (∀ p, p ∈ t → pstate p = TIME_WAIT) → conns (leave_pcb n cs) (mklists (bound l) (TCP_RMV (active l) n) t)).
  { intros t Ht. split; simpl; [done| |done| |done].
    - intros p Hp. destruct (H2 p (rmv_in _ _ _ Hp)) as [? Hm]. split; [done|]. intros m Em. destruct (Hm m Em) as [-> ?].
      split; [done|]. apply leave_open. auto.
    - intros m [Hm Hmn]%leave_open. destruct (H4 m Hm) as (p & Hp & Ep & ?). exists p. split; [|done]. apply in_rmv; congruence. }
  destruct to; simpl; [|apply Hrmv; destruct (find_pcb _ _); [|done]..|by apply Hrmv].
  - split; simpl; [done| |done| |by rewrite set_ids].
    + intros q (r & Hr & [[Er ->]|[Er ->]])%set_in; simpl; destruct (H2 r Hr) as [? Hm]; [done|]. split; [done|].
      intros m Em. destruct (Hm m Em) as [-> ?]. split; [done|]. by apply leave_open.
    + intros m [Hm Hmn]%leave_open. destruct (H4 m Hm) as (p & Hp & Ep & ?). exists p. split; [|done].
      pose proof (in_set _ n (tcp_err None) _ Hp) as Hin. by rewrite bool_decide_false in Hin by congruence.
  - unfold TCP_REG. intros q. rewrite elem_of_cons. intros [->|?]; [done|auto].
Qed.

(** A connection that is not a client's. *)
Lemma conns_settle_free cs l n to p : conns cs l → p ∈ active l → pid p = n → errf p = None → conns cs (settle n to l).
Proof.
  intros H Hp Ep En. rewrite <- (leave_none n cs); [by apply conns_settle|]. intros Hin.
  destruct (c_open _ _ H n Hin) as (q & Hq & Eq & Hs). assert (p = q) as ->; [|congruence].
  apply (same_block (active l)); [by destruct H|done|done|congruence].
Qed.

Lemma conns_waited cs l n : conns cs l → conns cs (waited n l).
Proof. intros [H1 H2 H3 H4 H5]. split; simpl; [done|done| |done|done]. intros p Hp. eapply H3, rmv_in, Hp. Qed.

(** The clients that have given up their block do not matter. *)
Lemma conns_same cs cs' l : (∀ n, (n, false) ∈ cs ↔ (n, false) ∈ cs') → conns cs l → conns cs' l.
Proof.
  intros E [H1 H2 H3 H4 H5]. split; [done| |done| |done].
  - intros p Hp. destruct (H2 p Hp) as [? Hm]. split; [done|]. intros n Hn. rewrite <- E. auto.
  - intros n Hn. apply H4. by rewrite E.
Qed.

Lemma conns_drop n cs l : conns ((n, true) :: cs) l → conns cs l.
Proof. apply conns_same. intros m. rewrite elem_of_cons. naive_solver. Qed.

Lemma leave_head n b cs : NoDup ((n, b) :: cs).*1 → leave_pcb n ((n, b) :: cs) = (n, true) :: cs.
Proof.
  rewrite fmap_cons. intros [Hn _]%NoDup_cons. unfold leave_pcb at 1. rewrite fmap_cons. fold (leave_pcb n cs). simpl.
  rewrite bool_decide_true, leave_none; [done| |done]. intros Hin. apply Hn. apply list_elem_of_fmap. by exists (n, false).
Qed.

(** A client that has given up its block is deallocated. *)
Lemma without_nodup n (cs : list (nat * bool)) : NoDup cs.*1 → NoDup (filter (λ c, c.1 ≠ n) cs).*1.
Proof. intros H. eapply sublist_NoDup; [exact H|]. apply fmap_sublist, sublist_filter. Qed.

Lemma conns_without n cs l : NoDup cs.*1 → (n, true) ∈ cs → conns cs l → conns (filter (λ c, c.1 ≠ n) cs) l.
Proof.
  intros Hn Hin. apply conns_same. intros m. rewrite list_elem_of_filter. simpl. split; [|tauto]. intros Hm. split; [|done].
  intros ->. apply list_elem_of_lookup in Hin as [i Hi]. apply list_elem_of_lookup in Hm as [j Hj].
  assert (i = j); [|congruence]. apply (NoDup_lookup cs.*1 i j n Hn); by rewrite list_lookup_fmap, ?Hi, ?Hj.
Qed.

(** *** Binding *)

(** With nothing left in the lists, binding succeeds unless there is a listener already. *)
Lemma tcp_bind_ok listening p :
  tcp_bind_to_netif no_pcbs listening p = if listening then (no_pcbs, false) else (mklists [p] [] [], true).
Proof. by destruct listening. Qed.

Lemma unbind_ok n v6 : unbind (mklists [tcp_alloc n v6] [] []) n = no_pcbs.
Proof. unfold unbind. cbn [TCP_RMV bound]. by rewrite bool_decide_true. Qed.

(** With a connection left, of either list, it fails. *)
Lemma bind_left l listening p q :
  q ∈ active l ++ tw l → isipv6 q = isipv6 p → tcp_bind_to_netif l listening p = (l, false).
Proof.
  intros Hq E. unfold tcp_bind_to_netif. rewrite (proj2 (existsb_exists _ _)); [by rewrite orb_true_r|].
  exists q. split; [|by rewrite E, eqb_reflx]. apply list_elem_of_In, elem_of_app. by right.
Qed.

End LwipFacts.
