(* ===== verification/Strings.v ===== *)
(** * Strings: misc/cstring.h, misc/find_char.h

    Characters are their codes, 0 to 255 ([char] is unsigned in the ARM ABI).  A [b_cstring] is a string that need
    not be contiguous: a length and a function that gives, for every offset, a region of the string
    that starts there.  [Represents] is what that function promises; under it the
    operations on cstrings are those on lists, however the string is cut into regions.

    [b_cstring_memchr] is the exception: the macro it uses keeps the position in a [char]. *)

From Stdlib Require Import Ascii String.
From S2P Require Import Prelude CMem.

(** ** Characters and buffers *)

(** The code of a character, and the codes of a string, for literals. *)
Definition ch (a : ascii) : Z := Z.of_N (N_of_ascii a).

Fixpoint str (s : string) : list Z :=
  match s with EmptyString => [] | String a s => ch a :: str s end.

(** [memcmp] on the first [length a] bytes. *)
Fixpoint memcmp (a b : list Z) : Z :=
  match a, b with
  | x :: a, y :: b => if x =? y then memcmp a b else x - y
  | _, _ => 0
  end.

(** [b_find_char_bin] of misc/find_char.h: the first position of [c], from [i] on. *)
Fixpoint b_find_char_bin (s : list Z) (c : Z) (i : Z) : option Z :=
  match s with
  | [] => None
  | x :: s => if x =? c then Some i else b_find_char_bin s c (i + 1)
  end.

(** The conversion of a position to [char]. *)
Definition to_char (x : Z) : Z := to_u8 x.

(** ** misc/cstring.h *)

Module CString.

(** The region [func] returns is the bytes from [offset] on; [None] is NULL. *)
Record b_cstring := mk {
  length : Z;
  func : option (Z → option (list Z));
}.

Definition buf_func (data : list Z) (offset : Z) : option (list Z) :=
  Some (drop (Z.to_nat offset) data).

Definition make_buf (data : list Z) : b_cstring :=
  mk (Z.of_nat (List.length data)) (Some (buf_func data)).

Definition make_empty : b_cstring := mk 0 None.

Definition get (cstr : b_cstring) (offset maxlen : Z) : result (list Z) :=
  ASSERT (offset <? length cstr) ;;
  ASSERT (0 <? maxlen) ;;
  match func cstr with
  | None => Fault AssertFailed
  | Some f =>
      match f offset with
      | None => Fault AssertFailed
      | Some data =>
          ASSERT (0 <? Z.of_nat (List.length data)) ;;
          Ok (if maxlen <? Z.of_nat (List.length data) then take (Z.to_nat maxlen) data else data)
      end
  end.

Definition at_ (cstr : b_cstring) (pos : Z) : result Z :=
  ASSERT (pos <? length cstr) ;;
  match func cstr with
  | None => Fault AssertFailed
  | Some f => match f pos with Some (c :: _) => Ok c | _ => Fault AssertFailed end
  end.

Definition assert_range {A} (cstr : b_cstring) (offset len : Z) (k : result A) : result A :=
  ASSERT (offset <=? length cstr) ;;
  ASSERT (len <=? length cstr - offset) ;;
  k.

Section loop.
Context {S R : Type} (cstr : b_cstring) (offset len : Z).

(** [B_CSTRING_LOOP_RANGE]: the body gets the position and the region and goes on with a state
    ([inl]) or returns ([inr]).  A region is never empty, so [len] iterations are enough. *)
Fixpoint loop (fuel : nat) (body : S → Z → list Z → result (S + R)) (pos : Z) (s : S)
    : result (S + R) :=
  if pos <? len then
    match fuel with
    | O => Fault AssertFailed
    | Datatypes.S fuel =>
        chunk ← get cstr (offset + pos) (len - pos);
        r ← body s pos chunk;
        match r with
        | inl s => loop fuel body (pos + Z.of_nat (List.length chunk)) s
        | inr r => Ok (inr r)
        end
    end
  else Ok (inl s).

Definition loop_range (body : S → Z → list Z → result (S + R)) (s : S) : result (S + R) :=
  loop (Z.to_nat len) body 0 s.
End loop.

Definition copy_to_buf (cstr : b_cstring) (offset len : Z) (m : mem) (dest : ptr) : result mem :=
  assert_range cstr offset len (
    ASSERT (len =? 0) || negb (dest =? NULL) ;;
    r ← loop_range (R := mem) cstr offset len
          (λ m pos chunk, m ← store m (dest + pos) chunk; Ok (inl m)) m;
    match r with inl m | inr m => Ok m end).

(** The state of a loop that only may return. *)
Definition returning {R} (d : R) (r : result (unit + R)) : result R :=
  x ← r; match x with inl _ => Ok d | inr r => Ok r end.

Definition b_memcmp (cstr1 cstr2 : b_cstring) (offset1 offset2 len : Z) : result Z :=
  assert_range cstr1 offset1 len (
  assert_range cstr2 offset2 len (
    returning 0 (loop_range cstr1 offset1 len (λ _ pos1 chunk1,
      r ← loop_range cstr2 (offset2 + pos1) (Z.of_nat (List.length chunk1)) (λ _ pos2 chunk2,
        let cmp := memcmp (take (List.length chunk2) (drop (Z.to_nat pos2) chunk1)) chunk2 in
        Ok (if negb (cmp =? 0) then inr cmp else inl tt)) tt;
      Ok r) tt))).

Definition equals_buffer (cstr : b_cstring) (offset len : Z) (data : list Z) : result bool :=
  assert_range cstr offset len (
    returning true (loop_range cstr offset len (λ _ pos chunk,
      Ok (if negb (memcmp chunk (take (List.length chunk) (drop (Z.to_nat pos) data)) =? 0)
          then inr false else inl tt)) tt)).

(** [B_CSTRING_LOOP_CHARS_RANGE] on one region: its position is a [char]. *)
Fixpoint loop_chars {R} (body : Z → Z → option R) (pos i : Z) (chunk : list Z) : option R :=
  match chunk with
  | [] => None
  | c :: chunk => match body (to_char (pos + i)) c with
                  | Some r => Some r
                  | None => loop_chars body pos (i + 1) chunk
                  end
  end.

(** [Some p] is the return value 1 with [*out_pos = p]. *)
Definition b_memchr (cstr : b_cstring) (offset len : Z) (c : Z) : result (option Z) :=
  assert_range cstr offset len (
    returning None (loop_range cstr offset len (λ _ pos chunk,
      Ok (match loop_chars (λ p x, if x =? c then Some p else None) pos 0 chunk with
          | Some p => inr (Some p)
          | None => inl tt
          end)) tt)).

Section strdup.
Context (malloc : Z → option ptr).

(** The new memory and the pointer; [None] is NULL. *)
Definition strdup (cstr : b_cstring) (offset len : Z) (m : mem) : result (mem * option ptr) :=
  assert_range cstr offset len (
    if len =? SIZE_MAX then Ok (m, None) else
    match BAlloc.BAlloc malloc (len + 1) with
    | None => Ok (m, None)
    | Some buf =>
        m ← copy_to_buf cstr offset len (map_block m buf (Z.to_nat (len + 1))) buf;
        m ← store m (buf + len) [0];
        Ok (m, Some buf)
    end).
End strdup.

End CString.

(** ** A cstring is a list of characters *)

Module CStringFacts.
Import CString.

Lemma memcmp_app a1 a2 b1 b2 :
  List.length a1 = List.length b1 →
  memcmp (a1 ++ a2) (b1 ++ b2) = if memcmp a1 b1 =? 0 then memcmp a2 b2 else memcmp a1 b1.
Proof.
  revert b1. induction a1 as [|x a1 IH]; intros [|y b1] Hl; simpl in *; try done.
  destruct (Z.eqb_spec x y) as [->|Hne]; [by apply IH; lia|].
  by rewrite (proj2 (Z.eqb_neq _ _)) by lia.
Qed.

Lemma memcmp_eq a b : List.length a = List.length b → memcmp a b = 0 ↔ a = b.
Proof.
  revert b. induction a as [|x a IH]; intros [|y b] Hl; simpl in *; try done.
  destruct (Z.eqb_spec x y) as [->|Hne].
  - rewrite IH by lia. split; [by intros -> | by intros [= ->]].
  - split; [lia | intros [= -> ->]; lia].
Qed.

Lemma memcmp_firstn a b : memcmp (take (List.length b) a) b = memcmp a b.
Proof.
  revert b. induction a as [|x a IH]; intros [|y b]; simpl; try done. by rewrite IH.
Qed.

Lemma b_find_char_bin_ok s c : ∀ i,
  match b_find_char_bin s c i with
  | Some p => ∃ n, p = i + Z.of_nat n ∧ s !! n = Some c ∧ c ∉ take n s
  | None => c ∉ s
  end.
Proof.
  induction s as [|x s IH]; intros i; simpl; [apply not_elem_of_nil|].
  destruct (Z.eqb_spec x c) as [->|Hne].
  - exists 0%nat. split; [lia|]. split; [done | apply not_elem_of_nil].
  - specialize (IH (i + 1)). destruct (b_find_char_bin s c (i + 1)) as [p|].
    + destruct IH as (n & -> & Hn & Hc). exists (S n). split; [lia|]. split; [done|].
      simpl. rewrite not_elem_of_cons. auto.
    + rewrite not_elem_of_cons. auto.
Qed.

Lemma b_find_char_bin_app s1 s2 c : ∀ i,
  b_find_char_bin (s1 ++ s2) c i =
  match b_find_char_bin s1 c i with
  | Some p => Some p
  | None => b_find_char_bin s2 c (i + Z.of_nat (List.length s1))
  end.
Proof.
  induction s1 as [|x s1 IH]; intros i; cbn [b_find_char_bin app List.length].
  - by rewrite Z.add_0_r.
  - destruct (x =? c); [done|]. rewrite IH.
    destruct (b_find_char_bin s1 c (i + 1)); [done|]. f_equal. lia.
Qed.

(** What the function of a cstring promises: at each offset, a region of the string. *)
Class Represents (cs : b_cstring) (s : list Z) : Prop := {
  rep_length : length cs = Z.of_nat (List.length s);
  rep_func : s ≠ [] → ∃ f, func cs = Some f ∧ ∀ off, (off < List.length s)%nat →
    ∃ region, f (Z.of_nat off) = Some region ∧ region ≠ [] ∧
      take (List.length s - off) region `prefix_of` drop off s;
}.

#[export] Instance make_buf_represents data : Represents (make_buf data) data.
Proof.
  split; [done|]. intros _. eexists. split; [done|]. intros off Hoff.
  eexists. split; [done|]. rewrite Nat2Z.id. split.
  - intros H%(f_equal List.length). rewrite length_drop in H. simpl in H. lia.
  - rewrite take_ge by (by rewrite length_drop). done.
Qed.

#[export] Instance make_empty_represents : Represents make_empty [].
Proof. by split. Qed.

Section operations.
Context (cs : b_cstring) (s : list Z) `{!Represents cs s}.

(** The part of the string a range refers to. *)
Definition range (off n : nat) : list Z := take n (drop off s).

Lemma length_range off n : (off + n ≤ List.length s)%nat → List.length (range off n) = n.
Proof. intros. unfold range. rewrite length_take, length_drop. lia. Qed.

Lemma get_ok off n maxlen :
  (0 < n)%nat → (off + n ≤ List.length s)%nat → maxlen = Z.of_nat n →
  ∃ chunk rest, get cs (Z.of_nat off) maxlen = Ok chunk ∧ chunk ≠ [] ∧ range off n = chunk ++ rest.
Proof.
  intros Hn Hoff ->. unfold get. rewrite rep_length. do 2 run_assert.
  destruct rep_func as (f & -> & Hf); [by intros ->; simpl in *; lia|].
  destruct (Hf off) as (region & -> & Hne & Hp); [lia|].
  destruct region as [|c region]; [done|]. clear Hne. run_assert.
  set (r := c :: region) in *.
  assert (Hr : take n r `prefix_of` drop off s).
  { etrans; [|exact Hp]. exists (drop n (take (List.length s - off) r)).
    rewrite <- (take_drop n (take (List.length s - off) r)) at 1. by rewrite take_take, Nat.min_l by lia. }
  destruct Hr as [t Ht]. unfold range. rewrite Ht.
  destruct (Z.ltb_spec (Z.of_nat n) (Z.of_nat (List.length r))).
  - rewrite Nat2Z.id. exists (take n r), []. split; [done|]. split.
    + intros E%(f_equal List.length). rewrite length_take in E. simpl in *. lia.
    + rewrite take_app_le by (rewrite length_take; lia). by rewrite take_take, Nat.min_id, app_nil_r.
  - rewrite (take_ge r) by lia. exists r. rewrite take_app_ge by lia.
    eexists. split; [done|]. by split.
Qed.

(** What a loop over a range does, by an invariant on the part of it that is behind. *)
Lemma loop_range_ok {A R} (P : list Z → A → Prop) (Q : R → Prop) body off n (a : A) :
  (off + n ≤ List.length s)%nat →
  (∀ behind chunk rest a, range off n = behind ++ chunk ++ rest → P behind a →
     ∃ r, body a (Z.of_nat (List.length behind)) chunk = Ok r ∧
          match r with inl a => P (behind ++ chunk) a | inr x => Q x end) →
  P [] a →
  ∃ r, loop_range cs (Z.of_nat off) (Z.of_nat n) body a = Ok r ∧
       match r with inl a => P (range off n) a | inr x => Q x end.
Proof.
  intros Hoff Hbody Ha. unfold loop_range. rewrite Nat2Z.id.
  assert (Hgo : ∀ fuel behind rest a, range off n = behind ++ rest → P behind a →
    (List.length rest ≤ fuel)%nat →
    ∃ r, loop cs (Z.of_nat off) (Z.of_nat n) fuel body (Z.of_nat (List.length behind)) a = Ok r ∧
       match r with inl a => P (range off n) a | inr x => Q x end).
  { clear a Ha. induction fuel as [|fuel IH]; intros behind rest a Hr Ha Hf.
    - destruct rest; [|simpl in Hf; lia]. rewrite app_nil_r in Hr.
      pose proof (length_range off n Hoff). rewrite Hr in *. cbn [loop].
      rewrite (proj2 (Z.ltb_ge _ _)) by lia. by eexists.
    - pose proof (length_range off n Hoff) as Hl. rewrite Hr, length_app in Hl. cbn [loop].
      destruct (Z.ltb_spec (Z.of_nat (List.length behind)) (Z.of_nat n)); cycle 1.
      { destruct rest; [|simpl in Hl; lia]. rewrite app_nil_r in Hr. rewrite Hr. by eexists. }
      destruct (get_ok (off + List.length behind) (n - List.length behind)
        (Z.of_nat n - Z.of_nat (List.length behind))) as (chunk & rest' & Hg & Hne & Hc); [lia.. |].
      rewrite Nat2Z.inj_add in Hg. rewrite Hg, ok_bind.
      assert (rest = chunk ++ rest') as ->.
      { rewrite <- Hc. unfold range in *.
        apply (app_inv_head behind). rewrite <- Hr, <- drop_drop.
        rewrite <- (take_drop (List.length behind) (take n (drop off s))) at 1. f_equal.
        - rewrite Hr. by rewrite take_app_length.
        - by rewrite skipn_firstn_comm. }
      destruct (Hbody behind chunk rest' a Hr Ha) as (r & -> & Hp). rewrite ok_bind.
      destruct r as [a'|x]; [|by eexists].
      replace (Z.of_nat (List.length behind) + Z.of_nat (List.length chunk))
        with (Z.of_nat (List.length (behind ++ chunk))) by (rewrite length_app; lia).
      apply (IH (behind ++ chunk) rest'); [by rewrite <- app_assoc | done|].
      rewrite length_app in Hf. destruct chunk; [done|]. simpl in Hf. lia. }
  apply (Hgo n [] (range off n) a); [done | done|]. by rewrite length_range.
Qed.

Lemma assert_range_ok {A} off n (k : result A) :
  (off + n ≤ List.length s)%nat → assert_range cs (Z.of_nat off) (Z.of_nat n) k = k.
Proof. intros. unfold assert_range. rewrite rep_length. by do 2 run_assert. Qed.

(** The loops whose body may return but keeps no state. *)
Lemma returning_ok {R} (d : R) (P : list Z → Prop) (Q : R → Prop) body off n :
  (off + n ≤ List.length s)%nat →
  (∀ behind chunk rest, range off n = behind ++ chunk ++ rest → P behind →
     ∃ r, body tt (Z.of_nat (List.length behind)) chunk = Ok r ∧
          match r with inl _ => P (behind ++ chunk) | inr x => Q x end) →
  P [] → (P (range off n) → Q d) →
  ∃ x, returning d (loop_range cs (Z.of_nat off) (Z.of_nat n) body tt) = Ok x ∧ Q x.
Proof.
  intros Hoff Hbody Ha Hd.
  destruct (loop_range_ok (λ b _, P b) Q body off n tt Hoff) as (r & -> & Hr); [|done|].
  - intros behind chunk rest []. apply Hbody.
  - destruct r as [[]|x]; simpl; eauto.
Qed.

Lemma copy_to_buf_ok off n m dest :
  (off + n ≤ List.length s)%nat → dest ≠ NULL → mapped m dest (Z.of_nat n) →
  copy_to_buf cs (Z.of_nat off) (Z.of_nat n) m dest = store m dest (range off n).
Proof.
  intros Hoff Hd Hm. unfold copy_to_buf. rewrite assert_range_ok by done.
  rewrite c_assert_true by (rewrite (proj2 (Z.eqb_neq dest NULL)) by done; apply orb_true_r).
  destruct (loop_range_ok (λ b m', store m dest b = Ok m') (λ _ : mem, False)
    (λ m pos chunk, m ← store m (dest + pos) chunk; Ok (inl m)) off n m) as (r & -> & Hr);
    [done | | done |].
  - intros behind chunk rest m' Hr Hs.
    assert (mapped m' (dest + Z.of_nat (List.length behind)) (Z.of_nat (List.length chunk))) as Hc.
    { eapply mapped_sub; [eapply store_mapped; [exact Hs | exact Hm] | lia |].
      pose proof (length_range off n Hoff) as Hl. rewrite Hr, !length_app in Hl. lia. }
    destruct (store_mapped_ok _ _ _ Hc) as [m2 Hs2]. rewrite Hs2. eexists. split; [done|].
    by rewrite store_app, Hs.
  - by destruct r.
Qed.

Lemma equals_buffer_ok off n data :
  (off + n ≤ List.length s)%nat → List.length data = n →
  equals_buffer cs (Z.of_nat off) (Z.of_nat n) data = Ok (bool_decide (range off n = data)).
Proof.
  intros Hoff Hdata. unfold equals_buffer. rewrite assert_range_ok by done.
  edestruct (returning_ok true (λ b, take (List.length b) data = b)
    (λ b, b = bool_decide (range off n = data))) as (x & Hx & ->); [exact Hoff | | done | | exact Hx].
  - intros behind chunk rest Hr Hb. eexists. split; [done|]. rewrite Nat2Z.id.
    pose proof (length_range off n Hoff) as Hl. rewrite Hr, !length_app in Hl.
    set (part := take (List.length chunk) (drop (List.length behind) data)).
    assert (Hpart : List.length chunk = List.length part).
    { unfold part. rewrite length_take, length_drop. lia. }
    assert (Hdata' : data = behind ++ part ++ drop (List.length (behind ++ chunk)) data).
    { rewrite <- (take_drop (List.length behind) data) at 1. rewrite Hb. f_equal.
      unfold part. rewrite length_app, <- drop_drop. by rewrite take_drop. }
    destruct (Z.eqb_spec (memcmp chunk part) 0) as [He|Hne]; cbn [negb].
    + apply memcmp_eq in He; [|done]. rewrite He, Hdata', length_app, app_assoc.
      by rewrite take_app_length' by (rewrite length_app; lia).
    + symmetry. apply bool_decide_eq_false. intros Heq. apply Hne, memcmp_eq; [done|].
      rewrite Hr, Hdata' in Heq. apply app_inv_head in Heq. by apply app_inj_1 in Heq as [? _].
  - intros Heq. symmetry. apply bool_decide_eq_true. rewrite <- Heq, length_range by done.
    by rewrite take_ge by lia.
Qed.

Lemma memchr_ok off n c :
  (off + n ≤ List.length s)%nat →
  b_memchr cs (Z.of_nat off) (Z.of_nat n) c = Ok (to_char <$> b_find_char_bin (range off n) c 0).
Proof.
  intros Hoff. unfold b_memchr. rewrite assert_range_ok by done.
  assert (Hlc : ∀ pos chunk i, loop_chars (λ p x, if x =? c then Some p else None) pos i chunk
                = to_char <$> b_find_char_bin chunk c (pos + i)).
  { intros pos chunk. induction chunk as [|x chunk IH]; intros i; simpl; [done|].
    destruct (x =? c); [done|]. rewrite IH. do 2 f_equal. lia. }
  edestruct (returning_ok None (λ b, b_find_char_bin b c 0 = None)
    (λ x, x = to_char <$> b_find_char_bin (range off n) c 0)) as (x & Hx & ->);
    [exact Hoff | | done | by intros -> | exact Hx].
  intros behind chunk rest Hr Hb. eexists. split; [done|]. rewrite Hlc, Hr.
  rewrite !b_find_char_bin_app, Hb, Z.add_0_l, Z.add_0_r.
  by destruct (b_find_char_bin chunk c (Z.of_nat (List.length behind))).
Qed.

Lemma at_ok (i : nat) x : s !! i = Some x → at_ cs (Z.of_nat i) = Ok x.
Proof.
  intros Hi. pose proof (lookup_lt_Some _ _ _ Hi). unfold at_. rewrite rep_length. run_assert.
  destruct rep_func as (f & -> & Hf); [by intros ->|].
  destruct (Hf i) as (region & -> & Hne & t & Ht); [done|].
  destruct region as [|y region]; [done|]. rewrite (drop_S _ _ _ Hi) in Ht.
  destruct (List.length s - i)%nat eqn:E; [lia|]. by simplify_eq/=.
Qed.

End operations.

(** The nested loop of [b_cstring_memcmp]. *)
Lemma b_memcmp_ok cs1 s1 cs2 s2 off1 off2 n :
  Represents cs1 s1 → Represents cs2 s2 →
  (off1 + n ≤ List.length s1)%nat → (off2 + n ≤ List.length s2)%nat →
  b_memcmp cs1 cs2 (Z.of_nat off1) (Z.of_nat off2) (Z.of_nat n)
  = Ok (memcmp (range s1 off1 n) (range s2 off2 n)).
Proof.
  intros H1 H2 Hl1 Hl2. unfold b_memcmp. rewrite !(assert_range_ok _ _) by done.
  pose proof (length_range s1 off1 n Hl1) as Hr1. pose proof (length_range s2 off2 n Hl2) as Hr2.
  edestruct (returning_ok cs1 s1 0
    (λ b, memcmp b (take (List.length b) (range s2 off2 n)) = 0)
    (λ x, x = memcmp (range s1 off1 n) (range s2 off2 n))) as (x & Hx & ->);
    [exact Hl1 | | done | | exact Hx].
  - intros behind chunk rest Hr Hb. rewrite Hr, !length_app in Hr1.
    cbv beta. rewrite <- Nat2Z.inj_add.
    set (r2 := range s2 (off2 + List.length behind) (List.length chunk)).
    assert (Hl2' : (off2 + List.length behind + List.length chunk ≤ List.length s2)%nat) by lia.
    pose proof (length_range s2 _ _ Hl2') as Hlr2. fold r2 in Hlr2.
    assert (Hs2 : range s2 off2 n = take (List.length behind) (range s2 off2 n) ++ r2
                    ++ drop (List.length behind + List.length chunk) (range s2 off2 n)).
    { rewrite <- (take_drop (List.length behind) (range s2 off2 n)) at 1. f_equal.
      rewrite <- drop_drop, <- (take_drop (List.length chunk) (drop _ (range s2 off2 n))) at 1. f_equal.
      unfold r2, range. rewrite skipn_firstn_comm, drop_drop, take_take. f_equal. lia. }
    destruct (loop_range_ok cs2 s2
      (λ b (_ : unit), memcmp (take (List.length b) chunk) b = 0)
      (λ x, x ≠ 0 ∧ x = memcmp chunk r2)
      (λ _ pos2 chunk2,
         Ok (if negb (memcmp (take (List.length chunk2) (drop (Z.to_nat pos2) chunk)) chunk2 =? 0)
             then inr (memcmp (take (List.length chunk2) (drop (Z.to_nat pos2) chunk)) chunk2)
             else inl tt))
      (off2 + List.length behind) (List.length chunk) tt) as (r & -> & Hres); [done | | done |].
    + intros behind2 chunk2 rest2 [] Hr' Hb2. fold r2 in Hr'. eexists. split; [done|].
      rewrite Nat2Z.id, memcmp_firstn.
      rewrite Hr', !length_app in Hlr2. rewrite memcmp_firstn in Hb2.
      assert (Hc : memcmp chunk (behind2 ++ chunk2 ++ rest2) =
                   memcmp (drop (List.length behind2) chunk) (chunk2 ++ rest2)).
      { rewrite <- (take_drop (List.length behind2) chunk) at 1.
        rewrite memcmp_app by (rewrite length_take; lia). by rewrite memcmp_firstn, Hb2. }
      set (d := drop (List.length behind2) chunk) in *.
      assert (Hd : List.length d = (List.length chunk2 + List.length rest2)%nat) by
        (unfold d; rewrite length_drop; lia).
      destruct (Z.eqb_spec (memcmp d chunk2) 0) as [He|Hne]; cbn [negb].
      * rewrite <- (take_drop (List.length behind2) chunk), memcmp_firstn.
        rewrite memcmp_app by (rewrite length_take; lia).
        rewrite memcmp_firstn, Hb2. simpl. done.
      * split; [done|]. rewrite Hr', Hc. rewrite <- (take_drop (List.length chunk2) d).
        rewrite memcmp_app by (rewrite length_take; lia). rewrite memcmp_firstn.
        by rewrite take_drop, (proj2 (Z.eqb_neq _ _) Hne).
    + assert (Hall : memcmp (range s1 off1 n) (range s2 off2 n) =
        if memcmp chunk r2 =? 0
        then memcmp rest (drop (List.length behind + List.length chunk) (range s2 off2 n))
        else memcmp chunk r2).
      { rewrite Hr, Hs2 at 1. rewrite memcmp_app by (rewrite length_take; lia).
        rewrite Hb. simpl. rewrite memcmp_app by lia.
        done. }
      eexists. split; [done|]. destruct r as [[]|x].
      * fold r2 in Hres. rewrite memcmp_firstn in Hres. rewrite length_app, Hs2.
        rewrite app_assoc, take_app_length' by (rewrite length_app, length_take; lia).
        rewrite memcmp_app by (rewrite length_take; lia). by rewrite Hb.
      * destruct Hres as [Hne ->]. by rewrite Hall, (proj2 (Z.eqb_neq _ _)).
  - intros Hz. rewrite Hr1, take_ge in Hz by lia. done.
Qed.

(** A composed string behaves as the sequence of characters its regions spell, however it
    is cut into regions: copying, comparing with a buffer or another composed string and
    indexing give what they give on that sequence. *)
Theorem cstring_refines cs s cs2 s2 off off2 n m dest data :
  Represents cs s → Represents cs2 s2 →
  (off + n ≤ List.length s)%nat → (off2 + n ≤ List.length s2)%nat → List.length data = n →
  dest ≠ NULL → mapped m dest (Z.of_nat n) →
  copy_to_buf cs (Z.of_nat off) (Z.of_nat n) m dest = store m dest (range s off n) ∧
  equals_buffer cs (Z.of_nat off) (Z.of_nat n) data = Ok (bool_decide (range s off n = data)) ∧
  b_memcmp cs cs2 (Z.of_nat off) (Z.of_nat off2) (Z.of_nat n)
    = Ok (memcmp (range s off n) (range s2 off2 n)) ∧
  (∀ (i : nat) x, s !! i = Some x → at_ cs (Z.of_nat i) = Ok x).
Proof.
  intros H1 H2 Hl1 Hl2 Hdata Hd Hm. split_and!.
  - by apply (copy_to_buf_ok cs s).
  - by apply (equals_buffer_ok cs s).
  - by apply b_memcmp_ok.
  - apply (at_ok cs s).
Qed.

(** A string in two regions: "ab" and "cd". *)
Definition two_regions : b_cstring :=
  mk 4 (Some (λ off, if off <? 2 then Some (drop (Z.to_nat off) (str "ab"))
                     else Some (drop (Z.to_nat (off - 2)) (str "cd")))).

Lemma two_regions_represents : Represents two_regions (str "abcd").
Proof.
  split; [done|]. intros _. eexists. split; [done|]. simpl. intros off Hoff.
  do 4 (destruct off as [|off]; [eexists; split; [done|]; split; [done|]; by eexists|]). lia.
Qed.

Lemma cstring_refines_witness :
  is_ok (copy_to_buf two_regions 1 3 (map_block ∅ 100 3) 100) ∧
  equals_buffer two_regions 1 3 (str "bcd") = Ok true ∧
  b_memcmp two_regions (make_buf (str "xbca")) 1 1 3 = Ok 3 ∧ at_ two_regions 2 = Ok (ch "c").
Proof.
  destruct (cstring_refines two_regions (str "abcd") (make_buf (str "xbca")) (str "xbca") 1 1 3
    (map_block ∅ 100 3) 100 (str "bcd")) as (H1 & H2 & H3 & H4);
    [exact two_regions_represents | exact _ | simpl; lia | simpl; lia | done | done
    | apply (map_block_mapped ∅ 100 3) |].
  split_and!.
  - change 1 with (Z.of_nat 1). change 3 with (Z.of_nat 3). rewrite H1. by vm_compute; eexists.
  - change 1 with (Z.of_nat 1). change 3 with (Z.of_nat 3). rewrite H2. by vm_compute.
  - change 1 with (Z.of_nat 1). change 3 with (Z.of_nat 3) at 1. rewrite H3. by vm_compute.
  - change 2 with (Z.of_nat 2). by apply H4.
Defined.

(** Searching a composed string finds the first occurrence, but returns its position
    truncated to a char: it is right for every range of at most 256 characters, and wrong
    for positions beyond. *)
Theorem memchr_position cs s off n c :
  Represents cs s → (off + n ≤ List.length s)%nat →
  b_memchr cs (Z.of_nat off) (Z.of_nat n) c = Ok (to_char <$> b_find_char_bin (range s off n) c 0) ∧
  ((n ≤ 256)%nat → b_memchr cs (Z.of_nat off) (Z.of_nat n) c = Ok (b_find_char_bin (range s off n) c 0)).
Proof.
  intros Hr Hl. rewrite (memchr_ok cs s) by done. split; [done|]. intros Hn. f_equal.
  pose proof (b_find_char_bin_ok (range s off n) c 0) as Hf.
  destruct (b_find_char_bin (range s off n) c 0) as [p|]; simpl; [|done]. f_equal.
  destruct Hf as (k & -> & Hk%lookup_lt_Some & _). rewrite length_range in Hk by done.
  unfold to_char, to_u8. apply Z.mod_small. lia.
Qed.

(** The character is at position 300, the position returned is 44. *)
Lemma memchr_position_witness :
  b_memchr (make_buf (replicate 300 0 ++ [1])) 0 301 1 = Ok (Some 44) ∧
  b_memchr two_regions 1 3 (ch "d") = Ok (Some 2).
Proof.
  destruct (memchr_position (make_buf (replicate 300 0 ++ [1])) (replicate 300 0 ++ [1]) 0 301 1)
    as [H1 _]; [exact _ | by vm_compute |].
  destruct (memchr_position two_regions (str "abcd") 1 3 (ch "d")) as [_ H2];
    [exact two_regions_represents | by vm_compute |].
  split.
  - change 0 with (Z.of_nat 0) at 2. change 301 with (Z.of_nat 301). rewrite H1. by vm_compute.
  - change 1 with (Z.of_nat 1). change 3 with (Z.of_nat 3). rewrite H2; [by vm_compute | lia].
Defined.

End CStringFacts.
