(* ===== verification/Numbers.v ===== *)
(** * Numbers in text: misc/parse_number.h

    The parsers of unsigned integers, over a buffer and over a cstring, and of signed ones, and the
    generation of the decimal representation in memory.  [uintmax_t] is 64 bits wide and every
    operation on it wraps; the theorems show that none does: the parsers accept exactly
    the digit strings whose value fits ([digits_value]), they agree with each other, and
    what is generated parses back. *)

From Stdlib Require Import Ascii String.
From S2P Require Import Prelude CMem Strings.
Import CString.

Definition UINTMAX_MAX : Z := UINT64_MAX.

(** "18446744073709551615", [UINTMAX_MAX] in decimal. *)
Definition uintmax_max_str : list Z := str "18446744073709551615".

Definition decode_decimal_digit (c : Z) : Z :=
  match c with
  | 48 => 0 | 49 => 1 | 50 => 2 | 51 => 3 | 52 => 4
  | 53 => 5 | 54 => 6 | 55 => 7 | 56 => 8 | 57 => 9
  | _ => -1
  end.

Definition decode_hex_digit (c : Z) : Z :=
  match c with
  | 48 => 0 | 49 => 1 | 50 => 2 | 51 => 3 | 52 => 4
  | 53 => 5 | 54 => 6 | 55 => 7 | 56 => 8 | 57 => 9
  | 65 | 97 => 10 | 66 | 98 => 11 | 67 | 99 => 12
  | 68 | 100 => 13 | 69 | 101 => 14 | 70 | 102 => 15
  | _ => -1
  end.

Fixpoint parse__no_overflow (s : list Z) (n : Z) : option Z :=
  match s with
  | [] => Some n
  | c :: s =>
      if (c <? ch "0") || (ch "9" <? c) then None
      else parse__no_overflow s (to_u64 (10 * n + (c - ch "0")))
  end.

(** The loop removing leading zeros. *)
Fixpoint skip_zeros (s : list Z) : list Z :=
  match s with
  | c :: s' => if c =? ch "0" then skip_zeros s' else s
  | [] => []
  end.

Definition parse_unsigned_integer_bin (s : list Z) : option Z :=
  match s with
  | [] => None
  | _ =>
      let s := skip_zeros s in
      if (List.length uintmax_max_str <? List.length s)%nat
         || ((List.length s =? List.length uintmax_max_str)%nat && (0 <? memcmp s uintmax_max_str))
      then None
      else parse__no_overflow s 0
  end.

(** The body of the loops of the other two parsers: one more digit, in base [base]. *)
Definition add_digit (base n digit : Z) : option Z :=
  if digit <? 0 then None else
  if UINTMAX_MAX / base <? n then None else
  let n := to_u64 (n * base) in
  if to_u64 (UINTMAX_MAX - n) <? digit then None else
  Some (to_u64 (n + digit)).

Fixpoint add_digits (base : Z) (decode : Z → Z) (s : list Z) (n : Z) : option Z :=
  match s with
  | [] => Some n
  | c :: s => n ← add_digit base n (decode c); add_digits base decode s n
  end.

Definition parse_unsigned_integer_cstr (cstr : b_cstring) (offset length : Z) : result (option Z) :=
  assert_range cstr offset length (
    if length =? 0 then Ok None else
    r ← loop_range (R := unit) cstr offset length
          (λ n _ chunk, Ok (match add_digits 10 decode_decimal_digit chunk n with
                            | Some n => inl n | None => inr tt end)) 0;
    Ok (match r with inl n => Some n | inr _ => None end)).

Definition parse_unsigned_hex_integer_bin (s : list Z) : option Z :=
  match s with
  | [] => None
  | _ => add_digits 16 decode_hex_digit s 0
  end.

(** The sign and the rest of the string. *)
Definition split_sign (s : list Z) : Z * list Z :=
  match s with
  | c :: s' => if (c =? ch "+") || (c =? ch "-") then (1 - 2 * Z.b2z (c =? ch "-"), s') else (1, s)
  | [] => (1, [])
  end.

Definition parse_signmag_integer_bin (s : list Z) : option (Z * Z) :=
  let '(sign, s) := split_sign s in
  mag ← parse_unsigned_integer_bin s; Some (sign, mag).

Definition parse_signmag_integer_cstr (cstr : b_cstring) (offset length : Z)
    : result (option (Z * Z)) :=
  assert_range cstr offset length (
    '(sign, offset, length) ←
      (if 0 <? length then
         c ← at_ cstr offset;
         if (c =? ch "+") || (c =? ch "-")
         then Ok (1 - 2 * Z.b2z (c =? ch "-"), offset + 1, length - 1)
         else Ok (1, offset, length)
       else Ok (1, offset, length));
    r ← parse_unsigned_integer_cstr cstr offset length;
    Ok (mag ← r; Some (sign, mag))).

(** A 64-bit number has at most 20 digits: 20 iterations are enough. *)
Fixpoint repr_size_loop (fuel : nat) (x size : Z) : Z :=
  let size := size + 1 in
  let x := x / 10 in
  match fuel with
  | O => size
  | S fuel => if 0 <? x then repr_size_loop fuel x size else size
  end.

Definition compute_decimal_repr_size (x : Z) : Z := repr_size_loop 20 x 0.

Fixpoint repr_loop (fuel : nat) (x : Z) (m : mem) (out : ptr) : result mem :=
  let out := out - 1 in
  m ← store m out [ch "0" + x mod 10];
  let x := x / 10 in
  match fuel with
  | O => Ok m
  | S fuel => if 0 <? x then repr_loop fuel x m out else Ok m
  end.

Definition generate_decimal_repr (x : Z) (m : mem) (out : ptr) (repr_size : Z) : result mem :=
  ASSERT negb (out =? NULL) ;;
  ASSERT (repr_size =? compute_decimal_repr_size x) ;;
  repr_loop 20 x m (out + repr_size).

Definition generate_decimal_repr_string (x : Z) (m : mem) (out : ptr) : result (mem * Z) :=
  ASSERT negb (out =? NULL) ;;
  let repr_size := compute_decimal_repr_size x in
  m ← generate_decimal_repr x m out repr_size;
  m ← store m (out + repr_size) [0];
  Ok (m, repr_size).

(** ** What the strings mean *)

Module NumberSpec.

(** The value of a digit string; [None] when a character is not a digit. *)
Fixpoint value_from (base : Z) (decode : Z → Z) (s : list Z) (n : Z) : option Z :=
  match s with
  | [] => Some n
  | c :: s => if decode c <? 0 then None else value_from base decode s (base * n + decode c)
  end.

Definition digits_value (base : Z) (decode : Z → Z) (s : list Z) : option Z :=
  match s with [] => None | _ => value_from base decode s 0 end.

(** The decimal digits of a number, most significant first. *)
Fixpoint decimal (fuel : nat) (x : Z) : list Z :=
  match fuel with
  | O => [ch "0" + x mod 10]
  | S fuel => (if 0 <? x / 10 then decimal fuel (x / 10) else []) ++ [ch "0" + x mod 10]
  end.

End NumberSpec.

Module NumberFacts.
Import NumberSpec CStringFacts.

(** ** Digits *)

Definition dec_value (s : list Z) : option Z := value_from 10 decode_decimal_digit s 0.

(** What the parsers are to return. *)
Definition fits (v : option Z) : option Z := n ← v; if n <=? UINTMAX_MAX then Some n else None.

(** A character that is compared with literals: all cases of its low bits. *)
Ltac char_cases c :=
  destruct c as [|c|c]; try lia; try done;
  do 7 try (destruct c as [c|c|]; try lia; try done).

Lemma decode_decimal_digit_ok c :
  decode_decimal_digit c = if (ch "0" <=? c) && (c <=? ch "9") then c - ch "0" else -1.
Proof.
  change (ch "0") with 48. change (ch "9") with 57.
  destruct (Z.leb_spec 48 c), (Z.leb_spec c 57); simpl; unfold decode_decimal_digit;
    char_cases c.
Qed.

Lemma decode_decimal_digit_bound c : -1 ≤ decode_decimal_digit c < 10.
Proof.
  rewrite decode_decimal_digit_ok. change (ch "0") with 48. change (ch "9") with 57.
  destruct (Z.leb_spec 48 c), (Z.leb_spec c 57); simpl; lia.
Qed.

Lemma decode_hex_digit_bound c : -1 ≤ decode_hex_digit c < 16.
Proof. unfold decode_hex_digit. char_cases c. Qed.

Lemma decode_hex_decimal c : 0 ≤ decode_decimal_digit c → decode_hex_digit c = decode_decimal_digit c.
Proof. unfold decode_hex_digit, decode_decimal_digit. char_cases c. Qed.

(** ** Values *)

Section value.
Context (base : Z) (decode : Z → Z) (Hbase : 1 < base)
  (Hdecode : ∀ c, -1 ≤ decode c < base).

Lemma value_from_app s1 s2 n :
  value_from base decode (s1 ++ s2) n = v ← value_from base decode s1 n; value_from base decode s2 v.
Proof.
  revert n. induction s1 as [|c s1 IH]; intros n; simpl; [done|]. by destruct (decode c <? 0).
Qed.

(** A string of [k] digits after [n] has a value between n*base^k and (n+1)*base^k. *)
Lemma value_from_bound s : ∀ n v,
  value_from base decode s n = Some v →
  n * base ^ Z.of_nat (List.length s) ≤ v < (n + 1) * base ^ Z.of_nat (List.length s).
Proof.
  induction s as [|c s IH]; intros n v H; cbn [value_from List.length] in *.
  - simplify_eq. simpl. lia.
  - case_if; [done|]. apply IH in H. rewrite Nat2Z.inj_succ, Z.pow_succ_r by lia.
    pose proof (Hdecode c). pose proof (Z.pow_pos_nonneg base (Z.of_nat (List.length s))). nia.
Qed.

Lemma value_from_ge s n v : 0 ≤ n → value_from base decode s n = Some v → n ≤ v.
Proof.
  intros Hn H%value_from_bound. pose proof (Z.pow_pos_nonneg base (Z.of_nat (List.length s))). nia.
Qed.

Lemma value_from_some s : ∀ n n',
  is_Some (value_from base decode s n) → is_Some (value_from base decode s n').
Proof.
  induction s as [|c s IH]; intros n n' H; simpl in *; [by eexists|].
  case_if; [by destruct H|]. eauto.
Qed.

Lemma value_from_lead s n :
  value_from base decode s n =
  v ← value_from base decode s 0; Some (n * base ^ Z.of_nat (List.length s) + v).
Proof.
  assert (Hgo : ∀ s a b, value_from base decode s (a + b) =
    v ← value_from base decode s b; Some (a * base ^ Z.of_nat (List.length s) + v)).
  { clear s n. induction s as [|c s IH]; intros a b; cbn [value_from List.length].
    - simpl. f_equal. lia.
    - destruct (decode c <? 0); [done|].
      replace (base * (a + b) + decode c) with (base * a + (base * b + decode c)) by lia.
      rewrite IH. destruct (value_from base decode s (base * b + decode c)); simpl; [|done].
      f_equal. rewrite Nat2Z.inj_succ, Z.pow_succ_r by lia. lia. }
  rewrite <- (Z.add_0_r n) at 1. by rewrite Hgo.
Qed.

(** The checked accumulation computes the value, or finds that it does not fit. *)
Lemma add_digits_ok s : ∀ n,
  base ≤ 16 → 0 ≤ n ≤ UINTMAX_MAX →
  add_digits base decode s n = fits (value_from base decode s n).
Proof.
  induction s as [|c s IH]; intros n Hb Hn; cbn [add_digits value_from].
  { simpl. by rewrite (proj2 (Z.leb_le _ _)) by lia. }
  unfold add_digit. case_if; [done|]. pose proof (Hdecode c).
  assert (Hover : UINTMAX_MAX < base * n + decode c →
    fits (value_from base decode s (base * n + decode c)) = None).
  { intros Ho. destruct (value_from _ _ s _) as [v|] eqn:Hv; simpl; [|done].
    apply value_from_ge in Hv; [|lia]. by rewrite (proj2 (Z.leb_gt _ _)) by lia. }
  unfold UINTMAX_MAX, UINT64_MAX in *.
  case_if.
  { simpl. rewrite Hover; [done|]. pose proof (Z.mul_succ_div_gt (2 ^ 64 - 1) base). nia. }
  assert (n * base ≤ 2 ^ 64 - 1) by (pose proof (Z.mul_div_le (2 ^ 64 - 1) base); nia).
  unfold to_u64. rewrite (Z.mod_small (n * base)), (Z.mod_small (_ - _)) by lia.
  case_if; [simpl; rewrite Hover; [done | lia]|].
  rewrite Z.mod_small by lia. simpl. rewrite IH by lia. f_equal. f_equal. lia.
Qed.

Lemma add_digits_app s1 s2 n :
  add_digits base decode (s1 ++ s2) n = v ← add_digits base decode s1 n; add_digits base decode s2 v.
Proof.
  revert n. induction s1 as [|c s1 IH]; intros n; simpl; [done|].
  destruct (add_digit base n (decode c)); simpl; [apply IH | done].
Qed.
End value.

(** ** The parsers *)

Lemma skip_zeros_value s : dec_value (skip_zeros s) = dec_value s.
Proof.
  unfold dec_value. induction s as [|c s IH]; [done|]. cbn [skip_zeros].
  destruct (Z.eqb_spec c (ch "0")) as [->|]; [|done]. by rewrite IH.
Qed.

Lemma skip_zeros_head s c s' : skip_zeros s = c :: s' → c ≠ ch "0".
Proof.
  induction s as [|x s IH]; simpl; [done|]. case_if; [done|]. intros H. by simplify_eq.
Qed.

Lemma not_digit c : (c <? ch "0") || (ch "9" <? c) = (decode_decimal_digit c <? 0).
Proof.
  rewrite decode_decimal_digit_ok. change (ch "0") with 48. change (ch "9") with 57.
  destruct (Z.ltb_spec c 48), (Z.ltb_spec 57 c), (Z.leb_spec 48 c), (Z.leb_spec c 57); simpl; lia.
Qed.

Lemma no_overflow_some s : ∀ n v,
  0 ≤ n → value_from 10 decode_decimal_digit s n = Some v → v ≤ UINTMAX_MAX →
  parse__no_overflow s n = Some v.
Proof.
  induction s as [|c s IH]; intros n v Hn Hv Hle; cbn [parse__no_overflow value_from] in *; [done|].
  rewrite not_digit. case_if; [done|].
  assert (Hc : c - ch "0" = decode_decimal_digit c).
  { revert Heqb. rewrite decode_decimal_digit_ok. by case_if. }
  rewrite Hc.
  assert (10 * n + decode_decimal_digit c ≤ v).
  { eapply (value_from_ge 10 _ ltac:(lia) decode_decimal_digit_bound); [|exact Hv]. lia. }
  unfold to_u64, UINTMAX_MAX, UINT64_MAX in *. rewrite Z.mod_small by lia.
  apply IH; [lia | done | done].
Qed.

Lemma no_overflow_none s : ∀ n n',
  value_from 10 decode_decimal_digit s n = None → parse__no_overflow s n' = None.
Proof.
  induction s as [|c s IH]; intros n n' Hv; cbn [parse__no_overflow value_from] in *; [done|].
  rewrite not_digit. case_if; [done|]. eauto.
Qed.

(** For digit strings of one length, [memcmp] compares the values. *)
Lemma memcmp_value a : ∀ b va vb n,
  List.length a = List.length b →
  value_from 10 decode_decimal_digit a n = Some va → value_from 10 decode_decimal_digit b n = Some vb →
  (0 < memcmp a b ↔ vb < va).
Proof.
  induction a as [|x a IH]; intros [|y b] va vb n Hl Ha Hb; cbn [memcmp value_from List.length] in *;
    try done; simplify_eq.
  { lia. }
  revert Ha Hb. repeat case_if; [done..|subst y|]; intros Ha Hb.
  { eapply IH; eauto. }
  apply (value_from_bound 10 _ ltac:(lia) decode_decimal_digit_bound) in Ha, Hb.
  assert (List.length a = List.length b) as Hlab by lia. rewrite Hlab in Ha.
  pose proof (Z.pow_pos_nonneg 10 (Z.of_nat (List.length b)) ltac:(lia) ltac:(lia)).
  assert (x - y = decode_decimal_digit x - decode_decimal_digit y) as ->.
  { revert Heqb0 Heqb1 Heqb2. rewrite !decode_decimal_digit_ok. repeat case_if; lia. }
  assert (decode_decimal_digit x ≠ decode_decimal_digit y).
  { revert Heqb0 Heqb1 Heqb2. rewrite !decode_decimal_digit_ok. repeat case_if; lia. }
  nia.
Qed.

Lemma parse_unsigned_ok s :
  parse_unsigned_integer_bin s = fits (digits_value 10 decode_decimal_digit s).
Proof.
  destruct s as [|c s]; [done|].
  assert (Hd : digits_value 10 decode_decimal_digit (c :: s) = dec_value (skip_zeros (c :: s))).
  { by rewrite skip_zeros_value. }
  rewrite Hd. unfold parse_unsigned_integer_bin. remember (skip_zeros (c :: s)) as s' eqn:Hs.
  assert (Hlead : ∀ v, dec_value s' = Some v → s' ≠ [] → 10 ^ (Z.of_nat (List.length s') - 1) ≤ v).
  { intros v Hv Hne. destruct s' as [|x s']; [done|]. pose proof (skip_zeros_head _ _ _ (eq_sym Hs)).
    unfold dec_value in Hv. cbn [value_from] in Hv. case_if; [done|].
    apply (value_from_bound 10 _ ltac:(lia) decode_decimal_digit_bound) in Hv.
    assert (1 ≤ decode_decimal_digit x).
    { revert Heqb. rewrite decode_decimal_digit_ok. change (ch "0") with 48 in *. case_if; lia. }
    cbn [List.length]. rewrite Nat2Z.inj_succ.
    replace (Z.succ (Z.of_nat (List.length s')) - 1) with (Z.of_nat (List.length s')) by lia.
    pose proof (Z.pow_pos_nonneg 10 (Z.of_nat (List.length s'))). nia. }
  destruct (_ || _) eqn:Hover.
  - destruct (dec_value s') as [v|] eqn:Hv; [|done]. simpl. rewrite (proj2 (Z.leb_gt _ _)); [done|].
    apply orb_true_iff in Hover as [Hlong%Nat.ltb_lt | [Hl%Nat.eqb_eq Hm%Z.ltb_lt]%andb_true_iff].
    + assert (s' ≠ []) by (by intros ->; simpl in Hlong; lia).
      specialize (Hlead v eq_refl ltac:(done)). change (List.length uintmax_max_str) with 20%nat in Hlong.
      assert (10 ^ 20 ≤ 10 ^ (Z.of_nat (List.length s') - 1)) by (apply Z.pow_le_mono_r; lia).
      unfold UINTMAX_MAX, UINT64_MAX. lia.
    + by apply (memcmp_value s' uintmax_max_str v UINTMAX_MAX 0).
  - apply orb_false_iff in Hover as [Hshort%Nat.ltb_ge Hm].
    destruct (dec_value s') as [v|] eqn:Hv; simpl.
    + assert (v ≤ UINTMAX_MAX).
      { apply andb_false_iff in Hm as [Hl%Nat.eqb_neq | Hm%Z.ltb_ge].
        - apply (value_from_bound 10 _ ltac:(lia) decode_decimal_digit_bound) in Hv.
          change (List.length uintmax_max_str) with 20%nat in *.
          assert (10 ^ Z.of_nat (List.length s') ≤ 10 ^ 19) by (apply Z.pow_le_mono_r; lia).
          unfold UINTMAX_MAX, UINT64_MAX. lia.
        - destruct (decide (List.length s' = List.length uintmax_max_str)) as [Hl|Hl].
          + destruct (decide (v ≤ UINTMAX_MAX)); [done|].
            pose proof (proj2 (memcmp_value s' uintmax_max_str v UINTMAX_MAX 0 Hl Hv eq_refl)). lia.
          + apply (value_from_bound 10 _ ltac:(lia) decode_decimal_digit_bound) in Hv.
            change (List.length uintmax_max_str) with 20%nat in *.
            assert (10 ^ Z.of_nat (List.length s') ≤ 10 ^ 19) by (apply Z.pow_le_mono_r; lia).
            unfold UINTMAX_MAX, UINT64_MAX. lia. }
      rewrite (proj2 (Z.leb_le _ _)) by done. apply no_overflow_some; [lia | done | done].
    + by eapply no_overflow_none.
Qed.

Lemma parse_hex_ok s :
  parse_unsigned_hex_integer_bin s = fits (digits_value 16 decode_hex_digit s).
Proof.
  destruct s as [|c s]; [done|]. unfold parse_unsigned_hex_integer_bin.
  apply add_digits_ok; [lia | exact decode_hex_digit_bound | lia | done].
Qed.

Lemma parse_cstr_ok cs s off n :
  Represents cs s → (off + n ≤ List.length s)%nat →
  parse_unsigned_integer_cstr cs (Z.of_nat off) (Z.of_nat n)
  = Ok (parse_unsigned_integer_bin (range s off n)).
Proof.
  intros Hrep Hl. unfold parse_unsigned_integer_cstr. rewrite (assert_range_ok cs s) by done.
  pose proof (length_range s off n Hl) as Hr. rewrite parse_unsigned_ok.
  destruct (Z.eqb_spec (Z.of_nat n) 0) as [Hn|Hn].
  { by destruct (range s off n); [|simpl in Hr; lia]. }
  assert (Hd : fits (digits_value 10 decode_decimal_digit (range s off n))
               = add_digits 10 decode_decimal_digit (range s off n) 0).
  { rewrite (add_digits_ok 10 _ ltac:(lia) decode_decimal_digit_bound) by (unfold UINTMAX_MAX, UINT64_MAX; lia).
    destruct (range s off n); [simpl in Hr; lia | done]. }
  rewrite Hd.
  destruct (loop_range_ok cs s
    (λ b n, add_digits 10 decode_decimal_digit b 0 = Some n)
    (λ _, add_digits 10 decode_decimal_digit (range s off n) 0 = None)
    (λ n _ chunk, Ok (match add_digits 10 decode_decimal_digit chunk n with
                      | Some n => inl n | None => inr tt end)) off n 0) as (r & -> & Hres);
    [done | | done |].
  - intros behind chunk rest v Hr' Hv. eexists. split; [done|].
    destruct (add_digits _ _ chunk v) as [v'|] eqn:Hc.
    + rewrite (add_digits_app 10 decode_decimal_digit), Hv. exact Hc.
    + rewrite Hr', (add_digits_app 10 decode_decimal_digit), Hv. simpl.
      by rewrite (add_digits_app 10 decode_decimal_digit), Hc.
  - destruct r; simpl; by rewrite Hres.
Qed.

(** The decimal and the hexadecimal parser return the value of the digits exactly when all
    characters are digits, there is at least one, and the value fits in uintmax_t; nothing
    overflows. *)
Theorem parse_unsigned_exact s :
  parse_unsigned_integer_bin s = fits (digits_value 10 decode_decimal_digit s) ∧
  parse_unsigned_hex_integer_bin s = fits (digits_value 16 decode_hex_digit s).
Proof. split; [apply parse_unsigned_ok | apply parse_hex_ok]. Qed.

(** The parsers that read a composed string, region by region, return what the parsers of
    one buffer return on the range's characters. *)
Theorem parsers_agree cs s off n :
  Represents cs s → (off + n ≤ List.length s)%nat →
  parse_unsigned_integer_cstr cs (Z.of_nat off) (Z.of_nat n)
    = Ok (parse_unsigned_integer_bin (range s off n)) ∧
  parse_signmag_integer_cstr cs (Z.of_nat off) (Z.of_nat n)
    = Ok (parse_signmag_integer_bin (range s off n)).
Proof.
  intros Hrep Hl. split; [by apply parse_cstr_ok|].
  unfold parse_signmag_integer_cstr, parse_signmag_integer_bin.
  rewrite (assert_range_ok cs s) by done. pose proof (length_range s off n Hl) as Hr.
  destruct (range s off n) as [|c rest] eqn:Hrange; simpl in Hr.
  - subst n. simpl. rewrite (parse_cstr_ok cs s off 0) by (done || lia). by rewrite Hrange.
  - rewrite (proj2 (Z.ltb_lt _ _)) by lia.
    assert (Hc : s !! off = Some c).
    { unfold range in Hrange. pose proof (f_equal head Hrange) as Hh.
      destruct n; [lia|]. destruct (drop off s) eqn:Hd; [done|]. simpl in Hh. simplify_eq.
      apply (f_equal (λ l, l !! 0%nat)) in Hd. rewrite lookup_drop, Nat.add_0_r in Hd. done. }
    rewrite (at_ok cs s off c) by done. rewrite ok_bind. simpl.
    destruct (_ || _); rewrite ok_bind.
    + replace (Z.of_nat off + 1) with (Z.of_nat (off + 1)) by lia.
      replace (Z.of_nat n - 1) with (Z.of_nat (n - 1)) by lia.
      rewrite (parse_cstr_ok cs s) by (done || lia). simpl. do 2 f_equal.
      assert (range s (off + 1) (n - 1) = rest) as ->; [|done].
      unfold range in *. rewrite <- drop_drop. destruct n; [lia|].
      destruct (drop off s) as [|y t] eqn:Hd; simpl in *; simplify_eq. by rewrite Nat.sub_0_r.
    + rewrite (parse_cstr_ok cs s off n) by done. by rewrite Hrange.
Qed.

Lemma parsers_agree_witness :
  parse_signmag_integer_cstr (mk 5 (Some (λ off, Some (take 2 (drop (Z.to_nat off) (str "-1042"))))))
    0 5 = Ok (Some (-1, 1042)).
Proof.
  destruct (parsers_agree (mk 5 (Some (λ off, Some (take 2 (drop (Z.to_nat off) (str "-1042"))))))
    (str "-1042") 0 5) as [_ H]; [| by vm_compute |].
  - split; [done|]. intros _. eexists. split; [done|]. simpl. intros off Hoff.
    do 5 (destruct off as [|off]; [eexists; split; [done|]; split; [done|]; by eexists|]). lia.
  - change 0 with (Z.of_nat 0). change 5 with (Z.of_nat 5) at 2. rewrite H. by vm_compute.
Defined.

(** ** Decimal representation *)

Lemma decimal_value fuel : ∀ x,
  0 ≤ x < 10 ^ (Z.of_nat fuel + 1) → dec_value (decimal fuel x) = Some x.
Proof.
  unfold dec_value.
  assert (Hd : ∀ x, decode_decimal_digit (ch "0" + x mod 10) = x mod 10).
  { intros x. pose proof (Z.mod_pos_bound x 10). rewrite decode_decimal_digit_ok.
    change (ch "0") with 48. change (ch "9") with 57.
    rewrite !(proj2 (Z.leb_le _ _)) by lia. simpl. lia. }
  induction fuel as [|fuel IH]; intros x Hx; cbn [decimal].
  - simpl. rewrite Hd, Z.mod_small by (simpl in Hx; lia). by rewrite (proj2 (Z.ltb_ge _ _)) by lia.
  - rewrite value_from_app. pose proof (Z.mod_pos_bound x 10). pose proof (Z.div_mod x 10).
    rewrite Nat2Z.inj_succ, <- Z.add_1_l, <- Z.add_assoc, Z.pow_add_r in Hx by lia.
    assert (0 ≤ x / 10 < 10 ^ (Z.of_nat fuel + 1)).
    { split; [apply Z.div_pos; lia|]. apply Z.div_lt_upper_bound; lia. }
    assert ((value_from 10 decode_decimal_digit (if 0 <? x / 10 then decimal fuel (x / 10) else []) 0)
            = Some (x / 10)) as ->.
    { destruct (Z.ltb_spec 0 (x / 10)); [by apply IH|]. simpl. f_equal. lia. }
    cbn [mbind option_bind value_from]. rewrite Hd, (proj2 (Z.ltb_ge _ _)) by lia. f_equal. lia.
Qed.

Lemma decimal_nonempty fuel x : decimal fuel x ≠ [].
Proof. destruct fuel; simpl; [done|]. intros []%app_nil. done. Qed.

Lemma repr_size_loop_ok fuel : ∀ x size,
  repr_size_loop fuel x size = size + Z.of_nat (List.length (decimal fuel x)).
Proof.
  induction fuel as [|fuel IH]; intros x size; cbn [repr_size_loop decimal]; [simpl; lia|].
  rewrite length_app. case_if; [rewrite IH|]; cbn [List.length]; lia.
Qed.

Lemma repr_loop_ok fuel : ∀ x m out,
  mapped m (out - Z.of_nat (List.length (decimal fuel x))) (Z.of_nat (List.length (decimal fuel x))) →
  ∃ m', repr_loop fuel x m out = Ok m' ∧
    holds_at m' (out - Z.of_nat (List.length (decimal fuel x))) (decimal fuel x) ∧
    (∀ a, ¬ (out - Z.of_nat (List.length (decimal fuel x)) ≤ a < out) → m' !! a = m !! a) ∧
    (∀ p n, mapped m p n → mapped m' p n).
Proof.
  induction fuel as [|fuel IH]; intros x m out Hm; cbn [repr_loop decimal] in *.
  - destruct (store_mapped_ok m (out - 1) [ch "0" + x mod 10]) as [m1 Hs]; [done|].
    rewrite Hs, ok_bind. exists m1. split; [done|]. split; [by eapply store_holds|]. split.
    + intros a Ha. rewrite (store_lookup _ _ _ _ _ Hs), decide_False by (simpl in *; lia). done.
    + intros p n. by eapply store_mapped.
  - set (hi := if 0 <? x / 10 then decimal fuel (x / 10) else []) in *.
    rewrite length_app in *. cbn [List.length] in *.
    destruct (store_mapped_ok m (out - 1) [ch "0" + x mod 10]) as [m1 Hs].
    { eapply mapped_sub; [exact Hm | lia | simpl; lia]. }
    rewrite Hs, ok_bind.
    assert (Hhead : m1 !! (out - 1) = Some (ch "0" + x mod 10)).
    { pose proof (store_holds _ _ _ _ Hs 0%nat _ eq_refl) as H. by rewrite Z.add_0_r in H. }
    assert (Hfr : ∀ a, a ≠ out - 1 → m1 !! a = m !! a).
    { intros a Ha. rewrite (store_lookup _ _ _ _ _ Hs), decide_False by (simpl; lia). done. }
    assert (Hrest : ∃ m', (if 0 <? x / 10 then repr_loop fuel (x / 10) m1 (out - 1) else Ok m1) = Ok m' ∧
      holds_at m' (out - 1 - Z.of_nat (List.length hi)) hi ∧
      (∀ a, ¬ (out - 1 - Z.of_nat (List.length hi) ≤ a < out - 1) → m' !! a = m1 !! a) ∧
      (∀ p n, mapped m1 p n → mapped m' p n)).
    { unfold hi in *. destruct (0 <? x / 10).
      - apply IH. eapply mapped_sub; [eapply store_mapped; [exact Hs | exact Hm] | lia | lia].
      - exists m1. split; [done|]. split; [apply holds_at_nil|]. auto. }
    destruct Hrest as (m' & -> & Hh & Hfr' & Hmp). exists m'. split; [done|].
    replace (out - Z.of_nat (List.length hi + 1)) with (out - 1 - Z.of_nat (List.length hi)) by lia.
    split; [|split].
    + apply holds_at_app. split; [done|]. apply holds_at_cons. split; [|apply holds_at_nil].
      replace (out - 1 - _ + _) with (out - 1) by lia. rewrite Hfr'; [done | lia].
    + intros a Ha. rewrite Hfr' by lia. apply Hfr. lia.
    + intros p n H. apply Hmp. by eapply store_mapped.
Qed.

(** Every uintmax_t is written as exactly the digits compute_decimal_repr_size says, zero-
    terminated, with nothing else changed in memory, and parses back. *)
Theorem decimal_roundtrip x m out :
  0 ≤ x ≤ UINTMAX_MAX → out ≠ NULL → mapped m out (compute_decimal_repr_size x + 1) →
  ∃ m' digits, generate_decimal_repr_string x m out = Ok (m', Z.of_nat (List.length digits)) ∧
    load m' out (List.length digits) = Ok digits ∧
    m' !! (out + Z.of_nat (List.length digits)) = Some 0 ∧
    (∀ a, ¬ (out ≤ a ≤ out + Z.of_nat (List.length digits)) → m' !! a = m !! a) ∧
    parse_unsigned_integer_bin digits = Some x.
Proof.
  intros Hx Hout Hm. unfold generate_decimal_repr_string, generate_decimal_repr.
  unfold compute_decimal_repr_size in *. rewrite repr_size_loop_ok, Z.add_0_l in *.
  set (d := decimal 20 x) in *. rewrite !c_assert_true by (apply negb_true_iff, Z.eqb_neq; done).
  rewrite Z.eqb_refl. cbn [c_assert].
  assert (Hout' : out + Z.of_nat (List.length d) - Z.of_nat (List.length d) = out) by lia.
  pose proof (repr_loop_ok 20 x m (out + Z.of_nat (List.length d))) as Hloop.
  fold d in Hloop. rewrite Hout' in Hloop. destruct Hloop as (m1 & -> & Hh & Hfr & Hmp).
  { eapply mapped_sub; [exact Hm | lia | lia]. }
  rewrite ok_bind.
  destruct (store_mapped_ok m1 (out + Z.of_nat (List.length d)) [0]) as [m2 Hs].
  { apply Hmp. eapply mapped_sub; [exact Hm | lia | simpl; lia]. }
  rewrite Hs, ok_bind. exists m2, d. split; [done|]. split_and!.
  - apply load_ok. split; [done|]. eapply store_frame; [exact Hs | done | lia].
  - pose proof (store_holds _ _ _ _ Hs 0%nat _ eq_refl) as H. by rewrite Z.add_0_r in H.
  - intros a Ha. rewrite (store_lookup _ _ _ _ _ Hs), decide_False by (simpl; lia). apply Hfr. lia.
  - rewrite parse_unsigned_ok. unfold UINTMAX_MAX, UINT64_MAX in *.
    pose proof (decimal_value 20 x) as Hv. fold d in Hv. unfold dec_value in Hv.
    pose proof (decimal_nonempty 20 x) as Hne. fold d in Hne.
    unfold digits_value. clearbody d. destruct d; [done|]. rewrite Hv by lia. simpl.
    unfold UINTMAX_MAX, UINT64_MAX. by rewrite (proj2 (Z.leb_le _ _)) by lia.
Qed.

Lemma decimal_roundtrip_witness :
  ∃ m' digits, generate_decimal_repr_string 1905 (map_block ∅ 64 5) 64 = Ok (m', Z.of_nat (List.length digits))
    ∧ parse_unsigned_integer_bin digits = Some 1905.
Proof.
  destruct (decimal_roundtrip 1905 (map_block ∅ 64 5) 64) as (m' & d & H & _ & _ & _ & Hp).
  - by vm_compute.
  - done.
  - apply (map_block_mapped ∅ 64 5).
  - eauto.
Defined.

End NumberFacts.
