(* ===== verification/ReadWriteInt.v ===== *)
(** * Integers in memory: misc/read_write_int.h

    Reading and writing of integers in either byte order, byte by byte, by shifts and bitwise or.
    The byte order of the machine does not matter here: [rw_roundtrip] shows that
    what is written reads back, that the two orders are reversals of each other, and that nothing else
    is written. *)

From S2P Require Import Prelude CMem.

(** [ptr[i]] *)
Definition byte_at (m : mem) (p : ptr) (i : Z) : result Z := or_fault BadAccess (m !! (p + i)).

Definition badvpn_read_le8 (m : mem) (p : ptr) : result Z :=
  b0 ← byte_at m p 0;
  Ok (Z.shiftl b0 0).

Definition badvpn_read_le16 (m : mem) (p : ptr) : result Z :=
  b0 ← byte_at m p 0;
  b1 ← byte_at m p 1;
  Ok (Z.lor (Z.shiftl b1 8) (Z.shiftl b0 0)).

Definition badvpn_read_le32 (m : mem) (p : ptr) : result Z :=
  b0 ← byte_at m p 0;
  b1 ← byte_at m p 1;
  b2 ← byte_at m p 2;
  b3 ← byte_at m p 3;
  Ok (Z.lor (Z.lor (Z.lor (Z.shiftl b3 24) (Z.shiftl b2 16)) (Z.shiftl b1 8)) (Z.shiftl b0 0)).

Definition badvpn_read_le64 (m : mem) (p : ptr) : result Z :=
  b0 ← byte_at m p 0;
  b1 ← byte_at m p 1;
  b2 ← byte_at m p 2;
  b3 ← byte_at m p 3;
  b4 ← byte_at m p 4;
  b5 ← byte_at m p 5;
  b6 ← byte_at m p 6;
  b7 ← byte_at m p 7;
  Ok (Z.lor (Z.lor (Z.lor (Z.lor (Z.lor (Z.lor (Z.lor (Z.shiftl b7 56) (Z.shiftl b6 48))
    (Z.shiftl b5 40)) (Z.shiftl b4 32)) (Z.shiftl b3 24)) (Z.shiftl b2 16)) (Z.shiftl b1 8))
    (Z.shiftl b0 0)).

Definition badvpn_read_be8 (m : mem) (p : ptr) : result Z :=
  b0 ← byte_at m p 0;
  Ok (Z.shiftl b0 0).

Definition badvpn_read_be16 (m : mem) (p : ptr) : result Z :=
  b0 ← byte_at m p 0;
  b1 ← byte_at m p 1;
  Ok (Z.lor (Z.shiftl b0 8) (Z.shiftl b1 0)).

Definition badvpn_read_be32 (m : mem) (p : ptr) : result Z :=
  b0 ← byte_at m p 0;
  b1 ← byte_at m p 1;
  b2 ← byte_at m p 2;
  b3 ← byte_at m p 3;
  Ok (Z.lor (Z.lor (Z.lor (Z.shiftl b0 24) (Z.shiftl b1 16)) (Z.shiftl b2 8)) (Z.shiftl b3 0)).

Definition badvpn_read_be64 (m : mem) (p : ptr) : result Z :=
  b0 ← byte_at m p 0;
  b1 ← byte_at m p 1;
  b2 ← byte_at m p 2;
  b3 ← byte_at m p 3;
  b4 ← byte_at m p 4;
  b5 ← byte_at m p 5;
  b6 ← byte_at m p 6;
  b7 ← byte_at m p 7;
  Ok (Z.lor (Z.lor (Z.lor (Z.lor (Z.lor (Z.lor (Z.lor (Z.shiftl b0 56) (Z.shiftl b1 48))
    (Z.shiftl b2 40)) (Z.shiftl b3 32)) (Z.shiftl b4 24)) (Z.shiftl b5 16)) (Z.shiftl b6 8))
    (Z.shiftl b7 0)).

Definition badvpn_write_le8 (x : Z) (m : mem) (p : ptr) : result mem :=
  store m (p + 0) [to_u8 (Z.shiftr x 0)].

Definition badvpn_write_le16 (x : Z) (m : mem) (p : ptr) : result mem :=
  m ← store m (p + 1) [to_u8 (Z.shiftr x 8)];
  store m (p + 0) [to_u8 (Z.shiftr x 0)].

Definition badvpn_write_le32 (x : Z) (m : mem) (p : ptr) : result mem :=
  m ← store m (p + 3) [to_u8 (Z.shiftr x 24)];
  m ← store m (p + 2) [to_u8 (Z.shiftr x 16)];
  m ← store m (p + 1) [to_u8 (Z.shiftr x 8)];
  store m (p + 0) [to_u8 (Z.shiftr x 0)].

Definition badvpn_write_le64 (x : Z) (m : mem) (p : ptr) : result mem :=
  m ← store m (p + 7) [to_u8 (Z.shiftr x 56)];
  m ← store m (p + 6) [to_u8 (Z.shiftr x 48)];
  m ← store m (p + 5) [to_u8 (Z.shiftr x 40)];
  m ← store m (p + 4) [to_u8 (Z.shiftr x 32)];
  m ← store m (p + 3) [to_u8 (Z.shiftr x 24)];
  m ← store m (p + 2) [to_u8 (Z.shiftr x 16)];
  m ← store m (p + 1) [to_u8 (Z.shiftr x 8)];
  store m (p + 0) [to_u8 (Z.shiftr x 0)].

Definition badvpn_write_be8 (x : Z) (m : mem) (p : ptr) : result mem :=
  store m (p + 0) [to_u8 (Z.shiftr x 0)].

Definition badvpn_write_be16 (x : Z) (m : mem) (p : ptr) : result mem :=
  m ← store m (p + 0) [to_u8 (Z.shiftr x 8)];
  store m (p + 1) [to_u8 (Z.shiftr x 0)].

Definition badvpn_write_be32 (x : Z) (m : mem) (p : ptr) : result mem :=
  m ← store m (p + 0) [to_u8 (Z.shiftr x 24)];
  m ← store m (p + 1) [to_u8 (Z.shiftr x 16)];
  m ← store m (p + 2) [to_u8 (Z.shiftr x 8)];
  store m (p + 3) [to_u8 (Z.shiftr x 0)].

Definition badvpn_write_be64 (x : Z) (m : mem) (p : ptr) : result mem :=
  m ← store m (p + 0) [to_u8 (Z.shiftr x 56)];
  m ← store m (p + 1) [to_u8 (Z.shiftr x 48)];
  m ← store m (p + 2) [to_u8 (Z.shiftr x 40)];
  m ← store m (p + 3) [to_u8 (Z.shiftr x 32)];
  m ← store m (p + 4) [to_u8 (Z.shiftr x 24)];
  m ← store m (p + 5) [to_u8 (Z.shiftr x 16)];
  m ← store m (p + 6) [to_u8 (Z.shiftr x 8)];
  store m (p + 7) [to_u8 (Z.shiftr x 0)].

Module ReadWriteFacts.

(** What the bytes written by a function of [n] bytes are, least significant first unless reversed. *)
Definition rw_ok (n : nat) (rd : mem → ptr → result Z) (wr : Z → mem → ptr → result mem)
    (order : list Z → list Z) : Prop :=
  ∀ x m p, mapped m p (Z.of_nat n) →
    ∃ m', wr x m p = Ok m' ∧ holds_at m' p (order (le_bytes n x)) ∧
      rd m' p = Ok (x mod 2 ^ (8 * Z.of_nat n)) ∧
      (∀ a, ¬ (p ≤ a < p + Z.of_nat n) → m' !! a = m !! a).

Lemma lor_byte x b : is_byte b → Z.lor (Z.shiftl x 8) b = 256 * x + b.
Proof.
  intros Hb. unfold is_byte in Hb. rewrite Z.shiftl_mul_pow2 by lia.
  assert (Z.land (x * 2 ^ 8) b = 0) as Hl.
  { apply Z.bits_inj'. intros i Hi. rewrite Z.land_spec, Z.bits_0.
    destruct (decide (i < 8)); [by rewrite Z.mul_pow2_bits_low by lia|].
    rewrite (Z.bits_above_log2 b), andb_false_r; [done | lia |].
    destruct (decide (b = 0)) as [->|]; [simpl; lia|].
    eapply Z.lt_le_trans; [apply (Z.log2_lt_pow2 b 8); lia | lia]. }
  rewrite <- Z.lxor_lor, <- Z.add_nocarry_lxor by done. change (2 ^ 8) with 256. lia.
Qed.

Lemma join x b k k' :
  is_byte b → k' = k + 8 → 0 ≤ k → Z.lor (Z.shiftl x k') (Z.shiftl b k) = Z.shiftl (256 * x + b) k.
Proof.
  intros Hb -> Hk. rewrite Z.add_comm, <- Z.shiftl_shiftl, <- Z.shiftl_lor by lia. by rewrite lor_byte.
Qed.

Lemma le_value_mod n : ∀ x, le_value (le_bytes n x) = x mod 256 ^ Z.of_nat n.
Proof.
  induction n as [|n IH]; intros x; [by rewrite Z.mod_1_r|]. cbn [le_bytes le_value].
  rewrite IH, Nat2Z.inj_succ, Z.pow_succ_r by lia.
  rewrite Z.rem_mul_r by (try apply Z.pow_nonzero; lia). lia.
Qed.

Lemma shiftr_byte x k : 0 ≤ k → Z.shiftr x (k + 8) = Z.shiftr x k / 256.
Proof. intros Hk. by rewrite <- Z.shiftr_shiftr, (Z.shiftr_div_pow2 _ 8) by lia. Qed.

(** The shifted values are those of [le_bytes]. *)
Lemma shifts x :
  Z.shiftr x 0 = x ∧ Z.shiftr x 8 = x / 256 ∧ Z.shiftr x 16 = x / 256 / 256 ∧
  Z.shiftr x 24 = x / 256 / 256 / 256 ∧ Z.shiftr x 32 = x / 256 / 256 / 256 / 256 ∧
  Z.shiftr x 40 = x / 256 / 256 / 256 / 256 / 256 ∧
  Z.shiftr x 48 = x / 256 / 256 / 256 / 256 / 256 / 256 ∧
  Z.shiftr x 56 = x / 256 / 256 / 256 / 256 / 256 / 256 / 256.
Proof.
  assert (H : ∀ k k' y, 0 ≤ k → k' = k + 8 → Z.shiftr x k = y → Z.shiftr x k' = y / 256).
  { intros k k' y Hk -> <-. by apply shiftr_byte. }
  split; [apply Z.shiftr_0_r|].
  split; [apply (H 0); try done; apply Z.shiftr_0_r|].
  assert (H8 : Z.shiftr x 8 = x / 256) by (apply (H 0); try done; apply Z.shiftr_0_r).
  assert (H16 := H 8 16 _ ltac:(lia) ltac:(lia) H8). assert (H24 := H 16 24 _ ltac:(lia) ltac:(lia) H16).
  assert (H32 := H 24 32 _ ltac:(lia) ltac:(lia) H24). assert (H40 := H 32 40 _ ltac:(lia) ltac:(lia) H32).
  assert (H48 := H 40 48 _ ltac:(lia) ltac:(lia) H40). assert (H56 := H 48 56 _ ltac:(lia) ltac:(lia) H48).
  split_and!; done.
Qed.

Lemma store_one m p n a b : mapped m p n → p ≤ a < p + n → store m a [b] = Ok (<[a := b]> m).
Proof. intros Hm Ha. cbn [store]. destruct (Hm a Ha) as [c Hc]. by rewrite Hc. Qed.

Lemma byte_at_ok m p i b : m !! (p + i) = Some b → byte_at m p i = Ok b.
Proof. unfold byte_at. by intros ->. Qed.

Lemma byte_mod x : is_byte (x mod 256).
Proof. apply Z.mod_pos_bound. lia. Qed.

(** Look an address up among the stores. *)
Ltac see := repeat (rewrite lookup_insert; first [rewrite decide_True by lia; reflexivity | rewrite decide_False by lia]).

(** All the stores of a function, the bytes they leave, and what reading them gives. *)
Ltac solve_rw n wr rd :=
  intros x m p Hm; unfold wr, rd, to_u8;
  pose proof (shifts x); destruct_and!;
  repeat match goal with H : Z.shiftr x _ = _ |- _ => rewrite ?H; clear H end;
  change (2 ^ 8) with 256;
  repeat (erewrite store_one by (first [repeat apply mapped_insert; exact Hm | lia]); rewrite ?ok_bind);
  eexists; split; [done|]; split; [|split];
  [ cbn [le_bytes reverse rev_append app]; repeat (apply holds_at_cons; split; [see|]); apply holds_at_nil
  | repeat match goal with
    | |- byte_at ?m' ?q ?i ≫= _ = _ => erewrite (byte_at_ok m' q i) by see; rewrite ok_bind
    end;
    rewrite ?(join _ _ 48 56), ?(join _ _ 40 48), ?(join _ _ 32 40), ?(join _ _ 24 32),
      ?(join _ _ 16 24), ?(join _ _ 8 16), ?(join _ _ 0 8) by (first [apply byte_mod | lia]);
    rewrite ?Z.shiftl_0_r; f_equal;
    rewrite Z.pow_mul_r by lia; change (2 ^ 8) with 256; rewrite <- (le_value_mod n); cbn [le_bytes le_value]; lia
  | intros a Ha; see; done ].

(** Each of the sixteen accessors writes exactly the bytes of the integer in its byte
    order, changes nothing else, and reads back the integer modulo its width. *)
Theorem rw_roundtrip :
  rw_ok 1 badvpn_read_le8 badvpn_write_le8 id ∧ rw_ok 2 badvpn_read_le16 badvpn_write_le16 id ∧
  rw_ok 4 badvpn_read_le32 badvpn_write_le32 id ∧ rw_ok 8 badvpn_read_le64 badvpn_write_le64 id ∧
  rw_ok 1 badvpn_read_be8 badvpn_write_be8 reverse ∧ rw_ok 2 badvpn_read_be16 badvpn_write_be16 reverse ∧
  rw_ok 4 badvpn_read_be32 badvpn_write_be32 reverse ∧ rw_ok 8 badvpn_read_be64 badvpn_write_be64 reverse.
Proof.
  split_and!.
  - solve_rw 1%nat badvpn_write_le8 badvpn_read_le8.
  - solve_rw 2%nat badvpn_write_le16 badvpn_read_le16.
  - solve_rw 4%nat badvpn_write_le32 badvpn_read_le32.
  - solve_rw 8%nat badvpn_write_le64 badvpn_read_le64.
  - solve_rw 1%nat badvpn_write_be8 badvpn_read_be8.
  - solve_rw 2%nat badvpn_write_be16 badvpn_read_be16.
  - solve_rw 4%nat badvpn_write_be32 badvpn_read_be32.
  - solve_rw 8%nat badvpn_write_be64 badvpn_read_be64.
Qed.

End ReadWriteFacts.
