(* ===== verification/IpAddr.v ===== *)
(** * IPv4 addresses: misc/ipaddr.h

    The parsers and printers of addresses and of addresses with a prefix length, and the
    conversions between prefix lengths and network masks.  An address is the 32-bit
    integer whose object representation is its four bytes.  What is printed is a list of
    characters; [print_dec] is the conversion [%u] of the C library.

    What is printed parses back, masks and prefixes determine each other, and two addresses
    are in one network exactly when their first bits are the same. *)

From Stdlib Require Import Ascii String.
From S2P Require Import Prelude CMem Strings Numbers.
Import NumberSpec.

(** The conversion [%u] of [sprintf], of a number that fits in 64 bits. *)
Definition print_dec (x : Z) : list Z := decimal 19 x.

(** ** misc/ipaddr.h *)

Module IPv4.

Record ifaddr := mkif { addr : Z; prefix : Z }.

(** The loop looking for the next dot. *)
Fixpoint dot_pos (name : list Z) : nat :=
  match name with
  | [] => 0
  | c :: name => if c =? ch "." then 0 else S (dot_pos name)
  end.

(** [out] are the bytes of [*out_addr]; the loop ends at [i] = 3. *)
Fixpoint parse_addr_loop (fuel i : nat) (name out : list Z) : option (list Z) :=
  let j := dot_pos name in
  if ((j =? List.length name) && (i <? 3) || (j <? List.length name) && (i =? 3))%nat then None else
  if ((j <? 1) || (3 <? j))%nat then None else
  d ← parse_unsigned_integer_bin (take j name);
  if 255 <? d then None else
  let out := <[i := d]> out in
  if (i =? 3)%nat then Some out else
  match fuel with
  | O => None
  | S fuel => parse_addr_loop fuel (S i) (drop (j + 1) name) out
  end.

Definition parse_addr_bin (name : list Z) : option Z :=
  le_value <$> parse_addr_loop 3 0 name [0; 0; 0; 0].

Definition parse_prefix_bin (s : list Z) : option Z :=
  d ← parse_unsigned_integer_bin s; if 32 <? d then None else Some d.

Definition parse_ifaddr_bin (s : list Z) : option ifaddr :=
  slash_pos ← b_find_char_bin s (ch "/") 0;
  a ← parse_addr_bin (take (Z.to_nat slash_pos) s);
  p ← parse_prefix_bin (drop (Z.to_nat slash_pos + 1) s);
  Some (mkif a p).

Fixpoint mask_loop (n : nat) (i t : Z) : Z :=
  match n with
  | O => t
  | S n => mask_loop n (i + 1) (Z.lor t (Z.shiftl 1 (32 - i - 1)))
  end.

Definition mask_from_prefix (prefix : Z) : result Z :=
  ASSERT (0 <=? prefix) ;;
  ASSERT (prefix <=? 32) ;;
  Ok (hton32 (mask_loop (Z.to_nat prefix) 0 0)).

(** [n] is the number of iterations left, 33 at the start. *)
Fixpoint prefix_loop (n : nat) (mask i t : Z) : Z :=
  match n with
  | O => i
  | S n => if ntoh32 mask =? t then i else
           prefix_loop n mask (i + 1) (if i <? 32 then Z.lor t (Z.shiftl 1 (32 - i - 1)) else t)
  end.

Definition prefix_from_mask (mask : Z) : option Z :=
  let i := prefix_loop 33 mask 0 0 in if negb (i <=? 32) then None else Some i.

Definition ifaddr_from_addr_mask (addr mask : Z) : option ifaddr :=
  p ← prefix_from_mask mask; Some (mkif addr p).

Definition addrs_in_network (addr1 addr2 netprefix : Z) : result bool :=
  ASSERT (0 <=? netprefix) ;;
  ASSERT (netprefix <=? 32) ;;
  mask ← mask_from_prefix netprefix;
  Ok (Z.land addr1 mask =? Z.land addr2 mask).

Definition print_addr (addr : Z) : list Z :=
  match le_bytes 4 addr with
  | [b0; b1; b2; b3] =>
      print_dec b0 ++ str "." ++ print_dec b1 ++ str "." ++ print_dec b2 ++ str "." ++ print_dec b3
  | _ => []
  end.

Definition print_ifaddr (a : ifaddr) : result (list Z) :=
  ASSERT (0 <=? prefix a) ;;
  ASSERT (prefix a <=? 32) ;;
  Ok (print_addr (addr a) ++ str "/" ++ print_dec (prefix a)).

End IPv4.

Module IPv4Facts.
Import IPv4 CStringFacts NumberFacts.

(** ** Text *)

Lemma print_dec_byte b :
  is_byte b → (1 ≤ List.length (print_dec b) ≤ 3)%nat ∧
    parse_unsigned_integer_bin (print_dec b) = Some b ∧
    (ch "." ∉ print_dec b) ∧ (ch "/" ∉ print_dec b).
Proof.
  intros Hb.
  assert (Hc : forall_upto 256 (λ b, let s := print_dec b in
    (1 <=? List.length s)%nat && (List.length s <=? 3)%nat
    && bool_decide (parse_unsigned_integer_bin s = Some b)
    && bool_decide (ch "." ∉ s) && bool_decide (ch "/" ∉ s)) = true) by (vm_compute; reflexivity).
  apply forall_upto_ok with (x := b) in Hc; [|exact Hb]. cbv zeta in Hc. zify_bool.
  split; [split; by apply Nat.leb_le|]. auto.
Qed.

Lemma dot_pos_app s rest :
  ch "." ∉ s → dot_pos (s ++ ch "." :: rest) = List.length s.
Proof.
  induction s as [|c s IH]; intros H; cbn [dot_pos app List.length].
  - by rewrite Z.eqb_refl.
  - apply not_elem_of_cons in H as [H1 H2]. rewrite (proj2 (Z.eqb_neq _ _)) by done. auto.
Qed.

Lemma dot_pos_end s : ch "." ∉ s → dot_pos s = List.length s.
Proof.
  induction s as [|c s IH]; intros H; cbn [dot_pos List.length]; [done|].
  apply not_elem_of_cons in H as [H1 H2]. rewrite (proj2 (Z.eqb_neq _ _)) by done. auto.
Qed.

(** One of the first three numbers. *)
Lemma parse_addr_loop_dot fuel (i : nat) b rest out :
  is_byte b → (i < 3)%nat →
  parse_addr_loop (S fuel) i (print_dec b ++ ch "." :: rest) out
  = parse_addr_loop fuel (S i) rest (<[i := b]> out).
Proof.
  intros Hb Hi. destruct (print_dec_byte b Hb) as ([Hl1 Hl2] & Hp & Hd & _).
  cbn [parse_addr_loop]. rewrite dot_pos_app by done. rewrite length_app. cbn [List.length].
  rewrite (proj2 (Nat.eqb_neq _ _)), (proj2 (Nat.eqb_neq i 3)) by lia.
  rewrite andb_false_r, andb_false_l. cbn [orb].
  rewrite (proj2 (Nat.ltb_ge _ 1)), (proj2 (Nat.ltb_ge 3 _)) by lia. cbn [orb].
  rewrite take_app_length, Hp. cbn [mbind option_bind].
  rewrite (proj2 (Z.ltb_ge _ _)) by (unfold is_byte in Hb; lia).
  by rewrite drop_app_add.
Qed.

Lemma parse_addr_loop_end fuel b out :
  is_byte b → parse_addr_loop fuel 3 (print_dec b) out = Some (<[3%nat := b]> out).
Proof.
  intros Hb. destruct (print_dec_byte b Hb) as ([Hl1 Hl2] & Hp & Hd & _).
  destruct fuel; cbn [parse_addr_loop]; rewrite dot_pos_end by done;
    change (3 <? 3)%nat with false; change (3 =? 3)%nat with true;
    rewrite Nat.ltb_irrefl, andb_false_r; cbn [andb orb];
    rewrite (proj2 (Nat.ltb_ge _ 1)), (proj2 (Nat.ltb_ge 3 _)) by lia; cbn [orb];
    rewrite take_ge, Hp by done; cbn [mbind option_bind];
    by rewrite (proj2 (Z.ltb_ge _ _)) by (unfold is_byte in Hb; lia).
Qed.

Lemma parse_print_addr a :
  0 ≤ a < 2 ^ 32 → parse_addr_bin (print_addr a) = Some a.
Proof.
  intros Ha. unfold print_addr, parse_addr_bin.
  pose proof (le_value_bytes 4 a ltac:(simpl; lia)) as Hv.
  pose proof (le_bytes_bytes 4 a) as Hb. pose proof (length_le_bytes 4 a) as Hl.
  destruct (le_bytes 4 a) as [|b0 [|b1 [|b2 [|b3 [|]]]]]; try done.
  rewrite !Forall_cons in Hb. destruct Hb as (H0 & H1 & H2 & H3 & _).
  change (str ".") with [ch "."]. rewrite !(app_assoc _ [ch "."]), <- !(app_assoc _ [ch "."]).
  cbn [app]. rewrite !parse_addr_loop_dot by (done || lia).
  rewrite parse_addr_loop_end by done. cbn [insert list_insert fmap option_fmap option_map].
  by f_equal.
Qed.
Lemma find_char_skip s rest c : c ∉ s → b_find_char_bin (s ++ c :: rest) c 0 = Some (Z.of_nat (List.length s)).
Proof.
  intros Hc. rewrite b_find_char_bin_app.
  pose proof (b_find_char_bin_ok s c 0) as H. destruct (b_find_char_bin s c 0) as [p|].
  - destruct H as (n & _ & Hn & _). by apply list_elem_of_lookup_2 in Hn.
  - simpl. by rewrite Z.eqb_refl.
Qed.

Lemma print_prefix p :
  0 ≤ p ≤ 32 → parse_prefix_bin (print_dec p) = Some p.
Proof.
  intros Hp. unfold parse_prefix_bin.
  destruct (print_dec_byte p) as (_ & -> & _); [split; lia|]. cbn [mbind option_bind].
  by rewrite (proj2 (Z.ltb_ge _ _)) by lia.
Qed.

Lemma print_addr_slash a : ch "/" ∉ print_addr a.
Proof.
  unfold print_addr. pose proof (le_bytes_bytes 4 a) as Hb.
  destruct (le_bytes 4 a) as [|b0 [|b1 [|b2 [|b3 [|]]]]]; try apply not_elem_of_nil.
  rewrite !Forall_cons in Hb. destruct Hb as (H0 & H1 & H2 & H3 & _).
  rewrite !not_elem_of_app. repeat split; try by apply print_dec_byte.
  all: by apply not_elem_of_cons; split; [|apply not_elem_of_nil].
Qed.

(** The text printed for an IPv4 address, or interface address with its prefix, parses back
    to it. *)
Theorem ipv4_roundtrip a p :
  0 ≤ a < 2 ^ 32 → 0 ≤ p ≤ 32 →
  parse_addr_bin (print_addr a) = Some a ∧
  ∃ s, print_ifaddr (mkif a p) = Ok s ∧ parse_ifaddr_bin s = Some (mkif a p).
Proof.
  intros Ha Hp. split; [by apply parse_print_addr|].
  unfold print_ifaddr, parse_ifaddr_bin. simpl. do 2 run_assert. eexists. split; [done|].
  change (str "/") with [ch "/"]. cbn [app]. rewrite find_char_skip by apply print_addr_slash.
  cbn [mbind option_bind]. rewrite Nat2Z.id, take_app_length, parse_print_addr by done.
  cbn [mbind option_bind].
  replace (Z.to_nat (Z.of_nat (List.length (print_addr a)) + 1)) with (List.length (print_addr a) + 1)%nat by lia.
  rewrite drop_app_add. cbn [drop]. by rewrite drop_0, print_prefix.
Qed.

Lemma ipv4_roundtrip_witness :
  parse_addr_bin (str "10.0.0.1") = Some 16777226 ∧
  parse_ifaddr_bin (str "10.0.0.1/24") = Some (mkif 16777226 24).
Proof.
  destruct (ipv4_roundtrip 16777226 24) as (H1 & s & H2 & H3); [lia | lia |].
  split; [exact H1|]. vm_compute in H2. injection H2 as <-. exact H3.
Defined.

(** ** Masks *)

Lemma hton32_involutive x : 0 ≤ x < 2 ^ 32 → hton32 (hton32 x) = x.
Proof.
  intros Hx. unfold hton32, to_u32. rewrite (Z.mod_small x) by done.
  unfold badvpn_reverse32.
  assert (Hb : Forall is_byte (reverse (le_bytes 4 x))) by apply Forall_reverse, le_bytes_bytes.
  assert (Hl : List.length (reverse (le_bytes 4 x)) = 4%nat) by (by rewrite length_reverse, length_le_bytes).
  rewrite Z.mod_small.
  - pose proof (le_bytes_value _ Hb) as H. rewrite Hl in H. rewrite H, reverse_involutive.
    apply le_value_bytes. simpl. lia.
  - pose proof (le_value_bound _ Hb) as H. rewrite Hl in H. change (256 ^ Z.of_nat 4) with (2 ^ 32) in H. lia.
Qed.

Lemma hton32_bound x : 0 ≤ hton32 x < 2 ^ 32.
Proof.
  unfold hton32, badvpn_reverse32.
  assert (Hb : Forall is_byte (reverse (le_bytes 4 (to_u32 x)))) by apply Forall_reverse, le_bytes_bytes.
  pose proof (le_value_bound _ Hb) as H. rewrite length_reverse, length_le_bytes in H.
  change (256 ^ Z.of_nat 4) with (2 ^ 32) in H. lia.
Qed.

(** Bitwise operations go byte by byte, in any byte order. *)
Lemma le_bytes_land n : ∀ x y, le_bytes n (Z.land x y) = zip_with Z.land (le_bytes n x) (le_bytes n y).
Proof.
  induction n as [|n IH]; intros x y; [done|]. cbn [le_bytes zip_with].
  change 256 with (2 ^ 8). rewrite <- !Z.land_ones by lia. rewrite <- !Z.shiftr_div_pow2 by lia.
  rewrite Z.shiftr_land, IH. f_equal.
  rewrite <- (Z.land_diag (Z.ones 8)) at 1. rewrite !Z.land_assoc. f_equal.
  rewrite <- !Z.land_assoc. f_equal. apply Z.land_comm.
Qed.

Lemma reverse_zip_land (u v : list Z) :
  List.length u = List.length v → reverse (zip_with Z.land u v) = zip_with Z.land (reverse u) (reverse v).
Proof.
  revert v. induction u as [|x u IH]; intros [|y v] Hl; try done. simpl in Hl.
  cbn [zip_with]. rewrite !reverse_cons, IH by lia.
  rewrite zip_with_app by (rewrite !length_reverse; lia). done.
Qed.

Lemma hton32_land x y : hton32 (Z.land x y) = Z.land (hton32 x) (hton32 y).
Proof.
  pose proof (hton32_bound x). pose proof (hton32_bound y).
  assert (Hl : 0 ≤ Z.land (hton32 x) (hton32 y) < 2 ^ 32).
  { split; [apply Z.land_nonneg; lia|].
    destruct (decide (Z.land (hton32 x) (hton32 y) = 0)) as [->|]; [lia|].
    apply Z.log2_lt_pow2; [pose proof (proj2 (Z.land_nonneg (hton32 x) (hton32 y))); lia|].
    eapply Z.le_lt_trans; [apply Z.log2_land; lia|].
    destruct (decide (hton32 x = 0)) as [->|]; [simpl; lia|].
    eapply Z.le_lt_trans; [apply Z.le_min_l|]. apply Z.log2_lt_pow2; lia. }
  rewrite <- (le_value_bytes 4 (Z.land (hton32 x) (hton32 y))) by (simpl; lia).
  rewrite le_bytes_land. unfold hton32 at 1, badvpn_reverse32.
  assert (Hu : to_u32 (Z.land x y) = Z.land (to_u32 x) (to_u32 y)).
  { unfold to_u32. rewrite <- !Z.land_ones by lia.
    rewrite <- (Z.land_diag (Z.ones 32)) at 1. rewrite !Z.land_assoc. f_equal.
    rewrite <- !Z.land_assoc. f_equal. apply Z.land_comm. }
  rewrite Hu, le_bytes_land, reverse_zip_land by (by rewrite !length_le_bytes). f_equal.
  assert (Hrev : ∀ z, le_bytes 4 (hton32 z) = reverse (le_bytes 4 (to_u32 z))).
  { intros z. unfold hton32, badvpn_reverse32.
    assert (Hb : Forall is_byte (reverse (le_bytes 4 (to_u32 z)))) by apply Forall_reverse, le_bytes_bytes.
    apply le_bytes_value in Hb as Hb'. by rewrite length_reverse, length_le_bytes in Hb'. }
  by rewrite !Hrev.
Qed.

Lemma mask_loop_snoc n : ∀ i t,
  mask_loop (S n) i t = Z.lor (mask_loop n i t) (Z.shiftl 1 (32 - (i + Z.of_nat n) - 1)).
Proof.
  induction n as [|n IH]; intros i t.
  - cbn [mask_loop]. by rewrite Z.add_0_r.
  - change (mask_loop (S (S n)) i t) with (mask_loop (S n) (i + 1) (Z.lor t (Z.shiftl 1 (32 - i - 1)))).
    rewrite IH. cbn [mask_loop]. do 2 f_equal. lia.
Qed.

(** The loop stops at the prefix whose mask it is. *)
Lemma prefix_loop_sound m n : ∀ (k : nat) i t,
  (k + n = 33)%nat → i = Z.of_nat k → t = mask_loop k 0 0 → prefix_loop n m i t ≤ 32 →
  ∃ j : nat, (j ≤ 32)%nat ∧ prefix_loop n m i t = Z.of_nat j ∧ ntoh32 m = mask_loop j 0 0.
Proof.
  induction n as [|n IH]; intros k i t Hk Hi Ht Hle; cbn [prefix_loop] in *; [lia|].
  destruct (Z.eqb_spec (ntoh32 m) t) as [He|He].
  { exists k. split; [lia|]. by subst. }
  destruct (Z.ltb_spec i 32).
  - apply (IH (S k)); [lia | lia | | done]. by rewrite mask_loop_snoc, Z.add_0_l, <- Ht, <- Hi.
  - assert (n = 0%nat) as -> by lia. cbn [prefix_loop] in Hle. lia.
Qed.

Lemma mask_value p : 0 ≤ p ≤ 32 → mask_loop (Z.to_nat p) 0 0 = 2 ^ 32 - 2 ^ (32 - p).
Proof.
  intros Hp.
  assert (Hc : forall_upto 33 (λ p, mask_loop (Z.to_nat p) 0 0 =? 2 ^ 32 - 2 ^ (32 - p)) = true)
    by (vm_compute; reflexivity).
  apply Z.eqb_eq. by apply (forall_upto_ok _ _ p Hc); lia.
Qed.

(** The high bits of a number, by a mask. *)
Lemma land_high x k n :
  0 ≤ k ≤ n → 0 ≤ x < 2 ^ n → Z.land x (2 ^ n - 2 ^ k) = x / 2 ^ k * 2 ^ k.
Proof.
  intros Hk Hx.
  assert (2 ^ n - 2 ^ k = Z.shiftl (Z.ones (n - k)) k) as ->.
  { rewrite Z.shiftl_mul_pow2, Z.ones_equiv, Z.mul_pred_l, <- Z.pow_add_r by lia.
    f_equal. f_equal. lia. }
  rewrite <- Z.shiftr_div_pow2, <- Z.shiftl_mul_pow2 by lia.
  assert (Z.shiftr x k < 2 ^ (n - k)).
  { rewrite Z.shiftr_div_pow2 by lia. apply Z.div_lt_upper_bound; [lia|].
    rewrite <- Z.pow_add_r by lia. replace (k + (n - k)) with n by lia. lia. }
  apply Z.bits_inj'. intros i Hi. rewrite Z.land_spec.
  destruct (decide (i < k)).
  - by rewrite !Z.shiftl_spec_low, andb_false_r by lia.
  - rewrite !Z.shiftl_spec by lia. rewrite Z.shiftr_spec by lia.
    replace (i - k + k) with i by lia. destruct (decide (i - k < n - k)).
    + by rewrite Z.ones_spec_low, andb_true_r by lia.
    + rewrite Z.ones_spec_high, andb_false_r by lia. symmetry.
      destruct (decide (x = 0)) as [->|]; [apply Z.bits_0|].
      apply Z.bits_above_log2; [lia|].
      eapply Z.lt_le_trans; [apply (Z.log2_lt_pow2 x n); lia | lia].
Qed.

Lemma ntoh32_inj a b : 0 ≤ a < 2 ^ 32 → 0 ≤ b < 2 ^ 32 → hton32 a = hton32 b ↔ a = b.
Proof.
  intros Ha Hb. split; [|by intros ->]. intros H.
  by rewrite <- (hton32_involutive a), <- (hton32_involutive b), H.
Qed.

Lemma mask_from_prefix_ok p :
  0 ≤ p ≤ 32 → mask_from_prefix p = Ok (hton32 (mask_loop (Z.to_nat p) 0 0)).
Proof. intros Hp. unfold mask_from_prefix. by do 2 run_assert. Qed.

Lemma prefix_of_mask p :
  0 ≤ p ≤ 32 → prefix_from_mask (hton32 (mask_loop (Z.to_nat p) 0 0)) = Some p.
Proof.
  intros Hp.
  assert (Hc : forall_upto 33 (λ p,
    bool_decide (prefix_from_mask (hton32 (mask_loop (Z.to_nat p) 0 0)) = Some p)) = true)
    by (vm_compute; reflexivity).
  eapply bool_decide_eq_true_1, (forall_upto_ok _ _ p Hc). lia.
Qed.

#[local] Opaque prefix_loop.

Lemma mask_of_prefix m q :
  0 ≤ m < 2 ^ 32 → prefix_from_mask m = Some q → mask_from_prefix q = Ok m.
Proof.
  intros Hm Hq. unfold prefix_from_mask in Hq.
  pose proof (prefix_loop_sound m 33 0 0 0 eq_refl eq_refl eq_refl) as Hs.
  remember (prefix_loop 33 m 0 0) as r eqn:Hr0. clear Hr0.
  destruct (Z.leb_spec r 32) as [Hle|]; cbn [negb] in Hq; [|discriminate].
  injection Hq as <-. destruct (Hs Hle) as (j & Hj & -> & Ht).
  rewrite mask_from_prefix_ok by lia. rewrite Nat2Z.id, <- Ht. f_equal. by apply hton32_involutive.
Qed.

Lemma in_network p a b :
  0 ≤ p ≤ 32 → 0 ≤ a < 2 ^ 32 → 0 ≤ b < 2 ^ 32 →
  addrs_in_network a b p = Ok (ntoh32 a / 2 ^ (32 - p) =? ntoh32 b / 2 ^ (32 - p)).
Proof.
  intros Hp Ha Hb. unfold addrs_in_network. do 2 run_assert.
  rewrite mask_from_prefix_ok by done. rewrite ok_bind. f_equal.
  assert (Hland : ∀ x, 0 ≤ x < 2 ^ 32 → Z.land x (hton32 (mask_loop (Z.to_nat p) 0 0)) =
    hton32 (ntoh32 x / 2 ^ (32 - p) * 2 ^ (32 - p))).
  { intros x Hx. rewrite <- (hton32_involutive x) at 1 by done. rewrite <- hton32_land. f_equal.
    rewrite mask_value by done. apply land_high; [lia | apply hton32_bound]. }
  rewrite !Hland by done.
  pose proof (Z.pow_pos_nonneg 2 (32 - p) ltac:(lia) ltac:(lia)) as Hpow.
  assert (Hrange : ∀ x, 0 ≤ ntoh32 x / 2 ^ (32 - p) * 2 ^ (32 - p) < 2 ^ 32).
  { intros x. pose proof (hton32_bound x) as Hb'. fold (ntoh32 x) in Hb'.
    pose proof (Z.mul_div_le (ntoh32 x) (2 ^ (32 - p)) Hpow).
    pose proof (Z.div_pos (ntoh32 x) (2 ^ (32 - p)) ltac:(lia) Hpow). nia. }
  apply eq_true_iff_eq. rewrite !Z.eqb_eq, ntoh32_inj by apply Hrange.
  by rewrite Z.mul_cancel_r by lia.
Qed.

(** For IPv4: the mask of a prefix length gives that length back, a length found for a mask
    has that mask, and two addresses are found to be in one network exactly when their first
    bits agree. *)
Theorem ipv4_masks p m a b :
  0 ≤ p ≤ 32 → 0 ≤ m < 2 ^ 32 → 0 ≤ a < 2 ^ 32 → 0 ≤ b < 2 ^ 32 →
  (∃ mask, mask_from_prefix p = Ok mask ∧ prefix_from_mask mask = Some p) ∧
  (∀ q, prefix_from_mask m = Some q → mask_from_prefix q = Ok m) ∧
  addrs_in_network a b p = Ok (ntoh32 a / 2 ^ (32 - p) =? ntoh32 b / 2 ^ (32 - p)).
Proof.
  intros Hp Hm Ha Hb. split; [|split].
  - eexists. split; [by apply mask_from_prefix_ok | by apply prefix_of_mask].
  - intros q. by apply mask_of_prefix.
  - by apply in_network.
Qed.

Lemma ipv4_masks_witness :
  prefix_from_mask (hton32 (2 ^ 32 - 256)) = Some 24 ∧
  addrs_in_network 16777226 33554442 24 = Ok true ∧ addrs_in_network 16777226 33554442 31 = Ok false.
Proof.
  destruct (ipv4_masks 24 0 16777226 33554442) as ((mask & H1 & H2) & _ & H3); [lia..|].
  destruct (ipv4_masks 31 0 16777226 33554442) as (_ & _ & H4); [lia..|].
  split; [|split].
  - vm_compute in H1. injection H1 as <-. exact H2.
  - rewrite H3. by vm_compute.
  - rewrite H4. by vm_compute.
Defined.

End IPv4Facts.
