(* ===== verification/IpAddr6.v ===== *)
(** * IPv6 addresses: misc/ipaddr6.h

    The parser and the printer of addresses, with the longest run of zero blocks compressed and
    the last four bytes in the notation of IPv4 if so written, and the conversions between prefix lengths and
    masks.  An address is its 16 bytes.  The parser writes to the bytes of its result
    as it goes; every access to an array is checked, and outside of it is a fault.

    The parser never fails, what is printed parses back, and masks and prefixes determine each
    other. *)

From Stdlib Require Import Ascii String.
From S2P Require Import Prelude CMem Strings Numbers IpAddr.
Import NumberSpec.

Definition UINT8_MAX : Z := 255.

(** The conversion [%x] of [sprintf]. *)
Definition hex_char (d : Z) : Z := if d <? 10 then ch "0" + d else ch "a" + (d - 10).

Fixpoint hex (fuel : nat) (x : Z) : list Z :=
  match fuel with
  | O => [hex_char (x mod 16)]
  | S fuel => (if 0 <? x / 16 then hex fuel (x / 16) else []) ++ [hex_char (x mod 16)]
  end.

Definition print_hex16 (x : Z) : list Z := hex 3 x.

(** ** misc/ipaddr6.h *)

Module IPv6.

Record ifaddr := mkif { addr : list Z; prefix : Z }.

(** Access to an array; outside of it is a fault. *)
Definition set_byte (a : list Z) (i v : Z) : result (list Z) :=
  if (0 <=? i) && (i <? Z.of_nat (List.length a)) then Ok (<[Z.to_nat i := v]> a) else Fault BadAccess.

Definition get_byte (a : list Z) (i : Z) : result Z :=
  if 0 <=? i then or_fault BadAccess (a !! Z.to_nat i) else Fault BadAccess.

(** [memmove] and [memset] within an array. *)
Definition move_bytes (a : list Z) (dst src n : Z) : result (list Z) :=
  if (0 <=? dst) && (0 <=? src) && (0 <=? n)
     && (dst + n <=? Z.of_nat (List.length a)) && (src + n <=? Z.of_nat (List.length a)) then
    Ok (take (Z.to_nat dst) a ++ take (Z.to_nat n) (drop (Z.to_nat src) a)
        ++ drop (Z.to_nat (dst + n)) a)
  else Fault BadAccess.

Definition set_bytes (a : list Z) (dst v n : Z) : result (list Z) :=
  if (0 <=? dst) && (0 <=? n) && (dst + n <=? Z.of_nat (List.length a)) then
    Ok (take (Z.to_nat dst) a ++ replicate (Z.to_nat n) v ++ drop (Z.to_nat (dst + n)) a)
  else Fault BadAccess.

(** The variables of [ipaddr6_parse_ipv6_addr_bin]; [out] is [out_addr->bytes]. *)
Record parser := mk {
  num_blocks : Z;
  compress_pos : Z;
  block : Z;
  empty : bool;
  out : list Z;
}.

(** [out_addr->bytes[2 * num_blocks + 0] = block >> 8; ...; num_blocks++]. *)
Definition put_block (s : parser) : result parser :=
  o ← set_byte (out s) (2 * num_blocks s) (Z.shiftr (block s) 8);
  o ← set_byte o (2 * num_blocks s + 1) (Z.land (block s) 255);
  Ok (mk (num_blocks s + 1) (compress_pos s) (block s) (empty s) o).

(** How an iteration of the first loop ends. *)
Inductive next :=
| Continue (i : nat) (s : parser)
| Return0
| Goto_ipv4_ending.

Definition step (name : list Z) (i : nat) (s : parser) : result next :=
  c ← or_fault BadAccess (name !! i);
  if c =? ch "." then Ok Goto_ipv4_ending else
  if c =? ch ":" then
    let is_double := bool_decide (name !! (i + 1)%nat = Some (ch ":")) in
    r ← (if (0 <? i)%nat then
           if empty s || (num_blocks s =? 7) then Ok None else
           s ← put_block s;
           Ok (Some (mk (num_blocks s) (compress_pos s) 0 true (out s)))
         else if negb is_double then Ok None else Ok (Some s));
    match r with
    | None => Ok Return0
    | Some s =>
        if is_double then
          if negb (compress_pos s =? -1) then Ok Return0
          else Ok (Continue (i + 2) (mk (num_blocks s) (num_blocks s) (block s) (empty s) (out s)))
        else Ok (Continue (i + 1) s)
    end
  else
    let digit := decode_hex_digit c in
    if digit <? 0 then Ok Return0 else
    if UINT16_MAX / 16 <? block s then Ok Return0 else
    let b := to_u16 (block s * 16) in
    if UINT16_MAX - b <? digit then Ok Return0 else
    Ok (Continue (i + 1) (mk (num_blocks s) (compress_pos s) (to_u16 (b + digit)) false (out s))).

Inductive outcome := Ended (s : parser) | Failed | Ipv4 (i : nat) (s : parser).

(** Every iteration advances [i]: [length name] of them are enough. *)
Fixpoint loop (fuel : nat) (name : list Z) (i : nat) (s : parser) : result outcome :=
  if (i <? List.length name)%nat then
    match fuel with
    | O => Fault AssertFailed
    | S fuel =>
        n ← step name i s;
        match n with
        | Continue i s => loop fuel name i s
        | Return0 => Ok Failed
        | Goto_ipv4_ending => Ok (Ipv4 i s)
        end
    end
  else Ok (Ended s).

(** From the label [ipv4_done] on; [Ok None] is the return value 0. *)
Definition ipv4_done (s : parser) : result (option (list Z)) :=
  r ← (if compress_pos s =? -1 then
         if negb (num_blocks s =? 8) then Ok None else Ok (Some 0)
       else Ok (Some (compress_pos s)));
  match r with
  | None => Ok None
  | Some compress_pos =>
      let num_rear := num_blocks s - compress_pos in
      o ← move_bytes (out s) (2 * (8 - num_rear)) (2 * compress_pos) (2 * num_rear);
      o ← set_bytes o (2 * compress_pos) 0 (2 * (8 - num_rear - compress_pos));
      Ok (Some o)
  end.

(** [while (name[i - 1] != ':') i--]. *)
Fixpoint back_to_colon (name : list Z) (i : nat) : result nat :=
  match i with
  | O => Fault BadAccess
  | S i' => c ← or_fault BadAccess (name !! i');
            if negb (c =? ch ":") then back_to_colon name i' else Ok i
  end.

(** The loop over the bytes of the IPv4 address: [cur_byte], [byte], [empty] and [bytes]. *)
Fixpoint ipv4_loop (s : list Z) (cur_byte byte : Z) (empty : bool) (bytes : list Z)
    : result (option (Z * Z * bool * list Z)) :=
  match s with
  | [] => Ok (Some (cur_byte, byte, empty, bytes))
  | c :: s =>
      if c =? ch "." then
        if empty || (cur_byte =? 3) then Ok None else
        bytes ← set_byte bytes cur_byte byte;
        ipv4_loop s (cur_byte + 1) 0 true bytes
      else
        if negb empty && (byte =? 0) then Ok None else
        let digit := decode_decimal_digit c in
        if digit <? 0 then Ok None else
        if UINT8_MAX / 10 <? byte then Ok None else
        let byte := to_u8 (byte * 10) in
        if UINT8_MAX - byte <? digit then Ok None else
        ipv4_loop s cur_byte (to_u8 (byte + digit)) false bytes
  end.

Definition ipv4_ending (name : list Z) (i : nat) (s : parser) : result (option (list Z)) :=
  if empty s || ((num_blocks s =? 0) && (compress_pos s =? -1)) then Ok None else
  i ← back_to_colon name i;
  r ← ipv4_loop (drop i name) 0 0 true [0; 0; 0; 0];
  match r with
  | None => Ok None
  | Some (cur_byte, byte, empty, bytes) =>
      if negb (cur_byte =? 3) || empty then Ok None else
      bytes ← set_byte bytes cur_byte byte;
      if 8 - num_blocks s <? 2 then Ok None else
      let off := 2 * num_blocks s in
      if (0 <=? off) && (off + 4 <=? Z.of_nat (List.length (out s))) then
        ipv4_done (mk (num_blocks s + 2) (compress_pos s) (block s) empty
                     (take (Z.to_nat off) (out s) ++ bytes ++ drop (Z.to_nat (off + 4)) (out s)))
      else Fault BadAccess
  end.

(** [out0] is what the 16 bytes of [*out_addr] hold before. *)
Definition parse_addr_bin (name out0 : list Z) : result (option (list Z)) :=
  r ← loop (List.length name) name 0 (mk 0 (-1) 0 true out0);
  match r with
  | Failed => Ok None
  | Ipv4 i s => ipv4_ending name i s
  | Ended s =>
      if negb (empty s) then s ← put_block s; ipv4_done s
      else if negb (num_blocks s =? compress_pos s) then Ok None
      else ipv4_done s
  end.

Definition parse_prefix_bin (s : list Z) : option Z :=
  d ← parse_unsigned_integer_bin s; if 128 <? d then None else Some d.

Definition parse_ifaddr_bin (s out0 : list Z) : result (option ifaddr) :=
  match b_find_char_bin s (ch "/") 0 with
  | None => Ok None
  | Some slash_pos =>
      a ← parse_addr_bin (take (Z.to_nat slash_pos) s) out0;
      match a with
      | None => Ok None
      | Some a => Ok (p ← parse_prefix_bin (drop (Z.to_nat slash_pos + 1) s); Some (mkif a p))
      end
  end.

Fixpoint mask_bits (n : nat) (i t : Z) : Z :=
  match n with
  | O => t
  | S n => mask_bits n (i + 1) (Z.lor t (Z.shiftl 1 (8 - i - 1)))
  end.

(** [mask0] is what [out_mask->bytes] holds before. *)
Definition mask_from_prefix (prefix : Z) (mask0 : list Z) : result (list Z) :=
  ASSERT (0 <=? prefix) ;;
  ASSERT (prefix <=? 128) ;;
  let quot := prefix / 8 in
  let rem := prefix mod 8 in
  m ← (if 0 <? quot then set_bytes mask0 0 UINT8_MAX quot else Ok mask0);
  m ← (if 0 <? 16 - quot then set_bytes m quot 0 (16 - quot) else Ok m);
  if 0 <? rem then
    b ← get_byte m quot; set_byte m quot (mask_bits (Z.to_nat rem) 0 b)
  else Ok m.

(** The loop over the bytes that are all ones. *)
Fixpoint full_bytes (mask : list Z) : nat :=
  match mask with
  | [] => 0
  | b :: mask => if b =? UINT8_MAX then S (full_bytes mask) else 0
  end.

(** [n] is the number of iterations left, 9 at the start. *)
Fixpoint bits_loop (n : nat) (b j t : Z) : Z :=
  match n with
  | O => j
  | S n => if b =? t then j else
           bits_loop n b (j + 1) (if j <? 8 then Z.lor t (Z.shiftl 1 (8 - j - 1)) else t)
  end.

Definition prefix_from_mask (mask : list Z) : option Z :=
  let i := full_bytes mask in
  match drop i mask with
  | [] => Some (8 * Z.of_nat i)
  | b :: rest =>
      let j := bits_loop 9 b 0 0 in
      if negb (j <=? 8) then None else
      if forallb (λ b, b =? 0) rest then Some (8 * Z.of_nat i + j) else None
  end.

Definition ifaddr_from_addr_mask (addr mask : list Z) : option ifaddr :=
  p ← prefix_from_mask mask; Some (mkif addr p).

Definition addrs_in_network (addr1 addr2 : list Z) (netprefix : Z) : result bool :=
  ASSERT (0 <=? netprefix) ;;
  ASSERT (netprefix <=? 128) ;;
  let quot := netprefix / 8 in
  let rem := netprefix mod 8 in
  if negb (memcmp (take (Z.to_nat quot) addr1) (take (Z.to_nat quot) addr2) =? 0) then Ok false else
  if rem =? 0 then Ok true else
  let t := mask_bits (Z.to_nat rem) 0 0 in
  b1 ← get_byte addr1 quot;
  b2 ← get_byte addr2 quot;
  Ok (Z.land b1 t =? Z.land b2 t).

(** [((uint16_t)addr.bytes[2 * i] << 8) | addr.bytes[2 * i + 1]] *)
Definition block_at (a : list Z) (i : Z) : result Z :=
  hi ← get_byte a (2 * i);
  lo ← get_byte a (2 * i + 1);
  Ok (Z.lor (to_u16 (Z.shiftl hi 8)) lo).

(** The longest run of zero blocks, from block [i] on. *)
Record run := mkrun { largest_start : Z; largest_len : Z; current_start : Z; current_len : Z }.

Fixpoint run_loop (n : nat) (a : list Z) (i : Z) (r : run) : result run :=
  match n with
  | O => Ok r
  | S n =>
      b0 ← get_byte a (2 * i);
      b1 ← get_byte a (2 * i + 1);
      let r :=
        if (b0 =? 0) && (b1 =? 0) then
          let len := current_len r + 1 in
          if largest_len r <? len
          then mkrun (current_start r) len (current_start r) len
          else mkrun (largest_start r) (largest_len r) (current_start r) len
        else mkrun (largest_start r) (largest_len r) (i + 1) 0 in
      run_loop n a (i + 1) r
  end.

(** [n] blocks from [i] on, each between [before] and [after]. *)
Fixpoint print_blocks (n : nat) (a : list Z) (i : Z) (before after : list Z) : result (list Z) :=
  match n with
  | O => Ok []
  | S n =>
      b ← block_at a i;
      rest ← print_blocks n a (i + 1) before after;
      Ok (before ++ print_hex16 b ++ after ++ rest)
  end.

(** The loop of the other branch: the separator is empty only for the first block. *)
Fixpoint print_joined (n : nat) (a : list Z) (i : Z) (prefix : list Z) : result (list Z) :=
  match n with
  | O => Ok []
  | S n =>
      b ← block_at a i;
      rest ← print_joined n a (i + 1) (str ":");
      Ok (prefix ++ print_hex16 b ++ rest)
  end.

Definition print_addr (a : list Z) : result (list Z) :=
  r ← run_loop 8 a 0 (mkrun 0 0 0 0);
  if 1 <? largest_len r then
    s1 ← print_blocks (Z.to_nat (largest_start r)) a 0 [] (str ":");
    let s2 := if largest_start r =? 0 then str ":" else [] in
    let i := largest_start r + largest_len r in
    s3 ← print_blocks (Z.to_nat (8 - i)) a i (str ":") [];
    let s4 := if i =? 8 then str ":" else [] in
    Ok (s1 ++ s2 ++ s3 ++ s4)
  else print_joined 8 a 0 [].

Definition print_ifaddr (a : ifaddr) : result (list Z) :=
  ASSERT (0 <=? prefix a) ;;
  ASSERT (prefix a <=? 128) ;;
  s ← print_addr (addr a);
  Ok (s ++ str "/" ++ print_dec (prefix a)).

End IPv6.

Example parse6_mixed :
  IPv6.parse_addr_bin (str "::ffff:10.0.0.1") (replicate 16 7)
  = Ok (Some [0; 0; 0; 0; 0; 0; 0; 0; 0; 0; 255; 255; 10; 0; 0; 1]).
Proof. reflexivity. Qed.

Example print6_example :
  IPv6.print_addr [32; 1; 0; 0; 0; 0; 0; 0; 1; 0; 0; 0; 0; 0; 0; 1] = Ok (str "2001::100:0:0:1").
Proof. reflexivity. Qed.

Module IPv6Facts.
Import IPv6 NumberFacts CStringFacts.

(** ** Arrays *)

Lemma set_byte_ok a i v :
  0 ≤ i < Z.of_nat (List.length a) → set_byte a i v = Ok (<[Z.to_nat i := v]> a).
Proof. intros H. unfold set_byte. by rewrite (proj2 (Z.leb_le _ _)), (proj2 (Z.ltb_lt _ _)) by lia. Qed.

Lemma set_byte_app (a : list Z) i x v b :
  i = Z.of_nat (List.length a) → set_byte (a ++ x :: b) i v = Ok (a ++ v :: b).
Proof.
  intros ->. rewrite set_byte_ok by (rewrite length_app; simpl; lia). rewrite Nat2Z.id.
  by rewrite <- (Nat.add_0_r (List.length a)), insert_app_r.
Qed.

Lemma get_byte_ok a (i : nat) v : a !! i = Some v → get_byte a (Z.of_nat i) = Ok v.
Proof. intros H. unfold get_byte. by rewrite (proj2 (Z.leb_le _ _)), Nat2Z.id, H by lia. Qed.

Lemma set_bytes_ok a dst v n :
  0 ≤ dst → 0 ≤ n → dst + n ≤ Z.of_nat (List.length a) →
  set_bytes a dst v n = Ok (take (Z.to_nat dst) a ++ replicate (Z.to_nat n) v ++ drop (Z.to_nat (dst + n)) a).
Proof. intros. unfold set_bytes. by rewrite !(proj2 (Z.leb_le _ _)) by lia. Qed.

Lemma move_bytes_ok a dst src n :
  0 ≤ dst → 0 ≤ src → 0 ≤ n → dst + n ≤ Z.of_nat (List.length a) → src + n ≤ Z.of_nat (List.length a) →
  move_bytes a dst src n = Ok (take (Z.to_nat dst) a ++ take (Z.to_nat n) (drop (Z.to_nat src) a)
                               ++ drop (Z.to_nat (dst + n)) a).
Proof. intros. unfold move_bytes. by rewrite !(proj2 (Z.leb_le _ _)) by lia. Qed.

Lemma block_bytes b : 0 ≤ b ≤ UINT16_MAX → is_byte (Z.shiftr b 8) ∧ is_byte (Z.land b 255).
Proof.
  unfold UINT16_MAX, is_byte. intros Hb. change 255 with (Z.ones 8). rewrite Z.land_ones by lia.
  rewrite Z.shiftr_div_pow2 by lia. split; [|apply Z.mod_pos_bound; lia].
  split; [apply Z.div_pos; lia | apply Z.div_lt_upper_bound; lia].
Qed.

(** ** The parser does not fail *)

(** [colons]: the parser has passed a colon. *)
Record safe (name : list Z) (i : nat) (s : parser) : Prop := {
  safe_blocks : 0 ≤ num_blocks s ≤ 7;
  safe_compress : -1 ≤ compress_pos s ≤ num_blocks s;
  safe_block : 0 ≤ block s ≤ UINT16_MAX;
  safe_out : List.length (out s) = 16%nat ∧ Forall is_byte (out s);
  safe_colons : 0 < num_blocks s ∨ compress_pos s ≠ -1 → ch ":" ∈ take i name;
}.

Lemma put_block_ok s :
  0 ≤ num_blocks s ≤ 7 → 0 ≤ block s ≤ UINT16_MAX → List.length (out s) = 16%nat → Forall is_byte (out s) →
  ∃ o, put_block s = Ok (mk (num_blocks s + 1) (compress_pos s) (block s) (empty s) o) ∧
    List.length o = 16%nat ∧ Forall is_byte o.
Proof.
  intros Hn Hb Hl Hf. pose proof (block_bytes _ Hb) as [H1 H2]. unfold put_block.
  rewrite set_byte_ok, ok_bind by lia. rewrite set_byte_ok, ok_bind by (rewrite length_insert; lia).
  eexists. split; [done|]. rewrite !length_insert. split; [done|].
  apply Forall_insert; [by apply Forall_insert | done].
Qed.

Lemma take_colon name i j :
  (i ≤ j)%nat → ch ":" ∈ take i name → ch ":" ∈ take j name.
Proof.
  intros Hij H. rewrite <- (take_drop i (take j name)), take_take, Nat.min_l by lia.
  apply elem_of_app. by left.
Qed.

Lemma take_all_colon name i : ch ":" ∈ take i name → ch ":" ∈ take (List.length name) name.
Proof.
  intros H. rewrite firstn_all, <- (take_drop i name). apply elem_of_app. by left.
Qed.

Lemma step_safe name i s :
  (i < List.length name)%nat → safe name i s →
  ∃ n, step name i s = Ok n ∧
    match n with Continue j s' => (i < j)%nat ∧ safe name j s' | _ => True end.
Proof.
  intros Hi [Hn Hc Hb [Hl Hf] Hcol]. unfold step.
  destruct (lookup_lt_is_Some_2 name i Hi) as [c Hic]. rewrite Hic. cbn [or_fault]. rewrite ok_bind.
  case_if; [by eexists|].
  destruct (Z.eqb_spec c (ch ":")) as [->|Hne].
  - set (is_double := bool_decide _).
    assert (Hcolon : ∀ j, (i < j)%nat → ch ":" ∈ take j name).
    { intros j Hj. apply (take_colon name (S i)); [lia|]. rewrite (take_S_r _ _ _ Hic).
      apply elem_of_app. right. by left. }
    assert (Hgo : ∀ s', 0 ≤ num_blocks s' ≤ 7 → -1 ≤ compress_pos s' ≤ num_blocks s' →
      0 ≤ block s' ≤ UINT16_MAX → List.length (out s') = 16%nat ∧ Forall is_byte (out s') →
      ∃ n, (if is_double then
              if negb (compress_pos s' =? -1) then Ok Return0
              else Ok (Continue (i + 2) (mk (num_blocks s') (num_blocks s') (block s') (empty s') (out s')))
            else Ok (Continue (i + 1) s')) = Ok n ∧
        match n with Continue j s' => (i < j)%nat ∧ safe name j s' | _ => True end).
    { intros s' H1 H2 H3 H4. destruct is_double; [case_if; [by eexists|]|]; eexists; (split; [done|]).
      - split; [lia|]. split; simpl; try done; [lia|]. intros _. apply Hcolon. lia.
      - split; [lia|]. split; try done. intros _. apply Hcolon. lia. }
    destruct (Nat.ltb_spec 0 i).
    + destruct (empty s || (num_blocks s =? 7)) eqn:E7; [rewrite ok_bind; by eexists|].
      destruct (put_block_ok s) as (o & -> & Hlo & Hfo); [lia | done | done | done |].
      rewrite !ok_bind. apply orb_false_iff in E7 as [_ E7]. zify_bool.
      apply Hgo; simpl; try done; try lia.
    + destruct (negb is_double); rewrite ok_bind; [by eexists|]. by apply Hgo.
  - case_if; [by eexists|]. case_if; [by eexists|].
    assert (to_u16 (block s * 16) = block s * 16) as ->.
    { unfold to_u16, UINT16_MAX in *. apply Z.mod_small.
      pose proof (Z.mul_div_le (2 ^ 16 - 1) 16). lia. }
    case_if; [by eexists|]. eexists. split; [done|]. split; [lia|]. split; simpl; try done.
    + unfold to_u16, UINT16_MAX. pose proof (Z.mod_pos_bound (block s * 16 + decode_hex_digit c) (2 ^ 16)). lia.
    + intros H. apply (take_colon name i); [lia | auto].
Qed.

Lemma loop_safe name fuel : ∀ i s,
  (List.length name - i ≤ fuel)%nat → safe name i s →
  ∃ r, loop fuel name i s = Ok r ∧
    match r with Ended s => safe name (List.length name) s | Ipv4 i s => (i < List.length name)%nat ∧ safe name i s | Failed => True end.
Proof.
  induction fuel as [|fuel IH]; intros i s Hf Hs; cbn [loop].
  - rewrite (proj2 (Nat.ltb_ge _ _)) by lia. eexists. split; [done|].
    destruct Hs. split; try done. intros H. apply (take_all_colon name i). auto.
  - destruct (Nat.ltb_spec i (List.length name)) as [Hi|Hi].
    + destruct (step_safe name i s Hi Hs) as (n & -> & Hn). rewrite ok_bind.
      destruct n as [j s'| |]; [|by eexists|by eexists].
      destruct Hn. apply IH; [lia | done].
    + eexists. split; [done|]. destruct Hs. split; try done. intros H.
      apply (take_all_colon name i). auto.
Qed.

Definition good_result (r : result (option (list Z))) : Prop :=
  ∃ o, r = Ok o ∧ ∀ a, o = Some a → List.length a = 16%nat ∧ Forall is_byte a.

Lemma done_safe s :
  0 ≤ num_blocks s ≤ 8 → -1 ≤ compress_pos s ≤ num_blocks s → List.length (out s) = 16%nat →
  Forall is_byte (out s) → good_result (ipv4_done s).
Proof.
  intros Hn Hc Hl Hf. unfold ipv4_done.
  assert (Hgo : ∀ cp, 0 ≤ cp ≤ num_blocks s → good_result (
    let num_rear := num_blocks s - cp in
    o ← move_bytes (out s) (2 * (8 - num_rear)) (2 * cp) (2 * num_rear);
    o ← set_bytes o (2 * cp) 0 (2 * (8 - num_rear - cp)); Ok (Some o))).
  { intros cp Hcp. cbv zeta. rewrite move_bytes_ok, ok_bind by lia.
    set (o := _ ++ _). assert (Hlo : List.length o = 16%nat).
    { unfold o. rewrite !length_app, !length_take, !length_drop. lia. }
    assert (Hfo : Forall is_byte o).
    { unfold o. repeat apply Forall_app_2; auto using Forall_take, Forall_drop. }
    rewrite set_bytes_ok, ok_bind by lia. eexists. split; [done|]. intros a [= <-]. split.
    - rewrite !length_app, length_replicate, length_take, length_drop. lia.
    - repeat apply Forall_app_2; auto using Forall_take, Forall_drop.
      apply Forall_replicate. split; lia. }
  destruct (Z.eqb_spec (compress_pos s) (-1)).
  - case_if; rewrite ok_bind; [by eexists|]. apply Hgo. lia.
  - rewrite ok_bind. apply Hgo. lia.
Qed.

Lemma back_to_colon_ok name i :
  (i ≤ List.length name)%nat → ch ":" ∈ take i name → ∃ j, back_to_colon name i = Ok j ∧ (j ≤ i)%nat.
Proof.
  induction i as [|i IH]; intros Hi H; [by apply not_elem_of_nil in H|].
  destruct (lookup_lt_is_Some_2 name i) as [c Hc]; [lia|].
  rewrite (take_S_r _ _ _ Hc) in H. cbn [back_to_colon]. rewrite Hc. cbn [or_fault]. rewrite ok_bind.
  destruct (Z.eqb_spec c (ch ":")) as [->|Hne]; cbn [negb]; [by eexists|].
  apply elem_of_app in H as [H | H%list_elem_of_singleton]; [|congruence].
  destruct IH as (j & Hj & Hle); [lia | done|]. exists j. split; [done | lia].
Qed.

Lemma ipv4_loop_safe s : ∀ cur byte emp bytes,
  0 ≤ cur ≤ 3 → 0 ≤ byte ≤ UINT8_MAX → List.length bytes = 4%nat → Forall is_byte bytes →
  ∃ r, ipv4_loop s cur byte emp bytes = Ok r ∧
    ∀ c b e bs, r = Some (c, b, e, bs) →
      0 ≤ c ≤ 3 ∧ 0 ≤ b ≤ UINT8_MAX ∧ List.length bs = 4%nat ∧ Forall is_byte bs.
Proof.
  induction s as [|x s IH]; intros cur byte emp bytes Hc Hb Hl Hf; cbn [ipv4_loop].
  { eexists. split; [done|]. by intros c b e bs [= <- <- <- <-]. }
  case_if.
  - destruct (_ || _) eqn:E; [by eexists|]. apply orb_false_iff in E as [_ E]. zify_bool.
    rewrite set_byte_ok, ok_bind by lia.
    apply IH; try (rewrite ?length_insert; unfold UINT8_MAX; lia).
    apply Forall_insert; [done|]. unfold is_byte, UINT8_MAX in *. lia.
  - case_if; [by eexists|]. case_if; [by eexists|]. case_if; [by eexists|]. case_if; [by eexists|].
    apply IH; try done. unfold to_u8, UINT8_MAX.
    pose proof (Z.mod_pos_bound ((byte * 10) mod 2 ^ 8 + decode_decimal_digit x) (2 ^ 8)). lia.
Qed.

Lemma ipv4_ending_safe name i s :
  (i ≤ List.length name)%nat → safe name i s → good_result (ipv4_ending name i s).
Proof.
  intros Hi [Hn Hc Hb [Hl Hf] Hcol]. unfold ipv4_ending.
  destruct (_ || _) eqn:E; [by eexists|]. apply orb_false_iff in E as [_ E].
  destruct (back_to_colon_ok name i) as (j & -> & Hj); [done| |].
  { apply Hcol. apply andb_false_iff in E as [E|E]; zify_bool; [left | right]; lia. }
  rewrite ok_bind.
  destruct (ipv4_loop_safe (drop j name) 0 0 true [0; 0; 0; 0]) as (r & -> & Hr);
    [lia | unfold UINT8_MAX; lia | done | repeat constructor; lia |].
  rewrite ok_bind. destruct r as [[[[cur byte] emp] bytes]|]; [|by eexists].
  destruct (Hr _ _ _ _ eq_refl) as (Hcur & Hbyte & Hlb & Hfb).
  destruct (_ || _); [by eexists|]. rewrite set_byte_ok, ok_bind by lia.
  case_if; [by eexists|].
  rewrite !(proj2 (Z.leb_le _ _)) by lia. cbn [andb]. apply done_safe; cbn [num_blocks compress_pos out].
  - lia.
  - lia.
  - rewrite !length_app, length_insert, length_take, length_drop. lia.
  - repeat apply Forall_app_2; auto using Forall_take, Forall_drop.
    apply Forall_insert; [done|]. unfold is_byte, UINT8_MAX in *. lia.
Qed.

(** Whatever the text, the IPv6 parser never reads outside of the text nor writes outside
    of the sixteen bytes of the address, and never fails; its result is sixteen bytes. *)
Theorem ipv6_parse_safe name out0 :
  List.length out0 = 16%nat → Forall is_byte out0 →
  good_result (parse_addr_bin name out0) ∧ is_ok (parse_ifaddr_bin name out0).
Proof.
  intros Hl Hf.
  assert (Hp : ∀ name, good_result (parse_addr_bin name out0)).
  { clear name. intros name. unfold parse_addr_bin.
    assert (Hs : safe name 0 (mk 0 (-1) 0 true out0)).
    { split; simpl; try lia; [unfold UINT16_MAX; lia | done]. }
    destruct (loop_safe name (List.length name) 0 _ ltac:(lia) Hs) as (r & -> & Hr). rewrite ok_bind.
    destruct r as [s| |i s]; [|by eexists|].
    - destruct Hr as [Hn Hc Hb [Hlo Hfo] _]. destruct (empty s) eqn:He; cbn [negb].
      + case_if; [by eexists|]. apply done_safe; try done; lia.
      + destruct (put_block_ok s) as (o & -> & Hl' & Hf'); [lia | done | done | done |].
        rewrite ok_bind. apply done_safe; simpl; try done; lia.
    - destruct Hr. apply ipv4_ending_safe; [lia | done]. }
  split; [done|]. unfold parse_ifaddr_bin. destruct (b_find_char_bin _ _ _); [|by eexists].
  destruct (Hp (take (Z.to_nat z) name)) as (o & -> & _). rewrite ok_bind.
  by destruct o; eexists.
Qed.

(** ** What is printed parses back *)

Definition is_block (b : Z) : Prop := 0 ≤ b < 65536.

Definition block_pair (b : Z) : list Z := [Z.shiftr b 8; Z.land b 255].

Definition bytes_of (bs : list Z) : list Z := concat (block_pair <$> bs).

(** A character the first loop takes as a digit. *)
Definition hex_digit (c : Z) : bool :=
  negb (c =? ch ".") && negb (c =? ch ":") && (0 <=? decode_hex_digit c).

Lemma hex_char_ok d :
  0 ≤ d < 16 → hex_digit (hex_char d) = true ∧ decode_hex_digit (hex_char d) = d ∧ hex_char d ≠ ch "/".
Proof.
  intros Hd.
  assert (Hc : forall_upto 16 (λ d, hex_digit (hex_char d) && (decode_hex_digit (hex_char d) =? d)
                                    && negb (hex_char d =? ch "/")) = true) by (vm_compute; reflexivity).
  apply forall_upto_ok with (x := d) in Hc; [|exact Hd]. cbv beta in Hc. zify_bool. auto.
Qed.

Lemma hex_ok fuel : ∀ x,
  0 ≤ x < 16 ^ (Z.of_nat fuel + 1) →
  forallb hex_digit (hex fuel x) = true ∧ value_from 16 decode_hex_digit (hex fuel x) 0 = Some x ∧
  (ch "/" ∉ hex fuel x).
Proof.
  induction fuel as [|fuel IH]; intros x Hx; cbn [hex];
    pose proof (hex_char_ok (x mod 16) (Z.mod_pos_bound x 16 ltac:(lia))) as (H1 & H2 & H3);
    pose proof (Z.mod_pos_bound x 16 ltac:(lia)); pose proof (Z.div_mod x 16 ltac:(lia)).
  - cbn [forallb value_from]. rewrite H1, H2, (proj2 (Z.ltb_ge _ 0)) by lia. split; [done|]. split.
    + f_equal. rewrite Z.mod_small; [lia|]. simpl in Hx. lia.
    + apply not_elem_of_cons. split; [done | apply not_elem_of_nil].
  - rewrite forallb_app, value_from_app, not_elem_of_app. cbn [forallb value_from]. rewrite H1, andb_true_r.
    rewrite Nat2Z.inj_succ, <- Z.add_1_l, <- Z.add_assoc, Z.pow_add_r in Hx by lia.
    assert (Hd : 0 ≤ x / 16 < 16 ^ (Z.of_nat fuel + 1)).
    { split; [apply Z.div_pos; lia|]. apply Z.div_lt_upper_bound; lia. }
    destruct (IH _ Hd) as (I1 & I2 & I3).
    assert (∀ l, (ch "/" ∉ l) ∧ value_from 16 decode_hex_digit l 0 = Some (x / 16) →
      (n ← value_from 16 decode_hex_digit l 0;
       if decode_hex_digit (hex_char (x mod 16)) <? 0 then None
       else Some (16 * n + decode_hex_digit (hex_char (x mod 16)))) = Some x) as Hv.
    { intros l [_ ->]. cbn [mbind option_bind]. rewrite H2, (proj2 (Z.ltb_ge _ 0)) by lia. f_equal. lia. }
    assert (ch "/" ∉ [hex_char (x mod 16)]) by (apply not_elem_of_cons; split; [done | apply not_elem_of_nil]).
    destruct (Z.ltb_spec 0 (x / 16)).
    + split; [by rewrite I1|]. split; [by apply Hv | done].
    + split; [done|]. split; [|split; [apply not_elem_of_nil | done]].
      apply Hv. split; [apply not_elem_of_nil|]. simpl. f_equal. lia.
Qed.

Lemma block_checks b :
  is_block b →
  forallb hex_digit (print_hex16 b) = true ∧ print_hex16 b ≠ [] ∧
  value_from 16 decode_hex_digit (print_hex16 b) 0 = Some b ∧
  Z.lor (to_u16 (Z.shiftl (Z.shiftr b 8) 8)) (Z.land b 255) = b ∧
  (ch "/" ∉ print_hex16 b).
Proof.
  intros Hb. unfold print_hex16. destruct (hex_ok 3 b) as (H1 & H2 & H3); [exact Hb|].
  split; [done|]. split; [cbn [hex]; by intros []%app_nil|]. split; [done|]. split; [|done].
  change 255 with (Z.ones 8). rewrite <- Z.ldiff_ones_r by lia.
  assert (to_u16 (Z.ldiff b (Z.ones 8)) = Z.ldiff b (Z.ones 8)) as ->; [|apply Z.lor_ldiff_and].
  unfold to_u16, is_block in *. apply Z.mod_small.
  rewrite Z.ldiff_ones_r, Z.shiftl_mul_pow2, Z.shiftr_div_pow2 by lia.
  pose proof (Z.mul_div_le b (2 ^ 8) ltac:(lia)). pose proof (Z.div_pos b (2 ^ 8) ltac:(lia) ltac:(lia)). lia.
Qed.

Lemma length_bytes_of bs : List.length (bytes_of bs) = (2 * List.length bs)%nat.
Proof.
  induction bs as [|b bs IH]; [done|]. change (bytes_of (b :: bs)) with (block_pair b ++ bytes_of bs).
  rewrite length_app, IH. simpl. lia.
Qed.

Lemma bytes_of_app bs cs : bytes_of (bs ++ cs) = bytes_of bs ++ bytes_of cs.
Proof. unfold bytes_of. by rewrite fmap_app, concat_app. Qed.

Lemma put_block_app P cp b e x y rest :
  put_block (mk (Z.of_nat (List.length P)) cp b e (bytes_of P ++ x :: y :: rest))
  = Ok (mk (Z.of_nat (List.length (P ++ [b]))) cp b e (bytes_of (P ++ [b]) ++ rest)).
Proof.
  unfold put_block. cbn [out num_blocks block compress_pos empty].
  rewrite set_byte_app, ok_bind by (rewrite length_bytes_of; lia).
  rewrite (cons_middle _ (bytes_of P)), app_assoc.
  rewrite set_byte_app, ok_bind by (rewrite length_app, length_bytes_of; simpl; lia).
  rewrite bytes_of_app, length_app, <- !app_assoc. do 2 f_equal. simpl. lia.
Qed.

(** The last character of [pre] is irrelevant: positions are lengths. *)
Section positions.
Context (pre suf : list Z).

Lemma loop_hex_step fuel c nb cp b e o :
  hex_digit c = true → 0 ≤ b → 16 * b + decode_hex_digit c < 65536 →
  loop (S fuel) (pre ++ c :: suf) (List.length pre) (mk nb cp b e o)
  = loop fuel (pre ++ c :: suf) (S (List.length pre)) (mk nb cp (16 * b + decode_hex_digit c) false o).
Proof.
  intros Hd Hb Hlt. unfold hex_digit in Hd. zify_bool. cbn [loop].
  rewrite (proj2 (Nat.ltb_lt _ _)) by (rewrite length_app; simpl; lia).
  unfold step. rewrite (list_lookup_middle pre suf c (List.length pre)) by done. cbn [or_fault block].
  rewrite ok_bind, !(proj2 (Z.eqb_neq c _)), (proj2 (Z.ltb_ge _ 0)) by done.
  unfold UINT16_MAX, to_u16. rewrite (proj2 (Z.ltb_ge _ b)) by
    (change ((2 ^ 16 - 1) / 16) with 4095; lia).
  rewrite (Z.mod_small (b * 16)), (proj2 (Z.ltb_ge _ (decode_hex_digit c))) by lia.
  rewrite ok_bind, Nat.add_1_r. cbn [num_blocks compress_pos out]. rewrite Z.mod_small by lia.
  do 2 f_equal. lia.
Qed.

Lemma lookup_colon c rest :
  (pre ++ c :: rest) !! (List.length pre + 1)%nat = head rest.
Proof. rewrite lookup_app_r, Nat.add_comm, Nat.add_sub by lia. by destruct rest. Qed.

Lemma loop_colon fuel P cp b x y rest :
  pre ≠ [] → head suf ≠ Some (ch ":") → is_block b → (List.length P < 7)%nat →
  loop (S fuel) (pre ++ ch ":" :: suf) (List.length pre)
    (mk (Z.of_nat (List.length P)) cp b false (bytes_of P ++ x :: y :: rest))
  = loop fuel (pre ++ ch ":" :: suf) (S (List.length pre))
    (mk (Z.of_nat (List.length (P ++ [b]))) cp 0 true (bytes_of (P ++ [b]) ++ rest)).
Proof.
  intros Hpre Hsuf Hb HP. cbn [loop].
  rewrite (proj2 (Nat.ltb_lt _ _)) by (rewrite length_app; simpl; lia).
  unfold step. rewrite (list_lookup_middle pre suf _ (List.length pre)), lookup_colon by done. cbn [or_fault]. rewrite ok_bind.
  change (ch ":" =? ch ".") with false. rewrite Z.eqb_refl, (bool_decide_false _ Hsuf).
  rewrite (proj2 (Nat.ltb_lt 0 _)) by (destruct pre; simpl; [done | lia]).
  cbn [empty num_blocks orb]. rewrite (proj2 (Z.eqb_neq _ 7)) by lia.
  rewrite put_block_app, !ok_bind. cbn [num_blocks compress_pos out]. by rewrite Nat.add_1_r.
Qed.

Lemma loop_double fuel P b x y rest :
  pre ≠ [] → head suf = Some (ch ":") → is_block b → (List.length P < 7)%nat →
  loop (S fuel) (pre ++ ch ":" :: suf) (List.length pre)
    (mk (Z.of_nat (List.length P)) (-1) b false (bytes_of P ++ x :: y :: rest))
  = loop fuel (pre ++ ch ":" :: suf) (S (S (List.length pre)))
    (mk (Z.of_nat (List.length (P ++ [b]))) (Z.of_nat (List.length (P ++ [b]))) 0 true
       (bytes_of (P ++ [b]) ++ rest)).
Proof.
  intros Hpre Hsuf Hb HP. cbn [loop].
  rewrite (proj2 (Nat.ltb_lt _ _)) by (rewrite length_app; simpl; lia).
  unfold step. rewrite (list_lookup_middle pre suf _ (List.length pre)), lookup_colon by done.
  cbn [or_fault]. rewrite ok_bind.
  change (ch ":" =? ch ".") with false. rewrite Z.eqb_refl, (bool_decide_true _ Hsuf).
  rewrite (proj2 (Nat.ltb_lt 0 _)) by (destruct pre; simpl; [done | lia]).
  cbn [empty num_blocks orb]. rewrite (proj2 (Z.eqb_neq _ 7)) by lia.
  rewrite put_block_app, !ok_bind. cbn [num_blocks compress_pos out].
  replace (List.length pre + 2)%nat with (S (S (List.length pre))) by lia. done.
Qed.
End positions.

Lemma loop_double_start fuel suf o :
  loop (S fuel) (ch ":" :: ch ":" :: suf) 0 (mk 0 (-1) 0 true o)
  = loop fuel (ch ":" :: ch ":" :: suf) 2 (mk 0 0 0 true o).
Proof. done. Qed.

(** A whole block. *)
Lemma loop_hex h : ∀ fuel pre suf nb cp b e o v,
  forallb hex_digit h = true → h ≠ [] → 0 ≤ b → value_from 16 decode_hex_digit h b = Some v → v < 65536 →
  loop (List.length h + fuel) (pre ++ h ++ suf) (List.length pre) (mk nb cp b e o)
  = loop fuel (pre ++ h ++ suf) (List.length (pre ++ h)) (mk nb cp v false o).
Proof.
  induction h as [|c h IH]; intros fuel pre suf nb cp b e o v Hd Hne Hb Hv Hlt; [done|].
  cbn [forallb value_from] in Hd, Hv. apply andb_true_iff in Hd as [Hc Hd].
  case_if; [done|].
  assert (16 * b + decode_hex_digit c ≤ v).
  { eapply (value_from_ge 16 decode_hex_digit ltac:(lia) decode_hex_digit_bound); [|exact Hv]. lia. }
  cbn [List.length app]. rewrite Nat.add_succ_l.
  rewrite (loop_hex_step pre (h ++ suf)) by (done || lia).
  destruct h as [|c' h].
  { simpl in Hv. injection Hv as <-. rewrite length_app. simpl. by rewrite Nat.add_1_r. }
  rewrite (cons_middle c pre), app_assoc.
  replace (S (List.length pre)) with (List.length (pre ++ [c])) by (rewrite length_app; simpl; lia).
  rewrite (IH fuel (pre ++ [c]) suf nb cp _ false o v) by (done || lia).
  by rewrite <- !app_assoc.
Qed.

(** Blocks separated by colons, to the end of the name. *)
Definition joined (Q : list Z) : list Z :=
  match Q with
  | [] => []
  | q :: Q => print_hex16 q ++ concat ((λ b, ch ":" :: print_hex16 b) <$> Q)
  end.

Lemma joined_head Q : Forall is_block Q → head (joined Q) ≠ Some (ch ":").
Proof.
  intros HQ. destruct HQ as [|q Q Hq _]; [done|]. simpl.
  destruct (block_checks q Hq) as (Hd & Hne & _). destruct (print_hex16 q) as [|c h]; [done|].
  simpl in *. apply andb_true_iff in Hd as [Hd _]. unfold hex_digit in Hd. zify_bool. congruence.
Qed.

Lemma loop_end fuel name s : loop fuel name (List.length name) s = Ok (Ended s).
Proof. destruct fuel; cbn [loop]; by rewrite Nat.ltb_irrefl. Qed.

Lemma loop_block fuel pre suf q nb cp o :
  is_block q →
  loop (List.length (print_hex16 q) + fuel) (pre ++ print_hex16 q ++ suf) (List.length pre) (mk nb cp 0 true o)
  = loop fuel ((pre ++ print_hex16 q) ++ suf) (List.length (pre ++ print_hex16 q)) (mk nb cp q false o).
Proof.
  intros Hq. destruct (block_checks q Hq) as (Hd & Hne & Hv & _).
  rewrite (loop_hex _ _ _ _ _ _ _ _ _ q); try done; [by rewrite app_assoc|].
  unfold is_block in Hq. lia.
Qed.

(** The name ends with these blocks: the last one is not yet stored. *)
Lemma loop_joined Q : ∀ q P rest pre cp fuel,
  Forall is_block (q :: Q) → (List.length P + List.length (q :: Q) ≤ 8)%nat →
  (List.length rest = 16 - 2 * List.length P)%nat →
  ∃ s rest', loop (List.length (joined (q :: Q)) + fuel) (pre ++ joined (q :: Q)) (List.length pre)
      (mk (Z.of_nat (List.length P)) cp 0 true (bytes_of P ++ rest)) = Ok (Ended s) ∧
    empty s = false ∧ (List.length rest' = 16 - 2 * List.length (P ++ q :: Q))%nat ∧
    put_block s = Ok (mk (Z.of_nat (List.length (P ++ q :: Q))) cp (block s) false
                         (bytes_of (P ++ q :: Q) ++ rest')).
Proof.
  induction Q as [|q' Q IH]; intros q P rest pre cp fuel HQ HP Hr; cbn [List.length] in HP;
    destruct rest as [|x [|y rest]]; try (simpl in Hr; lia); inversion HQ as [|? ? Hq HQ']; subst.
  - unfold joined. cbn [fmap list_fmap concat].
    rewrite length_app. cbn [List.length]. rewrite Nat.add_0_r.
    rewrite loop_block, app_nil_r by done. rewrite loop_end.
    eexists _, rest. split; [done|]. split; [done|].
    split; [rewrite length_app; simpl in *; lia|]. apply put_block_app.
  - assert (Hj : joined (q :: q' :: Q) = print_hex16 q ++ ch ":" :: joined (q' :: Q)) by done.
    rewrite Hj, length_app. cbn [List.length]. rewrite <- Nat.add_assoc, Nat.add_succ_l.
    rewrite loop_block by done.
    rewrite loop_colon; [| |by apply joined_head | done | lia].
    + rewrite (cons_middle (ch ":")), app_assoc.
      replace (S (List.length (pre ++ print_hex16 q)))
        with (List.length ((pre ++ print_hex16 q) ++ [ch ":"])) by (rewrite (length_app _ [_]); simpl; lia).
      destruct (IH q' (P ++ [q]) rest ((pre ++ print_hex16 q) ++ [ch ":"]) cp fuel)
        as (s & rest' & H1 & H2 & H3 & H4); [done | rewrite length_app; simpl in *; lia
        | rewrite length_app; simpl in *; lia|].
      rewrite <- (app_assoc P [q]) in H3, H4. by exists s, rest'.
    + intros []%app_nil. by destruct (block_checks q Hq) as (_ & ? & _).
Qed.

(** The blocks before a double colon, with it. *)
Definition before_double (B : list Z) : list Z := concat ((λ b, print_hex16 b ++ str ":") <$> B) ++ str ":".

Lemma loop_before_double B : ∀ b P rest pre suf fuel,
  Forall is_block (b :: B) → (List.length P + List.length (b :: B) ≤ 7)%nat →
  (List.length rest = 16 - 2 * List.length P)%nat →
  ∃ rest', (List.length rest' = 16 - 2 * List.length (P ++ b :: B))%nat ∧
    loop (List.length (before_double (b :: B)) + fuel) (pre ++ before_double (b :: B) ++ suf)
      (List.length pre) (mk (Z.of_nat (List.length P)) (-1) 0 true (bytes_of P ++ rest))
    = loop (S fuel) (pre ++ before_double (b :: B) ++ suf) (List.length (pre ++ before_double (b :: B)))
        (mk (Z.of_nat (List.length (P ++ b :: B))) (Z.of_nat (List.length (P ++ b :: B))) 0 true
            (bytes_of (P ++ b :: B) ++ rest')).
Proof.
  induction B as [|b' B IH]; intros b P rest pre suf fuel HB HP Hr; cbn [List.length] in HP;
    destruct rest as [|x [|y rest]]; try (simpl in Hr; lia); inversion HB as [|? ? Hb HB']; subst.
  - exists rest. split; [rewrite length_app; simpl in *; lia|].
    assert (Hj : before_double [b] = print_hex16 b ++ [ch ":"; ch ":"]).
    { unfold before_double. cbn [fmap list_fmap concat]. by rewrite app_nil_r, <- app_assoc. }
    rewrite Hj, <- !app_assoc, length_app. cbn [List.length app].
    rewrite <- Nat.add_assoc, Nat.add_succ_l. rewrite loop_block by done.
    rewrite loop_double; [| |done | done | lia].
    + rewrite <- app_assoc. f_equal. rewrite !length_app. simpl. lia.
    + intros []%app_nil. by destruct (block_checks b Hb) as (_ & ? & _).
  - assert (Hj : before_double (b :: b' :: B) = print_hex16 b ++ ch ":" :: before_double (b' :: B)).
    { unfold before_double. cbn [fmap list_fmap concat]. by rewrite <- !app_assoc. }
    destruct (IH b' (P ++ [b]) rest ((pre ++ print_hex16 b) ++ [ch ":"]) suf fuel)
      as (rest' & H1 & H2); [done | rewrite length_app; simpl in *; lia
      | rewrite length_app; simpl in *; lia|].
    rewrite <- (app_assoc P [b]) in H1, H2. cbn [app] in H1, H2. exists rest'. split; [done|].
    rewrite Hj, length_app, <- !app_assoc. cbn [List.length app].
    rewrite <- Nat.add_assoc, Nat.add_succ_l. rewrite loop_block by done.
    rewrite loop_colon; [| | | done | lia].
    + rewrite <- !app_assoc in *. cbn [app] in *.
      replace (S (List.length (pre ++ print_hex16 b)))
        with (List.length (pre ++ print_hex16 b ++ [ch ":"])) by (rewrite !length_app; simpl; lia).
      rewrite H2. f_equal.
    + intros []%app_nil. by destruct (block_checks b Hb) as (_ & ? & _).
    + inversion HB' as [|? ? Hb' _]; subst. unfold before_double. cbn [fmap list_fmap concat].
      pose proof (joined_head [b'] ltac:(by constructor)) as Hh. unfold joined in Hh.
      cbn [fmap list_fmap concat] in Hh. rewrite app_nil_r in Hh. rewrite <- !app_assoc.
      destruct (block_checks b' Hb') as (_ & Hne & _). by destruct (print_hex16 b').
Qed.

Lemma done_compressed B Q blk e rest :
  (List.length B + List.length Q ≤ 8)%nat → (List.length rest = 16 - 2 * (List.length B + List.length Q))%nat →
  ipv4_done (mk (Z.of_nat (List.length (B ++ Q))) (Z.of_nat (List.length B)) blk e (bytes_of (B ++ Q) ++ rest))
  = Ok (Some (bytes_of B ++ replicate (List.length rest) 0 ++ bytes_of Q)).
Proof.
  intros Hl Hr. unfold ipv4_done. cbn [compress_pos num_blocks out].
  rewrite (proj2 (Z.eqb_neq _ (-1))) by lia. rewrite ok_bind, length_app.
  assert (Hout : List.length (bytes_of (B ++ Q) ++ rest) = 16%nat).
  { rewrite length_app, length_bytes_of, length_app. lia. }
  rewrite move_bytes_ok, ok_bind by lia.
  replace (Z.to_nat (2 * Z.of_nat (List.length B))) with (List.length (bytes_of B)) by (rewrite length_bytes_of; lia).
  replace (Z.to_nat (2 * (Z.of_nat (List.length B + List.length Q) - Z.of_nat (List.length B))))
    with (List.length (bytes_of Q)) by (rewrite length_bytes_of; lia).
  rewrite bytes_of_app, <- (app_assoc (bytes_of B)) in *.
  rewrite drop_app_length, take_app_length.
  rewrite (drop_ge _ (Z.to_nat (_ + _))) by lia. rewrite app_nil_r.
  set (n := Z.to_nat (2 * (8 - _))).
  assert (Hn : n = (List.length (bytes_of B) + List.length rest)%nat) by (unfold n; rewrite !length_bytes_of; lia).
  rewrite Hn. set (junk := take (List.length rest) (bytes_of Q ++ rest)).
  assert (take (List.length (bytes_of B) + List.length rest) (bytes_of B ++ bytes_of Q ++ rest)
          = bytes_of B ++ junk) as -> by (by rewrite take_app_add).
  assert (Hj : List.length junk = List.length rest).
  { unfold junk. rewrite length_take, length_app. lia. }
  rewrite <- app_assoc.
  rewrite set_bytes_ok, ok_bind; [|lia|lia|rewrite !length_app, Hj, !length_bytes_of; lia].
  replace (Z.to_nat (2 * Z.of_nat (List.length B))) with (List.length (bytes_of B)) by (rewrite length_bytes_of; lia).
  rewrite take_app_length. do 4 f_equal; [f_equal; lia|].
  replace (Z.to_nat _) with (List.length (bytes_of B) + List.length junk)%nat
    by (rewrite Hj, length_bytes_of; lia).
  by rewrite drop_app_add, drop_app_length.
Qed.

Lemma done_full Q blk e :
  List.length Q = 8%nat →
  ipv4_done (mk (Z.of_nat (List.length Q)) (-1) blk e (bytes_of Q)) = Ok (Some (bytes_of Q)).
Proof.
  intros Hl. pose proof (length_bytes_of Q) as HQ. rewrite Hl in HQ.
  unfold ipv4_done. cbn [compress_pos num_blocks out]. rewrite Hl. cbn.
  destruct (bytes_of Q) as [|? l]; [done|]. do 15 (destruct l as [|? l]; [done|]). by destruct l.
Qed.

(** What the printer writes for blocks [B], a run of zeros, and blocks [Q]. *)
Definition compressed (B Q : list Z) : list Z :=
  match B with [] => str "::" | _ => before_double B end ++ joined Q.

Lemma parse_compressed B Q out0 :
  Forall is_block B → Forall is_block Q → (List.length B + List.length Q ≤ 7)%nat →
  List.length out0 = 16%nat →
  parse_addr_bin (compressed B Q) out0
  = Ok (Some (bytes_of B ++ replicate (16 - 2 * (List.length B + List.length Q)) 0 ++ bytes_of Q)).
Proof.
  intros HB HQ Hl Hout. unfold parse_addr_bin.
  assert (Hpre : ∃ pre rest fuel, compressed B Q = pre ++ joined Q ∧
    (List.length rest = 16 - 2 * List.length B)%nat ∧ (List.length (joined Q) ≤ fuel)%nat ∧
    loop (List.length (compressed B Q)) (compressed B Q) 0 (mk 0 (-1) 0 true out0)
    = loop fuel (compressed B Q) (List.length pre)
        (mk (Z.of_nat (List.length B)) (Z.of_nat (List.length B)) 0 true (bytes_of B ++ rest))).
  { unfold compressed. destruct B as [|b B].
    - exists (str "::"), out0, (S (List.length (joined Q))). split; [done|]. split; [simpl; lia|].
      split; [lia|]. change (str "::") with [ch ":"; ch ":"]. cbn [app List.length].
      by rewrite loop_double_start.
    - destruct (loop_before_double B b [] out0 [] (joined Q) (List.length (joined Q)))
        as (rest & Hr & Hloop); [done | simpl in *; lia | simpl; lia |].
      exists (before_double (b :: B)), rest, (S (List.length (joined Q))).
      split; [done|]. split; [exact Hr|]. split; [lia|]. rewrite length_app. exact Hloop. }
  destruct Hpre as (pre & rest & fuel & Hname & Hrest & Hfuel & ->). rewrite Hname.
  destruct Q as [|q Q].
  - rewrite app_nil_r, loop_end, ok_bind. cbn [empty negb num_blocks compress_pos].
    rewrite Z.eqb_refl. cbn [negb].
    pose proof (done_compressed B [] 0 true rest) as Hd. rewrite app_nil_r in Hd.
    rewrite Hd by (simpl; lia). cbn [List.length]. by rewrite Hrest, Nat.add_0_r.
  - replace fuel with (List.length (joined (q :: Q)) + (fuel - List.length (joined (q :: Q))))%nat by lia.
    destruct (loop_joined Q q B rest pre (Z.of_nat (List.length B))
      (fuel - List.length (joined (q :: Q)))) as (s & rest' & -> & He & Hr' & Hput); [done | lia | done |].
    rewrite ok_bind, He. cbn [negb]. rewrite Hput, ok_bind.
    rewrite length_app in Hr'. rewrite done_compressed by lia. by rewrite Hr'.
Qed.

Lemma parse_joined Q out0 :
  Forall is_block Q → List.length Q = 8%nat → List.length out0 = 16%nat →
  parse_addr_bin (joined Q) out0 = Ok (Some (bytes_of Q)).
Proof.
  intros HQ Hl Hout. unfold parse_addr_bin. destruct Q as [|q Q]; [done|].
  destruct (loop_joined Q q [] out0 [] (-1) 0) as (s & rest' & Hloop & He & Hr' & Hput);
    [done | simpl in *; lia | done |].
  rewrite Nat.add_0_r in Hloop. change (bytes_of [] ++ out0) with out0 in Hloop.
  change (Z.of_nat (List.length [])) with 0 in Hloop. change (List.length (@nil Z)) with 0%nat in Hloop.
  cbn [app] in *. rewrite Hloop, ok_bind, He. cbn [negb].
  rewrite Hput, ok_bind. rewrite Hl in Hr'. destruct rest'; [|simpl in Hr'; lia].
  rewrite app_nil_r. by apply (done_full (q :: Q)).
Qed.

(** The blocks of an address. *)
Lemma bytes_blocks a :
  List.length a = 16%nat → Forall is_byte a → ∃ bs, List.length bs = 8%nat ∧ Forall is_block bs ∧ a = bytes_of bs.
Proof.
  assert (Hgo : ∀ n a, (List.length a = 2 * n)%nat → Forall is_byte a →
    ∃ bs, List.length bs = n ∧ Forall is_block bs ∧ a = bytes_of bs).
  { clear a. induction n as [|n IH]; intros a Hl Ha.
    - destruct a; [|done]. by exists [].
    - destruct a as [|x [|y a]]; [simpl in Hl; lia..|].
      rewrite !Forall_cons in Ha. destruct Ha as (Hx & Hy & Ha). unfold is_byte in Hx, Hy.
      destruct (IH a) as (bs & Hlb & Hb & ->); [simpl in Hl; lia | done|].
      exists (256 * x + y :: bs). split; [simpl; lia|]. split.
      + constructor; [|done]. unfold is_block. lia.
      + change (bytes_of (256 * x + y :: bs)) with (block_pair (256 * x + y) ++ bytes_of bs).
        unfold block_pair. change 255 with (Z.ones 8). rewrite Z.land_ones, Z.shiftr_div_pow2 by lia.
        change (2 ^ 8) with 256. rewrite (Z.mul_comm 256 x), Z.div_add_l, Z.div_small, Z.add_0_r by lia.
        rewrite (Z.add_comm (x * 256)), Z.mod_add, Z.mod_small by lia. done. }
  intros Hl Ha. by apply (Hgo 8%nat).
Qed.

Lemma get_block bs (i : nat) b :
  bs !! i = Some b →
  get_byte (bytes_of bs) (2 * Z.of_nat i) = Ok (Z.shiftr b 8) ∧
  get_byte (bytes_of bs) (2 * Z.of_nat i + 1) = Ok (Z.land b 255).
Proof.
  intros Hb.
  assert (H : bytes_of bs !! (2 * i)%nat = Some (Z.shiftr b 8) ∧
              bytes_of bs !! (2 * i + 1)%nat = Some (Z.land b 255)).
  { rewrite <- (take_drop_middle _ _ _ Hb). pose proof (lookup_lt_Some _ _ _ Hb).
    rewrite bytes_of_app. change (bytes_of (b :: ?l)) with (block_pair b ++ bytes_of l).
    assert (Hlen : List.length (bytes_of (take i bs)) = (2 * i)%nat) by
      (rewrite length_bytes_of, length_take; lia).
    split; (rewrite lookup_app_r by lia); rewrite Hlen.
    - by rewrite Nat.sub_diag.
    - by replace (2 * i + 1 - 2 * i)%nat with 1%nat by lia. }
  destruct H as [H1 H2]. split.
  - replace (2 * Z.of_nat i) with (Z.of_nat (2 * i)) by lia. by apply get_byte_ok.
  - replace (2 * Z.of_nat i + 1) with (Z.of_nat (2 * i + 1)) by lia. by apply get_byte_ok.
Qed.

Lemma compressed_text B Q :
  concat ((λ b, [] ++ print_hex16 b ++ str ":") <$> B)
  ++ match B with [] => str ":" | _ => [] end
  ++ concat ((λ b, str ":" ++ print_hex16 b ++ []) <$> Q)
  ++ match Q with [] => str ":" | _ => [] end = compressed B Q.
Proof.
  assert (Ht : concat ((λ b, str ":" ++ print_hex16 b ++ []) <$> Q)
    ++ match Q with [] => str ":" | _ => [] end = str ":" ++ joined Q).
  { destruct Q as [|q Q]; [done|]. rewrite app_nil_r. cbn [fmap list_fmap concat joined].
    rewrite app_nil_r, <- app_assoc. do 3 f_equal. apply list_fmap_ext. intros i x _.
    by rewrite app_nil_r. }
  rewrite Ht. unfold compressed, before_double. destruct B as [|b B]; [done|].
  by rewrite <- app_assoc.
Qed.

(** The first of the longest runs of zero blocks. *)
Record longest_zeros (bs : list Z) (i n : nat) : Prop := {
  lz_inside : (i + n ≤ List.length bs)%nat;
  lz_zero : ∀ j, (i ≤ j < i + n)%nat → bs !! j = Some 0;
  lz_longest : ∀ a m, (a + m ≤ List.length bs)%nat → (∀ j, (a ≤ j < a + m)%nat → bs !! j = Some 0) →
    (m ≤ n)%nat ∧ (m = n → (0 < n)%nat → (i ≤ a)%nat);
}.

(** The text of an address of these blocks: that run is compressed if it is of two blocks or more. *)
Definition address_text (bs : list Z) (i n : nat) : list Z :=
  if decide (2 ≤ n)%nat then compressed (take i bs) (drop (i + n) bs) else joined bs.

Section printing.
Context (bs : list Z) (Hlen : List.length bs = 8%nat) (Hbs : Forall is_block bs).

Lemma block_at_ok (i : nat) b : bs !! i = Some b → block_at (bytes_of bs) (Z.of_nat i) = Ok b.
Proof.
  intros Hb. pose proof (get_block bs i b Hb) as [H1 H2]. unfold block_at.
  rewrite H1, ok_bind, H2, ok_bind. f_equal. apply block_checks. by eapply Forall_lookup_1.
Qed.

Lemma drop_block (i : nat) : (i < 8)%nat → ∃ b, bs !! i = Some b ∧ drop i bs = b :: drop (S i) bs.
Proof.
  intros Hi. destruct (lookup_lt_is_Some_2 bs i) as [b Hb]; [lia|]. exists b. split; [done|].
  by apply drop_S.
Qed.

Lemma print_blocks_ok n before after : ∀ i : nat,
  (i + n ≤ 8)%nat →
  print_blocks n (bytes_of bs) (Z.of_nat i) before after
  = Ok (concat ((λ b, before ++ print_hex16 b ++ after) <$> take n (drop i bs))).
Proof.
  induction n as [|n IH]; intros i Hi; [done|]. cbn [print_blocks].
  destruct (drop_block i) as (b & Hb & Hd); [lia|].
  rewrite (block_at_ok i b Hb), ok_bind. replace (Z.of_nat i + 1) with (Z.of_nat (S i)) by lia.
  rewrite IH, ok_bind by lia. rewrite Hd. cbn [take fmap list_fmap concat]. by rewrite <- !app_assoc.
Qed.

Lemma print_joined_S n a i prefix :
  print_joined (S n) a i prefix =
  b ← block_at a i; rest ← print_joined n a (i + 1) (str ":"); Ok (prefix ++ print_hex16 b ++ rest).
Proof. done. Qed.

Lemma print_joined_ok n : ∀ i : nat,
  (i + n ≤ 8)%nat →
  print_joined n (bytes_of bs) (Z.of_nat i) (str ":")
  = Ok (concat ((λ b, ch ":" :: print_hex16 b) <$> take n (drop i bs))).
Proof.
  induction n as [|n IH]; intros i Hi; [done|]. rewrite print_joined_S.
  destruct (drop_block i) as (b & Hb & Hd); [lia|].
  rewrite (block_at_ok i b Hb), ok_bind. replace (Z.of_nat i + 1) with (Z.of_nat (S i)) by lia.
  rewrite IH, ok_bind by lia. rewrite Hd. done.
Qed.

(** The blocks from [a] to [b] are zero. *)
Definition zeros (a b : Z) : Prop := ∀ j : nat, a ≤ Z.of_nat j < b → bs !! j = Some 0.

(** What is known of the runs in the first [i] blocks. *)
Record runs (i : Z) (r : run) : Prop := {
  r_current : 0 ≤ current_start r ∧ 0 ≤ current_len r ∧ current_start r + current_len r = i;
  r_zeros : zeros (current_start r) i;
  r_maximal : ∀ j : nat, Z.of_nat j + 1 = current_start r → bs !! j ≠ Some 0;
  r_largest : 0 ≤ largest_start r ∧ 0 ≤ largest_len r ∧ largest_start r + largest_len r ≤ i;
  r_largest_zeros : zeros (largest_start r) (largest_start r + largest_len r);
  r_longest : ∀ a m, 0 ≤ a → 0 < m → a + m ≤ i → zeros a (a + m) →
    m ≤ largest_len r ∧ (m = largest_len r → largest_start r ≤ a);
}.

Lemma runs_zero (i : nat) r : bs !! i = Some 0 → runs (Z.of_nat i) r →
  runs (Z.of_nat (S i))
    (if largest_len r <? current_len r + 1
     then mkrun (current_start r) (current_len r + 1) (current_start r) (current_len r + 1)
     else mkrun (largest_start r) (largest_len r) (current_start r) (current_len r + 1)).
Proof.
  intros Hb [(Hc0 & Hcl & Hc) Hcz Hmax (Hl0 & Hll & Hl) Hlz Hlong].
  assert (Hcz' : zeros (current_start r) (Z.of_nat (S i))).
  { intros j Hj. destruct (decide (j = i)) as [->|]; [done|]. apply Hcz. lia. }
  assert (Hnew : ∀ a m, 0 ≤ a → 0 < m → a + m ≤ Z.of_nat (S i) → zeros a (a + m) →
    a + m ≤ Z.of_nat i ∨ a + m = Z.of_nat (S i) ∧ current_start r ≤ a).
  { intros a m Ha Hm Hle Hz. destruct (decide (a + m ≤ Z.of_nat i)) as [|Hgt]; [by left|]. right. split; [lia|].
    destruct (decide (current_start r ≤ a)) as [|Hlt]; [done|]. exfalso.
    apply (Hmax (Z.to_nat (current_start r - 1))); [lia|]. apply Hz. lia. }
  destruct (Z.ltb_spec (largest_len r) (current_len r + 1)); split; cbn [largest_start largest_len current_start current_len];
    try done; try lia.
  - intros j Hj. apply Hcz'. lia.
  - intros a m Ha Hm Hle Hz. destruct (Hnew a m Ha Hm Hle Hz) as [Hi|[Hi Ha']]; [|lia].
    destruct (Hlong a m Ha Hm Hi Hz). lia.
  - intros a m Ha Hm Hle Hz. destruct (Hnew a m Ha Hm Hle Hz) as [Hi|[Hi Ha']]; [by apply Hlong|lia].
Qed.

Lemma runs_nonzero (i : nat) r : bs !! i ≠ Some 0 → runs (Z.of_nat i) r →
  runs (Z.of_nat (S i)) (mkrun (largest_start r) (largest_len r) (Z.of_nat (S i)) 0).
Proof.
  intros Hb [(Hc0 & Hcl & Hc) Hcz Hmax (Hl0 & Hll & Hl) Hlz Hlong].
  split; cbn [largest_start largest_len current_start current_len]; try done; try lia.
  - intros j Hj. lia.
  - intros j Hj. by replace j with i by lia.
  - intros a m Ha Hm Hle Hz. apply Hlong; try done. destruct (decide (a + m ≤ Z.of_nat i)); [done|].
    exfalso. apply Hb, Hz. lia.
Qed.

Lemma run_loop_ok n : ∀ (i : nat) r, (i + n = 8)%nat → runs (Z.of_nat i) r →
  ∃ r', run_loop n (bytes_of bs) (Z.of_nat i) r = Ok r' ∧ runs 8 r'.
Proof.
  induction n as [|n IH]; intros i r Hi Hr; cbn [run_loop].
  { exists r. split; [done|]. by replace (Z.of_nat i) with 8 in Hr by lia. }
  destruct (drop_block i) as (b & Hb & _); [lia|]. destruct (get_block bs i b Hb) as [H1 H2].
  rewrite H1, ok_bind, H2, ok_bind.
  assert (Hblk : is_block b) by (by eapply Forall_lookup_1).
  assert (Hz : (Z.shiftr b 8 =? 0) && (Z.land b 255 =? 0) = true ↔ b = 0).
  { split; [|by intros ->]. intros H. zify_bool. unfold is_block in Hblk.
    change 255 with (Z.ones 8) in *. rewrite Z.land_ones in * by lia.
    rewrite Z.shiftr_div_pow2 in * by lia. pose proof (Z.div_mod b (2 ^ 8)). lia. }
  cbv zeta. replace (Z.of_nat i + 1) with (Z.of_nat (S i)) by lia. apply IH; [lia|].
  destruct (_ && _).
  - apply runs_zero; [|done]. by rewrite Hb, (proj1 Hz eq_refl).
  - apply runs_nonzero; [|done]. rewrite Hb. intros [= ->]. discriminate (proj2 Hz eq_refl).
Qed.

Lemma print_ok : ∃ i n, longest_zeros bs i n ∧ print_addr (bytes_of bs) = Ok (address_text bs i n).
Proof.
  destruct (run_loop_ok 8 0 (mkrun 0 0 0 0)) as (r & Hr & [_ _ _ (Hs0 & Hl0 & Hle) Hz Hlong]); [done| |].
  { split; simpl; try done; try lia; intros; try (intros j Hj); lia. }
  destruct r as [ls ll cs cl]. cbn [largest_start largest_len] in *.
  set (s := Z.to_nat ls). set (k := Z.to_nat ll). exists s, k. split.
  { split; [lia|intros j Hj; apply Hz; lia|]. intros a m Ha Hm. destruct m as [|m]; [lia|].
    destruct (Hlong (Z.of_nat a) (Z.of_nat (S m))) as [H1 H2]; [lia|lia|lia|intros j Hj; apply Hm; lia|]. lia. }
  unfold print_addr, address_text. change (Z.of_nat 0) with 0 in Hr. rewrite Hr, ok_bind.
  cbn [largest_len largest_start]. destruct (Z.ltb_spec 1 ll); [rewrite decide_True by lia | rewrite decide_False by lia].
  - fold s. pose proof (print_blocks_ok s [] (str ":") 0 ltac:(lia)) as Hp.
    change (Z.of_nat 0) with 0 in Hp. rewrite Hp, ok_bind.
    replace (ls + ll) with (Z.of_nat (s + k)) by lia.
    rewrite print_blocks_ok, ok_bind by lia. f_equal. cbn [drop].
    replace (Z.to_nat (8 - Z.of_nat (s + k))) with (List.length (drop (s + k) bs)) by
      (rewrite length_drop; lia).
    change (drop 0 bs) with bs. rewrite (take_ge (drop (s + k) bs)) by done. rewrite <- compressed_text. f_equal. f_equal; [|f_equal].
    + pose proof (length_take bs s) as Ht. destruct (Z.eqb_spec ls 0), (take s bs); simpl in Ht; try done; lia.
    + pose proof (length_drop bs (s + k)) as Ht.
      destruct (Z.eqb_spec (Z.of_nat (s + k)) 8), (drop (s + k) bs); simpl in Ht; try done; lia.
  - rewrite (print_joined_S 7). destruct (drop_block 0) as (b & Hb & Hd); [lia|].
    pose proof (block_at_ok 0 b Hb) as Hat. change (Z.of_nat 0) with 0 in Hat. rewrite Hat, ok_bind.
    change (0 + 1) with (Z.of_nat 1). rewrite print_joined_ok, ok_bind by lia.
    rewrite drop_0 in Hd. rewrite Hd at 2. rewrite take_ge by (rewrite length_drop; lia). done.
Qed.

(** The blocks around the run. *)
Lemma around_zeros i n : longest_zeros bs i n → bs = take i bs ++ replicate n 0 ++ drop (i + n) bs.
Proof.
  intros [Hin Hz _]. rewrite <- (take_drop i bs) at 1. f_equal. rewrite <- drop_drop.
  rewrite <- (take_drop n (drop i bs)) at 1. f_equal.
  apply list_eq. intros j. destruct (decide (j < n)%nat).
  - rewrite lookup_take_lt, lookup_drop, lookup_replicate_2 by lia. apply Hz. lia.
  - transitivity (@None Z); [apply lookup_ge_None; rewrite length_take; lia|].
    symmetry. apply lookup_replicate_None. lia.
Qed.
End printing.

Lemma bytes_of_zeros k : bytes_of (replicate k 0) = replicate (2 * k) 0.
Proof.
  induction k as [|k IH]; [done|]. replace (2 * S k)%nat with (S (S (2 * k))) by lia.
  cbn [replicate]. change (bytes_of (0 :: ?l)) with (0 :: 0 :: bytes_of l). by rewrite IH.
Qed.

Lemma concat_no_slash (f : Z → list Z) Q :
  Forall is_block Q → (∀ b, is_block b → ch "/" ∉ f b) → ch "/" ∉ concat (f <$> Q).
Proof.
  intros HQ Hf. induction HQ as [|q Q Hq _ IH]; [apply not_elem_of_nil|].
  cbn [fmap list_fmap concat]. rewrite not_elem_of_app. auto.
Qed.

Lemma not_in_one (c d : Z) : c ≠ d → c ∉ [d].
Proof. intros H. apply not_elem_of_cons. split; [done | apply not_elem_of_nil]. Qed.

Lemma print_no_slash B Q :
  Forall is_block B → Forall is_block Q → (ch "/" ∉ compressed B Q) ∧ (ch "/" ∉ joined Q).
Proof.
  intros HB HQ.
  assert (Hhex : ∀ b, is_block b → ch "/" ∉ print_hex16 b).
  { intros b Hb. by destruct (block_checks b Hb) as (_ & _ & _ & _ & ?). }
  assert (Hj : ch "/" ∉ joined Q).
  { destruct HQ as [|q Q Hq HQ]; [apply not_elem_of_nil|]. unfold joined. rewrite not_elem_of_app.
    split; [auto|]. apply concat_no_slash; [done|]. intros b Hb.
    apply not_elem_of_cons. split; [done | auto]. }
  split; [|done]. unfold compressed. rewrite not_elem_of_app. split; [|done].
  destruct HB as [|b B Hb HB]; [by apply not_elem_of_cons; split; [|apply not_in_one]|].
  unfold before_double. rewrite not_elem_of_app. split; [|by apply not_in_one].
  apply concat_no_slash; [by constructor|]. intros x Hx. rewrite not_elem_of_app.
  split; [auto | by apply not_in_one].
Qed.

Lemma print_parse a out0 :
  List.length a = 16%nat → Forall is_byte a → List.length out0 = 16%nat →
  ∃ bs i n, a = bytes_of bs ∧ longest_zeros bs i n ∧ print_addr a = Ok (address_text bs i n) ∧
    parse_addr_bin (address_text bs i n) out0 = Ok (Some a) ∧ (ch "/" ∉ address_text bs i n).
Proof.
  intros Hl Ha Hout. destruct (bytes_blocks a Hl Ha) as (bs & Hlb & Hb & ->).
  destruct (print_ok bs Hlb Hb) as (i & n & Hlz & Hp). exists bs, i, n. do 3 (split; [done|]).
  unfold address_text. destruct (decide (2 ≤ n)%nat) as [Hn|Hn].
  - pose proof (around_zeros bs Hlb i n Hlz) as Hbs. set (B := take i bs) in *. set (Q := drop (i + n) bs) in *.
    clearbody B Q. rewrite Hbs, !Forall_app in Hb. destruct Hb as (HB & _ & HQ).
    rewrite Hbs, !length_app, length_replicate in Hlb. split; [|by apply print_no_slash].
    rewrite parse_compressed by (done || lia).
    rewrite Hbs, !bytes_of_app, bytes_of_zeros. do 5 f_equal. lia.
  - split; [by apply parse_joined|]. by apply (print_no_slash [] bs).
Qed.

(** C39: The text printed for an IPv6 address is that of its blocks in hexadecimal, with the
    first of the longest runs of zero blocks compressed if it has at least two blocks and
    nothing compressed otherwise; it parses back to the address, and so does the text of an
    interface address with its prefix. *)
Theorem ipv6_roundtrip a p out0 :
  List.length a = 16%nat → Forall is_byte a → 0 ≤ p ≤ 128 → List.length out0 = 16%nat →
  ∃ s t, print_addr a = Ok s ∧ parse_addr_bin s out0 = Ok (Some a) ∧
    print_ifaddr (mkif a p) = Ok t ∧ parse_ifaddr_bin t out0 = Ok (Some (mkif a p)) ∧
    ∃ bs i n, a = bytes_of bs ∧ longest_zeros bs i n ∧ s = address_text bs i n.
Proof.
  intros Hl Ha Hp Hout. destruct (print_parse a out0 Hl Ha Hout) as (bs & i & n & Hbs & Hlz & Hs & Hpa & Hslash).
  set (s := address_text bs i n) in *. exists s, (s ++ str "/" ++ print_dec p). split; [done|]. split; [done|].
  unfold print_ifaddr, parse_ifaddr_bin. cbn [prefix addr]. do 2 run_assert. rewrite Hs, ok_bind.
  split; [done|]. change (str "/") with [ch "/"]. cbn [app].
  rewrite IPv4Facts.find_char_skip, Nat2Z.id, take_app_length, Hpa, ok_bind by done.
  replace (Z.to_nat (Z.of_nat (List.length s) + 1)) with (List.length s + 1)%nat by lia.
  rewrite drop_app_add. cbn [drop]. rewrite drop_0. unfold parse_prefix_bin.
  destruct (IPv4Facts.print_dec_byte p) as (_ & -> & _); [split; lia|]. cbn [mbind option_bind].
  rewrite (proj2 (Z.ltb_ge _ _)) by lia. split; [done|]. by exists bs, i, n.
Qed.

Lemma ipv6_roundtrip_witness :
  ∃ s, print_addr [32; 1; 13; 184; 0; 0; 0; 0; 0; 0; 0; 0; 0; 0; 255; 1] = Ok s ∧
    parse_addr_bin s (replicate 16 7)
    = Ok (Some [32; 1; 13; 184; 0; 0; 0; 0; 0; 0; 0; 0; 0; 0; 255; 1]).
Proof.
  destruct (ipv6_roundtrip [32; 1; 13; 184; 0; 0; 0; 0; 0; 0; 0; 0; 0; 0; 255; 1] 64 (replicate 16 7))
    as (s & t & H1 & H2 & _);
    [done | eapply bool_decide_eq_true_1; vm_compute; reflexivity | lia | done |].
  exists s. split; [exact H1 | exact H2].
Defined.

Lemma ipv6_parse_safe_witness :
  good_result (parse_addr_bin (str "1:2:3:4:5:6:7::8:9:999.1") (replicate 16 7)).
Proof.
  destruct (ipv6_parse_safe (str "1:2:3:4:5:6:7::8:9:999.1") (replicate 16 7)) as [H _];
    [done | eapply bool_decide_eq_true_1; vm_compute; reflexivity | exact H].
Defined.

(** ** Masks *)

(** The mask of a prefix length. *)
Definition mask_bytes (p : Z) : list Z :=
  let m := replicate (Z.to_nat (p / 8)) 255 ++ replicate (Z.to_nat (16 - p / 8)) 0 in
  if 0 <? p mod 8 then <[Z.to_nat (p / 8) := mask_bits (Z.to_nat (p mod 8)) 0 0]> m else m.

Lemma mask6_from_prefix_ok p mask0 :
  0 ≤ p ≤ 128 → List.length mask0 = 16%nat → mask_from_prefix p mask0 = Ok (mask_bytes p).
Proof.
  intros Hp Hl. unfold mask_from_prefix. do 2 run_assert.
  pose proof (Z.div_mod p 8 ltac:(lia)). pose proof (Z.mod_pos_bound p 8 ltac:(lia)).
  set (q := p / 8) in *. set (r := p mod 8) in *.
  assert (Hfill : (m ← (if 0 <? q then set_bytes mask0 0 UINT8_MAX q else Ok mask0);
                   if 0 <? 16 - q then set_bytes m q 0 (16 - q) else Ok m)
                  = Ok (replicate (Z.to_nat q) 255 ++ replicate (Z.to_nat (16 - q)) 0)).
  { assert (Hm : ∀ rest, List.length rest = Z.to_nat (16 - q) →
      (if 0 <? 16 - q then set_bytes (replicate (Z.to_nat q) 255 ++ rest) q 0 (16 - q)
       else Ok (replicate (Z.to_nat q) 255 ++ rest))
      = Ok (replicate (Z.to_nat q) 255 ++ replicate (Z.to_nat (16 - q)) 0)).
    { intros rest Hr. destruct (Z.ltb_spec 0 (16 - q)).
      - rewrite set_bytes_ok by (rewrite ?length_app, ?length_replicate; lia).
        rewrite take_app_length' by (by rewrite length_replicate).
        rewrite drop_ge by (rewrite length_app, length_replicate; lia). by rewrite app_nil_r.
      - destruct rest; [|simpl in Hr; lia]. by replace (Z.to_nat (16 - q)) with 0%nat by lia. }
    destruct (Z.ltb_spec 0 q).
    - rewrite set_bytes_ok, ok_bind by lia. unfold UINT8_MAX. change (take (Z.to_nat 0) mask0) with (@nil Z).
      rewrite app_nil_l. apply Hm. rewrite length_drop. lia.
    - rewrite ok_bind. assert (q = 0) as -> by lia. apply (Hm mask0). lia. }
  destruct (if 0 <? q then _ else _) as [m1|f]; [|done].
  rewrite ok_bind in Hfill |- *. rewrite Hfill, ok_bind. unfold mask_bytes. fold q r.
  destruct (Z.ltb_spec 0 r); [|done].
  assert (Hq : (replicate (Z.to_nat q) 255 ++ replicate (Z.to_nat (16 - q)) 0) !! Z.to_nat q = Some 0).
  { rewrite lookup_app_r, length_replicate, Nat.sub_diag by (by rewrite length_replicate).
    apply lookup_replicate_2. lia. }
  apply get_byte_ok in Hq. rewrite Z2Nat.id in Hq by lia. rewrite Hq, ok_bind.
  apply set_byte_ok. rewrite length_app, !length_replicate. lia.
Qed.

Lemma prefix_of_mask6 p : 0 ≤ p ≤ 128 → prefix_from_mask (mask_bytes p) = Some p.
Proof.
  intros Hp.
  assert (Hc : forall_upto 129 (λ p, bool_decide (prefix_from_mask (mask_bytes p) = Some p)) = true)
    by (vm_compute; reflexivity).
  eapply bool_decide_eq_true_1, (forall_upto_ok _ _ p Hc). lia.
Qed.

Lemma full_bytes_ok mask :
  mask = replicate (full_bytes mask) 255 ++ drop (full_bytes mask) mask ∧
  head (drop (full_bytes mask) mask) ≠ Some 255.
Proof.
  induction mask as [|b mask [IH1 IH2]]; [done|]. cbn [full_bytes]. unfold UINT8_MAX.
  destruct (Z.eqb_spec b 255) as [->|Hne]; cbn [replicate drop app head].
  - split; [by f_equal | done].
  - split; [done | congruence].
Qed.

Lemma bits_loop_ok b :
  is_byte b → b ≠ 255 → bits_loop 9 b 0 0 ≤ 8 →
  0 ≤ bits_loop 9 b 0 0 < 8 ∧ b = mask_bits (Z.to_nat (bits_loop 9 b 0 0)) 0 0.
Proof.
  intros Hb Hne Hle.
  assert (Hc : forall_upto 256 (λ b, let j := bits_loop 9 b 0 0 in
    (b =? 255) || (8 <? j) || ((0 <=? j) && (j <? 8) && (b =? mask_bits (Z.to_nat j) 0 0))) = true)
    by (vm_compute; reflexivity).
  apply forall_upto_ok with (x := b) in Hc; [|exact Hb]. cbv zeta beta in Hc.
  apply orb_true_iff in Hc as [[Hc|Hc]%orb_true_iff|Hc]; zify_bool; lia.
Qed.

Lemma mask_of_prefix6 m q :
  List.length m = 16%nat → Forall is_byte m → prefix_from_mask m = Some q → 0 ≤ q ≤ 128 ∧ m = mask_bytes q.
Proof.
  intros Hl Hb Hq. unfold prefix_from_mask in Hq. destruct (full_bytes_ok m) as [Hm Hh].
  set (i := full_bytes m) in *.
  assert (Hi : (i + List.length (drop i m) = 16)%nat).
  { rewrite Hm in Hl. by rewrite length_app, length_replicate in Hl. }
  assert (Hbd : Forall is_byte (drop i m)) by by apply Forall_drop.
  destruct (drop i m) as [|b rest].
  - injection Hq as <-. simpl in Hi. assert (i = 16%nat) as Hi16 by lia. rewrite Hi16 in *.
    split; [done|]. by rewrite Hm.
  - pose proof (Forall_inv Hbd) as Hbb.
    pose proof (bits_loop_ok b Hbb ltac:(intros ->; by apply Hh)) as Hj.
    remember (bits_loop 9 b 0 0) as j eqn:Ej. clear Ej.
    destruct (Z.leb_spec j 8); cbn [negb] in Hq; [|done]. destruct (Hj ltac:(done)) as [Hj1 Hj2].
    destruct (forallb _ rest) eqn:Hz; [|done]. injection Hq as <-. cbn [List.length] in Hi.
    assert (rest = replicate (List.length rest) 0) as Hrest.
    { clear -Hz. induction rest as [|x rest IH]; [done|].
      simpl in Hz. apply andb_true_iff in Hz as [->%Z.eqb_eq Hz]. simpl. f_equal. auto. }
    split; [lia|]. unfold mask_bytes.
    replace ((8 * Z.of_nat i + j) / 8) with (Z.of_nat i) by (rewrite Z.mul_comm, Z.div_add_l, Z.div_small; lia).
    replace ((8 * Z.of_nat i + j) mod 8) with j by
      (rewrite Z.add_comm, Z.mul_comm, Z.mod_add, Z.mod_small; lia).
    rewrite Nat2Z.id. replace (Z.to_nat (16 - Z.of_nat i)) with (S (List.length rest)) by lia.
    rewrite Hm at 1. rewrite Hrest at 1. rewrite Hj2 at 1. cbn [replicate].
    destruct (Z.ltb_spec 0 j).
    + rewrite insert_app_r_alt by (rewrite length_replicate; lia). by rewrite length_replicate, Nat.sub_diag.
    + by assert (j = 0) as -> by lia.
Qed.

(** The number an address is, most significant byte first. *)
Definition be_value (a : list Z) : Z := foldl (λ v b, 256 * v + b) 0 a.

Lemma be_value_snoc a b : be_value (a ++ [b]) = 256 * be_value a + b.
Proof. unfold be_value. by rewrite foldl_app. Qed.

Lemma be_value_app a b :
  be_value (a ++ b) = be_value a * 256 ^ Z.of_nat (List.length b) + be_value b.
Proof.
  induction b as [|x b IH] using rev_ind; [rewrite app_nil_r; change (be_value []) with 0; simpl; lia|].
  rewrite app_assoc, !be_value_snoc, IH, length_app. cbn [List.length].
  rewrite Nat2Z.inj_add, Z.pow_add_r by lia. change (256 ^ Z.of_nat 1) with 256. lia.
Qed.

Lemma be_value_bound a : Forall is_byte a → 0 ≤ be_value a < 256 ^ Z.of_nat (List.length a).
Proof.
  induction a as [|x a IH] using rev_ind; [done|]. intros [Ha Hx]%Forall_app.
  apply Forall_inv in Hx. unfold is_byte in Hx. specialize (IH Ha).
  rewrite be_value_snoc, length_app. cbn [List.length].
  rewrite Nat2Z.inj_add, Z.pow_add_r by lia. change (256 ^ Z.of_nat 1) with 256. lia.
Qed.

Lemma be_value_inj a b :
  List.length a = List.length b → Forall is_byte a → Forall is_byte b → be_value a = be_value b → a = b.
Proof.
  revert b. induction a as [|x a IH] using rev_ind; intros b Hl Ha Hb He.
  - by destruct b.
  - destruct b as [|y b _] using rev_ind; [rewrite length_app in Hl; simpl in Hl; lia|].
    rewrite !length_app in Hl. apply Forall_app in Ha as [Ha Hx], Hb as [Hb Hy].
    apply Forall_inv in Hx, Hy. unfold is_byte in Hx, Hy. rewrite !be_value_snoc in He.
    assert (x = y) as -> by lia. f_equal. apply IH; try done; simpl in *; lia.
Qed.

(** The first bits of a number that ends in these bytes. *)
Lemma be_value_high u x v k :
  Forall is_byte v → 0 ≤ k ≤ 8 →
  be_value (u ++ x :: v) / 2 ^ (8 * Z.of_nat (List.length v) + k)
  = be_value u * 2 ^ (8 - k) + x / 2 ^ k.
Proof.
  intros Hv Hk. rewrite (cons_middle x u), app_assoc, be_value_app, be_value_snoc.
  pose proof (be_value_bound v Hv) as Hb.
  rewrite Z.pow_add_r, Z.pow_mul_r by lia. change (2 ^ 8) with 256.
  pose proof (Z.pow_pos_nonneg 2 k ltac:(lia) ltac:(lia)).
  rewrite <- Z.div_div, Z.div_add_l, (Z.div_small (be_value v)), Z.add_0_r by lia.
  replace 256 with (2 ^ (8 - k) * 2 ^ k) by (rewrite <- Z.pow_add_r by lia; by replace (8 - k + k) with 8 by lia).
  replace (2 ^ (8 - k) * 2 ^ k * be_value u) with (be_value u * 2 ^ (8 - k) * 2 ^ k) by lia.
  by rewrite Z.div_add_l by lia.
Qed.

Lemma mask_bits_value r : 0 ≤ r ≤ 8 → mask_bits (Z.to_nat r) 0 0 = 2 ^ 8 - 2 ^ (8 - r).
Proof.
  intros Hr.
  assert (Hc : forall_upto 9 (λ r, mask_bits (Z.to_nat r) 0 0 =? 2 ^ 8 - 2 ^ (8 - r)) = true)
    by (vm_compute; reflexivity).
  apply Z.eqb_eq. apply (forall_upto_ok _ _ r Hc). lia.
Qed.

Lemma in_network6 p a b :
  0 ≤ p ≤ 128 → List.length a = 16%nat → List.length b = 16%nat → Forall is_byte a → Forall is_byte b →
  addrs_in_network a b p = Ok (be_value a / 2 ^ (128 - p) =? be_value b / 2 ^ (128 - p)).
Proof.
  intros Hp Hla Hlb Ha Hb. unfold addrs_in_network. do 2 run_assert.
  pose proof (Z.div_mod p 8 ltac:(lia)) as Hdm. pose proof (Z.mod_pos_bound p 8 ltac:(lia)) as Hr.
  set (q := p / 8) in *. set (r := p mod 8) in *.
  assert (Hte : memcmp (take (Z.to_nat q) a) (take (Z.to_nat q) b) = 0 ↔
                be_value (take (Z.to_nat q) a) = be_value (take (Z.to_nat q) b)).
  { rewrite memcmp_eq by (rewrite !length_take; lia). split; [by intros ->|].
    apply be_value_inj; [rewrite !length_take; lia | by apply Forall_take..]. }
  destruct (decide (q = 16)) as [Hq|Hq].
  { rewrite Hq in *. assert (r = 0) as Hr0 by lia. rewrite Hr0. assert (p = 128) as -> by lia.
    rewrite Z.sub_diag, Z.pow_0_r, !Z.div_1_r. rewrite !take_ge in * by lia.
    destruct (Z.eqb_spec (memcmp a b) 0) as [He|He]; cbn [negb]; f_equal; symmetry.
    - apply Z.eqb_eq. by apply Hte.
    - apply Z.eqb_neq. by rewrite <- Hte. }
  assert (Hsplit : ∀ a, List.length a = 16%nat → Forall is_byte a → ∃ x v,
    a = take (Z.to_nat q) a ++ x :: v ∧ a !! Z.to_nat q = Some x ∧ is_byte x ∧ Forall is_byte v ∧
    Z.of_nat (List.length v) = 15 - q).
  { clear a b Hla Hlb Ha Hb Hte. intros a Hla Ha.
    destruct (lookup_lt_is_Some_2 a (Z.to_nat q)) as [x Hx]; [lia|].
    exists x, (drop (S (Z.to_nat q)) a). split; [by rewrite (take_drop_middle _ _ _ Hx)|].
    split; [done|]. split; [by eapply Forall_lookup_1|]. split; [by apply Forall_drop|].
    rewrite length_drop. lia. }
  destruct (Hsplit a Hla Ha) as (x & v & Hea & Hxa & Hx & Hv & Hlv).
  destruct (Hsplit b Hlb Hb) as (y & w & Heb & Hyb & Hy & Hw & Hlw).
  assert (Hhigh : ∀ c z u, c = take (Z.to_nat q) c ++ z :: u → Forall is_byte u →
    Z.of_nat (List.length u) = 15 - q →
    be_value c / 2 ^ (128 - p) = be_value (take (Z.to_nat q) c) * 2 ^ r + z / 2 ^ (8 - r)).
  { intros c z u Hc Hu Hlu. rewrite Hc at 1.
    replace (128 - p) with (8 * Z.of_nat (List.length u) + (8 - r)) by lia.
    rewrite be_value_high by (done || lia). by replace (8 - (8 - r)) with r by lia. }
  rewrite (Hhigh a x v), (Hhigh b y w) by done.
  assert (Hxy : ∀ z, is_byte z → 0 ≤ z / 2 ^ (8 - r) < 2 ^ r).
  { intros z Hz. unfold is_byte in Hz. pose proof (Z.pow_pos_nonneg 2 (8 - r) ltac:(lia) ltac:(lia)).
    split; [apply Z.div_pos; lia|]. apply Z.div_lt_upper_bound; [lia|].
    rewrite <- Z.pow_add_r by lia. replace (8 - r + r) with 8 by lia. lia. }
  pose proof (Hxy x Hx). pose proof (Hxy y Hy).
  destruct (Z.eqb_spec (memcmp (take (Z.to_nat q) a) (take (Z.to_nat q) b)) 0) as [He|He]; cbn [negb].
  - apply Hte in He. rewrite He.
    assert (Heq : (be_value (take (Z.to_nat q) b) * 2 ^ r + x / 2 ^ (8 - r) =?
      be_value (take (Z.to_nat q) b) * 2 ^ r + y / 2 ^ (8 - r)) = (x / 2 ^ (8 - r) =? y / 2 ^ (8 - r))).
    { apply eq_true_iff_eq. rewrite !Z.eqb_eq. lia. }
    rewrite Heq. destruct (Z.eqb_spec r 0) as [Hr0|Hr0].
    + f_equal. symmetry. apply Z.eqb_eq. rewrite Hr0 in *. simpl in *. lia.
    + apply get_byte_ok in Hxa, Hyb. rewrite Z2Nat.id in Hxa, Hyb by lia.
      rewrite Hxa, ok_bind, Hyb, ok_bind. f_equal. rewrite mask_bits_value by lia.
      unfold is_byte in Hx, Hy. rewrite !IPv4Facts.land_high by lia.
      pose proof (Z.pow_pos_nonneg 2 (8 - r) ltac:(lia) ltac:(lia)).
      apply eq_true_iff_eq. rewrite !Z.eqb_eq, Z.mul_cancel_r by lia. done.
  - f_equal. symmetry. apply Z.eqb_neq. intros Heq. apply He, Hte.
    pose proof (Z.pow_pos_nonneg 2 r ltac:(lia) ltac:(lia)). nia.
Qed.

(** For IPv6: the mask of a prefix length gives that length back, a length found for a mask
    has that mask, and two addresses are found to be in one network exactly when their first
    bits agree. *)
Theorem ipv6_masks p m a b mask0 :
  0 ≤ p ≤ 128 → List.length mask0 = 16%nat →
  List.length m = 16%nat → List.length a = 16%nat → List.length b = 16%nat →
  Forall is_byte m → Forall is_byte a → Forall is_byte b →
  (∃ mask, mask_from_prefix p mask0 = Ok mask ∧ prefix_from_mask mask = Some p) ∧
  (∀ q, prefix_from_mask m = Some q → mask_from_prefix q mask0 = Ok m) ∧
  addrs_in_network a b p = Ok (be_value a / 2 ^ (128 - p) =? be_value b / 2 ^ (128 - p)).
Proof.
  intros Hp Hl0 Hlm Hla Hlb Hm Ha Hb. split; [|split].
  - exists (mask_bytes p). split; [by apply mask6_from_prefix_ok | by apply prefix_of_mask6].
  - intros q Hq. destruct (mask_of_prefix6 m q Hlm Hm Hq) as [Hq' ->]. by apply mask6_from_prefix_ok.
  - by apply in_network6.
Qed.

Lemma ipv6_masks_witness :
  addrs_in_network (replicate 15 1 ++ [2]) (replicate 16 1) 126 = Ok true ∧
  addrs_in_network (replicate 15 1 ++ [2]) (replicate 16 1) 127 = Ok false.
Proof.
  assert (H : ∀ p, 0 ≤ p ≤ 128 →
    addrs_in_network (replicate 15 1 ++ [2]) (replicate 16 1) p
    = Ok (be_value (replicate 15 1 ++ [2]) / 2 ^ (128 - p) =? be_value (replicate 16 1) / 2 ^ (128 - p))).
  { intros p Hp.
    apply (ipv6_masks p (replicate 16 0) (replicate 15 1 ++ [2]) (replicate 16 1) (replicate 16 7));
      try done; eapply bool_decide_eq_true_1; vm_compute; reflexivity. }
  split; rewrite H by lia; by vm_compute.
Defined.

End IPv6Facts.
