(* ===== verification/Addr.v ===== *)
(** * Socket addresses: system/BAddr.h

    The addresses the networking code passes around: an IP address [BIPAddr], and an IP address with
    a port, or a link-layer address, [BAddr] (the build defines [BADVPN_LINUX]).  A tagged union is
    an inductive type; a [type] that is none of the constants is the constructor [OTHER], so that
    the checks of the tag are those of the code.  IPv4 addresses and ports are integers in network
    byte order, as in the code.

    [CompareOrder], by which the UDP client keeps its connections in a tree, is a total order;
    printed addresses fit in the buffers the header asks for, and those of IPv4
    parse back.  [getaddrinfo] is a parameter. *)

From Stdlib Require Import Ascii String.
From S2P Require Import Prelude CMem Strings Numbers IpAddr IpAddr6.

Definition BADDR_TYPE_NONE : Z := 0.
Definition BADDR_TYPE_IPV4 : Z := 1.
Definition BADDR_TYPE_IPV6 : Z := 2.
Definition BADDR_TYPE_PACKET : Z := 5.

Definition BADDR_MAX_ADDR_LEN : Z := 128.
Definition BIPADDR_MAX_PRINT_LEN : Z := 40.
Definition BADDR_MAX_PRINT_LEN : Z := 120.
Definition BADDR_PACKET_HEADER_TYPE_ETHERNET : Z := 1.
Definition BADDR_PACKET_PACKET_TYPE_HOST : Z := 1.
Definition BADDR_PACKET_PACKET_TYPE_BROADCAST : Z := 2.
Definition BADDR_PACKET_PACKET_TYPE_MULTICAST : Z := 3.
Definition BADDR_PACKET_PACKET_TYPE_OTHERHOST : Z := 4.
Definition BADDR_PACKET_PACKET_TYPE_OUTGOING : Z := 5.

(** [ai_family] of the hints *)
Inductive family := AF_INET | AF_INET6.

(** [getaddrinfo(addr_str, NULL, &hints, &addrs)] with the hints [ai_family], and
    [AI_NUMERICHOST] if set: the bytes of the first address it returns, [None] for an error. *)
Abbreviation resolver := (list Z → family → bool → option (list Z)).

Module BIPAddr.

Inductive t :=
| NONE
| IPV4 (ipv4 : Z)
| IPV6 (ipv6 : list Z)
| OTHER (type : Z).

Definition InitInvalid : t := NONE.

Definition InitIPv4 (ip : Z) : t := IPV4 ip.

(** [ip] points to at least 16 bytes. *)
Definition InitIPv6 (ip : list Z) : t := IPV6 (take 16 ip).

Definition Assert (addr : t) : result unit :=
  match addr with
  | NONE | IPV4 _ | IPV6 _ => Ok tt
  | OTHER _ => Fault AssertFailed
  end.

Definition IsInvalid (addr : t) : result bool :=
  _ ← Assert addr;
  Ok match addr with NONE => true | _ => false end.

(** On failure the code has only set [type]; the address is not to be used. *)
Definition Resolve (getaddrinfo : resolver) (str : list Z) (noresolve : bool) : option t :=
  let len := Z.of_nat (length str) in
  let '(fam, addr_str) :=
    if (1 <=? len) && (nth 0 str 0 =? ch "[") && (nth (length str - 1) str 0 =? ch "]")
    then (AF_INET6, take (length str - 2) (drop 1 str)) else (AF_INET, str) in
  if BADDR_MAX_ADDR_LEN <? Z.of_nat (length addr_str) then None else
  bytes ← getaddrinfo addr_str fam noresolve;
  Some match fam with
       | AF_INET6 => IPV6 (take 16 bytes)
       | AF_INET => IPV4 (le_value (take 4 bytes))
       end.

Definition Compare (addr1 addr2 : t) : result bool :=
  _ ← Assert addr1;
  _ ← Assert addr2;
  match addr1, addr2 with
  | IPV4 a, IPV4 b => Ok (a =? b)
  | IPV6 a, IPV6 b => Ok (memcmp a b =? 0)
  | _, _ => Ok false
  end.

(** The characters [sprintf] writes before the terminating zero. *)
Definition Print (addr : t) : result (list Z) :=
  match addr with
  | NONE => Ok (str "(none)")
  | IPV4 ip =>
      let byte i := nth i (le_bytes 4 ip) 0 in
      Ok (print_dec (byte 0%nat) ++ str "." ++ print_dec (byte 1%nat) ++ str "."
          ++ print_dec (byte 2%nat) ++ str "." ++ print_dec (byte 3%nat))
  | IPV6 ip => IPv6.print_joined 8 ip 0 []
  | OTHER _ => Fault AssertFailed
  end.

End BIPAddr.

Module BAddr.

Record packet_addr := mkp {
  phys_proto : Z;
  interface_index : Z;
  header_type : Z;
  packet_type : Z;
  phys_addr : list Z;
}.

Inductive t :=
| NONE
| IPV4 (ip : Z) (port : Z)
| IPV6 (ip : list Z) (port : Z)
| PACKET (packet : packet_addr)
| OTHER (type : Z).

Definition type_of (addr : t) : Z :=
  match addr with
  | NONE => BADDR_TYPE_NONE
  | IPV4 _ _ => BADDR_TYPE_IPV4
  | IPV6 _ _ => BADDR_TYPE_IPV6
  | PACKET _ => BADDR_TYPE_PACKET
  | OTHER type => type
  end.

Definition MakeNone : t := NONE.

Definition MakeIPv4 (ip port : Z) : t := IPV4 ip port.

Definition MakeIPv6 (ip : list Z) (port : Z) : t := IPV6 (take 16 ip) port.

Definition MakeFromIpaddrAndPort (ipaddr : BIPAddr.t) (port : Z) : result t :=
  _ ← BIPAddr.Assert ipaddr;
  match ipaddr with
  | BIPAddr.NONE => Ok MakeNone
  | BIPAddr.IPV4 ip => Ok (MakeIPv4 ip port)
  | BIPAddr.IPV6 ip => Ok (MakeIPv6 ip port)
  | BIPAddr.OTHER _ => Fault AssertFailed
  end.

Definition InitNone : t := MakeNone.

Definition InitIPv4 (ip port : Z) : t := MakeIPv4 ip port.

Definition InitIPv6 (ip : list Z) (port : Z) : t := MakeIPv6 ip port.

Definition InitFromIpaddrAndPort (ipaddr : BIPAddr.t) (port : Z) : result t :=
  _ ← BIPAddr.Assert ipaddr;
  MakeFromIpaddrAndPort ipaddr port.

(** Six of the eight bytes of [phys_addr] are written. *)
Definition InitPacket (proto index htype ptype : Z) (phys rest : list Z) : result t :=
  ASSERT (htype =? BADDR_PACKET_HEADER_TYPE_ETHERNET) ;;
  ASSERT ((ptype =? BADDR_PACKET_PACKET_TYPE_HOST) || (ptype =? BADDR_PACKET_PACKET_TYPE_BROADCAST)
          || (ptype =? BADDR_PACKET_PACKET_TYPE_MULTICAST)
          || (ptype =? BADDR_PACKET_PACKET_TYPE_OTHERHOST)
          || (ptype =? BADDR_PACKET_PACKET_TYPE_OUTGOING)) ;;
  Ok (PACKET (mkp proto index htype ptype (take 6 phys ++ rest))).

Definition Assert (addr : t) : result unit :=
  match addr with
  | NONE | IPV4 _ _ | IPV6 _ _ | PACKET _ => Ok tt
  | OTHER _ => Fault AssertFailed
  end.

Definition IsInvalid (addr : t) : result bool :=
  _ ← Assert addr;
  Ok match addr with NONE => true | _ => false end.

Definition GetPort (addr : t) : result Z :=
  _ ← Assert addr;
  ASSERT ((type_of addr =? BADDR_TYPE_IPV4) || (type_of addr =? BADDR_TYPE_IPV6)) ;;
  match addr with
  | IPV4 _ port => Ok port
  | IPV6 _ port => Ok port
  | _ => Fault AssertFailed
  end.

Definition GetIPAddr (addr : t) : result BIPAddr.t :=
  _ ← Assert addr;
  Ok match addr with
     | IPV4 ip _ => BIPAddr.InitIPv4 ip
     | IPV6 ip _ => BIPAddr.InitIPv6 ip
     | _ => BIPAddr.InitInvalid
     end.

Definition SetPort (addr : t) (port : Z) : result t :=
  _ ← Assert addr;
  ASSERT ((type_of addr =? BADDR_TYPE_IPV4) || (type_of addr =? BADDR_TYPE_IPV6)) ;;
  match addr with
  | IPV4 ip _ => Ok (IPV4 ip port)
  | IPV6 ip _ => Ok (IPV6 ip port)
  | _ => Fault AssertFailed
  end.

(** [%d] and [%02x] *)
Definition print_int (x : Z) : list Z := if x <? 0 then ch "-" :: print_dec (- x) else print_dec x.

Definition print_hex02 (x : Z) : list Z := [hex_char (x / 16); hex_char (x mod 16)].

Definition Print (addr : t) : result (list Z) :=
  _ ← Assert addr;
  match addr with
  | NONE => Ok (str "(none)")
  | IPV4 ip port =>
      s ← BIPAddr.Print (BIPAddr.InitIPv4 ip);
      Ok (s ++ str ":" ++ print_dec (ntoh16 port))
  | IPV6 ip port =>
      s ← BIPAddr.Print (BIPAddr.InitIPv6 ip);
      Ok (s ++ str ":" ++ print_dec (ntoh16 port))
  | PACKET p =>
      ASSERT (header_type p =? BADDR_PACKET_HEADER_TYPE_ETHERNET) ;;
      let byte i := print_hex02 (nth i (phys_addr p) 0) in
      Ok (str "proto=" ++ print_dec (phys_proto p) ++ str ",ifindex=" ++ print_int (interface_index p)
          ++ str ",htype=eth,ptype=" ++ print_int (packet_type p) ++ str ",addr="
          ++ byte 0%nat ++ str ":" ++ byte 1%nat ++ str ":" ++ byte 2%nat ++ str ":"
          ++ byte 3%nat ++ str ":" ++ byte 4%nat ++ str ":" ++ byte 5%nat)
  | OTHER _ => Fault AssertFailed
  end.

(** [while (i < len && str[i] != c) i++], from the start of the string. *)
Fixpoint scan (c : Z) (s : list Z) : nat :=
  match s with
  | [] => O
  | x :: s => if x =? c then O else S (scan c s)
  end.

(** The family, the address and the port of a string, as substrings. *)
Definition split (s : list Z) : option (family * list Z * list Z) :=
  if nth 0 s 0 =? ch "[" then
    let i := S (scan (ch "]") (drop 1 s)) in
    if (length s <=? i)%nat then None else
    if (length s <=? i + 1)%nat || negb (nth (i + 1) s 0 =? ch ":") then None else
    Some (AF_INET6, take (i - 1) (drop 1 s), drop (i + 2) s)
  else
    let i := scan (ch ":") s in
    if (length s <=? i)%nat then None else
    Some (AF_INET, take i s, drop (i + 1) s).

(** [strtol(s, &err, 10)]: the value, and the rest of the string at [err]. *)
Definition isspace (c : Z) : bool := (c =? 32) || ((9 <=? c) && (c <=? 13)).

Fixpoint skip_spaces (s : list Z) : list Z :=
  match s with
  | c :: s' => if isspace c then skip_spaces s' else s
  | [] => []
  end.

Fixpoint strtol_digits (s : list Z) (n : Z) : Z * list Z :=
  match s with
  | c :: s' => if decode_decimal_digit c <? 0 then (n, s)
               else strtol_digits s' (10 * n + decode_decimal_digit c)
  | [] => (n, [])
  end.

Definition strtol (s : list Z) : Z * list Z :=
  let '(sign, s1) := match skip_spaces s with
                     | c :: s' => if c =? ch "-" then (-1, s') else if c =? ch "+" then (1, s')
                                  else (1, c :: s')
                     | [] => (1, [])
                     end in
  match s1 with
  | c :: _ => if decode_decimal_digit c <? 0 then (0, s) else
              let '(n, rest) := strtol_digits s1 0 in
              (Z.max (- INT_MAX - 1) (Z.min INT_MAX (sign * n)), rest)
  | [] => (0, s)
  end.

(** The port of a string, in network order. *)
Definition parse_port (port_str : list Z) : option Z :=
  let '(conv_res, err) := strtol port_str in
  if (match port_str with [] => true | _ => false end)
     || negb (match err with [] => true | _ => false end) then None else
  if (conv_res <? 0) || (UINT16_MAX <? conv_res) then None else
  Some (hton16 (to_u16 conv_res)).

(** [name_len] is [None] for a NULL [name]; the result has what is stored in [name]. *)
Definition Parse2 (getaddrinfo : resolver) (s : list Z) (name_len : option Z) (noresolve : bool)
    : option (t * list Z) :=
  let len := Z.of_nat (length s) in
  if (len <? 1) || (1000 <? len) then None else
  '(fam, addr_str, port_str) ← split s;
  if 128 <=? Z.of_nat (length addr_str) then None else
  if 6 <=? Z.of_nat (length port_str) then None else
  port ← parse_port port_str;
  bytes ← getaddrinfo addr_str fam noresolve;
  let addr := match fam with
              | AF_INET6 => IPV6 (take 16 bytes) port
              | AF_INET => IPV4 (le_value (take 4 bytes)) port
              end in
  match name_len with
  | None => Some (addr, [])
  | Some n => if to_size n <=? Z.of_nat (length addr_str) then None else Some (addr, addr_str)
  end.

Definition Parse (getaddrinfo : resolver) (s : list Z) (name_len : option Z) : option (t * list Z) :=
  Parse2 getaddrinfo s name_len false.

Definition Compare (addr1 addr2 : t) : result bool :=
  _ ← Assert addr1;
  _ ← Assert addr2;
  match addr1, addr2 with
  | IPV4 ip1 port1, IPV4 ip2 port2 => Ok ((ip1 =? ip2) && (port1 =? port2))
  | IPV6 ip1 port1, IPV6 ip2 port2 => Ok ((memcmp ip1 ip2 =? 0) && (port1 =? port2))
  | _, _ => Ok false
  end.

Definition CompareOrder (addr1 addr2 : t) : result Z :=
  _ ← Assert addr1;
  _ ← Assert addr2;
  let cmp := B_COMPARE (type_of addr1) (type_of addr2) in
  if negb (cmp =? 0) then Ok cmp else
  Ok match addr1, addr2 with
     | IPV4 ip1 port1, IPV4 ip2 port2 =>
         let cmp := B_COMPARE (ntoh32 ip1) (ntoh32 ip2) in
         if negb (cmp =? 0) then cmp else B_COMPARE (ntoh16 port1) (ntoh16 port2)
     | IPV6 ip1 port1, IPV6 ip2 port2 =>
         let cmp := memcmp ip1 ip2 in
         if negb (cmp =? 0) then B_COMPARE cmp 0 else B_COMPARE (ntoh16 port1) (ntoh16 port2)
     | _, _ => 0
     end.

#[global] Instance packet_addr_eq_dec : EqDecision packet_addr.
Proof. solve_decision. Defined.

#[global] Instance eq_dec : EqDecision t.
Proof. solve_decision. Defined.

End BAddr.

Example parse_example :
  BAddr.Parse2 (λ s fam nr, le_bytes 4 <$> IPv4.parse_addr_bin s) (str "10.0.0.1: +80") None true
  = Some (BAddr.IPV4 (10 + 256 ^ 3) (hton16 80), []).
Proof. vm_compute. reflexivity. Qed.

Module AddrFacts.
Import BAddr NumberSpec NumberFacts.

(** ** The order *)

(** The lexicographic order of lists, as a comparison function. *)
Fixpoint lex (a b : list Z) : Z :=
  match a, b with
  | [], [] => 0
  | [], _ => -1
  | _, [] => 1
  | x :: a, y :: b => if x =? y then lex a b else B_COMPARE x y
  end.

Lemma b_compare_cases x y :
  (x < y ∧ B_COMPARE x y = -1) ∨ (x = y ∧ B_COMPARE x y = 0) ∨ (y < x ∧ B_COMPARE x y = 1).
Proof. unfold B_COMPARE. destruct (Z.ltb_spec y x), (Z.ltb_spec x y); simpl; lia. Qed.

Lemma lex_eq a : ∀ b, lex a b = 0 ↔ a = b.
Proof.
  induction a as [|x a IH]; intros [|y b]; simpl; try (split; (lia || done)).
  destruct (Z.eqb_spec x y) as [->|Hne].
  - rewrite IH. split; [by intros ->|by intros [= ->]].
  - pose proof (b_compare_cases x y). split; [lia | by intros [= ->]].
Qed.

Lemma lex_sym a : ∀ b, lex b a = - lex a b.
Proof.
  induction a as [|x a IH]; intros [|y b]; simpl; try done. rewrite (Z.eqb_sym y x), IH.
  case_if; [done|]. pose proof (b_compare_cases x y). pose proof (b_compare_cases y x). lia.
Qed.

Lemma lex_trans a : ∀ b c, lex a b ≤ 0 → lex b c ≤ 0 → lex a c ≤ 0.
Proof.
  induction a as [|x a IH]; intros [|y b] [|z c]; simpl; try lia.
  pose proof (b_compare_cases x y). pose proof (b_compare_cases y z). pose proof (b_compare_cases x z).
  destruct (Z.eqb_spec x y), (Z.eqb_spec y z), (Z.eqb_spec x z); try lia. apply IH.
Qed.

Lemma memcmp_lex u v : ∀ a b,
  length a = length b →
  (if negb (memcmp a b =? 0) then B_COMPARE (memcmp a b) 0 else B_COMPARE u v) = lex (a ++ [u]) (b ++ [v]).
Proof.
  induction a as [|x a IH]; intros [|y b] Hl; try done; simpl.
  - pose proof (b_compare_cases u v). case_if; [lia|done].
  - destruct (Z.eqb_spec x y) as [->|]; [apply IH; by injection Hl|].
    rewrite (proj2 (Z.eqb_neq (x - y) 0)) by lia. simpl.
    pose proof (b_compare_cases x y). pose proof (b_compare_cases (x - y) 0). lia.
Qed.

(** The numbers an address is compared by. *)
Definition key (a : t) : list Z :=
  type_of a :: match a with
               | IPV4 ip port => [ntoh32 ip; ntoh16 port]
               | IPV6 ip port => ip ++ [ntoh16 port]
               | _ => []
               end.

(** An IP address as the code makes them, or none. *)
Definition is_ip (a : t) : Prop :=
  match a with
  | NONE => True
  | IPV4 ip port => 0 ≤ ip < 2 ^ 32 ∧ 0 ≤ port < 2 ^ 16
  | IPV6 ip port => length ip = 16%nat ∧ Forall is_byte ip ∧ 0 ≤ port < 2 ^ 16
  | PACKET _ | OTHER _ => False
  end.

Lemma hton16_involutive x : 0 ≤ x < 2 ^ 16 → hton16 (hton16 x) = x ∧ 0 ≤ hton16 x < 2 ^ 16.
Proof.
  intros Hx. unfold hton16, badvpn_reverse16, to_u16. rewrite (Z.mod_small x) by done.
  cbn [le_bytes reverse rev_append app le_value]. unfold reverse. cbn [rev_append le_value].
  pose proof (Z.mod_pos_bound x 256 ltac:(lia)). pose proof (Z.mod_pos_bound (x / 256) 256 ltac:(lia)).
  set (b0 := x mod 256) in *. assert (Hb1 : x / 256 < 256) by (apply Z.div_lt_upper_bound; lia).
  rewrite (Z.mod_small (x / 256)) in * by (split; [apply Z.div_pos; lia | done]).
  assert (Hx' : x = 256 * (x / 256) + b0) by (apply Z.div_mod; lia). set (b1 := x / 256) in *.
  rewrite (Z.mod_small (b1 + 256 * (b0 + 256 * 0))) by lia.
  assert (Hm : (b1 + 256 * (b0 + 256 * 0)) mod 256 = b1).
  { replace (b1 + 256 * (b0 + 256 * 0)) with (b1 + b0 * 256) by lia.
    rewrite Z.mod_add by lia. apply Z.mod_small. lia. }
  assert (Hd : (b1 + 256 * (b0 + 256 * 0)) / 256 = b0).
  { replace (b1 + 256 * (b0 + 256 * 0)) with (b1 + b0 * 256) by lia.
    rewrite Z.div_add, Z.div_small by lia. lia. }
  rewrite Hm, Hd, (Z.mod_small b0) by lia. lia.
Qed.

Lemma key_inj a b : is_ip a → is_ip b → key a = key b → a = b.
Proof.
  intros Ha Hb. destruct a as [|ip port|ip port|p|n], b as [|ip' port'|ip' port'|p'|n']; try done;
    unfold key, type_of; intros Hk; try (by injection Hk).
  - injection Hk as Hi Hp. destruct Ha as [Ha1 Ha2], Hb as [Hb1 Hb2].
    apply (IPv4Facts.ntoh32_inj _ _ Ha1 Hb1) in Hi. unfold ntoh16 in Hp.
    apply (f_equal hton16) in Hp. rewrite (proj1 (hton16_involutive _ Ha2)), (proj1 (hton16_involutive _ Hb2)) in Hp. by subst.
  - injection Hk as Hk. apply app_inj_tail in Hk as [-> Hp]. destruct Ha as (_ & _ & Ha2), Hb as (_ & _ & Hb2).
    apply (f_equal hton16) in Hp. unfold ntoh16 in Hp.
    rewrite (proj1 (hton16_involutive _ Ha2)), (proj1 (hton16_involutive _ Hb2)) in Hp. by subst.
Qed.

Lemma order_lex a b : is_ip a → is_ip b → CompareOrder a b = Ok (lex (key a) (key b)).
Proof.
  intros Ha Hb. unfold CompareOrder.
  destruct a as [|ip port|ip port|p|n], b as [|ip' port'|ip' port'|p'|n']; try done; simpl; f_equal.
  - destruct (Z.eqb_spec (ntoh32 ip) (ntoh32 ip')) as [->|].
    + pose proof (b_compare_cases (ntoh32 ip') (ntoh32 ip')). pose proof (b_compare_cases (ntoh16 port) (ntoh16 port')).
      case_if; [lia|]. case_if; [lia|done].
    + pose proof (b_compare_cases (ntoh32 ip) (ntoh32 ip')). case_if; [done|lia].
  - destruct Ha as [Ha _], Hb as [Hb _]. apply memcmp_lex. lia.
Qed.

(** CompareOrder is a total order of IP socket addresses: antisymmetric, transitive, zero
    exactly for equal addresses; Compare finds exactly the equal addresses that are not the
    invalid one. *)
Theorem compare_order_total a b c :
  is_ip a → is_ip b → is_ip c →
  ∃ ab bc ac, CompareOrder a b = Ok ab ∧ CompareOrder b c = Ok bc ∧ CompareOrder a c = Ok ac ∧
    CompareOrder b a = Ok (- ab) ∧ (ab = 0 ↔ a = b) ∧ (ab ≤ 0 → bc ≤ 0 → ac ≤ 0) ∧
    BAddr.Compare a b = Ok (bool_decide (a = b ∧ a ≠ NONE)).
Proof.
  intros Ha Hb Hc. exists (lex (key a) (key b)), (lex (key b) (key c)), (lex (key a) (key c)).
  rewrite !order_lex, (lex_sym (key a)) by done. split_and!; try done.
  - rewrite lex_eq. split; [by apply key_inj | by intros ->].
  - apply lex_trans.
  - unfold BAddr.Compare. destruct a as [|ip port|ip port|p|n], b as [|ip' port'|ip' port'|p'|n'];
      try done; cbn -[bool_decide]; f_equal; symmetry; try (apply bool_decide_eq_false; naive_solver).
    + destruct (Z.eqb_spec ip ip'), (Z.eqb_spec port port'); simpl;
        (apply bool_decide_eq_true || apply bool_decide_eq_false); naive_solver.
    + destruct Ha as [Hl _], Hb as [Hl' _]. pose proof (CStringFacts.memcmp_eq ip ip' ltac:(lia)).
      destruct (Z.eqb_spec (memcmp ip ip') 0), (Z.eqb_spec port port'); simpl;
        (apply bool_decide_eq_true || apply bool_decide_eq_false); naive_solver.
Qed.

Lemma compare_order_total_witness :
  ∃ x, CompareOrder (IPV4 (10 + 256 ^ 3) (hton16 53)) (IPV6 (replicate 16 7) 5) = Ok x ∧ x ≠ 0.
Proof.
  destruct (compare_order_total (IPV4 (10 + 256 ^ 3) (hton16 53)) (IPV6 (replicate 16 7) 5) NONE)
    as (x & _ & _ & H1 & _ & _ & _ & H2 & _);
    [split; vm_compute; split; congruence
    | split; [reflexivity | split; [eapply bool_decide_eq_true_1; vm_compute; reflexivity | lia]]
    | exact I |].
  exists x. split; [exact H1|]. intros H0. apply H2 in H0. discriminate H0.
Defined.

(** ** Text *)

Lemma decimal_chars f : ∀ x, Forall (λ c, ch "0" ≤ c ≤ ch "9") (decimal f x).
Proof.
  change (ch "0") with 48. change (ch "9") with 57.
  induction f as [|f IH]; intros x; cbn [decimal]; change (ch "0") with 48;
    pose proof (Z.mod_pos_bound x 10 ltac:(lia)).
  - repeat constructor; lia.
  - apply Forall_app. split; [case_if; [apply IH | constructor] | repeat constructor; lia].
Qed.

Lemma decimal_length f : ∀ k x, (1 ≤ k)%nat → x < 10 ^ Z.of_nat k → (1 ≤ length (decimal f x) ≤ k)%nat.
Proof.
  induction f as [|f IH]; intros k x Hk Hx; cbn [decimal]; [simpl; lia|].
  rewrite length_app. cbn [length]. case_if; [|simpl; lia].
  assert (10 ≤ x) by (pose proof (Z.div_small x 10); pose proof (Z.div_lt_upper_bound x 10 1); 
    destruct (decide (x < 0)); [pose proof (Z.div_lt_upper_bound x 10 0); lia | lia]).
  destruct k as [|[|k]]; [lia | simpl in Hx; lia |].
  rewrite Nat2Z.inj_succ, Z.pow_succ_r in Hx by lia.
  pose proof (IH (S k) (x / 10) ltac:(lia) ltac:(apply Z.div_lt_upper_bound; lia)). lia.
Qed.

Lemma strtol_digits_ok s : ∀ n v,
  value_from 10 decode_decimal_digit s n = Some v → strtol_digits s n = (v, []).
Proof.
  induction s as [|c s IH]; intros n v H; simpl in *; [congruence|].
  destruct (decode_decimal_digit c <? 0); [done|]. by apply IH.
Qed.

Lemma parse_port_ok p :
  0 ≤ p < 2 ^ 16 → parse_port (print_dec p) = Some (hton16 p) ∧ (1 ≤ length (print_dec p) ≤ 5)%nat.
Proof.
  intros Hp. unfold print_dec. pose proof (decimal_value 19 p ltac:(lia)) as Hv.
  pose proof (decimal_length 19 5 p ltac:(lia) ltac:(simpl; lia)) as Hl.
  split; [|done]. pose proof (decimal_chars 19 p) as Hc.
  remember (decimal 19 p) as s eqn:Hs. clear Hs. destruct s as [|c s]; [simpl in Hl; lia|].
  apply Forall_cons in Hc as [Hc _]. change (ch "0") with 48 in Hc. change (ch "9") with 57 in Hc.
  unfold parse_port, strtol. cbn [skip_spaces].
  assert (isspace c = false) as ->.
  { unfold isspace. rewrite (proj2 (Z.eqb_neq c 32)), (proj2 (Z.leb_gt c 13)) by lia. apply andb_false_r. }
  change (ch "-") with 45. change (ch "+") with 43.
  rewrite (proj2 (Z.eqb_neq c 45)), (proj2 (Z.eqb_neq c 43)) by lia.
  assert ((decode_decimal_digit c <? 0) = false) as ->.
  { rewrite decode_decimal_digit_ok. change (ch "0") with 48. change (ch "9") with 57.
    rewrite !(proj2 (Z.leb_le _ _)) by lia. simpl. apply Z.ltb_ge. lia. }
  unfold dec_value in Hv. rewrite (strtol_digits_ok (c :: s) 0 p Hv). unfold INT_MAX. cbn [negb orb].
  rewrite Z.mul_1_l, Z.min_r, Z.max_r by lia. unfold UINT16_MAX.
  rewrite !(proj2 (Z.ltb_ge _ _)) by lia. unfold to_u16. by rewrite Z.mod_small by lia.
Qed.

Lemma scan_app c s rest : c ∉ s → scan c (s ++ c :: rest) = length s.
Proof.
  induction s as [|x s IH]; intros H; simpl; [by rewrite Z.eqb_refl|].
  apply not_elem_of_cons in H as [H1 H2]. rewrite (proj2 (Z.eqb_neq _ _)) by done. auto.
Qed.

Lemma not_among (P : Z → Prop) s c : Forall P s → ¬ P c → c ∉ s.
Proof. intros Hs Hc Hin. rewrite Forall_forall in Hs. by apply Hc, Hs. Qed.

(** Dotted text. *)
Lemma ipv4_text ip :
  ∃ s, BIPAddr.Print (BIPAddr.IPV4 ip) = Ok s ∧ (7 ≤ length s ≤ 15)%nat ∧ (ch ":" ∉ s) ∧ nth 0 s 0 ≠ ch "[".
Proof.
  eexists. split; [reflexivity|].
  assert (Hb : ∀ i, (1 ≤ length (print_dec (nth i (le_bytes 4 ip) 0%Z)) ≤ 3)%nat ∧
    Forall (λ c, ch "0" ≤ c ≤ ch "9") (print_dec (nth i (le_bytes 4 ip) 0))).
  { intros i. split; [|apply decimal_chars]. apply decimal_length; [lia|].
    destruct (List.nth_in_or_default i (le_bytes 4 ip) 0) as [Hi| ->]; [|simpl; lia].
    pose proof (le_bytes_bytes 4 ip) as Hbs. rewrite List.Forall_forall in Hbs.
    apply Hbs in Hi. unfold is_byte in Hi. change (10 ^ Z.of_nat 3) with 1000. lia. }
  pose proof (Hb 0%nat) as [L0 C0]. pose proof (Hb 1%nat) as [L1 C1].
  pose proof (Hb 2%nat) as [L2 C2]. pose proof (Hb 3%nat) as [L3 C3]. clear Hb.
  set (s0 := print_dec (nth 0 _ 0)) in *. set (s1 := print_dec (nth 1 _ 0)) in *.
  set (s2 := print_dec (nth 2 _ 0)) in *. set (s3 := print_dec (nth 3 _ 0)) in *.
  clearbody s0 s1 s2 s3. rewrite !length_app, !not_elem_of_app. cbn [length str].
  split; [lia|]. split.
  - assert (Hd : ¬ (ch "0" ≤ ch ":" ≤ ch "9")) by (vm_compute; intros [_ H]; by apply H).
    pose proof (not_among _ _ _ C0 Hd). pose proof (not_among _ _ _ C1 Hd).
    pose proof (not_among _ _ _ C2 Hd). pose proof (not_among _ _ _ C3 Hd).
    split_and!; try done; apply IPv6Facts.not_in_one; done.
  - destruct s0 as [|c s0]; [simpl in L0; lia|]. apply Forall_cons in C0 as [C0 _]. simpl.
    change (ch "9") with 57 in C0. change (ch "[") with 91. lia.
Qed.

Lemma hex_length f : ∀ x, (1 ≤ length (hex f x) ≤ S f)%nat.
Proof.
  induction f as [|f IH]; intros x; cbn [hex]; [simpl; lia|]. rewrite length_app. cbn [length].
  pose proof (IH (x / 16)). case_if; simpl; lia.
Qed.

Lemma length_blocks (Q : list Z) :
  (2 * length Q ≤ length (concat ((λ b, ch ":" :: print_hex16 b) <$> Q)) ≤ 5 * length Q)%nat.
Proof.
  induction Q as [|b Q IH]; cbn [fmap list_fmap concat length]; [simpl; lia|].
  rewrite length_app. cbn [length]. pose proof (hex_length 3 b). unfold print_hex16 in *. lia.
Qed.

(** The text of sixteen bytes is that of their eight blocks. *)
Lemma joined_text bs :
  length bs = 8%nat → Forall IPv6Facts.is_block bs →
  BIPAddr.Print (BIPAddr.IPV6 (IPv6Facts.bytes_of bs)) = Ok (IPv6Facts.joined bs).
Proof.
  intros Hl Hb. destruct bs as [|q Q]; [done|]. cbn [BIPAddr.Print].
  rewrite IPv6Facts.print_joined_S. change 0 with (Z.of_nat 0) at 1 2.
  rewrite (IPv6Facts.block_at_ok _ Hb 0 q), ok_bind by done.
  change (Z.of_nat 0 + 1) with (Z.of_nat 1). rewrite IPv6Facts.print_joined_ok, ok_bind by (done || lia).
  change (drop 1 (q :: Q)) with Q. by rewrite take_ge by (simpl in *; lia).
Qed.

(** Text of sixteen bytes: the first block, and the others. *)
Lemma ipv6_text ip :
  length ip = 16%nat → Forall is_byte ip →
  ∃ s0 s1, BIPAddr.Print (BIPAddr.IPV6 ip) = Ok (s0 ++ ch ":" :: s1) ∧
    (1 ≤ length s0 ≤ 4)%nat ∧ (13 ≤ length s1)%nat ∧ (length s0 + length s1 ≤ 38)%nat ∧
    (ch ":" ∉ s0) ∧ (ch "]" ∉ s0 ++ ch ":" :: s1) ∧ nth 0 s0 0 ≠ ch "[".
Proof.
  intros Hl Ha. destruct (IPv6Facts.bytes_blocks ip Hl Ha) as (bs & Hlb & Hb & ->).
  assert (Hhex : ∀ b, IPv6Facts.is_block b → Forall (λ c, IPv6Facts.hex_digit c = true) (print_hex16 b)).
  { intros b Hbb. destruct (IPv6Facts.block_checks b Hbb) as (H & _). rewrite Forall_forall. intros c Hc. rewrite List.forallb_forall in H. by apply H, list_elem_of_In. }
  rewrite joined_text by done. destruct bs as [|q [|q1 Q]]; [done..|].
  rewrite !Forall_cons in Hb. destruct Hb as (Hq & Hq1 & HQ). simpl in Hlb.
  cbn [IPv6Facts.joined fmap list_fmap concat].
  pose proof (length_blocks Q). pose proof (hex_length 3 q). pose proof (hex_length 3 q1).
  set (tl := concat ((λ b, ch ":" :: print_hex16 b) <$> Q)) in *.
  exists (print_hex16 q), (print_hex16 q1 ++ tl). split; [done|].
  unfold print_hex16 in *. rewrite length_app. split; [lia|]. split; [lia|]. split; [lia|].
  pose proof (Hhex q Hq) as Hc0.
  assert (¬ (IPv6Facts.hex_digit (ch "]") = true)) as Hbr by (vm_compute; discriminate).
  split; [|split].
  - eapply not_among; [exact Hc0 | vm_compute; discriminate].
  - rewrite not_elem_of_app, not_elem_of_cons, not_elem_of_app.
    split; [by eapply not_among|]. split; [done|].
    split; [eapply not_among; [by apply Hhex | done]|]. unfold tl. clear -HQ Hhex Hbr.
    induction HQ as [|b Q Hb HQ IH]; cbn [fmap list_fmap concat]; [apply not_elem_of_nil|].
    rewrite not_elem_of_app. split; [|done]. apply not_elem_of_cons. split; [done|].
    eapply not_among; [by apply Hhex | done].
  - destruct (hex 3 q) as [|c s]; [simpl in *; lia|]. apply Forall_cons in Hc0 as [Hc0 _]. simpl.
    intros ->. revert Hc0. vm_compute. discriminate.
Qed.

(** What [getaddrinfo] returns for numeric addresses: the address. *)
Definition numeric (getaddrinfo : resolver) : Prop :=
  (∀ ip noresolve s, 0 ≤ ip < 2 ^ 32 → BIPAddr.Print (BIPAddr.IPV4 ip) = Ok s →
    getaddrinfo s AF_INET noresolve = Some (le_bytes 4 ip)) ∧
  (∀ ip noresolve s, length ip = 16%nat → Forall is_byte ip → BIPAddr.Print (BIPAddr.IPV6 ip) = Ok s →
    getaddrinfo s AF_INET6 noresolve = Some ip).

Lemma parse2_ok gai fam addr_str port noresolve bytes s :
  (length addr_str ≤ 100)%nat → 0 ≤ port < 2 ^ 16 →
  (1 ≤ length s ≤ 200)%nat → split s = Some (fam, addr_str, print_dec (ntoh16 port)) →
  gai addr_str fam noresolve = Some bytes →
  Parse2 gai s None noresolve
  = Some (match fam with
          | AF_INET6 => IPV6 (take 16 bytes) port
          | AF_INET => IPV4 (le_value (take 4 bytes)) port
          end, []).
Proof.
  intros Hl Hp Hls Hsp Hg. unfold Parse2.
  rewrite (proj2 (Z.ltb_ge _ 1)), (proj2 (Z.ltb_ge 1000 _)) by lia. cbn [orb].
  rewrite Hsp. cbn [mbind option_bind]. rewrite (proj2 (Z.leb_gt 128 _)) by lia.
  destruct (hton16_involutive port Hp) as [Hi Hb].
  destruct (parse_port_ok (ntoh16 port) Hb) as [-> Hlp]. rewrite (proj2 (Z.leb_gt 6 _)) by lia.
  rewrite Hg. cbn [mbind option_bind]. unfold ntoh16. by rewrite Hi.
Qed.

(** Printed socket addresses fit in the buffers the header asks for; those of IPv4 parse
    back; those of IPv6 do not, as the parser wants brackets, with which they do. *)
Theorem addr_print_parse gai a noresolve :
  numeric gai → is_ip a →
  ∃ s, Print a = Ok s ∧ Z.of_nat (length s) < BADDR_MAX_PRINT_LEN ∧
    match a with
    | IPV4 ip port => Parse2 gai s None noresolve = Some (a, [])
    | IPV6 ip port =>
        Parse2 gai s None noresolve = None ∧
        ∃ t, BIPAddr.Print (BIPAddr.IPV6 ip) = Ok t ∧ Z.of_nat (length t) < BIPADDR_MAX_PRINT_LEN ∧
          Parse2 gai (str "[" ++ t ++ str "]:" ++ print_dec (ntoh16 port)) None noresolve = Some (a, [])
    | _ => True
    end.
Proof.
  intros [Hn4 Hn6] Ha. destruct a as [|ip port|ip port|p|n]; try done.
  - by eexists.
  - destruct Ha as [Hip Hp]. destruct (ipv4_text ip) as (s & Hs & Hl & Hc & H0).
    destruct (hton16_involutive port Hp) as [_ Hb]. pose proof (proj2 (parse_port_ok _ Hb)) as Hlp.
    exists (s ++ str ":" ++ print_dec (ntoh16 port)).
    unfold Print. cbn [Assert]. rewrite ok_bind. unfold BIPAddr.InitIPv4. rewrite Hs, ok_bind.
    unfold BADDR_MAX_PRINT_LEN, ntoh16 in *. rewrite !length_app. cbn [length str].
    split; [done|]. split; [lia|].
    rewrite (parse2_ok gai AF_INET s port noresolve (le_bytes 4 ip)); try done; try lia.
    + change (take 4 (le_bytes 4 ip)) with (le_bytes 4 ip). rewrite le_value_bytes; [done | simpl; lia].
    + rewrite !length_app. cbn [length str]. lia.
    + unfold split, ntoh16. rewrite app_nth1 by lia. rewrite (proj2 (Z.eqb_neq _ _)) by done.
      cbn [str app]. rewrite scan_app by done. rewrite length_app. cbn [length].
      rewrite (proj2 (Nat.leb_gt _ _)), take_app_length by lia. by rewrite drop_app_add.
    + by apply Hn4.
  - destruct Ha as (Hl & Hip & Hp). destruct (ipv6_text ip Hl Hip) as (s0 & s1 & Hs & L0 & L1 & L & C0 & C & H0).
    destruct (hton16_involutive port Hp) as [_ Hb]. pose proof (proj2 (parse_port_ok _ Hb)) as Hlp.
    remember (s0 ++ ch ":" :: s1) as s eqn:Es.
    assert (Hls : length s = (length s0 + 1 + length s1)%nat) by (rewrite Es, length_app; simpl; lia).
    exists (s ++ str ":" ++ print_dec (ntoh16 port)). unfold BIPADDR_MAX_PRINT_LEN.
    unfold Print. cbn [Assert]. rewrite ok_bind. unfold BIPAddr.InitIPv6. rewrite take_ge, Hs, ok_bind by lia.
    unfold BADDR_MAX_PRINT_LEN, ntoh16 in *. rewrite !length_app. cbn [length str].
    split; [done|]. split; [lia|]. split; [|exists s; split; [done|]; split; [lia|]].
    + unfold Parse2. case_if; [done|]. unfold split. rewrite Es, <- app_assoc, app_nth1 by lia.
      rewrite (proj2 (Z.eqb_neq _ _)) by done. cbn [app]. rewrite scan_app by done.
      case_if; [done|]. cbn [mbind option_bind]. case_if; [done|].
      rewrite (proj2 (Z.leb_le 6 _)); [done|]. rewrite drop_app_add. cbn [drop]. rewrite drop_0, !length_app.
      simpl. lia.
    + rewrite (parse2_ok gai AF_INET6 s port noresolve ip); try done; try lia.
      * by rewrite take_ge by lia.
      * rewrite !length_app. cbn [length str]. lia.
      * unfold split, ntoh16. cbn [str app nth drop]. rewrite Z.eqb_refl, drop_0, scan_app by done.
        cbn [length]. rewrite length_app. cbn [length].
        rewrite !(proj2 (Nat.leb_gt _ _)) by lia.
        replace (S (length s) + 1)%nat with (S (length s + 1)) by lia. cbn [nth].
        rewrite app_nth2_plus. cbn [nth]. rewrite Z.eqb_refl. cbn [negb orb].
        replace (S (length s) - 1)%nat with (length s) by lia. rewrite take_app_length.
        replace (S (length s) + 2)%nat with (S (length s + 2)) by lia. cbn [drop].
        by rewrite drop_app_add.
      * by apply Hn6.
Qed.

(** [getaddrinfo] for numeric addresses only, by the parsers of misc/ipaddr.h and misc/ipaddr6.h. *)
Definition numeric_only : resolver := λ s fam _,
  match fam with
  | AF_INET => le_bytes 4 <$> IPv4.parse_addr_bin s
  | AF_INET6 => match IPv6.parse_addr_bin s (replicate 16 0) with Ok (Some a) => Some a | _ => None end
  end.

Lemma numeric_only_ok : numeric numeric_only.
Proof.
  split.
  - intros ip nr s Hip Hs. assert (s = IPv4.print_addr ip) as ->.
    { cbn [BIPAddr.Print] in Hs. injection Hs as <-. unfold IPv4.print_addr. reflexivity. }
    unfold numeric_only. by rewrite IPv4Facts.parse_print_addr.
  - intros ip nr s Hl Hip Hs. destruct (IPv6Facts.bytes_blocks ip Hl Hip) as (bs & Hlb & Hb & ->).
    rewrite joined_text in Hs by done. injection Hs as <-.
    unfold numeric_only. by rewrite IPv6Facts.parse_joined.
Qed.

Lemma addr_print_parse_witness :
  ∃ s, Print (IPV4 (10 + 256 ^ 3) (hton16 53)) = Ok s ∧
    Parse2 numeric_only s None true = Some (IPV4 (10 + 256 ^ 3) (hton16 53), []).
Proof.
  destruct (addr_print_parse numeric_only (IPV4 (10 + 256 ^ 3) (hton16 53)) true) as (s & H1 & _ & H2);
    [exact numeric_only_ok | split; vm_compute; split; congruence |].
  exists s. split; [exact H1 | exact H2].
Defined.

End AddrFacts.
