(* ===== verification/Tree.v ===== *)
(** * Ordered sets: the interface of structure/SAvl_impl.h and structure/BAVL.h

    The AVL trees of the code are intrusive: a tree holds nodes of objects, compared by a function of the
    objects.  [Tree] is a tree as the sequence its in-order traversal visits, with the operations the
    components use; [TreeFacts] says what they do to a sorted sequence, for any comparison
    function that orders the objects. *)

From S2P Require Import Prelude.

Module Tree.

Section tree.
Context {A : Type} `{EqDecision A} (compare : A → A → Z).

(** The entry goes before the first greater one; [None] when an equal one is there. *)
Fixpoint Insert (t : list A) (x : A) : option (list A) :=
  match t with
  | [] => Some [x]
  | y :: t' => if compare x y <? 0 then Some (x :: t)
               else if compare x y =? 0 then None
               else t'' ← Insert t' x; Some (y :: t'')
  end.

Fixpoint Remove (t : list A) (x : A) : list A :=
  match t with
  | [] => []
  | y :: t' => if bool_decide (x = y) then t' else y :: Remove t' x
  end.

(** [BAVL_LookupExact]: the entry [cmp] finds equal to the value searched for. *)
Fixpoint LookupExact (cmp : A → Z) (t : list A) : option A :=
  match t with
  | [] => None
  | y :: t' => if cmp y =? 0 then Some y else LookupExact cmp t'
  end.

Definition GetFirst (t : list A) : option A := head t.

Definition IsEmpty (t : list A) : bool := match t with [] => true | _ => false end.
End tree.

(** Every entry is less than those after it. *)
Fixpoint sorted {A} (lt : A → A → Prop) (t : list A) : Prop :=
  match t with [] => True | x :: t' => Forall (lt x) t' ∧ sorted lt t' end.

End Tree.

(** ** Lemmas *)

Module TreeFacts.
Import Tree.

Section facts.
Context {A : Type} `{EqDecision A} (compare : A → A → Z) (lt : A → A → Prop).
Context (Hlt : ∀ x y, compare x y < 0 ↔ lt x y).
Context (Hgt : ∀ x y, 0 < compare x y ↔ lt y x).
Context (Htr : ∀ x y z, lt x y → lt y z → lt x z).

Lemma lt_irrefl x : ¬ lt x x.
Proof. intros H. pose proof (proj2 (Hlt x x) H). pose proof (proj2 (Hgt x x) H). lia. Qed.

Lemma sorted_notin t x : sorted lt (x :: t) → x ∉ t.
Proof.
  intros [Hx _] Hin. rewrite Forall_forall in Hx. by apply (lt_irrefl x), Hx.
Qed.

Lemma Insert_ok t x :
  sorted lt t → (∀ y, y ∈ t → compare x y ≠ 0) →
  ∃ t', Insert compare t x = Some t' ∧ sorted lt t' ∧ t' ≡ₚ x :: t.
Proof.
  induction t as [|y t IH]; intros Hs Hx; simpl.
  { exists [x]. split; [done|]. split; [by repeat constructor | done]. }
  destruct Hs as [Hy Hs]. pose proof (Hx y ltac:(by left)) as Hne.
  destruct (Z.ltb_spec (compare x y) 0) as [Hc|Hc].
  { exists (x :: y :: t). split; [done|]. apply Hlt in Hc. split; [|done].
    split; [|done]. constructor; [done|]. eapply Forall_impl; [exact Hy|]. intros z. by apply Htr. }
  rewrite (proj2 (Z.eqb_neq _ _)) by done.
  destruct IH as (t' & -> & Hs' & Ht'); [done | intros z Hz; apply Hx; by right|].
  exists (y :: t'). split; [done|].
  assert (lt y x) by (apply Hgt; lia). split; [split; [|done]|rewrite Ht'; by constructor].
  rewrite Ht'. by constructor.
Qed.

Lemma Remove_sorted t x :
  sorted lt t → sorted lt (Remove t x) ∧ ∀ y, y ∈ Remove t x ↔ y ≠ x ∧ y ∈ t.
Proof.
  induction t as [|y t IH]; intros Hs; simpl; [set_solver|].
  pose proof (sorted_notin _ _ Hs) as Hn. destruct Hs as [Hy Hs]. case_bool_decide as Hc.
  - subst y. split; [done|]. intros z. rewrite elem_of_cons. split; [|naive_solver].
    intros Hz. split; [by intros ->|auto].
  - destruct (IH Hs) as [Hs' Ht']. split; [split; [|done]|set_solver].
    apply Forall_forall. intros z Hz. apply Ht' in Hz as [_ Hz].
    by rewrite Forall_forall in Hy; apply Hy.
Qed.

Lemma head_least t x y : sorted lt (x :: t) → y ∈ x :: t → y = x ∨ lt x y.
Proof.
  intros [Hx _] Hy. apply elem_of_cons in Hy as [->|Hy]; [by left|right].
  by rewrite Forall_forall in Hx; apply Hx.
Qed.
End facts.

Lemma sorted_ext {A} (lt lt' : A → A → Prop) (t : list A) :
  (∀ x y, x ∈ t → y ∈ t → lt x y → lt' x y) → sorted lt t → sorted lt' t.
Proof.
  induction t as [|x t IH]; intros H; [done|]. intros [Hx Hs]. split.
  - apply Forall_forall. intros y Hy. rewrite Forall_forall in Hx. apply H; [set_solver..|auto].
  - apply IH; [|done]. intros y z ??. apply H; set_solver.
Qed.

Lemma Remove_nodup {A} `{EqDecision A} (t : list A) x :
  NoDup t → NoDup (Remove t x) ∧ ∀ y, y ∈ Remove t x ↔ y ≠ x ∧ y ∈ t.
Proof.
  induction 1 as [|y t Hy Hnd IH]; simpl; [split; [constructor|set_solver]|].
  case_bool_decide as Hc.
  - subst y. split; [done|]. intros z. rewrite elem_of_cons. split; [|naive_solver].
    intros Hz. split; [by intros ->|auto].
  - destruct IH as [Hnd' Ht']. split; [constructor; [|done]|]; set_solver.
Qed.

Lemma sorted_distinct {A} (lt : A → A → Prop) (t : list A) x y :
  sorted lt t → x ∈ t → y ∈ t → x = y ∨ lt x y ∨ lt y x.
Proof.
  induction t as [|z t IH]; [by intros _ []%not_elem_of_nil|]. intros [Hz Hs] Hx Hy.
  rewrite Forall_forall in Hz. apply elem_of_cons in Hx as [->|Hx], Hy as [->|Hy]; auto.
Qed.

Lemma sorted_app {A} (lt : A → A → Prop) (t u : list A) :
  sorted lt (t ++ u) ↔ sorted lt t ∧ sorted lt u ∧ ∀ x y, x ∈ t → y ∈ u → lt x y.
Proof.
  induction t as [|z t IH]; simpl; [set_solver|]. rewrite Forall_app, IH, !Forall_forall. set_solver.
Qed.

Lemma Insert_middle {A} (compare : A → A → Z) (t u : list A) x :
  Forall (λ y, 0 < compare x y) t → Forall (λ y, compare x y < 0) u → Insert compare (t ++ u) x = Some (t ++ x :: u).
Proof.
  intros Ht Hu. induction Ht as [|y t Hy Ht IH]; simpl.
  - destruct Hu as [|y u Hy Hu]; simpl; [done|]. by rewrite (proj2 (Z.ltb_lt _ _)).
  - rewrite (proj2 (Z.ltb_ge _ _)), (proj2 (Z.eqb_neq _ _)), IH by lia. done.
Qed.

Lemma Remove_middle {A} `{EqDecision A} (t u : list A) x : x ∉ t → Remove (t ++ x :: u) x = t ++ u.
Proof.
  induction t as [|y t IH]; intros Hx; simpl; [by rewrite bool_decide_eq_true_2|].
  rewrite bool_decide_eq_false_2 by set_solver. rewrite IH by set_solver. done.
Qed.

Lemma Remove_perm {A} `{EqDecision A} (t : list A) x : x ∈ t → t ≡ₚ x :: Remove t x.
Proof.
  induction t as [|y t IH]; intros Hx; simpl; [by apply not_elem_of_nil in Hx|].
  case_bool_decide as Hc; [by subst|]. apply elem_of_cons in Hx as [->|Hx]; [done|].
  rewrite (IH Hx) at 1. apply Permutation_swap.
Qed.

Lemma LookupExact_Some {A} (cmp : A → Z) t x : LookupExact cmp t = Some x → x ∈ t ∧ cmp x = 0.
Proof.
  induction t as [|y t IH]; simpl; [done|]. destruct (Z.eqb_spec (cmp y) 0) as [Hc|Hc].
  - intros [= ->]. by split; [left|].
  - intros H. destruct (IH H). by split; [right|].
Qed.

Lemma LookupExact_None {A} (cmp : A → Z) t : LookupExact cmp t = None ↔ ∀ x, x ∈ t → cmp x ≠ 0.
Proof.
  induction t as [|y t IH]; simpl; [split; [intros _ x Hx; by apply not_elem_of_nil in Hx | done]|].
  destruct (Z.eqb_spec (cmp y) 0) as [Hc|Hc].
  - split; [done|]. intros H. exfalso. apply (H y); [by left | done].
  - rewrite IH. split; [|intros H x Hx; apply H; by right].
    intros H x [->|Hx]%elem_of_cons; [done | by apply H].
Qed.

End TreeFacts.
