(* ===== verification/Bavl.v ===== *)
(** * AVL trees: structure/BAVL.h

    The tree links nodes that are parts of other objects, with pointers to the parent; insertion and removal
    rebalance from the place of the change up to the root.  [BAVL] has the code over a memory of nodes.
    [BAVLShape] says which trees a memory holds, [BAVLFacts] shows that the code keeps them balanced and
    does what the sorted sequences of [Tree] do, which are what the other components use. *)

From S2P Require Import Prelude CMem Tree.

Module BAVL.

Record BAVLNode := node {
  parent : option ptr;
  link0 : option ptr;
  link1 : option ptr;
  balance : Z;
}.

(** The tree's [root], and the nodes in memory, in the tree or not. *)
Record BAVL := mk {
  root : option ptr;
  nodes : gmap ptr BAVLNode;
}.

Definition BAVL_MAX (a b : Z) : Z := if b <? a then a else b.
Definition BAVL_OPTNEG (a : Z) (neg : bool) : Z := if neg then - a else a.

(** *** Access to the nodes *)

Definition link (n : BAVLNode) (d : bool) : option ptr := if d then link1 n else link0 n.

Definition get (o : BAVL) (x : ptr) : result BAVLNode := or_fault BadAccess (nodes o !! x).
Definition put (o : BAVL) (x : ptr) (n : BAVLNode) : BAVL := mk (root o) (<[x := n]> (nodes o)).
Definition set_root (o : BAVL) (r : option ptr) : BAVL := mk r (nodes o).

Definition get_parent (o : BAVL) (x : ptr) : result (option ptr) := n ← get o x; Ok (parent n).
Definition get_link (o : BAVL) (x : ptr) (d : bool) : result (option ptr) := n ← get o x; Ok (link n d).
Definition get_balance (o : BAVL) (x : ptr) : result Z := n ← get o x; Ok (balance n).

Definition set_parent (o : BAVL) (x : ptr) (p : option ptr) : result BAVL :=
  n ← get o x; Ok (put o x (node p (link0 n) (link1 n) (balance n))).
Definition set_link (o : BAVL) (x : ptr) (d : bool) (y : option ptr) : result BAVL :=
  n ← get o x;
  Ok (put o x (if d then node (parent n) (link0 n) y (balance n) else node (parent n) y (link1 n) (balance n))).
Definition set_balance (o : BAVL) (x : ptr) (b : Z) : result BAVL :=
  n ← get o x; Ok (put o x (node (parent n) (link0 n) (link1 n) b)).

(** [if (x) x->parent = p] *)
Definition set_parent_of (o : BAVL) (x : option ptr) (p : option ptr) : result BAVL :=
  match x with Some x => set_parent o x p | None => Ok o end.

(** [if (p) p->link[old == p->link[1]] = new; else tree->root = new] *)
Definition set_child (o : BAVL) (p : option ptr) (old : ptr) (new : option ptr) : result BAVL :=
  match p with
  | Some p => l1 ← get_link o p true; set_link o p (bool_decide (Some old = l1)) new
  | None => Ok (set_root o new)
  end.

(** A pointer that the code dereferences. *)
Definition deref (x : option ptr) : result ptr := or_fault BadAccess x.

(** *** The operations *)

Definition rotate (o : BAVL) (r : ptr) (dir : bool) : result BAVL :=
  nr ← get_link o r (negb dir) ≫= deref;
  c ← get_link o nr dir;
  o ← set_link o r (negb dir) c;
  o ← set_parent_of o c (Some r);
  o ← set_link o nr dir (Some r);
  p ← get_parent o r;
  o ← set_parent o nr p;
  o ← set_child o p r (Some nr);
  set_parent o r (Some nr).

(** [while (n->link[d]) n = n->link[d];] *)
Fixpoint outermost (fuel : nat) (o : BAVL) (n : ptr) (d : bool) : result ptr :=
  match fuel with
  | O => Fault AssertFailed
  | S fuel =>
      l ← get_link o n d;
      match l with Some n => outermost fuel o n d | None => Ok n end
  end.

(** No path in the tree is longer than the number of nodes. *)
Definition enough (o : BAVL) : nat := S (size (nodes o)).

Definition subtree_max (o : BAVL) (n : ptr) : result ptr := outermost (enough o) o n true.

Definition replace_subtree (o : BAVL) (dest : ptr) (n : option ptr) : result BAVL :=
  p ← get_parent o dest;
  o ← set_child o p dest n;
  p ← get_parent o dest;
  set_parent_of o n p.

(** [x->link[d] = v], and the parent of [v]. *)
Definition attach (o : BAVL) (x : ptr) (d : bool) (v : option ptr) : result BAVL :=
  o ← set_link o x d v; set_parent_of o v (Some x).

Definition swap_connected (o : BAVL) (n1 n2 : ptr) : result BAVL :=
  l1 ← get_link o n1 true;
  let side := bool_decide (Some n2 = l1) in
  c ← get_link o n1 (negb side);
  v ← get_link o n2 false;
  o ← attach o n1 false v;
  v ← get_link o n2 true;
  o ← attach o n1 true v;
  p ← get_parent o n1;
  o ← set_parent o n2 p;
  o ← set_child o p n1 (Some n2);
  o ← set_link o n2 side (Some n1);
  o ← set_parent o n1 (Some n2);
  o ← set_link o n2 (negb side) c;
  set_parent_of o c (Some n2).

Definition swap_separate (o : BAVL) (n1 n2 : ptr) : result BAVL :=
  temp ← get_parent o n1;
  p2 ← get_parent o n2;
  o ← set_parent o n1 p2;
  o ← set_child o p2 n2 (Some n1);
  o ← set_parent o n2 temp;
  o ← set_child o temp n1 (Some n2);
  temp ← get_link o n1 false;
  v ← get_link o n2 false;
  o ← attach o n1 false v;
  o ← attach o n2 false temp;
  temp ← get_link o n1 true;
  v ← get_link o n2 true;
  o ← attach o n1 true v;
  attach o n2 true temp.

Definition swap_nodes (o : BAVL) (n1 n2 : ptr) : result BAVL :=
  p1 ← get_parent o n1;
  p2 ← get_parent o n2;
  o ← (if bool_decide (p1 = Some n2) then swap_connected o n2 n1
       else if bool_decide (p2 = Some n1) then swap_connected o n1 n2
       else swap_separate o n1 n2);
  b1 ← get_balance o n1;
  b2 ← get_balance o n2;
  o ← set_balance o n1 b2;
  set_balance o n2 b1.

(** The transformations of [rebalance] where the balance factor [b] is 2 or -2: the node that is now at [node]'s
    place, and [delta]. *)
Definition transform (o : BAVL) (node : ptr) (b delta : Z) : result (BAVL * ptr * Z) :=
  let bside := b =? 2 in
  let bsidef := if bside then 1 else -1 in
  l ← get_link o node bside;
  ASSERT bool_decide (is_Some l) ;;
  child ← deref l;
  cb ← get_balance o child;
  if cb * bsidef =? 1 then
    o ← rotate o node (negb bside);
    o ← set_balance o node 0;
    o ← set_balance o child 0;
    Ok (o, child, delta - 1)
  else if cb * bsidef =? 0 then
    o ← rotate o node (negb bside);
    o ← set_balance o node (1 * bsidef);
    o ← set_balance o child (-1 * bsidef);
    Ok (o, child, delta)
  else if cb * bsidef =? -1 then
    l ← get_link o child (negb bside);
    ASSERT bool_decide (is_Some l) ;;
    gchild ← deref l;
    o ← rotate o child bside;
    o ← rotate o node (negb bside);
    gb ← get_balance o gchild;
    o ← set_balance o node (- BAVL_MAX 0 (gb * bsidef) * bsidef);
    o ← set_balance o child (BAVL_MAX 0 (- gb * bsidef) * bsidef);
    o ← set_balance o gchild 0;
    Ok (o, gchild, delta - 1)
  else Fault AssertFailed.

Definition within_one (z : Z) : bool := (-1 <=? z) && (z <=? 1).

Fixpoint rebalance (fuel : nat) (o : BAVL) (node : ptr) (side : bool) (deltac : Z) : result BAVL :=
  match fuel with
  | O => Fault AssertFailed
  | S fuel =>
      ASSERT within_one deltac ;;
      b ← get_balance o node;
      ASSERT within_one b ;;
      if deltac =? 0 then Ok o else
      let delta := BAVL_MAX deltac (BAVL_OPTNEG b side) - BAVL_MAX 0 (BAVL_OPTNEG b side) in
      ASSERT within_one delta ;;
      let b := b - BAVL_OPTNEG deltac side in
      o ← set_balance o node b;
      '(o, node, delta) ← (if (b =? 2) || (b =? -2) then transform o node b delta else Ok (o, node, delta));
      ASSERT within_one delta ;;
      p ← get_parent o node;
      match p with
      | Some p => l1 ← get_link o p true; rebalance fuel o p (bool_decide (Some node = l1)) delta
      | None => Ok o
      end
  end.

Definition BAVL_Init (memory : gmap ptr BAVLNode) : BAVL := mk None memory.

Section compare.
(** The comparator, on the values of two nodes. *)
Context (compare : ptr → ptr → Z).

Definition compare_values (res : Z) : result Z :=
  ASSERT (res =? -1) || (res =? 0) || (res =? 1) ;; Ok res.

(** Where the search of [BAVL_Insert] and the lookups ends: at a node that compares equal, or at the last one, with
    the side where the value would be. *)
Fixpoint descend (fuel : nat) (o : BAVL) (cmp : ptr → Z) (c : ptr) : result (ptr * option bool) :=
  match fuel with
  | O => Fault AssertFailed
  | S fuel =>
      comp ← compare_values (cmp c);
      if comp =? 0 then Ok (c, None) else
      let side := comp =? 1 in
      l ← get_link o c side;
      match l with Some c => descend fuel o cmp c | None => Ok (c, Some side) end
  end.

(** The results are whether the node was inserted, and [*ref]. *)
Definition BAVL_Insert (o : BAVL) (n : ptr) : result (BAVL * bool * option ptr) :=
  match root o with
  | None => _ ← get o n; Ok (put (set_root o (Some n)) n (node None None None 0), true, None)
  | Some c =>
      '(c, at_side) ← descend (enough o) o (compare n) c;
      match at_side with
      | None => Ok (o, false, Some c)
      | Some side =>
          o ← set_link o c side (Some n);
          _ ← get o n;
          let o := put o n (node (Some c) None None 0) in
          o ← rebalance (enough o) o c side 1;
          Ok (o, true, Some c)
      end
  end.

(** The end of [BAVL_Remove], when [n] has at most one child. *)
Definition unlink (o : BAVL) (n : ptr) : result BAVL :=
  l0 ← get_link o n false;
  l1 ← get_link o n true;
  ASSERT negb (bool_decide (is_Some l0) && bool_decide (is_Some l1)) ;;
  p ← get_parent o n;
  let child := match l0 with Some _ => l0 | None => l1 end in
  match p with
  | Some p =>
      l1 ← get_link o p true;
      let side := bool_decide (Some n = l1) in
      o ← replace_subtree o n child;
      rebalance (enough o) o p side (-1)
  | None => replace_subtree o n child
  end.

Definition BAVL_Remove (o : BAVL) (n : ptr) : result BAVL :=
  l0 ← get_link o n false;
  l1 ← get_link o n true;
  o ← match l0, l1 with
      | Some l0, Some _ => m ← subtree_max o l0; swap_nodes o n m
      | _, _ => Ok o
      end;
  unlink o n.

Definition BAVL_IsEmpty (o : BAVL) : bool := match root o with None => true | Some _ => false end.

(** The lookups compare a value with the nodes. *)
Definition BAVL_Lookup (o : BAVL) (cmp : ptr → Z) : result (option ptr) :=
  match root o with
  | None => Ok None
  | Some c => '(c, _) ← descend (enough o) o cmp c; Ok (Some c)
  end.

Definition BAVL_LookupExact (o : BAVL) (cmp : ptr → Z) : result (option ptr) :=
  match root o with
  | None => Ok None
  | Some c =>
      '(c, at_side) ← descend (enough o) o cmp c;
      Ok (match at_side with None => Some c | Some _ => None end)
  end.

Definition BAVL_GetFirst (o : BAVL) : result (option ptr) :=
  match root o with
  | None => Ok None
  | Some n => n ← outermost (enough o) o n false; Ok (Some n)
  end.

Definition BAVL_GetLast (o : BAVL) : result (option ptr) :=
  match root o with
  | None => Ok None
  | Some n => n ← outermost (enough o) o n true; Ok (Some n)
  end.

(** [while (n->parent && n == n->parent->link[d]) n = n->parent; n = n->parent;] *)
Fixpoint climb (fuel : nat) (o : BAVL) (n : ptr) (d : bool) : result (option ptr) :=
  match fuel with
  | O => Fault AssertFailed
  | S fuel =>
      p ← get_parent o n;
      match p with
      | None => Ok None
      | Some p =>
          l ← get_link o p d;
          if bool_decide (Some n = l) then climb fuel o p d else Ok (Some p)
      end
  end.

Definition BAVL_GetNext (o : BAVL) (n : ptr) : result (option ptr) :=
  l ← get_link o n true;
  match l with
  | Some n => n ← outermost (enough o) o n false; Ok (Some n)
  | None => climb (enough o) o n true
  end.

Definition BAVL_GetPrev (o : BAVL) (n : ptr) : result (option ptr) :=
  l ← get_link o n false;
  match l with
  | Some n => n ← outermost (enough o) o n true; Ok (Some n)
  | None => climb (enough o) o n false
  end.

(** The check of one subtree; the result is its height. *)
Fixpoint assert_recurser (fuel : nat) (o : BAVL) (n : ptr) : result Z :=
  match fuel with
  | O => Fault AssertFailed
  | S fuel =>
      b ← get_balance o n;
      ASSERT -1 <=? b ;;
      ASSERT b <=? 1 ;;
      let subtree (d : bool) (order : Z) : result Z :=
        l ← get_link o n d;
        match l with
        | Some c =>
            p ← get_parent o c;
            ASSERT bool_decide (p = Some n) ;;
            comp ← compare_values (compare c n);
            ASSERT comp =? order ;;
            assert_recurser fuel o c
        | None => Ok 0
        end in
      height_left ← subtree false (-1);
      height_right ← subtree true 1;
      ASSERT b =? height_right - height_left ;;
      Ok (BAVL_MAX height_left height_right + 1)
  end.

Definition BAVL_Verify (o : BAVL) : result unit :=
  match root o with
  | Some r =>
      p ← get_parent o r;
      ASSERT bool_decide (p = None) ;;
      _ ← assert_recurser (enough o) o r;
      Ok tt
  | None => Ok tt
  end.
End compare.

(** One call of a user of the tree, and what it returns. *)
Inductive op :=
| Insert (n : ptr)
| Remove (n : ptr)
| LookupExact (cmp : ptr → Z)
| GetFirst
| GetLast
| GetNext (n : ptr)
| GetPrev (n : ptr)
| IsEmpty
| Verify.

Inductive value := Unit | Bool (b : bool) | Pointer (p : option ptr).

Definition run_op (compare : ptr → ptr → Z) (o : BAVL) (c : op) : result (BAVL * value) :=
  match c with
  | Insert n => '(o, b, _) ← BAVL_Insert compare o n; Ok (o, Bool b)
  | Remove n => o ← BAVL_Remove o n; Ok (o, Unit)
  | LookupExact cmp => p ← BAVL_LookupExact o cmp; Ok (o, Pointer p)
  | GetFirst => p ← BAVL_GetFirst o; Ok (o, Pointer p)
  | GetLast => p ← BAVL_GetLast o; Ok (o, Pointer p)
  | GetNext n => p ← BAVL_GetNext o n; Ok (o, Pointer p)
  | GetPrev n => p ← BAVL_GetPrev o n; Ok (o, Pointer p)
  | IsEmpty => Ok (o, Bool (BAVL_IsEmpty o))
  | Verify => _ ← BAVL_Verify compare o; Ok (o, Unit)
  end.

End BAVL.

(** ** The trees in memory *)

Module BAVLShape.
Import BAVL.

Inductive tree := Leaf | Node (l : tree) (x : ptr) (b : Z) (r : tree).

Definition rt (t : tree) : option ptr := match t with Leaf => None | Node _ x _ _ => Some x end.

Fixpoint elements (t : tree) : list ptr :=
  match t with Leaf => [] | Node l x _ r => elements l ++ x :: elements r end.

Fixpoint ids (t : tree) : gset ptr :=
  match t with Leaf => ∅ | Node l x _ r => {[x]} ∪ ids l ∪ ids r end.

(** A node with child [t1] on the side [d] and [t2] on the other one, and its record. *)
Definition join (d : bool) (t1 : tree) (x : ptr) (b : Z) (t2 : tree) : tree :=
  if d then Node t2 x b t1 else Node t1 x b t2.
Definition rec (d : bool) (p : option ptr) (c1 c2 : option ptr) (b : Z) : BAVLNode :=
  if d then node p c2 c1 b else node p c1 c2 b.

(** The memory holds the tree, with [p] the parent of its root. *)
Fixpoint holds (m : gmap ptr BAVLNode) (p : option ptr) (t : tree) : Prop :=
  match t with
  | Leaf => True
  | Node l x b r =>
      m !! x = Some (node p (rt l) (rt r) b) ∧ ((x ∉ ids l) ∧ (x ∉ ids r) ∧ (ids l ## ids r)) ∧
      holds m (Some x) l ∧ holds m (Some x) r
  end.

(** What is above a subtree, from its parent to the root: on which side of its parent [x] it is, and
    the subtree [s] on the other side. *)
Record frame := Frame { f_side : bool; f_node : ptr; f_balance : Z; f_sibling : tree }.

Definition top_or (pp : option ptr) (p : list frame) : option ptr :=
  match p with [] => pp | f :: _ => Some (f_node f) end.
Abbreviation top := (top_or None).

Fixpoint ids_above (p : list frame) : gset ptr :=
  match p with [] => ∅ | f :: p => {[f_node f]} ∪ ids (f_sibling f) ∪ ids_above p end.

(** A segment of a path: [pp] is the parent of its uppermost node, [c0] the link to it, and [c] its lower end. *)
Fixpoint seg (m : gmap ptr BAVLNode) (pp : option ptr) (p : list frame) (c0 c : option ptr) : Prop :=
  match p with
  | [] => c0 = c
  | Frame d x b s :: p =>
      m !! x = Some (rec d (top_or pp p) c (rt s) b) ∧
      ((x ∉ ids s) ∧ (x ∉ ids_above p) ∧ (ids s ## ids_above p)) ∧
      holds m (Some x) s ∧ seg m pp p c0 (Some x)
  end.
Abbreviation above m r p c := (seg m None p r c).

Fixpoint plug (p : list frame) (t : tree) : tree :=
  match p with [] => t | Frame d x b s :: p => plug p (join d t x b s) end.

(** The tree with its subtree [t] below [p]. *)
Definition at_ (o : BAVL) (p : list frame) (t : tree) : Prop :=
  above (nodes o) (root o) p (rt t) ∧ holds (nodes o) (top p) t ∧ ids_above p ## ids t.

Lemma rt_join d t1 x b t2 : rt (join d t1 x b t2) = Some x.
Proof. by destruct d. Qed.

Lemma ids_join d t1 x b t2 : ids (join d t1 x b t2) = {[x]} ∪ ids t1 ∪ ids t2.
Proof. destruct d; set_solver. Qed.

Lemma holds_join m p d t1 x b t2 :
  holds m p (join d t1 x b t2) ↔
  m !! x = Some (rec d p (rt t1) (rt t2) b) ∧ ((x ∉ ids t1) ∧ (x ∉ ids t2) ∧ (ids t1 ## ids t2)) ∧
  holds m (Some x) t1 ∧ holds m (Some x) t2.
Proof. destruct d; simpl; [|done]. assert (ids t2 ## ids t1 ↔ ids t1 ## ids t2) by set_solver. tauto. Qed.

Lemma at_plug1 o d x b s p t : at_ o (Frame d x b s :: p) t ↔ at_ o p (join d t x b s).
Proof.
  unfold at_. rewrite rt_join, holds_join, ids_join. simpl.
  split; intros; destruct_and!; split_and!; try done; set_solver.
Qed.

Lemma at_plug o p t : at_ o p t ↔ at_ o [] (plug p t).
Proof.
  revert t. induction p as [|[d x b s] p IH]; intros t; [done|]. simpl. by rewrite at_plug1, IH.
Qed.

(** [set_solver] with only the hypotheses about sets. *)
Ltac sets :=
  destruct_and?;
  repeat match goal with H : ?T |- _ =>
    lazymatch T with
    | _ ∉ _ => fail | _ ∈ _ => fail | _ ## _ => fail | _ ≠ _ => fail | _ ⊆ _ => fail | _ = _ :> ptr => fail
    | _ => lazymatch type of T with Prop => clear H | _ => fail end
    end
  end; set_solver.

Ltac sets_goal := lazymatch goal with |- _ ∉ _ => sets | |- _ ## _ => sets | |- _ => idtac end.

(** *** Memories that agree *)

Definition same_on (S : gset ptr) (o o' : BAVL) : Prop := ∀ y, y ∈ S → nodes o' !! y = nodes o !! y.
Definition same_off (S : gset ptr) (o o' : BAVL) : Prop := ∀ y, y ∉ S → nodes o' !! y = nodes o !! y.

Lemma holds_same m m' p t : (∀ y, y ∈ ids t → m' !! y = m !! y) → holds m p t → holds m' p t.
Proof.
  revert p. induction t as [|l IHl x b r IHr]; intros p H; [done|]. simpl. intros (Hx & Hd & Hl & Hr).
  split_and!; [rewrite H; [done|sets]|by destruct_and!..| |].
  - apply IHl; [|done]. intros y Hy. apply H. sets.
  - apply IHr; [|done]. intros y Hy. apply H. sets.
Qed.

Lemma seg_same m m' pp p c0 c : (∀ y, y ∈ ids_above p → m' !! y = m !! y) → seg m pp p c0 c → seg m' pp p c0 c.
Proof.
  revert c. induction p as [|[d x b s] p IH]; intros c H; [done|]. simpl. intros (Hx & Hd & Hs & Hp).
  split_and!; [rewrite H; [done|sets]|by destruct_and!..| |].
  - eapply holds_same; [|done]. intros y Hy. apply H. sets.
  - apply IH; [|done]. intros y Hy. apply H. sets.
Qed.

Lemma same_off_trans S o1 o2 o3 : same_off S o1 o2 → same_off S o2 o3 → same_off S o1 o3.
Proof. intros H1 H2 y Hy. by rewrite H2, H1. Qed.

Lemma same_off_mono S S' o o' : S ⊆ S' → same_off S o o' → same_off S' o o'.
Proof. intros HS H y Hy. apply H. sets. Qed.

(** *** Single accesses *)

Lemma parent_rec d p c1 c2 b : parent (rec d p c1 c2 b) = p.
Proof. by destruct d. Qed.
Lemma balance_rec d p c1 c2 b : balance (rec d p c1 c2 b) = b.
Proof. by destruct d. Qed.
Lemma link_rec d p c1 c2 b : link (rec d p c1 c2 b) d = c1.
Proof. by destruct d. Qed.
Lemma link_rec_other d p c1 c2 b : link (rec d p c1 c2 b) (negb d) = c2.
Proof. by destruct d. Qed.

Lemma get_node_ok o x n : nodes o !! x = Some n → get o x = Ok n.
Proof. unfold get. by intros ->. Qed.

Section access.
Context (o : BAVL) (x : ptr) (d : bool) (p c1 c2 : option ptr) (b : Z).
Context (Hx : nodes o !! x = Some (rec d p c1 c2 b)).

Lemma get_parent_ok : get_parent o x = Ok p.
Proof. unfold get_parent. rewrite (get_node_ok _ _ _ Hx). cbn. by rewrite parent_rec. Qed.
Lemma get_balance_ok : get_balance o x = Ok b.
Proof. unfold get_balance. rewrite (get_node_ok _ _ _ Hx). cbn. by rewrite balance_rec. Qed.
Lemma get_link_ok : get_link o x d = Ok c1.
Proof. unfold get_link. rewrite (get_node_ok _ _ _ Hx). cbn. by rewrite link_rec. Qed.
Lemma get_link_other : get_link o x (negb d) = Ok c2.
Proof. unfold get_link. rewrite (get_node_ok _ _ _ Hx). cbn. by rewrite link_rec_other. Qed.
Lemma set_parent_ok v : set_parent o x v = Ok (put o x (rec d v c1 c2 b)).
Proof. unfold set_parent. rewrite (get_node_ok _ _ _ Hx). cbn. by destruct d. Qed.
Lemma set_balance_ok v : set_balance o x v = Ok (put o x (rec d p c1 c2 v)).
Proof. unfold set_balance. rewrite (get_node_ok _ _ _ Hx). cbn. by destruct d. Qed.
Lemma set_link_ok v : set_link o x d v = Ok (put o x (rec d p v c2 b)).
Proof. unfold set_link. rewrite (get_node_ok _ _ _ Hx). cbn. by destruct d. Qed.
Lemma set_link_other v : set_link o x (negb d) v = Ok (put o x (rec d p c1 v b)).
Proof. unfold set_link. rewrite (get_node_ok _ _ _ Hx). cbn. by destruct d. Qed.
End access.

Lemma put_same o x n : nodes (put o x n) !! x = Some n.
Proof. apply lookup_insert_eq. Qed.
Lemma put_other o x n y : y ≠ x → nodes (put o x n) !! y = nodes o !! y.
Proof. intros. by apply lookup_insert_ne. Qed.

Lemma set_parent_of_spec o t p p' :
  holds (nodes o) p t →
  ∃ o', set_parent_of o (rt t) p' = Ok o' ∧ root o' = root o ∧ holds (nodes o') p' t ∧ same_off (ids t) o o'.
Proof.
  destruct t as [|l x b r]; simpl; [by exists o|]. intros (Hx & Hd & Hl & Hr).
  rewrite (set_parent_ok o x false p (rt l) (rt r) b Hx). eexists. split; [done|]. split; [done|]. split.
  - split_and!; [apply put_same|by destruct_and!..| |].
    + eapply holds_same; [|done]. intros y Hy. apply put_other. sets.
    + eapply holds_same; [|done]. intros y Hy. apply put_other. sets.
  - intros y Hy. apply put_other. sets.
Qed.

Lemma rt_in t x : rt t = Some x → x ∈ ids t.
Proof. destruct t; [done|]. intros [= ->]. sets. Qed.

Lemma seg_child o pp f p c0 old new :
  seg (nodes o) pp (f :: p) c0 (Some old) → old ∉ ids_above (f :: p) →
  ∃ o', set_child o (Some (f_node f)) old new = Ok o' ∧ seg (nodes o') pp (f :: p) c0 new ∧ root o' = root o ∧
    same_off {[f_node f]} o o'.
Proof.
  destruct f as [d x b s]. simpl. intros (Hx & Hd & Hs & Hp) Hold.
  assert (Hl : ∃ l1, get_link o x true = Ok l1 ∧ bool_decide (Some old = l1) = d).
  { destruct d.
    - rewrite (get_link_ok _ _ _ _ _ _ _ Hx). eexists; split; [done|]. by apply bool_decide_eq_true.
    - rewrite (get_link_other _ _ _ _ _ _ _ Hx : get_link o x true = _). eexists; split; [done|].
      apply bool_decide_eq_false. intros E. apply Hold. symmetry in E. apply rt_in in E. sets. }
  destruct Hl as (l1 & -> & Hb). rewrite ok_bind, Hb, (set_link_ok _ _ _ _ _ _ _ Hx). eexists. split; [done|]. split.
  - split_and!; [apply put_same|by destruct_and!..| |].
    + eapply holds_same; [|done]. intros y Hy. apply put_other. sets.
    + eapply seg_same; [|done]. intros y Hy. apply put_other. sets.
  - split; [done|]. intros y Hy. apply put_other. sets.
Qed.

Lemma set_child_spec o p old new :
  above (nodes o) (root o) p (Some old) → old ∉ ids_above p →
  ∃ o', set_child o (top p) old new = Ok o' ∧ above (nodes o') (root o') p new ∧ same_off (ids_above p) o o'.
Proof.
  destruct p as [|f p]; intros Hp Hold; [by eexists|].
  destruct (seg_child _ _ _ _ _ _ new Hp Hold) as (o' & Hs & Hp' & Hr & Hoff).
  exists o'. rewrite Hr. split_and!; [done|done|]. eapply same_off_mono; [|done]. set_solver.
Qed.

(** *** Rotations *)

Lemma rotate_spec o p dir A r b C nr b' E :
  at_ o p (join dir A r b (join dir C nr b' E)) →
  ∃ o', rotate o r dir = Ok o' ∧ at_ o' p (join dir (join dir A r b C) nr b' E) ∧
    same_off (ids_above p ∪ ids (join dir A r b (join dir C nr b' E))) o o'.
Proof.
  intros (Hp & Ht & Hd). rewrite !holds_join, rt_join in Ht. rewrite !ids_join, ?rt_join in *.
  destruct Ht as (Hr & (HrA & HrN & HAN) & HA & Hnr & (HnC & HnE & HCE) & HC & HE).
  assert (Hne : r ≠ nr) by sets.
  unfold rotate. rewrite (get_link_other _ _ _ _ _ _ _ Hr). cbn [mbind result_bind deref or_fault].
  rewrite (get_link_ok _ _ _ _ _ _ _ Hnr), ok_bind, (set_link_other _ _ _ _ _ _ _ Hr), ok_bind.
  set (o1 := put o r _).
  destruct (set_parent_of_spec o1 C (Some nr) (Some r)) as (o2 & Hs2 & Hr2 & HC2 & Hoff2).
  { eapply holds_same; [|done]. intros y Hy. apply put_other. sets. }
  rewrite Hs2, ok_bind.
  assert (Hnr2 : nodes o2 !! nr = Some (rec dir (Some r) (rt C) (rt E) b')).
  { rewrite Hoff2 by sets. unfold o1. rewrite put_other by done. done. }
  assert (Hrr2 : nodes o2 !! r = Some (rec dir (top p) (rt A) (rt C) b)).
  { rewrite Hoff2 by sets. apply put_same. }
  rewrite (set_link_ok _ _ _ _ _ _ _ Hnr2), ok_bind. set (o3 := put o2 nr _).
  assert (Hr3 : nodes o3 !! r = Some (rec dir (top p) (rt A) (rt C) b)) by (unfold o3; rewrite put_other; done).
  rewrite (get_parent_ok _ _ _ _ _ _ _ Hr3), ok_bind.
  rewrite (set_parent_ok o3 nr dir (Some r) (Some r) (rt E) b') by apply put_same. rewrite ok_bind.
  set (o4 := put o3 nr _).
  assert (Hoff4 : same_off ({[r]} ∪ {[nr]} ∪ ids C) o o4).
  { intros y Hy. unfold o4, o3. rewrite !put_other by sets. rewrite Hoff2 by sets.
    apply put_other. sets. }
  destruct (set_child_spec o4 p r (Some nr)) as (o5 & Hs5 & Hp5 & Hoff5); [|sets|].
  { assert (root o4 = root o) as -> by (unfold o4, o3; cbn; by rewrite Hr2).
    eapply seg_same; [|done]. intros y Hy. apply Hoff4. sets. }
  rewrite Hs5, ok_bind. rewrite (set_parent_ok o5 r dir (top p) (rt A) (rt C) b).
  2: { rewrite Hoff5 by sets. unfold o4. by rewrite put_other. }
  eexists. split; [done|]. set (o6 := put o5 r _).
  assert (Hoff6 : same_off (ids_above p ∪ {[r]} ∪ {[nr]} ∪ ids C) o o6).
  { intros y Hy. unfold o6. rewrite put_other by sets. rewrite Hoff5 by sets. apply Hoff4. sets. }
  assert (HC6 : same_on (ids C) o2 o6).
  { intros y Hy. unfold o6. rewrite put_other by sets. rewrite Hoff5 by sets.
    unfold o4, o3. rewrite !put_other by sets. done. }
  split; [|eapply same_off_mono; [|done]; sets].
  unfold at_. rewrite rt_join, !holds_join, !ids_join, rt_join. split_and!; sets_goal.
  - eapply seg_same; [|done]. intros y Hy. apply put_other. sets.
  - unfold o6. rewrite put_other by done. rewrite Hoff5 by sets. apply put_same.
  - apply put_same.
  - eapply holds_same; [|done]. intros y Hy. apply Hoff6. sets.
  - by eapply holds_same; [exact HC6|].
  - eapply holds_same; [|done]. intros y Hy. apply Hoff6. sets.
Qed.

(** *** Balance *)

Fixpoint height (t : tree) : Z :=
  match t with Leaf => 0 | Node l _ _ r => 1 + Z.max (height l) (height r) end.

Fixpoint balanced (t : tree) : Prop :=
  match t with
  | Leaf => True
  | Node l _ b r => (b = height r - height l ∧ -1 ≤ b ≤ 1) ∧ balanced l ∧ balanced r
  end.

Definition sg (d : bool) : Z := if d then 1 else -1.

Lemma height_nonneg t : 0 ≤ height t.
Proof. induction t; simpl; lia. Qed.

Lemma height_join d t1 x b t2 : height (join d t1 x b t2) = 1 + Z.max (height t1) (height t2).
Proof. destruct d; simpl; lia. Qed.

Lemma balanced_join d t1 x b t2 :
  balanced (join d t1 x b t2) ↔
  (b = sg d * (height t1 - height t2) ∧ -1 ≤ b ≤ 1) ∧ balanced t1 ∧ balanced t2.
Proof. unfold sg. destruct d; simpl; intuition lia. Qed.

Lemma join_flip d t1 x b t2 : join d t1 x b t2 = join (negb d) t2 x b t1.
Proof. by destruct d. Qed.

Lemma join_case d t : t = Leaf ∨ ∃ t1 x b t2, t = join d t1 x b t2.
Proof. destruct t as [|l x b r]; [by left|right]. destruct d; [by exists r, x, b, l|by exists l, x, b, r]. Qed.

Lemma elements_rotate d A r b C nr b' E b1 b2 :
  elements (join d (join d A r b1 C) nr b2 E) = elements (join d A r b (join d C nr b' E)).
Proof. destruct d; simpl; by rewrite <- app_assoc. Qed.

Lemma elements_join d t1 x b t2 t1' b' t2' :
  elements t1 = elements t1' → elements t2 = elements t2' →
  elements (join d t1 x b t2) = elements (join d t1' x b' t2').
Proof. intros H1 H2. destruct d; simpl; by rewrite H1, H2. Qed.

Lemma ids_elements t x : x ∈ ids t ↔ x ∈ elements t.
Proof. induction t; set_solver. Qed.

Section focus.
Context (o : BAVL) (p : list frame) (d : bool) (t1 : tree) (x : ptr) (b : Z) (t2 : tree).
Context (Hat : at_ o p (join d t1 x b t2)).

Lemma focus_rec : nodes o !! x = Some (rec d (top p) (rt t1) (rt t2) b).
Proof. destruct Hat as (_ & Ht & _). by apply holds_join in Ht as [? _]. Qed.

Lemma set_balance_spec v :
  ∃ o', set_balance o x v = Ok o' ∧ at_ o' p (join d t1 x v t2) ∧ same_off {[x]} o o'.
Proof.
  destruct Hat as (Hp & Ht & Hd). rewrite (set_balance_ok _ _ _ _ _ _ _ focus_rec).
  rewrite holds_join in Ht. rewrite rt_join, ids_join in *. destruct Ht as (Hx & Hdj & H1 & H2).
  eexists. split; [done|]. unfold at_. rewrite holds_join, rt_join, ids_join. split; [split_and!; try done|].
  - eapply seg_same; [|done]. intros y Hy. apply put_other. sets.
  - apply put_same.
  - by destruct_and!.
  - by destruct_and!.
  - by destruct_and!.
  - eapply holds_same; [|done]. intros y Hy. apply put_other. sets.
  - eapply holds_same; [|done]. intros y Hy. apply put_other. sets.
  - intros y Hy. apply put_other. sets.
Qed.
End focus.

(** The balance of the child on side [d] of the focus. *)
Lemma set_child_balance o p e d t1 x b t2 y c t3 v :
  at_ o p (join e (join d t1 x b t2) y c t3) →
  ∃ o', set_balance o x v = Ok o' ∧ at_ o' p (join e (join d t1 x v t2) y c t3) ∧ same_off {[x]} o o'.
Proof.
  intros H. apply at_plug1 in H. destruct (set_balance_spec _ _ _ _ _ _ _ H v) as (o' & Hs & Hat & Hoff).
  exists o'. by rewrite <- at_plug1.
Qed.

(** What a transformation leaves: a tree with the same nodes in the same order, and its root. *)
Definition reshaped (p : list frame) (o : BAVL) (t : tree) (o' : BAVL) (t' : tree) : Prop :=
  at_ o' p t' ∧ balanced t' ∧ elements t' = elements t ∧ same_off (ids_above p ∪ ids t) o o'.

Lemma single_rotation o p s T2 x b0 C c cb E bx bc :
  at_ o p (join (negb s) T2 x b0 (join (negb s) C c cb E)) →
  balanced (join (negb s) (join (negb s) T2 x bx C) c bc E) →
  ∃ o1 o2 o3, rotate o x (negb s) = Ok o1 ∧ set_balance o1 x bx = Ok o2 ∧ set_balance o2 c bc = Ok o3 ∧
    reshaped p o (join (negb s) T2 x b0 (join (negb s) C c cb E)) o3
      (join (negb s) (join (negb s) T2 x bx C) c bc E).
Proof.
  intros Hat Hbal. destruct (rotate_spec _ _ _ _ _ _ _ _ _ _ Hat) as (o1 & H1 & Hat1 & Hoff1).
  destruct (set_child_balance _ _ _ _ _ _ _ _ _ _ _ bx Hat1) as (o2 & H2 & Hat2 & Hoff2).
  destruct (set_balance_spec _ _ _ _ _ _ _ Hat2 bc) as (o3 & H3 & Hat3 & Hoff3).
  exists o1, o2, o3. split_and!; try done. split_and!; [done|done|apply elements_rotate|].
  rewrite !ids_join in *. intros y Hy. rewrite Hoff3, Hoff2, Hoff1 by set_solver. done.
Qed.

Lemma join_flip' d t1 x b t2 : join (negb d) t1 x b t2 = join d t2 x b t1.
Proof. by destruct d. Qed.

Lemma double_rotation o p s T2 x b0 C1 g gb E1 c cb E bx bc :
  at_ o p (join (negb s) T2 x b0 (join (negb s) (join s C1 g gb E1) c cb E)) →
  balanced (join (negb s) (join (negb s) T2 x bx E1) g 0 (join s E c bc C1)) →
  ∃ o1 o2 o3 o4 o5, rotate o c s = Ok o1 ∧ rotate o1 x (negb s) = Ok o2 ∧ get_balance o2 g = Ok gb ∧
    set_balance o2 x bx = Ok o3 ∧ set_balance o3 c bc = Ok o4 ∧ set_balance o4 g 0 = Ok o5 ∧
    reshaped p o (join (negb s) T2 x b0 (join (negb s) (join s C1 g gb E1) c cb E)) o5
      (join (negb s) (join (negb s) T2 x bx E1) g 0 (join s E c bc C1)).
Proof.
  intros Hat Hbal. pose proof Hat as Hat0. rewrite (join_flip' s _ x) in Hat0. apply (proj2 (at_plug1 _ _ _ _ _ _ _)) in Hat0.
  rewrite (join_flip' s _ c) in Hat0.
  destruct (rotate_spec _ _ _ _ _ _ _ _ _ _ Hat0) as (o1 & H1 & Hat1 & Hoff1). apply (proj1 (at_plug1 _ _ _ _ _ _ _)) in Hat1.
  rewrite <- (join_flip' s _ x), <- (join_flip' s _ g) in Hat1.
  destruct (rotate_spec _ _ _ _ _ _ _ _ _ _ Hat1) as (o2 & H2 & Hat2 & Hoff2).
  destruct (set_child_balance _ _ _ _ _ _ _ _ _ _ _ bx Hat2) as (o3 & H3 & Hat3 & Hoff3). rewrite (join_flip' s _ g) in Hat3.
  destruct (set_child_balance _ _ _ _ _ _ _ _ _ _ _ bc Hat3) as (o4 & H4 & Hat4 & Hoff4). rewrite <- (join_flip' s _ g) in Hat4.
  destruct (set_balance_spec _ _ _ _ _ _ _ Hat4 0) as (o5 & H5 & Hat5 & Hoff5).
  exists o1, o2, o3, o4, o5. split_and!; try done.
  { apply (get_balance_ok _ _ _ _ _ _ _ (focus_rec _ _ _ _ _ _ _ Hat2)). }
  split_and!; [done|done| |].
  - destruct s; simpl; rewrite <- ?app_assoc; simpl; by rewrite <- ?app_assoc.
  - cbn [ids_above f_node f_sibling] in Hoff1. rewrite !ids_join in *. intros y Hy.
    rewrite Hoff5, Hoff4, Hoff3, Hoff2, Hoff1 by set_solver. done.
Qed.

Lemma sg_other s : sg (negb s) = - sg s.
Proof. by destruct s. Qed.

Lemma transform_spec o p s T1 x T2 delta :
  at_ o p (join (negb s) T2 x (2 * sg s) T1) → balanced T1 → balanced T2 → height T1 = height T2 + 2 →
  ∃ o' y t' delta', transform o x (2 * sg s) delta = Ok (o', y, delta') ∧ rt t' = Some y ∧
    reshaped p o (join (negb s) T2 x (2 * sg s) T1) o' t' ∧ delta' - delta = height t' - (1 + height T1) ∧
    -1 ≤ delta' - delta ≤ 0.
Proof.
  intros Hat Hb1 Hb2 Hh. destruct (join_case (negb s) T1) as [->|(C & c & cb & E & ->)].
  { simpl in Hh. pose proof (height_nonneg T2). lia. }
  unfold transform. pose proof (focus_rec _ _ _ _ _ _ _ Hat) as Hx.
  replace (2 * sg s =? 2) with s by (by destruct s). replace (if s then 1 else -1) with (sg s) by done.
  pose proof (get_link_other _ _ _ _ _ _ _ Hx) as Hl. rewrite negb_involutive, rt_join in Hl. rewrite Hl, ok_bind.
  cbn [c_assert deref or_fault mbind result_bind]. rewrite bool_decide_eq_true_2 by done. cbn [c_assert].
  assert (Hc : nodes o !! c = Some (rec (negb s) (Some x) (rt C) (rt E) cb)).
  { destruct Hat as (_ & Ht & _). apply holds_join in Ht as (_ & _ & _ & Ht). by apply holds_join in Ht as [? _]. }
  rewrite (get_balance_ok _ _ _ _ _ _ _ Hc), ok_bind.
  apply balanced_join in Hb1 as ((Hcb & Hcb1) & HbC & HbE). rewrite sg_other in Hcb. rewrite height_join in Hh |- *.
  assert (Hcase : cb * sg s = height E - height C) by (rewrite Hcb; unfold sg; destruct s; lia). rewrite Hcase.
  assert (Hd : -1 ≤ height E - height C ≤ 1) by (rewrite <- Hcase; unfold sg; destruct s; lia).
  destruct (Z.eqb_spec (height E - height C) 1) as [H1|H1];
    [|destruct (Z.eqb_spec (height E - height C) 0) as [H0|H0];
      [|destruct (Z.eqb_spec (height E - height C) (-1)) as [Hm|Hm]; [|lia]]].
  - edestruct (single_rotation o p s T2 x _ C c cb E 0 0 Hat) as (o1 & o2 & o3 & -> & Hs2 & Hs3 & Hr).
    { rewrite !balanced_join, !height_join. unfold sg; destruct s; simpl; intuition lia. }
    rewrite ok_bind, Hs2, ok_bind, Hs3, ok_bind. eexists _, _, _, _. split; [done|].
    split; [by rewrite rt_join|]. split; [done|]. rewrite !height_join. lia.
  - edestruct (single_rotation o p s T2 x _ C c cb E (1 * sg s) (-1 * sg s) Hat) as (o1 & o2 & o3 & -> & Hs2 & Hs3 & Hr).
    { rewrite !balanced_join, !height_join. unfold sg; destruct s; simpl; intuition lia. }
    rewrite ok_bind, Hs2, ok_bind, Hs3, ok_bind. eexists _, _, _, _. split; [done|].
    split; [by rewrite rt_join|]. split; [done|]. rewrite !height_join. lia.
  - destruct (join_case s C) as [->|(C1 & g & gb & E1 & ->)].
    { simpl in *. pose proof (height_nonneg T2). pose proof (height_nonneg E). lia. }
    rewrite (get_link_ok _ _ _ _ _ _ _ Hc), rt_join. cbn [mbind result_bind c_assert deref or_fault].
    rewrite bool_decide_eq_true_2 by done. cbn [c_assert].
    apply balanced_join in HbC as ((Hgb & Hgb1) & HbC1 & HbE1). rewrite height_join in *.
    edestruct (double_rotation o p s T2 x _ C1 g gb E1 c cb E (- BAVL_MAX 0 (gb * sg s) * sg s)
                 (BAVL_MAX 0 (- gb * sg s) * sg s) Hat)
      as (o1 & o2 & o3 & o4 & o5 & -> & Hr2 & Hgb2 & Hs3 & Hs4 & Hs5 & Hr).
    { rewrite !balanced_join, !height_join. unfold BAVL_MAX, sg in *; destruct s; simpl in *; repeat case_if; intuition lia. }
    rewrite ok_bind, Hr2, ok_bind, Hgb2, ok_bind, Hs3, ok_bind, Hs4, ok_bind, Hs5, ok_bind.
    eexists _, _, _, _. split; [done|]. split; [by rewrite rt_join|]. split; [done|]. rewrite !height_join. lia.
Qed.

(** *** Rebalancing up to the root *)

(** The path is balanced with a subtree of height [h] below it. *)
Fixpoint balanced_above (p : list frame) (h : Z) : Prop :=
  match p with
  | [] => True
  | Frame d x b s :: p =>
      (b = sg d * (h - height s) ∧ -1 ≤ b ≤ 1) ∧ balanced s ∧ balanced_above p (1 + Z.max h (height s))
  end.

Lemma balanced_plug p : ∀ t, balanced (plug p t) ↔ balanced t ∧ balanced_above p (height t).
Proof.
  induction p as [|[d x b s] p IH]; intros t; simpl; [tauto|]. rewrite IH, balanced_join, height_join. tauto.
Qed.

Lemma elements_plug p : ∀ t t', elements t = elements t' → elements (plug p t) = elements (plug p t').
Proof.
  induction p as [|[d x b s] p IH]; intros t t' H; simpl; [done|]. apply IH. by apply elements_join.
Qed.

Lemma ids_plug p : ∀ t, ids (plug p t) = ids_above p ∪ ids t.
Proof. induction p as [|[d x b s] p IH]; intros t; simpl; [set_solver|]. rewrite IH, ids_join. set_solver. Qed.

Lemma elements_ids t t' : elements t' = elements t → ids t' = ids t.
Proof. intros H. apply set_eq. intros x. by rewrite !ids_elements, H. Qed.

Lemma root_parent o p t y : at_ o p t → rt t = Some y → get_parent o y = Ok (top p).
Proof.
  intros (_ & Ht & _) Hy. destruct t as [|l x b r]; [done|]. injection Hy as ->.
  destruct Ht as (Hx & _). exact (get_parent_ok o y false _ _ _ _ Hx).
Qed.

Lemma side_of o d x b s p t y : at_ o (Frame d x b s :: p) t → y ∉ ids s → rt t = Some y →
  ∃ l1, get_link o x true = Ok l1 ∧ bool_decide (Some y = l1) = d.
Proof.
  intros ((Hx & Hd & _) & _ & Hdj) Hy Hrt. destruct d.
  - rewrite (get_link_ok _ _ _ _ _ _ _ Hx). eexists; split; [done|]. by apply bool_decide_eq_true.
  - rewrite (get_link_other _ _ _ _ _ _ _ Hx : get_link o x true = _). eexists; split; [done|].
    apply bool_decide_eq_false. intros E. symmetry in E. by apply rt_in in E.
Qed.

Lemma at_sibling o d x b s p t y : at_ o (Frame d x b s :: p) t → y ∈ ids t → y ∉ ids s.
Proof. intros (_ & _ & Hd) Hy. simpl in Hd. set_solver. Qed.

Lemma reshaped_plug p o t o1 u o' t' :
  reshaped p o t o1 u → reshaped [] o1 (plug p u) o' t' → reshaped [] o (plug p t) o' t'.
Proof.
  intros (_ & _ & He & Hoff) (Hat & Hb & He2 & Hoff2). split_and!; [done|done| |].
  - rewrite He2. by apply elements_plug.
  - rewrite ids_plug, (elements_ids _ _ He) in Hoff2. rewrite ids_plug. intros y Hy.
    rewrite Hoff2, Hoff; [done| |done]. set_solver.
Qed.

(** One level: [x]'s balance factor is updated and, where needed, the subtree transformed. *)
Definition settle (o : BAVL) (x : ptr) (b delta : Z) : result (BAVL * ptr * Z) :=
  o ← set_balance o x b;
  if (b =? 2) || (b =? -2) then transform o x b delta else Ok (o, x, delta).

Lemma settle_spec o p d x b s t h delta :
  at_ o p (join d t x b s) → balanced t → balanced s → -1 ≤ sg d * (h - height s) ≤ 1 →
  -1 ≤ height t - h ≤ 1 →
  delta = 1 + Z.max (height t) (height s) - (1 + Z.max h (height s)) →
  ∃ o' y t' delta', settle o x (sg d * (height t - height s)) delta = Ok (o', y, delta') ∧ rt t' = Some y ∧
    reshaped p o (join d t x b s) o' t' ∧ delta' = height t' - (1 + Z.max h (height s)) ∧ -1 ≤ delta' ≤ 1.
Proof.
  intros Hat Hbt Hbs Hh Hc Hdelta. unfold settle. set (b' := sg d * (height t - height s)).
  destruct (set_balance_spec _ _ _ _ _ _ _ Hat b') as (o1 & -> & Hat1 & Hoff1). rewrite ok_bind.
  assert (Hsame : ∀ o', same_off (ids_above p ∪ ids (join d t x b' s)) o1 o' →
    same_off (ids_above p ∪ ids (join d t x b s)) o o').
  { intros o' H. rewrite !ids_join in *. intros y Hy. rewrite H, Hoff1 by set_solver. done. }
  assert (Hel : elements (join d t x b' s) = elements (join d t x b s)) by by apply elements_join.
  destruct (decide (-1 ≤ b' ≤ 1)) as [Hb|Hb].
  - replace ((b' =? 2) || (b' =? -2)) with false by lia. eexists _, _, _, _. split; [done|].
    split; [by rewrite rt_join|]. split; [split_and!; try done|].
    + apply balanced_join. split; [split; [done|exact Hb]|by split].
    + apply Hsame. by intros ? ?.
    + rewrite height_join. lia.
  - assert (Hheavy : (height t = height s + 2 ∧ b' = 2 * sg d) ∨ (height s = height t + 2 ∧ b' = 2 * sg (negb d))).
    { unfold b', sg in *. destruct d; simpl in *; lia. }
    assert (Hb2 : (b' =? 2) || (b' =? -2) = true) by (unfold sg in Hheavy; destruct d; simpl in *; lia). rewrite Hb2.
    destruct Hheavy as [[Ht Hb']|[Ht Hb']]; rewrite Hb' in *.
    + rewrite join_flip in Hat1.
      destruct (transform_spec _ _ _ _ _ _ delta Hat1 Hbt Hbs Ht) as (o2 & y & t' & delta' & -> & Hrt & Hre & Hde & Hde1).
      eexists _, _, _, _. split; [done|]. split; [done|]. rewrite <- join_flip in Hre.
      destruct Hre as (Hat2 & Hb3 & He & Hoff). split; [split_and!; try done; [congruence|by apply Hsame]|]. clear -Hde Hde1 Ht Hh Hc Hdelta. unfold sg in Hh. destruct d; lia.
    + rewrite <- (negb_involutive d) in Hat1 at 1.
      destruct (transform_spec _ _ _ _ _ _ delta Hat1 Hbs Hbt Ht) as (o2 & y & t' & delta' & -> & Hrt & Hre & Hde & Hde1).
      eexists _, _, _, _. split; [done|]. split; [done|]. rewrite negb_involutive in Hre.
      destruct Hre as (Hat2 & Hb3 & He & Hoff). split; [split_and!; try done; [congruence|by apply Hsame]|]. clear -Hde Hde1 Ht Hh Hc Hdelta. unfold sg in Hh. destruct d; lia.
Qed.

Lemma rebalance_spec fuel : ∀ p o d x b s t deltac,
  at_ o (Frame d x b s :: p) t → balanced t → balanced_above (Frame d x b s :: p) (height t - deltac) →
  -1 ≤ deltac ≤ 1 → (length p < fuel)%nat →
  ∃ o' t', rebalance fuel o x d deltac = Ok o' ∧ reshaped [] o (plug (Frame d x b s :: p) t) o' t'.
Proof.
  induction fuel as [|fuel IH]; intros p o d x b s t deltac Hat Hbt Hba Hdc Hfuel; [lia|]. cbn [rebalance].
  pose proof Hba as ((Hb & Hb1) & Hbs & Hbp). pose proof (proj1 (at_plug1 _ _ _ _ _ _ _) Hat) as Hat1.
  rewrite (get_balance_ok _ _ _ _ _ _ _ (focus_rec _ _ _ _ _ _ _ Hat1)), ok_bind.
  unfold within_one at 1 2. rewrite !c_assert_true by lia.
  destruct (Z.eqb_spec deltac 0) as [->|Hd0].
  { exists o, (plug (Frame d x b s :: p) t). split; [done|]. split_and!; try done.
    - exact (proj1 (at_plug _ _ _) Hat).
    - apply balanced_plug. rewrite Z.sub_0_r in Hba. by split. }
  set (delta := BAVL_MAX deltac _ - _).
  assert (Hdelta : delta = 1 + Z.max (height t) (height s) - (1 + Z.max (height t - deltac) (height s))).
  { unfold delta, BAVL_MAX, BAVL_OPTNEG, sg in *. destruct d; repeat case_if; lia. }
  assert (Hb' : b - BAVL_OPTNEG deltac d = sg d * (height t - height s)) by (unfold BAVL_OPTNEG, sg in *; destruct d; lia).
  rewrite Hb'. clearbody delta. rewrite c_assert_true by (unfold within_one; lia).
  destruct (settle_spec o p d x b s t (height t - deltac) delta Hat1 Hbt Hbs)
    as (o1 & y & u & delta' & Hs & Hrt & Hre & Hde & Hde1); [by rewrite <- Hb|lia|done|].
  unfold settle in Hs. destruct (set_balance o x _) as [o0|]; [|done]. rewrite ok_bind in Hs. rewrite ok_bind, Hs, ok_bind.
  rewrite c_assert_true by (unfold within_one; lia).
  pose proof Hre as (Hat2 & Hbu & He & Hoff). rewrite (root_parent _ _ _ _ Hat2 Hrt), ok_bind.
  assert (Hplug : reshaped [] o (plug p (join d t x b s)) o1 (plug p u) ∨ p ≠ []).
  { destruct p; [left|by right]. done. }
  destruct p as [|[d2 x2 b2 s2] p]; simpl top.
  - exists o1, u. split; [done|]. by destruct Hplug.
  - clear Hplug. pose proof (at_sibling _ _ _ _ _ _ _ y Hat2 (rt_in _ _ Hrt)) as Hy.
    destruct (side_of _ _ _ _ _ _ _ _ Hat2 Hy Hrt) as (l1 & -> & Hl1). rewrite ok_bind, Hl1.
    destruct (IH p o1 d2 x2 b2 s2 u delta' Hat2 Hbu) as (o' & t' & Hrun & Hre2);
      [|done|simpl in Hfuel; lia|].
    { replace (height u - delta') with (1 + Z.max (height t - deltac) (height s)) by lia. done. }
    exists o', t'. split; [done|]. exact (reshaped_plug _ _ _ _ _ _ _ Hre Hre2).
Qed.

(** *** Replacing and swapping nodes *)

Lemma replace_subtree_spec o p t x u :
  at_ o p t → rt t = Some x → holds (nodes o) (Some x) u → ids u ⊆ ids t → x ∉ ids u →
  ∃ o', replace_subtree o x (rt u) = Ok o' ∧ at_ o' p u ∧ same_off (ids_above p ∪ ids t) o o'.
Proof.
  intros Hat Hx Hu Hsub Hxu. pose proof Hat as (Hp & Ht & Hd). unfold replace_subtree. rewrite Hx in Hp. pose proof (rt_in _ _ Hx) as Hin.
  rewrite (root_parent o p t x Hat Hx), ok_bind.
  assert (Hrec : ∃ c1 c2 b, nodes o !! x = Some (rec false (top p) c1 c2 b)).
  { destruct t; [done|]. injection Hx as ->. destruct Ht as [Ht _]. eauto. }
  destruct Hrec as (c1 & c2 & b & Hrec).
  destruct (set_child_spec o p x (rt u) Hp) as (o1 & -> & Hp1 & Hoff1); [sets|]. rewrite ok_bind.
  rewrite (get_parent_ok o1 x false (top p) c1 c2 b) by (rewrite Hoff1 by sets; done). rewrite ok_bind.
  destruct (set_parent_of_spec o1 u (Some x) (top p)) as (o2 & -> & Hr2 & Hu2 & Hoff2).
  { eapply holds_same; [|done]. intros y Hy. apply Hoff1. sets. }
  exists o2. split; [done|]. split; [split_and!|].
  - rewrite Hr2. eapply seg_same; [|done]. intros y Hy. apply Hoff2. sets.
  - done.
  - sets.
  - intros y Hy. rewrite Hoff2, Hoff1 by sets. done.
Qed.

Lemma ids_above_app q p : ids_above (q ++ p) = ids_above q ∪ ids_above p.
Proof. induction q as [|[d x b s] q IH]; simpl; [set_solver|]. rewrite IH. set_solver. Qed.

Lemma top_or_app pp q p : top_or pp (q ++ p) = top_or (top_or pp p) q.
Proof. by destruct q. Qed.

Lemma seg_join m pp q p c0 c :
  seg m pp (q ++ p) c0 c ↔
  ∃ c1, seg m (top_or pp p) q c1 c ∧ seg m pp p c0 c1 ∧ ids_above q ## ids_above p.
Proof.
  revert c. induction q as [|[d x b s] q IH]; intros c; simpl.
  { split; [intros H; exists c; split_and!; [done|done|set_solver]|by intros (c1 & -> & ? & _)]. }
  rewrite IH, ids_above_app, top_or_app. split.
  - intros (Hx & (H1 & H2 & H3) & Hs & c1 & Hq & Hp & Hd). exists c1. split_and!; try done; sets_goal.
  - intros (c1 & (Hx & (H1 & H2 & H3) & Hs & Hq) & Hp & Hd). split_and!; try done; sets_goal.
    exists c1. split_and!; try done; sets_goal.
Qed.

(** Another parent for a segment. *)
Lemma seg_parent o pp pp' f q c0 c :
  seg (nodes o) pp (f :: q) c0 c →
  ∃ w o', c0 = Some w ∧ w ∈ ids_above (f :: q) ∧ set_parent o w pp' = Ok o' ∧ seg (nodes o') pp' (f :: q) c0 c ∧
    root o' = root o ∧ same_off {[w]} o o'.
Proof.
  revert f c. induction q as [|g q IH]; intros [d x b s] c; simpl.
  - intros (Hx & Hd & Hs & ->). exists x. rewrite (set_parent_ok _ _ _ _ _ _ _ Hx). eexists.
    split_and!; [done|set_solver|done|apply put_same|by destruct_and!..| |done|done|].
    + eapply holds_same; [|done]. intros y Hy. apply put_other. sets.
    + intros y Hy. apply put_other. sets.
  - intros (Hx & Hd & Hs & Hq). destruct (IH g (Some x) Hq) as (w & o' & -> & Hw & Hset & Hq' & Hr & Hoff).
    assert (Hwx : w ≠ x) by (intros ->; by destruct_and!).
    exists w, o'. split_and!; try done.
    + simpl in Hw. set_solver.
    + rewrite Hoff by sets. done.
    + by destruct_and!.
    + by destruct_and!.
    + by destruct_and!.
    + eapply holds_same; [|done]. intros y Hy. apply Hoff. simpl in Hw. sets.
Qed.

(** The pieces that a swap of [x] and [m] takes apart and puts together: the two nodes, the path [p] above [x], the
    path [q] between them, the left subtree [L] of [m] and the right one [R] of [x]. *)
Section swap.
Context (p q : list frame) (x m : ptr) (L R : tree) (c1 : option ptr).
Context (Hxm : x ≠ m) (Hx : x ∉ ids_above p ∪ ids_above q ∪ ids L ∪ ids R) (Hm : m ∉ ids_above p ∪ ids_above q ∪ ids L ∪ ids R).
Context (Hpq : ids_above p ## ids_above q) (HpL : ids_above p ## ids L) (HpR : ids_above p ## ids R).
Context (HqL : ids_above q ## ids L) (HqR : ids_above q ## ids R) (HLR : ids L ## ids R).

Definition domain : gset ptr := {[x]} ∪ {[m]} ∪ ids_above p ∪ ids_above q ∪ ids L ∪ ids R.

(** The two nodes' records, the lower ends of [p] and [q], and the parents of [q], [L] and [R]. *)
Record parts (o0 o : BAVL) (xr mr : BAVLNode) (pc qp qc lp rp : option ptr) : Prop := {
  p_x : nodes o !! x = Some xr;
  p_m : nodes o !! m = Some mr;
  p_p : above (nodes o) (root o) p pc;
  p_q : seg (nodes o) qp q c1 qc;
  p_L : holds (nodes o) lp L;
  p_R : holds (nodes o) rp R;
  p_off : same_off domain o0 o;
}.

Ltac framed H :=
  lazymatch goal with
  | |- same_off _ _ _ => let y := fresh in let Hy := fresh in
      intros y Hy; rewrite H; [match goal with Ho : same_off domain _ _ |- _ => by apply Ho end|unfold domain in *; sets]
  | |- holds _ _ _ => eapply holds_same; [|eassumption]; let y := fresh in let Hy := fresh in intros y Hy; apply H; sets
  | |- seg _ _ _ _ _ => eapply seg_same; [|eassumption]; let y := fresh in let Hy := fresh in intros y Hy; apply H; sets
  | |- _ !! _ = _ => rewrite H; [eassumption|sets]
  end.

Lemma put_off o y n : same_off {[y]} o (put o y n).
Proof. intros z Hz. apply put_other. sets. Qed.

Section parts.
Context (o0 o : BAVL) (xr mr : BAVLNode) (pc qp qc lp rp : option ptr).
Context (Hparts : parts o0 o xr mr pc qp qc lp rp).

Lemma parts_put_x xr' : parts o0 (put o x xr') xr' mr pc qp qc lp rp.
Proof. destruct Hparts. pose proof (put_off o x xr') as H. split; try framed H. apply put_same. Qed.

Lemma parts_put_m mr' : parts o0 (put o m mr') xr mr' pc qp qc lp rp.
Proof. destruct Hparts. pose proof (put_off o m mr') as H. split; try framed H. apply put_same. Qed.

Lemma parts_child_p old new : pc = Some old → old ∉ ids_above p →
  ∃ o', set_child o (top p) old new = Ok o' ∧ parts o0 o' xr mr new qp qc lp rp.
Proof.
  intros -> Hold. destruct Hparts. destruct (set_child_spec o p old new p_p0 Hold) as (o' & Hs & Hp' & H).
  exists o'. split; [done|]. split; try done; framed H.
Qed.

Lemma parts_child_q f q' old new : q = f :: q' → qc = Some old → old ∉ ids_above q →
  ∃ o', set_child o (Some (f_node f)) old new = Ok o' ∧ parts o0 o' xr mr pc qp new lp rp.
Proof.
  intros Hq -> Hold. destruct Hparts. rewrite Hq in p_q0, Hold.
  destruct (seg_child _ _ _ _ _ _ new p_q0 Hold) as (o' & Hs & Hq' & Hr & H').
  assert (H : same_off (ids_above q) o o') by (rewrite Hq; eapply same_off_mono; [|done]; set_solver).
  exists o'. split; [done|]. rewrite <- Hq in Hq'. split; try done; rewrite ?Hr; framed H.
Qed.

Lemma parts_parent_q f q' qp' : q = f :: q' →
  ∃ w o', c1 = Some w ∧ set_parent_of o c1 qp' = Ok o' ∧ parts o0 o' xr mr pc qp' qc lp rp.
Proof.
  intros Hq. destruct Hparts. rewrite Hq in p_q0.
  destruct (seg_parent o qp qp' f q' c1 qc p_q0) as (w & o' & Hw & Hin & Hs & Hq' & Hr & H').
  assert (H : same_off (ids_above q) o o') by (rewrite Hq; eapply same_off_mono; [|done]; set_solver).
  exists w, o'. split; [done|]. rewrite Hw at 1. split; [done|]. rewrite <- Hq in Hq'. split; try done; rewrite ?Hr; framed H.
Qed.

Lemma parts_parent_L lp' : ∃ o', set_parent_of o (rt L) lp' = Ok o' ∧ parts o0 o' xr mr pc qp qc lp' rp.
Proof.
  destruct Hparts. destruct (set_parent_of_spec o L lp lp' p_L0) as (o' & Hs & Hr & HL & H).
  exists o'. split; [done|]. split; try done; rewrite ?Hr; framed H.
Qed.

Lemma parts_parent_R rp' : ∃ o', set_parent_of o (rt R) rp' = Ok o' ∧ parts o0 o' xr mr pc qp qc lp rp'.
Proof.
  destruct Hparts. destruct (set_parent_of_spec o R rp rp' p_R0) as (o' & Hs & Hr & HR & H).
  exists o'. split; [done|]. split; try done; rewrite ?Hr; framed H.
Qed.
End parts.

(** One access to a node whose record is known. *)
Lemma get_parent_is o y n : nodes o !! y = Some n → get_parent o y = Ok (parent n).
Proof. intros H. unfold get_parent. by rewrite (get_node_ok _ _ _ H). Qed.
Lemma get_link_is o y n d : nodes o !! y = Some n → get_link o y d = Ok (link n d).
Proof. intros H. unfold get_link. by rewrite (get_node_ok _ _ _ H). Qed.
Lemma set_parent_is o y n v :
  nodes o !! y = Some n → set_parent o y v = Ok (put o y (node v (link0 n) (link1 n) (balance n))).
Proof. intros H. unfold set_parent. by rewrite (get_node_ok _ _ _ H). Qed.
Lemma set_link0_is o y n v :
  nodes o !! y = Some n → set_link o y false v = Ok (put o y (node (parent n) v (link1 n) (balance n))).
Proof. intros H. unfold set_link. by rewrite (get_node_ok _ _ _ H). Qed.
Lemma set_link1_is o y n v :
  nodes o !! y = Some n → set_link o y true v = Ok (put o y (node (parent n) (link0 n) v (balance n))).
Proof. intros H. unfold set_link. by rewrite (get_node_ok _ _ _ H). Qed.

(** Read a field, or write one, of [x] or [m]. *)
Ltac read H := first
  [ rewrite (get_parent_is _ _ _ (p_x _ _ _ _ _ _ _ _ _ H)) | rewrite (get_parent_is _ _ _ (p_m _ _ _ _ _ _ _ _ _ H))
  | rewrite (get_link_is _ _ _ _ (p_x _ _ _ _ _ _ _ _ _ H)) | rewrite (get_link_is _ _ _ _ (p_m _ _ _ _ _ _ _ _ _ H)) ];
  rewrite ok_bind; cbn [parent link link0 link1 negb].
Ltac write_x H H' :=
  first [ rewrite (set_parent_is _ _ _ _ (p_x _ _ _ _ _ _ _ _ _ H)) | rewrite (set_link0_is _ _ _ _ (p_x _ _ _ _ _ _ _ _ _ H))
        | rewrite (set_link1_is _ _ _ _ (p_x _ _ _ _ _ _ _ _ _ H)) ];
  rewrite ok_bind; cbn [parent link0 link1 balance]; eapply parts_put_x in H as H'.
Ltac write_m H H' :=
  first [ rewrite (set_parent_is _ _ _ _ (p_m _ _ _ _ _ _ _ _ _ H)) | rewrite (set_link0_is _ _ _ _ (p_m _ _ _ _ _ _ _ _ _ H))
        | rewrite (set_link1_is _ _ _ _ (p_m _ _ _ _ _ _ _ _ _ H)) ];
  rewrite ok_bind; cbn [parent link0 link1 balance]; eapply parts_put_m in H as H'.

Lemma swap_separate_parts o f q' bx bm :
  q = f :: q' →
  parts o o (node (top p) c1 (rt R) bx) (node (Some (f_node f)) (rt L) None bm) (Some x) (Some x) (Some m) (Some m) (Some x) →
  ∃ o', swap_separate o x m = Ok o' ∧
    parts o o' (node (Some (f_node f)) (rt L) None bx) (node (top p) c1 (rt R) bm) (Some m) (Some m) (Some x) (Some x) (Some m).
Proof.
  intros Hq H0. unfold swap_separate, attach. do 2 read H0. write_x H0 H1.
  destruct (parts_child_q _ _ _ _ _ _ _ _ _ H1 f q' m (Some x) Hq eq_refl) as (o2 & -> & H2); [sets|]. rewrite ok_bind.
  write_m H2 H3.
  destruct (parts_child_p _ _ _ _ _ _ _ _ _ H3 x (Some m) eq_refl) as (o4 & -> & H4); [sets|]. rewrite ok_bind.
  do 2 read H4. write_x H4 H5.
  destruct (parts_parent_L _ _ _ _ _ _ _ _ _ H5 (Some x)) as (o6 & -> & H6). rewrite ok_bind. write_m H6 H7.
  destruct (parts_parent_q _ _ _ _ _ _ _ _ _ H7 f q' (Some m) Hq) as (w & o8 & Hw & -> & H8). rewrite ok_bind.
  do 2 read H8. write_x H8 H9. cbn [set_parent_of]. rewrite ok_bind. write_m H9 H10.
  destruct (parts_parent_R _ _ _ _ _ _ _ _ _ H10 (Some m)) as (o11 & -> & H11). eauto.
Qed.

Lemma swap_connected_parts o bx bm :
  q = [] → c1 = Some m →
  parts o o (node (top p) (Some m) (rt R) bx) (node (Some x) (rt L) None bm) (Some x) (Some x) (Some m) (Some m) (Some x) →
  ∃ o', swap_connected o x m = Ok o' ∧
    parts o o' (node (Some m) (rt L) None bx) (node (top p) (Some x) (rt R) bm) (Some m) (Some x) (Some m) (Some x) (Some m).
Proof.
  intros Hq Hc1 H0. unfold swap_connected, attach. read H0.
  rewrite bool_decide_eq_false_2 by (intros E; symmetry in E; apply rt_in in E; sets). cbn [negb].
  do 2 read H0. write_x H0 H1.
  destruct (parts_parent_L _ _ _ _ _ _ _ _ _ H1 (Some x)) as (o2 & -> & H2). rewrite ok_bind. read H2. write_x H2 H3.
  cbn [set_parent_of]. rewrite ok_bind. read H3. write_m H3 H4.
  destruct (parts_child_p _ _ _ _ _ _ _ _ _ H4 x (Some m) eq_refl) as (o5 & -> & H5); [sets|]. rewrite ok_bind.
  write_m H5 H6. write_x H6 H7. write_m H7 H8.
  destruct (parts_parent_R _ _ _ _ _ _ _ _ _ H8 (Some m)) as (o9 & -> & H9). eauto.
Qed.
End swap.

(** The pieces of a tree with the focus at [z], the last node of the path [q] below [y]. *)
Definition disjoint_pieces (p q : list frame) (x m : ptr) (L R : tree) : Prop :=
  x ≠ m ∧ (x ∉ ids_above p ∪ ids_above q ∪ ids L ∪ ids R) ∧ (m ∉ ids_above p ∪ ids_above q ∪ ids L ∪ ids R) ∧
  ids_above p ## ids_above q ∧ ids_above p ## ids L ∧ ids_above p ## ids R ∧
  ids_above q ## ids L ∧ ids_above q ## ids R ∧ ids L ## ids R.

Lemma at_pieces o p q y b' R z b L :
  at_ o (q ++ Frame false y b' R :: p) (Node L z b Leaf) ↔
  disjoint_pieces p q y z L R ∧
  ∃ c, nodes o !! z = Some (node (top_or (Some y) q) (rt L) None b) ∧
    nodes o !! y = Some (node (top p) c (rt R) b') ∧ seg (nodes o) (Some y) q c (Some z) ∧
    above (nodes o) (root o) p (Some y) ∧ holds (nodes o) (Some z) L ∧ holds (nodes o) (Some y) R.
Proof.
  unfold at_, disjoint_pieces. rewrite seg_join, top_or_app, ids_above_app. simpl. split.
  - intros ((c & Hq & (Hy & (H1 & H2 & H3) & HR & Hp) & Hd) & (Hz & (H4 & H5 & H6) & HL & _) & Hd2).
    split; [split_and!; sets|]. by exists c.
  - intros ((H1 & H2 & H3 & H4 & H5 & H6 & H7 & H8 & H9) & c & Hz & Hy & Hq & Hp & HL & HR).
    split_and!; sets_goal; try done. exists c. split_and!; sets_goal; try done.
Qed.

Lemma at_plug_app o q p t : at_ o (q ++ p) t ↔ at_ o p (plug q t).
Proof.
  revert t. induction q as [|[d x b s] q IH]; intros t; [done|]. simpl. by rewrite at_plug1, IH.
Qed.

Lemma swap_nodes_spec o p q x bx R m bm L :
  at_ o (q ++ Frame false x bx R :: p) (Node L m bm Leaf) →
  ∃ o', swap_nodes o x m = Ok o' ∧ at_ o' (q ++ Frame false m bx R :: p) (Node L x bm Leaf) ∧
    same_off (domain p q x m L R) o o'.
Proof.
  intros Hat. apply at_pieces in Hat as (Hdj & c & Hm & Hx & Hq & Hp & HL & HR).
  pose proof Hdj as (H1 & H2 & H3 & H4 & H5 & H6 & H7 & H8 & H9).
  assert (Hparts : parts p q x m L R c o o (node (top p) c (rt R) bx) (node (top_or (Some x) q) (rt L) None bm)
    (Some x) (Some x) (Some m) (Some m) (Some x)) by (by split).
  assert (Hswap : ∃ o' c', (if bool_decide (top_or (Some x) q = Some x) then swap_connected o x m else swap_separate o x m) = Ok o' ∧
    at_ o' (q ++ Frame false m bm R :: p) (Node L x bx Leaf) ∧ same_off (domain p q x m L R) o o' ∧
    nodes o' !! x = Some (node (top_or (Some m) q) (rt L) None bx) ∧ nodes o' !! m = Some (node (top p) c' (rt R) bm)).
  { assert (Hdj' : disjoint_pieces p q m x L R) by (split_and!; done).
    destruct q as [|f q'] eqn:Eq; cbn [top_or] in *.
    - cbn [seg] in Hq. subst c. rewrite bool_decide_eq_true_2 by done.
      destruct (swap_connected_parts p [] x m L R (Some m) H1 H2 H3 H4 H5 H6 H7 H8 H9 o bx bm eq_refl eq_refl Hparts)
        as (o' & Hs & []). exists o', (Some x). split_and!; try done. apply at_pieces. split; [done|]. by exists (Some x).
    - rewrite bool_decide_eq_false_2 by (intros [= E]; simpl in H2; set_solver).
      destruct (swap_separate_parts p (f :: q') x m L R c H1 H2 H3 H4 H5 H6 H7 H8 H9 o f q' bx bm eq_refl Hparts)
        as (o' & Hs & []). exists o', c. split_and!; try done. apply at_pieces. split; [done|]. by exists c. }
  unfold swap_nodes. rewrite (get_parent_is _ _ _ Hx), ok_bind, (get_parent_is _ _ _ Hm), ok_bind. cbn [parent].
  rewrite bool_decide_eq_false_2.
  2: { destruct p as [|f p]; [done|]. simpl. intros [= E]. simpl in H3. set_solver. }
  destruct Hswap as (o1 & c' & -> & Hat1 & Hoff1 & Hx1 & Hm1). rewrite ok_bind. unfold get_balance.
  rewrite (get_node_ok _ _ _ Hx1), ok_bind, ok_bind, (get_node_ok _ _ _ Hm1), ok_bind, ok_bind. cbn [balance].
  destruct (set_balance_spec o1 _ false L x bx Leaf Hat1 bm) as (o2 & -> & Hat2 & Hoff2). rewrite ok_bind.
  apply at_plug_app, at_plug1 in Hat2. simpl in Hat2.
  destruct (set_balance_spec o2 _ false _ m bm R Hat2 bx) as (o3 & Hs3 & Hat3 & Hoff3). exists o3. split; [done|]. split.
  - apply at_plug_app, at_plug1. done.
  - intros y Hy. rewrite Hoff3, Hoff2, Hoff1; [done|done|..]; unfold domain in Hy; set_solver.
Qed.

End BAVLShape.

(** ** The operations on the tree as a sequence *)

Module BAVLFacts.
Import Tree TreeFacts BAVL BAVLShape.

(** *** Sizes *)

Lemma holds_mapped m p t x : holds m p t → x ∈ ids t → is_Some (m !! x).
Proof.
  revert p. induction t as [|l IHl y b r IHr]; intros p; simpl; [set_solver|]. intros (Hy & _ & Hl & Hr) Hx.
  apply elem_of_union in Hx as [[->%elem_of_singleton|Hx]%elem_of_union|Hx]; eauto.
Qed.

Lemma holds_nodup m p t : holds m p t → NoDup (elements t).
Proof.
  revert p. induction t as [|l IHl y b r IHr]; intros p; simpl; [constructor|]. intros (Hy & (H1 & H2 & H3) & Hl & Hr).
  rewrite ids_elements in H1, H2. apply NoDup_app. split_and!; [eauto| |by constructor; eauto].
  intros z Hz [->|Hz']%elem_of_cons; [done|]. apply (H3 z); by apply ids_elements.
Qed.

Lemma holds_size m p t : holds m p t → (length (elements t) ≤ size m)%nat.
Proof.
  intros H. rewrite <- size_dom, <- (size_list_to_set (C := gset ptr)) by (by eapply holds_nodup).
  apply subseteq_size. intros x Hx%elem_of_list_to_set. apply elem_of_dom. eapply holds_mapped; [done|by apply ids_elements].
Qed.

(** The nodes before and after a subtree. *)
Fixpoint before (p : list frame) : list ptr :=
  match p with
  | [] => []
  | Frame d x b s :: p => before p ++ if d then elements s ++ [x] else []
  end.
Fixpoint after (p : list frame) : list ptr :=
  match p with
  | [] => []
  | Frame d x b s :: p => (if d then [] else x :: elements s) ++ after p
  end.

Lemma elements_plug_at p : ∀ t, elements (plug p t) = before p ++ elements t ++ after p.
Proof.
  induction p as [|[d x b s] p IH]; intros t; simpl; [by rewrite app_nil_r|]. rewrite IH.
  destruct d; simpl; rewrite <- ?app_assoc; simpl; by rewrite <- ?app_assoc.
Qed.

Lemma length_path p : (length p ≤ length (before p) + length (after p))%nat.
Proof. induction p as [|[d x b s] p IH]; simpl; [lia|]. destruct d; rewrite ?length_app; simpl; rewrite ?length_app; lia. Qed.

Lemma at_size o p t : at_ o p t → (length p + length (elements t) ≤ size (nodes o))%nat.
Proof.
  intros H. apply at_plug in H as (_ & H & _). apply holds_size in H. rewrite elements_plug_at, !length_app in H.
  pose proof (length_path p). lia.
Qed.

Lemma height_elements t : height t ≤ Z.of_nat (length (elements t)).
Proof. induction t as [|l IHl x b r IHr]; simpl; [lia|]. rewrite length_app. simpl. lia. Qed.

(** A node of the tree has its place in it. *)
Lemma find_node p t x : x ∈ elements t → ∃ q l b r, plug p t = plug q (Node l x b r).
Proof.
  revert p. induction t as [|l IHl y b r IHr]; intros p; simpl; [by intros ?%not_elem_of_nil|].
  intros [Hx|[->|Hx]%elem_of_cons]%elem_of_app.
  - destruct (IHl (Frame false y b r :: p) Hx) as (q & H). by exists q.
  - by exists p, l, b, r.
  - destruct (IHr (Frame true y b l :: p) Hx) as (q & H). by exists q.
Qed.

(** *** Walking along one side *)

Lemma plug_app q p t : plug (q ++ p) t = plug p (plug q t).
Proof. revert t. induction q as [|[d x b s] q IH]; intros t; [done|]. simpl. by rewrite IH. Qed.

Lemma before_app q p : before (q ++ p) = before p ++ before q.
Proof. induction q as [|[d x b s] q IH]; simpl; [by rewrite app_nil_r|]. by rewrite IH, app_assoc. Qed.

Lemma after_app q p : after (q ++ p) = after q ++ after p.
Proof. induction q as [|[d x b s] q IH]; simpl; [done|]. by rewrite IH, app_assoc. Qed.

Lemma outermost_spec d t : ∀ o p n fuel, at_ o p t → rt t = Some n → height t ≤ Z.of_nat fuel →
  ∃ y q u b, outermost fuel o n d = Ok y ∧ t = plug q (join d Leaf y b u) ∧
    (if d then after q = [] else before q = []).
Proof.
  induction t as [|l IHl x b r IHr]; intros o p n fuel Hat; [done|]. intros [= <-] Hfuel. simpl in Hfuel.
  pose proof (height_nonneg l). pose proof (height_nonneg r).
  destruct fuel as [|fuel]; [lia|]. cbn [outermost].
  assert (Hstep : ∀ t s, Node l x b r = join d t x b s → height t ≤ Z.of_nat fuel →
    (∀ o p n fuel, at_ o p t → rt t = Some n → height t ≤ Z.of_nat fuel →
      ∃ y q u b, outermost fuel o n d = Ok y ∧ t = plug q (join d Leaf y b u) ∧ (if d then after q = [] else before q = [])) →
    ∃ y q u b', (l ← get_link o x d; match l with Some n => outermost fuel o n d | None => Ok x end) = Ok y ∧
      Node l x b r = plug q (join d Leaf y b' u) ∧ (if d then after q = [] else before q = [])).
  { intros t s E Ht IH. rewrite E in Hat |- *. rewrite (get_link_ok _ _ _ _ _ _ _ (focus_rec _ _ _ _ _ _ _ Hat)), ok_bind.
    destruct (rt t) as [n|] eqn:Hr; [|destruct t; [|done]; exists x, [], s, b; by destruct d].
    apply at_plug1 in Hat. destruct (IH _ _ _ fuel Hat eq_refl Ht) as (y & q & u & b' & Hy & Hp & Ha).
    exists y, (q ++ [Frame d x b s]), u, b'. rewrite plug_app, <- Hp. split_and!; [done|done|].
    destruct d; [rewrite after_app|rewrite before_app]; by rewrite Ha. }
  destruct d; [eapply (Hstep r l)|eapply (Hstep l r)]; [done|lia|eauto|done|lia|eauto].
Qed.

Lemma climb_spec d p : ∀ o t n fuel, at_ o p t → rt t = Some n → (length p < fuel)%nat →
  climb fuel o n d = Ok (if d then head (after p) else last (before p)).
Proof.
  induction p as [|[e x b s] p IH]; intros o t n fuel Hat Hn Hfuel; (destruct fuel as [|fuel]; [lia|]); cbn [climb].
  { rewrite (root_parent _ _ _ _ Hat Hn), ok_bind. by destruct d. }
  rewrite (root_parent _ _ _ _ Hat Hn), ok_bind. cbn [top_or f_node].
  pose proof (at_sibling _ _ _ _ _ _ _ n Hat (rt_in _ _ Hn)) as Hs.
  pose proof (proj1 (at_plug1 _ _ _ _ _ _ _) Hat) as Hat1. pose proof (focus_rec _ _ _ _ _ _ _ Hat1) as Hx.
  assert (Hl : ∃ l, get_link o x d = Ok l ∧ bool_decide (Some n = l) = Bool.eqb d e).
  { destruct (decide (d = e)) as [->|Hne].
    - rewrite (get_link_ok _ _ _ _ _ _ _ Hx). eexists; split; [done|]. rewrite Hn, bool_decide_eq_true_2; [by destruct e|done].
    - replace d with (negb e) by (by destruct d, e). rewrite (get_link_other _ _ _ _ _ _ _ Hx). eexists; split; [done|].
      rewrite bool_decide_eq_false_2; [by destruct e|]. intros E. symmetry in E. by apply rt_in in E. }
  destruct Hl as (l & -> & Hl). rewrite ok_bind, Hl. simpl in Hfuel. destruct d, e; simpl.
  - rewrite (IH o _ x fuel Hat1); [done|apply rt_join|lia].
  - done.
  - by rewrite app_assoc, last_snoc.
  - rewrite (IH o _ x fuel Hat1); [by rewrite app_nil_r|apply rt_join|lia].
Qed.

(** *** The search *)

(** The comparison of the entries with a value is consistent with their order. *)
Definition monotone (lt : ptr → ptr → Prop) (cmp : ptr → Z) : Prop :=
  (∀ y, -1 ≤ cmp y ≤ 1) ∧ ∀ y z, lt y z → 0 ≤ cmp z → 0 < cmp y.

Lemma compare_values_ok z : -1 ≤ z ≤ 1 → compare_values z = Ok z.
Proof. intros. unfold compare_values. by rewrite c_assert_true by lia. Qed.

Section ordered.
Context (lt : ptr → ptr → Prop) (cmp : ptr → Z) (Hcmp : monotone lt cmp).

(** Where the search stops in a subtree with the entries [l]. *)
Definition found (o : BAVL) (p : list frame) (t : tree) (c : ptr) (r : option bool) : Prop :=
  match r with
  | None => c ∈ elements t ∧ cmp c = 0
  | Some side => ∃ q b s A B, at_ o (Frame side c b s :: q) Leaf ∧ plug (Frame side c b s :: q) Leaf = plug p t ∧
      before (Frame side c b s :: q) = before p ++ A ∧ after (Frame side c b s :: q) = B ++ after p ∧
      elements t = A ++ B ∧ Forall (λ y, 0 < cmp y) A ∧ Forall (λ y, cmp y < 0) B
  end.

Lemma descend_spec t : ∀ o p c fuel, at_ o p t → rt t = Some c → sorted lt (elements t) → height t ≤ Z.of_nat fuel →
  ∃ c' r, descend fuel o cmp c = Ok (c', r) ∧ found o p t c' r.
Proof.
  destruct Hcmp as [Hval Hmono].
  induction t as [|l IHl x b r IHr]; intros o p c fuel Hat; [done|]. intros [= <-] Hs Hfuel. simpl in Hs, Hfuel.
  apply sorted_app in Hs as (Hsl & [Hxr Hsr] & Hlx). rewrite Forall_forall in Hxr.
  pose proof (height_nonneg l). pose proof (height_nonneg r). destruct fuel as [|fuel]; [lia|]. cbn [descend].
  rewrite compare_values_ok, ok_bind by done. destruct (Z.eqb_spec (cmp x) 0) as [Hz|Hz].
  { exists x, None. split; [done|]. split; [simpl; set_solver|done]. }
  destruct (Z.eqb_spec (cmp x) 1) as [Ho|Ho].
  - assert (HA : Forall (λ y, 0 < cmp y) (elements l ++ [x])).
    { apply Forall_app. split; [|constructor; [lia|done]]. apply Forall_forall. intros y Hy.
      apply (Hmono y x); [apply Hlx; [done|by left]|lia]. }
    change (Node l x b r) with (join true r x b l) in Hat |- *.
    rewrite (get_link_ok _ _ _ _ _ _ _ (focus_rec _ _ _ _ _ _ _ Hat)), ok_bind. apply at_plug1 in Hat.
    destruct (rt r) as [c|] eqn:Hr.
    + destruct (IHr _ _ _ fuel Hat eq_refl Hsr) as (c' & e & -> & Hf); [lia|]. exists c', e. split; [done|].
      destruct e as [e|]; [|destruct Hf; simpl; split; [set_solver|done]].
      destruct Hf as (q & b' & s & A & B & Ha & Hp & Hb & Hc & He & HfA & HfB).
      exists q, b', s, (elements l ++ [x] ++ A), B. split_and!; try done.
      * rewrite Hb. cbn [before]. by rewrite <- !app_assoc.
      * cbn [join elements]. rewrite He. by rewrite <- app_assoc.
      * rewrite app_assoc. by apply Forall_app.
    + destruct r; [|done]. exists x, (Some true). split; [done|]. exists p, b, l, (elements l ++ [x]), [].
      split_and!; try done. simpl. by rewrite app_nil_r.
  - assert (HB : Forall (λ y, cmp y < 0) (x :: elements r)).
    { pose proof (Hval x). constructor; [lia|]. apply Forall_forall. intros y Hy.
      destruct (Z.ltb_spec (cmp y) 0) as [?|Hge]; [done|]. pose proof (Hmono x y (Hxr y Hy) Hge). lia. }
    change (Node l x b r) with (join false l x b r) in Hat |- *.
    rewrite (get_link_ok _ _ _ _ _ _ _ (focus_rec _ _ _ _ _ _ _ Hat)), ok_bind. apply at_plug1 in Hat.
    destruct (rt l) as [c|] eqn:Hl.
    + destruct (IHl _ _ _ fuel Hat eq_refl Hsl) as (c' & e & -> & Hf); [lia|]. exists c', e. split; [done|].
      destruct e as [e|]; [|destruct Hf; simpl; split; [set_solver|done]].
      destruct Hf as (q & b' & s & A & B & Ha & Hp & Hb & Hc & He & HfA & HfB).
      exists q, b', s, A, (B ++ x :: elements r). split_and!; try done.
      * rewrite Hb. cbn [before]. by rewrite app_nil_r.
      * rewrite Hc. cbn [after]. by rewrite <- app_assoc.
      * cbn [join elements]. rewrite He. by rewrite <- app_assoc.
      * by apply Forall_app.
    + destruct l; [|done]. exists x, (Some false). split; [done|]. exists p, b, r, [], (x :: elements r).
      split_and!; try done; simpl; by rewrite !app_nil_r.
Qed.

End ordered.

(** *** Insertion *)

Lemma get_mapped o x : is_Some (nodes o !! x) → ∃ n, get o x = Ok n.
Proof. intros [n Hn]. exists n. by apply get_node_ok. Qed.

Lemma dom_put o x n : x ∈ dom (nodes o) → dom (nodes (put o x n)) = dom (nodes o).
Proof. intros Hx. cbn. rewrite dom_insert_L. set_solver. Qed.

Lemma at_dom o p t y : at_ o p t → y ∈ ids_above p ∪ ids t → y ∈ dom (nodes o).
Proof.
  intros Hat Hy. apply at_plug in Hat as (_ & Hat & _). apply elem_of_dom. eapply holds_mapped; [done|]. by rewrite ids_plug.
Qed.

Lemma same_off_dom o o' S : same_off S o o' → (∀ y, y ∈ S → y ∈ dom (nodes o)) → (∀ y, y ∈ S → y ∈ dom (nodes o')) →
  dom (nodes o') = dom (nodes o).
Proof.
  intros Hoff H H'. apply set_eq. intros y. destruct (decide (y ∈ S)) as [Hy|Hy]; [naive_solver|].
  by rewrite !elem_of_dom, Hoff.
Qed.

Lemma reshaped_dom o p t o' t' : at_ o p t → reshaped p o t o' t' → dom (nodes o') = dom (nodes o).
Proof.
  intros Hat (Hat' & _ & He & Hoff). apply (same_off_dom _ _ _ Hoff); intros y Hy; [by eapply at_dom|].
  eapply at_dom; [exact Hat'|]. by rewrite (elements_ids _ _ He).
Qed.

(** A new leaf. *)
Lemma graft_spec o d c b s q n :
  at_ o (Frame d c b s :: q) Leaf → n ∉ ids_above (Frame d c b s :: q) → n ∈ dom (nodes o) →
  ∃ o1 v, set_link o c d (Some n) = Ok o1 ∧ get o1 n = Ok v ∧ dom (nodes o1) = dom (nodes o) ∧
    at_ (put o1 n (node (Some c) None None 0)) (Frame d c b s :: q) (Node Leaf n 0 Leaf).
Proof.
  intros Hat Hn Hdom. pose proof (at_dom _ _ _ c Hat ltac:(simpl; set_solver)) as Hc. simpl in Hn.
  destruct Hat as ((Hx & Hd & Hs & Hp) & _). cbn [rt] in Hx. pose proof (set_link_ok _ _ _ _ _ _ _ Hx (Some n)) as Hset.
  destruct (get_mapped (put o c (rec d (top q) (Some n) (rt s) b)) n) as [v Hv].
  { apply elem_of_dom. by rewrite dom_put. }
  eexists _, v. split; [exact Hset|]. split; [done|]. split; [by apply dom_put|].
  set (o1 := put o c _) in *.
  assert (Hoff : ∀ S : gset ptr, n ∉ S → c ∉ S →
    ∀ y, y ∈ S → nodes (put o1 n (node (Some c) None None 0)) !! y = nodes o !! y).
  { intros S H1 H2 y Hy. unfold o1. rewrite !put_other by set_solver. done. }
  split; [|split; [|simpl; set_solver]].
  - split_and!; [rewrite put_other by set_solver; apply put_same|by destruct_and!..| |].
    + eapply holds_same; [|done]. apply Hoff; sets.
    + eapply seg_same; [|done]. apply Hoff; sets.
  - split_and!; [apply put_same|set_solver..|done|done].
Qed.

(** The memory holds a balanced search tree with these entries in order. *)
Definition tree_ok (lt : ptr → ptr → Prop) (o : BAVL) (l : list ptr) : Prop :=
  ∃ t, at_ o [] t ∧ balanced t ∧ elements t = l ∧ sorted lt l.

(** What the trees require of a comparator: it orders the values, and values between which it finds no difference
    compare alike with the others. *)
Class Comparator (compare : ptr → ptr → Z) (lt : ptr → ptr → Prop) := {
  compare_range x y : -1 ≤ compare x y ≤ 1;
  compare_lt x y : compare x y < 0 ↔ lt x y;
  compare_gt x y : 0 < compare x y ↔ lt y x;
  lt_between x y z : lt x z → lt x y ∨ lt y z;
}.

Section operations.
Context (compare : ptr → ptr → Z) (lt : ptr → ptr → Prop) `{Hcompare : !Comparator compare lt}.

Lemma compare_monotone n : monotone lt (compare n).
Proof.
  split; [apply compare_range|]. intros y z Hyz Hz. apply compare_gt.
  destruct (lt_between y n z Hyz) as [?|H]; [done|]. apply compare_lt in H. lia.
Qed.

Lemma at_root o t : at_ o [] t → root o = rt t.
Proof. by intros (? & _). Qed.

Lemma height_enough o t : at_ o [] t → height t ≤ Z.of_nat (enough o).
Proof. intros Hat. pose proof (at_size _ _ _ Hat). pose proof (height_elements t). unfold enough. simpl in *. lia. Qed.

Lemma path_enough o p t : at_ o p t → (length p < enough o)%nat.
Proof. intros Hat. pose proof (at_size _ _ _ Hat). unfold enough. lia. Qed.

(** A search in the whole tree. *)
Lemma search_spec o l c cmp : tree_ok lt o l → root o = Some c → monotone lt cmp →
  ∃ t c' r, descend (enough o) o cmp c = Ok (c', r) ∧ found cmp o [] t c' r ∧ balanced t ∧ elements t = l ∧ sorted lt l.
Proof.
  intros (t & Hat & Hb & <- & Hs) Hr Hcmp. rewrite (at_root _ _ Hat) in Hr.
  destruct (descend_spec lt cmp Hcmp t o [] c (enough o) Hat Hr Hs (height_enough _ _ Hat)) as (c' & r & -> & Hf).
  by exists t, c', r.
Qed.

Lemma insert_equal l n c : sorted lt l → c ∈ l → compare n c = 0 → Tree.Insert compare l n = None.
Proof.
  induction l as [|y l IH]; intros Hs Hc H0; [by apply not_elem_of_nil in Hc|]. destruct Hs as [Hy Hs]. simpl.
  apply elem_of_cons in Hc as [->|Hc]; [by rewrite H0|].
  rewrite Forall_forall in Hy. pose proof (proj2 (compare_monotone n) y c (Hy c Hc)) as Hm.
  rewrite (proj2 (Z.ltb_ge _ _)), (proj2 (Z.eqb_neq _ _)), IH by (done || lia). done.
Qed.

Lemma insert_spec o l n :
  tree_ok lt o l → n ∈ dom (nodes o) → n ∉ l →
  ∃ o' r, dom (nodes o') = dom (nodes o) ∧
    match Tree.Insert compare l n with
    | Some l' => BAVL_Insert compare o n = Ok (o', true, r) ∧ tree_ok lt o' l'
    | None => BAVL_Insert compare o n = Ok (o', false, r) ∧ tree_ok lt o' l
    end.
Proof.
  intros Hok Hn Hnl. unfold BAVL_Insert. destruct (root o) as [c|] eqn:Hr.
  - destruct (search_spec _ _ _ (compare n) Hok Hr (compare_monotone n)) as (t & c' & [side|] & -> & Hf & Hb & He & Hs);
      rewrite ok_bind; cbn [found] in Hf.
    + destruct Hf as (q & b & s & A & B & Hat & Hp & HA & HB & Hel & HfA & HfB).
      rewrite app_nil_r in HB. change (before [] ++ A) with A in HA. rewrite Hel in He. subst l.
      assert (Hnq : n ∉ ids_above (Frame side c' b s :: q)).
      { intros Hin. apply Hnl. rewrite <- Hel. change t with (plug [] t). rewrite <- Hp. apply ids_elements. rewrite ids_plug. set_solver. }
      destruct (graft_spec _ _ _ _ _ _ n Hat Hnq Hn) as (o1 & v & -> & Hv & Hdom & Hat1). rewrite ok_bind, Hv, ok_bind.
      set (o2 := put o1 n _) in *. assert (Hdom2 : dom (nodes o2) = dom (nodes o)) by (rewrite <- Hdom; apply dom_put; by rewrite Hdom).
      change (plug [] t) with t in Hp. rewrite <- Hp in Hb. apply balanced_plug in Hb as [_ Hb].
      destruct (rebalance_spec (enough o2) q o2 side c' b s (Node Leaf n 0 Leaf) 1 Hat1) as (o' & t' & -> & Hre); [simpl; lia|done|lia| |].
      { pose proof (path_enough _ _ _ Hat1). simpl in *. lia. }
      rewrite ok_bind. pose proof (proj1 (at_plug _ _ _) Hat1) as Hat2. pose proof (reshaped_dom _ _ _ _ _ Hat2 Hre) as Hdom'.
      exists o', (Some c'). split; [congruence|]. rewrite (Insert_middle compare A B n HfA HfB). split; [done|].
      destruct Hre as (Hat' & Hb' & He' & _). exists t'. split; [done|]. split; [done|].
      assert (E : elements t' = A ++ n :: B) by (rewrite He', elements_plug_at, HA, HB; done). split; [done|].
      apply sorted_app in Hs as (HsA & HsB & HAB). rewrite Forall_forall in HfA, HfB. apply sorted_app. split; [done|].
      split; [split; [|done]|].
      * apply Forall_forall. intros y Hy. by apply compare_lt, HfB.
      * intros y z Hy [->|Hz]%elem_of_cons; [|by apply HAB]. by apply compare_gt, HfA.
    + destruct Hf as [Hin H0]. exists o, (Some c'). split; [done|]. rewrite He in Hin.
      rewrite (insert_equal l n c' Hs Hin H0). done.
  - destruct Hok as (t & Hat & Hb & <- & Hs). pose proof (at_root _ _ Hat) as Hrt. rewrite Hr in Hrt. destruct t; [|done].
    destruct (get_mapped o n) as [v ->]; [by apply elem_of_dom|]. rewrite ok_bind.
    exists (put (set_root o (Some n)) n (node None None None 0)), None. split; [by apply (dom_put (set_root o (Some n)))|].
    simpl. split; [done|]. exists (Node Leaf n 0 Leaf). split_and!; [|simpl; lia|done..|constructor|done].
    split; [done|]. split; [|set_solver]. split_and!; [apply put_same|set_solver..|done|done].
Qed.

(** *** Removal *)

Lemma set_parent_dom o x v o' : set_parent o x v = Ok o' → dom (nodes o') = dom (nodes o).
Proof. intros H. unfold set_parent, get in H. inv_ok. apply dom_put. by apply elem_of_dom. Qed.

Lemma set_link_dom o x d v o' : set_link o x d v = Ok o' → dom (nodes o') = dom (nodes o).
Proof. intros H. unfold set_link, get in H. inv_ok. apply dom_put. by apply elem_of_dom. Qed.

Lemma replace_subtree_dom o x v o' : replace_subtree o x v = Ok o' → dom (nodes o') = dom (nodes o).
Proof.
  intros H. unfold replace_subtree in H. apply bind_ok in H as (p & _ & H). apply bind_ok in H as (o1 & H1 & H).
  apply bind_ok in H as (p' & _ & H). trans (dom (nodes o1)).
  - destruct v as [v|]; [by eapply set_parent_dom|by injection H as ->].
  - destruct p as [p|]; simpl in H1; [|by injection H1 as <-]. apply bind_ok in H1 as (l & _ & H1). by eapply set_link_dom.
Qed.

Lemma unlink_spec o p e n b u :
  at_ o p (join e Leaf n b u) → balanced u → balanced_above p (1 + height u) →
  ∃ o' t', unlink o n = Ok o' ∧ dom (nodes o') = dom (nodes o) ∧ at_ o' [] t' ∧ balanced t' ∧
    elements t' = before p ++ elements u ++ after p.
Proof.
  intros Hat Hu Hp. pose proof (focus_rec _ _ _ _ _ _ _ Hat) as Hrec.
  assert (Hlinks : get_link o n false = Ok (if e then rt u else None) ∧ get_link o n true = Ok (if e then None else rt u)).
  { unfold get_link. rewrite (get_node_ok _ _ _ Hrec), !ok_bind. by destruct e. }
  unfold unlink. destruct Hlinks as [-> ->]. rewrite !ok_bind, c_assert_true by (by destruct e, (rt u)).
  pose proof (root_parent _ _ _ n Hat (rt_join _ _ _ _ _)) as Hpar. rewrite Hpar, ok_bind.
  replace (match (if e then rt u else None) with Some _ => if e then rt u else None | None => if e then None else rt u end)
    with (rt u) by (by destruct e, (rt u)).
  pose proof Hat as (_ & Ht & _). rewrite holds_join in Ht. destruct Ht as (_ & (_ & Hnu & _) & _ & Hhu).
  destruct (replace_subtree_spec o p _ n u Hat (rt_join _ _ _ _ _) Hhu) as (o1 & Hs1 & Hat1 & Hoff1);
    [rewrite ids_join; set_solver|done|].
  assert (Hdom1 : dom (nodes o1) = dom (nodes o)).
  { by eapply replace_subtree_dom. }
  destruct p as [|[d x bx s] p]; cbn [top_or f_node] in *.
  - rewrite Hs1. exists o1, u. rewrite app_nil_r. done.
  - destruct (side_of _ _ _ _ _ _ _ n Hat (at_sibling _ _ _ _ _ _ _ n Hat (rt_in _ _ (rt_join _ _ _ _ _))) (rt_join _ _ _ _ _))
      as (l1 & -> & Hl1). rewrite ok_bind, Hs1, ok_bind, Hl1.
    destruct (rebalance_spec (enough o1) p o1 d x bx s u (-1) Hat1 Hu) as (o' & t' & Hreb & Hre).
    { by replace (height u - -1) with (1 + height u) by lia. }
    { lia. }
    { pose proof (path_enough _ _ _ Hat1). simpl in *. lia. }
    pose proof (proj1 (at_plug _ _ _) Hat1) as Hat2. pose proof (reshaped_dom _ _ _ _ _ Hat2 Hre) as Hdom'.
    exists o', t'. split; [done|]. split; [congruence|]. destruct Hre as (Hat' & Hb' & He' & _). split_and!; try done.
    by rewrite He', elements_plug_at.
Qed.

Lemma balanced_above_rename q d x y b s p : ∀ h,
  balanced_above (q ++ Frame d x b s :: p) h ↔ balanced_above (q ++ Frame d y b s :: p) h.
Proof. induction q as [|[d2 x2 b2 s2] q IH]; intros h; simpl; [done|]. by rewrite IH. Qed.

Lemma swap_domain p q x m L R b bm d :
  domain p q x m L R ⊆ ids_above (q ++ Frame d x b R :: p) ∪ ids (Node L m bm Leaf).
Proof. unfold domain. rewrite ids_above_app. simpl. set_solver. Qed.

Lemma swap_domain' p q x m L R b bm d :
  domain p q x m L R ⊆ ids_above (q ++ Frame d m b R :: p) ∪ ids (Node L x bm Leaf).
Proof. unfold domain. rewrite ids_above_app. simpl. set_solver. Qed.

(** The tree's entries without the node [n] of it. *)
Lemma remove_spec o q l n b r :
  at_ o q (Node l n b r) → balanced (plug q (Node l n b r)) →
  ∃ o' t', BAVL_Remove o n = Ok o' ∧ dom (nodes o') = dom (nodes o) ∧ at_ o' [] t' ∧ balanced t' ∧
    elements t' = before q ++ (elements l ++ elements r) ++ after q.
Proof.
  intros Hat Hb. pose proof Hat as (_ & (Hn & _) & _). pose proof Hb as Hb0. apply balanced_plug in Hb0 as [(Hbn & Hbl & Hbr) Hbq].
  unfold BAVL_Remove. rewrite !(get_link_is _ _ _ _ Hn), !ok_bind. cbn [link link0 link1].
  destruct (rt l) as [ll|] eqn:Hl; [destruct (rt r) as [rr|] eqn:Hr|].
  - pose proof (proj2 (at_plug1 o false n b r q l) Hat) as Hat1. unfold subtree_max.
    destruct (outermost_spec true l o _ ll (enough o) Hat1 Hl) as (m & q2 & u & bm & -> & El & Ha).
    { pose proof (at_size _ _ _ Hat1). pose proof (height_elements l). unfold enough. lia. }
    rewrite ok_bind. rewrite El in Hat1. apply at_plug_app in Hat1. cbn [join] in Hat1.
    destruct (swap_nodes_spec _ _ _ _ _ _ _ _ _ Hat1) as (o1 & -> & Hat2 & Hoff2). rewrite ok_bind.
    change (Node u n bm Leaf) with (join true Leaf n bm u) in Hat2.
    assert (Hb2 : balanced (plug (q2 ++ Frame false n b r :: q) (Node u m bm Leaf))).
    { rewrite plug_app. cbn [plug]. change (Node u m bm Leaf) with (join true Leaf m bm u). by rewrite <- El. }
    apply balanced_plug in Hb2 as [(_ & Hbu & _) Hb2]. rewrite (balanced_above_rename _ _ _ m) in Hb2.
    replace (height (Node u m bm Leaf)) with (1 + height u) in Hb2 by (simpl; pose proof (height_nonneg u); lia).
    destruct (unlink_spec _ _ _ _ _ _ Hat2 Hbu Hb2) as (o' & t' & -> & Hdom & Hat' & Hbal & He).
    exists o', t'. split; [done|]. split; [|split_and!; [done..|]].
    + rewrite Hdom. apply (same_off_dom _ _ _ Hoff2); intros y Hy.
      * eapply at_dom; [exact Hat1|]. by eapply swap_domain.
      * eapply at_dom; [exact Hat2|]. by eapply swap_domain'.
    + rewrite He, before_app, after_app, Ha, El, elements_plug_at, Ha. cbn [before after elements join app].
      rewrite !app_nil_r. by rewrite <- !app_assoc.
  - destruct r; [|done]. rewrite ok_bind. change (Node l n b Leaf) with (join true Leaf n b l) in Hat.
    replace (height (Node l n b Leaf)) with (1 + height l) in Hbq by (simpl; pose proof (height_nonneg l); lia).
    destruct (unlink_spec _ _ _ _ _ _ Hat Hbl Hbq) as (o' & t' & -> & Hdom & Hat' & Hbal & He).
    exists o', t'. by rewrite app_nil_r.
  - destruct l; [|done]. rewrite ok_bind. change (Node Leaf n b r) with (join false Leaf n b r) in Hat.
    replace (height (Node Leaf n b r)) with (1 + height r) in Hbq by (simpl; pose proof (height_nonneg r); lia).
    destruct (unlink_spec _ _ _ _ _ _ Hat Hbr Hbq) as (o' & t' & -> & Hdom & Hat' & Hbal & He).
    exists o', t'. done.
Qed.

(** Neighbours of [n] in the order. *)
Fixpoint next_of (l : list ptr) (n : ptr) : option ptr :=
  match l with [] => None | x :: l => if bool_decide (x = n) then head l else next_of l n end.
Definition prev_of (l : list ptr) (n : ptr) : option ptr := next_of (reverse l) n.

Lemma next_of_middle l r n : n ∉ l → next_of (l ++ n :: r) n = head r.
Proof.
  induction l as [|x l IH]; intros Hn; simpl; [by rewrite bool_decide_eq_true_2|].
  rewrite bool_decide_eq_false_2, IH by set_solver. done.
Qed.

Lemma prev_of_middle l r n : n ∉ r → prev_of (l ++ n :: r) n = last l.
Proof.
  intros Hn. unfold prev_of. rewrite reverse_app, reverse_cons, <- app_assoc. simpl.
  rewrite next_of_middle by by rewrite elem_of_reverse. by rewrite head_reverse.
Qed.

Lemma next_spec o q l n b r :
  at_ o q (Node l n b r) → BAVL_GetNext o n = Ok (head (elements r ++ after q)).
Proof.
  intros Hat. pose proof Hat as (_ & (Hn & _) & _). unfold BAVL_GetNext. rewrite (get_link_is _ _ _ _ Hn), ok_bind.
  cbn [link link1]. pose proof (proj2 (at_plug1 o true n b l q r) Hat) as Hat1. destruct (rt r) as [rr|] eqn:Hr.
  - destruct (outermost_spec false r o _ rr (enough o) Hat1 Hr) as (m & q2 & u & bm & -> & El & Ha).
    { pose proof (at_size _ _ _ Hat1). pose proof (height_elements r). unfold enough. lia. }
    rewrite ok_bind, El, elements_plug_at, Ha. done.
  - destruct r; [|done]. by rewrite (climb_spec true q o _ n (enough o) Hat eq_refl (path_enough _ _ _ Hat)).
Qed.

Lemma prev_spec o q l n b r :
  at_ o q (Node l n b r) → BAVL_GetPrev o n = Ok (last (before q ++ elements l)).
Proof.
  intros Hat. pose proof Hat as (_ & (Hn & _) & _). unfold BAVL_GetPrev. rewrite (get_link_is _ _ _ _ Hn), ok_bind.
  cbn [link link0]. pose proof (proj2 (at_plug1 o false n b r q l) Hat) as Hat1. destruct (rt l) as [ll|] eqn:Hl.
  - destruct (outermost_spec true l o _ ll (enough o) Hat1 Hl) as (m & q2 & u & bm & -> & El & Ha).
    { pose proof (at_size _ _ _ Hat1). pose proof (height_elements l). unfold enough. lia. }
    rewrite ok_bind, El, elements_plug_at, Ha. cbn [join elements]. by rewrite app_nil_r, !app_assoc, last_snoc.
  - destruct l; [|done]. cbn [elements]. rewrite app_nil_r.
    by rewrite (climb_spec false q o _ n (enough o) Hat eq_refl (path_enough _ _ _ Hat)).
Qed.

(** *** The checks of [BAVL_Verify] *)

Lemma compare_of x y : lt x y → compare x y = -1 ∧ compare y x = 1.
Proof.
  intros H. pose proof (compare_range x y). pose proof (compare_range y x).
  pose proof (proj2 (compare_lt x y) H). pose proof (proj2 (compare_gt y x) H). lia.
Qed.

Lemma assert_recurser_spec t : ∀ o p n fuel, at_ o p t → rt t = Some n → balanced t → sorted lt (elements t) →
  height t ≤ Z.of_nat fuel → assert_recurser compare fuel o n = Ok (height t).
Proof.
  induction t as [|l IHl x b r IHr]; intros o p n fuel Hat; [done|]. intros [= <-] ((Hb & Hb1) & Hbl & Hbr) Hs Hfuel.
  simpl in Hs, Hfuel. apply sorted_app in Hs as (Hsl & [Hxr Hsr] & Hlx). rewrite Forall_forall in Hxr.
  pose proof (height_nonneg l). pose proof (height_nonneg r). destruct fuel as [|fuel]; [lia|]. cbn [assert_recurser].
  pose proof Hat as (_ & (Hx & _) & _). unfold get_balance. rewrite (get_node_ok _ _ _ Hx), !ok_bind. cbn [balance].
  rewrite !c_assert_true by lia. rewrite !(get_link_is _ _ _ _ Hx), !ok_bind. cbn [link link0 link1].
  assert (Hsub : ∀ d t s order, Node l x b r = join d t x b s →
    (∀ c, rt t = Some c → compare c x = order) → (∀ o p n fuel, at_ o p t → rt t = Some n → balanced t →
      sorted lt (elements t) → height t ≤ Z.of_nat fuel → assert_recurser compare fuel o n = Ok (height t)) →
    balanced t → sorted lt (elements t) → height t ≤ Z.of_nat fuel →
    match rt t with
    | Some c => p ← get_parent o c; ASSERT bool_decide (p = Some x);; comp ← compare_values (compare c x);
        ASSERT comp =? order;; assert_recurser compare fuel o c
    | None => Ok 0
    end = Ok (height t)).
  { intros d t s order E Hc IH Hbt Hst Hf. destruct (rt t) as [c|] eqn:Hrt; [|by destruct t].
    rewrite E in Hat. apply at_plug1 in Hat. rewrite (root_parent _ _ _ _ Hat Hrt), ok_bind.
    rewrite c_assert_true by by apply bool_decide_eq_true. rewrite compare_values_ok, ok_bind by apply compare_range.
    rewrite c_assert_true by (apply Z.eqb_eq; by apply Hc). by eapply IH. }
  rewrite (Hsub false l r (-1) eq_refl), ok_bind; [|..|done|done|done|lia].
  2: { intros c Hc. by apply compare_of, Hlx; [apply ids_elements, rt_in|left]. }
  rewrite (Hsub true r l 1 eq_refl), ok_bind; [|..|done|done|done|lia].
  2: { intros c Hc. by apply compare_of, Hxr, ids_elements, rt_in. }
  rewrite c_assert_true by lia. cbn [height]. f_equal. unfold BAVL_MAX. case_if; lia.
Qed.

Lemma verify_spec o l : tree_ok lt o l → BAVL_Verify compare o = Ok tt.
Proof.
  intros (t & Hat & Hb & <- & Hs). unfold BAVL_Verify. rewrite (at_root _ _ Hat). destruct (rt t) as [r|] eqn:Hr; [|done].
  rewrite (root_parent _ _ _ _ Hat Hr), ok_bind, c_assert_true by by apply bool_decide_eq_true.
  by rewrite (assert_recurser_spec t o [] r (enough o) Hat Hr Hb Hs (height_enough _ _ Hat)).
Qed.

(** *** Every operation *)

Definition spec_op (l : list ptr) (c : op) : list ptr * value :=
  match c with
  | Insert n => match Tree.Insert compare l n with Some l' => (l', Bool true) | None => (l, Bool false) end
  | Remove n => (Tree.Remove l n, Unit)
  | LookupExact cmp => (l, Pointer (Tree.LookupExact cmp l))
  | GetFirst => (l, Pointer (Tree.GetFirst l))
  | GetLast => (l, Pointer (last l))
  | GetNext n => (l, Pointer (next_of l n))
  | GetPrev n => (l, Pointer (prev_of l n))
  | IsEmpty => (l, Bool (Tree.IsEmpty l))
  | Verify => (l, Unit)
  end.

(** What a caller has to respect: a node that is inserted is in memory ([mem]) and not in the tree, a node that is
    removed or asked for its neighbours is in the tree, the function of a lookup is consistent with the order. *)
Definition allowed (mem : gset ptr) (l : list ptr) (c : op) : Prop :=
  match c with
  | Insert n => n ∈ mem ∧ n ∉ l
  | Remove n | GetNext n | GetPrev n => n ∈ l
  | LookupExact cmp => monotone lt cmp
  | _ => True
  end.

Lemma find_at o t n : at_ o [] t → n ∈ elements t →
  ∃ q l b r, at_ o q (Node l n b r) ∧ t = plug q (Node l n b r) ∧ elements t = before q ++ (elements l ++ n :: elements r) ++ after q.
Proof.
  intros Hat Hn. destruct (find_node [] t n Hn) as (q & l & b & r & E). simpl in E. exists q, l, b, r.
  split; [apply at_plug; by rewrite <- E|]. split; [done|]. by rewrite E, elements_plug_at.
Qed.

(** The entries around one of them. *)
Lemma sorted_around l n r : sorted lt (l ++ n :: r) → (n ∉ l) ∧ (n ∉ r) ∧ sorted lt (l ++ r).
Proof.
  rewrite !sorted_app. intros (Hl & [Hn Hr] & Hlr). rewrite Forall_forall in Hn.
  assert (Hirr : ¬ lt n n) by exact (lt_irrefl compare lt compare_lt compare_gt n).
  split_and!; [|by intros ?%Hn|done|done|].
  - intros H. apply Hirr. apply (Hlr n n H). by left.
  - intros x y Hx Hy. apply Hlr; [done|by right].
Qed.

Lemma lookup_spec o l cmp : tree_ok lt o l → monotone lt cmp → BAVL_LookupExact o cmp = Ok (Tree.LookupExact cmp l).
Proof.
  intros Hok Hcmp. unfold BAVL_LookupExact. destruct (root o) as [c|] eqn:Hr.
  - destruct (search_spec _ _ _ _ Hok Hr Hcmp) as (t & c' & [side|] & -> & Hf & Hb & He & Hs); rewrite ok_bind; f_equal.
    + destruct Hf as (q & b & s & A & B & _ & _ & _ & _ & Hel & HA & HB). rewrite Hel in He. subst l.
      symmetry. apply LookupExact_None. intros x Hx. rewrite Forall_forall in HA, HB.
      apply elem_of_app in Hx as [Hx|Hx]; [apply HA in Hx|apply HB in Hx]; lia.
    + destruct Hf as [Hin H0]. rewrite He in Hin. symmetry.
      destruct (Tree.LookupExact cmp l) as [x|] eqn:Hx; [|by destruct (proj1 (LookupExact_None cmp l) Hx c' Hin)].
      apply LookupExact_Some in Hx as [Hx Hx0]. destruct Hcmp as [_ Hmono].
      destruct (sorted_distinct lt l c' x Hs Hin Hx) as [->|[H|H]]; [done|apply Hmono in H; lia..].
  - destruct Hok as (t & Hat & _ & <- & _). rewrite (at_root _ _ Hat) in Hr. by destruct t.
Qed.

Lemma first_spec o l : tree_ok lt o l → BAVL_GetFirst o = Ok (Tree.GetFirst l).
Proof.
  intros (t & Hat & _ & <- & _). unfold BAVL_GetFirst. rewrite (at_root _ _ Hat). destruct (rt t) as [n|] eqn:Hr; [|by destruct t].
  destruct (outermost_spec false t o [] n (enough o) Hat Hr (height_enough _ _ Hat)) as (y & q & u & b & -> & -> & Hq).
  by rewrite ok_bind, elements_plug_at, Hq.
Qed.

Lemma last_spec o l : tree_ok lt o l → BAVL_GetLast o = Ok (last l).
Proof.
  intros (t & Hat & _ & <- & _). unfold BAVL_GetLast. rewrite (at_root _ _ Hat). destruct (rt t) as [n|] eqn:Hr; [|by destruct t].
  destruct (outermost_spec true t o [] n (enough o) Hat Hr (height_enough _ _ Hat)) as (y & q & u & b & -> & -> & Hq).
  rewrite ok_bind, elements_plug_at, Hq. cbn [join elements]. by rewrite app_nil_r, !app_assoc, last_snoc.
Qed.

Lemma op_spec o l c : tree_ok lt o l → allowed (dom (nodes o)) l c →
  ∃ o', run_op compare o c = Ok (o', (spec_op l c).2) ∧ dom (nodes o') = dom (nodes o) ∧ tree_ok lt o' (spec_op l c).1.
Proof.
  intros Hok Hc. pose proof Hok as (t & Hat & Hb & <- & Hs). destruct c as [n|n|cmp| | |n|n| |]; simpl in *.
  - destruct Hc as [Hn Hnl]. destruct (insert_spec o _ n Hok Hn Hnl) as (o' & r & Hdom & H).
    exists o'. destruct (Tree.Insert _ _ _); destruct H as [-> H]; done.
  - destruct (find_at _ _ _ Hat Hc) as (q & l & b & r & Hat' & E & El). rewrite El in *.
    destruct (remove_spec o q l n b r Hat') as (o' & t' & -> & Hdom & Ht' & Hb' & He'); [by rewrite <- E|].
    exists o'. split; [done|]. split; [done|]. exists t'. split; [done|]. split; [done|].
    rewrite <- !app_assoc, app_assoc in Hs |- *. simpl in Hs |- *. destruct (sorted_around _ _ _ Hs) as (H1 & _ & H3).
    rewrite Remove_middle by done. rewrite He', <- !app_assoc. by rewrite <- !app_assoc in H3.
  - exists o. by rewrite (lookup_spec _ _ _ Hok Hc).
  - exists o. by rewrite (first_spec _ _ Hok).
  - exists o. by rewrite (last_spec _ _ Hok).
  - exists o. split; [|done]. destruct (find_at _ _ _ Hat Hc) as (q & l & b & r & Hat' & E & El). rewrite El in *.
    rewrite (next_spec _ _ _ _ _ _ Hat'), ok_bind. rewrite <- !app_assoc, app_assoc in Hs |- *. simpl in Hs |- *.
    destruct (sorted_around _ _ _ Hs) as (H1 & _). by rewrite next_of_middle.
  - exists o. split; [|done]. destruct (find_at _ _ _ Hat Hc) as (q & l & b & r & Hat' & E & El). rewrite El in *.
    rewrite (prev_spec _ _ _ _ _ _ Hat'), ok_bind. rewrite <- !app_assoc, app_assoc in Hs |- *. simpl in Hs |- *.
    destruct (sorted_around _ _ _ Hs) as (_ & H2 & _). by rewrite prev_of_middle.
  - exists o. split; [|done]. unfold BAVL_IsEmpty. rewrite (at_root _ _ Hat). destruct t as [|l x b r]; [done|]. simpl.
    by destruct (elements l).
  - exists o. by rewrite (verify_spec _ _ Hok).
Qed.

(** A run of the operations, with what they return. *)
Fixpoint run_ops (o : BAVL) (cs : list op) : result (BAVL * list value) :=
  match cs with
  | [] => Ok (o, [])
  | c :: cs => '(o, v) ← run_op compare o c; '(o, vs) ← run_ops o cs; Ok (o, v :: vs)
  end.

Fixpoint spec_ops (l : list ptr) (cs : list op) : list ptr * list value :=
  match cs with
  | [] => (l, [])
  | c :: cs => let r := spec_op l c in let rs := spec_ops r.1 cs in (rs.1, r.2 :: rs.2)
  end.

Fixpoint allowed_ops (mem : gset ptr) (l : list ptr) (cs : list op) : Prop :=
  match cs with [] => True | c :: cs => allowed mem l c ∧ allowed_ops mem (spec_op l c).1 cs end.

Lemma ops_spec cs : ∀ o l, tree_ok lt o l → allowed_ops (dom (nodes o)) l cs →
  ∃ o', run_ops o cs = Ok (o', (spec_ops l cs).2) ∧ tree_ok lt o' (spec_ops l cs).1.
Proof.
  induction cs as [|c cs IH]; intros o l Hok Hc; [by exists o|]. destruct Hc as [Hc Hcs].
  destruct (op_spec _ _ _ Hok Hc) as (o1 & Hrun & Hdom & Hok1). rewrite <- Hdom in Hcs.
  destruct (IH _ _ Hok1 Hcs) as (o2 & Hrun2 & Hok2). exists o2. simpl. by rewrite Hrun, ok_bind, Hrun2, ok_bind.
Qed.

Lemma empty_ok mem : tree_ok lt (BAVL_Init mem) [].
Proof. exists Leaf. split_and!; try done; split; done. Qed.

(** *** The height *)

Lemma square_sum a c P Q M : 1 ≤ a → 1 ≤ c → P ≤ a * a → Q ≤ c * c → M ≤ 2 * P → M ≤ 2 * Q → M = P ∨ M = Q →
  2 * M ≤ (a + c) * (a + c).
Proof.
  intros Ha Hc HP HQ HMP HMQ HM. assert (M ≤ 2 * (a * c)) by (destruct (Z.le_gt_cases a c); nia). destruct HM; subst; nia.
Qed.

Lemma height_size t : balanced t → 2 ^ height t ≤ (Z.of_nat (length (elements t)) + 1) * (Z.of_nat (length (elements t)) + 1).
Proof.
  induction t as [|l IHl x b r IHr]; [by intros _|]. intros ((Hb & Hb1) & Hl & Hr). specialize (IHl Hl). specialize (IHr Hr).
  cbn [height elements]. rewrite length_app, length_cons. pose proof (height_nonneg l). pose proof (height_nonneg r).
  replace (Z.of_nat (length (elements l) + S (length (elements r))) + 1)
    with ((Z.of_nat (length (elements l)) + 1) + (Z.of_nat (length (elements r)) + 1)) by lia.
  rewrite Z.pow_add_r by lia. change (2 ^ 1) with 2.
  apply (square_sum _ _ (2 ^ height l) (2 ^ height r)); [lia|lia|done|done|..].
  - rewrite <- Z.pow_succ_r by lia. apply Z.pow_le_mono_r; lia.
  - rewrite <- Z.pow_succ_r by lia. apply Z.pow_le_mono_r; lia.
  - destruct (Z.max_spec (height l) (height r)) as [[_ ->]|[_ ->]]; [by right|by left].
Qed.

Lemma descend_more cmp : ∀ fuel fuel' o c r, descend fuel o cmp c = Ok r → (fuel ≤ fuel')%nat → descend fuel' o cmp c = Ok r.
Proof.
  induction fuel as [|fuel IH]; intros fuel' o c r H Hle; [done|]. destruct fuel' as [|fuel']; [lia|]. cbn [descend] in *.
  destruct (compare_values (cmp c)) as [z|]; [|done]. rewrite ok_bind in *. case_match; [done|].
  destruct (get_link o c _) as [[y|]|]; [|done|done]. rewrite ok_bind in *. apply IH; [done|lia].
Qed.

(** What [BAVL_Lookup] finds: an equal entry, or one next to where the value would be. *)
Theorem bavl_lookup_nearest o l cmp : tree_ok lt o l → monotone lt cmp →
  ∃ r, BAVL_Lookup o cmp = Ok r ∧
    match r with
    | None => l = []
    | Some c => c ∈ l ∧ (cmp c = 0 ∨ ∃ A B, l = A ++ B ∧ Forall (λ y, 0 < cmp y) A ∧ Forall (λ y, cmp y < 0) B ∧
                          (last A = Some c ∨ head B = Some c))
    end.
Proof.
  intros Hok Hcmp. unfold BAVL_Lookup. destruct (root o) as [c|] eqn:Hr.
  - destruct (search_spec _ _ _ _ Hok Hr Hcmp) as (t & c' & [side|] & -> & Hf & Hb & He & Hs); rewrite ok_bind;
      exists (Some c'); (split; [done|]); rewrite <- He.
    + destruct Hf as (q & b & s & A & B & _ & Hp & HA & HB & Hel & HfA & HfB). rewrite app_nil_r in HB.
      change (before [] ++ A) with A in HA. split.
      * apply ids_elements. change t with (plug [] t). rewrite <- Hp, ids_plug. set_solver.
      * right. exists A, B. split_and!; try done. rewrite <- HA, <- HB. destruct side; simpl; [left|by right].
        by rewrite app_assoc, last_snoc.
    + destruct Hf. split; [done|by left].
  - destruct Hok as (t & Hat & _ & <- & _). rewrite (at_root _ _ Hat) in Hr. exists None. by destruct t.
Qed.

(** C24: Whatever insertions, removals, lookups and traversals a user makes, from an empty tree:
    no pointer is followed that is not a node's and no assertion fails (those of BAVL_Verify
    included), every call returns what the same operation of the sorted sequence returns,
    and the tree stays a balanced search tree of the sequence's entries. *)
Theorem bavl_refines mem cs : allowed_ops (dom mem) [] cs →
  ∃ o', run_ops (BAVL_Init mem) cs = Ok (o', (spec_ops [] cs).2) ∧ tree_ok lt o' (spec_ops [] cs).1.
Proof. exact (ops_spec cs (BAVL_Init mem) [] (empty_ok mem)). Qed.

(** C25: A search in a tree of n entries looks at no more than 2*log2(n+1) nodes. *)
Theorem bavl_search_steps o l c cmp fuel :
  tree_ok lt o l → monotone lt cmp → root o = Some c →
  (Z.of_nat (length l) + 1) * (Z.of_nat (length l) + 1) ≤ 2 ^ Z.of_nat fuel →
  is_ok (descend fuel o cmp c) ∧ descend (enough o) o cmp c = descend fuel o cmp c.
Proof.
  intros (t & Hat & Hb & <- & Hs) Hcmp Hr Hfuel. rewrite (at_root _ _ Hat) in Hr.
  assert (Hh : height t ≤ Z.of_nat fuel).
  { pose proof (height_size t Hb). apply (Z.pow_le_mono_r_iff 2); [lia|lia|]. lia. }
  destruct (descend_spec lt cmp Hcmp t o [] c fuel Hat Hr Hs Hh) as (c' & r & Hrun & _). rewrite Hrun.
  split; [by eexists|].
  destruct (descend_spec lt cmp Hcmp t o [] c (enough o) Hat Hr Hs (height_enough _ _ Hat)) as (c2 & r2 & Hrun2 & _).
  rewrite Hrun2. destruct (Nat.le_ge_cases fuel (enough o)) as [Hle|Hle].
  - by rewrite (descend_more _ _ _ _ _ _ Hrun Hle) in Hrun2.
  - by rewrite (descend_more _ _ _ _ _ _ Hrun2 Hle) in Hrun.
Qed.

End operations.

(** *** Concrete runs *)

Definition z_compare (x y : ptr) : Z := Z.sgn (x - y).

#[export] Instance z_comparator : Comparator z_compare Z.lt.
Proof. unfold z_compare. split; intros; lia. Qed.

Definition memory_upto (n : nat) : gmap ptr BAVLNode :=
  list_to_map ((λ i, (Z.of_nat i, node None None None 0)) <$> seq 0 n).

Definition inserts (n : nat) : list op := (λ i, Insert (Z.of_nat i)) <$> seq 0 n.

Definition find (z : Z) : op := LookupExact (z_compare z).

(** The rules of [allowed] for a list of operations. *)
Ltac check_allowed :=
  lazymatch goal with
  | |- allowed_ops _ _ _ _ [] => exact I
  | |- allowed_ops _ _ _ _ (_ :: _) =>
      split; [lazymatch goal with
              | |- allowed _ _ _ (Insert _) => split; [by apply elem_of_dom; eexists|apply (bool_decide_unpack _); by vm_compute]
              | |- allowed _ _ _ (find _) => exact (compare_monotone z_compare Z.lt _)
              | |- _ => cbn [allowed]; first [exact I | apply (bool_decide_unpack _); by vm_compute]
              end|check_allowed]
  end.

Lemma bavl_refines_witness :
  ∃ o', run_ops z_compare (BAVL_Init (memory_upto 8))
          [Insert 4; Insert 2; Insert 6; Insert 1; Insert 3; Insert 5; Insert 7; Insert 0; Verify; find 5; Remove 4; find 4;
           GetFirst; GetLast; GetNext 3; GetPrev 0; Remove 6; Remove 7; Remove 5; Verify; IsEmpty] =
        Ok (o', [Bool true; Bool true; Bool true; Bool true; Bool true; Bool true; Bool true; Bool true; Unit;
                 Pointer (Some 5); Unit; Pointer None; Pointer (Some 0); Pointer (Some 7); Pointer (Some 5); Pointer None;
                 Unit; Unit; Unit; Unit; Bool false]) ∧ tree_ok Z.lt o' [0; 1; 2; 3].
Proof.
  refine (bavl_refines z_compare Z.lt (memory_upto 8) _ _).
  check_allowed.
Defined.

Lemma bavl_search_steps_witness :
  ∃ o c, run_ops z_compare (BAVL_Init (memory_upto 15)) (inserts 15) = Ok (o, repeat (Bool true) 15) ∧ root o = Some c ∧
    is_ok (descend 8 o (z_compare 11) c) ∧ descend (enough o) o (z_compare 11) c = descend 8 o (z_compare 11) c.
Proof.
  destruct (ops_spec z_compare Z.lt (inserts 15) (BAVL_Init (memory_upto 15)) []) as (o & Hrun & Hok); [by apply empty_ok| |].
  { let cs := eval vm_compute in (inserts 15) in change (inserts 15) with cs. check_allowed. }
  exists o. destruct (root o) as [c|] eqn:Hc; [|by destruct Hok as ([] & (Hr & _) & _ & He & _); [|simpl in Hr; congruence]].
  exists c. split; [exact Hrun|]. split; [done|].
  apply (bavl_search_steps Z.lt o _ c (z_compare 11) 8 Hok); [apply (compare_monotone z_compare Z.lt)|done|by vm_compute].
Defined.

End BAVLFacts.
