(* ===== verification/LinkedList.v ===== *)
(** * Doubly linked lists: structure/LinkedList1.h

    The lists of timers that have expired, of connections by use, and of clients link nodes that are parts of other
    objects.  The components that keep such lists are modelled over sequences; [LinkedList1] has the code, over a
    memory of nodes with their two pointers, and [LinkedListFacts] shows that it implements sequences. *)

From S2P Require Import Prelude CMem.

Module LinkedList1.

(** The nodes in memory, by address. *)
Record nodes := mknodes {
  p : gmap Z Z;
  n : gmap Z Z;
}.

Record t := mk {
  first : ptr;
  last : ptr;
}.

Definition get_p (m : nodes) (e : ptr) : result Z := or_fault BadAccess (p m !! e).
Definition get_n (m : nodes) (e : ptr) : result Z := or_fault BadAccess (n m !! e).

(** Writing to a node; a pointer that is not a node's, as NULL, is a bad access. *)
Definition set_p (m : nodes) (e v : ptr) : result nodes :=
  _ ← get_p m e; Ok (mknodes (<[e := v]> (p m)) (n m)).
Definition set_n (m : nodes) (e v : ptr) : result nodes :=
  _ ← get_n m e; Ok (mknodes (p m) (<[e := v]> (n m))).

Definition LinkedList1_Init : t := mk NULL NULL.

Definition LinkedList1_IsEmpty (l : t) : bool := first l =? NULL.

Definition LinkedList1_GetFirst (l : t) : ptr := first l.

Definition LinkedList1_GetLast (l : t) : ptr := last l.

Definition LinkedList1_Prepend (m : nodes) (l : t) (node : ptr) : result (nodes * t) :=
  m ← set_p m node NULL;
  m ← set_n m node (first l);
  if negb (first l =? NULL) then m ← set_p m (first l) node; Ok (m, mk node (last l))
  else Ok (m, mk node node).

Definition LinkedList1_Append (m : nodes) (l : t) (node : ptr) : result (nodes * t) :=
  m ← set_p m node (last l);
  m ← set_n m node NULL;
  if negb (last l =? NULL) then m ← set_n m (last l) node; Ok (m, mk (first l) node)
  else Ok (m, mk node node).

Definition LinkedList1_InsertBefore (m : nodes) (l : t) (node target : ptr) : result (nodes * t) :=
  tp ← get_p m target;
  m ← set_p m node tp;
  m ← set_n m node target;
  '(m, l) ← (if negb (tp =? NULL) then m ← set_n m tp node; Ok (m, l) else Ok (m, mk node (last l)));
  m ← set_p m target node;
  Ok (m, l).

Definition LinkedList1_InsertAfter (m : nodes) (l : t) (node target : ptr) : result (nodes * t) :=
  m ← set_p m node target;
  tn ← get_n m target;
  m ← set_n m node tn;
  '(m, l) ← (if negb (tn =? NULL) then m ← set_p m tn node; Ok (m, l) else Ok (m, mk (first l) node));
  m ← set_n m target node;
  Ok (m, l).

Definition LinkedList1_Remove (m : nodes) (l : t) (node : ptr) : result (nodes * t) :=
  np ← get_p m node;
  nn ← get_n m node;
  '(m, l) ← (if negb (np =? NULL) then m ← set_n m np nn; Ok (m, l) else Ok (m, mk nn (last l)));
  if negb (nn =? NULL) then m ← set_p m nn np; Ok (m, l) else Ok (m, mk (first l) np).

Definition LinkedList1_InsertListAfter (m : nodes) (l : t) (ins_list : t) (target : ptr) : result (nodes * t) :=
  if first ins_list =? NULL then Ok (m, l) else
  t_next ← (if negb (target =? NULL) then get_n m target else Ok (first l));
  m ← set_p m (first ins_list) target;
  m ← set_n m (last ins_list) t_next;
  '(m, l) ← (if negb (target =? NULL) then m ← set_n m target (first ins_list); Ok (m, l)
             else Ok (m, mk (first ins_list) (last l)));
  if negb (t_next =? NULL) then m ← set_p m t_next (last ins_list); Ok (m, l)
  else Ok (m, mk (first l) (last ins_list)).

Definition LinkedList1Node_Next (m : nodes) (node : ptr) : result ptr := get_n m node.

Definition LinkedList1Node_Prev (m : nodes) (node : ptr) : result ptr := get_p m node.

End LinkedList1.

Module LinkedListFacts.
Import LinkedList1.

(** The first of a sequence, or what comes after it; the last, or what comes before. *)
Definition head_or (l : list ptr) (e : ptr) : ptr := match l with [] => e | x :: _ => x end.
Fixpoint last_or (l : list ptr) (e : ptr) : ptr := match l with [] => e | x :: l => last_or l x end.

(** A part of a list between two pointers. *)
Fixpoint seg (m : nodes) (before : ptr) (l : list ptr) (after : ptr) : Prop :=
  match l with
  | [] => True
  | x :: l => p m !! x = Some before ∧ n m !! x = Some (head_or l after) ∧ seg m x l after
  end.

(** The memory holds the list, of different nodes. *)
Record repr (m : nodes) (o : t) (l : list ptr) : Prop := {
  l_first : first o = head_or l NULL;
  l_last : last o = last_or l NULL;
  l_seg : seg m NULL l NULL;
  l_nodup : NoDup l;
  l_null : NULL ∉ l;
}.

(** The pointers that can be a node. *)
Definition node_at (m : nodes) (x : ptr) : Prop := is_Some (p m !! x) ∧ is_Some (n m !! x).

Lemma last_or_app a b e : last_or (a ++ b) e = last_or b (last_or a e).
Proof. revert e. induction a as [|x a IH]; intros e; [done|apply IH]. Qed.

Lemma last_or_snoc a x e : last_or (a ++ [x]) e = x.
Proof. by rewrite last_or_app. Qed.

Lemma head_or_app a b e : head_or (a ++ b) e = head_or a (head_or b e).
Proof. by destruct a. Qed.

Lemma lseg_app m a b before after :
  seg m before (a ++ b) after ↔ seg m before a (head_or b after) ∧ seg m (last_or a before) b after.
Proof.
  revert before. induction a as [|x a IH]; intros before; simpl; [tauto|]. rewrite IH, head_or_app. tauto.
Qed.

(** A part of a list depends on its own nodes only. *)
Lemma lseg_frame m m' l before after :
  (∀ x, x ∈ l → p m' !! x = p m !! x ∧ n m' !! x = n m !! x) → seg m before l after → seg m' before l after.
Proof.
  revert before. induction l as [|x l IH]; intros before H; simpl; [done|]. intros (H1 & H2 & H3).
  destruct (H x) as [-> ->]; [by left|]. split; [done|]. split; [done|]. apply IH; [|done]. intros y Hy. apply H. by right.
Qed.

(** A pointer that may be NULL is written through only if it is not. *)
Definition upd (m : gmap Z Z) (e v : ptr) : gmap Z Z := if e =? NULL then m else <[e := v]> m.

Lemma upd_ne m e v x : x ≠ e → upd m e v !! x = m !! x.
Proof. intros H. unfold upd. case_if; [done|]. by apply lookup_insert_ne. Qed.

Lemma upd_eq m e v : e ≠ NULL → upd m e v !! e = Some v.
Proof. intros H. unfold upd. rewrite (proj2 (Z.eqb_neq _ _) H). apply lookup_insert_eq. Qed.

Lemma last_in l e : last_or l e = e ∨ last_or l e ∈ l.
Proof. revert e. induction l as [|x l IH]; intros e; [by left|]. right. simpl. destruct (IH x) as [->|?]; [by left | by right]. Qed.

(** The sequence as a list in memory. *)
Definition list_of (l : list ptr) : t := mk (head_or l NULL) (last_or l NULL).

Lemma repr_nil m : repr m LinkedList1_Init [].
Proof. split; [done|done|done|apply NoDup_nil_2|apply not_elem_of_nil]. Qed.

Lemma repr_of m o l : repr m o l → o = list_of l.
Proof. intros [H1 H2 _ _ _]. destruct o. unfold list_of. simpl in *. congruence. Qed.

(** A part of a list whose ends get new neighbours: these are stored in its first and last node only. *)
Lemma seg_ends m m' l : ∀ before before' after after',
  seg m before l after → NoDup l →
  (∀ y, y ∈ l → y ≠ head_or l NULL → p m' !! y = p m !! y) →
  (∀ y, y ∈ l → y ≠ last_or l NULL → n m' !! y = n m !! y) →
  (l ≠ [] → p m' !! head_or l NULL = Some before' ∧ n m' !! last_or l NULL = Some after') →
  seg m' before' l after'.
Proof.
  induction l as [|x l IH]; intros before before' after after' Hs Hnd Hp Hn He; [done|].
  destruct Hs as (H1 & H2 & H3). apply NoDup_cons in Hnd as [Hx Hnd]. destruct (He ltac:(done)) as [Hph Hnl].
  cbn [head_or last_or seg] in *. split; [done|]. destruct l as [|y l]; [by split|]. cbn [head_or last_or] in *.
  assert (Hxl : x ≠ last_or l y) by (destruct (last_in l y) as [->|?]; intros ->; apply Hx; [by left | by right]).
  split; [rewrite Hn; [done|by left|done]|]. apply (IH x x after after'); try done.
  - intros z Hz Hne. apply Hp; [by right|by intros ->].
  - intros z Hz Hne. apply Hn; [by right|done].
  - intros _. split; [|done]. cbn [head_or]. destruct H3 as (H3 & _). rewrite Hp; [done|by right; left|].
    intros ->. apply Hx. by left.
Qed.

Lemma seg_last m before l : seg m before l NULL → l ≠ [] → n m !! last_or l NULL = Some NULL.
Proof.
  revert before. induction l as [|x l IH]; intros before Hs Hne; [done|]. destruct Hs as (H1 & H2 & H3). simpl.
  destruct l as [|y l]; [done|]. by apply (IH x).
Qed.

Lemma ends_member l : l ≠ [] → head_or l NULL ∈ l ∧ last_or l NULL ∈ l.
Proof.
  destruct l as [|x l]; [done|]. intros _. simpl. split; [by left|].
  destruct (last_in l x) as [->|?]; [by left | by right].
Qed.

Lemma ends_outside l x : x ∉ l → x ≠ NULL → x ≠ head_or l NULL ∧ x ≠ last_or l NULL.
Proof. intros Hx H0. destruct (decide (l = [])) as [->|Hl]; [done|]. destruct (ends_member l Hl). split; by intros ->. Qed.

(** Linking nodes between two parts of a list. *)
Lemma splice_ok m m' a c b before after :
  repr m (list_of (a ++ b)) (a ++ b) → seg m before c after → c ≠ [] → NoDup (a ++ c ++ b) → NULL ∉ c →
  p m' = upd (<[head_or c NULL := last_or a NULL]> (p m)) (head_or b NULL) (last_or c NULL) →
  n m' = upd (<[last_or c NULL := head_or b NULL]> (n m)) (last_or a NULL) (head_or c NULL) →
  repr m' (list_of (a ++ c ++ b)) (a ++ c ++ b).
Proof.
  intros [_ _ Hs Hn Hnull] Hsc Hc Hnd Hcnull Hp Hnn. apply lseg_app in Hs as [Hs1 Hs2].
  assert (NULL ∉ a ∧ NULL ∉ b) as [Hna Hnb] by (split; set_solver + Hnull).
  pose proof Hnd as (Hda & Hacb & (Hdc & Hcb & Hdb)%NoDup_app)%NoDup_app.
  destruct (ends_member c Hc) as [Hh Hl].
  assert (Hout : ∀ (l : list ptr) y, y ∈ l → NULL ∉ l → y ≠ NULL) by (intros l y Hy Hl0 ->; done).
  split; [done|done| |done|].
  - apply lseg_app. rewrite head_or_app. split; [|apply lseg_app; split].
    + eapply (seg_ends m); [exact Hs1|done|..].
      * intros y Hy _. destruct (ends_outside b y) as [Hyb _]; [intros Hb; apply (Hacb y Hy); set_solver + Hb|by eapply Hout|].
        rewrite Hp, upd_ne, lookup_insert_ne; [done| |done]. intros <-. apply (Hacb _ Hy). set_solver + Hh.
      * intros y Hy Hne. rewrite Hnn, upd_ne, lookup_insert_ne; [done| |done]. intros <-. apply (Hacb _ Hy). set_solver + Hl.
      * intros Ha. destruct (ends_member a Ha) as [Hha Hla]. split.
        -- destruct (ends_outside b (head_or a NULL)) as [Hyb _]; [intros Hb; apply (Hacb _ Hha); set_solver + Hb|by eapply Hout|].
           rewrite Hp, upd_ne, lookup_insert_ne; [|intros E; apply (Hacb _ Hha); rewrite <- E; set_solver + Hh|done].
           destruct a; [done|]. by destruct Hs1.
        -- rewrite Hnn, upd_eq by (by eapply Hout). by destruct c.
    + eapply (seg_ends m); [exact Hsc|done|..].
      * intros y Hy Hne. destruct (ends_outside b y) as [Hyb _]; [by apply Hcb|by eapply Hout|].
        by rewrite Hp, upd_ne, lookup_insert_ne.
      * intros y Hy Hne. destruct (ends_outside a y) as [_ Hya]; [intros Ha; apply (Hacb y Ha); set_solver + Hy|by eapply Hout|].
        by rewrite Hnn, upd_ne, lookup_insert_ne.
      * intros _. destruct (ends_outside b (head_or c NULL)) as [Hyb _]; [by apply Hcb|by eapply Hout|].
        destruct (ends_outside a (last_or c NULL)) as [_ Hya]; [intros Ha; apply (Hacb _ Ha); set_solver + Hl|by eapply Hout|].
        by rewrite Hp, Hnn, !upd_ne, !lookup_insert_eq.
    + eapply (seg_ends m); [exact Hs2|done|..].
      * intros y Hy Hne. rewrite Hp, upd_ne, lookup_insert_ne; [done| |done]. intros <-. by apply (Hcb _ Hh).
      * intros y Hy _. destruct (ends_outside a y) as [_ Hya]; [intros Ha; apply (Hacb y Ha); set_solver + Hy|by eapply Hout|].
        rewrite Hnn, upd_ne, lookup_insert_ne; [done| |done]. intros <-. by apply (Hcb _ Hl).
      * intros Hb. destruct (ends_member b Hb) as [Hhb Hlb]. split.
        -- rewrite Hp, upd_eq by (by eapply Hout). by destruct c.
        -- destruct (ends_outside a (last_or b NULL)) as [_ Hya]; [intros Ha; apply (Hacb _ Ha); set_solver + Hlb|by eapply Hout|].
           rewrite Hnn, upd_ne, lookup_insert_ne; [|intros E; apply (Hcb _ Hl); by rewrite E|done].
           destruct (decide (last_or b NULL = NULL)) as [E|_]; [by rewrite E in Hlb|]. by eapply seg_last.
  - rewrite !not_elem_of_app. by split_and!.
Qed.

(** Linking one node. *)
Lemma link_ok m m' a b x :
  repr m (list_of (a ++ b)) (a ++ b) → node_at m x → x ≠ NULL → x ∉ a ++ b →
  p m' = upd (<[x := last_or a NULL]> (p m)) (head_or b NULL) x →
  n m' = upd (<[x := head_or b NULL]> (n m)) (last_or a NULL) x →
  repr m' (list_of (a ++ x :: b)) (a ++ x :: b).
Proof.
  intros Hr [[v Hv] [w Hw]] Hx Hin Hp Hn. pose proof (l_nodup _ _ _ Hr) as Hnd.
  apply (splice_ok m m' a [x] b v w); try done.
  - rewrite not_elem_of_app in Hin. destruct Hin as [Hxa Hxb]. apply NoDup_app in Hnd as (H1 & H2 & H3).
    apply NoDup_app. split; [done|]. split; [|by apply NoDup_cons]. intros y Hy. simpl. rewrite not_elem_of_cons.
    split; [by intros ->|by apply H2].
  - rewrite list_elem_of_singleton. congruence.
Qed.

Lemma unlink_ok m m' a b x :
  repr m (list_of (a ++ x :: b)) (a ++ x :: b) →
  p m' = upd (p m) (head_or b NULL) (last_or a NULL) → n m' = upd (n m) (last_or a NULL) (head_or b NULL) →
  repr m' (list_of (a ++ b)) (a ++ b).
Proof.
  intros [_ _ Hs Hn Hnull] Hp Hnn. apply lseg_app in Hs as [Hs1 (_ & _ & Hs2)].
  pose proof Hn as (Hda & Hab & [Hx Hdb]%NoDup_cons)%NoDup_app.
  assert (NULL ∉ a ∧ NULL ∉ b) as [Hna Hnb] by (split; set_solver + Hnull).
  assert (Hout : ∀ (l : list ptr) y, y ∈ l → NULL ∉ l → y ≠ NULL) by (intros l y Hy Hl0 ->; done).
  assert (Hab' : ∀ y, y ∈ a → y ∉ b) by (intros y Hy Hyb; apply (Hab y Hy); by right).
  split; [done|done| | |set_solver + Hna Hnb].
  - apply lseg_app. split.
    + eapply (seg_ends m); [exact Hs1|done|..].
      * intros y Hy _. destruct (ends_outside b y) as [Hyb _]; [by apply Hab'|by eapply Hout|]. by rewrite Hp, upd_ne.
      * intros y Hy Hne. by rewrite Hnn, upd_ne.
      * intros Ha. destruct (ends_member a Ha) as [Hha Hla]. split.
        -- destruct (ends_outside b (head_or a NULL)) as [Hyb _]; [by apply Hab'|by eapply Hout|].
           rewrite Hp, upd_ne by done. destruct a; [done|]. by destruct Hs1.
        -- rewrite Hnn. apply upd_eq. by eapply Hout.
    + eapply (seg_ends m); [exact Hs2|done|..].
      * intros y Hy Hne. by rewrite Hp, upd_ne.
      * intros y Hy _. destruct (ends_outside a y) as [_ Hya]; [intros Ha; by apply (Hab' y)|by eapply Hout|]. by rewrite Hnn, upd_ne.
      * intros Hb. destruct (ends_member b Hb) as [Hhb Hlb]. split; [rewrite Hp; apply upd_eq; by eapply Hout|].
        destruct (ends_outside a (last_or b NULL)) as [_ Hya]; [intros Ha; by apply (Hab' _ Ha)|by eapply Hout|].
        rewrite Hnn, upd_ne by done. by eapply seg_last.
  - apply NoDup_app. split; [done|]. by split.
Qed.

(** *** The operations *)

Lemma set_p_ok m e v : is_Some (p m !! e) → set_p m e v = Ok (mknodes (<[e := v]> (p m)) (n m)).
Proof. intros [w Hw]. unfold set_p, get_p. by rewrite Hw. Qed.

Lemma set_n_ok m e v : is_Some (n m !! e) → set_n m e v = Ok (mknodes (p m) (<[e := v]> (n m))).
Proof. intros [w Hw]. unfold set_n, get_n. by rewrite Hw. Qed.

Lemma repr_at m o a x b : repr m o (a ++ x :: b) → p m !! x = Some (last_or a NULL) ∧ n m !! x = Some (head_or b NULL) ∧ x ≠ NULL.
Proof.
  intros [_ _ Hs _ Hnull]. apply lseg_app in Hs as [_ (H1 & H2 & _)]. split; [done|]. split; [done|]. intros ->. set_solver + Hnull.
Qed.

Lemma repr_node m o l x : repr m o l → x ∈ l → node_at m x.
Proof. intros Hr (a & b & ->)%list_elem_of_split. destruct (repr_at _ _ _ _ _ Hr) as (H1 & H2 & _). by split; eexists. Qed.

(** Only nodes of a set are written, and nodes stay nodes. *)
Definition changed (m m' : nodes) (D : gset Z) : Prop :=
  (∀ y, y ∉ D → p m' !! y = p m !! y ∧ n m' !! y = n m !! y) ∧ ∀ y, node_at m y → node_at m' y.

Lemma changed_refl m D : changed m m D.
Proof. done. Qed.

Lemma changed_trans m1 m2 m3 D : changed m1 m2 D → changed m2 m3 D → changed m1 m3 D.
Proof.
  intros [H1 H2] [H3 H4]. split; [|naive_solver]. intros y Hy. destruct (H1 y Hy), (H3 y Hy). split; congruence.
Qed.

Lemma upd_some f e v y : is_Some (f !! y) → is_Some (upd f e v !! y).
Proof. unfold upd. case_if; [done|]. rewrite lookup_insert_is_Some'. auto. Qed.

Lemma upd_outside f e v y (D : gset Z) : (e ≠ NULL → e ∈ D) → y ∉ D → upd f e v !! y = f !! y.
Proof.
  intros He Hy. destruct (decide (e = NULL)) as [->|Hne]; [done|]. apply upd_ne. intros ->. by apply Hy, He.
Qed.

(** The two updates that the operations make. *)
Lemma changed_link m m' x y e e' v v' w w' D :
  x ∈ D → y ∈ D → (e ≠ NULL → e ∈ D) → (e' ≠ NULL → e' ∈ D) →
  p m' = upd (<[x := v]> (p m)) e w → n m' = upd (<[y := v']> (n m)) e' w' → changed m m' D.
Proof.
  intros Hx Hy He He' Hp Hn. split.
  - intros z Hz. rewrite Hp, Hn, !(upd_outside _ _ _ _ D), !lookup_insert_ne; try done; by intros ->.
  - intros z [H1 H2]. split; [rewrite Hp|rewrite Hn]; apply upd_some; rewrite lookup_insert_is_Some'; auto.
Qed.

Lemma changed_unlink m m' e e' w w' D :
  (e ≠ NULL → e ∈ D) → (e' ≠ NULL → e' ∈ D) → p m' = upd (p m) e w → n m' = upd (n m) e' w' → changed m m' D.
Proof.
  intros He He' Hp Hn. split.
  - intros z Hz. by rewrite Hp, Hn, !(upd_outside _ _ _ _ D).
  - intros z [H1 H2]. split; [rewrite Hp|rewrite Hn]; by apply upd_some.
Qed.

(** The nodes that a user has, among them those of the list. *)
Record owned (m : nodes) (D : gset Z) (l : list ptr) : Prop := {
  o_nodes : ∀ x, x ∈ D → node_at m x;
  o_null : NULL ∉ D;
  o_list : ∀ x, x ∈ l → x ∈ D;
}.

Lemma owned_head m D l : owned m D l → head_or l NULL ≠ NULL → head_or l NULL ∈ D.
Proof. intros H Hl. apply (o_list _ _ _ H). destruct l; [done|]. by left. Qed.

Lemma owned_last m D l : owned m D l → last_or l NULL ≠ NULL → last_or l NULL ∈ D.
Proof. intros H Hl. apply (o_list _ _ _ H). destruct l as [|x l]; [done|]. by apply ends_member. Qed.

Lemma owned_sub m D l l' : owned m D l → (∀ x, x ∈ l' → x ∈ l) → owned m D l'.
Proof. intros [] H. split; auto. Qed.

(** Writing through a pointer that may be NULL. *)
Lemma if_set_p {A} m e v (a b : A) : (e ≠ NULL → is_Some (p m !! e)) →
  (if negb (e =? NULL) then m ← set_p m e v; Ok (m, a) else Ok (m, b)) =
  Ok (mknodes (upd (p m) e v) (n m), if e =? NULL then b else a).
Proof.
  intros H. unfold upd. destruct (Z.eqb_spec e NULL) as [E|E]; cbn [negb]; [by destruct m|]. by rewrite set_p_ok, ok_bind by auto.
Qed.

Lemma if_set_n {A} m e v (a b : A) : (e ≠ NULL → is_Some (n m !! e)) →
  (if negb (e =? NULL) then m ← set_n m e v; Ok (m, a) else Ok (m, b)) =
  Ok (mknodes (p m) (upd (n m) e v), if e =? NULL then b else a).
Proof.
  intros H. unfold upd. destruct (Z.eqb_spec e NULL) as [E|E]; cbn [negb]; [by destruct m|]. by rewrite set_n_ok, ok_bind by auto.
Qed.

(** What an operation does to the list. *)
Definition does (m : nodes) (D : gset Z) (l l' : list ptr) (r : result (nodes * t)) : Prop :=
  ∃ m', r = Ok (m', list_of l') ∧ repr m' (list_of l') l' ∧ owned m' D l' ∧ changed m m' D.

Lemma does_intro m m' D l l' :
  owned m D l → (∀ x, x ∈ l' → x ∈ D) → changed m m' D → repr m' (list_of l') l' → does m D l l' (Ok (m', list_of l')).
Proof. intros [H1 H2 H3] Hl [Hc1 Hc2] Hr. exists m'. split; [done|]. split; [done|]. split; [|done]. split; auto. Qed.

Lemma if_list b (x y : t) (z : t) : (b = true → x = z) → (b = false → y = z) → (if b then x else y) = z.
Proof. destruct b; auto. Qed.

Lemma head_null l : NULL ∉ l → head_or l NULL = NULL → l = [].
Proof. destruct l; simpl; [done|]. intros H ->. destruct H. by left. Qed.

Lemma last_null l : NULL ∉ l → last_or l NULL = NULL → l = [].
Proof. intros H E. destruct (decide (l = [])) as [|Hl]; [done|]. destruct (ends_member l Hl) as [_ Hin]. rewrite E in Hin. done. Qed.

Lemma prepend_ok m D l x :
  repr m (list_of l) l → owned m D l → x ∈ D → x ∉ l → does m D l (x :: l) (LinkedList1_Prepend m (list_of l) x).
Proof.
  intros Hr Ho Hx Hxl. destruct (o_nodes _ _ _ Ho x Hx) as [Hpx Hnx].
  assert (Hx0 : x ≠ NULL) by (intros ->; by apply (o_null _ _ _ Ho)).
  unfold LinkedList1_Prepend. rewrite set_p_ok, ok_bind by done. rewrite set_n_ok, ok_bind by done. cbn [first last list_of p n].
  rewrite if_set_p.
  2: { intros Hh. cbn [p]. rewrite lookup_insert_is_Some'. right. apply (o_nodes _ _ _ Ho). by eapply owned_head. }
  cbn [p n]. rewrite (if_list _ _ _ (list_of (x :: l))).
  - set (m' := mknodes _ _). apply does_intro; [done| | |].
    + intros y [->|Hy]%elem_of_cons; [done|by apply (o_list _ _ _ Ho)].
    + apply (changed_link m m' x x (head_or l NULL) NULL NULL (head_or l NULL) x x); try done. by eapply owned_head.
    + by apply (link_ok m m' [] l x).
  - intros E%Z.eqb_eq. assert (l = []) as -> by (apply head_null; [by destruct Hr|done]). done.
  - intros E%Z.eqb_neq. destruct l; [done|]. done.
Qed.

Lemma append_ok m D l x :
  repr m (list_of l) l → owned m D l → x ∈ D → x ∉ l → does m D l (l ++ [x]) (LinkedList1_Append m (list_of l) x).
Proof.
  intros Hr Ho Hx Hxl. destruct (o_nodes _ _ _ Ho x Hx) as [Hpx Hnx].
  assert (Hx0 : x ≠ NULL) by (intros ->; by apply (o_null _ _ _ Ho)).
  unfold LinkedList1_Append. rewrite set_p_ok, ok_bind by done. rewrite set_n_ok, ok_bind by done. cbn [first last list_of p n].
  rewrite if_set_n.
  2: { intros Hh. cbn [n]. rewrite lookup_insert_is_Some'. right. apply (o_nodes _ _ _ Ho). by eapply owned_last. }
  cbn [p n]. rewrite (if_list _ _ _ (list_of (l ++ [x]))).
  - set (m' := mknodes _ _). apply does_intro; [done| | |].
    + intros y [Hy| ->%list_elem_of_singleton]%elem_of_app; [by apply (o_list _ _ _ Ho)|done].
    + apply (changed_link m m' x x NULL (last_or l NULL) (last_or l NULL) NULL x x); try done. by eapply owned_last.
    + apply (link_ok m m' l [] x); try done; by rewrite app_nil_r.
  - intros E%Z.eqb_eq. assert (l = []) as -> by (apply last_null; [by destruct Hr|done]). done.
  - intros E%Z.eqb_neq. unfold list_of. rewrite last_or_snoc. f_equal. by destruct l.
Qed.

Lemma insert_before_ok m D a b x tg :
  repr m (list_of (a ++ tg :: b)) (a ++ tg :: b) → owned m D (a ++ tg :: b) → x ∈ D → x ∉ a ++ tg :: b →
  does m D (a ++ tg :: b) (a ++ x :: tg :: b) (LinkedList1_InsertBefore m (list_of (a ++ tg :: b)) x tg).
Proof.
  intros Hr Ho Hx Hxl. destruct (o_nodes _ _ _ Ho x Hx) as [Hpx Hnx].
  assert (Hx0 : x ≠ NULL) by (intros ->; by apply (o_null _ _ _ Ho)).
  destruct (repr_at _ _ _ _ _ Hr) as (Hp & Hn & Ht0). unfold LinkedList1_InsertBefore, get_p. rewrite Hp. cbn [or_fault].
  rewrite ok_bind, set_p_ok, ok_bind by done. rewrite set_n_ok, ok_bind by done. cbn [p n].
  rewrite if_set_n, ok_bind.
  2: { intros Hh. cbn [n]. rewrite lookup_insert_is_Some'. right. apply (o_nodes _ _ _ Ho).
       apply (owned_last m D a); [|done]. eapply owned_sub; [done|]. set_solver +. }
  cbv beta iota. rewrite set_p_ok, ok_bind.
  2: { cbn [p]. rewrite lookup_insert_is_Some'. right. by eexists. }
  cbn [p n]. rewrite (if_list _ _ _ (list_of (a ++ x :: tg :: b))).
  - set (m' := mknodes _ _).
    assert (Hp' : p m' = upd (<[x := last_or a NULL]> (p m)) (head_or (tg :: b) NULL) x).
    { unfold upd. cbn [head_or]. by rewrite (proj2 (Z.eqb_neq _ _) Ht0). }
    apply does_intro; [done| | |].
    + intros y Hy. destruct (decide (y = x)) as [->|Hne]; [done|]. apply (o_list _ _ _ Ho). set_solver + Hy Hne.
    + apply (changed_link m m' x x tg (last_or a NULL) (last_or a NULL) tg x x); try done.
      * intros _. apply (o_list _ _ _ Ho). set_solver +.
      * apply owned_last with m. eapply owned_sub; [done|]. set_solver +.
    + by apply (link_ok m m' a (tg :: b) x).
  - intros E%Z.eqb_eq. assert (a = []) as ->; [|done]. apply last_null; [|done]. pose proof (l_null _ _ _ Hr) as Hnull. set_solver + Hnull.
  - intros E%Z.eqb_neq. unfold list_of. f_equal; [by destruct a|]. by rewrite !last_or_app.
Qed.

Lemma insert_after_ok m D a b x tg :
  repr m (list_of (a ++ tg :: b)) (a ++ tg :: b) → owned m D (a ++ tg :: b) → x ∈ D → x ∉ a ++ tg :: b →
  does m D (a ++ tg :: b) (a ++ tg :: x :: b) (LinkedList1_InsertAfter m (list_of (a ++ tg :: b)) x tg).
Proof.
  intros Hr Ho Hx Hxl. destruct (o_nodes _ _ _ Ho x Hx) as [Hpx Hnx].
  assert (Hx0 : x ≠ NULL) by (intros ->; by apply (o_null _ _ _ Ho)).
  destruct (repr_at _ _ _ _ _ Hr) as (Hp & Hn & Ht0). unfold LinkedList1_InsertAfter, get_n.
  rewrite set_p_ok, ok_bind by done. cbn [p n]. rewrite Hn. cbn [or_fault].
  rewrite ok_bind, set_n_ok, ok_bind by done. cbn [p n]. rewrite if_set_p, ok_bind.
  2: { intros Hh. cbn [p]. rewrite lookup_insert_is_Some'. right. apply (o_nodes _ _ _ Ho).
       apply (owned_head m D b); [|done]. eapply owned_sub; [done|]. set_solver +. }
  cbv beta iota. rewrite set_n_ok, ok_bind.
  2: { cbn [n]. rewrite lookup_insert_is_Some'. right. by eexists. }
  cbn [p n]. rewrite (if_list _ _ _ (list_of (a ++ tg :: x :: b))).
  - set (m' := mknodes _ _).
    assert (Hn' : n m' = upd (<[x := head_or b NULL]> (n m)) (last_or (a ++ [tg]) NULL) x).
    { unfold upd. rewrite last_or_snoc. by rewrite (proj2 (Z.eqb_neq _ _) Ht0). }
    assert (E : ∀ c, a ++ tg :: c = (a ++ [tg]) ++ c) by (intros c; by rewrite <- app_assoc).
    apply does_intro; [done| | |].
    + intros y Hy. destruct (decide (y = x)) as [->|Hne]; [done|]. apply (o_list _ _ _ Ho). set_solver + Hy Hne.
    + apply (changed_link m m' x x (head_or b NULL) tg tg (head_or b NULL) x x); try done.
      * apply owned_head with m. eapply owned_sub; [done|]. set_solver +.
      * intros _. apply (o_list _ _ _ Ho). set_solver +.
      * unfold upd. by rewrite (proj2 (Z.eqb_neq _ _) Ht0).
    + rewrite (E b) in Hr, Hxl. rewrite (E (x :: b)). apply (link_ok m m' (a ++ [tg]) b x); try done. by rewrite last_or_snoc.
  - intros Eb%Z.eqb_eq. assert (b = []) as ->.
    { apply head_null; [|done]. pose proof (l_null _ _ _ Hr) as Hnull. set_solver + Hnull. }
    unfold list_of. rewrite !head_or_app, !last_or_app. done.
  - intros Eb%Z.eqb_neq. unfold list_of. rewrite !head_or_app, !last_or_app. f_equal. by destruct b.
Qed.

Lemma list_remove_ok m D a b x :
  repr m (list_of (a ++ x :: b)) (a ++ x :: b) → owned m D (a ++ x :: b) →
  does m D (a ++ x :: b) (a ++ b) (LinkedList1_Remove m (list_of (a ++ x :: b)) x).
Proof.
  intros Hr Ho. destruct (repr_at _ _ _ _ _ Hr) as (Hp & Hn & Hx0). pose proof (l_null _ _ _ Hr) as Hnull.
  assert (Hoa : owned m D a) by (eapply owned_sub; [exact Ho|]; set_solver +).
  assert (Hob : owned m D b) by (eapply owned_sub; [exact Ho|]; set_solver +).
  unfold LinkedList1_Remove, get_p, get_n. rewrite Hp, Hn. cbn [or_fault]. rewrite !ok_bind, if_set_n, ok_bind.
  2: { intros Hh. apply (o_nodes _ _ _ Ho). by apply owned_last with m. }
  cbv beta iota. rewrite if_set_p.
  2: { intros Hh. cbn [p]. apply (o_nodes _ _ _ Ho). by apply owned_head with m. }
  cbn [p n]. rewrite (if_list _ _ _ (list_of (a ++ b))).
  - set (m' := mknodes _ _). apply does_intro; [done| | |].
    + intros y Hy. apply (o_list _ _ _ Ho). set_solver + Hy.
    + apply (changed_unlink m m' (head_or b NULL) (last_or a NULL) (last_or a NULL) (head_or b NULL)); try done;
        [by apply owned_head with m | by apply owned_last with m].
    + by apply (unlink_ok m m' a b x).
  - intros Eb%Z.eqb_eq. assert (b = []) as -> by (apply head_null; [set_solver + Hnull|done]). rewrite app_nil_r.
    destruct (Z.eqb_spec (last_or a NULL) NULL) as [Ea|Ea].
    + assert (a = []) as -> by (apply last_null; [set_solver + Hnull|done]). done.
    + unfold list_of. f_equal. by destruct a.
  - intros Eb%Z.eqb_neq. destruct b as [|y b]; [done|]. destruct (Z.eqb_spec (last_or a NULL) NULL) as [Ea|Ea].
    + assert (a = []) as -> by (apply last_null; [set_solver + Hnull|done]). unfold list_of. simpl. done.
    + unfold list_of. rewrite !head_or_app, !last_or_app. f_equal. by destruct a.
Qed.

(** A list is not affected by what happens to other nodes. *)
Lemma repr_frame m m' o l D : repr m o l → changed m m' D → (∀ x, x ∈ l → x ∉ D) → repr m' o l.
Proof.
  intros [] [Hc _] Hl. split; try done. eapply lseg_frame; [|done]. intros x Hx. by apply Hc, Hl.
Qed.

Lemma changed_mono m m' D D' : changed m m' D → D ⊆ D' → changed m m' D'.
Proof. intros [H1 H2] HD. split; [|done]. intros y Hy. apply H1. set_solver + Hy HD. Qed.

Lemma insert_list_ok m D a b c :
  repr m (list_of (a ++ b)) (a ++ b) → repr m (list_of c) c → owned m D (a ++ b) → (∀ x, x ∈ c → x ∈ D ∧ x ∉ a ++ b) →
  does m D (a ++ b) (a ++ c ++ b) (LinkedList1_InsertListAfter m (list_of (a ++ b)) (list_of c) (last_or a NULL)).
Proof.
  intros Hr Hrc Ho Hcd. pose proof (l_null _ _ _ Hr) as Hnull. unfold LinkedList1_InsertListAfter. cbn [first last list_of].
  destruct (Z.eqb_spec (head_or c NULL) NULL) as [Ec|Ec].
  { assert (c = []) as -> by (apply head_null; [by destruct Hrc|done]).
    apply does_intro; [done| |done|done]. intros x Hx. by apply (o_list _ _ _ Ho). }
  assert (Hc : c ≠ []) by (by intros ->). destruct (ends_member c Hc) as [Hch Hcl].
  destruct (repr_node _ _ _ _ Hrc Hch) as [Hph _]. destruct (repr_node _ _ _ _ Hrc Hcl) as [_ Hnl].
  assert (Hoa : owned m D a) by (eapply owned_sub; [exact Ho|]; set_solver +).
  assert (Hob : owned m D b) by (eapply owned_sub; [exact Ho|]; set_solver +).
  assert ((if negb (last_or a NULL =? NULL) then get_n m (last_or a NULL) else Ok (head_or (a ++ b) NULL)) =
    Ok (head_or b NULL)) as ->.
  { destruct (Z.eqb_spec (last_or a NULL) NULL) as [Ea|Ea]; cbn [negb].
    - assert (a = []) as -> by (apply last_null; [set_solver + Hnull|done]). done.
    - destruct a as [|z a _] using rev_ind; [done|]. rewrite last_or_snoc. rewrite <- app_assoc in Hr.
      destruct (repr_at _ _ _ _ _ Hr) as (_ & Hn & _). unfold get_n. by rewrite Hn. }
  rewrite ok_bind, set_p_ok, ok_bind by done. rewrite set_n_ok, ok_bind by done. cbn [p n].
  rewrite if_set_n, ok_bind.
  2: { intros Hh. cbn [n]. rewrite lookup_insert_is_Some'. right. apply (o_nodes _ _ _ Ho). by apply owned_last with m. }
  cbv beta iota. rewrite if_set_p.
  2: { intros Hh. cbn [p]. rewrite lookup_insert_is_Some'. right. apply (o_nodes _ _ _ Ho). by apply owned_head with m. }
  cbn [p n]. rewrite (if_list _ _ _ (list_of (a ++ c ++ b))).
  - set (m' := mknodes _ _). apply does_intro; [done| | |].
    + intros x Hx. rewrite !elem_of_app in Hx. destruct Hx as [Hx|[Hx|Hx]];
        [by apply (o_list _ _ _ Hoa)|by apply Hcd|by apply (o_list _ _ _ Hob)].
    + eapply (changed_link m m' (head_or c NULL) (last_or c NULL)); try reflexivity;
        [by apply Hcd|by apply Hcd|by apply owned_head with m|by apply owned_last with m].
    + apply (splice_ok m m' a c b NULL NULL); try done; [by destruct Hrc| |by destruct Hrc].
      pose proof (l_nodup _ _ _ Hr) as (H1 & H2 & H3)%NoDup_app. apply NoDup_app. split; [done|]. split.
      * intros x Hx [Hxc|Hxb]%elem_of_app; [|by apply (H2 x)]. destruct (Hcd x Hxc) as [_ Hn]. set_solver + Hx Hn.
      * apply NoDup_app. split; [by destruct Hrc|]. split; [|done]. intros x Hx Hxb. destruct (Hcd x Hx) as [_ Hn]. set_solver + Hxb Hn.
  - intros Eb%Z.eqb_eq. assert (b = []) as -> by (apply head_null; [set_solver + Hnull|done]). rewrite !app_nil_r.
    unfold list_of. rewrite head_or_app, last_or_app. destruct (Z.eqb_spec (last_or a NULL) NULL) as [Ea|Ea]; cbn [first].
    + assert (a = []) as -> by (apply last_null; [set_solver + Hnull|done]). done.
    + f_equal; [by destruct a|by destruct c].
  - intros Eb%Z.eqb_neq. unfold list_of. rewrite !head_or_app, !last_or_app.
    destruct (Z.eqb_spec (last_or a NULL) NULL) as [Ea|Ea]; cbn [last].
    + assert (a = []) as -> by (apply last_null; [set_solver + Hnull|done]). simpl. f_equal; [by destruct c|by destruct b].
    + f_equal; [by destruct a|by destruct b].
Qed.

(** ** Runs *)

(** What a user does; [Insert_list] makes a list of its own by appending nodes, and links it in. *)
Inductive op :=
| Prepend (x : ptr) | Append (x : ptr) | Insert_before (x tg : ptr) | Insert_after (x tg : ptr)
| Insert_list (c : list ptr) (tg : ptr) | Remove (x : ptr)
| Is_empty | Get_first | Get_last | Next (x : ptr) | Prev (x : ptr).

Inductive out := Done | Empty (b : bool) | Node (x : ptr).

Fixpoint append_all (m : nodes) (o : t) (c : list ptr) : result (nodes * t) :=
  match c with [] => Ok (m, o) | x :: c => '(m, o) ← LinkedList1_Append m o x; append_all m o c end.

Definition no_output (r : result (nodes * t)) : result (nodes * t * out) := r' ← r; Ok (r', Done).

Definition code_step (m : nodes) (o : t) (e : op) : result (nodes * t * out) :=
  match e with
  | Prepend x => no_output (LinkedList1_Prepend m o x)
  | Append x => no_output (LinkedList1_Append m o x)
  | Insert_before x tg => no_output (LinkedList1_InsertBefore m o x tg)
  | Insert_after x tg => no_output (LinkedList1_InsertAfter m o x tg)
  | Insert_list c tg => '(m, o') ← append_all m LinkedList1_Init c; no_output (LinkedList1_InsertListAfter m o o' tg)
  | Remove x => no_output (LinkedList1_Remove m o x)
  | Is_empty => Ok (m, o, Empty (LinkedList1_IsEmpty o))
  | Get_first => Ok (m, o, Node (LinkedList1_GetFirst o))
  | Get_last => Ok (m, o, Node (LinkedList1_GetLast o))
  | Next x => y ← LinkedList1Node_Next m x; Ok (m, o, Node y)
  | Prev x => y ← LinkedList1Node_Prev m x; Ok (m, o, Node y)
  end.

(** The sequence around a node of it. *)
Fixpoint split_at (x : ptr) (l : list ptr) : option (list ptr * list ptr) :=
  match l with
  | [] => None
  | y :: l => if y =? x then Some ([], l) else '(a, b) ← split_at x l; Some (y :: a, b)
  end.

Lemma split_at_spec x l a b : split_at x l = Some (a, b) → l = a ++ x :: b.
Proof.
  revert a. induction l as [|y l IH]; intros a H; simpl in H; [done|].
  destruct (Z.eqb_spec y x) as [->|]; [by injection H as <- <-|].
  destruct (split_at x l) as [[a' b']|]; simpl in H; [|done]. injection H as <- <-. simpl. f_equal. by apply IH.
Qed.

(** A node of the user that is in no list can be inserted. *)
Definition free_node (D : gset Z) (l : list ptr) (x : ptr) : bool := bool_decide (x ∈ D) && bool_decide (x ∉ l).

(** On sequences; [None] for what is not allowed. *)
Definition spec_step (D : gset Z) (l : list ptr) (e : op) : option (list ptr * out) :=
  match e with
  | Prepend x => if free_node D l x then Some (x :: l, Done) else None
  | Append x => if free_node D l x then Some (l ++ [x], Done) else None
  | Insert_before x tg =>
      '(a, b) ← split_at tg l; if free_node D l x then Some (a ++ x :: tg :: b, Done) else None
  | Insert_after x tg =>
      '(a, b) ← split_at tg l; if free_node D l x then Some (a ++ tg :: x :: b, Done) else None
  | Insert_list c tg =>
      if forallb (free_node D l) c && bool_decide (NoDup c) then
        if tg =? NULL then Some (c ++ l, Done) else '(a, b) ← split_at tg l; Some (a ++ tg :: c ++ b, Done)
      else None
  | Remove x => '(a, b) ← split_at x l; Some (a ++ b, Done)
  | Is_empty => Some (l, Empty (bool_decide (l = [])))
  | Get_first => Some (l, Node (head_or l NULL))
  | Get_last => Some (l, Node (last_or l NULL))
  | Next x => '(a, b) ← split_at x l; Some (l, Node (head_or b NULL))
  | Prev x => '(a, b) ← split_at x l; Some (l, Node (last_or a NULL))
  end.

Fixpoint code_run (m : nodes) (o : t) (es : list op) : result (nodes * t * list out) :=
  match es with
  | [] => Ok (m, o, [])
  | e :: es => '(m, o, r) ← code_step m o e; '(m, o, rs) ← code_run m o es; Ok (m, o, r :: rs)
  end.

Fixpoint spec_run (D : gset Z) (l : list ptr) (es : list op) : option (list ptr * list out) :=
  match es with
  | [] => Some (l, [])
  | e :: es => '(l, r) ← spec_step D l e; '(l, rs) ← spec_run D l es; Some (l, r :: rs)
  end.

(** The state of the code holds the sequence. *)
Definition holds (m : nodes) (o : t) (D : gset Z) (l : list ptr) : Prop := repr m o l ∧ owned m D l.

Lemma append_all_ok D c2 : ∀ m c1,
  repr m (list_of c1) c1 → owned m D c1 → NoDup (c1 ++ c2) → (∀ x, x ∈ c2 → x ∈ D) →
  ∃ m', append_all m (list_of c1) c2 = Ok (m', list_of (c1 ++ c2)) ∧ repr m' (list_of (c1 ++ c2)) (c1 ++ c2) ∧
    owned m' D (c1 ++ c2) ∧ changed m m' D.
Proof.
  induction c2 as [|x c2 IH]; intros m c1 Hr Ho Hn Hc; cbn [append_all].
  - rewrite app_nil_r. by exists m.
  - destruct (append_ok m D c1 x Hr Ho) as (m1 & -> & Hr1 & Ho1 & Hc1); [apply Hc; by left| |].
    { apply NoDup_app in Hn as (_ & Hn & _). intros Hx. apply (Hn x Hx). by left. }
    rewrite ok_bind. destruct (IH m1 (c1 ++ [x]) Hr1 Ho1) as (m2 & E & Hr2 & Ho2 & Hc2).
    { by rewrite <- app_assoc. }
    { intros y Hy. apply Hc. by right. }
    rewrite <- app_assoc in *. exists m2. split_and!; [exact E|done|done|]. by eapply changed_trans.
Qed.

Lemma free_node_ok D l x : free_node D l x = true → x ∈ D ∧ x ∉ l.
Proof. unfold free_node. intros H. zify_bool. done. Qed.

Lemma holds_of D l l' m r :
  does m D l l' r → ∃ m' o', no_output r = Ok (m', o', Done) ∧ holds m' o' D l' ∧ changed m m' D.
Proof. intros (m' & -> & Hr & Ho & Hc). by exists m', (list_of l'). Qed.

Lemma insert_list_step m D l l' c tg r :
  holds m (list_of l) D l → spec_step D l (Insert_list c tg) = Some (l', r) →
  ∃ m' o', code_step m (list_of l) (Insert_list c tg) = Ok (m', o', r) ∧ holds m' o' D l' ∧ changed m m' D.
Proof.
  intros [Hr Ho] Hs. cbn [spec_step] in Hs. destruct (forallb _ c && _) eqn:Hg; [|done]. zify_bool.
  match goal with H : forallb _ _ = true |- _ => rewrite forallb_forall in H; rename H into Hf end.
  assert (Hc : ∀ x, x ∈ c → x ∈ D ∧ x ∉ l) by (intros x Hx; apply free_node_ok, Hf; by apply list_elem_of_In).
  assert (Ho0 : owned m (list_to_set c) []).
  { split.
    - intros x Hx%elem_of_list_to_set. by apply (o_nodes _ _ _ Ho), Hc.
    - intros Hx%elem_of_list_to_set. by apply (o_null _ _ _ Ho), Hc.
    - by intros x ?%not_elem_of_nil. }
  destruct (append_all_ok (list_to_set c) c m [] (repr_nil m) Ho0) as (m1 & E & Hr1 & Ho1 & Hc1); [done|set_solver + |].
  cbn [code_step]. change LinkedList1_Init with (list_of []). rewrite E, ok_bind. cbn [app] in *.
  assert (Hsub : list_to_set c ⊆ D) by (intros x Hx; apply Hc; set_solver + Hx).
  assert (Hrl : repr m1 (list_of l) l).
  { eapply repr_frame; [done..|]. intros x Hx Hxc. destruct (Hc x) as [_ Hn]; [set_solver + Hxc|done]. }
  assert (Hol : owned m1 D l) by (destruct Ho; split; [intros x Hx; by apply Hc1; auto|done|done]).
  assert (Hgoal : ∀ a b, l = a ++ b → tg = last_or a NULL → l' = a ++ c ++ b → r = Done →
    ∃ m' o', no_output (LinkedList1_InsertListAfter m1 (list_of l) (list_of c) tg) = Ok (m', o', r) ∧ holds m' o' D l' ∧ changed m m' D).
  { intros a b -> -> -> ->. destruct (holds_of D (a ++ b) (a ++ c ++ b) m1 _ (insert_list_ok m1 D a b c Hrl Hr1 Hol Hc))
      as (m2 & o2 & E2 & H2 & Hc2). exists m2, o2. split; [done|]. split; [done|].
    eapply changed_trans; [by eapply changed_mono|done]. }
  destruct (Z.eqb_spec tg NULL) as [->|Ht]; [injection Hs as <- <-; by apply (Hgoal [] l)|].
  destruct (split_at tg l) as [[a b]|] eqn:Hsp; [|done]. injection Hs as <- <-. apply split_at_spec in Hsp.
  apply (Hgoal (a ++ [tg]) b); [by rewrite <- app_assoc|by rewrite last_or_snoc|by rewrite <- app_assoc|done].
Qed.

Lemma list_op_refines m o D l l' e r :
  holds m o D l → spec_step D l e = Some (l', r) →
  ∃ m' o', code_step m o e = Ok (m', o', r) ∧ holds m' o' D l' ∧ changed m m' D.
Proof.
  intros [Hr Ho] Hs. pose proof (repr_of _ _ _ Hr) as ->.
  assert (Hread : l' = l → code_step m (list_of l) e = Ok (m, list_of l, r) →
    ∃ m' o', code_step m (list_of l) e = Ok (m', o', r) ∧ holds m' o' D l' ∧ changed m m' D).
  { intros -> E. exists m, (list_of l). done. }
  destruct e as [x|x|x tg|x tg|c tg|x| | | |x|x]; [..|by apply (insert_list_step m D l)| | | | | |];
    cbn [spec_step code_step] in *;
    try (destruct (split_at _ l) as [[a b]|] eqn:Hsp; [|done]; apply split_at_spec in Hsp; cbn [mbind option_bind] in Hs);
    try (destruct (free_node D l x) eqn:Hf; [|done]; apply free_node_ok in Hf as [Hf1 Hf2]);
    injection Hs as <- <-; subst.
  - by eapply holds_of, prepend_ok.
  - by eapply holds_of, append_ok.
  - by eapply holds_of, insert_before_ok.
  - by eapply holds_of, insert_after_ok.
  - by eapply holds_of, list_remove_ok.
  - apply Hread; [done|]. do 2 f_equal. unfold LinkedList1_IsEmpty. cbn [first list_of].
    destruct l as [|y l]; [done|]. cbn [head_or]. rewrite bool_decide_false by done. f_equal. apply Z.eqb_neq. intros ->.
    apply (l_null _ _ _ Hr). by left.
  - by apply Hread.
  - by apply Hread.
  - apply Hread; [done|]. destruct (repr_at _ _ _ _ _ Hr) as (_ & Hn & _). unfold LinkedList1Node_Next, get_n. by rewrite Hn.
  - apply Hread; [done|]. destruct (repr_at _ _ _ _ _ Hr) as (Hp & _ & _). unfold LinkedList1Node_Prev, get_p. by rewrite Hp.
Qed.

(** C12: LinkedList1 implements a sequence of different nodes: from the empty list, whatever
    nodes of the user are inserted (at either end, before or after a node, or as a list of
    several, also into an empty list), removed and looked up, as the sequence allows, no
    pointer is followed that is not a node's, every call returns what the same operation of
    the sequence returns, the pointers in memory always represent the sequence in both
    directions, and only the user's nodes are written. *)
Theorem linked_list_refines m D es l rs :
  (∀ x, x ∈ D → node_at m x) → NULL ∉ D → spec_run D [] es = Some (l, rs) →
  ∃ m' o, code_run m LinkedList1_Init es = Ok (m', o, rs) ∧ repr m' o l ∧
    (∀ y, y ∉ D → p m' !! y = p m !! y ∧ n m' !! y = n m !! y).
Proof.
  intros Hm HD. assert (H0 : holds m LinkedList1_Init D []) by (split; [apply repr_nil|split; try done; by intros x ?%not_elem_of_nil]).
  revert H0. clear Hm HD. generalize LinkedList1_Init, (@nil ptr). revert m l rs.
  induction es as [|e es IH]; intros m l rs o l0 H0 Hs; cbn [code_run spec_run] in *.
  - injection Hs as <- <-. exists m, o. split; [done|]. split; [by destruct H0|done].
  - destruct (spec_step D l0 e) as [[l1 r]|] eqn:He; [|done]. cbn [mbind option_bind] in Hs.
    destruct (list_op_refines _ _ _ _ _ _ _ H0 He) as (m1 & o1 & -> & H1 & Hc & _). rewrite ok_bind.
    destruct (spec_run D l1 es) as [[l2 rs']|] eqn:Hes; [|done]. cbn [mbind option_bind] in Hs. injection Hs as <- <-.
    destruct (IH _ _ _ _ _ H1 Hes) as (m2 & o2 & -> & Hr2 & Hc2). rewrite ok_bind. exists m2, o2. split; [done|]. split; [done|].
    intros y Hy. destruct (Hc y Hy), (Hc2 y Hy). split; congruence.
Qed.

(** *** An example *)

Definition ex_nodes : nodes :=
  let f := list_to_map ((λ x, (x, 0)) <$> [8; 16; 24; 32; 40]) in mknodes f f.
Definition ex_ops : list op :=
  [Append 8; Prepend 16; Insert_after 24 16; Insert_list [32; 40] 24; Remove 16; Get_first; Next 40; Prev 8; Is_empty].

Lemma linked_list_refines_witness :
  ∃ m' o, code_run ex_nodes LinkedList1_Init ex_ops =
      Ok (m', o, [Done; Done; Done; Done; Done; Node 24; Node 8; Node 40; Empty false]) ∧
    repr m' o [24; 32; 40; 8].
Proof.
  destruct (linked_list_refines ex_nodes {[8; 16; 24; 32; 40]} ex_ops [24; 32; 40; 8]
    [Done; Done; Done; Done; Done; Node 24; Node 8; Node 40; Empty false]) as (m' & o & H1 & H2 & _).
  - intros x. rewrite !elem_of_union, !elem_of_singleton. intros [[[[->| ->]| ->]| ->]| ->]; split; eexists; vm_compute; reflexivity.
  - eapply bool_decide_eq_true_1. vm_compute. reflexivity.
  - vm_compute. reflexivity.
  - exists m', o. by split.
Defined.

End LinkedListFacts.
