(* ===== verification/Pending.v ===== *)
(** * Pending jobs: base/BPending.c over structure/SLinkedList_impl.h

    A [BPendingGroup] is a last-in first-out list of jobs: [BPending_Set] moves
    a job to the front, [BPending_Unset] takes it out, and the event loop
    ([BPendingGroup_ExecuteJob]) takes the front job out and runs its handler.
    Everything asynchronous in the data plane is scheduled through it.

    The first part is the code: an intrusive list whose links live in the jobs
    themselves, in which "not in the list" is encoded by a [next] link that
    points to the job itself.  The second part is the specification, a plain
    list of distinct jobs, and the third shows that every operation implements
    its specification.  The other files use the specification. *)

From S2P Require Import Prelude CMem.

(** ** The code: intrusive list *)

Module SLinkedList.

(** [o->first] and, for every node by address, its two links. *)
Record t := { first : ptr; next : gmap Z Z; prev : gmap Z Z }.

Definition set_next (o : t) (e v : ptr) : t :=
  {| first := first o; next := <[e := v]> (next o); prev := prev o |}.
Definition set_prev (o : t) (e v : ptr) : t :=
  {| first := first o; next := next o; prev := <[e := v]> (prev o) |}.
Definition set_first (o : t) (v : ptr) : t :=
  {| first := v; next := next o; prev := prev o |}.
Definition get_next (o : t) (e : ptr) : result Z := or_fault BadAccess (next o !! e).
Definition get_prev (o : t) (e : ptr) : result Z := or_fault BadAccess (prev o !! e).

Definition Init (nx pv : gmap Z Z) : t := {| first := NULL; next := nx; prev := pv |}.

Definition MarkRemoved (o : t) (e : ptr) : result t :=
  ASSERT negb (e =? NULL) ;; Ok (set_next o e e).

Definition IsRemoved (o : t) (e : ptr) : result bool :=
  ASSERT negb (e =? NULL) ;; n ← get_next o e; Ok (e =? n).

(** [SLINKEDLIST_PARAM_FEATURE_LAST] is 0 for this instance. *)
Definition Prepend (o : t) (e : ptr) : result t :=
  ASSERT negb (e =? NULL) ;;
  let o := set_next o e (first o) in
  let o := if negb (first o =? NULL) then set_prev o (first o) e else o in
  Ok (set_first o e).

Definition Remove (o : t) (e : ptr) : result t :=
  if negb (e =? first o) then
    p ← get_prev o e;
    n ← get_next o e;
    let o := set_next o p n in
    if negb (n =? NULL) then Ok (set_prev o n p) else Ok o
  else
    n ← get_next o e;
    Ok (set_first o n).

Definition RemoveFirst (o : t) : result t :=
  ASSERT negb (first o =? NULL) ;;
  n ← get_next o (first o);
  Ok (set_first o n).

Definition First (o : t) : ptr := first o.
Definition IsEmpty (o : t) : bool := first o =? NULL.

End SLinkedList.

(** ** The code: jobs and groups *)

Module BPending.

(** A group's job list, with the debug field [pending] of every job. *)
Record group := { jobs : SLinkedList.t; pending : gmap Z bool }.

Definition set_pending (g : group) (o : ptr) (b : bool) : group :=
  {| jobs := jobs g; pending := <[o := b]> (pending g) |}.
Definition set_jobs (g : group) (l : SLinkedList.t) : group :=
  {| jobs := l; pending := pending g |}.

(** [ASSERT(o->pending == !BPending__ListIsRemoved(o))], giving whether it is removed. *)
Definition check_pending (g : group) (o : ptr) : result bool :=
  removed ← SLinkedList.IsRemoved (jobs g) o;
  pend ← or_fault BadAccess (pending g !! o);
  ASSERT (eqb pend (negb removed)) ;; Ok removed.

Definition BPendingGroup_Init (nx pv : gmap Z Z) (pd : gmap Z bool) : group :=
  {| jobs := SLinkedList.Init nx pv; pending := pd |}.

Definition BPendingGroup_HasJobs (g : group) : bool := negb (SLinkedList.IsEmpty (jobs g)).

Definition BPendingGroup_PeekJob (g : group) : ptr := SLinkedList.First (jobs g).

(** Returns the job whose handler the event loop then calls. *)
Definition BPendingGroup_ExecuteJob (g : group) : result (group * ptr) :=
  ASSERT negb (SLinkedList.IsEmpty (jobs g)) ;;
  let p := SLinkedList.First (jobs g) in
  removed ← SLinkedList.IsRemoved (jobs g) p;
  ASSERT negb removed ;;
  pend ← or_fault BadAccess (pending g !! p);
  ASSERT pend ;;
  l ← SLinkedList.RemoveFirst (jobs g);
  l ← SLinkedList.MarkRemoved l p;
  Ok (set_pending (set_jobs g l) p false, p).

Definition BSmallPending_Init (g : group) (o : ptr) : result group :=
  l ← SLinkedList.MarkRemoved (jobs g) o;
  Ok (set_pending (set_jobs g l) o false).

Definition BSmallPending_Free (g : group) (o : ptr) : result group :=
  removed ← check_pending g o;
  if negb removed then
    l ← SLinkedList.Remove (jobs g) o; Ok (set_jobs g l)
  else Ok g.

Definition BSmallPending_Set (g : group) (o : ptr) : result group :=
  removed ← check_pending g o;
  l ← (if negb removed then SLinkedList.Remove (jobs g) o else Ok (jobs g));
  l ← SLinkedList.Prepend l o;
  Ok (set_pending (set_jobs g l) o true).

Definition BSmallPending_Unset (g : group) (o : ptr) : result group :=
  removed ← check_pending g o;
  if negb removed then
    l ← SLinkedList.Remove (jobs g) o;
    l ← SLinkedList.MarkRemoved l o;
    Ok (set_pending (set_jobs g l) o false)
  else Ok g.

Definition BSmallPending_IsSet (g : group) (o : ptr) : result bool :=
  removed ← check_pending g o; Ok (negb removed).

End BPending.

(** ** The specification: a list of distinct jobs *)

Section job_queue.
Context {J : Type} `{EqDecision J}.

Definition job_unset (j : J) (g : list J) : list J := filter (λ x, x ≠ j) g.
Definition job_set (j : J) (g : list J) : list J := j :: job_unset j g.
Definition job_is_set (j : J) (g : list J) : bool := bool_decide (j ∈ g).

Lemma elem_of_job_unset x j g : x ∈ job_unset j g ↔ x ≠ j ∧ x ∈ g.
Proof. unfold job_unset. by rewrite list_elem_of_filter. Qed.

Lemma elem_of_job_set x j g : x ∈ job_set j g ↔ x = j ∨ x ∈ g.
Proof.
  unfold job_set. rewrite elem_of_cons, elem_of_job_unset.
  destruct (decide (x = j)); naive_solver.
Qed.

Lemma NoDup_job_unset j g : NoDup g → NoDup (job_unset j g).
Proof. apply NoDup_filter. Qed.

Lemma NoDup_job_set j g : NoDup g → NoDup (job_set j g).
Proof.
  intros H. apply NoDup_cons. split; [|by apply NoDup_job_unset].
  rewrite elem_of_job_unset. naive_solver.
Qed.

Lemma job_unset_notin j g : j ∉ g → job_unset j g = g.
Proof.
  induction g as [|x g IH]; intros H; [done|]. unfold job_unset. simpl.
  rewrite elem_of_cons in H. rewrite filter_cons, decide_True by naive_solver.
  f_equal. apply IH. naive_solver.
Qed.

Lemma job_unset_middle j g1 g2 :
  NoDup (g1 ++ j :: g2) → job_unset j (g1 ++ j :: g2) = g1 ++ g2.
Proof.
  intros H. apply NoDup_app in H as (H1 & H2 & H3). apply NoDup_cons in H3 as [H3 _].
  unfold job_unset. rewrite filter_app, filter_cons, decide_False by naive_solver.
  f_equal; apply job_unset_notin; [|done].
  intros Hj. apply (H2 j); [done|]. rewrite elem_of_cons. auto.
Qed.

End job_queue.

#[export] Hint Resolve NoDup_job_set NoDup_job_unset : csem.

(** ** Refinement: the intrusive list implements the list of jobs *)

Module PendingRefines.
Import SLinkedList BPending.

Definition head_or (l : list Z) (e : ptr) : ptr := match l with [] => e | x :: _ => x end.

(** The nodes of [l] are linked in order, after [pv] (if any) and before [e]. *)
Fixpoint seg (o : SLinkedList.t) (pv : option ptr) (l : list Z) (e : ptr) : Prop :=
  match l with
  | [] => True
  | x :: l' => next o !! x = Some (head_or l' e)
               ∧ (match pv with Some y => prev o !! x = Some y | None => True end)
               ∧ seg o (Some x) l' e
  end.

(** [g] is a group of the initialised jobs [reg] whose pending ones are [l], front first. *)
Record repr (g : group) (reg l : list Z) : Prop := {
  repr_first : first (jobs g) = head_or l NULL;
  repr_seg : seg (jobs g) None l NULL;
  repr_nodup : NoDup l;
  repr_sub : ∀ x, x ∈ l → x ∈ reg;
  repr_null : NULL ∉ reg;
  repr_removed : ∀ x, x ∈ reg → x ∉ l → next (jobs g) !! x = Some x;
  repr_pending : ∀ x, x ∈ reg → pending g !! x = Some (bool_decide (x ∈ l));
}.

Lemma elem_of_drop_1 {A} (x : A) l : x ∈ drop 1 l → x ∈ l.
Proof. destruct l; simpl; [done|]. rewrite drop_0. by right. Qed.

Lemma seg_weaken o pv l e : seg o pv l e → seg o None l e.
Proof. destruct l; simpl; naive_solver. Qed.

Lemma seg_app o pv l1 l2 e :
  seg o pv (l1 ++ l2) e ↔
  seg o pv l1 (head_or l2 e) ∧
  seg o (match last l1 with Some y => Some y | None => pv end) l2 e.
Proof.
  revert pv. induction l1 as [|x l1 IH]; intros pv; cbn [app seg last]; [naive_solver|].
  rewrite IH. replace (head_or (l1 ++ l2) e) with (head_or l1 (head_or l2 e)) by (by destruct l1).
  destruct l1; [naive_solver|]. rewrite (last_cons_cons x). destruct (last _) eqn:E; [naive_solver|].
  by apply last_None in E.
Qed.

Lemma seg_frame o o' (pv : option Z) (l : list Z) e :
  (∀ x, x ∈ l → next o' !! x = next o !! x) →
  (∀ x, x ∈ (match pv with Some _ => l | None => drop 1 l end) → prev o' !! x = prev o !! x) →
  seg o pv l e → seg o' pv l e.
Proof.
  revert pv. induction l as [|x l IH]; intros pv Hn Hp; cbn [seg]; [done|].
  intros (H1 & H2 & H3). rewrite Hn by set_solver. split; [done|]. split.
  - destruct pv; [|done]. rewrite Hp; set_solver.
  - apply IH; [set_solver | | done]. intros y Hy. apply Hp.
    destruct pv; simpl; [set_solver | by rewrite drop_0].
Qed.

Lemma repr_next g reg l x : repr g reg l → x ∈ l → ∃ n, next (jobs g) !! x = Some n ∧ n ≠ x.
Proof.
  intros [Hf Hs Hnd Hsub Hnull _ _] Hx. apply list_elem_of_split in Hx as (l1 & l2 & ->).
  apply seg_app in Hs as [_ Hs]. simpl in Hs. destruct Hs as (Hn & _).
  eexists. split; [exact Hn|]. apply NoDup_app in Hnd as (_ & _ & Hnd).
  apply NoDup_cons in Hnd as [Hx _]. destruct l2 as [|y l2]; simpl.
  - intros <-. apply Hnull, Hsub. set_solver.
  - intros ->. set_solver.
Qed.

Lemma check_pending_spec g reg l o :
  repr g reg l → o ∈ reg → check_pending g o = Ok (bool_decide (o ∉ l)).
Proof.
  intros HR Ho. unfold check_pending, IsRemoved, get_next.
  assert (o ≠ NULL) by (intros ->; by apply (repr_null _ _ _ HR)).
  rewrite (proj2 (Z.eqb_neq o NULL)) by done. simpl.
  rewrite (repr_pending _ _ _ HR) by done. destruct (decide (o ∈ l)) as [Hin|Hin].
  - destruct (repr_next _ _ _ _ HR Hin) as (n & Hn & Hne). rewrite Hn. simpl.
    rewrite (proj2 (Z.eqb_neq o n)) by done. by rewrite (bool_decide_true (o ∈ l)) by done;
      rewrite bool_decide_false by naive_solver.
  - rewrite (repr_removed _ _ _ HR) by done. simpl. rewrite Z.eqb_refl.
    by rewrite (bool_decide_false (o ∈ l)) by done; rewrite bool_decide_true by done.
Qed.

(** Taking a node out of the links, whether it is first or not. *)
Lemma Remove_spec o l e :
  first o = head_or l NULL → seg o None l NULL → NoDup l → NULL ∉ l → e ∈ l →
  ∃ o', Remove o e = Ok o' ∧ first o' = head_or (job_unset e l) NULL
    ∧ seg o' None (job_unset e l) NULL
    ∧ (∀ x, x ∉ l → next o' !! x = next o !! x).
Proof.
  intros Hf Hs Hnd Hnull He. apply list_elem_of_split in He as (l1 & l2 & ->).
  rewrite (job_unset_middle e l1 l2 Hnd).
  apply seg_app in Hs as [Hs1 Hs2]. cbn [seg head_or] in Hs1, Hs2.
  destruct Hs2 as (Hn & Hp & Hs2).
  apply NoDup_app in Hnd as (Hnd1 & Hdisj & Hnd2). apply NoDup_cons in Hnd2 as [He2 Hnd2].
  unfold Remove, get_next, get_prev. rewrite Hn.
  destruct l1 as [|p l1 _] using rev_ind; cbn [app head_or last] in *.
  - rewrite Hf, Z.eqb_refl. simpl. eexists. split; [done|]. simpl. split; [done|].
    split; [|done]. eapply seg_weaken. eapply seg_frame; [| |exact Hs2]; done.
  - rewrite last_snoc in Hp.
    assert (e ≠ first o) as Hne.
    { rewrite Hf. destruct l1 as [|y l1]; simpl; intros ->;
        [apply (Hdisj p) | apply (Hdisj y)]; set_solver. }
    rewrite (proj2 (Z.eqb_neq e (first o))) by done. rewrite Hp. simpl.
    assert (p ∉ l2) by (intros ?; eapply (Hdisj p); set_solver).
    assert (∀ x, x ∈ l1 → x ≠ p ∧ x ∉ l2).
    { intros x Hx. split; [|intros ?; eapply (Hdisj x); set_solver].
      intros ->. apply NoDup_app in Hnd1 as (_ & Hd & _). apply (Hd p); set_solver. }
    set (n := head_or l2 NULL) in *.
    set (o1 := set_next o p n).
    set (o' := if negb (n =? NULL) then set_prev o1 n p else o1).
    exists o'. assert (next o' = <[p := n]> (next o)) as Hnx by (unfold o'; by case_if).
    assert (∀ x, x ≠ head_or l2 NULL → prev o' !! x = prev o !! x) as Hpv.
    { intros x Hx. unfold o'. case_if; [|done]. simpl. by rewrite lookup_insert_ne. }
    split; [unfold o'; by case_if|]. split; [|split].
    + transitivity (first o); [unfold o'; by case_if|]. rewrite Hf. by destruct l1.
    + apply seg_app. rewrite last_snoc. split.
      * apply seg_app in Hs1 as [Hs1 Hs1']. apply seg_app. split.
        -- eapply seg_frame; [| |exact Hs1].
           ++ intros x Hx. rewrite Hnx, lookup_insert_ne; naive_solver.
           ++ intros x Hx%elem_of_drop_1. apply Hpv. subst n.
              destruct l2; simpl; intros ->; set_solver.
        -- simpl in Hs1' |- *. rewrite Hnx, lookup_insert_eq. split; [done|]. split; [|done].
           destruct Hs1' as (_ & Hs1' & _). destruct (last l1); [|done].
           rewrite Hpv; [done|]. destruct l2; simpl; [set_solver | intros ->; set_solver].
      * destruct l2 as [|y l2]; [done|]. cbn [seg] in Hs2 |- *.
        destruct Hs2 as (Hy1 & Hy2 & Hy3). rewrite Hnx, lookup_insert_ne by set_solver.
        split; [done|]. split.
        -- unfold o'. subst n. simpl. rewrite (proj2 (Z.eqb_neq y NULL)) by set_solver.
           simpl. by rewrite lookup_insert_eq.
        -- eapply seg_frame; [| |exact Hy3].
           ++ intros x Hx. rewrite Hnx, lookup_insert_ne; set_solver.
           ++ intros x Hx. apply Hpv. simpl. apply NoDup_cons in Hnd2 as [Hy _]. set_solver.
    + intros x Hx. rewrite Hnx, lookup_insert_ne; set_solver.
Qed.

Lemma unset_spec g reg l o :
  repr g reg l → o ∈ reg → o ∈ l →
  ∃ o1, Remove (jobs g) o = Ok o1 ∧ first o1 = head_or (job_unset o l) NULL
    ∧ seg o1 None (job_unset o l) NULL
    ∧ (∀ x, x ∈ reg → x ∉ l → next o1 !! x = Some x).
Proof.
  intros HR Ho Hl. destruct (Remove_spec (jobs g) l o) as (o1 & H1 & H2 & H3 & H4);
    try apply HR; [|done|].
  { intros ?. apply (repr_null _ _ _ HR), (repr_sub _ _ _ HR). done. }
  exists o1. split_and!; [done..|]. intros x Hx Hxl. rewrite H4 by done. by apply HR.
Qed.

Lemma bool_decide_job_set x o (l : list Z) :
  bool_decide (x ∈ job_set o l) = bool_decide (x = o) || bool_decide (x ∈ l).
Proof. rewrite (bool_decide_ext _ _ (elem_of_job_set x o l)). by rewrite bool_decide_or. Qed.

Lemma pending_set_spec (pd : gmap Z bool) (reg l : list Z) o :
  (∀ x, x ∈ reg → pd !! x = Some (bool_decide (x ∈ l))) →
  ∀ x, x ∈ reg → <[o := true]> pd !! x = Some (bool_decide (x ∈ job_set o l)).
Proof.
  intros H x Hx. rewrite bool_decide_job_set. destruct (decide (o = x)) as [->|].
  - rewrite lookup_insert_eq. by rewrite bool_decide_true.
  - rewrite lookup_insert_ne by done. rewrite (bool_decide_false (x = o)) by done. auto.
Qed.

Lemma pending_unset_spec (pd : gmap Z bool) (reg l : list Z) o :
  (∀ x, x ∈ reg → pd !! x = Some (bool_decide (x ∈ l))) →
  ∀ x, x ∈ reg → <[o := false]> pd !! x = Some (bool_decide (x ∈ job_unset o l)).
Proof.
  intros H x Hx. rewrite (bool_decide_ext _ _ (elem_of_job_unset x o l)), bool_decide_and.
  destruct (decide (o = x)) as [->|].
  - rewrite lookup_insert_eq. by rewrite (bool_decide_false (x ≠ x)) by naive_solver.
  - rewrite lookup_insert_ne, (bool_decide_true (x ≠ o)) by done. auto.
Qed.

Lemma Prepend_spec o l e :
  first o = head_or l NULL → seg o None l NULL → e ≠ NULL → NULL ∉ l → e ∉ l → NoDup l →
  ∃ o', Prepend o e = Ok o' ∧ first o' = e ∧ seg o' None (e :: l) NULL
    ∧ (∀ x, x ≠ e → next o' !! x = next o !! x).
Proof.
  intros Hf Hs He Hnull Hel Hnd. unfold Prepend. rewrite (proj2 (Z.eqb_neq e NULL)) by done.
  simpl. eexists. split; [done|]. split; [done|]. split; [|by intros; case_if; simpl;
    rewrite lookup_insert_ne].
  destruct l as [|y l]; simpl in Hf; rewrite Hf; simpl.
  - by rewrite lookup_insert_eq.
  - rewrite (proj2 (Z.eqb_neq y NULL)) by set_solver. simpl.
    rewrite !lookup_insert_eq, lookup_insert_ne by set_solver.
    destruct Hs as (H1 & _ & H3). split_and!; [done..|].
    eapply seg_frame; [| |exact H3]; intros x Hx; simpl; apply NoDup_cons in Hnd as [Hy _].
    + rewrite lookup_insert_ne; set_solver.
    + rewrite lookup_insert_ne; [done | set_solver].
Qed.

Lemma IsEmpty_spec g reg l : repr g reg l → IsEmpty (jobs g) = bool_decide (l = []).
Proof.
  intros HR. unfold IsEmpty. rewrite (repr_first _ _ _ HR). destruct l as [|x l]; [done|].
  rewrite bool_decide_false by done. apply Z.eqb_neq. simpl. intros Hx.
  apply (repr_null _ _ _ HR), (repr_sub _ _ _ HR). rewrite <- Hx. set_solver.
Qed.

Lemma repr_null_l g reg l : repr g reg l → NULL ∉ l.
Proof. intros HR H. by apply (repr_null _ _ _ HR), (repr_sub _ _ _ HR). Qed.

Lemma set_refines g reg l o :
  repr g reg l → o ∈ reg →
  ∃ g', BSmallPending_Set g o = Ok g' ∧ repr g' reg (job_set o l).
Proof.
  intros HR Ho. unfold BSmallPending_Set. rewrite (check_pending_spec g reg l o HR Ho). simpl.
  assert (∃ o1, (if negb (bool_decide (o ∉ l)) then Remove (jobs g) o else Ok (jobs g)) = Ok o1
    ∧ first o1 = head_or (job_unset o l) NULL ∧ seg o1 None (job_unset o l) NULL
    ∧ (∀ x, x ∈ reg → x ∉ l → next o1 !! x = Some x)) as (o1 & -> & Hf & Hs & Hr).
  { destruct (decide (o ∈ l)) as [Hl|Hl].
    - rewrite bool_decide_false by naive_solver. by apply unset_spec.
    - rewrite bool_decide_true, job_unset_notin by done. eexists. split; [done|].
      split_and!; apply HR. }
  pose proof (repr_null_l _ _ _ HR) as Hnull.
  destruct (Prepend_spec o1 (job_unset o l) o) as (o2 & Hp & Hf2 & Hs2 & Hn2).
  { done. } { done. } { intros ->. by apply (repr_null _ _ _ HR). }
  { rewrite elem_of_job_unset. naive_solver. } { rewrite elem_of_job_unset. naive_solver. }
  { apply NoDup_job_unset, HR. }
  simpl. rewrite Hp. simpl. eexists. split; [done|]. split; simpl; [done..| | | | |].
  - apply NoDup_job_set, HR.
  - intros x. rewrite elem_of_job_set. intros [->|?]; [done|]. by apply HR.
  - apply HR.
  - intros x Hx. rewrite elem_of_job_set. intros Hxl. rewrite Hn2 by naive_solver.
    apply Hr; naive_solver.
  - apply pending_set_spec, HR.
Qed.

Lemma unset_refines g reg l o :
  repr g reg l → o ∈ reg →
  ∃ g', BSmallPending_Unset g o = Ok g' ∧ repr g' reg (job_unset o l).
Proof.
  intros HR Ho. unfold BSmallPending_Unset. rewrite (check_pending_spec g reg l o HR Ho). simpl.
  destruct (decide (o ∈ l)) as [Hl|Hl].
  2:{ rewrite bool_decide_true by done. simpl. rewrite job_unset_notin by done. eauto. }
  rewrite bool_decide_false by naive_solver. simpl.
  destruct (unset_spec g reg l o HR Ho Hl) as (o1 & -> & Hf & Hs & Hr). simpl.
  assert (o ≠ NULL) by (intros ->; by apply (repr_null _ _ _ HR)).
  unfold MarkRemoved. rewrite (proj2 (Z.eqb_neq o NULL)) by done. simpl.
  eexists. split; [done|]. split; simpl; [done| | | | | |].
  - eapply seg_frame; [| |exact Hs]; [|done]. intros x Hx. simpl.
    rewrite elem_of_job_unset in Hx. by rewrite lookup_insert_ne by naive_solver.
  - apply NoDup_job_unset, HR.
  - intros x. rewrite elem_of_job_unset. intros [_ ?]. by apply HR.
  - apply HR.
  - intros x Hx. rewrite elem_of_job_unset. intros Hxl.
    destruct (decide (o = x)) as [->|]; [by rewrite lookup_insert_eq|].
    rewrite lookup_insert_ne by done. apply Hr; naive_solver.
  - apply pending_unset_spec, HR.
Qed.

Lemma execute_refines g reg j l :
  repr g reg (j :: l) →
  ∃ g', BPendingGroup_ExecuteJob g = Ok (g', j) ∧ repr g' reg l.
Proof.
  intros HR. unfold BPendingGroup_ExecuteJob. rewrite (IsEmpty_spec _ _ _ HR).
  assert (j ∈ reg) as Hj by (apply HR; set_solver).
  pose proof (repr_null_l _ _ _ HR) as Hnull.
  assert (j ≠ NULL) by set_solver.
  unfold First, IsRemoved, RemoveFirst, get_next. rewrite (repr_first _ _ _ HR). simpl.
  destruct (repr_next g reg (j :: l) j HR) as (n & Hn & Hne); [set_solver|].
  rewrite (proj2 (Z.eqb_neq j NULL)), Hn by done. simpl.
  rewrite (proj2 (Z.eqb_neq j n)), (repr_pending _ _ _ HR), bool_decide_true by (done || set_solver).
  simpl. unfold MarkRemoved. rewrite (proj2 (Z.eqb_neq j NULL)) by done. simpl.
  eexists. split; [done|]. pose proof (repr_nodup _ _ _ HR) as Hnd.
  apply NoDup_cons in Hnd as [Hjl Hnd]. pose proof (repr_seg _ _ _ HR) as (H1 & _ & H2).
  split; simpl; [congruence | | done | | apply HR | |].
  - eapply seg_weaken, seg_frame; [| |exact H2]; [|done].
    intros x Hx. simpl. rewrite lookup_insert_ne; [done | set_solver].
  - intros x Hx. apply HR. set_solver.
  - intros x Hx Hxl. destruct (decide (j = x)) as [->|]; [by rewrite lookup_insert_eq|].
    rewrite lookup_insert_ne by done. apply HR; set_solver.
  - intros x Hx. destruct (decide (j = x)) as [->|].
    + rewrite lookup_insert_eq. by rewrite bool_decide_false.
    + rewrite lookup_insert_ne, (repr_pending _ _ _ HR) by done. f_equal.
      apply bool_decide_ext. set_solver.
Qed.

Lemma init_refines g reg l o :
  repr g reg l → o ∉ reg → o ≠ NULL →
  ∃ g', BSmallPending_Init g o = Ok g' ∧ repr g' (o :: reg) l.
Proof.
  intros HR Ho Hn. unfold BSmallPending_Init, MarkRemoved.
  rewrite (proj2 (Z.eqb_neq o NULL)) by done. simpl. eexists. split; [done|].
  assert (o ∉ l) by (intros ?; by apply Ho, (repr_sub _ _ _ HR)).
  split; simpl; [apply HR | | apply HR | | | |].
  - eapply seg_frame; [| |apply HR]; [|done]. intros x Hx. simpl.
    rewrite lookup_insert_ne; [done | set_solver].
  - intros x Hx. right. by apply HR.
  - pose proof (repr_null _ _ _ HR). set_solver.
  - intros x Hx Hxl. destruct (decide (o = x)) as [->|]; [by rewrite lookup_insert_eq|].
    rewrite lookup_insert_ne by done. apply HR; set_solver.
  - intros x Hx. destruct (decide (o = x)) as [->|].
    + rewrite lookup_insert_eq. by rewrite bool_decide_false.
    + rewrite lookup_insert_ne by done. apply HR. set_solver.
Qed.

Lemma free_refines g reg l o :
  repr g reg l → o ∈ reg →
  ∃ g', BSmallPending_Free g o = Ok g' ∧ repr g' (job_unset o reg) (job_unset o l).
Proof.
  intros HR Ho. unfold BSmallPending_Free. rewrite (check_pending_spec g reg l o HR Ho). simpl.
  assert (NULL ∉ job_unset o reg) as Hnr.
  { rewrite elem_of_job_unset. pose proof (repr_null _ _ _ HR). naive_solver. }
  destruct (decide (o ∈ l)) as [Hl|Hl].
  - rewrite bool_decide_false by naive_solver. simpl.
    destruct (unset_spec g reg l o HR Ho Hl) as (o1 & -> & Hf & Hs & Hr). simpl.
    eexists. split; [done|]. split; simpl; [done..| | |done| |].
    + apply NoDup_job_unset, HR.
    + intros x. rewrite !elem_of_job_unset. intros [? ?]. split; [done|]. by apply HR.
    + intros x. rewrite !elem_of_job_unset. intros [? ?] ?. apply Hr; naive_solver.
    + intros x. rewrite elem_of_job_unset. intros [? ?].
      rewrite (repr_pending _ _ _ HR) by done. f_equal. apply bool_decide_ext.
      rewrite elem_of_job_unset. naive_solver.
  - rewrite bool_decide_true, (job_unset_notin o l) by done. simpl. eexists. split; [done|].
    split; [apply HR | apply HR | apply HR | |done| |].
    + intros x Hx. rewrite elem_of_job_unset. split; [by intros ->|]. by apply HR.
    + intros x. rewrite elem_of_job_unset. intros [? ?]. by apply HR.
    + intros x. rewrite elem_of_job_unset. intros [? ?]. by apply HR.
Qed.

(** Sequences of operations, on the code and on the specification. *)
Inductive op :=
| OpInit (o : ptr) | OpFree (o : ptr) | OpSet (o : ptr) | OpUnset (o : ptr) | OpExecute.

(** The code; the second component collects the jobs whose handlers ran. *)
Definition step_code (st : group * list ptr) (p : op) : result (group * list ptr) :=
  let '(g, ran) := st in
  match p with
  | OpInit o => g ← BSmallPending_Init g o; Ok (g, ran)
  | OpFree o => g ← BSmallPending_Free g o; Ok (g, ran)
  | OpSet o => g ← BSmallPending_Set g o; Ok (g, ran)
  | OpUnset o => g ← BSmallPending_Unset g o; Ok (g, ran)
  | OpExecute => '(g, j) ← BPendingGroup_ExecuteJob g; Ok (g, ran ++ [j])
  end.

Fixpoint run_code (st : group * list ptr) (ps : list op) : result (group * list ptr) :=
  match ps with [] => Ok st | p :: ps => st ← step_code st p; run_code st ps end.

(** The specification: initialised jobs, pending jobs front first, and jobs that ran; an
    operation whose precondition (the documentation in base/BPending.h) is broken is [None]. *)
Definition step_spec (st : list ptr * list ptr * list ptr) (p : op)
    : option (list ptr * list ptr * list ptr) :=
  let '(reg, l, ran) := st in
  match p with
  | OpInit o => if bool_decide ((o ∉ reg) ∧ o ≠ NULL) then Some (o :: reg, l, ran) else None
  | OpFree o => if bool_decide (o ∈ reg) then Some (job_unset o reg, job_unset o l, ran) else None
  | OpSet o => if bool_decide (o ∈ reg) then Some (reg, job_set o l, ran) else None
  | OpUnset o => if bool_decide (o ∈ reg) then Some (reg, job_unset o l, ran) else None
  | OpExecute => match l with j :: l => Some (reg, l, ran ++ [j]) | [] => None end
  end.

Fixpoint run_spec (st : list ptr * list ptr * list ptr) (ps : list op)
    : option (list ptr * list ptr * list ptr) :=
  match ps with [] => Some st | p :: ps => st ← step_spec st p; run_spec st ps end.

Lemma step_refines g reg l ran p reg' l' ran' :
  repr g reg l → step_spec (reg, l, ran) p = Some (reg', l', ran') →
  ∃ g', step_code (g, ran) p = Ok (g', ran') ∧ repr g' reg' l'.
Proof.
  intros HR Hs. destruct p as [o|o|o|o|]; simpl in *; try (case_bool_decide; simplify_eq).
  - destruct (init_refines _ _ _ o HR) as (g' & -> & ?); naive_solver.
  - destruct (free_refines _ _ _ o HR) as (g' & -> & ?); naive_solver.
  - destruct (set_refines _ _ _ o HR) as (g' & -> & ?); naive_solver.
  - destruct (unset_refines _ _ _ o HR) as (g' & -> & ?); naive_solver.
  - destruct l as [|j l]; simplify_eq.
    destruct (execute_refines _ _ _ _ HR) as (g' & -> & ?). naive_solver.
Qed.

Lemma empty_repr nx pv pd : repr (BPendingGroup_Init nx pv pd) [] [].
Proof. split; simpl; first [done | constructor | set_solver]. Qed.

(** C37: The job list refines a list of distinct jobs: every sequence of initialising, setting,
    unsetting, freeing and executing jobs that the list allows runs without a failed
    assertion, and the handlers are executed in the order of the list, the job set last
    first. *)
Theorem pending_refines nx pv pd ps reg l ran :
  run_spec ([], [], []) ps = Some (reg, l, ran) →
  ∃ g, run_code (BPendingGroup_Init nx pv pd, []) ps = Ok (g, ran) ∧ repr g reg l.
Proof.
  assert (∀ st g reg0 l0 ran0, repr g reg0 l0 → st = (reg0, l0, ran0) →
    run_spec st ps = Some (reg, l, ran) →
    ∃ g', run_code (g, ran0) ps = Ok (g', ran) ∧ repr g' reg l) as Hgen.
  { induction ps as [|p ps IH]; intros st g reg0 l0 ran0 HR -> Hrun;
      cbn [run_code run_spec] in *.
    - simplify_eq. eauto.
    - apply bind_Some in Hrun as ([[reg1 l1] ran1] & Hs & Hrun).
      destruct (step_refines _ _ _ _ _ _ _ _ HR Hs) as (g1 & -> & HR1). cbn. eauto. }
  intros H. eapply Hgen; [apply empty_repr | done | done].
Qed.

Lemma pending_refines_witness :
  ∃ g, run_code (BPendingGroup_Init ∅ ∅ ∅, [])
    [OpInit 8; OpInit 16; OpInit 24; OpSet 8; OpSet 16; OpSet 24; OpSet 8; OpExecute; OpUnset 16]
    = Ok (g, [8]) ∧ repr g [24; 16; 8] [24].
Proof. apply (pending_refines ∅ ∅ ∅). vm_compute. reflexivity. Defined.

End PendingRefines.
