(* ===== verification/Reactor.v ===== *)
(** * The event loop: system/BReactor_badvpn.c, system/BTime.h

    The loop runs the pending jobs, calls the handlers of expired timers and of file descriptors with events, and waits
    for the next.  [BTime] has the arithmetic of times, [BReactor] the loop and its operations as the Linux build
    (epoll) has them; [ReactorWorld] puts it between the program, whose handlers call the operations, and the kernel.
    [ReactorFacts] shows that the loop never fails, that a timer's handler is called when its time has come, once for
    each time it was set, and not after it was stopped, and that a descriptor's handler is called only for what the
    kernel reported while it was being watched. *)

From S2P Require Import Prelude CMem Pending Tree.

(** ** Times *)

Module BTime.

Definition INT64_MAX : Z := 2 ^ 63 - 1.
Definition INT64_MIN : Z := - 2 ^ 63.

(** [add_int64_overflows] of misc/overflow.h *)
Definition add_int64_overflows (a b : Z) : Z :=
  if xorb (a <? 0) (b <? 0) then 0
  else if a <? 0 then - Z.b2z (a <? INT64_MIN - b)
  else Z.b2z (INT64_MAX - b <? a).

Definition btime_add (t1 t2 : Z) : Z :=
  let overflows := add_int64_overflows t1 t2 in
  if negb (overflows =? 0) then if 0 <? overflows then INT64_MAX else INT64_MIN
  else t1 + t2.

Definition is_btime (t : Z) : Prop := INT64_MIN ≤ t ≤ INT64_MAX.

End BTime.

(** ** The loop and its operations *)

Module BReactor.
Import BTime.

Inductive timer_state := TIMER_STATE_INACTIVE | TIMER_STATE_RUNNING | TIMER_STATE_EXPIRED.

#[export] Instance timer_state_eq_dec : EqDecision timer_state.
Proof. solve_decision. Defined.

(** A timer; which handler it has and how the handler is called ([is_small]) is the program's affair. *)
Record BSmallTimer := timer { absTime : Z; state : timer_state }.

Definition BTIMER_SET_ABSOLUTE : Z := 1.
Definition BTIMER_SET_RELATIVE : Z := 2.

Definition BREACTOR_READ : Z := 1.
Definition BREACTOR_WRITE : Z := 2.
Definition BREACTOR_ERROR : Z := 4.
Definition BREACTOR_HUP : Z := 8.

(** The values of the system's header. *)
Definition EPOLLIN : Z := 1.
Definition EPOLLOUT : Z := 4.
Definition EPOLLERR : Z := 8.
Definition EPOLLHUP : Z := 16.

(** [epoll_returned_ptr] points to the entry of this index in [epoll_results], or is NULL. *)
Record BFileDescriptor := bfd { fd : Z; active : bool; waitEvents : Z; epoll_returned_ptr : option nat }.

Record epoll_event := entry { data : option ptr; events : Z }.

Record BReactorLimit := mklimit { limit : Z; count : Z }.

Definition BSYSTEM_MAX_RESULTS : nat := 64.

(** The reactor, with the timers, file descriptors and limits in memory that have been initialised. *)
Record BReactor := mk {
  exiting : bool;
  exit_code : Z;
  pending_jobs : list ptr;
  timers : gmap ptr BSmallTimer;
  timers_tree : list ptr;
  timers_expired_list : list ptr;
  limits : gmap ptr BReactorLimit;
  active_limits_list : list ptr;
  fds : gmap ptr BFileDescriptor;
  epoll_results : list epoll_event;
  epoll_results_num : nat;
  epoll_results_pos : nat;
}.

Definition set_exit (o : BReactor) (code : Z) : BReactor :=
  mk true code (pending_jobs o) (timers o) (timers_tree o) (timers_expired_list o) (limits o) (active_limits_list o)
    (fds o) (epoll_results o) (epoll_results_num o) (epoll_results_pos o).
Definition set_jobs (o : BReactor) (js : list ptr) : BReactor :=
  mk (exiting o) (exit_code o) js (timers o) (timers_tree o) (timers_expired_list o) (limits o) (active_limits_list o)
    (fds o) (epoll_results o) (epoll_results_num o) (epoll_results_pos o).
Definition set_timers (o : BReactor) (m : gmap ptr BSmallTimer) (tree expired : list ptr) : BReactor :=
  mk (exiting o) (exit_code o) (pending_jobs o) m tree expired (limits o) (active_limits_list o)
    (fds o) (epoll_results o) (epoll_results_num o) (epoll_results_pos o).
Definition set_limits (o : BReactor) (m : gmap ptr BReactorLimit) (l : list ptr) : BReactor :=
  mk (exiting o) (exit_code o) (pending_jobs o) (timers o) (timers_tree o) (timers_expired_list o) m l
    (fds o) (epoll_results o) (epoll_results_num o) (epoll_results_pos o).
Definition set_fds (o : BReactor) (m : gmap ptr BFileDescriptor) (rs : list epoll_event) : BReactor :=
  mk (exiting o) (exit_code o) (pending_jobs o) (timers o) (timers_tree o) (timers_expired_list o) (limits o)
    (active_limits_list o) m rs (epoll_results_num o) (epoll_results_pos o).
Definition set_results (o : BReactor) (rs : list epoll_event) (num pos : nat) : BReactor :=
  mk (exiting o) (exit_code o) (pending_jobs o) (timers o) (timers_tree o) (timers_expired_list o) (limits o)
    (active_limits_list o) (fds o) rs num pos.

Definition get_timer (o : BReactor) (p : ptr) : result BSmallTimer := or_fault BadAccess (timers o !! p).
Definition get_fd (o : BReactor) (p : ptr) : result BFileDescriptor := or_fault BadAccess (fds o !! p).
Definition get_limit (o : BReactor) (p : ptr) : result BReactorLimit := or_fault BadAccess (limits o !! p).

Definition put_timer (o : BReactor) (p : ptr) (t : BSmallTimer) : BReactor :=
  set_timers o (<[p := t]> (timers o)) (timers_tree o) (timers_expired_list o).
Definition put_fd (o : BReactor) (p : ptr) (b : BFileDescriptor) : BReactor :=
  set_fds o (<[p := b]> (fds o)) (epoll_results o).
Definition put_limit (o : BReactor) (p : ptr) (l : BReactorLimit) : BReactor :=
  set_limits o (<[p := l]> (limits o)) (active_limits_list o).

(** *** Timers *)

Definition time_of (m : gmap ptr BSmallTimer) (p : ptr) : Z := from_option absTime 0 (m !! p).

Definition compare_timers (m : gmap ptr BSmallTimer) (t1 t2 : ptr) : Z :=
  let cmp := B_COMPARE (time_of m t1) (time_of m t2) in
  if negb (cmp =? 0) then cmp else B_COMPARE t1 t2.

(** Remove from the running timers' tree, add to the expired timers' list, set expired. *)
Definition expire (o : BReactor) (p : ptr) : result BReactor :=
  t ← get_timer o p;
  Ok (set_timers o (<[p := timer (absTime t) TIMER_STATE_EXPIRED]> (timers o)) (Tree.Remove (timers_tree o) p)
        (timers_expired_list o ++ [p])).

(** The loops of [move_expired_timers] and of the end of [move_first_timers]: the timers that are not after [time]. *)
Fixpoint expire_until (fuel : nat) (o : BReactor) (time : Z) (check : Z → bool) (moved : bool) : result (BReactor * bool) :=
  match fuel with
  | O => Fault AssertFailed
  | S fuel =>
      match Tree.GetFirst (timers_tree o) with
      | None => Ok (o, moved)
      | Some p =>
          t ← get_timer o p;
          ASSERT bool_decide (state t = TIMER_STATE_RUNNING) ;;
          ASSERT check (absTime t) ;;
          if time <? absTime t then Ok (o, moved) else
          o ← expire o p;
          expire_until fuel o time check true
      end
  end.

(** Every iteration takes a timer out of the tree. *)
Definition enough (o : BReactor) : nat := S (length (timers_tree o)).

Definition move_expired_timers (o : BReactor) (now : Z) : result (BReactor * bool) :=
  expire_until (enough o) o now (λ _, true) false.

Definition move_first_timers (o : BReactor) : result BReactor :=
  match Tree.GetFirst (timers_tree o) with
  | None => Fault AssertFailed
  | Some p =>
      t ← get_timer o p;
      ASSERT bool_decide (state t = TIMER_STATE_RUNNING) ;;
      let first_time := absTime t in
      o ← expire o p;
      '(o, _) ← expire_until (enough o) o first_time (λ time, first_time <=? time) false;
      Ok o
  end.

Definition BSmallTimer_Init (o : BReactor) (bt : ptr) : BReactor :=
  put_timer o bt (timer (time_of (timers o) bt) TIMER_STATE_INACTIVE).

Definition BSmallTimer_IsRunning (o : BReactor) (bt : ptr) : result bool :=
  t ← get_timer o bt;
  Ok (negb (bool_decide (state t = TIMER_STATE_INACTIVE))).

Definition BReactor_RemoveSmallTimer (o : BReactor) (bt : ptr) : result BReactor :=
  t ← get_timer o bt;
  match state t with
  | TIMER_STATE_INACTIVE => Ok o
  | TIMER_STATE_EXPIRED =>
      Ok (set_timers o (<[bt := timer (absTime t) TIMER_STATE_INACTIVE]> (timers o)) (timers_tree o)
            (job_unset bt (timers_expired_list o)))
  | TIMER_STATE_RUNNING =>
      Ok (set_timers o (<[bt := timer (absTime t) TIMER_STATE_INACTIVE]> (timers o)) (Tree.Remove (timers_tree o) bt)
            (timers_expired_list o))
  end.

(** [now] is what [btime_gettime] returns. *)
Definition BReactor_SetSmallTimer (o : BReactor) (bt : ptr) (mode time now : Z) : result BReactor :=
  ASSERT (mode =? BTIMER_SET_ABSOLUTE) || (mode =? BTIMER_SET_RELATIVE) ;;
  o ← BReactor_RemoveSmallTimer o bt;
  let time := if mode =? BTIMER_SET_RELATIVE then btime_add now time else time in
  let o := put_timer o bt (timer time TIMER_STATE_RUNNING) in
  match Tree.Insert (compare_timers (timers o)) (timers_tree o) bt with
  | Some tree => Ok (set_timers o (timers o) tree (timers_expired_list o))
  | None => Fault AssertFailed
  end.

Definition BReactor_SetTimer (o : BReactor) (bt : ptr) (msTime now : Z) : result BReactor :=
  BReactor_SetSmallTimer o bt BTIMER_SET_RELATIVE msTime now.
Definition BReactor_SetTimerAfter (o : BReactor) (bt : ptr) (after now : Z) : result BReactor :=
  BReactor_SetSmallTimer o bt BTIMER_SET_RELATIVE after now.
Definition BReactor_SetTimerAbsolute (o : BReactor) (bt : ptr) (time now : Z) : result BReactor :=
  BReactor_SetSmallTimer o bt BTIMER_SET_ABSOLUTE time now.
Definition BReactor_RemoveTimer (o : BReactor) (bt : ptr) : result BReactor := BReactor_RemoveSmallTimer o bt.

(** *** File descriptors *)

(** The calls of [epoll_ctl]. *)
Inductive epoll_ctl := Ctl_add (fd : Z) (p : ptr) | Ctl_mod (fd : Z) (p : ptr) (eevents : Z) | Ctl_del (fd : Z).

Definition BFileDescriptor_Init (o : BReactor) (bs : ptr) (n : Z) : BReactor :=
  put_fd o bs (bfd n false (from_option waitEvents 0 (fds o !! bs)) (b ← fds o !! bs; epoll_returned_ptr b)).

(** [res] is whether [epoll_ctl] succeeds; the results are whether the function does, and its call. *)
Definition BReactor_AddFileDescriptor (o : BReactor) (bs : ptr) (res : bool) : result (BReactor * bool * epoll_ctl) :=
  b ← get_fd o bs;
  ASSERT negb (active b) ;;
  let c := Ctl_add (fd b) bs in
  if negb res then Ok (o, false, c) else
  Ok (put_fd o bs (bfd (fd b) true 0 None), true, c).

Definition BReactor_RemoveFileDescriptor (o : BReactor) (bs : ptr) : result (BReactor * epoll_ctl) :=
  b ← get_fd o bs;
  ASSERT active b ;;
  let o := put_fd o bs (bfd (fd b) false (waitEvents b) (epoll_returned_ptr b)) in
  let c := Ctl_del (fd b) in
  match epoll_returned_ptr b with
  | Some i =>
      match epoll_results o !! i with
      | Some e => Ok (set_fds o (fds o) (<[i := entry None (events e)]> (epoll_results o)), c)
      | None => Fault BadAccess
      end
  | None => Ok (o, c)
  end.

Definition has (mask flag : Z) : bool := negb (Z.land mask flag =? 0).

(** The events that the kernel is asked for. *)
Definition to_epoll (evs : Z) : Z :=
  let eevents := 0 in
  let eevents := if has evs BREACTOR_READ then Z.lor eevents EPOLLIN else eevents in
  if has evs BREACTOR_WRITE then Z.lor eevents EPOLLOUT else eevents.

Definition BReactor_SetFileDescriptorEvents (o : BReactor) (bs : ptr) (evs : Z) : result (BReactor * option epoll_ctl) :=
  b ← get_fd o bs;
  ASSERT active b ;;
  ASSERT Z.ldiff evs (Z.lor BREACTOR_READ BREACTOR_WRITE) =? 0 ;;
  if waitEvents b =? evs then Ok (o, None) else
  Ok (put_fd o bs (bfd (fd b) (active b) evs (epoll_returned_ptr b)), Some (Ctl_mod (fd b) bs (to_epoll evs))).

(** *** Limits *)

Definition BReactorLimit_Init (o : BReactor) (l : ptr) (n : Z) : result BReactor :=
  ASSERT 0 <? n ;; Ok (put_limit o l (mklimit n 0)).

Definition BReactorLimit_Free (o : BReactor) (l : ptr) : result BReactor :=
  r ← get_limit o l;
  Ok (if 0 <? count r then set_limits o (limits o) (job_unset l (active_limits_list o)) else o).

Definition BReactorLimit_Increment (o : BReactor) (l : ptr) : result (BReactor * bool) :=
  r ← get_limit o l;
  if limit r <=? count r then Ok (o, false) else
  let c := count r + 1 in
  let o := put_limit o l (mklimit (limit r) c) in
  Ok (if c =? 1 then set_limits o (limits o) (active_limits_list o ++ [l]) else o, true).

Definition BReactorLimit_SetLimit (o : BReactor) (l : ptr) (n : Z) : result BReactor :=
  ASSERT 0 <? n ;;
  r ← get_limit o l;
  Ok (put_limit o l (mklimit n (count r))).

(** The end of [wait_for_events]. *)
Fixpoint reset_limits (l : list ptr) (o : BReactor) : result BReactor :=
  match l with
  | [] => Ok (set_limits o (limits o) [])
  | p :: l =>
      r ← get_limit o p;
      ASSERT 0 <? count r ;;
      reset_limits l (put_limit o p (mklimit (limit r) 0))
  end.

(** *** Waiting *)

(** Until when it waits, and the current time if it waits for a timer. *)
Record waiting := { timeout_abs : option Z; now : Z }.

(** [wait_for_events] up to the call of [epoll_wait]; [None] when it returns without the call. *)
Definition wait_for_events (o : BReactor) (gettime : Z) : result (BReactor * option waiting) :=
  ASSERT bool_decide (pending_jobs o = []) ;;
  ASSERT bool_decide (timers_expired_list o = []) ;;
  ASSERT bool_decide (epoll_results_pos o = epoll_results_num o) ;;
  let o := set_results o (epoll_results o) 0 0 in
  match Tree.GetFirst (timers_tree o) with
  | Some p =>
      t ← get_timer o p;
      ASSERT bool_decide (state t = TIMER_STATE_RUNNING) ;;
      '(o, moved) ← move_expired_timers o gettime;
      if (moved : bool) then Ok (o, None) else
      Ok (o, Some {| timeout_abs := Some (absTime t); now := gettime |})
  | None => Ok (o, Some {| timeout_abs := None; now := 0 |})
  end.

(** The argument of [epoll_wait]: the time in milliseconds, -1 to wait forever. *)
Definition epoll_timeout (w : waiting) : Z :=
  match timeout_abs w with
  | Some t => let timeout_rel := t - now w in if INT_MAX <? timeout_rel then INT_MAX else timeout_rel
  | None => -1
  end.

Fixpoint set_epoll_fd_pointers (rs : list epoll_event) (i : nat) (o : BReactor) : result BReactor :=
  match rs with
  | [] => Ok o
  | e :: rs =>
      p ← or_fault AssertFailed (data e);
      b ← get_fd o p;
      ASSERT active b ;;
      ASSERT bool_decide (epoll_returned_ptr b = None) ;;
      set_epoll_fd_pointers rs (S i) (put_fd o p (bfd (fd b) (active b) (waitEvents b) (Some i)))
  end.

(** What [epoll_wait] returns: an error EINTR, or the entries it has written, none when the time has passed. *)
Inductive wait_result := Interrupted | Returned (rs : list epoll_event).

(** The loop of [wait_for_events] from the return of [epoll_wait] to its next call or the end of the function.
    [gettime] is what [btime_gettime] returns. *)
Definition try_again (o : BReactor) (w : waiting) (gettime : Z) : result (BReactor * option waiting) :=
  match timeout_abs w with
  | Some t =>
      if t <=? gettime then
        o ← move_first_timers o;
        o ← reset_limits (active_limits_list o) o;
        Ok (o, None)
      else Ok (o, Some {| timeout_abs := Some t; now := gettime |})
  | None => Ok (o, Some w)
  end.

Definition wait_returned (o : BReactor) (w : waiting) (r : wait_result) (gettime : Z) : result (BReactor * option waiting) :=
  match r with
  | Interrupted => try_again o w gettime
  | Returned rs =>
      ASSERT negb (length rs =? 0)%nat || bool_decide (is_Some (timeout_abs w)) ;;
      ASSERT (length rs <=? BSYSTEM_MAX_RESULTS)%nat ;;
      let waited := match timeout_abs w with Some t => epoll_timeout w =? t - now w | None => true end in
      if negb (length rs =? 0)%nat || waited then
        o ← (if negb (length rs =? 0)%nat then
               set_epoll_fd_pointers rs 0 (set_results o rs (length rs) (epoll_results_pos o))
             else move_first_timers o);
        o ← reset_limits (active_limits_list o) o;
        Ok (o, None)
      else try_again o w gettime
  end.

(** *** The loop *)

(** What an iteration of [BReactor_Exec] does: it calls the handler of a job, timer or descriptor, or none, it has to
    wait, or the loop ends. *)
Inductive dispatched :=
| Job (p : ptr)
| Timer (p : ptr)
| Descriptor (p : ptr) (evs : Z)
| Nothing
| Wait
| Exit (code : Z).

(** The events of an entry that are reported for a descriptor. *)
Definition report (wait eevents : Z) : Z :=
  let evs := 0 in
  let evs := if has wait BREACTOR_READ && has eevents EPOLLIN then Z.lor evs BREACTOR_READ else evs in
  let evs := if has wait BREACTOR_WRITE && has eevents EPOLLOUT then Z.lor evs BREACTOR_WRITE else evs in
  let evs := if has eevents EPOLLERR then Z.lor evs BREACTOR_ERROR else evs in
  if has eevents EPOLLHUP then Z.lor evs BREACTOR_HUP else evs.

Definition dispatch_fd (o : BReactor) : result (BReactor * dispatched) :=
  let i := epoll_results_pos o in
  e ← or_fault BadAccess (epoll_results o !! i);
  let o := set_results o (epoll_results o) (epoll_results_num o) (S i) in
  match data e with
  | None => Ok (o, Nothing)
  | Some p =>
      b ← get_fd o p;
      ASSERT active b ;;
      ASSERT bool_decide (epoll_returned_ptr b = Some i) ;;
      let o := put_fd o p (bfd (fd b) (active b) (waitEvents b) None) in
      let evs := report (waitEvents b) (events e) in
      if evs =? 0 then Ok (o, Nothing) else Ok (o, Descriptor p evs)
  end.

Definition BReactor_Exec (o : BReactor) : result (BReactor * dispatched) :=
  if exiting o then Ok (o, Exit (exit_code o)) else
  match pending_jobs o with
  | j :: js => Ok (set_jobs o js, Job j)
  | [] =>
      match timers_expired_list o with
      | p :: l =>
          t ← get_timer o p;
          ASSERT bool_decide (state t = TIMER_STATE_EXPIRED) ;;
          Ok (set_timers o (<[p := timer (absTime t) TIMER_STATE_INACTIVE]> (timers o)) (timers_tree o) l, Timer p)
      | [] => if (epoll_results_pos o <? epoll_results_num o)%nat then dispatch_fd o else Ok (o, Wait)
      end
  end.

Definition BReactor_Quit (o : BReactor) (code : Z) : BReactor := set_exit o code.

(** An iteration of [BReactor_Synchronize]: the function's result, or the job whose handler it calls before the next. *)
Definition BReactor_Synchronize (o : BReactor) (ref : ptr) : result (BReactor * (bool + ptr)) :=
  if exiting o then Ok (o, inl false) else
  match pending_jobs o with
  | [] => Fault AssertFailed
  | j :: js => if bool_decide (j = ref) then Ok (o, inl true) else Ok (set_jobs o js, inr j)
  end.

(** When [epoll_create] succeeds; otherwise the function returns 0 and leaves nothing behind. *)
Definition BReactor_Init (t : gmap ptr BSmallTimer) (l : gmap ptr BReactorLimit) (f : gmap ptr BFileDescriptor)
    (rs : list epoll_event) : BReactor :=
  mk false 0 [] t [] [] l [] f rs 0 0.

Definition BReactor_Free (o : BReactor) : result unit :=
  ASSERT bool_decide (pending_jobs o = []) ;;
  ASSERT Tree.IsEmpty (timers_tree o) ;;
  ASSERT bool_decide (timers_expired_list o = []) ;;
  ASSERT bool_decide (active_limits_list o = []) ;;
  Ok tt.

End BReactor.

(** ** The program and the kernel *)

Module ReactorWorld.
Import BTime BReactor.

(** Where control is: in the program (a handler, or before the loop is entered), in the loop, or in [epoll_wait]. *)
Inductive mode := Program | Loop | Waiting (w : waiting).

(** [registered] is the kernel's set of descriptors: for a descriptor's number, its object and the events asked for. *)
Record world := World {
  reactor : BReactor;
  clock : Z;
  at_mode : mode;
  registered : gmap Z (ptr * Z);
}.

Inductive event :=
| Tick (z : Z)                       (** time passes *)
| Run                                (** an iteration of the loop *)
| Return                             (** the handler returns, or the program enters the loop *)
| Epoll (r : wait_result)            (** [epoll_wait] returns *)
| Init_timer (p : ptr) | Free_timer (p : ptr) | Is_running (p : ptr)
| Set_timer (p : ptr) (mode time : Z) | Remove_timer (p : ptr)
| Init_fd (p : ptr) (n : Z) | Free_fd (p : ptr)
| Add_fd (p : ptr) (res : bool) | Remove_fd (p : ptr) | Set_events (p : ptr) (evs : Z)
| Init_limit (p : ptr) (n : Z) | Free_limit (p : ptr) | Increment (p : ptr) | Set_limit (p : ptr) (n : Z)
| Set_job (j : ptr) | Unset_job (j : ptr) | Synchronize (ref : ptr)
| Quit (code : Z).

(** What the program sees of an event: the result of a call, the handler that is called, or the end of the loop; and
    the time [epoll_wait] is called with. *)
Inductive output := Silent | Value (b : bool) | Called (d : dispatched) | Wait_for (ms : Z).

(** [ASSERT_FORCE(epoll_ctl(..) == 0)] where the call is not [Ctl_add] *)
Definition do_ctl (k : gmap Z (ptr * Z)) (c : epoll_ctl) : result (gmap Z (ptr * Z)) :=
  match c with
  | Ctl_add n p => Ok (<[n := (p, 0)]> k)
  | Ctl_mod n p evs => ASSERT bool_decide (is_Some (k !! n)) ;; Ok (<[n := (p, evs)]> k)
  | Ctl_del n => ASSERT bool_decide (is_Some (k !! n)) ;; Ok (delete n k)
  end.

Definition with_reactor (w : world) (o : BReactor) : world := World o (clock w) (at_mode w) (registered w).
Definition with_mode (w : world) (m : mode) : world := World (reactor w) (clock w) m (registered w).

(** After a part of [wait_for_events]. *)
Definition waited (w : world) (r : result (BReactor * option waiting)) : result (world * output) :=
  '(o, wt) ← r;
  match wt with
  | Some wt => Ok (with_mode (with_reactor w o) (Waiting wt), Wait_for (epoll_timeout wt))
  | None => Ok (with_mode (with_reactor w o) Loop, Silent)
  end.

Definition run_loop (w : world) : result (world * output) :=
  '(o, d) ← BReactor_Exec (reactor w);
  match d with
  | Nothing => Ok (with_reactor w o, Called d)
  | Wait => waited w (wait_for_events o (clock w))
  | _ => Ok (with_mode (with_reactor w o) Program, Called d)
  end.

(** What [epoll_wait] can return: only descriptors that are registered, each once, and nothing only after the time
    has passed that it was called with. *)
Definition kernel_ok (w : world) (wt : waiting) (r : wait_result) : bool :=
  match r with
  | Interrupted => true
  | Returned [] => bool_decide (is_Some (timeout_abs wt)) && (now wt + epoll_timeout wt <=? clock w)
  | Returned rs =>
      (length rs <=? BSYSTEM_MAX_RESULTS)%nat && bool_decide (NoDup (data <$> rs)) &&
      forallb (λ e, bool_decide (data e ∈ Some ∘ (fst ∘ snd) <$> map_to_list (registered w))) rs
  end.

(** The rules of the operations. *)
Definition call_ok (w : world) (e : event) : bool :=
  let o := reactor w in
  let inactive p := bool_decide (state <$> timers o !! p = Some TIMER_STATE_INACTIVE) in
  let closed p := bool_decide (active <$> fds o !! p = Some false) in
  let opened p := bool_decide (active <$> fds o !! p = Some true) in
  match e with
  | Init_timer p => bool_decide (timers o !! p = None) || inactive p
  | Free_timer p => inactive p
  | Is_running p | Remove_timer p => bool_decide (is_Some (timers o !! p))
  | Set_timer p m t => bool_decide (is_Some (timers o !! p)) && ((m =? BTIMER_SET_ABSOLUTE) || (m =? BTIMER_SET_RELATIVE))
  | Init_fd p n => bool_decide (fds o !! p = None) || closed p
  | Free_fd p => closed p
  | Add_fd p res =>
      closed p && (negb res || bool_decide (from_option (λ b, registered w !! fd b) None (fds o !! p) = None))
  | Remove_fd p => opened p
  | Set_events p evs => opened p && (Z.ldiff evs (Z.lor BREACTOR_READ BREACTOR_WRITE) =? 0)
  | Init_limit p n => bool_decide (limits o !! p = None) && (0 <? n)
  | Free_limit p | Increment p => bool_decide (is_Some (limits o !! p))
  | Set_limit p n => bool_decide (is_Some (limits o !! p)) && (0 <? n)
  | Synchronize ref => exiting o || negb (bool_decide (pending_jobs o = []))
  | _ => true
  end.

Definition call (w : world) (e : event) : result (world * output) :=
  let o := reactor w in
  match e with
  | Init_timer p => Ok (with_reactor w (BSmallTimer_Init o p), Silent)
  | Free_timer p => Ok (with_reactor w (set_timers o (delete p (timers o)) (timers_tree o) (timers_expired_list o)), Silent)
  | Is_running p => b ← BSmallTimer_IsRunning o p; Ok (w, Value b)
  | Set_timer p m t => o ← BReactor_SetSmallTimer o p m t (clock w); Ok (with_reactor w o, Silent)
  | Remove_timer p => o ← BReactor_RemoveSmallTimer o p; Ok (with_reactor w o, Silent)
  | Init_fd p n => Ok (with_reactor w (BFileDescriptor_Init o p n), Silent)
  | Free_fd p => Ok (with_reactor w (set_fds o (delete p (fds o)) (epoll_results o)), Silent)
  | Add_fd p res =>
      '(o, b, c) ← BReactor_AddFileDescriptor o p res;
      k ← (if (b : bool) then do_ctl (registered w) c else Ok (registered w));
      Ok (World o (clock w) (at_mode w) k, Value b)
  | Remove_fd p =>
      '(o, c) ← BReactor_RemoveFileDescriptor o p;
      k ← do_ctl (registered w) c;
      Ok (World o (clock w) (at_mode w) k, Silent)
  | Set_events p evs =>
      '(o, c) ← BReactor_SetFileDescriptorEvents o p evs;
      k ← (match c with Some c => do_ctl (registered w) c | None => Ok (registered w) end);
      Ok (World o (clock w) (at_mode w) k, Silent)
  | Init_limit p n => o ← BReactorLimit_Init o p n; Ok (with_reactor w o, Silent)
  | Free_limit p =>
      o ← BReactorLimit_Free o p;
      Ok (with_reactor w (set_limits o (delete p (limits o)) (active_limits_list o)), Silent)
  | Increment p => '(o, b) ← BReactorLimit_Increment o p; Ok (with_reactor w o, Value b)
  | Set_limit p n => o ← BReactorLimit_SetLimit o p n; Ok (with_reactor w o, Silent)
  | Set_job j => Ok (with_reactor w (set_jobs o (job_set j (pending_jobs o))), Silent)
  | Unset_job j => Ok (with_reactor w (set_jobs o (job_unset j (pending_jobs o))), Silent)
  | Synchronize ref =>
      '(o, r) ← BReactor_Synchronize o ref;
      Ok (with_reactor w o, match r with inl b => Value b | inr j => Called (Job j) end)
  | Quit code => Ok (with_reactor w (BReactor_Quit o code), Silent)
  | Tick _ | Run | Return | Epoll _ => Ok (w, Silent)
  end.

(** [None] when the event is not possible. *)
Definition step (w : world) (e : event) : option (result (world * output)) :=
  match e with
  | Tick z => if clock w <=? z then Some (Ok (World (reactor w) z (at_mode w) (registered w), Silent)) else None
  | Run => match at_mode w with Loop => Some (run_loop w) | _ => None end
  | Return => match at_mode w with Program => Some (Ok (with_mode w Loop, Silent)) | _ => None end
  | Epoll r =>
      match at_mode w with
      | Waiting wt => if kernel_ok w wt r then Some (waited w (wait_returned (reactor w) wt r (clock w))) else None
      | _ => None
      end
  | _ => match at_mode w with Program => if call_ok w e then Some (call w e) else None | _ => None end
  end.

Fixpoint run (w : world) (es : list event) : option (result (world * list output)) :=
  match es with
  | [] => Some (Ok (w, []))
  | e :: es =>
      match step w e with
      | Some (Ok (w, out)) =>
          match run w es with
          | Some (Ok (w, outs)) => Some (Ok (w, out :: outs))
          | r => r
          end
      | Some (Fault f) => Some (Fault f)
      | None => None
      end
  end.

(** A reactor just initialised. *)
Definition initial (z : Z) : world := World (BReactor_Init ∅ ∅ ∅ []) z Program ∅.

(** *** The contract *)

(** What a reactor is to its users: the timers that are set and when they expire, those set since it last waited, the
    descriptors that are watched and for which events, what the kernel has reported and not been handled, the limits
    and the jobs. *)
Record spec := Spec {
  s_clock : Z;
  s_armed : gmap ptr Z;
  s_fresh : gset ptr;
  s_watched : gmap ptr Z;
  s_reported : gmap ptr Z;
  s_limits : gmap ptr BReactorLimit;
  s_jobs : list ptr;
  s_exit : option Z;
}.

Definition spec0 (z : Z) : spec := Spec z ∅ ∅ ∅ ∅ ∅ [] None.

Definition with_clock (s : spec) (z : Z) : spec :=
  Spec z (s_armed s) (s_fresh s) (s_watched s) (s_reported s) (s_limits s) (s_jobs s) (s_exit s).
Definition with_timers (s : spec) (a : gmap ptr Z) (f : gset ptr) : spec :=
  Spec (s_clock s) a f (s_watched s) (s_reported s) (s_limits s) (s_jobs s) (s_exit s).
Definition with_fds (s : spec) (w r : gmap ptr Z) : spec :=
  Spec (s_clock s) (s_armed s) (s_fresh s) w r (s_limits s) (s_jobs s) (s_exit s).
Definition with_limits (s : spec) (l : gmap ptr BReactorLimit) : spec :=
  Spec (s_clock s) (s_armed s) (s_fresh s) (s_watched s) (s_reported s) l (s_jobs s) (s_exit s).
Definition with_jobs (s : spec) (js : list ptr) : spec :=
  Spec (s_clock s) (s_armed s) (s_fresh s) (s_watched s) (s_reported s) (s_limits s) js (s_exit s).
Definition with_exit (s : spec) (code : Z) : spec :=
  Spec (s_clock s) (s_armed s) (s_fresh s) (s_watched s) (s_reported s) (s_limits s) (s_jobs s) (Some code).

(** The operations. *)
Definition spec_call (s : spec) (e : event) : spec * output :=
  match e with
  | Init_timer _ | Free_timer _ | Init_fd _ _ | Free_fd _ | Tick _ | Run | Return | Epoll _ => (s, Silent)
  | Is_running p => (s, Value (bool_decide (is_Some (s_armed s !! p))))
  | Set_timer p m t =>
      let t := if m =? BTIMER_SET_RELATIVE then btime_add (s_clock s) t else t in
      (with_timers s (<[p := t]> (s_armed s)) ({[p]} ∪ s_fresh s), Silent)
  | Remove_timer p => (with_timers s (delete p (s_armed s)) (s_fresh s), Silent)
  | Add_fd p res => (if res then with_fds s (<[p := 0]> (s_watched s)) (s_reported s) else s, Value res)
  | Remove_fd p => (with_fds s (delete p (s_watched s)) (delete p (s_reported s)), Silent)
  | Set_events p evs => (with_fds s (<[p := evs]> (s_watched s)) (s_reported s), Silent)
  | Init_limit p n => (with_limits s (<[p := mklimit n 0]> (s_limits s)), Silent)
  | Free_limit p => (with_limits s (delete p (s_limits s)), Silent)
  | Increment p =>
      match s_limits s !! p with
      | Some l =>
          if count l <? limit l then (with_limits s (<[p := mklimit (limit l) (count l + 1)]> (s_limits s)), Value true)
          else (s, Value false)
      | None => (s, Silent)
      end
  | Set_limit p n =>
      (with_limits s (alter (λ l, mklimit n (count l)) p (s_limits s)), Silent)
  | Set_job j => (with_jobs s (job_set j (s_jobs s)), Silent)
  | Unset_job j => (with_jobs s (job_unset j (s_jobs s)), Silent)
  | Synchronize ref =>
      match s_exit s, s_jobs s with
      | None, j :: js => if bool_decide (j = ref) then (s, Value true) else (with_jobs s js, Called (Job j))
      | _, _ => (s, Value false)
      end
  | Quit code => (with_exit s code, Silent)
  end.

Definition is_call (e : event) : Prop :=
  match e with Tick _ | Run | Return | Epoll _ => False | _ => True end.

(** Some timer's time has come. *)
Definition some_due (s : spec) : Prop := ∃ p t, s_armed s !! p = Some t ∧ t ≤ s_clock s.

(** It waits until the first timer expires, at most for the greatest [int], and forever only if no timer is set. *)
Definition waits (s : spec) (ms : Z) : Prop :=
  (s_armed s = ∅ ∧ ms = -1) ∨
  ∃ p t, s_armed s !! p = Some t ∧ (∀ q t', s_armed s !! q = Some t' → t ≤ t') ∧ s_clock s < t ∧
    ms = Z.min (t - s_clock s) INT_MAX.

Definition idle (s : spec) : Prop := s_exit s = None ∧ s_jobs s = [].

Definition reset (s : spec) : spec := with_limits s ((λ l, mklimit (limit l) 0) <$> s_limits s).

Definition report_of (rs : list epoll_event) : gmap ptr Z := list_to_map (omap (λ e, (λ p, (p, events e)) <$> data e) rs).

Inductive spec_step (s : spec) : event → output → spec → Prop :=
| Spec_tick z : s_clock s ≤ z → spec_step s (Tick z) Silent (with_clock s z)
| Spec_return : spec_step s Return Silent s
| Spec_call e : is_call e → spec_step s e (spec_call s e).2 (spec_call s e).1
| Spec_exit code : s_exit s = Some code → spec_step s Run (Called (Exit code)) s
| Spec_job j js : s_exit s = None → s_jobs s = j :: js → spec_step s Run (Called (Job j)) (with_jobs s js)
| Spec_timer p t :
    idle s → s_armed s !! p = Some t → t ≤ s_clock s →
    (∀ q t', s_armed s !! q = Some t' → q ∉ s_fresh s → q ≠ p → t < t' ∨ (t = t' ∧ p < q)) →
    spec_step s Run (Called (Timer p)) (with_timers s (delete p (s_armed s)) (s_fresh s))
| Spec_fd p m evs :
    idle s → s_watched s !! p = Some m → s_reported s !! p = Some evs → report m evs ≠ 0 →
    spec_step s Run (Called (Descriptor p (report m evs))) (with_fds s (s_watched s) (delete p (s_reported s)))
| Spec_unwatched p m evs :
    idle s → s_watched s !! p = Some m → s_reported s !! p = Some evs → report m evs = 0 →
    spec_step s Run (Called Nothing) (with_fds s (s_watched s) (delete p (s_reported s)))
| Spec_removed : idle s → spec_step s Run (Called Nothing) s
| Spec_due : idle s → s_reported s = ∅ → some_due s → spec_step s Run Silent (with_timers s (s_armed s) ∅)
| Spec_wait ms : idle s → s_reported s = ∅ → waits s ms → spec_step s Run (Wait_for ms) (with_timers s (s_armed s) ∅)
| Spec_again r ms : r = Interrupted ∨ r = Returned [] → waits s ms → spec_step s (Epoll r) (Wait_for ms) s
| Spec_expired r : r = Interrupted ∨ r = Returned [] → some_due s → spec_step s (Epoll r) Silent (reset s)
| Spec_reported rs :
    rs ≠ [] → spec_step s (Epoll (Returned rs)) Silent (with_fds (reset s) (s_watched s) (report_of rs)).

Inductive spec_run : spec → list event → list output → spec → Prop :=
| Spec_nil s : spec_run s [] [] s
| Spec_cons s e out s1 es outs s2 : spec_step s e out s1 → spec_run s1 es outs s2 → spec_run s (e :: es) (out :: outs) s2.

End ReactorWorld.

(** ** The loop implements its contract *)

Module ReactorFacts.
Import BTime BReactor ReactorWorld Tree TreeFacts.

Lemma btime_add_saturates a b : is_btime a → is_btime b → btime_add a b = Z.max INT64_MIN (Z.min INT64_MAX (a + b)).
Proof.
  unfold is_btime, btime_add, add_int64_overflows, INT64_MIN, INT64_MAX. intros Ha Hb.
  destruct (Z.ltb_spec a 0), (Z.ltb_spec b 0); simpl; try lia.
  - destruct (Z.ltb_spec a (- 2 ^ 63 - b)); simpl; lia.
  - destruct (Z.ltb_spec (2 ^ 63 - 1 - b) a); simpl; lia.
Qed.

(** *** Timers *)

Definition tlt (m : gmap ptr BSmallTimer) (p q : ptr) : Prop :=
  time_of m p < time_of m q ∨ (time_of m p = time_of m q ∧ p < q).

Lemma compare_timers_lt m p q : compare_timers m p q < 0 ↔ tlt m p q.
Proof.
  unfold compare_timers, B_COMPARE, tlt.
  destruct (Z.ltb_spec (time_of m q) (time_of m p)), (Z.ltb_spec (time_of m p) (time_of m q)); simpl; try lia.
  destruct (Z.ltb_spec q p), (Z.ltb_spec p q); simpl; lia.
Qed.

Lemma compare_timers_gt m p q : 0 < compare_timers m p q ↔ tlt m q p.
Proof.
  unfold compare_timers, B_COMPARE, tlt.
  destruct (Z.ltb_spec (time_of m q) (time_of m p)), (Z.ltb_spec (time_of m p) (time_of m q)); simpl; try lia.
  destruct (Z.ltb_spec q p), (Z.ltb_spec p q); simpl; lia.
Qed.

Lemma compare_timers_ne m p q : p ≠ q → compare_timers m p q ≠ 0.
Proof.
  unfold compare_timers, B_COMPARE.
  destruct (Z.ltb_spec (time_of m q) (time_of m p)), (Z.ltb_spec (time_of m p) (time_of m q)); simpl; try lia.
  destruct (Z.ltb_spec q p), (Z.ltb_spec p q); simpl; lia.
Qed.

Lemma tlt_trans m p q r : tlt m p q → tlt m q r → tlt m p r.
Proof. unfold tlt. lia. Qed.

Lemma tlt_irrefl m p : ¬ tlt m p p.
Proof. unfold tlt. lia. Qed.

Lemma sorted_nodup m l : sorted (tlt m) l → NoDup l.
Proof.
  induction l as [|p l IH]; [constructor|]. intros [Hp Hs]. constructor; [|by apply IH].
  rewrite Forall_forall in Hp. intros Hin. by apply (tlt_irrefl m p), Hp.
Qed.

Lemma sorted_put m l p t : p ∉ l → sorted (tlt m) l → sorted (tlt (<[p := t]> m)) l.
Proof.
  intros Hp. apply sorted_ext. intros x y Hx Hy. unfold tlt, time_of. rewrite !lookup_insert_ne by set_solver. done.
Qed.

(** The timers' states are where they are. *)
Record timers_ok (m : gmap ptr BSmallTimer) (tree expired : list ptr) : Prop := {
  t_tree_sorted : sorted (tlt m) tree;
  t_expired_sorted : sorted (tlt m) expired;
  t_tree : ∀ p, p ∈ tree ↔ state <$> m !! p = Some TIMER_STATE_RUNNING;
  t_expired : ∀ p, p ∈ expired ↔ state <$> m !! p = Some TIMER_STATE_EXPIRED;
}.

Definition armed (m : gmap ptr BSmallTimer) : gmap ptr Z :=
  omap (λ t, if bool_decide (state t = TIMER_STATE_INACTIVE) then None else Some (absTime t)) m.

Lemma armed_lookup m p :
  armed m !! p = t ← m !! p; if bool_decide (state t = TIMER_STATE_INACTIVE) then None else Some (absTime t).
Proof. unfold armed. by rewrite lookup_omap. Qed.

Lemma armed_time m p t : armed m !! p = Some t → time_of m p = t.
Proof.
  rewrite armed_lookup. unfold time_of. destruct (m !! p) as [u|]; simpl; [|done]. case_bool_decide; [done|]. by intros [= ->].
Qed.

Lemma armed_in m tree expired p : timers_ok m tree expired → is_Some (armed m !! p) ↔ p ∈ tree ∨ p ∈ expired.
Proof.
  intros H. rewrite (t_tree _ _ _ H), (t_expired _ _ _ H), armed_lookup. destruct (m !! p) as [[t []]|]; simpl; split.
  all: try (intros [? ?]; done); try (intros [?|?]; done); eauto.
Qed.

Lemma armed_of_in m tree expired p : timers_ok m tree expired → p ∈ tree ∨ p ∈ expired → armed m !! p = Some (time_of m p).
Proof. intros H Hp. apply (armed_in _ _ _ _ H) in Hp as [t Ht]. by rewrite (armed_time _ _ _ Ht). Qed.

Lemma armed_put m p t : armed (<[p := t]> m) =
  if bool_decide (state t = TIMER_STATE_INACTIVE) then delete p (armed m) else <[p := absTime t]> (armed m).
Proof.
  unfold armed. case_bool_decide as H.
  - apply omap_insert_None. by rewrite bool_decide_eq_true_2.
  - apply omap_insert_Some. by rewrite bool_decide_eq_false_2.
Qed.

Lemma time_put_same m p t q : time_of (<[p := t]> m) q = if bool_decide (q = p) then absTime t else time_of m q.
Proof. unfold time_of. case_bool_decide as E; [subst; by rewrite lookup_insert_eq|by rewrite lookup_insert_ne]. Qed.

(** Setting the state only. *)
Lemma time_put_state m p t s q : m !! p = Some t → time_of (<[p := timer (absTime t) s]> m) q = time_of m q.
Proof. intros Hp. rewrite time_put_same. case_bool_decide as E; [subst; unfold time_of; by rewrite Hp|done]. Qed.

Lemma sorted_times m m' l : (∀ q, time_of m' q = time_of m q) → sorted (tlt m) l → sorted (tlt m') l.
Proof. intros H. apply sorted_ext. intros x y _ _. unfold tlt. by rewrite !H. Qed.

Lemma sorted_unset m p l : sorted (tlt m) l → sorted (tlt m) (job_unset p l).
Proof.
  induction l as [|q l IH]; [done|]. intros [Hq Hs]. unfold job_unset. rewrite filter_cons. specialize (IH Hs).
  destruct (decide (q ≠ p)); [|done]. split; [|done]. rewrite Forall_forall in Hq |- *. intros x Hx.
  apply Hq. by apply elem_of_job_unset in Hx as [_ ?].
Qed.

Lemma remove_tree m l p : sorted (tlt m) l → sorted (tlt m) (Tree.Remove l p) ∧ ∀ y, y ∈ Tree.Remove l p ↔ y ≠ p ∧ y ∈ l.
Proof. exact (Remove_sorted (compare_timers m) (tlt m) (compare_timers_lt m) (compare_timers_gt m) (tlt_trans m) l p). Qed.

(** Timers after a call about [p]. *)
Record stopped (m : gmap ptr BSmallTimer) (tree expired : list ptr) (p : ptr) (m' : gmap ptr BSmallTimer)
    (tree' expired' : list ptr) : Prop := {
  st_ok : timers_ok m' tree' expired';
  st_armed : armed m' = delete p (armed m);
  st_p : state <$> m' !! p = Some TIMER_STATE_INACTIVE;
  st_others : ∀ q, q ≠ p → m' !! q = m !! q;
  st_tree : ∀ q, q ∈ tree' ↔ q ≠ p ∧ q ∈ tree;
  st_expired : ∀ q, q ∈ expired' ↔ q ≠ p ∧ q ∈ expired;
}.

Lemma remove_timer_spec o p t : timers_ok (timers o) (timers_tree o) (timers_expired_list o) → timers o !! p = Some t →
  ∃ m' tree' expired', BReactor_RemoveSmallTimer o p = Ok (set_timers o m' tree' expired') ∧
    stopped (timers o) (timers_tree o) (timers_expired_list o) p m' tree' expired'.
Proof.
  intros Hok Hp. pose proof Hok as [Hts Hes Ht He]. unfold BReactor_RemoveSmallTimer, get_timer. rewrite Hp. cbn [or_fault mbind result_bind].
  pose proof (He p) as Hep. pose proof (Ht p) as Htp. rewrite Hp in Hep, Htp. simpl in Hep, Htp.
  set (m' := <[p := timer (absTime t) TIMER_STATE_INACTIVE]> (timers o)).
  assert (Hm' : ∀ q s, state <$> m' !! q = Some s ↔ (q ≠ p ∧ state <$> timers o !! q = Some s) ∨ (q = p ∧ s = TIMER_STATE_INACTIVE)).
  { intros q s. unfold m'. destruct (decide (q = p)) as [->|Hq]; [rewrite lookup_insert_eq; simpl; naive_solver|].
    rewrite lookup_insert_ne by done. naive_solver. }
  assert (Htime : ∀ q, time_of m' q = time_of (timers o) q) by (intros q; by apply time_put_state).
  assert (Harm : armed m' = delete p (armed (timers o))) by (unfold m'; by rewrite armed_put).
  assert (Hst : state <$> m' !! p = Some TIMER_STATE_INACTIVE) by (unfold m'; by rewrite lookup_insert_eq).
  assert (Hoth : ∀ q, q ≠ p → m' !! q = timers o !! q) by (intros q Hq; unfold m'; by rewrite lookup_insert_ne).
  destruct (state t) eqn:Hs.
  - exists (timers o), (timers_tree o), (timers_expired_list o). split; [by destruct o|].
    assert (p ∉ timers_tree o) by (rewrite Htp; done). assert (p ∉ timers_expired_list o) by (rewrite Hep; done).
    split; [done| |by rewrite Hp; simpl; rewrite Hs|done|set_solver|set_solver].
    symmetry. apply delete_id. rewrite armed_lookup, Hp. simpl. by rewrite Hs, bool_decide_eq_true_2.
  - destruct (remove_tree _ _ p Hts) as [Hs' Hr']. eexists m', _, _. split; [done|].
    assert (p ∉ timers_expired_list o) by (rewrite Hep; done).
    split; [|done|done|done|done|set_solver].
    split; [by eapply sorted_times|by eapply sorted_times| |]; intros q.
    + rewrite Hr', Hm', Ht. naive_solver.
    + rewrite Hm', He. destruct (decide (q = p)) as [->|]; [|naive_solver]. rewrite Hp. simpl. naive_solver congruence.
  - eexists m', _, (job_unset p (timers_expired_list o)). split; [done|].
    assert (p ∉ timers_tree o) by (rewrite Htp; done).
    split; [|done|done|done|set_solver|intros q; apply elem_of_job_unset].
    split; [by eapply sorted_times|by eapply sorted_times, sorted_unset| |]; intros q.
    + rewrite Hm', Ht. destruct (decide (q = p)) as [->|]; [|naive_solver]. rewrite Hp. simpl. naive_solver congruence.
    + rewrite elem_of_job_unset, Hm', He. naive_solver.
Qed.

Lemma set_timer_spec o p t mode time now : timers_ok (timers o) (timers_tree o) (timers_expired_list o) →
  timers o !! p = Some t → (mode =? BTIMER_SET_ABSOLUTE) || (mode =? BTIMER_SET_RELATIVE) = true →
  ∃ m' tree' expired', BReactor_SetSmallTimer o p mode time now = Ok (set_timers o m' tree' expired') ∧
    timers_ok m' tree' expired' ∧
    armed m' = <[p := if mode =? BTIMER_SET_RELATIVE then btime_add now time else time]> (armed (timers o)) ∧
    (∀ q, q ≠ p → m' !! q = timers o !! q) ∧ (∀ q, q ∈ tree' ↔ q = p ∨ q ∈ timers_tree o) ∧
    (∀ q, q ∈ expired' ↔ q ≠ p ∧ q ∈ timers_expired_list o).
Proof.
  intros Hok Hp Hmode. unfold BReactor_SetSmallTimer. rewrite c_assert_true by done.
  destruct (remove_timer_spec o p t Hok Hp) as (m1 & tree1 & exp1 & -> & [[Hts Hes Ht He] Harm Hst Hoth Htr Hex]). rewrite ok_bind.
  set (time' := if mode =? BTIMER_SET_RELATIVE then _ else _).
  cbn [put_timer set_timers timers timers_tree timers_expired_list].
  set (m2 := <[p := timer time' TIMER_STATE_RUNNING]> m1).
  assert (Hpt : p ∉ tree1) by (rewrite Htr; naive_solver). assert (Hpe : p ∉ exp1) by (rewrite Hex; naive_solver).
  destruct (Insert_ok (compare_timers m2) (tlt m2) (compare_timers_lt m2) (compare_timers_gt m2) (tlt_trans m2) tree1 p)
    as (tree2 & Hins & Hs2 & Hperm); [by apply sorted_put| |].
  { intros y Hy. apply compare_timers_ne. by intros ->. }
  unfold set_timers. cbn. rewrite Hins.
  exists m2, tree2, exp1. split; [done|].
  assert (Hm2 : ∀ q s, state <$> m2 !! q = Some s ↔ (q ≠ p ∧ state <$> m1 !! q = Some s) ∨ (q = p ∧ s = TIMER_STATE_RUNNING)).
  { intros q s. unfold m2. destruct (decide (q = p)) as [->|Hq]; [rewrite lookup_insert_eq; simpl; naive_solver|].
    rewrite lookup_insert_ne by done. naive_solver. }
  split; [split; [done|by apply sorted_put|intros q|intros q]|].
  - rewrite Hperm, elem_of_cons, Hm2, <- Ht. destruct (decide (q = p)) as [->|]; naive_solver.
  - rewrite Hm2, <- He. destruct (decide (q = p)) as [->|]; naive_solver.
  - split_and!.
    + unfold m2. rewrite armed_put. simpl. by rewrite Harm, insert_delete_eq.
    + intros q Hq. unfold m2. rewrite lookup_insert_ne by done. by apply Hoth.
    + intros q. rewrite Hperm, elem_of_cons, Htr. destruct (decide (q = p)); naive_solver.
    + done.
Qed.

(** *** Expiring *)

Lemma expire_spec o p tree : timers_ok (timers o) (timers_tree o) (timers_expired_list o) →
  timers_tree o = p :: tree → sorted (tlt (timers o)) (timers_expired_list o ++ timers_tree o) →
  ∃ m', expire o p = Ok (set_timers o m' tree (timers_expired_list o ++ [p])) ∧
    timers_ok m' tree (timers_expired_list o ++ [p]) ∧ armed m' = armed (timers o) ∧
    (∀ q, time_of m' q = time_of (timers o) q).
Proof.
  intros [Hts Hes Ht He] Etree Hs. pose proof (proj1 (Ht p) ltac:(rewrite Etree; by left)) as Hp.
  destruct (timers o !! p) as [t|] eqn:Hpt; [|done]. injection Hp as Hst. unfold expire, get_timer. rewrite Hpt. cbn [or_fault mbind result_bind].
  set (m' := <[p := timer (absTime t) TIMER_STATE_EXPIRED]> (timers o)).
  assert (Htime : ∀ q, time_of m' q = time_of (timers o) q) by (intros q; by apply time_put_state).
  exists m'. rewrite Etree in *. cbn [Tree.Remove]. rewrite bool_decide_eq_true_2 by done. split; [done|].
  rewrite cons_middle, app_assoc in Hs. apply sorted_app in Hs as (Hs1 & Hs2 & _).
  pose proof (sorted_nodup _ _ Hts) as Hnd. apply NoDup_cons in Hnd as [Hnp _].
  assert (Hm' : ∀ q s, state <$> m' !! q = Some s ↔ (q ≠ p ∧ state <$> timers o !! q = Some s) ∨ (q = p ∧ s = TIMER_STATE_EXPIRED)).
  { intros q s. unfold m'. destruct (decide (q = p)) as [->|Hq]; [rewrite lookup_insert_eq; simpl; naive_solver|].
    rewrite lookup_insert_ne by done. naive_solver. }
  split; [split|split].
  - by eapply sorted_times.
  - by eapply sorted_times.
  - intros q. rewrite Hm', <- Ht, elem_of_cons. destruct (decide (q = p)) as [->|]; naive_solver.
  - intros q. rewrite Hm', <- He, elem_of_app, list_elem_of_singleton. destruct (decide (q = p)) as [->|]; naive_solver.
  - unfold m'. rewrite armed_put. simpl. apply insert_id. rewrite armed_lookup, Hpt. simpl. by rewrite Hst.
  - done.
Qed.

(** What the loops that expire timers do to [o]: the timers up to [time] move from the front of the tree. *)
Record expired_until (o : BReactor) (time : Z) (m' : gmap ptr BSmallTimer) (tree' moved : list ptr) : Prop := {
  e_ok : timers_ok m' tree' (timers_expired_list o ++ moved);
  e_armed : armed m' = armed (timers o);
  e_times : ∀ q, time_of m' q = time_of (timers o) q;
  e_list : timers_tree o = moved ++ tree';
  e_due : ∀ p, p ∈ moved → time_of (timers o) p ≤ time;
  e_rest : ∀ p, p ∈ tree' → time < time_of (timers o) p;
}.

Lemma expire_until_spec time check : ∀ fuel o b,
  timers_ok (timers o) (timers_tree o) (timers_expired_list o) →
  sorted (tlt (timers o)) (timers_expired_list o ++ timers_tree o) →
  (∀ p, p ∈ timers_tree o → check (time_of (timers o) p) = true) → (length (timers_tree o) < fuel)%nat →
  ∃ m' tree' moved, expire_until fuel o time check b =
      Ok (set_timers o m' tree' (timers_expired_list o ++ moved), b || bool_decide (moved ≠ [])) ∧
    expired_until o time m' tree' moved.
Proof.
  induction fuel as [|fuel IH]; intros o b Hok Hs Hcheck Hfuel; [lia|]. cbn [expire_until].
  assert (Hself : ∀ b, Ok (o, b) = Ok (set_timers o (timers o) (timers_tree o) (timers_expired_list o ++ []), b || bool_decide (@nil ptr ≠ []))).
  { intros b'. rewrite app_nil_r, bool_decide_eq_false_2, orb_false_r by naive_solver. by destruct o. }
  destruct (timers_tree o) as [|p tree] eqn:Etree.
  { exists (timers o), [], []. split; [exact (Hself b)|]. split; try done; try set_solver. by rewrite app_nil_r. }
  cbn [Tree.GetFirst head]. pose proof (proj1 (t_tree _ _ _ Hok p) ltac:(by left)) as Hst.
  destruct (timers o !! p) as [t|] eqn:Hpt; [|done]. injection Hst as Hst. unfold get_timer. rewrite Hpt. cbn [or_fault mbind result_bind].
  assert (Htp : time_of (timers o) p = absTime t) by (unfold time_of; by rewrite Hpt).
  rewrite c_assert_true by by apply bool_decide_eq_true. rewrite c_assert_true by (rewrite <- Htp; apply Hcheck; by left).
  destruct (Z.ltb_spec time (absTime t)) as [Hlt|Hge].
  - exists (timers o), (p :: tree), []. split; [exact (Hself b)|]. split; try done.
    + by rewrite app_nil_r.
    + set_solver.
    + intros q [->|Hq]%elem_of_cons; [lia|]. pose proof (t_tree_sorted _ _ _ Hok) as [Hall _]. rewrite Forall_forall in Hall.
      destruct (Hall q Hq); lia.
  - rewrite <- Etree in Hok, Hs. destruct (expire_spec o p tree Hok Etree Hs) as (m1 & -> & Hok1 & Harm1 & Htime1). rewrite ok_bind.
    set (o1 := set_timers o m1 tree (timers_expired_list o ++ [p])).
    destruct (IH o1 true) as (m' & tree' & moved & Hrun & [H1 H2 H3 H4 H5 H6]).
    + exact Hok1.
    + simpl. rewrite <- app_assoc. simpl. rewrite <- Etree. by eapply sorted_times.
    + simpl. intros q Hq. rewrite Htime1. apply Hcheck. by right.
    + simpl in *. lia.
    + exists m', tree', (p :: moved). simpl in *. rewrite <- app_assoc in Hrun, H1. split; [by rewrite Hrun, orb_true_r|].
      split; try done; [congruence|by intros q; rewrite H3|by rewrite Etree, H4| |].
      * intros q [->|Hq]%elem_of_cons; [lia|]. rewrite <- Htime1. by apply H5.
      * intros q Hq. rewrite <- Htime1. by apply H6.
Qed.

Lemma move_first_spec o p tree : timers_ok (timers o) (timers_tree o) (timers_expired_list o) →
  timers_tree o = p :: tree → timers_expired_list o = [] →
  ∃ m' tree' moved, move_first_timers o = Ok (set_timers o m' tree' moved) ∧
    expired_until o (time_of (timers o) p) m' tree' moved ∧ p ∈ moved.
Proof.
  intros Hok Etree Hexp. pose proof (t_tree_sorted _ _ _ Hok) as Hs.
  destruct (expire_spec o p tree Hok Etree) as (m1 & Hrun1 & Hok1 & Harm1 & Htime1); [by rewrite Hexp|].
  unfold move_first_timers. rewrite Etree. cbn [Tree.GetFirst head].
  pose proof (proj1 (t_tree _ _ _ Hok p) ltac:(rewrite Etree; by left)) as Hst.
  destruct (timers o !! p) as [t|] eqn:Hpt; [|done]. injection Hst as Hst. unfold get_timer. rewrite Hpt. cbn [or_fault mbind result_bind].
  rewrite c_assert_true by by apply bool_decide_eq_true. rewrite Hrun1, ok_bind.
  assert (Htp : time_of (timers o) p = absTime t) by (unfold time_of; by rewrite Hpt).
  set (o1 := set_timers o m1 tree (timers_expired_list o ++ [p])).
  destruct (expire_until_spec (absTime t) (λ time, absTime t <=? time) (enough o1) o1 false)
    as (m' & tree' & moved & Hrun & [H1 H2 H3 H4 H5 H6]).
  - exact Hok1.
  - assert (E : timers_expired_list o1 ++ timers_tree o1 = timers_tree o) by (simpl; by rewrite Hexp, Etree).
    rewrite E. by eapply sorted_times.
  - simpl. intros q Hq. rewrite Htime1, <- Htp. apply Z.leb_le. rewrite Etree in Hs. destruct Hs as [Hall _].
    rewrite Forall_forall in Hall. destruct (Hall q Hq); lia.
  - unfold enough. lia.
  - exists m', tree', (p :: moved). simpl in *. rewrite Hexp in *. simpl in *. split; [by rewrite Hrun|]. split; [|by left].
    split; try done; [by rewrite Hexp|congruence|by intros q; rewrite H3|by rewrite Etree, H4| |].
    + intros q [->|Hq]%elem_of_cons; [lia|]. rewrite Htp, <- Htime1. by apply H5.
    + intros q Hq. rewrite Htp, <- Htime1. by apply H6.
Qed.

Lemma armed_first m p tree : timers_ok m (p :: tree) [] → ∀ q t', armed m !! q = Some t' → time_of m p ≤ t'.
Proof.
  intros Hok q t' Hq. pose proof (armed_time _ _ _ Hq) as <-. destruct (proj1 (armed_in _ _ _ q Hok)) as [Hin|Hin]; [by eexists| |set_solver].
  pose proof (t_tree_sorted _ _ _ Hok) as [Hall _]. rewrite Forall_forall in Hall.
  apply elem_of_cons in Hin as [->|Hin]; [lia|]. destruct (Hall q Hin); lia.
Qed.

(** *** File descriptors *)

(** The pointers between descriptors and the entries that are not handled yet. *)
Record fds_ok (m : gmap ptr BFileDescriptor) (rs : list epoll_event) (num pos : nat) : Prop := {
  f_range : (pos ≤ num ≤ length rs)%nat;
  f_ptr p b i : m !! p = Some b → active b = true → epoll_returned_ptr b = Some i →
    (pos ≤ i < num)%nat ∧ data <$> rs !! i = Some (Some p);
  f_res i p : (pos ≤ i < num)%nat → data <$> rs !! i = Some (Some p) →
    ∃ b, m !! p = Some b ∧ active b = true ∧ epoll_returned_ptr b = Some i;
}.

Definition watched (m : gmap ptr BFileDescriptor) : gmap ptr Z :=
  omap (λ b, if active b then Some (waitEvents b) else None) m.

(** What was reported for a descriptor and is not handled yet. *)
Definition pending_events (rs : list epoll_event) (b : BFileDescriptor) : option Z :=
  if active b then i ← epoll_returned_ptr b; events <$> rs !! i else None.
Definition reported (m : gmap ptr BFileDescriptor) (rs : list epoll_event) : gmap ptr Z := omap (pending_events rs) m.

(** The kernel has the active descriptors, with the events that they wait for. *)
Record kernel_inv (m : gmap ptr BFileDescriptor) (k : gmap Z (ptr * Z)) : Prop := {
  k_active p b : m !! p = Some b → active b = true → k !! fd b = Some (p, to_epoll (waitEvents b));
  k_registered n p evs : k !! n = Some (p, evs) → ∃ b, m !! p = Some b ∧ active b = true ∧ fd b = n;
}.

Lemma pending_events_same rs rs' b : (∀ i, events <$> rs !! i = events <$> rs' !! i) → pending_events rs b = pending_events rs' b.
Proof. intros H. unfold pending_events. destruct (active b); [|done]. destruct (epoll_returned_ptr b); simpl; [apply H|done]. Qed.

Lemma omap_same {A B} (f g : A → option B) (m : gmap ptr A) : (∀ p a, m !! p = Some a → f a = g a) → omap f m = omap g m.
Proof. intros H. apply map_eq. intros p. rewrite !lookup_omap. destruct (m !! p) as [a|] eqn:E; [|done]. simpl. by eapply H. Qed.

Lemma watched_put m p b :
  watched (<[p := b]> m) = if active b then <[p := waitEvents b]> (watched m) else delete p (watched m).
Proof.
  unfold watched. destruct (active b) eqn:H; [apply omap_insert_Some|apply omap_insert_None]; by rewrite H.
Qed.

Lemma reported_put m rs p b :
  reported (<[p := b]> m) rs =
  match pending_events rs b with Some e => <[p := e]> (reported m rs) | None => delete p (reported m rs) end.
Proof. unfold reported. destruct (pending_events rs b) eqn:H; [by apply omap_insert_Some|by apply omap_insert_None]. Qed.

Lemma watched_lookup m p b : m !! p = Some b → watched m !! p = if active b then Some (waitEvents b) else None.
Proof. intros H. unfold watched. by rewrite lookup_omap, H. Qed.

Lemma reported_lookup m rs p b : m !! p = Some b → reported m rs !! p = pending_events rs b.
Proof. intros H. unfold reported. by rewrite lookup_omap, H. Qed.

Lemma delete_absent {A} (m : gmap ptr A) p : m !! p = None → delete p m = m.
Proof. apply delete_id. Qed.

(** A descriptor that is not active has no influence. *)
Lemma fds_put_inactive m rs num pos k p b :
  fds_ok m rs num pos → kernel_inv m k → active b = false → (∀ b', m !! p = Some b' → active b' = false) →
  fds_ok (<[p := b]> m) rs num pos ∧ kernel_inv (<[p := b]> m) k ∧
  watched (<[p := b]> m) = watched m ∧ reported (<[p := b]> m) rs = reported m rs.
Proof.
  intros [Hr Hp Hs] [Hka Hkr] Hb Hold. split_and!; [split|split| |].
  - done.
  - intros q b' i. destruct (decide (q = p)) as [->|]; [rewrite lookup_insert_eq; congruence|rewrite lookup_insert_ne by done; apply Hp].
  - intros i q Hi Hd. destruct (Hs i q Hi Hd) as (b' & Hq & Ha & He). exists b'.
    rewrite lookup_insert_ne; [done|]. intros ->. apply Hold in Hq. congruence.
  - intros q b'. destruct (decide (q = p)) as [->|]; [rewrite lookup_insert_eq; congruence|rewrite lookup_insert_ne by done; apply Hka].
  - intros n q evs H. destruct (Hkr n q evs H) as (b' & Hq & Ha & He). exists b'.
    rewrite lookup_insert_ne; [done|]. intros ->. apply Hold in Hq. congruence.
  - rewrite watched_put, Hb. apply delete_id. unfold watched. rewrite lookup_omap. destruct (m !! p) as [b'|] eqn:E; [|done].
    simpl. by rewrite (Hold b' eq_refl).
  - rewrite reported_put. unfold pending_events at 1. rewrite Hb. apply delete_id. unfold reported. rewrite lookup_omap.
    destruct (m !! p) as [b'|] eqn:E; [|done]. simpl. unfold pending_events. by rewrite (Hold b' eq_refl).
Qed.

Lemma fds_delete_inactive m rs num pos k p :
  fds_ok m rs num pos → kernel_inv m k → (∀ b', m !! p = Some b' → active b' = false) →
  fds_ok (delete p m) rs num pos ∧ kernel_inv (delete p m) k ∧
  watched (delete p m) = watched m ∧ reported (delete p m) rs = reported m rs.
Proof.
  intros [Hr Hp Hs] [Hka Hkr] Hold. split_and!; [split|split| |].
  - done.
  - intros q b' i. destruct (decide (q = p)) as [->|]; [by rewrite lookup_delete_eq|rewrite lookup_delete_ne by done; apply Hp].
  - intros i q Hi Hd. destruct (Hs i q Hi Hd) as (b' & Hq & Ha & He). exists b'.
    rewrite lookup_delete_ne; [done|]. intros ->. apply Hold in Hq. congruence.
  - intros q b'. destruct (decide (q = p)) as [->|]; [by rewrite lookup_delete_eq|rewrite lookup_delete_ne by done; apply Hka].
  - intros n q evs H. destruct (Hkr n q evs H) as (b' & Hq & Ha & He). exists b'.
    rewrite lookup_delete_ne; [done|]. intros ->. apply Hold in Hq. congruence.
  - unfold watched. rewrite omap_delete. apply delete_id. rewrite lookup_omap. destruct (m !! p) as [b'|] eqn:E; [|done].
    simpl. by rewrite (Hold b' eq_refl).
  - unfold reported. rewrite omap_delete. apply delete_id. rewrite lookup_omap.
    destruct (m !! p) as [b'|] eqn:E; [|done]. simpl. unfold pending_events. by rewrite (Hold b' eq_refl).
Qed.

(** Two active descriptors have different numbers. *)
Lemma fd_distinct m k p q b b' : kernel_inv m k → m !! p = Some b → active b = true → m !! q = Some b' → active b' = true →
  p ≠ q → fd b ≠ fd b'.
Proof.
  intros [Hka _] Hp Ha Hq Ha' Hne E. pose proof (Hka _ _ Hp Ha) as H1. rewrite E, (Hka _ _ Hq Ha') in H1. congruence.
Qed.

(** An active descriptor with other events to wait for, or handled. *)
Lemma fds_put_active m rs num pos p b evs ret :
  fds_ok m rs num pos → m !! p = Some b → active b = true → ret = epoll_returned_ptr b →
  fds_ok (<[p := bfd (fd b) true evs ret]> m) rs num pos.
Proof.
  intros [Hr Hp Hs] Hpb Ha ->. split; [done| |].
  - intros q b' i. destruct (decide (q = p)) as [->|]; [|rewrite lookup_insert_ne by done; apply Hp].
    rewrite lookup_insert_eq. intros [= <-] _ Hi. by eapply Hp.
  - intros i q Hi Hd. destruct (Hs i q Hi Hd) as (b' & Hq & Ha' & He). destruct (decide (q = p)) as [->|].
    + rewrite lookup_insert_eq. eexists. split; [done|]. split; [done|]. simpl. congruence.
    + rewrite lookup_insert_ne by done. eauto.
Qed.

Lemma add_fd_spec m rs num pos k p b :
  fds_ok m rs num pos → kernel_inv m k → m !! p = Some b → active b = false → k !! fd b = None →
  fds_ok (<[p := bfd (fd b) true 0 None]> m) rs num pos ∧
  kernel_inv (<[p := bfd (fd b) true 0 None]> m) (<[fd b := (p, 0)]> k) ∧
  watched (<[p := bfd (fd b) true 0 None]> m) = <[p := 0]> (watched m) ∧
  reported (<[p := bfd (fd b) true 0 None]> m) rs = reported m rs.
Proof.
  intros [Hr Hp Hs] [Hka Hkr] Hpb Ha Hk. split_and!; [split|split| |].
  - done.
  - intros q b' i. destruct (decide (q = p)) as [->|]; [rewrite lookup_insert_eq; by intros [= <-]|rewrite lookup_insert_ne by done; apply Hp].
  - intros i q Hi Hd. destruct (Hs i q Hi Hd) as (b' & Hq & Ha' & He). exists b'. rewrite lookup_insert_ne by congruence. done.
  - intros q b'. destruct (decide (q = p)) as [->|]; [rewrite lookup_insert_eq; intros [= <-] _; by rewrite lookup_insert_eq|].
    rewrite lookup_insert_ne by done. intros Hq Ha'. rewrite lookup_insert_ne; [by apply Hka|].
    intros E. pose proof (Hka q b' Hq Ha') as H. rewrite <- E in H. congruence.
  - intros n q evs. destruct (decide (n = fd b)) as [->|].
    + rewrite lookup_insert_eq. intros [= <- <-]. exists (bfd (fd b) true 0 None). by rewrite lookup_insert_eq.
    + rewrite lookup_insert_ne by done. intros H. destruct (Hkr n q evs H) as (b' & Hq & Ha' & He). exists b'.
      rewrite lookup_insert_ne by congruence. done.
  - by rewrite watched_put.
  - rewrite reported_put. simpl. apply delete_id. rewrite (reported_lookup _ _ _ _ Hpb). unfold pending_events. by rewrite Ha.
Qed.

(** The entry of a descriptor that is removed. *)
Definition cancelled (rs : list epoll_event) (ret : option nat) : list epoll_event :=
  match ret with Some i => alter (λ e, entry None (events e)) i rs | None => rs end.

Lemma cancelled_lookup rs ret j : (∀ i, ret = Some i → is_Some (rs !! i)) →
  cancelled rs ret !! j = (λ e, entry (if bool_decide (ret = Some j) then None else data e) (events e)) <$> rs !! j.
Proof.
  intros Hin. destruct ret as [i|]; simpl.
  - destruct (decide (i = j)) as [->|]; [rewrite list_lookup_alter_eq, bool_decide_eq_true_2; done|].
    rewrite list_lookup_alter_ne, bool_decide_eq_false_2 by congruence. destruct (rs !! j) as [[]|]; done.
  - destruct (rs !! j) as [[]|]; done.
Qed.

Lemma remove_fd_spec m rs num pos k p b :
  fds_ok m rs num pos → kernel_inv m k → m !! p = Some b → active b = true →
  let m' := <[p := bfd (fd b) false (waitEvents b) (epoll_returned_ptr b)]> m in
  let rs' := cancelled rs (epoll_returned_ptr b) in
  fds_ok m' rs' num pos ∧ kernel_inv m' (delete (fd b) k) ∧
  watched m' = delete p (watched m) ∧ reported m' rs' = delete p (reported m rs).
Proof.
  intros Hok Hk Hpb Ha m' rs'. pose proof Hok as [Hr Hp Hs]. pose proof Hk as [Hka Hkr].
  assert (Hin : ∀ i, epoll_returned_ptr b = Some i → is_Some (rs !! i)).
  { intros i Hi. destruct (Hp p b i Hpb Ha Hi) as [_ Hd]. destruct (rs !! i); [by eexists|done]. }
  assert (Hother : ∀ q b' i, q ≠ p → m !! q = Some b' → active b' = true → epoll_returned_ptr b' = Some i → epoll_returned_ptr b ≠ Some i).
  { intros q b' i Hne Hq Ha' Hi Hi'. destruct (Hp q b' i Hq Ha' Hi) as [_ H1]. destruct (Hp p b i Hpb Ha Hi') as [_ H2]. congruence. }
  split_and!; [split|split| |].
  - assert (length rs' = length rs) as -> by (unfold rs', cancelled; case_match; [apply length_alter|done]). done.
  - intros q b' i. unfold m'. destruct (decide (q = p)) as [->|Hne]; [rewrite lookup_insert_eq; by intros [= <-]|].
    rewrite lookup_insert_ne by done. intros Hq Ha' Hi. destruct (Hp q b' i Hq Ha' Hi) as [Hrange Hd]. split; [done|].
    unfold rs'. rewrite cancelled_lookup by done. rewrite bool_decide_eq_false_2 by (by eapply Hother). by destruct (rs !! i).
  - intros i q Hi. unfold rs'. rewrite cancelled_lookup by done. intros Hd.
    assert (Hd' : data <$> rs !! i = Some (Some q) ∧ epoll_returned_ptr b ≠ Some i).
    { destruct (rs !! i); [|done]. simpl in *. case_bool_decide; [done|]. by split. }
    destruct Hd' as [Hd' Hne]. destruct (Hs i q Hi Hd') as (b' & Hq & Ha' & He). exists b'. unfold m'.
    rewrite lookup_insert_ne by (intros ->; congruence). done.
  - intros q b'. unfold m'. destruct (decide (q = p)) as [->|Hne]; [rewrite lookup_insert_eq; by intros [= <-]|].
    rewrite lookup_insert_ne by done. intros Hq Ha'. rewrite lookup_delete_ne; [by apply Hka|].
    eapply fd_distinct; [exact Hk| | | | |]; eauto.
  - intros n q evs H. apply lookup_delete_Some in H as [Hn H]. destruct (Hkr n q evs H) as (b' & Hq & Ha' & He).
    exists b'. unfold m'. rewrite lookup_insert_ne by (intros ->; congruence). done.
  - unfold m'. by rewrite watched_put.
  - unfold m'. rewrite reported_put. simpl. f_equal. apply omap_same. intros q b' Hq. apply pending_events_same. intros i.
    unfold rs'. rewrite cancelled_lookup by done. by destruct (rs !! i).
Qed.

Lemma set_events_spec m rs num pos k p b evs :
  fds_ok m rs num pos → kernel_inv m k → m !! p = Some b → active b = true →
  let m' := <[p := bfd (fd b) (active b) evs (epoll_returned_ptr b)]> m in
  fds_ok m' rs num pos ∧ kernel_inv m' (<[fd b := (p, to_epoll evs)]> k) ∧
  watched m' = <[p := evs]> (watched m) ∧ reported m' rs = reported m rs.
Proof.
  intros Hok Hk Hpb Ha m'. pose proof Hk as [Hka Hkr]. unfold m'. rewrite Ha. split_and!; [by apply fds_put_active|split| |].
  - intros q b'. destruct (decide (q = p)) as [->|Hne]; [rewrite lookup_insert_eq; intros [= <-] _; by rewrite lookup_insert_eq|].
    rewrite lookup_insert_ne by done. intros Hq Ha'. rewrite lookup_insert_ne; [by apply Hka|].
    eapply fd_distinct; [exact Hk| | | | |]; eauto.
  - intros n q evs'. destruct (decide (n = fd b)) as [->|].
    + rewrite lookup_insert_eq. intros [= <- <-]. eexists. by rewrite lookup_insert_eq.
    + rewrite lookup_insert_ne by done. intros H. destruct (Hkr n q evs' H) as (b' & Hq & Ha' & He). exists b'.
      rewrite lookup_insert_ne by congruence. done.
  - by rewrite watched_put.
  - rewrite reported_put. replace (pending_events rs _) with (pending_events rs b) by (unfold pending_events; by rewrite Ha).
    destruct (pending_events rs b) eqn:E; [apply insert_id|apply delete_id]; by rewrite (reported_lookup _ _ _ _ Hpb).
Qed.

(** The next entry is taken. *)
Lemma fds_skip m rs num pos e : fds_ok m rs num pos → (pos < num)%nat → rs !! pos = Some e → data e = None → fds_ok m rs num (S pos).
Proof.
  intros [Hr Hp Hs] Hlt He Hd. split; [lia| |].
  - intros p b i Hpb Ha Hi. destruct (Hp p b i Hpb Ha Hi) as [Hrange Hdi]. split; [|done].
    destruct (decide (i = pos)) as [->|]; [|lia]. rewrite He in Hdi. simpl in Hdi. congruence.
  - intros i p Hi. apply Hs. lia.
Qed.

Lemma fds_take m rs num pos e p :
  fds_ok m rs num pos → (pos < num)%nat → rs !! pos = Some e → data e = Some p →
  ∃ b, m !! p = Some b ∧ active b = true ∧ epoll_returned_ptr b = Some pos ∧
    let m' := <[p := bfd (fd b) (active b) (waitEvents b) None]> m in
    fds_ok m' rs num (S pos) ∧ (∀ k, kernel_inv m k → kernel_inv m' k) ∧
    watched m' = watched m ∧ reported m' rs = delete p (reported m rs) ∧
    watched m !! p = Some (waitEvents b) ∧ reported m rs !! p = Some (events e).
Proof.
  intros Hok Hlt He Hd. pose proof Hok as [Hr Hp Hs]. destruct (Hs pos p) as (b & Hpb & Ha & Hret); [lia|by rewrite He; simpl; rewrite Hd|].
  exists b. do 3 (split; [done|]). intros m'. unfold m'. rewrite Ha. split_and!.
  - split; [lia| |].
    + intros q b' i. destruct (decide (q = p)) as [->|Hne]; [rewrite lookup_insert_eq; by intros [= <-]|].
      rewrite lookup_insert_ne by done. intros Hq Ha' Hi. destruct (Hp q b' i Hq Ha' Hi) as [Hrange Hdi]. split; [|done].
      destruct (decide (i = pos)) as [->|]; [|lia]. rewrite He in Hdi. simpl in Hdi. congruence.
    + intros i q Hi Hdi. destruct (Hs i q) as (b' & Hq & Ha' & Hret'); [lia|done|]. exists b'.
      destruct (decide (q = p)) as [->|Hne]; [|by rewrite lookup_insert_ne].
      rewrite Hpb in Hq. injection Hq as <-. rewrite Hret in Hret'. injection Hret' as ->. lia.
  - intros k [Hka Hkr]. split.
    + intros q b'. destruct (decide (q = p)) as [->|Hne]; [rewrite lookup_insert_eq; intros [= <-] _; exact (Hka p b Hpb Ha)|].
      rewrite lookup_insert_ne by done. apply Hka.
    + intros n q evs H. destruct (Hkr n q evs H) as (b' & Hq & Ha' & Hn). destruct (decide (q = p)) as [->|Hne].
      * rewrite Hpb in Hq. injection Hq as <-. eexists. by rewrite lookup_insert_eq.
      * exists b'. by rewrite lookup_insert_ne.
  - rewrite watched_put. simpl. apply insert_id. by rewrite (watched_lookup _ _ _ Hpb), Ha.
  - by rewrite reported_put.
  - by rewrite (watched_lookup _ _ _ Hpb), Ha.
  - rewrite (reported_lookup _ _ _ _ Hpb). unfold pending_events. rewrite Ha, Hret. simpl. by rewrite He.
Qed.

(** What the kernel returns. *)
Record returned_ok (m : gmap ptr BFileDescriptor) (rs : list epoll_event) : Prop := {
  r_nodup : NoDup (data <$> rs);
  r_active e : e ∈ rs → ∃ p b, data e = Some p ∧ m !! p = Some b ∧ active b = true;
}.

Lemma set_pointers_spec rs rs1 : ∀ rs2 m o,
  rs = rs1 ++ rs2 → NoDup (data <$> rs) → (∀ e, e ∈ rs → ∃ p b, data e = Some p ∧ fds o !! p = Some b ∧ active b = true) →
  m = fds o → fds_ok (fds o) rs (length rs1) 0 →
  ∃ m', set_epoll_fd_pointers rs2 (length rs1) o = Ok (set_fds o m' (epoll_results o)) ∧ fds_ok m' rs (length rs) 0 ∧
    (∀ k, kernel_inv m k → kernel_inv m' k) ∧ watched m' = watched m.
Proof.
  intros rs2. revert rs1. induction rs2 as [|e rs2 IH]; intros rs1 m o Ers Hnd Hact -> Hok; cbn [set_epoll_fd_pointers].
  { rewrite app_nil_r in Ers. subst rs1. exists (fds o). split_and!; [by destruct o|done..]. }
  destruct (Hact e) as (p & b & Hd & Hpb & Ha); [set_solver|]. rewrite Hd. cbn [or_fault mbind result_bind].
  unfold get_fd. rewrite Hpb. cbn [or_fault mbind result_bind]. rewrite c_assert_true by done.
  assert (Hi : rs !! length rs1 = Some e) by (rewrite Ers; by apply list_lookup_middle).
  assert (Hret : epoll_returned_ptr b = None).
  { destruct (epoll_returned_ptr b) as [i|] eqn:Hret; [|done]. exfalso. destruct (f_ptr _ _ _ _ Hok p b i Hpb Ha Hret) as [Hrange Hdi].
    assert (i = length rs1); [|lia]. eapply NoDup_lookup; [exact Hnd| |]; rewrite list_lookup_fmap; [exact Hdi|]. rewrite Hi. simpl. by rewrite Hd. }
  rewrite c_assert_true by by apply bool_decide_eq_true. set (b' := bfd (fd b) (active b) (waitEvents b) (Some (length rs1))).
  destruct (IH (rs1 ++ [e]) (<[p := b']> (fds o)) (put_fd o p b')) as (m' & Hrun & Hok' & Hk' & Hw').
  - by rewrite <- app_assoc.
  - done.
  - intros e' He'. destruct (Hact e' He') as (q & bq & Hdq & Hq & Haq). cbn [put_fd set_fds fds].
    destruct (decide (q = p)) as [->|Hne]; [exists p, b'; by rewrite lookup_insert_eq|].
    exists q, bq. by rewrite lookup_insert_ne.
  - done.
  - cbn [put_fd set_fds fds]. destruct Hok as [Hr Hp Hs]. split.
    + rewrite Ers, !length_app. simpl. lia.
    + intros q bq i. rewrite length_app. simpl. destruct (decide (q = p)) as [->|Hne].
      * rewrite lookup_insert_eq. intros [= <-] _ [= <-]. split; [lia|]. rewrite Hi. simpl. by rewrite Hd.
      * rewrite lookup_insert_ne by done. intros Hq Haq Hiq. destruct (Hp q bq i Hq Haq Hiq). split; [lia|done].
    + intros i q. rewrite length_app. simpl. intros Hrange Hdi. destruct (decide (i = length rs1)) as [->|].
      * rewrite Hi in Hdi. simpl in Hdi. assert (q = p) as -> by congruence. exists b'. by rewrite lookup_insert_eq.
      * destruct (Hs i q) as (bq & Hq & Haq & Hiq); [lia|done|]. exists bq. rewrite lookup_insert_ne; [done|].
        intros <-. congruence.
  - rewrite length_app, Nat.add_1_r in Hrun. exists m'. split; [exact Hrun|]. split; [done|]. split.
    + intros k [Hka Hkr]. apply Hk'. split.
      * intros q b2. destruct (decide (q = p)) as [->|Hne]; [rewrite lookup_insert_eq; intros [= <-] _; exact (Hka p b Hpb Ha)|].
        rewrite lookup_insert_ne by done. apply Hka.
      * intros n q evs H. destruct (Hkr n q evs H) as (b2 & Hq & Ha' & Hn). destruct (decide (q = p)) as [->|Hne].
        -- rewrite Hpb in Hq. injection Hq as <-. exists b'. by rewrite lookup_insert_eq.
        -- exists b2. by rewrite lookup_insert_ne.
    + rewrite Hw', watched_put. simpl. rewrite Ha. apply insert_id. by rewrite (watched_lookup _ _ _ Hpb), Ha.
Qed.

Lemma reported_returned m rs : fds_ok m rs (length rs) 0 → NoDup (data <$> rs) → reported m rs = report_of rs.
Proof.
  intros [Hr Hp Hs] Hnd. apply map_eq. intros p. apply option_eq. intros evs.
  assert (Hnd' : NoDup (omap (λ e, (λ p, (p, events e)) <$> data e) rs).*1).
  { clear -Hnd. induction rs as [|[[p|] evs] rs IH]; simpl in *; [constructor| |]; apply NoDup_cons in Hnd as [H1 H2]; [|by apply IH].
    constructor; [|by apply IH]. intros [[q e] [-> Hq]]%list_elem_of_fmap. apply H1.
    apply list_elem_of_omap in Hq as ([d e'] & Hin & Hq). apply list_elem_of_fmap. exists (entry d e'). simpl in *.
    destruct d; simpl in Hq; [|done]. split; [|done]. by injection Hq as -> _. }
  unfold report_of. rewrite <- elem_of_list_to_map by done. rewrite list_elem_of_omap. unfold reported. rewrite lookup_omap. split.
  - destruct (m !! p) as [b|] eqn:Hpb; [|done]. simpl. unfold pending_events. destruct (active b) eqn:Ha; [|done].
    destruct (epoll_returned_ptr b) as [i|] eqn:Hi; [|done]. simpl. destruct (Hp p b i Hpb Ha Hi) as [_ Hd].
    destruct (rs !! i) as [e|] eqn:He; [|done]. simpl in *. intros [= <-]. exists e. split; [by eapply list_elem_of_lookup_2|].
    by injection Hd as ->.
  - intros (e & He & Hd). apply list_elem_of_lookup in He as [i He]. destruct (data e) as [q|] eqn:Hde; [|done]. injection Hd as -> <-.
    destruct (Hs i p) as (b & Hpb & Ha & Hi); [split; [lia|by eapply lookup_lt_Some]|by rewrite He; simpl; rewrite Hde|].
    rewrite Hpb. simpl. unfold pending_events. rewrite Ha, Hi. simpl. by rewrite He.
Qed.

(** *** Limits *)

Record limits_ok (m : gmap ptr BReactorLimit) (l : list ptr) : Prop := {
  l_nodup : NoDup l;
  l_active p : p ∈ l ↔ ∃ r, m !! p = Some r ∧ 0 < count r;
  l_range p r : m !! p = Some r → 0 ≤ count r ∧ 0 < limit r;
}.

Definition reset_limit (l : BReactorLimit) : BReactorLimit := mklimit (limit l) 0.

Lemma reset_limits_go l : ∀ o, NoDup l → (∀ p, p ∈ l → ∃ r, limits o !! p = Some r ∧ 0 < count r) →
  (∀ p r, limits o !! p = Some r → p ∉ l → count r = 0) →
  reset_limits l o = Ok (set_limits o (reset_limit <$> limits o) []).
Proof.
  induction l as [|p l IH]; intros o Hnd Hact Hrest; cbn [reset_limits].
  - do 2 f_equal. apply map_eq. intros p. rewrite lookup_fmap. destruct (limits o !! p) as [[n c]|] eqn:E; [|done]. simpl.
    f_equal. unfold reset_limit. simpl. f_equal. exact (Hrest p _ E (not_elem_of_nil _)).
  - apply NoDup_cons in Hnd as [Hp Hnd]. destruct (Hact p) as (r & Hr & Hc); [by left|]. unfold get_limit. rewrite Hr.
    cbn [or_fault mbind result_bind]. rewrite c_assert_true by lia. rewrite IH; [|done|..].
    + do 2 f_equal. unfold put_limit. cbn. apply map_eq. intros q. rewrite !lookup_fmap.
      destruct (decide (q = p)) as [->|]; [rewrite lookup_insert_eq, Hr; done|by rewrite lookup_insert_ne].
    + intros q Hq. unfold put_limit. cbn. rewrite lookup_insert_ne by set_solver. apply Hact. by right.
    + intros q r'. unfold put_limit. cbn. destruct (decide (q = p)) as [->|]; [rewrite lookup_insert_eq; by intros [= <-]|].
      rewrite lookup_insert_ne by done. intros Hq Hql. apply (Hrest q r' Hq). set_solver.
Qed.

Lemma reset_limits_spec o : limits_ok (limits o) (active_limits_list o) →
  reset_limits (active_limits_list o) o = Ok (set_limits o (reset_limit <$> limits o) []) ∧
  limits_ok (reset_limit <$> limits o) [].
Proof.
  intros [Hnd Hact Hr]. split.
  - apply reset_limits_go; [done|by intros p ?%Hact|]. intros p r Hp Hn. rewrite Hact in Hn. pose proof (Hr p r Hp).
    destruct (Z.lt_ge_cases 0 (count r)); [by destruct Hn; eauto|lia].
  - split; [constructor|..].
    + intros p. split; [by intros ?%not_elem_of_nil|]. intros (r & Hp & Hc). rewrite lookup_fmap in Hp.
      destruct (limits o !! p); [|done]. injection Hp as <-. simpl in Hc. lia.
    + intros p r Hp. rewrite lookup_fmap in Hp. destruct (limits o !! p) as [r'|] eqn:E; [|done]. injection Hp as <-. simpl.
      pose proof (Hr p r' E). lia.
Qed.

(** A limit that keeps its place in the list of active ones. *)
Lemma limits_put m l p r : limits_ok m l → 0 ≤ count r → 0 < limit r → (0 < count r ↔ p ∈ l) → limits_ok (<[p := r]> m) l.
Proof.
  intros [Hnd Hact Hr] H1 H2 H3. split; [done|..].
  - intros q. destruct (decide (q = p)) as [->|]; [rewrite lookup_insert_eq, <- H3; naive_solver|by rewrite lookup_insert_ne].
  - intros q r'. destruct (decide (q = p)) as [->|]; [rewrite lookup_insert_eq; by intros [= <-]|rewrite lookup_insert_ne by done; apply Hr].
Qed.

Lemma limits_add m l p r : limits_ok m l → 0 < count r → 0 < limit r → p ∉ l → limits_ok (<[p := r]> m) (l ++ [p]).
Proof.
  intros [Hnd Hact Hr] H1 H2 Hp. split.
  - apply NoDup_app. split_and!; [done|set_solver|apply NoDup_singleton].
  - intros q. rewrite elem_of_app, list_elem_of_singleton, Hact.
    destruct (decide (q = p)) as [->|]; [rewrite lookup_insert_eq; naive_solver|rewrite lookup_insert_ne by done; naive_solver].
  - intros q r'. destruct (decide (q = p)) as [->|]; [rewrite lookup_insert_eq; intros [= <-]; lia|rewrite lookup_insert_ne by done; apply Hr].
Qed.

Lemma limits_delete m l p : limits_ok m l → limits_ok (delete p m) (job_unset p l).
Proof.
  intros [Hnd Hact Hr]. split; [by apply NoDup_job_unset|..].
  - intros q. rewrite elem_of_job_unset, Hact. destruct (decide (q = p)) as [->|]; [rewrite lookup_delete_eq; naive_solver|].
    rewrite lookup_delete_ne by done. naive_solver.
  - intros q r'. destruct (decide (q = p)) as [->|]; [by rewrite lookup_delete_eq|rewrite lookup_delete_ne by done; apply Hr].
Qed.

(** *** The state and the contract *)

Definition mode_ok (o : BReactor) (time : Z) (m : mode) : Prop :=
  match m with
  | Waiting wt =>
      exiting o = false ∧ pending_jobs o = [] ∧ timers_expired_list o = [] ∧ epoll_results_num o = 0%nat ∧
      epoll_results_pos o = 0%nat ∧
      match timeout_abs wt with
      | Some t => ∃ p tree, timers_tree o = p :: tree ∧ t = time_of (timers o) p ∧ now wt < t ∧ now wt ≤ time
      | None => timers_tree o = []
      end
  | _ => True
  end.

Record good (w : world) (s : spec) : Prop := {
  g_timers : timers_ok (timers (reactor w)) (timers_tree (reactor w)) (timers_expired_list (reactor w));
  g_fds : fds_ok (fds (reactor w)) (epoll_results (reactor w)) (epoll_results_num (reactor w)) (epoll_results_pos (reactor w));
  g_kernel : kernel_inv (fds (reactor w)) (registered w);
  g_limits : limits_ok (limits (reactor w)) (active_limits_list (reactor w));
  g_mode : mode_ok (reactor w) (clock w) (at_mode w);
  g_order p q : p ∈ timers_expired_list (reactor w) → q ∈ timers_tree (reactor w) → q ∉ s_fresh s →
    tlt (timers (reactor w)) p q;
  g_due p : p ∈ timers_expired_list (reactor w) → time_of (timers (reactor w)) p ≤ clock w;
  g_clock : s_clock s = clock w;
  g_armed : s_armed s = armed (timers (reactor w));
  g_watched : s_watched s = watched (fds (reactor w));
  g_reported : s_reported s = reported (fds (reactor w)) (epoll_results (reactor w));
  g_lims : s_limits s = limits (reactor w);
  g_jobs : s_jobs s = pending_jobs (reactor w);
  g_exit : s_exit s = if exiting (reactor w) then Some (exit_code (reactor w)) else None;
}.

Section calls.
Context (w : world) (s : spec) (Hg : good w s) (Hmode : at_mode w = Program).

Lemma good_timers m tree expired a f :
  timers_ok m tree expired → a = armed m →
  (∀ p q, p ∈ expired → q ∈ tree → q ∉ f → tlt m p q) → (∀ p, p ∈ expired → time_of m p ≤ clock w) →
  good (with_reactor w (set_timers (reactor w) m tree expired)) (with_timers s a f).
Proof. intros H1 H2 H3 H4. destruct Hg. split; simpl; try done; by rewrite Hmode. Qed.

Lemma good_fds m rs k wa re :
  fds_ok m rs (epoll_results_num (reactor w)) (epoll_results_pos (reactor w)) → kernel_inv m k → wa = watched m →
  re = reported m rs →
  good (World (set_fds (reactor w) m rs) (clock w) (at_mode w) k) (with_fds s wa re).
Proof. intros H1 H2 H3 H4. destruct Hg. split; simpl; try done; by rewrite Hmode. Qed.

Lemma good_limits m l :
  limits_ok m l → good (with_reactor w (set_limits (reactor w) m l)) (with_limits s m).
Proof. intros H1. destruct Hg. split; simpl; try done; by rewrite Hmode. Qed.

Lemma good_jobs js : good (with_reactor w (set_jobs (reactor w) js)) (with_jobs s js).
Proof. destruct Hg. split; simpl; try done; by rewrite Hmode. Qed.

Lemma spec_timers_same : with_timers s (s_armed s) (s_fresh s) = s.
Proof. by destruct s. Qed.
Lemma spec_fds_same : with_fds s (s_watched s) (s_reported s) = s.
Proof. by destruct s. Qed.

(** Memory of a timer that is not set comes or goes. *)
Lemma good_idle_timer p m :
  (state <$> timers (reactor w) !! p = Some TIMER_STATE_INACTIVE ∨ timers (reactor w) !! p = None) →
  (m !! p = None ∨ state <$> m !! p = Some TIMER_STATE_INACTIVE) → (∀ q, q ≠ p → m !! q = timers (reactor w) !! q) →
  good (with_reactor w (set_timers (reactor w) m (timers_tree (reactor w)) (timers_expired_list (reactor w)))) s.
Proof.
  intros Hp Hm Hoth. rewrite <- spec_timers_same.
  pose proof (g_timers _ _ Hg) as [Hts Hes Ht He].
  assert (Hnt : p ∉ timers_tree (reactor w)) by (rewrite Ht; destruct Hp as [->| ->]; done).
  assert (Hne : p ∉ timers_expired_list (reactor w)) by (rewrite He; destruct Hp as [->| ->]; done).
  assert (Htime : ∀ q, q ≠ p → time_of m q = time_of (timers (reactor w)) q) by (intros q Hq; unfold time_of; by rewrite Hoth).
  assert (Hlt : ∀ x y, x ≠ p → y ≠ p → tlt (timers (reactor w)) x y → tlt m x y) by (intros x y Hx Hy; unfold tlt; by rewrite !Htime).
  apply good_timers.
  - split.
    + eapply sorted_ext; [|exact Hts]. intros x y Hx Hy. apply Hlt; by intros ->.
    + eapply sorted_ext; [|exact Hes]. intros x y Hx Hy. apply Hlt; by intros ->.
    + intros q. destruct (decide (q = p)) as [->|Hq]; [|by rewrite Hoth]. split; [done|]. destruct Hm as [->| ->]; done.
    + intros q. destruct (decide (q = p)) as [->|Hq]; [|by rewrite Hoth]. split; [done|]. destruct Hm as [->| ->]; done.
  - rewrite (g_armed _ _ Hg). apply map_eq. intros q. rewrite !armed_lookup.
    destruct (decide (q = p)) as [->|Hq]; [|by rewrite Hoth].
    destruct (timers (reactor w) !! p) as [[? []]|], (m !! p) as [[? []]|]; simpl in *; try done; naive_solver.
  - intros x q Hx Hq Hf. apply Hlt; [by intros ->..|]. by apply (g_order _ _ Hg).
  - intros x Hx. rewrite Htime by by intros ->. by apply (g_due _ _ Hg).
Qed.

Lemma timer_call_good e :
  call_ok w e = true →
  match e with Init_timer _ | Free_timer _ | Is_running _ | Set_timer _ _ _ | Remove_timer _ => True | _ => False end →
  ∃ w', call w e = Ok (w', (spec_call s e).2) ∧ good w' (spec_call s e).1.
Proof.
  intros Hok He. pose proof (g_timers _ _ Hg) as Htok. destruct e as [| | | |p|p|p|p m t|p| | | | | | | | | | | | |]; try done; clear He; cbn [call_ok call spec_call fst snd] in *.
  - eexists. split; [done|]. unfold BSmallTimer_Init, put_timer. eapply (good_idle_timer p); simpl.
    + apply orb_true_iff in Hok as [H%bool_decide_eq_true|H%bool_decide_eq_true]; auto.
    + right. by rewrite lookup_insert_eq.
    + intros q Hq. by rewrite lookup_insert_ne.
  - eexists. split; [done|]. zify_bool. eapply (good_idle_timer p); simpl; [by left|left; by rewrite lookup_delete_eq|].
    intros q Hq. by rewrite lookup_delete_ne.
  - zify_bool. destruct Hok as [u Hu]. unfold BSmallTimer_IsRunning, get_timer. rewrite Hu. cbn [or_fault mbind result_bind]. exists w.
    split; [|done]. do 3 f_equal. rewrite (g_armed _ _ Hg), armed_lookup, Hu. cbn. destruct (state u); done.
  - apply andb_true_iff in Hok as [[u Hu]%bool_decide_eq_true Hm].
    destruct (set_timer_spec (reactor w) p u m t (clock w) Htok Hu Hm) as (m' & tree' & exp' & -> & Hok' & Harm & Hoth & Htr & Hex).
    rewrite ok_bind. eexists. split; [done|]. rewrite (g_clock _ _ Hg).
    assert (Htime : ∀ q, q ≠ p → time_of m' q = time_of (timers (reactor w)) q) by (intros q Hq; unfold time_of; by rewrite Hoth).
    apply good_timers; [done|by rewrite Harm, (g_armed _ _ Hg)|..].
    + intros x q Hx Hq Hf. apply Hex in Hx as [Hxp Hx]. apply not_elem_of_union in Hf as [Hqp Hf].
      rewrite not_elem_of_singleton in Hqp. apply Htr in Hq as [->|Hq]; [done|]. unfold tlt. rewrite !Htime by done. by apply (g_order _ _ Hg).
    + intros x Hx. apply Hex in Hx as [Hxp Hx]. rewrite Htime by done. by apply (g_due _ _ Hg).
  - zify_bool. destruct Hok as [u Hu].
    destruct (remove_timer_spec (reactor w) p u Htok Hu) as (m' & tree' & exp' & -> & [Hok' Harm Hst Hoth Htr Hex]).
    rewrite ok_bind. eexists. split; [done|].
    assert (Htime : ∀ q, q ≠ p → time_of m' q = time_of (timers (reactor w)) q) by (intros q Hq; unfold time_of; by rewrite Hoth).
    apply good_timers; [done|by rewrite Harm, (g_armed _ _ Hg)|..].
    + intros x q Hx Hq Hf. apply Hex in Hx as [Hxp Hx]. apply Htr in Hq as [Hqp Hq]. unfold tlt. rewrite !Htime by done. by apply (g_order _ _ Hg).
    + intros x Hx. apply Hex in Hx as [Hxp Hx]. rewrite Htime by done. by apply (g_due _ _ Hg).
Qed.

Lemma fd_call_good e :
  call_ok w e = true →
  match e with Init_fd _ _ | Free_fd _ | Add_fd _ _ | Remove_fd _ | Set_events _ _ => True | _ => False end →
  ∃ w', call w e = Ok (w', (spec_call s e).2) ∧ good w' (spec_call s e).1.
Proof.
  intros Hok He. pose proof (g_fds _ _ Hg) as Hfok. pose proof (g_kernel _ _ Hg) as Hkok.
  destruct e as [| | | | | | | | |p n|p|p res|p|p evs| | | | | | | |]; try done; clear He; cbn [call_ok call spec_call fst snd] in *.
  - destruct (fds_put_inactive (fds (reactor w)) (epoll_results (reactor w)) _ _ (registered w) p
      (bfd n false (from_option waitEvents 0 (fds (reactor w) !! p)) (b ← fds (reactor w) !! p; epoll_returned_ptr b)) Hfok Hkok)
      as (H1 & H2 & H3 & H4); [done| |].
    { intros b Hb. rewrite Hb in Hok. apply orb_true_iff in Hok as [H%bool_decide_eq_true|H%bool_decide_eq_true]; [done|by injection H]. }
    eexists. split; [done|]. rewrite <- spec_fds_same. apply good_fds; [done|done|by rewrite H3, (g_watched _ _ Hg)|by rewrite H4, (g_reported _ _ Hg)].
  - destruct (fds_delete_inactive (fds (reactor w)) (epoll_results (reactor w)) _ _ (registered w) p Hfok Hkok) as (H1 & H2 & H3 & H4).
    { intros b Hb. rewrite Hb in Hok. apply bool_decide_eq_true in Hok. by injection Hok. }
    eexists. split; [done|]. rewrite <- spec_fds_same. apply good_fds; [done|done|by rewrite H3, (g_watched _ _ Hg)|by rewrite H4, (g_reported _ _ Hg)].
  - apply andb_true_iff in Hok as [Hb%bool_decide_eq_true Hk]. destruct (fds (reactor w) !! p) as [b|] eqn:Hpb; [|done]. injection Hb as Hb.
    unfold BReactor_AddFileDescriptor, get_fd. rewrite Hpb. cbn [or_fault mbind result_bind]. rewrite c_assert_true by by rewrite Hb.
    destruct res; cbn [negb] in *; cbn [mbind result_bind do_ctl].
    + apply bool_decide_eq_true in Hk. simpl in Hk. destruct (add_fd_spec _ _ _ _ _ p b Hfok Hkok Hpb Hb Hk) as (H1 & H2 & H3 & H4).
      eexists. split; [done|]. apply good_fds; [done|done|by rewrite H3, (g_watched _ _ Hg)|by rewrite H4, (g_reported _ _ Hg)].
    + exists w. split; [by destruct w|done].
  - apply bool_decide_eq_true in Hok. destruct (fds (reactor w) !! p) as [b|] eqn:Hpb; [|done]. injection Hok as Hb.
    pose proof (remove_fd_spec _ _ _ _ _ p b Hfok Hkok Hpb Hb) as (H1 & H2 & H3 & H4).
    unfold BReactor_RemoveFileDescriptor, get_fd. rewrite Hpb. cbn [or_fault mbind result_bind]. rewrite c_assert_true by done.
    assert (Hdel : do_ctl (registered w) (Ctl_del (fd b)) = Ok (delete (fd b) (registered w))).
    { simpl. rewrite (k_active _ _ Hkok p b Hpb Hb). by rewrite c_assert_true by by apply bool_decide_eq_true. }
    destruct (epoll_returned_ptr b) as [i|] eqn:Hi.
    + destruct (f_ptr _ _ _ _ Hfok p b i Hpb Hb Hi) as [_ Hd].
      cbn [put_fd set_fds epoll_results fds]. destruct (epoll_results (reactor w) !! i) as [e|] eqn:He; [|done].
      cbn [mbind result_bind]. rewrite Hdel. cbn [mbind result_bind]. eexists. split; [done|].
      assert (E : cancelled (epoll_results (reactor w)) (Some i) = <[i := entry None (events e)]> (epoll_results (reactor w))).
      { apply list_eq. intros j. rewrite cancelled_lookup by (intros ? [= <-]; by eexists). destruct (decide (i = j)) as [<-|Hne].
        - rewrite He, list_lookup_insert_eq by by eapply lookup_lt_Some. simpl. by rewrite bool_decide_eq_true_2.
        - rewrite list_lookup_insert_ne by done. rewrite bool_decide_eq_false_2 by congruence. by destruct (epoll_results (reactor w) !! j) as [[]|]. }
      rewrite E in *. apply good_fds; [done|done|by rewrite H3, (g_watched _ _ Hg)|by rewrite H4, (g_reported _ _ Hg)].
    + cbn [mbind result_bind]. rewrite Hdel. cbn [mbind result_bind]. eexists. split; [done|]. cbn [cancelled] in *.
      apply good_fds; [done|done|by rewrite H3, (g_watched _ _ Hg)|by rewrite H4, (g_reported _ _ Hg)].
  - apply andb_true_iff in Hok as [Hb%bool_decide_eq_true Hev]. destruct (fds (reactor w) !! p) as [b|] eqn:Hpb; [|done]. injection Hb as Hb.
    unfold BReactor_SetFileDescriptorEvents, get_fd. rewrite Hpb. cbn [or_fault mbind result_bind]. rewrite !c_assert_true by done.
    destruct (Z.eqb_spec (waitEvents b) evs) as [<-|Hne]; cbn [mbind result_bind].
    + exists w. split; [by destruct w|]. rewrite insert_id by by rewrite (g_watched _ _ Hg), (watched_lookup _ _ _ Hpb), Hb. by rewrite spec_fds_same.
    + cbn [do_ctl]. rewrite (k_active _ _ Hkok p b Hpb Hb), c_assert_true by by apply bool_decide_eq_true. cbn [mbind result_bind].
      destruct (set_events_spec _ _ _ _ _ p b evs Hfok Hkok Hpb Hb) as (H1 & H2 & H3 & H4).
      eexists. split; [done|]. apply good_fds; [done|done|by rewrite H3, (g_watched _ _ Hg)|by rewrite H4, (g_reported _ _ Hg)].
Qed.

Lemma limit_call_good e :
  call_ok w e = true →
  match e with Init_limit _ _ | Free_limit _ | Increment _ | Set_limit _ _ => True | _ => False end →
  ∃ w', call w e = Ok (w', (spec_call s e).2) ∧ good w' (spec_call s e).1.
Proof.
  intros Hok He. pose proof (g_limits _ _ Hg) as Hlok.
  destruct e as [| | | | | | | | | | | | | |p n|p|p|p n| | | |]; try done; clear He; cbn [call_ok call spec_call fst snd] in *; rewrite ?(g_lims _ _ Hg).
  - apply andb_true_iff in Hok as [Hp%bool_decide_eq_true Hn%Z.ltb_lt]. unfold BReactorLimit_Init. rewrite c_assert_true by lia.
    rewrite ok_bind. eexists. split; [done|]. apply good_limits. apply limits_put; [done|simpl; lia|done|]. simpl.
    rewrite (l_active _ _ Hlok). rewrite Hp. naive_solver lia.
  - apply bool_decide_eq_true in Hok as [r Hr]. unfold BReactorLimit_Free, get_limit. rewrite Hr. cbn [or_fault mbind result_bind].
    eexists. split; [done|]. pose proof (limits_delete _ _ p Hlok) as H. destruct (Z.ltb_spec 0 (count r)) as [Hc|Hc]; simpl.
    + by apply good_limits.
    + rewrite job_unset_notin in H; [by apply good_limits|]. rewrite (l_active _ _ Hlok), Hr. intros (? & [= <-] & ?). lia.
  - apply bool_decide_eq_true in Hok as [r Hr]. rewrite Hr. unfold BReactorLimit_Increment, get_limit. rewrite Hr. cbn [or_fault mbind result_bind].
    destruct (Z.leb_spec (limit r) (count r)) as [Hle|Hlt]; cbn [negb].
    + rewrite (proj2 (Z.ltb_ge _ _)) by done. exists w. split; [by destruct w|done].
    + rewrite (proj2 (Z.ltb_lt _ _)) by done. cbn [mbind result_bind]. eexists. split; [done|]. pose proof (l_range _ _ Hlok p r Hr).
      destruct (Z.eqb_spec (count r + 1) 1) as [Hc|Hc]; apply good_limits.
      * apply limits_add; simpl; [done|lia|lia|]. rewrite (l_active _ _ Hlok), Hr. intros (? & [= <-] & ?). lia.
      * apply limits_put; simpl; [done|lia|lia|]. rewrite (l_active _ _ Hlok), Hr. split; [intros _; exists r; split; [done|lia]|lia].
  - apply andb_true_iff in Hok as [[r Hr]%bool_decide_eq_true Hn%Z.ltb_lt]. unfold BReactorLimit_SetLimit, get_limit. rewrite c_assert_true by lia.
    rewrite Hr. cbn [or_fault mbind result_bind]. eexists. split; [done|]. pose proof (l_range _ _ Hlok p r Hr).
    replace (alter _ p _) with (<[p := mklimit n (count r)]> (limits (reactor w))).
    2: { apply map_eq. intros q. destruct (decide (q = p)) as [->|]; [by rewrite lookup_insert_eq, lookup_alter_eq, Hr|].
         by rewrite lookup_insert_ne, lookup_alter_ne. }
    apply good_limits, limits_put; simpl; [done|lia|lia|]. rewrite (l_active _ _ Hlok), Hr. naive_solver.
Qed.

Lemma job_call_good e :
  call_ok w e = true →
  match e with Set_job _ | Unset_job _ | Synchronize _ | Quit _ => True | _ => False end →
  ∃ w', call w e = Ok (w', (spec_call s e).2) ∧ good w' (spec_call s e).1.
Proof.
  intros Hok He. destruct e as [| | | | | | | | | | | | | | | | | |j|j|ref|code]; try done; clear He; cbn [call_ok call spec_call fst snd] in *.
  - eexists. split; [done|]. rewrite (g_jobs _ _ Hg). apply good_jobs.
  - eexists. split; [done|]. rewrite (g_jobs _ _ Hg). apply good_jobs.
  - unfold BReactor_Synchronize. rewrite (g_exit _ _ Hg), (g_jobs _ _ Hg). destruct (exiting (reactor w)); cbn [orb] in Hok.
    { cbn [mbind result_bind]. exists w. split; [by destruct w|done]. }
    destruct (pending_jobs (reactor w)) as [|j js] eqn:Hj; [done|]. destruct (bool_decide (j = ref)); cbn [mbind result_bind].
    + exists w. split; [by destruct w|done].
    + eexists. split; [done|]. apply good_jobs.
  - eexists. split; [done|]. destruct Hg. split; simpl; try done; by rewrite Hmode.
Qed.

Lemma call_good e : is_call e → call_ok w e = true →
  ∃ w', call w e = Ok (w', (spec_call s e).2) ∧ good w' (spec_call s e).1.
Proof.
  intros He Hok. destruct e; try done; first
    [by apply timer_call_good | by apply fd_call_good | by apply limit_call_good | by apply job_call_good].
Qed.
End calls.

(** *** The loop *)

Lemma fire_ok m tree p l : timers_ok m tree (p :: l) →
  ∃ t, m !! p = Some t ∧ state t = TIMER_STATE_EXPIRED ∧ armed m !! p = Some (absTime t) ∧
    let m' := <[p := timer (absTime t) TIMER_STATE_INACTIVE]> m in
    timers_ok m' tree l ∧ armed m' = delete p (armed m) ∧ (∀ q, time_of m' q = time_of m q).
Proof.
  intros [Hts [Hall Hes] Ht He]. pose proof (proj1 (He p) ltac:(by left)) as Hst.
  destruct (m !! p) as [t|] eqn:Hp; [|done]. injection Hst as Hst. exists t. split; [done|]. split; [done|].
  split; [rewrite armed_lookup, Hp; simpl; by rewrite Hst|]. intros m'.
  assert (Htime : ∀ q, time_of m' q = time_of m q) by (intros q; by apply time_put_state).
  assert (Hm' : ∀ q s, state <$> m' !! q = Some s ↔ (q ≠ p ∧ state <$> m !! q = Some s) ∨ (q = p ∧ s = TIMER_STATE_INACTIVE)).
  { intros q s. unfold m'. destruct (decide (q = p)) as [->|Hq]; [rewrite lookup_insert_eq; simpl; naive_solver|].
    rewrite lookup_insert_ne by done. naive_solver. }
  assert (Hpl : p ∉ l) by (intros Hin; rewrite Forall_forall in Hall; by apply (tlt_irrefl m p), Hall).
  assert (Hpt : p ∉ tree) by (rewrite Ht, Hp; simpl; by rewrite Hst).
  split; [split|split; [unfold m'; by rewrite armed_put|done]].
  - by eapply sorted_times.
  - by eapply sorted_times.
  - intros q. rewrite Hm', <- Ht. destruct (decide (q = p)) as [->|]; naive_solver.
  - intros q. rewrite Hm', <- He, elem_of_cons. destruct (decide (q = p)) as [->|]; naive_solver.
Qed.

Lemma reported_none m rs n : fds_ok m rs n n → reported m rs = ∅.
Proof.
  intros [Hr Hp Hs]. apply map_empty. intros p. unfold reported. rewrite lookup_omap. destruct (m !! p) as [b|] eqn:Hb; [|done].
  simpl. unfold pending_events. destruct (active b) eqn:Ha; [|done]. destruct (epoll_returned_ptr b) as [i|] eqn:Hi; [|done].
  destruct (Hp p b i Hb Ha Hi). lia.
Qed.

Lemma fds_cleaned m rs n num : (num ≤ length rs)%nat → fds_ok m rs n n → ∀ rs', fds_ok m rs' 0 0.
Proof.
  intros Hle [Hr Hp Hs] rs'. split; [lia| |lia]. intros p b i Hb Ha Hi. destruct (Hp p b i Hb Ha Hi). lia.
Qed.

(** Timers have expired. *)
Lemma expired_order w (f : gset ptr) o time m' tree' moved :
  expired_until o time m' tree' moved → timers_ok (timers o) (timers_tree o) (timers_expired_list o) →
  timers_expired_list o = [] → time ≤ clock w →
  (∀ p q, p ∈ moved → q ∈ tree' → q ∉ f → tlt m' p q) ∧ (∀ p, p ∈ moved → time_of m' p ≤ clock w) ∧
  (∀ p, p ∈ moved → ∃ t, armed (timers o) !! p = Some t ∧ t ≤ clock w).
Proof.
  intros [H1 H2 H3 H4 H5 H6] Hok Hexp Htime. split_and!.
  - intros p q Hp Hq _. pose proof (t_tree_sorted _ _ _ Hok) as Hs. rewrite H4 in Hs. apply sorted_app in Hs as (_ & _ & Hs).
    pose proof (Hs p q Hp Hq) as H. unfold tlt in *. by rewrite !H3.
  - intros p Hp. rewrite H3. pose proof (H5 p Hp). lia.
  - intros p Hp. pose proof (H5 p Hp). eexists. split; [eapply (armed_of_in _ _ _ p Hok); left; rewrite H4; set_solver|lia].
Qed.

Lemma waits_first w s p tree : good w s → timers_tree (reactor w) = p :: tree → timers_expired_list (reactor w) = [] →
  clock w < time_of (timers (reactor w)) p →
  waits s (epoll_timeout {| timeout_abs := Some (time_of (timers (reactor w)) p); now := clock w |}).
Proof.
  intros Hg Etree Hexp Hlt. right. exists p, (time_of (timers (reactor w)) p). rewrite (g_armed _ _ Hg), (g_clock _ _ Hg).
  pose proof (g_timers _ _ Hg) as Hok. rewrite Etree, Hexp in Hok. split_and!.
  - apply (armed_of_in _ _ _ p Hok). left. by left.
  - by eapply armed_first.
  - done.
  - unfold epoll_timeout. cbn [timeout_abs now]. destruct (Z.ltb_spec INT_MAX (time_of (timers (reactor w)) p - clock w)); lia.
Qed.

Lemma waits_forever w s : good w s → timers_tree (reactor w) = [] → timers_expired_list (reactor w) = [] → waits s (-1).
Proof.
  intros Hg Etree Hexp. left. split; [|done]. rewrite (g_armed _ _ Hg). pose proof (g_timers _ _ Hg) as Hok. rewrite Etree, Hexp in Hok.
  apply map_empty. intros q. destruct (armed (timers (reactor w)) !! q) eqn:E; [|done].
  destruct (proj1 (armed_in _ _ _ q Hok)) as [?|?]; [by eexists|set_solver..].
Qed.

(** An iteration of the loop that does what the specification does. *)
Definition goes (w : world) (s : spec) : Prop :=
  ∃ w' out s', run_loop w = Ok (w', out) ∧ spec_step s Run out s' ∧ good w' s'.

(** The first expired timer is served. *)
Lemma run_timer w s p l :
  good w s → at_mode w = Loop → exiting (reactor w) = false → pending_jobs (reactor w) = [] →
  timers_expired_list (reactor w) = p :: l → goes w s.
Proof.
  intros Hg Hmode Hex Hj Hexp. unfold goes, run_loop, BReactor_Exec. rewrite Hex, Hj, Hexp.
  pose proof (g_exit _ _ Hg) as Hexit. rewrite Hex in Hexit.
  assert (Hidle : idle s) by (split; [done|by rewrite (g_jobs _ _ Hg)]).
  pose proof (g_timers _ _ Hg) as Hok. rewrite Hexp in Hok. destruct (fire_ok _ _ _ _ Hok) as (t & Hp & Hst & Harm & Hok' & Harm' & Htime).
  unfold get_timer. rewrite Hp. cbn [or_fault mbind result_bind]. rewrite c_assert_true by by apply bool_decide_eq_true. cbn [mbind result_bind].
  assert (Htp : time_of (timers (reactor w)) p = absTime t) by (unfold time_of; by rewrite Hp).
  eexists _, _, _. split; [done|]. split.
  - apply (Spec_timer s p (absTime t)); [done|by rewrite (g_armed _ _ Hg)| |].
    + rewrite (g_clock _ _ Hg), <- Htp. apply (g_due _ _ Hg). rewrite Hexp. by left.
    + intros q t' Hq Hf Hne. rewrite (g_armed _ _ Hg) in Hq. pose proof (armed_time _ _ _ Hq) as <-. rewrite <- Htp.
      destruct (proj1 (armed_in _ _ _ q Hok)) as [Hin|Hin]; [by eexists|apply (g_order _ _ Hg); [rewrite Hexp; by left|done..]|].
      apply elem_of_cons in Hin as [->|Hin]; [done|]. pose proof (t_expired_sorted _ _ _ Hok) as [Hall _].
      rewrite Forall_forall in Hall. by apply Hall.
  - pose proof (g_armed _ _ Hg) as Ha. pose proof (g_order _ _ Hg) as Ho. pose proof (g_due _ _ Hg) as Hd. rewrite Hexp in Ho, Hd.
    destruct Hg. split; simpl; try done; [|..|by rewrite Harm', Ha].
    + intros x q Hx Hq Hf. unfold tlt. rewrite !Htime. apply Ho; [by right|done..].
    + intros x Hx. rewrite Htime. apply Hd. by right.
Qed.

(** The next descriptor the kernel has reported is served. *)
Lemma run_fd w s :
  good w s → at_mode w = Loop → exiting (reactor w) = false → pending_jobs (reactor w) = [] →
  timers_expired_list (reactor w) = [] → (epoll_results_pos (reactor w) < epoll_results_num (reactor w))%nat → goes w s.
Proof.
  intros Hg Hmode Hex Hj Hexp Hlt. unfold goes, run_loop, BReactor_Exec. rewrite Hex, Hj, Hexp.
  pose proof (g_exit _ _ Hg) as Hexit. rewrite Hex in Hexit.
  assert (Hidle : idle s) by (split; [done|by rewrite (g_jobs _ _ Hg)]).
  rewrite (proj2 (Nat.ltb_lt _ _) Hlt).
  pose proof (g_fds _ _ Hg) as Hfok. unfold dispatch_fd. destruct (epoll_results (reactor w) !! epoll_results_pos (reactor w)) as [e|] eqn:He.
  2: { apply lookup_ge_None in He. pose proof (f_range _ _ _ _ Hfok). lia. }
  cbn [or_fault mbind result_bind]. destruct (data e) as [p|] eqn:Hd.
  + destruct (fds_take _ _ _ _ e p Hfok Hlt He Hd) as (b & Hpb & Ha & Hret & Hok' & Hk' & Hw' & Hr' & Hwp & Hrp).
    unfold get_fd. cbn [set_results fds]. rewrite Hpb. cbn [or_fault mbind result_bind]. rewrite c_assert_true by done.
    rewrite c_assert_true by by apply bool_decide_eq_true.
    assert (Hgood : good (with_reactor w (put_fd (set_results (reactor w) (epoll_results (reactor w)) (epoll_results_num (reactor w))
        (S (epoll_results_pos (reactor w)))) p (bfd (fd b) (active b) (waitEvents b) None)))
      (with_fds s (s_watched s) (delete p (s_reported s)))).
    { pose proof (g_watched _ _ Hg) as H1. pose proof (g_reported _ _ Hg) as H2. destruct Hg.
      split; simpl; try done; [by apply Hk'|by rewrite Hmode|by rewrite Hw'|by rewrite Hr', H2]. }
    destruct (Z.eqb_spec (report (waitEvents b) (events e)) 0) as [Hz|Hnz]; cbn [mbind result_bind].
    * eexists _, _, _. split; [done|]. split; [|exact Hgood]. eapply Spec_unwatched; [done|by rewrite (g_watched _ _ Hg)|by rewrite (g_reported _ _ Hg)|done].
    * eexists _, _, _. split; [done|]. split; [apply (Spec_fd s p (waitEvents b) (events e)); [done|by rewrite (g_watched _ _ Hg)|by rewrite (g_reported _ _ Hg)|done]|].
      clear Hret. destruct Hgood. split; done.
  + cbn [mbind result_bind]. pose proof (fds_skip _ _ _ _ e Hfok Hlt He Hd) as Hok'.
    eexists _, _, s. split; [done|]. split; [by apply Spec_removed|]. destruct Hg. split; simpl; try done. by rewrite Hmode.
Qed.

(** Nothing is left: it waits, or timers have expired. *)
Lemma run_wait w s :
  good w s → at_mode w = Loop → exiting (reactor w) = false → pending_jobs (reactor w) = [] →
  timers_expired_list (reactor w) = [] → (epoll_results_num (reactor w) ≤ epoll_results_pos (reactor w))%nat → goes w s.
Proof.
  intros Hg Hmode Hex Hj Hexp Hge. unfold goes, run_loop, BReactor_Exec. rewrite Hex, Hj, Hexp.
  pose proof (g_exit _ _ Hg) as Hexit. rewrite Hex in Hexit.
  assert (Hidle : idle s) by (split; [done|by rewrite (g_jobs _ _ Hg)]).
  rewrite (proj2 (Nat.ltb_ge _ _) Hge).
  cbn [mbind result_bind]. pose proof (g_fds _ _ Hg) as Hfok. pose proof (f_range _ _ _ _ Hfok) as Hrange.
  assert (Hpos : epoll_results_pos (reactor w) = epoll_results_num (reactor w)) by lia.
  unfold wait_for_events. rewrite Hj, Hexp, Hpos. rewrite !c_assert_true by by apply bool_decide_eq_true.
  rewrite Hpos in Hfok. assert (Hrep : s_reported s = ∅) by (rewrite (g_reported _ _ Hg); by eapply reported_none).
  pose proof (fds_cleaned _ _ _ _ (proj2 Hrange) Hfok) as Hfok0.
  set (o1 := set_results (reactor w) (epoll_results (reactor w)) 0 0). cbn [set_results timers_tree o1].
  pose proof (g_timers _ _ Hg) as Htok. destruct (timers_tree (reactor w)) as [|p tree] eqn:Etree; cbn [Tree.GetFirst head].
  + unfold waited. cbn [mbind result_bind]. eexists _, _, _. split; [done|].
    split; [apply Spec_wait; [done..|by eapply waits_forever]|]. pose proof (g_armed _ _ Hg) as Ha. pose proof (g_due _ _ Hg) as Hd.
    pose proof (g_reported _ _ Hg) as Hrp. destruct Hg. split; simpl; try done; rewrite ?Etree, ?Hexp in *; first [done | apply Hfok0 | set_solver].
  + pose proof (proj1 (t_tree _ _ _ Htok p) ltac:(by left)) as Hst. destruct (timers (reactor w) !! p) as [t|] eqn:Hpt; [|done].
    injection Hst as Hst. unfold get_timer. change (timers o1) with (timers (reactor w)). rewrite Hpt. cbn [or_fault mbind result_bind].
    rewrite c_assert_true by by apply bool_decide_eq_true.
    destruct (expire_until_spec (clock w) (λ _, true) (enough o1) o1 false) as (m' & tree' & moved & Hrun & Hexpd).
    { simpl. by rewrite Etree. }
    { simpl. rewrite Hexp, Etree. exact (t_tree_sorted _ _ _ Htok). }
    { done. }
    { unfold enough. lia. }
    unfold move_expired_timers. rewrite Hrun. cbn [mbind result_bind orb].
    assert (Htp : time_of (timers (reactor w)) p = absTime t) by (unfold time_of; by rewrite Hpt).
    destruct (expired_order w ∅ o1 (clock w) m' tree' moved Hexpd) as (Ho1 & Ho2 & Ho3); [simpl; by rewrite Etree|by simpl|lia|].
    destruct Hexpd as [H1 H2 H3 H4 H5 H6]. simpl in *. rewrite Hexp in *. simpl in *.
    case_bool_decide as Hmoved; unfold waited; cbn [mbind result_bind].
    * eexists _, _, _. split; [done|]. split.
      { apply Spec_due; [done..|]. destruct moved as [|x moved]; [done|]. destruct (Ho3 x) as (tx & Hx1 & Hx2); [by left|].
        exists x, tx. by rewrite (g_armed _ _ Hg), (g_clock _ _ Hg). }
      pose proof (g_armed _ _ Hg) as Ha. pose proof (g_reported _ _ Hg) as Hrp. destruct Hg. split; simpl; first [done | apply Hfok0 | congruence].
    * subst moved. rewrite Etree in H4. simpl in H4. subst tree'.
      eexists _, _, _. split; [done|]. assert (Hlt : clock w < absTime t) by (rewrite <- Htp; apply H6; by left). split.
      { apply Spec_wait; [done..|]. rewrite <- Htp. by eapply waits_first; [| | |rewrite Htp]. }
      pose proof (g_armed _ _ Hg) as Ha. pose proof (g_reported _ _ Hg) as Hrp. destruct Hg. split; simpl; first [done | apply Hfok0 | congruence | by intros ? ? ?%not_elem_of_nil | by intros ? ?%not_elem_of_nil | idtac].
      split_and!; try done. exists p, tree. split_and!; [done|by rewrite H3|done|lia].
Qed.

Lemma run_good w s : good w s → at_mode w = Loop →
  ∃ w' out s', run_loop w = Ok (w', out) ∧ spec_step s Run out s' ∧ good w' s'.
Proof.
  intros Hg Hmode. pose proof (g_exit _ _ Hg) as Hexit. destruct (exiting (reactor w)) eqn:Hex.
  { unfold run_loop, BReactor_Exec. rewrite Hex. cbn [mbind result_bind]. eexists _, _, s. split; [done|].
    split; [by apply Spec_exit|]. destruct Hg. split; simpl; done. }
  destruct (pending_jobs (reactor w)) as [|j js] eqn:Hj.
  2: { unfold run_loop, BReactor_Exec. rewrite Hex, Hj. cbn [mbind result_bind]. eexists _, _, _. split; [done|].
       split; [apply Spec_job; [done|by rewrite (g_jobs _ _ Hg)]|]. destruct Hg. split; simpl; done. }
  destruct (timers_expired_list (reactor w)) as [|p l] eqn:Hexp; [|by eapply run_timer].
  destruct (decide (epoll_results_pos (reactor w) < epoll_results_num (reactor w))%nat); [by apply run_fd|].
  apply run_wait; try done. lia.
Qed.

(** *** The return of [epoll_wait] *)

Section epoll.
Context (w : world) (s : spec) (wt : waiting) (Hg : good w s) (Hmode : at_mode w = Waiting wt).

(** The first timer's time has passed. *)
Lemma timed_out_good p tree r :
  timers_tree (reactor w) = p :: tree → time_of (timers (reactor w)) p ≤ clock w → r = Interrupted ∨ r = Returned [] →
  ∃ o', (o ← move_first_timers (reactor w); o ← reset_limits (active_limits_list o) o; Ok (o, @None waiting)) = Ok (o', None) ∧
    spec_step s (Epoll r) Silent (reset s) ∧ good (with_mode (with_reactor w o') Loop) (reset s).
Proof.
  intros Etree Htime Hr. pose proof (g_mode _ _ Hg) as Hm. rewrite Hmode in Hm. destruct Hm as (Hex & Hj & Hexp & Hnum & Hpos & _).
  pose proof (g_timers _ _ Hg) as Htok.
  destruct (move_first_spec (reactor w) p tree Htok Etree Hexp) as (m' & tree' & moved & -> & Hexpd & Hin). rewrite ok_bind.
  destruct (expired_order w ∅ (reactor w) _ m' tree' moved Hexpd Htok Hexp Htime) as (Ho1 & Ho2 & Ho3).
  set (o1 := set_timers (reactor w) m' tree' moved).
  destruct (reset_limits_spec o1 (g_limits _ _ Hg)) as [Hrun Hlok]. rewrite Hrun, ok_bind.
  eexists. split; [done|]. split.
  { apply Spec_expired; [done|]. destruct (Ho3 p Hin) as (t & Ht1 & Ht2). exists p, t. by rewrite (g_armed _ _ Hg), (g_clock _ _ Hg). }
  destruct Hexpd as [H1 H2 H3 H4 H5 H6]. rewrite Hexp in H1. pose proof (g_lims _ _ Hg) as Hl. pose proof (g_armed _ _ Hg) as Ha.
  destruct Hg. split; simpl; try done; [|by rewrite Ha, H2|by rewrite Hl].
  intros x q Hx Hq _. apply (Ho1 x q Hx Hq). apply not_elem_of_empty.
Qed.

Lemma try_again_good r : r = Interrupted ∨ r = Returned [] →
  ∃ w' out s', waited w (try_again (reactor w) wt (clock w)) = Ok (w', out) ∧ spec_step s (Epoll r) out s' ∧ good w' s'.
Proof.
  intros Hr. pose proof (g_mode _ _ Hg) as Hm. rewrite Hmode in Hm. destruct Hm as (Hex & Hj & Hexp & Hnum & Hpos & Ht).
  unfold try_again. destruct (timeout_abs wt) as [t|] eqn:Et.
  - destruct Ht as (p & tree & Etree & -> & Hnow & Hclock). case_if.
    + destruct (timed_out_good p tree r Etree ltac:(lia) Hr) as (o' & -> & Hsp & Hg'). eexists _, _, _. by split_and!.
    + unfold waited. cbn [mbind result_bind]. eexists _, _, s. split; [done|]. split.
      * apply Spec_again; [done|]. eapply waits_first; [done..|lia].
      * destruct Hg. split; simpl; try done. split_and!; try done. exists p, tree. split_and!; [done..|lia|lia].
  - unfold waited. cbn [mbind result_bind]. eexists _, _, s. split; [done|]. split.
    + apply Spec_again; [done|]. unfold epoll_timeout. rewrite Et. by eapply waits_forever.
    + destruct Hg. split; simpl; try done. by rewrite Et.
Qed.

Lemma reported_good rs : rs ≠ [] → kernel_ok w wt (Returned rs) = true →
  ∃ w' out s', waited w (wait_returned (reactor w) wt (Returned rs) (clock w)) = Ok (w', out) ∧
    spec_step s (Epoll (Returned rs)) out s' ∧ good w' s'.
Proof.
  intros Hne Hk. pose proof (g_mode _ _ Hg) as Hm. rewrite Hmode in Hm. destruct Hm as (Hex & Hj & Hexp & Hnum & Hpos & Ht).
  assert (Hk' : (length rs <=? BSYSTEM_MAX_RESULTS)%nat = true ∧ NoDup (data <$> rs) ∧
    ∀ e, e ∈ rs → ∃ p b, data e = Some p ∧ fds (reactor w) !! p = Some b ∧ active b = true).
  { destruct rs as [|e0 rs0]; [done|]. cbn [kernel_ok] in Hk. apply andb_true_iff in Hk as [[H1 H2]%andb_true_iff H3].
    split; [done|]. split; [by apply bool_decide_eq_true in H2|]. intros e He. rewrite forallb_forall in H3.
    pose proof (H3 e ltac:(by apply list_elem_of_In)) as H. apply bool_decide_eq_true in H.
    apply list_elem_of_fmap in H as ([n [p evs]] & Hd & Hin). apply elem_of_map_to_list in Hin.
    destruct (k_registered _ _ (g_kernel _ _ Hg) n p evs Hin) as (b & Hb & Ha & _). by exists p, b. }
  destruct Hk' as (Hlen & Hnd & Hact). unfold wait_returned.
  assert (Hl0 : (length rs =? 0)%nat = false) by (by destruct rs). rewrite Hl0, c_assert_true by done.
  rewrite c_assert_true by done. cbn [negb orb].
  set (o1 := set_results (reactor w) rs (length rs) (epoll_results_pos (reactor w))).
  pose proof (g_fds _ _ Hg) as Hfok. rewrite Hnum, Hpos in Hfok.
  pose proof (fds_cleaned _ _ _ _ (Nat.le_0_l _) Hfok rs) as Hfok0.
  destruct (set_pointers_spec rs [] rs (fds o1) o1 eq_refl Hnd Hact eq_refl Hfok0) as (m' & Hrun & Hfok' & Hk' & Hw').
  simpl in Hrun. rewrite Hrun, ok_bind. set (o2 := set_fds o1 m' rs).
  destruct (reset_limits_spec o2 (g_limits _ _ Hg)) as [Hrun2 Hlok]. rewrite Hrun2, ok_bind. unfold waited. cbn [mbind result_bind].
  eexists _, _, _. split; [done|]. split; [by apply Spec_reported|].
  pose proof (g_lims _ _ Hg) as Hl. pose proof (g_watched _ _ Hg) as Hwa. pose proof (reported_returned _ _ Hfok' Hnd) as Hrep.
  destruct Hg. split; simpl; try done; [by rewrite Hpos|by apply Hk'|by rewrite Hwa|by rewrite Hl].
Qed.

Lemma epoll_good r : kernel_ok w wt r = true →
  ∃ w' out s', waited w (wait_returned (reactor w) wt r (clock w)) = Ok (w', out) ∧ spec_step s (Epoll r) out s' ∧ good w' s'.
Proof.
  intros Hk. destruct r as [|[|e rs]]; [apply try_again_good; by left| |by apply reported_good].
  pose proof (g_mode _ _ Hg) as Hm. rewrite Hmode in Hm. destruct Hm as (Hex & Hj & Hexp & Hnum & Hpos & Ht).
  cbn [kernel_ok] in Hk. apply andb_true_iff in Hk as [[t Et]%bool_decide_eq_true Hclock%Z.leb_le]. rewrite Et in Ht.
  destruct Ht as (p & tree & Etree & -> & Hnow & Hnc). unfold wait_returned. rewrite Et. cbn [length Nat.eqb negb orb].
  rewrite bool_decide_eq_true_2 by done. cbn [c_assert Nat.leb].
  destruct (Z.eqb_spec (epoll_timeout wt) (time_of (timers (reactor w)) p - now wt)) as [Heq|Hneq].
  - destruct (timed_out_good p tree (Returned []) Etree) as (o' & Hrun & Hsp & Hg'); [lia|by right|].
    cbn [c_assert]. rewrite Hrun. eexists _, _, _. by split_and!.
  - cbn [c_assert]. apply try_again_good. by right.
Qed.
End epoll.

Lemma step_good w s e r : good w s → step w e = Some r →
  ∃ w' out s', r = Ok (w', out) ∧ spec_step s e out s' ∧ good w' s'.
Proof.
  intros Hg Hstep.
  assert (Hcall : is_call e → step w e = match at_mode w with Program => if call_ok w e then Some (call w e) else None | _ => None end).
  { by destruct e. }
  assert (Hcases : is_call e ∨ (∃ z, e = Tick z) ∨ e = Run ∨ e = Return ∨ ∃ r, e = Epoll r) by (destruct e; naive_solver).
  destruct Hcases as [He|[[z ->]|[->|[->|[r0 ->]]]]].
  - rewrite (Hcall He) in Hstep. destruct (at_mode w) eqn:Hm; [|done..]. destruct (call_ok w e) eqn:Hok; [|done]. injection Hstep as <-.
    destruct (call_good w s Hg Hm e He Hok) as (w' & -> & Hg'). eexists _, _, _. split; [done|]. split; [by apply Spec_call|done].
  - simpl in Hstep. case_if; [|done]. injection Hstep as <-. eexists _, _, _. split; [done|].
    split; [apply Spec_tick; rewrite (g_clock _ _ Hg); lia|]. pose proof (g_due _ _ Hg) as Hd. pose proof (g_mode _ _ Hg) as Hm.
    destruct Hg. split; simpl; try done.
    + destruct (at_mode w); simpl in *; try done. destruct Hm as (?&?&?&?&?&Hm). split_and!; try done.
      destruct (timeout_abs w0); [|done]. destruct Hm as (p & tree & ? & ? & ? & ?). exists p, tree. split_and!; try done. lia.
    + intros p Hp. pose proof (Hd p Hp). lia.
  - simpl in Hstep. destruct (at_mode w) eqn:Hm; try done. injection Hstep as <-. by apply run_good.
  - simpl in Hstep. destruct (at_mode w) eqn:Hm; try done. injection Hstep as <-. eexists _, _, _. split; [done|].
    split; [apply Spec_return|]. destruct Hg. split; simpl; done.
  - simpl in Hstep. destruct (at_mode w) as [| |wt] eqn:Hm; try done. destruct (kernel_ok w wt r0) eqn:Hk; [|done]. injection Hstep as <-.
    by eapply epoll_good.
Qed.

Lemma run_refines es : ∀ w s r, good w s → run w es = Some r →
  ∃ w' outs s', r = Ok (w', outs) ∧ spec_run s es outs s' ∧ good w' s'.
Proof.
  induction es as [|e es IH]; intros w s r Hg Hrun; simpl in Hrun.
  { injection Hrun as <-. exists w, [], s. split_and!; [done|constructor|done]. }
  destruct (step w e) as [r1|] eqn:Hs; [|done]. destruct (step_good _ _ _ _ Hg Hs) as (w1 & out & s1 & -> & Hsp & Hg1).
  destruct (run w1 es) as [r2|] eqn:Hr; [|done]. destruct (IH _ _ _ Hg1 Hr) as (w2 & outs & s2 & -> & Hsps & Hg2).
  injection Hrun as <-. exists w2, (out :: outs), s2. split_and!; [done| |done]. by econstructor.
Qed.

Lemma initial_good z : good (initial z) (spec0 z).
Proof.
  split; simpl; try done.
  - split; try done; intros p; rewrite lookup_empty; (split; [by intros ?%not_elem_of_nil|done]).
  - split; [constructor|intros p; rewrite lookup_empty; split; [by intros ?%not_elem_of_nil|naive_solver]|done].
  - by intros ? ? ?%not_elem_of_nil.
  - by intros ? ?%not_elem_of_nil.
Qed.

(** *** Progress *)

(** What is left to do before the loop waits, or fires the timers that have just expired. *)
Definition work (w : world) : nat :=
  let o := reactor w in
  2 * (length (pending_jobs o) + length (timers_expired_list o) + length (timers_tree o) +
       (epoll_results_num o - epoll_results_pos o)) +
  (if bool_decide (timers_expired_list o = []) then 1 else 0).

Lemma dispatch_fd_frame o o' d : dispatch_fd o = Ok (o', d) →
  pending_jobs o' = pending_jobs o ∧ timers o' = timers o ∧ timers_tree o' = timers_tree o ∧
  timers_expired_list o' = timers_expired_list o ∧ exiting o' = exiting o ∧ epoll_results_num o' = epoll_results_num o ∧
  epoll_results_pos o' = S (epoll_results_pos o) ∧ (d = Nothing ∨ ∃ p evs, d = Descriptor p evs).
Proof.
  unfold dispatch_fd. intros H. apply bind_ok in H as (e & _ & H). destruct (data e) as [p|].
  - apply bind_ok in H as (b & _ & H). apply c_assert_ok in H as [_ H]. apply c_assert_ok in H as [_ H].
    destruct (report _ _ =? 0); injection H as <- <-; simpl; eauto 20.
  - injection H as <- <-. simpl. eauto 20.
Qed.

(** A timer that is due is not forgotten: it fires, or there is less left to do. *)
Lemma run_progress w s p t : good w s → at_mode w = Loop → exiting (reactor w) = false →
  armed (timers (reactor w)) !! p = Some t → t ≤ clock w →
  ∃ w' out, run_loop w = Ok (w', out) ∧
    (out = Called (Timer p) ∨
     ((work w' < work w)%nat ∧ armed (timers (reactor w')) !! p = Some t ∧ clock w' = clock w ∧
      exiting (reactor w') = false ∧ match at_mode w' with Waiting _ => False | _ => True end)).
Proof.
  intros Hg Hmode Hex Harm Ht. destruct (run_good w s Hg Hmode) as (w' & out & s' & Hrun & _ & Hg'). exists w', out. split; [done|].
  pose proof (g_timers _ _ Hg) as Hok. unfold run_loop, BReactor_Exec in Hrun. rewrite Hex in Hrun. unfold work.
  destruct (pending_jobs (reactor w)) as [|j js] eqn:Hj.
  2: { injection Hrun as <- <-. right. simpl. split_and!; try done. lia. }
  destruct (timers_expired_list (reactor w)) as [|q l] eqn:Hexp.
  2: { destruct (fire_ok _ _ _ _ Hok) as (u & Hq & Hst & _ & _ & Harm' & _). unfold get_timer in Hrun. rewrite Hq in Hrun.
       cbn [or_fault mbind result_bind] in Hrun. rewrite c_assert_true in Hrun by by apply bool_decide_eq_true.
       injection Hrun as <- <-. destruct (decide (q = p)) as [->|Hne]; [by left|right]. simpl.
       rewrite Harm', lookup_delete_ne by done. split_and!; try done. rewrite Hj; simpl; case_bool_decide; lia. }
  destruct (epoll_results_pos (reactor w) <? epoll_results_num (reactor w))%nat eqn:Hpos.
  - apply Nat.ltb_lt in Hpos. destruct (dispatch_fd (reactor w)) as [[o d]|] eqn:Hd; [|done].
    destruct (dispatch_fd_frame _ _ _ Hd) as (E1 & E2 & E3 & E4 & E5 & E6 & E7 & E8). right.
    destruct E8 as [->|(q & evs & ->)]; injection Hrun as <- <-; simpl; rewrite ?E1, ?E2, ?E3, ?E4, ?E5, ?E6, ?E7, ?Hj, ?Hexp, ?Hmode; split_and!; try done; simpl; lia.
  - assert (Hin : p ∈ timers_tree (reactor w)).
    { destruct (proj1 (armed_in _ _ _ p Hok)) as [?|?]; [by eexists|done|set_solver]. }
    cbn [mbind result_bind] in Hrun. unfold wait_for_events in Hrun. rewrite Hj, Hexp in Hrun.
    rewrite !bool_decide_eq_true_2 in Hrun by done. cbn [c_assert] in Hrun.
    destruct (bool_decide (epoll_results_pos (reactor w) = epoll_results_num (reactor w))); [|done]. cbn [c_assert] in Hrun.
    set (o1 := set_results (reactor w) (epoll_results (reactor w)) 0 0) in *. change (timers_tree o1) with (timers_tree (reactor w)) in Hrun.
    destruct (timers_tree (reactor w)) as [|q tree] eqn:Etree; [by apply not_elem_of_nil in Hin|]. cbn [Tree.GetFirst head] in Hrun.
    destruct (get_timer o1 q) as [u|]; [|done]. cbn [mbind result_bind] in Hrun.
    destruct (bool_decide (state u = TIMER_STATE_RUNNING)); [|done]. cbn [c_assert] in Hrun.
    destruct (expire_until_spec (clock w) (λ _, true) (enough o1) o1 false) as (m' & tree' & moved & Hmv & [H1 H2 H3 H4 H5 H6]).
    { simpl. by rewrite Etree, Hexp. }
    { simpl. rewrite Hexp, Etree. exact (t_tree_sorted _ _ _ Hok). }
    { done. }
    { unfold enough. lia. }
    unfold move_expired_timers in Hrun. rewrite Hmv in Hrun. cbn [mbind result_bind orb] in Hrun. simpl in H1, H2, H3, H4, H5, H6.
    assert (Hmoved : moved ≠ []).
    { intros ->. simpl in H4. rewrite Etree in H4. pose proof (H6 p) as H. rewrite <- H4 in H. specialize (H Hin). rewrite (armed_time _ _ _ Harm) in H. lia. }
    rewrite bool_decide_eq_true_2 in Hrun by done. unfold waited in Hrun. cbn [mbind result_bind] in Hrun. injection Hrun as <- <-.
    right. simpl. rewrite Hexp. simpl. rewrite Hj, H2, Etree in *. apply (f_equal length) in H4. rewrite length_app in H4. simpl in *.
    rewrite (bool_decide_eq_false_2 (moved = [])) by done. split_and!; try done. lia.
Qed.

(** The timer fires after at most as many iterations as there is work, if the handlers do nothing. *)
Lemma fires_in n : ∀ w s p t, (work w < n)%nat → good w s → exiting (reactor w) = false →
  armed (timers (reactor w)) !! p = Some t → t ≤ clock w → at_mode w = Loop →
  ∃ es w' outs, (length es ≤ 2 * n)%nat ∧ Forall (λ e, e = Run ∨ e = Return) es ∧ run w es = Some (Ok (w', outs)) ∧
    Called (Timer p) ∈ outs.
Proof.
  induction n as [|n IH]; intros w s p t Hn Hg Hex Harm Ht Hmode; [lia|].
  destruct (run_progress w s p t Hg Hmode Hex Harm Ht) as (w1 & out & Hrun & Hcase).
  assert (Hstep : step w Run = Some (Ok (w1, out))) by (simpl; by rewrite Hmode, Hrun).
  destruct Hcase as [->|(Hw & Harm1 & Hc1 & Hex1 & Hm1)].
  { exists [Run], w1, [Called (Timer p)]. split_and!; [simpl; lia|by repeat constructor; left| |by left]. cbn [run]. by rewrite Hstep. }
  destruct (step_good _ _ _ _ Hg Hstep) as (w1' & out' & s1 & [= <- <-] & _ & Hg1). destruct (at_mode w1) as [| |] eqn:Em; [| |done].
  - assert (Hret : step w1 Return = Some (Ok (with_mode w1 Loop, Silent))) by (simpl; by rewrite Em).
    destruct (step_good _ _ _ _ Hg1 Hret) as (w2 & out2 & s2 & [= <- <-] & _ & Hg2).
    destruct (IH (with_mode w1 Loop) s2 p t) as (es & w' & outs & Hl & Hall & Hr & Hin); try done; [unfold work in *; simpl; lia|simpl; lia|].
    exists (Run :: Return :: es), w', (out :: Silent :: outs). split_and!; [simpl; lia|by repeat constructor; auto| |set_solver].
    cbn [run]. rewrite Hstep, Hret, Hr. done.
  - destruct (IH w1 s1 p t) as (es & w' & outs & Hl & Hall & Hr & Hin); try done; [lia|lia|].
    exists (Run :: es), w', (out :: outs). split_and!; [simpl; lia|by constructor; auto| |set_solver].
    cbn [run]. rewrite Hstep, Hr. done.
Qed.

(** C7: Whatever the program's handlers call and the kernel returns, within the rules of their
    interfaces, the event loop never fails and implements its contract: jobs go first, a
    timer's handler is called only once it is due, once for each time it was set and not
    after it was stopped, in order of expiry among the timers set before the last wait, a
    descriptor's handler is called only for what was reported while it was watched and
    masked by what is asked for, limits are reset by each wait, and it waits exactly until
    the first timer (at most INT_MAX ms), and only when nothing is left to do. *)
Theorem reactor_refines z es r : run (initial z) es = Some r →
  ∃ w' outs s', r = Ok (w', outs) ∧ spec_run (spec0 z) es outs s' ∧ good w' s'.
Proof. apply run_refines, initial_good. Qed.

(** C8: A timer whose time has come is not forgotten: from the loop its handler is called after
    a bounded number of iterations, if the handlers before it add no work, and if epoll_wait
    is still blocked then whatever it returns leads back to the loop with the timer still
    set. *)
Theorem reactor_timer_fires z es w outs p t :
  run (initial z) es = Some (Ok (w, outs)) → exiting (reactor w) = false →
  armed (timers (reactor w)) !! p = Some t → t ≤ clock w →
  match at_mode w with
  | Loop => ∃ es' w' outs', (length es' ≤ 2 * S (work w))%nat ∧ Forall (λ e, e = Run ∨ e = Return) es' ∧
              run w es' = Some (Ok (w', outs')) ∧ Called (Timer p) ∈ outs'
  | Waiting _ => ∀ r res, step w (Epoll r) = Some res →
      ∃ w', res = Ok (w', Silent) ∧ at_mode w' = Loop ∧ armed (timers (reactor w')) !! p = Some t
  | Program => True
  end.
Proof.
  intros Hrun Hex Harm Ht. destruct (run_refines es _ _ _ (initial_good z) Hrun) as (w' & outs' & s & [= <- <-] & _ & Hg).
  destruct (at_mode w) as [| |wt] eqn:Hm; [done| |].
  - eapply fires_in; [|done..]. lia.
  - intros r res Hstep. destruct (step_good _ _ _ _ Hg Hstep) as (w1 & out & s1 & -> & Hsp & Hg1).
    assert (Hdue : ∀ ms, ¬ waits s ms).
    { intros ms Hw. rewrite <- (g_armed _ _ Hg) in Harm. rewrite <- (g_clock _ _ Hg) in Ht.
      destruct Hw as [[He _]|(q & t' & Hq & Hmin & Hlt & _)]; [by rewrite He in Harm|]. pose proof (Hmin p t Harm). lia. }
    assert (Hout : out = Silent ∧ s_armed s1 = s_armed s).
    { inversion Hsp; subst; try done; naive_solver. }
    destruct Hout as [-> Ha]. exists w1. split; [done|]. split; [|by rewrite <- (g_armed _ _ Hg1), Ha, (g_armed _ _ Hg)].
    simpl in Hstep. rewrite Hm in Hstep. destruct (kernel_ok w wt r); [|done]. injection Hstep as Hstep. unfold waited in Hstep.
    apply bind_ok in Hstep as ([o [wt'|]] & _ & Hstep); by injection Hstep as <-.
Qed.

(** *** Concrete runs *)

Definition outputs (z : Z) (es : list event) : option (list output) :=
  match run (initial z) es with Some (Ok (_, outs)) => Some outs | _ => None end.

Lemma outputs_some z es outs : outputs z es = Some outs → ∃ w, run (initial z) es = Some (Ok (w, outs)).
Proof. unfold outputs. destruct (run (initial z) es) as [[[w o]|]|]; [intros [= ->]; by exists w|done..]. Qed.

(** Two timers and two descriptors; the handler of the first descriptor removes the second, of which events were
    reported as well, and a signal interrupts the second wait. *)
Definition demo : list event :=
  [Init_timer 1; Init_timer 2; Set_timer 1 BTIMER_SET_RELATIVE 50; Set_timer 2 BTIMER_SET_ABSOLUTE 20;
   Init_fd 5 7; Init_fd 6 8; Add_fd 5 true; Add_fd 6 true; Set_events 5 BREACTOR_READ; Set_events 6 BREACTOR_WRITE;
   Set_job 9; Return; Run; Return; Run;
   Tick 15; Epoll (Returned [entry (Some 5) EPOLLIN; entry (Some 6) EPOLLOUT]); Run; Remove_fd 6; Return; Run;
   Run; Epoll Interrupted; Tick 20; Epoll (Returned []); Run; Remove_timer 1; Return; Run; Tick 100;
   Epoll (Returned [entry (Some 5) EPOLLHUP]); Run; Quit 3; Return; Run].

Definition demo_outputs : list output :=
  replicate 6 Silent ++ [Value true; Value true] ++ replicate 4 Silent ++
  [Called (Job 9); Silent; Wait_for 20; Silent; Silent; Called (Descriptor 5 BREACTOR_READ); Silent; Silent;
   Called Nothing; Wait_for 5; Wait_for 5; Silent; Silent; Called (Timer 2); Silent; Silent; Wait_for (-1); Silent; Silent;
   Called (Descriptor 5 BREACTOR_HUP); Silent; Silent; Called (Exit 3)].

Lemma reactor_refines_witness : ∃ w' s',
  run (initial 0) demo = Some (Ok (w', demo_outputs)) ∧ spec_run (spec0 0) demo demo_outputs s' ∧ good w' s'.
Proof.
  destruct (outputs_some 0 demo demo_outputs ltac:(vm_compute; reflexivity)) as [w Hrun].
  destruct (reactor_refines 0 demo _ Hrun) as (w' & outs & s' & Heq & Hsp & Hg). injection Heq as <- <-. exists w, s'. by split_and!.
Defined.

(** A timer whose time has passed while the program was busy. *)
Definition late : list event := [Init_timer 1; Init_timer 2; Set_timer 1 BTIMER_SET_ABSOLUTE 20; Set_job 4; Return; Tick 30].

Definition late_state (w : world) : Prop :=
  at_mode w = Loop ∧ exiting (reactor w) = false ∧ armed (timers (reactor w)) !! 1 = Some 20 ∧ clock w = 30.

Lemma reactor_timer_fires_witness : ∃ w,
  run (initial 0) late = Some (Ok (w, replicate 6 Silent)) ∧ late_state w ∧
  ∃ es' w' outs', (length es' ≤ 2 * S (work w))%nat ∧ Forall (λ e, e = Run ∨ e = Return) es' ∧
    run w es' = Some (Ok (w', outs')) ∧ Called (Timer 1) ∈ outs'.
Proof.
  destruct (outputs_some 0 late (replicate 6 Silent) ltac:(vm_compute; reflexivity)) as [w Hrun].
  assert (H : late_state w).
  { assert (H : match run (initial 0) late with Some (Ok (w, _)) => late_state w | _ => True end).
    { vm_compute. by split_and!. }
    by rewrite Hrun in H. }
  pose proof H as (Hm & Hex & Harm & Hc). exists w. split; [done|]. split; [done|].
  pose proof (reactor_timer_fires 0 late w _ 1 20 Hrun Hex Harm ltac:(rewrite Hc; lia)) as Hf. by rewrite Hm in Hf.
Defined.

End ReactorFacts.
