(* ===== verification/Connection.v ===== *)
(** * Stream connections: system/BConnection_unix.c and system/BConnectionGeneric.h

    [BListener] and [BConnector] make connections and [BConnection] carries bytes over one, through a
    StreamPassInterface and a StreamRecvInterface.  All three live in an event loop: they watch a descriptor,
    limit how often they are served in one iteration, and set jobs.  Here they run over the reactor of Reactor.v
    itself: every call goes through [ReactorWorld.step], so that a call that breaks the reactor's rules is a fault.

    - [Sys]: the reactor, the process's descriptors and memory, and the system calls.  What the kernel
      answers is an argument, [kernel].
    - [SysAddr]: socket addresses of the system.
    - [BListener], [BConnector], [BConnection]: the objects' functions and handlers.
    - [ConnectionWorld]: the three objects in a program that follows the rules of BConnection.h, beside any other users
      of the reactor.
    - [ConnectionFacts]: no handler fails; no descriptor leaks, or is closed twice or while it is watched; a direction that is
      busy is watched or about to be served; and the bytes that the kernel takes and gives are those
      that the users send and receive. *)

From S2P Require Import Prelude CMem Addr Pending Reactor.

(** ** The system *)

(** The addresses of the objects inside the three structures. *)
Record layout := Layout {
  listener_bfd : ptr; default_job : ptr;
  connector_bfd : ptr; connector_job : ptr;
  connection_bfd : ptr; send_limit : ptr; recv_limit : ptr; send_job : ptr; recv_job : ptr; err_job : ptr;
}.

Module SysAddr.

Definition MAX_UNIX_SOCKET_PATH : Z := 200.

(** [struct sockaddr] and its variants *)
Inductive sockaddr :=
| Sockaddr_in (sin_port s_addr : Z)
| Sockaddr_in6 (sin6_port sin6_flowinfo : Z) (s6_addr : list Z) (sin6_scope_id : Z)
| Sockaddr_un (sun_path : list Z)
| Sockaddr_other (sa_family : Z).

Record sys_addr := mk { len : Z; addr : sockaddr }.

Definition sizeof_in : Z := 16.
Definition sizeof_in6 : Z := 28.
(** [offsetof(struct sockaddr_un, sun_path)] *)
Definition offset_path : Z := 2.

Definition addr_socket_to_sys (a : BAddr.t) : result sys_addr :=
  match a with
  | BAddr.IPV4 ip port => Ok (mk sizeof_in (Sockaddr_in port ip))
  | BAddr.IPV6 ip port => Ok (mk sizeof_in6 (Sockaddr_in6 port 0 (take 16 ip) 0))
  | _ => Fault AssertFailed
  end.

Definition addr_sys_to_socket (a : sys_addr) : result BAddr.t :=
  match addr a with
  | Sockaddr_in port ip => ASSERT (len a =? sizeof_in) ;; Ok (BAddr.InitIPv4 ip port)
  | Sockaddr_in6 port _ ip _ => ASSERT (len a =? sizeof_in6) ;; Ok (BAddr.InitIPv6 ip port)
  | _ => Ok BAddr.InitNone
  end.

(** [socket_path] without its terminator; [None] when it is too long. *)
Definition build_unix_address (socket_path : list Z) : option sys_addr :=
  let n := Z.of_nat (length socket_path) in
  if MAX_UNIX_SOCKET_PATH <? n then None else Some (mk (offset_path + n + 1) (Sockaddr_un socket_path)).

(** What the system returns as the address of an internet socket has the size of its structure. *)
Definition well_formed (a : sys_addr) : bool :=
  match addr a with
  | Sockaddr_in _ _ => len a =? sizeof_in
  | Sockaddr_in6 _ _ _ _ => len a =? sizeof_in6
  | _ => true
  end.

End SysAddr.

Module Sys.
Import BReactor ReactorWorld SysAddr.

(** The program's reactor with its clock and the kernel's registrations; the descriptors of sockets that are open; how often [close] was called
    with a descriptor that is not one of them, or is still registered; memory; the bytes the
    kernel has taken from the connection and has given to it; the paths given to [unlink]. *)
Record t := mk {
  rx : ReactorWorld.world;
  files : gset Z;
  wrong_closes : nat;
  ram : mem;
  took : list Z;
  gave : list Z;
  unlinks : list (list Z);
}.

Definition set_rx (k : t) (w : ReactorWorld.world) : t :=
  mk w (files k) (wrong_closes k) (ram k) (took k) (gave k) (unlinks k).
Definition set_files (k : t) (f : gset Z) (n : nat) : t :=
  mk (rx k) f n (ram k) (took k) (gave k) (unlinks k).
Definition set_ram (k : t) (m : mem) : t :=
  mk (rx k) (files k) (wrong_closes k) m (took k) (gave k) (unlinks k).
Definition set_bytes (k : t) (tk gv : list Z) : t :=
  mk (rx k) (files k) (wrong_closes k) (ram k) tk gv (unlinks k).

(** A call of the reactor's; one that its rules do not allow is a fault. *)
Definition react (k : t) (e : event) : result (t * output) :=
  match step (rx k) e with
  | Some r => '(w, out) ← r; Ok (set_rx k w, out)
  | None => Fault AssertFailed
  end.

Definition call (k : t) (e : event) : result t := '(k, _) ← react k e; Ok k.

(** [BReactor_AddFileDescriptor], [BReactorLimit_Increment] *)
Definition ask (k : t) (e : event) : result (t * bool) :=
  '(k, out) ← react k e;
  match out with Value b => Ok (k, b) | _ => Fault AssertFailed end.

Definition BPending_IsSet (k : t) (j : ptr) : bool := bool_decide (j ∈ pending_jobs (reactor (rx k))).

(** The results of [write] and [read], of [connect], and what the kernel answers to the calls made from one handler or function.
    The number of bytes written is any from 1 to the number asked for, those read at most as many as asked for,
    none at the end of the stream. *)
Inductive write_result := Wrote (n : Z) | Write_would_block | Write_failed.
Inductive read_result := Read (bs : list Z) | Read_would_block | Read_failed.
Inductive connect_result := Connected | In_progress | Connect_failed.

Record kernel := Kernel {
  on_write : write_result;
  on_read : read_result;
  on_socket : option Z;                  (** [socket]: the new descriptor *)
  on_accept : option (Z * sys_addr);     (** [accept]: the new descriptor and the client's address *)
  on_fcntl : bool;                       (** [fcntl(F_SETFL, O_NONBLOCK)] *)
  on_setsockopt : bool;
  on_so_error : option Z;                (** [getsockopt(SO_ERROR)] *)
  on_bind : sys_addr → bool;
  on_listen : bool;
  on_connect : sys_addr → connect_result;
  on_unlink : list Z → bool;             (** [unlink] succeeds, or fails with ENOENT *)
  on_strdup : bool;                      (** [b_strdup] returns memory *)
  on_strdup_bin : bool;
  on_epoll_add : bool;
}.

Definition open (k : t) (n : Z) : t := set_files k ({[n]} ∪ files k) (wrong_closes k).

Definition close (k : t) (n : Z) : t :=
  if bool_decide (n ∈ files k) && bool_decide (registered (rx k) !! n = None)
  then set_files k (files k ∖ {[n]}) (wrong_closes k)
  else set_files k (files k) (S (wrong_closes k)).

Definition unlink (k : t) (path : list Z) : t :=
  mk (rx k) (files k) (wrong_closes k) (ram k) (took k) (gave k) (unlinks k ++ [path]).

(** A return value, or EAGAIN or EWOULDBLOCK, or another error. *)
Inductive io := Count (n : Z) | Would_block | Failed.

Definition write (k : t) (a : kernel) (d : ptr) (n : Z) : result (t * io) :=
  match on_write a with
  | Wrote c =>
      let c := Z.max 1 (Z.min c n) in
      bs ← load (ram k) d (Z.to_nat c);
      Ok (set_bytes k (took k ++ bs) (gave k), Count c)
  | Write_would_block => Ok (k, Would_block)
  | Write_failed => Ok (k, Failed)
  end.

Definition read (k : t) (a : kernel) (d : ptr) (n : Z) : result (t * io) :=
  match on_read a with
  | Read bs =>
      let bs := take (Z.to_nat n) bs in
      m ← store (ram k) d bs;
      Ok (set_bytes (set_ram k m) (took k) (gave k ++ bs), Count (Z.of_nat (length bs)))
  | Read_would_block => Ok (k, Would_block)
  | Read_failed => Ok (k, Failed)
  end.

End Sys.

(** What the objects call of their users: the listener's and the connector's handlers, the connection's handler with
    [BCONNECTION_EVENT_ERROR] and [BCONNECTION_EVENT_RECVCLOSED], and [Done] of the two interfaces. *)
Inductive upcall :=
| Listener_ready
| Connector_done (is_error : bool)
| Connection_error
| Connection_closed
| Send_done (n : Z)
| Recv_done (n : Z).

Definition AddressSupported (a : BAddr.t) : result bool :=
  _ ← BAddr.Assert a;
  Ok match a with BAddr.IPV4 _ _ | BAddr.IPV6 _ _ => true | _ => false end.

(** ** BListener *)

Module BListener.
Import BReactor ReactorWorld SysAddr Sys.

Section listener.
Context (A : layout).

Record t := mk { unix_socket_path : option (list Z); fd : Z }.

(** From [init BFileDescriptor] to the end; [None] when the descriptor cannot be watched. *)
Definition watch (k : Sys.t) (a : kernel) (path : option (list Z)) (n : Z) : result (option t * Sys.t) :=
  k ← call k (Init_fd (listener_bfd A) n);
  '(k, ok) ← ask k (Add_fd (listener_bfd A) (on_epoll_add a));
  if negb ok then Ok (None, k) else
  k ← call k (Set_events (listener_bfd A) BREACTOR_READ);
  Ok (Some (mk path n), k).

Definition Init (k : Sys.t) (a : kernel) (addr : BAddr.t) : result (option t * Sys.t) :=
  supported ← AddressSupported addr;
  if negb supported then Ok (None, k) else
  sysaddr ← addr_socket_to_sys addr;
  match on_socket a with
  | None => Ok (None, k)
  | Some n =>
      let k := open k n in
      if negb (on_fcntl a) then Ok (None, close k n) else
      if negb (on_bind a sysaddr) then Ok (None, close k n) else
      if negb (on_listen a) then Ok (None, close k n) else
      '(o, k) ← watch k a None n;
      Ok (o, match o with Some _ => k | None => close k n end)
  end.

Definition InitUnix (k : Sys.t) (a : kernel) (socket_path : list Z) : result (option t * Sys.t) :=
  if negb (on_strdup a) then Ok (None, k) else
  match build_unix_address socket_path with
  | None => Ok (None, k)
  | Some sysaddr =>
      match on_socket a with
      | None => Ok (None, k)
      | Some n =>
          let k := open k n in
          if negb (on_fcntl a) then Ok (None, close k n) else
          let k := unlink k socket_path in
          if negb (on_unlink a socket_path) then Ok (None, close k n) else
          if negb (on_bind a sysaddr) then Ok (None, close k n) else
          if negb (on_listen a) then Ok (None, close (unlink k socket_path) n) else
          '(o, k) ← watch k a (Some socket_path) n;
          Ok (o, match o with Some _ => k | None => close (unlink k socket_path) n end)
      end
  end.

Definition Free (o : t) (k : Sys.t) : result Sys.t :=
  k ← call k (Unset_job (default_job A));
  k ← call k (Remove_fd (listener_bfd A));
  let k := close k (fd o) in
  Ok match unix_socket_path o with Some path => unlink k path | None => k end.

Definition listener_fd_handler (k : Sys.t) : result (Sys.t * list upcall) :=
  k ← call k (Set_job (default_job A));
  Ok (k, [Listener_ready]).

(** The connection that was not accepted is discarded. *)
Definition listener_default_job_handler (k : Sys.t) (a : kernel) : Sys.t :=
  match on_accept a with
  | None => k
  | Some (newfd, _) => close (open k newfd) newfd
  end.

End listener.
End BListener.

(** ** BConnector *)

Module BConnector.
Import BReactor ReactorWorld SysAddr Sys.

Section connector.
Context (A : layout).

Record t := mk { fd : Z; connected : bool; have_bfd : bool }.

(** From the result of [socket] to the end of [BConnector_Init] and [BConnector_InitUnix], where the job has been
    initialised; [fail2] and [fail1] are the labels. *)
Definition fail1 (k : Sys.t) : result (option t * Sys.t) :=
  k ← call k (Unset_job (connector_job A)); Ok (None, k).
Definition fail2 (k : Sys.t) (n : Z) : result (option t * Sys.t) := fail1 (close k n).

Definition start (k : Sys.t) (a : kernel) (sysaddr : sys_addr) : result (option t * Sys.t) :=
  match on_socket a with
  | None => fail1 k
  | Some n =>
      let k := open k n in
      if negb (on_fcntl a) then fail2 k n else
      match on_connect a sysaddr with
      | Connect_failed => fail2 k n
      | In_progress =>
          k ← call k (Init_fd (connector_bfd A) n);
          '(k, ok) ← ask k (Add_fd (connector_bfd A) (on_epoll_add a));
          if negb ok then fail2 k n else
          k ← call k (Set_events (connector_bfd A) BREACTOR_WRITE);
          Ok (Some (mk n false true), k)
      | Connected =>
          k ← call k (Set_job (connector_job A));
          Ok (Some (mk n true false), k)
      end
  end.

Definition Init (k : Sys.t) (a : kernel) (addr : BAddr.t) : result (option t * Sys.t) :=
  supported ← AddressSupported addr;
  if negb supported then Ok (None, k) else
  sysaddr ← addr_socket_to_sys addr;
  start k a sysaddr.

Definition InitUnix (k : Sys.t) (a : kernel) (socket_path : list Z) : result (option t * Sys.t) :=
  match build_unix_address socket_path with
  | None => Ok (None, k)
  | Some sysaddr => start k a sysaddr
  end.

Definition Free (o : t) (k : Sys.t) : result Sys.t :=
  k ← (if have_bfd o then call k (Remove_fd (connector_bfd A)) else Ok k);
  let k := if negb (fd o =? -1) then close k (fd o) else k in
  call k (Unset_job (connector_job A)).

Definition connector_fd_handler (o : t) (k : Sys.t) (a : kernel) : result (t * Sys.t * list upcall) :=
  ASSERT (0 <=? fd o) ;;
  ASSERT negb (connected o) ;;
  ASSERT have_bfd o ;;
  k ← call k (Remove_fd (connector_bfd A));
  let ok := match on_so_error a with Some result => result =? 0 | None => false end in
  let o := mk (fd o) (if ok then true else connected o) false in
  Ok (o, k, [Connector_done (negb (connected o))]).

Definition connector_job_handler (o : t) : result (list upcall) :=
  ASSERT (0 <=? fd o) ;;
  ASSERT connected o ;;
  ASSERT negb (have_bfd o) ;;
  Ok [Connector_done false].

End connector.
End BConnector.

(** ** BConnection *)

Module BConnection.
Import BReactor ReactorWorld SysAddr Sys.

Definition BCONNECTION_SEND_LIMIT : Z := 2.
Definition BCONNECTION_RECV_LIMIT : Z := 2.

Inductive send_state := SEND_STATE_NOT_INITED | SEND_STATE_READY | SEND_STATE_BUSY.
Inductive recv_state :=
| RECV_STATE_NOT_INITED | RECV_STATE_READY | RECV_STATE_BUSY | RECV_STATE_INITED_CLOSED | RECV_STATE_NOT_INITED_CLOSED.

#[export] Instance send_state_eq_dec : EqDecision send_state.
Proof. solve_decision. Defined.
#[export] Instance recv_state_eq_dec : EqDecision recv_state.
Proof. solve_decision. Defined.

(** [handler] is whether the handler is not NULL. *)
Record t := mk {
  handler : bool;
  fd : Z;
  close_fd : bool;
  is_hupd : bool;
  wait_events : Z;
  send : send_state;
  send_data : ptr;
  send_len : Z;
  recv : recv_state;
  recv_data : ptr;
  recv_avail : Z;
}.

Definition set_wait (o : t) (evs : Z) : t :=
  mk (handler o) (fd o) (close_fd o) (is_hupd o) evs (send o) (send_data o) (send_len o) (recv o) (recv_data o) (recv_avail o).
Definition set_hupd (o : t) : t :=
  mk (handler o) (fd o) (close_fd o) true (wait_events o) (send o) (send_data o) (send_len o) (recv o) (recv_data o) (recv_avail o).
Definition set_handler (o : t) (b : bool) : t :=
  mk b (fd o) (close_fd o) (is_hupd o) (wait_events o) (send o) (send_data o) (send_len o) (recv o) (recv_data o) (recv_avail o).
Definition set_send (o : t) (s : send_state) (d : ptr) (n : Z) : t :=
  mk (handler o) (fd o) (close_fd o) (is_hupd o) (wait_events o) s d n (recv o) (recv_data o) (recv_avail o).
Definition set_recv (o : t) (s : recv_state) (d : ptr) (n : Z) : t :=
  mk (handler o) (fd o) (close_fd o) (is_hupd o) (wait_events o) (send o) (send_data o) (send_len o) s d n.
Definition set_send_state (o : t) (s : send_state) : t := set_send o s (send_data o) (send_len o).
Definition set_recv_state (o : t) (s : recv_state) : t := set_recv o s (recv_data o) (recv_avail o).

Section connection.
Context (A : layout).

(** [DebugError_AssertNoError(&o->d_err)] *)
Definition no_error (k : Sys.t) : bool := negb (BPending_IsSet k (err_job A)).

(** The job of [d_err] fails an assertion if it is reached. *)
Definition connection_report_error (o : t) (k : Sys.t) : result (t * Sys.t * list upcall) :=
  ASSERT no_error k ;;
  ASSERT handler o ;;
  k ← call k (Set_job (err_job A));
  Ok (o, k, [Connection_error]).

(** [o->wait_events |= ev] and its registration *)
Definition wait_for (o : t) (k : Sys.t) (ev : Z) : result (t * Sys.t * list upcall) :=
  let o := set_wait o (Z.lor (wait_events o) ev) in
  k ← call k (Set_events (connection_bfd A) (wait_events o));
  Ok (o, k, []).

(** [o->is_hupd || BReactorLimit_Increment(..)] *)
Definition within_limit (o : t) (k : Sys.t) (l : ptr) : result (Sys.t * bool) :=
  if is_hupd o then Ok (k, true) else ask k (Increment l).

Definition connection_send (o : t) (k : Sys.t) (a : kernel) : result (t * Sys.t * list upcall) :=
  ASSERT no_error k ;;
  ASSERT bool_decide (send o = SEND_STATE_BUSY) ;;
  '(k, ok) ← within_limit o k (send_limit A);
  if negb ok then wait_for o k BREACTOR_WRITE else
  '(k, r) ← write k a (send_data o) (send_len o);
  match r with
  | Would_block => if is_hupd o then connection_report_error o k else wait_for o k BREACTOR_WRITE
  | Failed => connection_report_error o k
  | Count bytes =>
      ASSERT (0 <? bytes) ;;
      ASSERT (bytes <=? send_len o) ;;
      Ok (set_send_state o SEND_STATE_READY, k, [Send_done bytes])
  end.

Definition connection_recv (o : t) (k : Sys.t) (a : kernel) : result (t * Sys.t * list upcall) :=
  ASSERT no_error k ;;
  ASSERT bool_decide (recv o = RECV_STATE_BUSY) ;;
  '(k, ok) ← within_limit o k (recv_limit A);
  if negb ok then wait_for o k BREACTOR_READ else
  '(k, r) ← read k a (recv_data o) (recv_avail o);
  match r with
  | Would_block => if is_hupd o then connection_report_error o k else wait_for o k BREACTOR_READ
  | Failed => connection_report_error o k
  | Count bytes =>
      if bytes =? 0 then
        (** a NULL handler is called *)
        if negb (handler o) then Fault BadAccess else
        Ok (set_recv_state o RECV_STATE_INITED_CLOSED, k, [Connection_closed])
      else
      ASSERT (0 <? bytes) ;;
      ASSERT (bytes <=? recv_avail o) ;;
      Ok (set_recv_state o RECV_STATE_READY, k, [Recv_done bytes])
  end.

Definition connection_fd_handler (o : t) (k : Sys.t) (a : kernel) (evs : Z) : result (t * Sys.t * list upcall) :=
  ASSERT no_error k ;;
  ASSERT negb (is_hupd o) ;;
  let o := set_wait o (Z.ldiff (wait_events o) evs) in
  k ← call k (Set_events (connection_bfd A) (wait_events o));
  '(o, k) ← (if has evs BREACTOR_HUP then
               k ← call k (Remove_fd (connection_bfd A)); Ok (set_hupd o, k)
             else Ok (o, k));
  let broken := has evs (Z.lor BREACTOR_ERROR BREACTOR_HUP) in
  let have_send := has evs BREACTOR_WRITE || (broken && bool_decide (send o = SEND_STATE_BUSY)) in
  ASSERT negb have_send || bool_decide (send o = SEND_STATE_BUSY) ;;
  let have_recv := has evs BREACTOR_READ || (broken && bool_decide (recv o = RECV_STATE_BUSY)) in
  ASSERT negb have_recv || bool_decide (recv o = RECV_STATE_BUSY) ;;
  if have_send then
    k ← (if have_recv then call k (Set_job (recv_job A)) else Ok k);
    connection_send o k a
  else if have_recv then connection_recv o k a
  else if negb (is_hupd o) then connection_report_error o k
  else Ok (o, k, []).

Definition connection_send_job_handler (o : t) (k : Sys.t) (a : kernel) : result (t * Sys.t * list upcall) :=
  ASSERT no_error k ;;
  ASSERT bool_decide (send o = SEND_STATE_BUSY) ;;
  connection_send o k a.

Definition connection_recv_job_handler (o : t) (k : Sys.t) (a : kernel) : result (t * Sys.t * list upcall) :=
  ASSERT no_error k ;;
  ASSERT bool_decide (recv o = RECV_STATE_BUSY) ;;
  connection_recv o k a.

Definition connection_send_if_handler_send (o : t) (k : Sys.t) (a : kernel) (data : ptr) (data_len : Z)
    : result (t * Sys.t * list upcall) :=
  ASSERT no_error k ;;
  ASSERT bool_decide (send o = SEND_STATE_READY) ;;
  ASSERT (0 <? data_len) ;;
  connection_send (set_send o SEND_STATE_BUSY data data_len) k a.

Definition connection_recv_if_handler_recv (o : t) (k : Sys.t) (a : kernel) (data : ptr) (data_avail : Z)
    : result (t * Sys.t * list upcall) :=
  ASSERT no_error k ;;
  ASSERT bool_decide (recv o = RECV_STATE_READY) ;;
  ASSERT (0 <? data_avail) ;;
  connection_recv (set_recv o RECV_STATE_BUSY data data_avail) k a.

(** [struct BConnection_source]; [out_addr] is whether the address of the client is asked for. *)
Inductive source :=
| Source_listener (listener : BListener.t) (out_addr : bool)
| Source_connector (connector : BConnector.t)
| Source_pipe (pipefd : Z).

Definition source_ok (k : Sys.t) (src : source) : bool :=
  match src with
  | Source_listener _ _ => BPending_IsSet k (default_job A)
  | Source_connector c =>
      (0 <=? BConnector.fd c) && BConnector.connected c && negb (BConnector.have_bfd c) &&
      negb (BPending_IsSet k (connector_job A))
  | Source_pipe n => 0 <=? n
  end.

(** What a call of [BConnection_Init] leaves: the connection unless it failed, the connector of the source, the
    client's address. *)
Record init_result := Init_result {
  made : option t;
  connector : option BConnector.t;
  client : option BAddr.t;
}.

(** From [set not HUPd] to the end; [fail1] is the label. *)
Definition fail1 (k : Sys.t) (n : Z) (close_fd : bool) (c : option BConnector.t) (client : option BAddr.t)
    : result (init_result * Sys.t) :=
  Ok (Init_result None c client, if close_fd then close k n else k).

Definition watch (k : Sys.t) (a : kernel) (n : Z) (close_fd : bool) (c : option BConnector.t) (client : option BAddr.t)
    : result (init_result * Sys.t) :=
  k ← call k (Init_fd (connection_bfd A) n);
  '(k, ok) ← ask k (Add_fd (connection_bfd A) (on_epoll_add a));
  if negb ok then fail1 k n close_fd c client else
  k ← call k (Init_limit (send_limit A) BCONNECTION_SEND_LIMIT);
  k ← call k (Init_limit (recv_limit A) BCONNECTION_RECV_LIMIT);
  Ok (Init_result (Some (mk true n close_fd false 0 SEND_STATE_NOT_INITED NULL 0 RECV_STATE_NOT_INITED NULL 0)) c client, k).

Definition Init (k : Sys.t) (a : kernel) (src : source) : result (init_result * Sys.t) :=
  ASSERT source_ok k src ;;
  match src with
  | Source_listener l out_addr =>
      k ← call k (Unset_job (default_job A));
      match on_accept a with
      | None => Ok (Init_result None None None, k)
      | Some (n, sysaddr) =>
          let k := open k n in
          if negb (on_fcntl a) then fail1 k n true None None else
          addr ← (if out_addr then b ← addr_sys_to_socket sysaddr; Ok (Some b) else Ok None);
          watch k a n true None addr
      end
  | Source_connector c =>
      watch k a (BConnector.fd c) true
        (Some (BConnector.mk (-1) (BConnector.connected c) (BConnector.have_bfd c))) None
  | Source_pipe n =>
      if negb (on_fcntl a) then fail1 k n false None None else
      watch k a n false None None
  end.

Definition Free (o : t) (k : Sys.t) : result Sys.t :=
  k ← call k (Unset_job (err_job A));
  ASSERT bool_decide (send o = SEND_STATE_NOT_INITED) ;;
  ASSERT bool_decide (recv o = RECV_STATE_NOT_INITED) || bool_decide (recv o = RECV_STATE_NOT_INITED_CLOSED) ;;
  k ← call k (Free_limit (recv_limit A));
  k ← call k (Free_limit (send_limit A));
  k ← (if is_hupd o then Ok k else call k (Remove_fd (connection_bfd A)));
  Ok (if close_fd o then close k (fd o) else k).

Definition SetHandlers (o : t) (h : bool) : t := set_handler o h.

Definition SetSendBuffer (o : t) (a : kernel) : bool := on_setsockopt a.

Definition SendAsync_Init (o : t) (k : Sys.t) : result t :=
  ASSERT no_error k ;;
  ASSERT bool_decide (send o = SEND_STATE_NOT_INITED) ;;
  Ok (set_send_state o SEND_STATE_READY).

Definition send_inited (o : t) : bool :=
  bool_decide (send o = SEND_STATE_READY) || bool_decide (send o = SEND_STATE_BUSY).

(** [o->wait_events &= ~ev] and its registration *)
Definition stop_waiting (o : t) (k : Sys.t) (ev : Z) : result (t * Sys.t) :=
  if is_hupd o then Ok (o, k) else
  let o := set_wait o (Z.ldiff (wait_events o) ev) in
  k ← call k (Set_events (connection_bfd A) (wait_events o));
  Ok (o, k).

Definition SendAsync_Free (o : t) (k : Sys.t) : result (t * Sys.t) :=
  ASSERT send_inited o ;;
  '(o, k) ← stop_waiting o k BREACTOR_WRITE;
  k ← call k (Unset_job (send_job A));
  Ok (set_send_state o SEND_STATE_NOT_INITED, k).

Definition RecvAsync_Init (o : t) (k : Sys.t) : result t :=
  ASSERT no_error k ;;
  ASSERT bool_decide (recv o = RECV_STATE_NOT_INITED) ;;
  Ok (set_recv_state o RECV_STATE_READY).

Definition recv_inited (o : t) : bool :=
  bool_decide (recv o = RECV_STATE_READY) || bool_decide (recv o = RECV_STATE_BUSY) ||
  bool_decide (recv o = RECV_STATE_INITED_CLOSED).

Definition RecvAsync_Free (o : t) (k : Sys.t) : result (t * Sys.t) :=
  ASSERT recv_inited o ;;
  '(o, k) ← stop_waiting o k BREACTOR_READ;
  k ← call k (Unset_job (recv_job A));
  Ok (set_recv_state o RECV_STATE_NOT_INITED, k).

End connection.
End BConnection.

(** ** system/BConnectionGeneric.h *)

Module BConnectionGeneric.
Import Sys.

(** [struct BConnection_addr]; a path is the bytes from [str], [len] many. *)
Inductive addr := Addr_baddr (baddr : BAddr.t) | Addr_unix (str : list Z).

Section generic.
Context (A : layout).

Definition no_nul (a : addr) : bool :=
  match a with Addr_baddr _ => true | Addr_unix str => negb (bool_decide (0 ∈ str)) end.

Definition BListener_InitGeneric (k : Sys.t) (a : kernel) (addr : addr) : result (option BListener.t * Sys.t) :=
  ASSERT no_nul addr ;;
  match addr with
  | Addr_baddr baddr => BListener.Init A k a baddr
  | Addr_unix str => if negb (on_strdup_bin a) then Ok (None, k) else BListener.InitUnix A k a str
  end.

Definition BConnector_InitGeneric (k : Sys.t) (a : kernel) (addr : addr) : result (option BConnector.t * Sys.t) :=
  ASSERT no_nul addr ;;
  match addr with
  | Addr_baddr baddr => BConnector.Init A k a baddr
  | Addr_unix str => if negb (on_strdup_bin a) then Ok (None, k) else BConnector.InitUnix A k a str
  end.

End generic.
End BConnectionGeneric.

(** ** The objects in a program *)

Module ConnectionWorld.
Import BReactor ReactorWorld SysAddr Sys BConnection BConnectionGeneric.

(** The objects that are initialised; what is outstanding at the two interfaces, with the bytes to send; the bytes
    that were reported as sent, the contents of the buffers that were reported as received, and everything
    that was reported. *)
Record world := World {
  sys : Sys.t;
  lis : option BListener.t;
  ctr : option BConnector.t;
  conn : option BConnection.t;
  w_send : option (ptr * list Z);
  w_recv : option (ptr * Z);
  sent : list Z;
  received : list Z;
  upcalls : list upcall;
}.

Inductive event :=
| Reactor (e : ReactorWorld.event)      (** the reactor's loop, the kernel, and calls of its other users *)
| Fill (m : mem)                        (** the program writes to memory *)
| Listener_init (addr : addr)
| Listener_free
| Connector_init (addr : addr)
| Connector_free
| From_listener (out_addr : bool)       (** [BConnection_Init] with the three kinds of source *)
| From_connector
| From_pipe (n : Z)
| Connection_free
| Set_handlers (h : bool)
| Send_init | Send_free | Recv_init | Recv_free
| Send (d : ptr) (p : list Z)           (** the interfaces deliver a request *)
| Recv (d : ptr) (n : Z).

Section world.
(** [lone] is whether the kernel may report an error of a descriptor alone; see [error_ok]. *)
Context (A : layout) (lone : bool).

Definition set_sys (w : world) (k : Sys.t) : world :=
  World k (lis w) (ctr w) (conn w) (w_send w) (w_recv w) (sent w) (received w) (upcalls w).
Definition set_lis (w : world) (o : option BListener.t) (k : Sys.t) : world :=
  World k o (ctr w) (conn w) (w_send w) (w_recv w) (sent w) (received w) (upcalls w).
Definition set_ctr (w : world) (o : option BConnector.t) (k : Sys.t) : world :=
  World k (lis w) o (conn w) (w_send w) (w_recv w) (sent w) (received w) (upcalls w).
Definition set_conn (w : world) (o : option BConnection.t) (k : Sys.t) : world :=
  World k (lis w) (ctr w) o (w_send w) (w_recv w) (sent w) (received w) (upcalls w).
Definition set_ports (w : world) (s : option (ptr * list Z)) (r : option (ptr * Z)) : world :=
  World (sys w) (lis w) (ctr w) (conn w) s r (sent w) (received w) (upcalls w).
Definition add_bytes (w : world) (s r : list Z) : world :=
  World (sys w) (lis w) (ctr w) (conn w) (w_send w) (w_recv w) (sent w ++ s) (received w ++ r) (upcalls w).
Definition add_upcall (w : world) (u : upcall) : world :=
  World (sys w) (lis w) (ctr w) (conn w) (w_send w) (w_recv w) (sent w) (received w) (upcalls w ++ [u]).

(** [StreamPassInterface_Done] and [StreamRecvInterface_Done] have the assertions of the interfaces. *)
Definition do_call (w : world) (u : upcall) : result world :=
  let w := add_upcall w u in
  match u with
  | Send_done n =>
      match w_send w with
      | Some (d, p) =>
          ASSERT (0 <? n) && (n <=? Z.of_nat (length p)) ;;
          Ok (add_bytes (set_ports w None (w_recv w)) (take (Z.to_nat n) p) [])
      | None => Fault AssertFailed
      end
  | Recv_done n =>
      match w_recv w with
      | Some (d, l) =>
          ASSERT (0 <? n) && (n <=? l) ;;
          bs ← load (ram (sys w)) d (Z.to_nat n);
          Ok (add_bytes (set_ports w (w_send w) None) [] bs)
      | None => Fault AssertFailed
      end
  | _ => Ok w
  end.

Definition run_conn (w : world) (h : result (BConnection.t * Sys.t * list upcall)) : result world :=
  '(o, k, us) ← h; run_calls do_call (set_conn w (Some o) k) us.

Definition run_ctr (w : world) (h : result (BConnector.t * Sys.t * list upcall)) : result world :=
  '(o, k, us) ← h; run_calls do_call (set_ctr w (Some o) k) us.

(** What other users of the reactor do: not with the objects inside of the three structures, and they watch descriptors of
    their own. *)
Definition my_fds : list ptr := [listener_bfd A; connector_bfd A; connection_bfd A].
Definition my_limits : list ptr := [send_limit A; recv_limit A].
Definition my_jobs : list ptr := [default_job A; connector_job A; send_job A; recv_job A; err_job A].

Definition foreign (k : Sys.t) (e : ReactorWorld.event) : bool :=
  match e with
  | Init_fd p _ | Free_fd p | Remove_fd p | Set_events p _ => bool_decide (p ∉ my_fds)
  | Add_fd p _ =>
      bool_decide (p ∉ my_fds) && from_option (λ b, bool_decide (BReactor.fd b ∉ files k)) true (fds (reactor (rx k)) !! p)
  | Init_limit p _ | Free_limit p | Increment p | Set_limit p _ => bool_decide (p ∉ my_limits)
  | Set_job j | Unset_job j => bool_decide (j ∉ my_jobs)
  | _ => true
  end.

(** An error without a hangup comes with the events that are waited for: Linux reports a socket in error as readable and
    writable.  [lone] drops this; see [connection_lone_error]. *)
Definition error_ok (o : BConnection.t) (evs : Z) : bool :=
  lone || negb (has evs BREACTOR_ERROR) || has evs BREACTOR_HUP || (Z.ldiff (wait_events o) evs =? 0).

(** The handlers the reactor calls.  [None]: the event is not possible, because the program breaks a rule of BConnection.h:
    the connection must be freed in the job closure of an error, that is, before the job of [d_err] is reached, and must have a
    handler. *)
Definition dispatch (w : world) (a : kernel) (out : output) : option (result world) :=
  match out with
  | Called (Descriptor p evs) =>
      if bool_decide (p = connection_bfd A) then
        match conn w with
        | Some o =>
            if handler o && error_ok o evs
            then Some (run_conn w (connection_fd_handler A o (sys w) a evs)) else None
        | None => Some (Fault BadAccess)
        end
      else if bool_decide (p = connector_bfd A) then
        match ctr w with
        | Some o => Some (run_ctr w (BConnector.connector_fd_handler A o (sys w) a))
        | None => Some (Fault BadAccess)
        end
      else if bool_decide (p = listener_bfd A) then
        match lis w with
        | Some o => Some ('(k, us) ← BListener.listener_fd_handler A (sys w); run_calls do_call (set_sys w k) us)
        | None => Some (Fault BadAccess)
        end
      else Some (Ok w)
  | Called (Job j) =>
      if bool_decide (j = err_job A) then None
      else if bool_decide (j = recv_job A) then
        match conn w with
        | Some o => if handler o then Some (run_conn w (connection_recv_job_handler A o (sys w) a)) else None
        | None => Some (Fault BadAccess)
        end
      else if bool_decide (j = send_job A) then
        match conn w with
        | Some o => if handler o then Some (run_conn w (connection_send_job_handler A o (sys w) a)) else None
        | None => Some (Fault BadAccess)
        end
      else if bool_decide (j = connector_job A) then
        match ctr w with
        | Some o => Some (us ← BConnector.connector_job_handler o; run_calls do_call w us)
        | None => Some (Fault BadAccess)
        end
      else if bool_decide (j = default_job A) then
        match lis w with
        | Some o => Some (Ok (set_sys w (BListener.listener_default_job_handler (sys w) a)))
        | None => Some (Fault BadAccess)
        end
      else Some (Ok w)
  | _ => Some (Ok w)
  end.

(** [socket] and [accept] return descriptors that are not in use. *)
Definition fresh (k : Sys.t) (n : Z) : bool :=
  (0 <=? n) && bool_decide (n ∉ files k) && bool_decide (registered (rx k) !! n = None).

Definition answers_ok (k : Sys.t) (a : kernel) : bool :=
  from_option (fresh k) true (on_socket a) &&
  from_option (λ '(n, addr), fresh k n && well_formed addr) true (on_accept a).

Definition disjoint (d n e m : Z) : bool := (d + n <=? e) || (e + m <=? d).

(** The buffers that the interfaces have are not freed, and what is to be sent is not changed. *)
Definition keeps_buffers (w : world) (m : mem) : bool :=
  match w_send w with Some (d, p) => bool_decide (load m d (length p) = Ok p) | None => true end &&
  match w_recv w with Some (d, n) => is_ok_b (load m d (Z.to_nat n)) | None => true end.

Definition addr_ok (a : addr) : bool :=
  match a with Addr_baddr b => is_ok_b (BAddr.Assert b) | Addr_unix str => negb (bool_decide (0 ∈ str)) end.

(** When the program may do something, by the rules of BConnection.h and StreamPassInterface.h. *)
Definition event_ok (w : world) (e : event) : bool :=
  let idle_error := negb (BPending_IsSet (sys w) (err_job A)) in
  match e with
  | Reactor e => foreign (sys w) e
  | Fill m => keeps_buffers w m
  | Listener_init addr => bool_decide (lis w = None) && addr_ok addr
  | Connector_init addr => bool_decide (ctr w = None) && addr_ok addr
  | Listener_free => bool_decide (is_Some (lis w))
  | Connector_free => bool_decide (is_Some (ctr w))
  | From_listener _ => bool_decide (conn w = None) && bool_decide (is_Some (lis w)) && BPending_IsSet (sys w) (default_job A)
  | From_connector =>
      bool_decide (conn w = None) && from_option (λ c, source_ok A (sys w) (Source_connector c)) false (ctr w)
  | From_pipe n => bool_decide (conn w = None) && fresh (sys w) n
  | Connection_free =>
      from_option (λ o, bool_decide (send o = SEND_STATE_NOT_INITED) && bool_decide (recv o = RECV_STATE_NOT_INITED)) false (conn w)
  | Set_handlers _ => bool_decide (is_Some (conn w))
  | Send_init => idle_error && from_option (λ o, bool_decide (send o = SEND_STATE_NOT_INITED)) false (conn w)
  | Recv_init => idle_error && from_option (λ o, bool_decide (recv o = RECV_STATE_NOT_INITED)) false (conn w)
  | Send_free => from_option send_inited false (conn w)
  | Recv_free => from_option recv_inited false (conn w)
  | Send d p =>
      idle_error && from_option (λ o, handler o && bool_decide (send o = SEND_STATE_READY)) false (conn w) &&
      (0 <? length p)%nat && bool_decide (load (ram (sys w)) d (length p) = Ok p) &&
      from_option (λ '(e, n), disjoint d (Z.of_nat (length p)) e n) true (w_recv w)
  | Recv d n =>
      idle_error && from_option (λ o, handler o && bool_decide (recv o = RECV_STATE_READY)) false (conn w) &&
      (0 <? n) && is_ok_b (load (ram (sys w)) d (Z.to_nat n)) &&
      from_option (λ '(e, p), disjoint d n e (Z.of_nat (length p))) true (w_send w)
  end.

Definition run_init (w : world) (src : source) (a : kernel) : result world :=
  '(r, k) ← BConnection.Init A (sys w) a src;
  Ok (set_ctr (set_conn w (made r) k) (match src with Source_connector _ => connector r | _ => ctr w end) k).

(** An object, or [Fault BadAccess] where it is used but does not exist. *)
Definition the {B} (o : option B) : result B := or_fault BadAccess o.

Definition exec (w : world) (a : kernel) (e : event) : option (result world) :=
  match e with
  | Reactor e =>
      match ReactorWorld.step (rx (sys w)) e with
      | Some (Ok (r, out)) =>
          let w := set_sys w (set_rx (sys w) r) in
          if answers_ok (sys w) a then dispatch w a out else None
      | Some (Fault f) => Some (Fault f)
      | None => None
      end
  | Fill m => Some (Ok (set_sys w (set_ram (sys w) m)))
  | Listener_init addr => Some ('(o, k) ← BListener_InitGeneric A (sys w) a addr; Ok (set_lis w o k))
  | Listener_free => Some (o ← the (lis w); k ← BListener.Free A o (sys w); Ok (set_lis w None k))
  | Connector_init addr => Some ('(o, k) ← BConnector_InitGeneric A (sys w) a addr; Ok (set_ctr w o k))
  | Connector_free => Some (o ← the (ctr w); k ← BConnector.Free A o (sys w); Ok (set_ctr w None k))
  | From_listener out_addr => Some (l ← the (lis w); run_init w (Source_listener l out_addr) a)
  | From_connector => Some (c ← the (ctr w); run_init w (Source_connector c) a)
  | From_pipe n => Some (run_init w (Source_pipe n) a)
  | Connection_free => Some (o ← the (conn w); k ← BConnection.Free A o (sys w); Ok (set_conn w None k))
  | Set_handlers h => Some (o ← the (conn w); Ok (set_conn w (Some (SetHandlers o h)) (sys w)))
  | Send_init => Some (o ← the (conn w); o ← SendAsync_Init A o (sys w); Ok (set_conn w (Some o) (sys w)))
  | Recv_init => Some (o ← the (conn w); o ← RecvAsync_Init A o (sys w); Ok (set_conn w (Some o) (sys w)))
  | Send_free =>
      Some (o ← the (conn w); '(o, k) ← SendAsync_Free A o (sys w);
            Ok (set_ports (set_conn w (Some o) k) None (w_recv w)))
  | Recv_free =>
      Some (o ← the (conn w); '(o, k) ← RecvAsync_Free A o (sys w);
            Ok (set_ports (set_conn w (Some o) k) (w_send w) None))
  | Send d p =>
      Some (o ← the (conn w);
            run_conn (set_ports w (Some (d, p)) (w_recv w))
              (connection_send_if_handler_send A o (sys w) a d (Z.of_nat (length p))))
  | Recv d n =>
      Some (o ← the (conn w);
            run_conn (set_ports w (w_send w) (Some (d, n))) (connection_recv_if_handler_recv A o (sys w) a d n))
  end.

(** Everything but the reactor's own events and writes to memory happens in the program, not in the loop. *)
Definition in_program (w : world) (e : event) : bool :=
  match e with
  | Reactor _ | Fill _ => true
  | _ => match at_mode (rx (sys w)) with Program => true | _ => false end
  end.

Definition step (w : world) (ae : kernel * event) : option (result world) :=
  if in_program w ae.2 && event_ok w ae.2 && answers_ok (sys w) ae.1 then exec w ae.1 ae.2 else None.

Abbreviation run := (run_steps step).

Definition initial (z : Z) (m : mem) : world :=
  World (Sys.mk (ReactorWorld.initial z) ∅ 0 m [] [] []) None None None None None [] [] [].

End world.
End ConnectionWorld.

Module ConnectionFacts.
Import BReactor ReactorWorld ReactorFacts SysAddr Sys BConnection BConnectionGeneric ConnectionWorld.

(** *** Calls of the reactor *)

(** For a registered descriptor, the object it is of. *)
Definition owner (w : ReactorWorld.world) : gmap Z ptr := fst <$> registered w.

(** In the program, the reactor keeps its contract. *)
Record st (k : Sys.t) (s : spec) (O : gmap Z ptr) : Prop := {
  st_good : good (rx k) s;
  st_mode : at_mode (rx k) = Program;
  st_owner : owner (rx k) = O;
}.

Lemma call_mode w e w' out : ReactorWorld.call w e = Ok (w', out) → at_mode w' = at_mode w.
Proof.
  destruct e; simpl; intros H; inv_ok; try done;
    repeat match goal with x : _ * _ |- _ => destruct x end; inv_ok; try done;
    repeat match goal with H : context [match ?x with _ => _ end] |- _ => destruct x end; inv_ok; done.
Qed.

Definition owner_after (w : ReactorWorld.world) (e : ReactorWorld.event) (O : gmap Z ptr) : Prop :=
  match e with
  | Add_fd p true => ∃ b, fds (reactor w) !! p = Some b ∧ O = <[BReactor.fd b := p]> (owner w)
  | Remove_fd p => ∃ b, fds (reactor w) !! p = Some b ∧ active b = true ∧ O = delete (BReactor.fd b) (owner w)
  | _ => O = owner w
  end.

Lemma call_owner w s e w' out : good w s → ReactorWorld.call w e = Ok (w', out) → owner_after w e (owner w').
Proof.
  intros Hg. unfold owner. destruct e; simpl; intros H; inv_ok; try done;
    repeat match goal with x : _ * _ |- _ => destruct x end; inv_ok; try done.
  - unfold BReactor_AddFileDescriptor, get_fd in *. destruct (fds (reactor w) !! p) as [u|] eqn:Hu; inv_ok.
    destruct res; simpl in *; inv_ok; [|done]. exists u. split; [done|]. by rewrite fmap_insert.
  - unfold BReactor_RemoveFileDescriptor, get_fd in *. destruct (fds (reactor w) !! p) as [u|] eqn:Hu; inv_ok.
    exists u. split; [done|]. split; [done|].
    assert (e = Ctl_del (BReactor.fd u)) as ->.
    { destruct (epoll_returned_ptr u) as [i|]; [destruct (epoll_results _ !! i)|]; naive_solver. }
    simpl in *. inv_ok. by rewrite fmap_delete.
  - unfold BReactor_SetFileDescriptorEvents, get_fd in *. destruct (fds (reactor w) !! p) as [u|] eqn:Hu; inv_ok.
    destruct (waitEvents u =? evs); inv_ok; [done|]. rewrite fmap_insert. apply insert_id.
    unfold owner. rewrite lookup_fmap, (k_active _ _ (g_kernel _ _ Hg) p u) by done. done.
Qed.

Lemma react_ok k s O e : st k s O → is_call e → call_ok (rx k) e = true →
  ∃ r, react k e = Ok (set_rx k r, (spec_call s e).2) ∧ st (set_rx k r) (spec_call s e).1 (owner r) ∧
    owner_after (rx k) e (owner r).
Proof.
  intros [Hg Hm <-] Hc Hok. destruct (call_good _ _ Hg Hm e Hc Hok) as (r & Hr & Hg').
  exists r. assert (Hs : ReactorWorld.step (rx k) e = Some (ReactorWorld.call (rx k) e)).
  { destruct e; try done; cbn [ReactorWorld.step]; rewrite Hm; by rewrite Hok. }
  unfold react. rewrite Hs, Hr. split; [done|]. split; [|by eapply call_owner].
  split; [done| |done]. simpl. by rewrite (call_mode _ _ _ _ Hr).
Qed.

Lemma call_done k s O e : st k s O → is_call e → call_ok (rx k) e = true →
  (∀ r, owner_after (rx k) e (owner r) → owner r = O) →
  ∃ r, call k e = Ok (set_rx k r) ∧ st (set_rx k r) (spec_call s e).1 O.
Proof.
  intros Hst Hc Hok HO. destruct (react_ok _ _ _ _ Hst Hc Hok) as (r & Hr & Hs & Hr'). exists r.
  unfold call. rewrite Hr. by rewrite <- (HO r Hr').
Qed.

Lemma watched_active k s O p m : st k s O → s_watched s !! p = Some m →
  ∃ b, fds (reactor (rx k)) !! p = Some b ∧ active b = true.
Proof.
  intros [Hg _ _] Hw. rewrite (g_watched _ _ Hg) in Hw. apply lookup_omap_Some in Hw as (b & Ha & Hb).
  exists b. split; [done|]. by destruct (active b).
Qed.

Lemma call_set_events k s O p m evs : st k s O → s_watched s !! p = Some m →
  Z.ldiff evs (Z.lor BREACTOR_READ BREACTOR_WRITE) = 0 →
  ∃ r, call k (Set_events p evs) = Ok (set_rx k r) ∧
    st (set_rx k r) (with_fds s (<[p := evs]> (s_watched s)) (s_reported s)) O.
Proof.
  intros Hst Hw He. destruct (watched_active _ _ _ _ _ Hst Hw) as (b & Hb & Ha).
  eapply (call_done k s O (Set_events p evs)); [done|done| |].
  - simpl. rewrite Hb, He. simpl. by rewrite Ha.
  - intros r ->. apply Hst.
Qed.

Lemma call_set_job k s O j : st k s O →
  ∃ r, call k (Set_job j) = Ok (set_rx k r) ∧ st (set_rx k r) (with_jobs s (job_set j (s_jobs s))) O.
Proof. intros Hst. eapply (call_done k s O (Set_job j)); [done..|]. intros r ->. apply Hst. Qed.

Lemma call_unset_job k s O j : st k s O →
  ∃ r, call k (Unset_job j) = Ok (set_rx k r) ∧ st (set_rx k r) (with_jobs s (job_unset j (s_jobs s))) O.
Proof. intros Hst. eapply (call_done k s O (Unset_job j)); [done..|]. intros r ->. apply Hst. Qed.

Lemma call_init_limit k s O l n : st k s O → s_limits s !! l = None → 0 < n →
  ∃ r, call k (Init_limit l n) = Ok (set_rx k r) ∧ st (set_rx k r) (with_limits s (<[l := mklimit n 0]> (s_limits s))) O.
Proof.
  intros Hst Hl Hn. eapply (call_done k s O (Init_limit l n)); [done..| |intros r ->; apply Hst].
  simpl. rewrite (g_lims _ _ (st_good _ _ _ Hst)) in Hl. rewrite Hl, bool_decide_eq_true_2 by done.
  by apply Z.ltb_lt.
Qed.

Lemma call_free_limit k s O l : st k s O → is_Some (s_limits s !! l) →
  ∃ r, call k (Free_limit l) = Ok (set_rx k r) ∧ st (set_rx k r) (with_limits s (delete l (s_limits s))) O.
Proof.
  intros Hst Hl. eapply (call_done k s O (Free_limit l)); [done..| |intros r ->; apply Hst].
  simpl. rewrite (g_lims _ _ (st_good _ _ _ Hst)) in Hl. by apply bool_decide_eq_true.
Qed.

(** The other limits are unchanged. *)
Lemma ask_increment k s O l : st k s O → is_Some (s_limits s !! l) →
  ∃ r b L, ask k (Increment l) = Ok (set_rx k r, b) ∧ st (set_rx k r) (with_limits s L) O ∧
    ∀ q, is_Some (L !! q) ↔ is_Some (s_limits s !! q).
Proof.
  intros Hst [x Hl]. destruct (react_ok k s O (Increment l) Hst) as (r & Hr & Hs & Hr').
  - done.
  - simpl. rewrite (g_lims _ _ (st_good _ _ _ Hst)) in Hl. rewrite Hl. by apply bool_decide_eq_true.
  - simpl in *. rewrite Hl in *. rewrite Hr' in Hs. rewrite (st_owner _ _ _ Hst) in Hs. unfold ask. rewrite Hr.
    destruct (count x <? limit x); simpl in *; do 3 eexists; (split; [done|]); (split; [try exact Hs|]).
    + intros q. destruct (decide (q = l)) as [->|]; [rewrite lookup_insert_eq, Hl; naive_solver|by rewrite lookup_insert_ne].
    + instantiate (1 := s_limits s). by destruct s.
    + done.
Qed.

Lemma call_remove k s O p n : st k s O → O !! n = Some p →
  ∃ r, call k (Remove_fd p) = Ok (set_rx k r) ∧
    st (set_rx k r) (with_fds s (delete p (s_watched s)) (delete p (s_reported s))) (delete n O).
Proof.
  intros Hst Hn. pose proof (st_owner _ _ _ Hst) as HO. rewrite <- HO in Hn. unfold owner in Hn.
  rewrite lookup_fmap in Hn. destruct (registered (rx k) !! n) as [[p' evs]|] eqn:Hr; [|done]. simpl in Hn. simplify_eq.
  destruct (k_registered _ _ (g_kernel _ _ (st_good _ _ _ Hst)) _ _ _ Hr) as (b & Hb & Ha & Hf).
  destruct (react_ok k s _ (Remove_fd p) Hst) as (r & Hr1 & Hs & b' & Hb' & _ & Ho).
  - done.
  - simpl. rewrite Hb. simpl. by rewrite Ha.
  - exists r. unfold call. rewrite Hr1. split; [done|]. simplify_eq. simpl in Hs. by rewrite Ho in Hs.
Qed.

(** [BFileDescriptor_Init] and [BReactor_AddFileDescriptor] *)
Lemma call_watch k s O p n res : st k s O → s_watched s !! p = None → O !! n = None →
  ∃ r1 r2, call k (Init_fd p n) = Ok (set_rx k r1) ∧ ask (set_rx k r1) (Add_fd p res) = Ok (set_rx k r2, res) ∧
    st (set_rx k r2) (if res then with_fds s (<[p := 0]> (s_watched s)) (s_reported s) else s)
      (if res then <[n := p]> O else O).
Proof.
  intros Hst Hw Hn.
  assert (Hcl : ∀ b, fds (reactor (rx k)) !! p = Some b → active b = false).
  { intros b Hb. rewrite (g_watched _ _ (st_good _ _ _ Hst)), (watched_lookup _ _ _ Hb) in Hw. by destruct (active b). }
  destruct (react_ok k s O (Init_fd p n) Hst) as (r1 & Hr1 & Hs1 & Ho1); [done| |].
  { simpl. destruct (fds (reactor (rx k)) !! p) as [b|] eqn:Hb; [|done]. simpl. by rewrite (Hcl b). }
  simpl in Hs1, Ho1, Hr1. rewrite Ho1 in Hs1.
  assert (Hfd : fds (reactor r1) !! p = Some (bfd n false (from_option waitEvents 0 (fds (reactor (rx k)) !! p))
    (b ← fds (reactor (rx k)) !! p; epoll_returned_ptr b))).
  { unfold react in Hr1. simpl in Hr1. rewrite (st_mode _ _ _ Hst) in Hr1. case_if; [|done]. simpl in Hr1.
    injection Hr1 as <-. simpl. by rewrite lookup_insert_eq. }
  assert (Hreg : registered r1 !! n = None).
  { unfold owner in Ho1. assert (H : (fst <$> registered r1) !! n = None).
    { rewrite Ho1. fold (owner (rx k)). by rewrite (st_owner _ _ _ Hst). }
    rewrite lookup_fmap in H. by destruct (registered r1 !! n). }
  destruct (react_ok (set_rx k r1) s (owner (rx k)) (Add_fd p res) Hs1) as (r2 & Hr2 & Hs2 & Ho2); [done| |].
  { simpl. rewrite Hfd. simpl. rewrite Hreg. by destruct res. }
  simpl in *. exists r1, r2. unfold call, ask. rewrite Hr1, Hr2. simpl. split; [done|].
  destruct res; simpl in *.
  - split; [done|]. destruct Ho2 as (b & Hb & Ho2). simplify_eq. simpl in *.
    rewrite Ho2 in Hs2. rewrite Ho1, (st_owner _ _ _ Hst) in Hs2. done.
  - split; [done|]. rewrite Ho2, Ho1, (st_owner _ _ _ Hst) in Hs2. done.
Qed.

(** *** The invariant *)

Record distinct (A : layout) : Prop := {
  distinct_fds : NoDup (my_fds A);
  distinct_limits : NoDup (my_limits A);
  distinct_jobs : NoDup (my_jobs A);
}.

(** What events a connection watches: to write while it is to send, to read while it is to receive. *)
Definition mask (to_send to_recv : bool) : Z :=
  (if to_send then BREACTOR_WRITE else 0) + (if to_recv then BREACTOR_READ else 0).

Section invariant.
Context (A : layout) (HA : distinct A).

(** The other objects' descriptors [P], jobs [Q] and free descriptors [fs] are as before. *)
Record beside (P Q : list ptr) (fs : list Z) (s : spec) (O : gmap Z ptr) (s' : spec) (O' : gmap Z ptr) : Prop := {
  bs_watched p : p ∈ P → s_watched s' !! p = s_watched s !! p;
  bs_jobs j : j ∈ Q → (j ∈ s_jobs s' ↔ j ∈ s_jobs s);
  bs_owner n p : p ∈ P → O !! n = Some p → O' !! n = Some p;
  bs_free n : n ∈ fs → O !! n = None → O' !! n = None;
  bs_nodup : NoDup (s_jobs s) → NoDup (s_jobs s');
}.

Definition lis_ok (s : spec) (O : gmap Z ptr) (o : option BListener.t) : Prop :=
  match o with
  | None => s_watched s !! listener_bfd A = None ∧ default_job A ∉ s_jobs s
  | Some l => s_watched s !! listener_bfd A = Some BREACTOR_READ ∧ O !! BListener.fd l = Some (listener_bfd A)
  end.

(** Waiting for the connection, or it is known whether it is established, or a connection has taken the descriptor. *)
Definition ctr_ok (s : spec) (O : gmap Z ptr) (o : option BConnector.t) : Prop :=
  match o with
  | None => s_watched s !! connector_bfd A = None ∧ connector_job A ∉ s_jobs s
  | Some c =>
      if BConnector.have_bfd c then
        0 ≤ BConnector.fd c ∧ BConnector.connected c = false ∧ s_watched s !! connector_bfd A = Some BREACTOR_WRITE ∧
        O !! BConnector.fd c = Some (connector_bfd A) ∧ connector_job A ∉ s_jobs s
      else
        s_watched s !! connector_bfd A = None ∧
        (BConnector.fd c = -1 ∧ connector_job A ∉ s_jobs s ∨
         0 ≤ BConnector.fd c ∧ O !! BConnector.fd c = None ∧
           (connector_job A ∈ s_jobs s → BConnector.connected c = true))
  end.

(** In the list of jobs, that of the error comes before that of receiving, so that the latter does not run
    if the connection is freed in time. *)
Fixpoint shielded (js : list ptr) : Prop :=
  match js with [] => True | j :: js => j = err_job A ∨ (j ≠ recv_job A ∧ shielded js) end.

Definition send_port (m : mem) (o : BConnection.t) (ws : option (ptr * list Z)) : Prop :=
  match send o with
  | SEND_STATE_BUSY =>
      ∃ p, ws = Some (send_data o, p) ∧ send_len o = Z.of_nat (length p) ∧ 0 < send_len o ∧ holds_at m (send_data o) p
  | _ => ws = None
  end.

Definition recv_port (m : mem) (o : BConnection.t) (wr : option (ptr * Z)) : Prop :=
  match recv o with
  | RECV_STATE_BUSY => wr = Some (recv_data o, recv_avail o) ∧ 0 < recv_avail o ∧ mapped m (recv_data o) (recv_avail o)
  | RECV_STATE_INITED_CLOSED => is_Some wr
  | RECV_STATE_NOT_INITED_CLOSED => False
  | _ => wr = None
  end.

(** Everything about the connection but for what it waits for. *)
Record mid (s : spec) (O : gmap Z ptr) (m : mem) (o : BConnection.t) (ws : option (ptr * list Z)) (wr : option (ptr * Z)) : Prop := {
  m_limits l : l ∈ my_limits A → is_Some (s_limits s !! l);
  m_fd : if is_hupd o then s_watched s !! connection_bfd A = None ∧ (close_fd o = true → O !! fd o = None)
         else s_watched s !! connection_bfd A = Some (wait_events o) ∧ O !! fd o = Some (connection_bfd A);
  m_wait : Z.ldiff (wait_events o) (Z.lor BREACTOR_READ BREACTOR_WRITE) = 0;
  m_order : err_job A ∈ s_jobs s → shielded (s_jobs s);
  m_send_job : send_job A ∉ s_jobs s;
  m_recv_job : recv_job A ∈ s_jobs s → recv o = RECV_STATE_BUSY;
  m_send : send_port m o ws;
  m_recv : recv_port m o wr;
  m_disjoint d p e n : ws = Some (d, p) → wr = Some (e, n) → disjoint d (Z.of_nat (length p)) e n = true;
}.

(** Once the descriptor is not watched any more nothing waits. *)
Definition waits (o : BConnection.t) (to_send to_recv : bool) : Prop :=
  if is_hupd o then to_send = false ∧ to_recv = false else wait_events o = mask to_send to_recv.

Definition sending (o : BConnection.t) : bool := bool_decide (send o = SEND_STATE_BUSY).
Definition receiving (s : spec) (o : BConnection.t) : bool :=
  bool_decide (recv o = RECV_STATE_BUSY) && bool_decide (recv_job A ∉ s_jobs s).

Record conn_ok (s : spec) (O : gmap Z ptr) (m : mem) (o : BConnection.t) (ws : option (ptr * list Z)) (wr : option (ptr * Z)) : Prop := {
  co_mid : mid s O m o ws wr;
  co_waits : err_job A ∉ s_jobs s → waits o (sending o) (receiving s o);
}.

Record no_conn (s : spec) (ws : option (ptr * list Z)) (wr : option (ptr * Z)) : Prop := {
  nc_fd : s_watched s !! connection_bfd A = None;
  nc_limits l : l ∈ my_limits A → s_limits s !! l = None;
  nc_jobs j : j ∈ [send_job A; recv_job A; err_job A] → j ∉ s_jobs s;
  nc_send : ws = None;
  nc_recv : wr = None;
}.

Definition own_lis (o : option BListener.t) : list Z := match o with Some l => [BListener.fd l] | None => [] end.
Definition own_ctr (o : option BConnector.t) : list Z :=
  match o with Some c => if BConnector.fd c =? -1 then [] else [BConnector.fd c] | None => [] end.
Definition own_conn (o : option BConnection.t) : list Z :=
  match o with Some o => if close_fd o then [fd o] else [] | None => [] end.
Definition owned (w : world) : list Z := own_lis (lis w) ++ own_ctr (ctr w) ++ own_conn (conn w).

Record base (w : world) (s : spec) : Prop := {
  b_good : good (rx (sys w)) s;
  b_jobs : NoDup (s_jobs s);
  b_lis : lis_ok s (owner (rx (sys w))) (lis w);
  b_ctr : ctr_ok s (owner (rx (sys w))) (ctr w);
  b_files : files (sys w) = list_to_set (owned w);
  b_nodup : NoDup (owned w);
  b_wrong : wrong_closes (sys w) = 0%nat;
  b_sent : sent w = took (sys w);
  b_received : received w = gave (sys w);
}.

Definition conn_inv (w : world) (s : spec) : Prop :=
  match conn w with
  | Some o => conn_ok s (owner (rx (sys w))) (ram (sys w)) o (w_send w) (w_recv w)
  | None => no_conn s (w_send w) (w_recv w)
  end.

Definition inv (w : world) : Prop := ∃ s, base w s ∧ conn_inv w s.

(** *** Frames *)

Lemma fds_ne : listener_bfd A ≠ connector_bfd A ∧ listener_bfd A ≠ connection_bfd A ∧ connector_bfd A ≠ connection_bfd A.
Proof. pose proof (distinct_fds _ HA) as H. unfold my_fds in H. rewrite !NoDup_cons in H. set_solver. Qed.

Lemma limits_ne : send_limit A ≠ recv_limit A.
Proof. pose proof (distinct_limits _ HA) as H. unfold my_limits in H. rewrite !NoDup_cons in H. set_solver. Qed.

Lemma jobs_ne :
  (default_job A ∉ [connector_job A; send_job A; recv_job A; err_job A]) ∧
  (connector_job A ∉ [send_job A; recv_job A; err_job A]) ∧ (send_job A ∉ [recv_job A; err_job A]) ∧ (recv_job A ∉ [err_job A]).
Proof. pose proof (distinct_jobs _ HA) as H. unfold my_jobs in H. rewrite !NoDup_cons in H. naive_solver. Qed.

Lemma lis_frame P Q fs s O s' O' o : beside P Q fs s O s' O' → listener_bfd A ∈ P → default_job A ∈ Q →
  lis_ok s O o → lis_ok s' O' o.
Proof.
  intros [Hw Hj Ho Hf _] HP HQ. unfold lis_ok. rewrite (Hw _ HP). destruct o; intros [H1 H2]; (split; [done|]).
  - by apply Ho.
  - by rewrite (Hj _ HQ).
Qed.

Lemma ctr_frame P Q fs s O s' O' o : beside P Q fs s O s' O' → connector_bfd A ∈ P → connector_job A ∈ Q →
  (∀ n, n ∈ own_ctr o → n ∈ fs) → ctr_ok s O o → ctr_ok s' O' o.
Proof.
  intros [Hw Hj Ho Hf _] HP HQ Hfs. unfold ctr_ok. rewrite (Hw _ HP). destruct o as [c|]; [|by rewrite (Hj _ HQ)].
  simpl in Hfs. destruct (BConnector.have_bfd c); rewrite (Hj _ HQ).
  - intros (H1 & H2 & H3 & H4 & H5). split_and!; try done. by apply Ho.
  - intros (H1 & [?|(H2 & H3 & H4)]); (split; [done|]); [by left|]. right. split; [done|]. split; [|done].
    apply Hf; [|done]. apply Hfs. rewrite (proj2 (Z.eqb_neq _ _)) by lia. by apply list_elem_of_singleton.
Qed.

Lemma shielded_unset j js : j ≠ err_job A → shielded js → shielded (job_unset j js).
Proof.
  intros Hj. induction js as [|x js IH]; [done|]. intros Hs. unfold job_unset. rewrite filter_cons.
  destruct Hs as [->|[Hx Hs]].
  - rewrite decide_True by done. by left.
  - case_decide; [right; split; [done|]|]; by apply IH.
Qed.

Lemma shielded_set j js : j ≠ recv_job A → j ≠ err_job A → shielded js → shielded (job_set j js).
Proof. intros H1 H2 Hs. right. split; [done|]. by apply shielded_unset. Qed.

(** The same for the connection, with its limits and the order of its jobs. *)
Record beside_conn (s s' : spec) : Prop := {
  bc_limits l : l ∈ my_limits A → (is_Some (s_limits s' !! l) ↔ is_Some (s_limits s !! l));
  bc_order : shielded (s_jobs s) → shielded (s_jobs s');
}.

Lemma mid_frame P Q fs s O s' O' m o ws wr : beside P Q fs s O s' O' → beside_conn s s' → connection_bfd A ∈ P →
  (∀ j, j ∈ [send_job A; recv_job A; err_job A] → j ∈ Q) → (∀ n, n ∈ own_conn (Some o) → n ∈ fs) →
  mid s O m o ws wr → mid s' O' m o ws wr.
Proof.
  intros [Hw Hj Ho Hf _] [Hl Hs] HP HQ Hfs [H1 H2 H3 H4 H5 H6 H7 H8 H9]. split; try done.
  - intros l Hin. by apply Hl, H1.
  - rewrite (Hw _ HP). destruct (is_hupd o).
    + destruct H2 as [H2 H2']. split; [done|]. intros Hc. apply Hf; [|by apply H2']. apply Hfs. simpl. rewrite Hc.
      by apply list_elem_of_singleton.
    + destruct H2 as [H2 H2']. split; [done|]. by apply Ho.
  - rewrite Hj by (apply HQ; set_solver). auto.
  - rewrite Hj by (apply HQ; set_solver). done.
  - rewrite Hj by (apply HQ; set_solver). done.
Qed.

Lemma conn_frame P Q fs s O s' O' m o ws wr : beside P Q fs s O s' O' → beside_conn s s' → connection_bfd A ∈ P →
  (∀ j, j ∈ [send_job A; recv_job A; err_job A] → j ∈ Q) → (∀ n, n ∈ own_conn (Some o) → n ∈ fs) →
  conn_ok s O m o ws wr → conn_ok s' O' m o ws wr.
Proof.
  intros Hb Hc HP HQ Hfs [Hm Hw]. split; [by eapply mid_frame|].
  rewrite (bs_jobs _ _ _ _ _ _ _ Hb) by (apply HQ; set_solver). intros He. specialize (Hw He).
  replace (receiving s' o) with (receiving s o); [done|]. unfold receiving. f_equal. apply bool_decide_ext.
  by rewrite (bs_jobs _ _ _ _ _ _ _ Hb) by (apply HQ; set_solver).
Qed.

Lemma no_conn_frame P Q fs s O s' O' ws wr : beside P Q fs s O s' O' → beside_conn s s' → connection_bfd A ∈ P →
  (∀ j, j ∈ [send_job A; recv_job A; err_job A] → j ∈ Q) → no_conn s ws wr → no_conn s' ws wr.
Proof.
  intros [Hw Hj Ho Hf _] [Hl Hs] HP HQ [H1 H2 H3 H4 H5]. split; try done.
  - by rewrite (Hw _ HP).
  - intros l Hin. apply eq_None_not_Some. rewrite Hl by done. apply eq_None_not_Some. auto.
  - intros j Hin. rewrite (Hj j) by by apply HQ. auto.
Qed.

Section beside_calls.
Context (P Q : list ptr) (fs : list Z) (s : spec) (O : gmap Z ptr).

Lemma beside_refl : beside P Q fs s O s O.
Proof. by split. Qed.

Lemma beside_trans s1 O1 s2 O2 : beside P Q fs s O s1 O1 → beside P Q fs s1 O1 s2 O2 → beside P Q fs s O s2 O2.
Proof.
  intros [H1 H2 H3 H4 H5] [G1 G2 G3 G4 G5]. split; auto.
  - intros p Hp. by rewrite G1, H1.
  - intros j Hj. by rewrite G2, H2.
Qed.

Lemma beside_fds p evs R : p ∉ P → beside P Q fs s O (with_fds s (<[p := evs]> (s_watched s)) R) O.
Proof. intros Hp. split; simpl; try done. intros q Hq. rewrite lookup_insert_ne; [done|]. by intros ->. Qed.

Lemma beside_add p n evs R : p ∉ P → n ∉ fs → O !! n = None →
  beside P Q fs s O (with_fds s (<[p := evs]> (s_watched s)) R) (<[n := p]> O).
Proof.
  intros Hp Hn HO. split; simpl; try done.
  - intros q Hq. rewrite lookup_insert_ne; [done|]. by intros ->.
  - intros n' q Hq H. rewrite lookup_insert_ne; [done|]. intros ->. by rewrite HO in H.
  - intros n' Hn' H. rewrite lookup_insert_ne; [done|]. by intros ->.
Qed.

Lemma beside_remove p n R : p ∉ P → O !! n = Some p →
  beside P Q fs s O (with_fds s (delete p (s_watched s)) R) (delete n O).
Proof.
  intros Hp HO. split; simpl; try done.
  - intros q Hq. rewrite lookup_delete_ne; [done|]. by intros ->.
  - intros n' q Hq H. rewrite lookup_delete_ne; [done|]. intros ->. naive_solver.
  - intros n' Hn' H. by apply lookup_delete_None; right.
Qed.

Lemma beside_job_set j : j ∉ Q → beside P Q fs s O (with_jobs s (job_set j (s_jobs s))) O.
Proof. intros Hj. split; simpl; auto with csem. intros i Hi. rewrite elem_of_job_set. naive_solver. Qed.

Lemma beside_job_unset j : j ∉ Q → beside P Q fs s O (with_jobs s (job_unset j (s_jobs s))) O.
Proof. intros Hj. split; simpl; auto with csem. intros i Hi. rewrite elem_of_job_unset. naive_solver. Qed.

Lemma beside_limits L : beside P Q fs s O (with_limits s L) O.
Proof. by split. Qed.

End beside_calls.

(** What concerns the listener and the connector. *)
Abbreviation others := (beside [listener_bfd A; connector_bfd A] [default_job A; connector_job A]).

Lemma conn_bfd_other : connection_bfd A ∉ [listener_bfd A; connector_bfd A].
Proof. pose proof fds_ne. set_solver. Qed.

Lemma conn_job_other j : j ∈ [send_job A; recv_job A; err_job A] → j ∉ [default_job A; connector_job A].
Proof.
  destruct jobs_ne as (H1 & H2 & _). intros Hj Hin.
  rewrite elem_of_cons, list_elem_of_singleton in Hin. destruct Hin as [->| ->]; [|done]. apply H1. by apply list_elem_of_further.
Qed.

Lemma base_next w s k s' O' o ws wr sn rc us :
  base w s → others (own_lis (lis w) ++ own_ctr (ctr w)) s (owner (rx (sys w))) s' O' → st k s' O' →
  files k = files (sys w) → wrong_closes k = wrong_closes (sys w) → own_conn (conn w) = own_conn o →
  sn = took k → rc = gave k → base (World k (lis w) (ctr w) o ws wr sn rc us) s'.
Proof.
  intros [H1 HJ H2 H3 H4 H5 H6 H7 H8] Hb [G1 G2 <-] Hf Hw Ho Hs Hr. unfold owned in *.
  split; simpl; unfold owned; simpl; rewrite <- ?Ho; try done.
  - by apply (bs_nodup _ _ _ _ _ _ _ Hb).
  - eapply lis_frame; [done|set_solver+..|done].
  - eapply ctr_frame; [done|set_solver+..| |done]. intros n Hn. apply elem_of_app. by right.
  - by rewrite Hf.
  - by rewrite Hw.
Qed.

Lemma no_error_true k s O : st k s O → err_job A ∉ s_jobs s → no_error A k = true.
Proof.
  intros Hst He. unfold no_error, BPending_IsSet. rewrite <- (g_jobs _ _ (st_good _ _ _ Hst)).
  by rewrite bool_decide_eq_false_2.
Qed.

(** *** The connection's state *)

Lemma mid_set_wait s O m o ws wr evs R : mid s O m o ws wr → is_hupd o = false →
  Z.ldiff evs (Z.lor BREACTOR_READ BREACTOR_WRITE) = 0 →
  mid (with_fds s (<[connection_bfd A := evs]> (s_watched s)) R) O m (set_wait o evs) ws wr.
Proof.
  intros [H1 H2 H3 H4 H5 H6 H7 H8 H9] Hh He. rewrite Hh in H2. split; simpl; try done.
  rewrite Hh, lookup_insert_eq. naive_solver.
Qed.

Lemma mid_report s O m o ws wr : mid s O m o ws wr → mid (with_jobs s (job_set (err_job A) (s_jobs s))) O m o ws wr.
Proof.
  intros [H1 H2 H3 H4 H5 H6 H7 H8 H9]. destruct jobs_ne as (_ & _ & Hs & Hr). split; simpl; try done.
  - intros _. by left.
  - rewrite elem_of_job_set. set_solver.
  - rewrite elem_of_job_set. set_solver.
Qed.

Lemma mid_send s O m o ws wr st' d n ws' :
  mid s O m o ws wr → send_port m (set_send o st' d n) ws' →
  (∀ d p e n, ws' = Some (d, p) → wr = Some (e, n) → disjoint d (Z.of_nat (length p)) e n = true) →
  mid s O m (set_send o st' d n) ws' wr.
Proof. intros [H1 H2 H3 H4 H5 H6 H7 H8 H9] Hp Hd. by split. Qed.

Lemma mid_recv s O m o ws wr st' d n wr' :
  mid s O m o ws wr → recv_port m (set_recv o st' d n) wr' → (recv_job A ∈ s_jobs s → st' = RECV_STATE_BUSY) →
  (∀ d p e n, ws = Some (d, p) → wr' = Some (e, n) → disjoint d (Z.of_nat (length p)) e n = true) →
  mid s O m (set_recv o st' d n) ws wr'.
Proof. intros [H1 H2 H3 H4 H5 H6 H7 H8 H9] Hp Hj Hd. by split. Qed.

(** A read leaves what is to be sent as it is. *)
Lemma mid_store s O m o ws wr d bs m' :
  mid s O m o ws wr → wr = Some (d, recv_avail o) → Z.of_nat (length bs) ≤ recv_avail o → store m d bs = Ok m' →
  mid s O m' o ws wr.
Proof.
  intros [H1 H2 H3 H4 H5 H6 H7 H8 H9] Hwr Hl Hst. split; try done.
  - unfold send_port in *. destruct (send o); try done. destruct H7 as (p & -> & Hlen & Hpos & Hh).
    exists p. split_and!; try done. eapply store_frame; [done|done|].
    pose proof (H9 _ _ _ _ eq_refl Hwr) as Hd. unfold disjoint in Hd. apply orb_true_iff in Hd as [Hd%Z.leb_le|Hd%Z.leb_le]; lia.
  - unfold recv_port in *. destruct (recv o); try done. destruct H8 as (-> & Hpos & Hm). split_and!; try done.
    by eapply store_mapped.
Qed.

Lemma sys_write_ok k a d p : holds_at (ram k) d p → 0 < Z.of_nat (length p) →
  ∃ r, write k a d (Z.of_nat (length p)) = r ∧
    (r = Ok (k, Would_block) ∨ r = Ok (k, Failed) ∨
     ∃ c, 0 < c ≤ Z.of_nat (length p) ∧ r = Ok (set_bytes k (took k ++ take (Z.to_nat c) p) (gave k), Count c)).
Proof.
  intros Hh Hp. eexists. split; [done|]. unfold write. destruct (on_write a) as [c| |]; [|by left|by right; left].
  right. right. exists (Z.max 1 (Z.min c (Z.of_nat (length p)))). split; [lia|].
  rewrite (proj2 (load_ok (ram k) d _ (take (Z.to_nat (Z.max 1 (Z.min c (Z.of_nat (length p))))) p))); [done|].
  split; [rewrite length_take; lia|]. by apply holds_at_take.
Qed.

Lemma sys_read_ok k a d n : mapped (ram k) d n → 0 < n →
  ∃ r, read k a d n = r ∧
    (r = Ok (k, Would_block) ∨ r = Ok (k, Failed) ∨
     ∃ bs m, Z.of_nat (length bs) ≤ n ∧ store (ram k) d bs = Ok m ∧
       r = Ok (set_bytes (set_ram k m) (took k) (gave k ++ bs), Count (Z.of_nat (length bs)))).
Proof.
  intros Hm Hn. eexists. split; [done|]. unfold read. destruct (on_read a) as [bs| |]; [|by left|by right; left].
  right. right. assert (Hl : Z.of_nat (length (take (Z.to_nat n) bs)) ≤ n) by (rewrite length_take; lia).
  destruct (store_mapped_ok (ram k) d (take (Z.to_nat n) bs)) as [m Hst].
  { eapply mapped_sub; [done|lia|lia]. }
  exists (take (Z.to_nat n) bs), m. rewrite Hst. by split_and!.
Qed.

Lemma within_limit_ok k s O o l : st k s O → is_Some (s_limits s !! l) →
  ∃ r b L, within_limit o k l = Ok (set_rx k r, b) ∧ st (set_rx k r) (with_limits s L) O ∧
    (∀ q, is_Some (L !! q) ↔ is_Some (s_limits s !! q)) ∧ (is_hupd o = true → b = true).
Proof.
  intros Hst Hl. unfold within_limit. destruct (is_hupd o).
  - exists (rx k), true, (s_limits s). split; [by destruct k|]. split; [|done]. destruct k, s. done.
  - destruct (ask_increment _ _ _ _ Hst Hl) as (r & b & L & H1 & H2 & H3). exists r, b, L. by split_and!.
Qed.

Lemma mid_limits s O m o ws wr L : mid s O m o ws wr → (∀ q, is_Some (L !! q) ↔ is_Some (s_limits s !! q)) →
  mid (with_limits s L) O m o ws wr.
Proof. intros [H1 H2 H3 H4 H5 H6 H7 H8 H9] HL. split; simpl; try done. intros l Hl. by apply HL, H1. Qed.

(** *** What a handler of the connection is called with *)

(** The world in a handler, where [o] is the connection so far. *)
Record within (w : world) (s : spec) (o : BConnection.t) : Prop := {
  in_base : base w s;
  in_mode : at_mode (rx (sys w)) = Program;
  in_own : own_conn (conn w) = own_conn (Some o);
  in_mid : mid s (owner (rx (sys w))) (ram (sys w)) o (w_send w) (w_recv w);
  in_handler : handler o = true;
  in_error : err_job A ∉ s_jobs s;
}.

Lemma in_st w s o : within w s o → st (sys w) s (owner (rx (sys w))).
Proof. intros [H1 H2 _ _ _ _]. split; [by apply H1|done|done]. Qed.

Lemma in_no_error w s o : within w s o → no_error A (sys w) = true.
Proof. intros H. eapply no_error_true; [by eapply in_st|apply H]. Qed.

(** The calls that the handlers make of the reactor. *)
Lemma within_next w s o r s' : within w s o → st (set_rx (sys w) r) s' (owner r) →
  others (own_lis (lis w) ++ own_ctr (ctr w)) s (owner (rx (sys w))) s' (owner r) → ∀ o', own_conn (Some o') = own_conn (Some o) →
  handler o' = true → mid s' (owner r) (ram (sys w)) o' (w_send w) (w_recv w) → err_job A ∉ s_jobs s' →
  within (set_sys w (set_rx (sys w) r)) s' o'.
Proof.
  intros [H1 H2 H3 H4 H5 H6] Hst Hb o' Ho Hh Hm He. split; simpl; try done.
  - eapply (base_next w s); [done|done|done|done|done|done|apply H1..].
  - apply Hst.
  - by rewrite H3.
Qed.

(** The end of a handler. *)
Lemma done_ok w s o us : within w s o → waits o (sending o) (receiving s o) →
  ∃ w', run_conn w (Ok (o, sys w, us)) = run_calls do_call (set_conn w (Some o) (sys w)) us ∧
    w' = set_conn w (Some o) (sys w) ∧ inv w'.
Proof.
  intros Hin Hw. eexists. split; [done|]. split; [done|]. exists s. split.
  - eapply (base_next w s); [apply Hin|apply beside_refl|by eapply in_st|done|done|apply Hin|apply Hin..].
  - split; [apply Hin|done].
Qed.

Lemma wait_for_ok w s o ev : within w s o → is_hupd o = false → ev = BREACTOR_READ ∨ ev = BREACTOR_WRITE →
  Z.lor (wait_events o) ev = mask (sending o) (receiving s o) →
  ∃ w', run_conn w (wait_for A o (sys w) ev) = Ok w' ∧ inv w'.
Proof.
  intros Hin Hh Hev Hm. unfold wait_for. simpl.
  assert (Hz : Z.ldiff (Z.lor (wait_events o) ev) (Z.lor BREACTOR_READ BREACTOR_WRITE) = 0).
  { rewrite Hm. by destruct (sending o), (receiving s o). }
  pose proof (m_fd _ _ _ _ _ _ (in_mid _ _ _ Hin)) as Hfd. rewrite Hh in Hfd. destruct Hfd as [Hwd _].
  destruct (call_set_events _ _ _ _ _ (Z.lor (wait_events o) ev) (in_st _ _ _ Hin) Hwd Hz) as (r & Hr & Hst).
  rewrite Hr. simpl. eexists. split; [done|]. eexists. split.
  - eapply (base_next w s); [apply Hin|apply beside_fds, conn_bfd_other|done|done|done|apply Hin|apply Hin..].
  - pose proof (st_owner _ _ _ Hst) as HO. simpl in HO. unfold conn_inv. simpl. rewrite HO. split.
    + apply mid_set_wait; [apply Hin|done|done].
    + intros _. unfold waits. simpl. rewrite Hh. by rewrite Hm.
Qed.

Lemma conn_report_ok w s o : within w s o → ∃ w', run_conn w (connection_report_error A o (sys w)) = Ok w' ∧ inv w'.
Proof.
  intros Hin. unfold connection_report_error. rewrite (in_no_error _ _ _ Hin), (in_handler _ _ _ Hin). cbn [c_assert].
  destruct (call_set_job _ _ _ (err_job A) (in_st _ _ _ Hin)) as (r & Hr & Hst). rewrite Hr. simpl.
  eexists. split; [done|]. eexists. split.
  - eapply (base_next w s); [apply Hin|apply beside_job_set, (conn_job_other (err_job A)); set_solver+|done|done|done|apply Hin|apply Hin..].
  - pose proof (st_owner _ _ _ Hst) as HO. simpl in HO. unfold conn_inv. simpl. rewrite HO. split.
    + apply mid_report, Hin.
    + simpl. rewrite elem_of_job_set. intros []. by left.
Qed.

Lemma run_conn_sys w k h : run_conn (set_sys w k) h = run_conn w h.
Proof. by destruct h as [[[o k'] us]|]. Qed.

Lemma st_same k k' s O : rx k' = rx k → st k s O → st k' s O.
Proof. intros H [H1 H2 H3]. split; by rewrite H. Qed.

(** After [within_limit]. *)
Lemma limit_ok w s o l : within w s o → l ∈ my_limits A →
  ∃ r b L, within_limit o (sys w) l = Ok (set_rx (sys w) r, b) ∧ (is_hupd o = true → b = true) ∧
    within (set_sys w (set_rx (sys w) r)) (with_limits s L) o.
Proof.
  intros Hin Hl. destruct (within_limit_ok _ _ _ o l (in_st _ _ _ Hin) (m_limits _ _ _ _ _ _ (in_mid _ _ _ Hin) _ Hl))
    as (r & b & L & Hr & Hst & HL & Hb).
  exists r, b, L. split; [done|]. split; [done|]. pose proof (st_owner _ _ _ Hst) as HO. simpl in HO.
  eapply within_next; rewrite ?HO; [done|done|apply beside_limits|done|apply Hin| |apply Hin].
  apply mid_limits; [apply Hin|done].
Qed.

Lemma send_now_ok w s o a : within w s o → send o = SEND_STATE_BUSY → waits o false (receiving s o) →
  ∃ w', run_conn w (connection_send A o (sys w) a) = Ok w' ∧ inv w'.
Proof.
  intros Hin Hs Hw. unfold connection_send. rewrite (in_no_error _ _ _ Hin), bool_decide_eq_true_2 by done. cbn [c_assert].
  destruct (limit_ok _ _ _ (send_limit A) Hin) as (r & b & L & -> & Hb & Hin1); [set_solver+|].
  rewrite ok_bind. rewrite <- (run_conn_sys w (set_rx (sys w) r)). set (w1 := set_sys w (set_rx (sys w) r)) in *.
  change (set_rx (sys w) r) with (sys w1).
  assert (Hm : is_hupd o = false → Z.lor (wait_events o) BREACTOR_WRITE = mask (sending o) (receiving (with_limits s L) o)).
  { intros Hh. unfold waits in Hw. rewrite Hh in Hw. rewrite Hw. unfold sending. rewrite bool_decide_eq_true_2 by done.
    change (receiving (with_limits s L) o) with (receiving s o). by destruct (receiving s o). }
  destruct b; cbn [negb].
  2:{ destruct (is_hupd o) eqn:Hh; [by specialize (Hb eq_refl)|]. eapply wait_for_ok; [done|done|by right|by apply Hm]. }
  pose proof (m_send _ _ _ _ _ _ (in_mid _ _ _ Hin1)) as Hp. unfold send_port in Hp. rewrite Hs in Hp.
  destruct Hp as (p & Hws & Hlen & Hpos & Hh). rewrite Hlen in Hpos |- *.
  destruct (sys_write_ok (sys w1) a (send_data o) p Hh Hpos) as (? & -> & [->|[->|(c & Hc & ->)]]); rewrite ok_bind.
  - destruct (is_hupd o) eqn:Hh'; [by eapply conn_report_ok|]. eapply wait_for_ok; [done|done|by right|by apply Hm].
  - by eapply conn_report_ok.
  - do 2 run_assert. unfold run_conn. rewrite ok_bind. cbn [run_calls do_call].
    change (w_send (add_upcall _ _)) with (w_send w1). rewrite Hws. run_assert. simpl.
    eexists. split; [done|]. eexists. split.
    + eapply (base_next w1); [apply Hin1|apply beside_refl|by apply (st_same (sys w1)); [|eapply in_st]
        |done|done|apply (in_own _ _ _ Hin1)| |].
      * simpl. f_equal. apply (in_base _ _ _ Hin1).
      * simpl. rewrite app_nil_r. apply (in_base _ _ _ Hin1).
    + split; simpl.
      * apply (mid_send _ _ _ _ (w_send w1)); [apply Hin1|done|done].
      * intros _. exact Hw.
Qed.

Lemma recv_now_ok w s o a : within w s o → recv o = RECV_STATE_BUSY → recv_job A ∉ s_jobs s → waits o (sending o) false →
  ∃ w', run_conn w (connection_recv A o (sys w) a) = Ok w' ∧ inv w'.
Proof.
  intros Hin Hr Hj Hw. unfold connection_recv. rewrite (in_no_error _ _ _ Hin), bool_decide_eq_true_2 by done. cbn [c_assert].
  destruct (limit_ok _ _ _ (recv_limit A) Hin) as (r & b & L & -> & Hb & Hin1); [set_solver+|].
  rewrite ok_bind. rewrite <- (run_conn_sys w (set_rx (sys w) r)). set (w1 := set_sys w (set_rx (sys w) r)) in *.
  change (set_rx (sys w) r) with (sys w1).
  assert (Hm : is_hupd o = false → Z.lor (wait_events o) BREACTOR_READ = mask (sending o) (receiving (with_limits s L) o)).
  { intros Hh. unfold waits in Hw. rewrite Hh in Hw. rewrite Hw. unfold receiving. simpl.
    rewrite !bool_decide_eq_true_2 by done. by destruct (sending o). }
  destruct b; cbn [negb].
  2:{ destruct (is_hupd o) eqn:Hh; [by specialize (Hb eq_refl)|]. eapply wait_for_ok; [done|done|by left|by apply Hm]. }
  pose proof (m_recv _ _ _ _ _ _ (in_mid _ _ _ Hin1)) as Hp. unfold recv_port in Hp. rewrite Hr in Hp.
  destruct Hp as (Hwr & Hpos & Hmap).
  destruct (sys_read_ok (sys w1) a (recv_data o) (recv_avail o) Hmap Hpos) as (? & -> & [->|[->|(bs & m & Hlen & Hst & ->)]]); rewrite ok_bind.
  - destruct (is_hupd o) eqn:Hh'; [by eapply conn_report_ok|]. eapply wait_for_ok; [done|done|by left|by apply Hm].
  - by eapply conn_report_ok.
  - assert (Hmid : mid (with_limits s L) (owner (rx (sys w1))) m o (w_send w1) (w_recv w1)).
    { eapply mid_store; [apply Hin1|done|done|done]. }
    assert (Hst1 : ∀ gv, st (set_bytes (set_ram (sys w1) m) (took (sys w1)) gv) (with_limits s L) (owner (rx (sys w1)))).
    { intros gv. by apply (st_same (sys w1)); [|eapply in_st]. }
    destruct (Z.eqb_spec (Z.of_nat (length bs)) 0) as [Hz|Hz].
    + rewrite (in_handler _ _ _ Hin1). cbn [negb]. unfold run_conn. rewrite ok_bind. simpl. eexists. split; [done|].
      destruct bs; [|done]. rewrite app_nil_r. eexists. split.
      * eapply (base_next w1); [apply Hin1|apply beside_refl|apply Hst1|done|done|apply (in_own _ _ _ Hin1)|apply (in_base _ _ _ Hin1)..].
      * split; simpl.
        -- eapply mid_recv; [done| | |].
           ++ unfold recv_port. simpl. eexists. exact Hwr.
           ++ intros H. by apply Hj in H.
           ++ apply Hmid.
        -- intros _. exact Hw.
    + do 2 run_assert. unfold run_conn. rewrite ok_bind. cbn [run_calls do_call].
      change (w_recv (add_upcall _ _)) with (w_recv w1). rewrite Hwr. run_assert.
      change (ram (sys (add_upcall _ _))) with m. rewrite Nat2Z.id.
      rewrite (proj2 (load_ok m (recv_data o) (length bs) bs)) by (split; [done|by eapply store_holds]). simpl.
      eexists. split; [done|]. eexists. split.
      * eapply (base_next w1); [apply Hin1|apply beside_refl|apply Hst1|done|done|apply (in_own _ _ _ Hin1)| |].
        -- simpl. rewrite app_nil_r. apply (in_base _ _ _ Hin1).
        -- simpl. f_equal. apply (in_base _ _ _ Hin1).
      * split; simpl.
        -- eapply mid_recv; [done|done| |done]. intros H. by apply Hj in H.
        -- intros _. exact Hw.
Qed.

(** The events reported for a descriptor that waits for [mask to_send to_recv]. *)
Definition bits (r w e h : bool) : Z :=
  (if r then BREACTOR_READ else 0) + (if w then BREACTOR_WRITE else 0) +
  (if e then BREACTOR_ERROR else 0) + (if h then BREACTOR_HUP else 0).

Lemma report_bits sb rb ev :
  report (mask sb rb) ev = bits (rb && has ev EPOLLIN) (sb && has ev EPOLLOUT) (has ev EPOLLERR) (has ev EPOLLHUP).
Proof.
  unfold report. replace (has (mask sb rb) BREACTOR_READ) with rb by by destruct sb, rb.
  replace (has (mask sb rb) BREACTOR_WRITE) with sb by by destruct sb, rb.
  by destruct (rb && _), (sb && _), (has ev EPOLLERR), (has ev EPOLLHUP).
Qed.

Lemma has_bits r w e h :
  has (bits r w e h) BREACTOR_READ = r ∧ has (bits r w e h) BREACTOR_WRITE = w ∧ has (bits r w e h) BREACTOR_ERROR = e ∧
  has (bits r w e h) BREACTOR_HUP = h ∧ has (bits r w e h) (Z.lor BREACTOR_ERROR BREACTOR_HUP) = e || h.
Proof. by destruct r, w, e, h. Qed.

Lemma ldiff_bits sb rb r w e h :
  Z.ldiff (mask sb rb) (bits r w e h) = mask (sb && negb w) (rb && negb r).
Proof. by destruct sb, rb, r, w, e, h. Qed.

Lemma mid_hupd s O m o ws wr R : mid s O m o ws wr → is_hupd o = false →
  mid (with_fds s (delete (connection_bfd A) (s_watched s)) R) (delete (fd o) O) m (set_hupd o) ws wr.
Proof.
  intros [H1 H2 H3 H4 H5 H6 H7 H8 H9] Hh. split; simpl; try done. rewrite lookup_delete_eq. split; [done|].
  intros _. by rewrite lookup_delete_eq.
Qed.

(** The end of [connection_fd_handler], after the events are cleared and a descriptor with a hangup is removed. *)
Definition serve (o : BConnection.t) (k : Sys.t) (a : kernel) (have_send have_recv : bool) : result (BConnection.t * Sys.t * list upcall) :=
  ASSERT negb have_send || bool_decide (send o = SEND_STATE_BUSY) ;;
  ASSERT negb have_recv || bool_decide (recv o = RECV_STATE_BUSY) ;;
  if have_send then
    k ← (if have_recv then call k (Set_job (recv_job A)) else Ok k);
    connection_send A o k a
  else if have_recv then connection_recv A o k a
  else if negb (is_hupd o) then connection_report_error A o k
  else Ok (o, k, []).

Lemma serve_ok w s o a hs hr :
  within w s o → s_jobs s = [] → (hs = true → sending o = true) → (hr = true → recv o = RECV_STATE_BUSY) →
  waits o (sending o && negb hs) (bool_decide (recv o = RECV_STATE_BUSY) && negb hr) →
  ∃ w', run_conn w (serve o (sys w) a hs hr) = Ok w' ∧ inv w'.
Proof.
  intros Hin Hj Hs Hr Hw. unfold serve.
  rewrite c_assert_true by (destruct hs; [by apply Hs|done]).
  rewrite c_assert_true by (destruct hr; [by apply bool_decide_eq_true, Hr|done]).
  assert (Hrec : receiving s o = bool_decide (recv o = RECV_STATE_BUSY)).
  { unfold receiving. rewrite Hj, (bool_decide_eq_true_2 (_ ∉ [])) by apply not_elem_of_nil. by rewrite andb_true_r. }
  destruct hs.
  - specialize (Hs eq_refl). rewrite Hs in Hw. pose proof Hs as Hb. unfold sending in Hb. apply bool_decide_eq_true in Hb.
    destruct hr; rewrite ?andb_false_r, ?andb_true_r in Hw; simpl in Hw.
    + destruct (call_set_job _ _ _ (recv_job A) (in_st _ _ _ Hin)) as (r & Hrr & Hst). rewrite Hrr, ok_bind.
      rewrite <- (run_conn_sys w (set_rx (sys w) r)). change (set_rx (sys w) r) with (sys (set_sys w (set_rx (sys w) r))) at 2.
      pose proof (st_owner _ _ _ Hst) as HO. simpl in HO. destruct jobs_ne as (_ & _ & Hsj & Hrj).
      rewrite elem_of_cons, list_elem_of_singleton in Hsj. rewrite list_elem_of_singleton in Hrj.
      assert (Hjob : ∀ j, j ∈ job_set (recv_job A) (s_jobs s) ↔ j = recv_job A).
      { intros j. rewrite elem_of_job_set, Hj. split; [intros [|[]%not_elem_of_nil]; done|by left]. }
      eapply send_now_ok; [|done|].
      * eapply within_next; rewrite ?HO; [done|exact Hst| |done|apply Hin| |].
        -- apply beside_job_set, (conn_job_other (recv_job A)). set_solver+.
        -- destruct (in_mid _ _ _ Hin) as [H1 H2 H3 H4 H5 H6 H7 H8 H9]. split; simpl; try done.
           ++ rewrite Hjob. naive_solver.
           ++ rewrite Hjob. naive_solver.
           ++ intros _. by apply Hr.
        -- simpl. rewrite Hjob. naive_solver.
      * unfold receiving. simpl. rewrite (bool_decide_eq_false_2 (_ ∉ _)), andb_false_r; [exact Hw|].
        intros Hn. apply Hn. by rewrite Hjob.
    + eapply send_now_ok; [done|done|]. by rewrite Hrec.
  - rewrite andb_true_r in Hw. destruct hr.
    + eapply recv_now_ok; [done|by apply Hr|rewrite Hj; apply not_elem_of_nil|]. by rewrite andb_false_r in Hw.
    + rewrite andb_true_r in Hw. destruct (is_hupd o) eqn:Hh; cbn [negb]; [|by eapply conn_report_ok].
      destruct (done_ok w s o [] Hin) as (w' & Hrun & -> & Hinv); [by rewrite Hrec|]. rewrite Hrun. by eexists.
Qed.

Lemma fd_handler_ok w s o a m ev :
  within w s o → s_jobs s = [] → waits o (sending o) (receiving s o) →
  s_watched s !! connection_bfd A = Some m → error_ok false o (report m ev) = true →
  ∃ w', run_conn w (connection_fd_handler A o (sys w) a (report m ev)) = Ok w' ∧ inv w'.
Proof.
  intros Hin Hj Hw Hwd Herr. pose proof (m_fd _ _ _ _ _ _ (in_mid _ _ _ Hin)) as Hfd.
  destruct (is_hupd o) eqn:Hh; [destruct Hfd as [H _]; by rewrite Hwd in H|]. destruct Hfd as [Hwd' HO]. simplify_eq.
  assert (Hrec : receiving s o = bool_decide (recv o = RECV_STATE_BUSY)).
  { unfold receiving. rewrite Hj, (bool_decide_eq_true_2 (_ ∉ [])) by apply not_elem_of_nil. by rewrite andb_true_r. }
  unfold waits in Hw. rewrite Hh, Hrec in Hw. unfold error_ok in Herr. simpl in Herr. rewrite Hw in *.
  unfold connection_fd_handler. rewrite (in_no_error _ _ _ Hin), Hh, Hw. cbn [c_assert negb].
  rewrite report_bits in *. set (sb := sending o) in *. set (rb := bool_decide (recv o = RECV_STATE_BUSY)) in *.
  set (r := rb && has ev EPOLLIN) in *. set (x := sb && has ev EPOLLOUT) in *.
  assert (Hrrb : r = true → rb = true) by (subst r; by destruct rb).
  assert (Hxsb : x = true → sb = true) by (subst x; by destruct sb).
  clearbody r x. destruct (has_bits r x (has ev EPOLLERR) (has ev EPOLLHUP)) as (B1 & B2 & B3 & B4 & B5).
  rewrite ldiff_bits, B1, B2, B3, B4, B5 in *. generalize dependent (has ev EPOLLERR). generalize dependent (has ev EPOLLHUP).
  intros h e. intros.
  destruct (call_set_events _ _ _ _ _ (mask (sb && negb x) (rb && negb r)) (in_st _ _ _ Hin) Hwd) as (w1 & Hw1 & Hst1).
  { by destruct (sb && negb x), (rb && negb r). }
  change (wait_events (set_wait o ?z)) with z. rewrite Hw1, ok_bind.
  set (o1 := set_wait o (mask (sb && negb x) (rb && negb r))) in *. pose proof (st_owner _ _ _ Hst1) as HO1. simpl in HO1.
  assert (Hin1 : within (set_sys w (set_rx (sys w) w1))
    (with_fds s (<[connection_bfd A := mask (sb && negb x) (rb && negb r)]> (s_watched s)) (s_reported s)) o1).
  { eapply within_next; rewrite ?HO1; [done|done|apply beside_fds, conn_bfd_other|done|apply Hin| |apply Hin].
    apply mid_set_wait; [apply Hin|done|]. by destruct (sb && negb x), (rb && negb r). }
  assert (Hj1 : s_jobs (with_fds s (<[connection_bfd A := mask (sb && negb x) (rb && negb r)]> (s_watched s)) (s_reported s)) = []) by done.
  generalize dependent (with_fds s (<[connection_bfd A := mask (sb && negb x) (rb && negb r)]> (s_watched s)) (s_reported s)).
  intros s1 Hst1 Hin1 Hj1. rewrite <- (run_conn_sys w (set_rx (sys w) w1)). destruct h.
  - destruct (call_remove _ _ _ (connection_bfd A) (fd o) Hst1 HO) as (w2 & -> & Hst2). rewrite ok_bind.
    pose proof (st_owner _ _ _ Hst2) as HO2. simpl in HO2. rewrite run_conn_sys, <- (run_conn_sys w (set_rx (sys w) w2)).
    match type of Hst2 with st _ ?s' _ => assert (Hin2 : within (set_sys w (set_rx (sys w) w2)) s' (set_hupd o1)) end.
    { rewrite <- HO2 in Hst2. apply (within_next _ _ _ w2 _ Hin1 Hst2); simpl; rewrite ?HO1, ?HO2; [ |done|apply Hin1| |apply Hin1].
      - apply beside_remove; [apply conn_bfd_other|done].
      - change (fd o) with (fd o1). apply mid_hupd; [|done]. rewrite <- HO1. apply (in_mid _ _ _ Hin1). }
    apply (serve_ok _ _ (set_hupd o1) a (x || (e || true) && sb) (r || (e || true) && rb) Hin2); [done|..].
    + change (sending (set_hupd o1)) with sb. intros H. destruct x; [by apply Hxsb|]. by destruct sb; [|destruct e].
    + change (recv (set_hupd o1)) with (recv o). intros H. apply (bool_decide_eq_true_1 _). change (rb = true).
      destruct r; [by apply Hrrb|]. by destruct rb; [|destruct e].
    + change (sending (set_hupd o1)) with sb. change (recv (set_hupd o1)) with (recv o). change (bool_decide (recv o = _)) with rb.
      split; [by destruct sb, x, e|by destruct rb, r, e].
  - rewrite ok_bind.
    apply (serve_ok _ _ o1 a (x || (e || false) && sb) (r || (e || false) && rb) Hin1); [done|..].
    + change (sending o1) with sb. intros H. destruct x; [by apply Hxsb|]. by destruct sb; [|destruct e].
    + change (recv o1) with (recv o). intros H. apply (bool_decide_eq_true_1 _). change (rb = true).
      destruct r; [by apply Hrrb|]. by destruct rb; [|destruct e].
    + change (sending o1) with sb. change (recv o1) with (recv o). change (bool_decide (recv o = _)) with rb.
      unfold waits. change (is_hupd o1) with (is_hupd o). rewrite Hh. change (wait_events o1) with (mask (sb && negb x) (rb && negb r)).
      destruct e; simpl in *; [|by rewrite !orb_false_r]. clear -Herr. by destruct sb, rb, x, r.
Qed.

(** *** The other handlers of the connection *)

Lemma conn_within w s o : base w s → at_mode (rx (sys w)) = Program → conn w = Some o → handler o = true → err_job A ∉ s_jobs s →
  mid s (owner (rx (sys w))) (ram (sys w)) o (w_send w) (w_recv w) → within w s o.
Proof. intros H1 H2 H3 H4 H5 H6. split; try done. by rewrite H3. Qed.

Lemma recv_job_handler_ok w s o a :
  within w s o → recv_job A ∉ s_jobs s → recv o = RECV_STATE_BUSY → waits o (sending o) false →
  ∃ w', run_conn w (connection_recv_job_handler A o (sys w) a) = Ok w' ∧ inv w'.
Proof.
  intros Hin Hj Hr Hw. unfold connection_recv_job_handler.
  rewrite (in_no_error _ _ _ Hin), bool_decide_eq_true_2 by done. by eapply recv_now_ok.
Qed.

(** A port takes a request. *)
Lemma request_within w s o o' ws wr : within w s o → own_conn (Some o') = own_conn (Some o) → handler o' = handler o →
  mid s (owner (rx (sys w))) (ram (sys w)) o' ws wr → within (set_ports w ws wr) s o'.
Proof.
  intros [H1 H2 H3 H4 H5 H6] Ho Hh Hm. split; try done.
  - destruct H1. by split.
  - by rewrite Ho.
  - by rewrite Hh.
Qed.

Lemma disjoint_comm d n e m : disjoint d n e m = disjoint e m d n.
Proof. unfold disjoint. by rewrite orb_comm. Qed.

Lemma send_request_ok w s o a d p :
  within w s o → waits o (sending o) (receiving s o) → send o = SEND_STATE_READY → (0 < length p)%nat →
  load (ram (sys w)) d (length p) = Ok p →
  from_option (λ '(e, n), disjoint d (Z.of_nat (length p)) e n) true (w_recv w) = true →
  ∃ w', run_conn (set_ports w (Some (d, p)) (w_recv w))
    (connection_send_if_handler_send A o (sys w) a d (Z.of_nat (length p))) = Ok w' ∧ inv w'.
Proof.
  intros Hin Hw Hs Hp Hl Hd. unfold connection_send_if_handler_send.
  rewrite (in_no_error _ _ _ Hin), bool_decide_eq_true_2 by done. cbn [c_assert]. run_assert.
  apply load_ok in Hl as [_ Hh].
  apply (send_now_ok (set_ports w (Some (d, p)) (w_recv w)) s); [|done|].
  - apply (request_within w s o); [done..|].
    eapply mid_send; [apply Hin| |].
    + exists p. by split_and!; [| |simpl; lia|].
    + intros d' p' e n [= <- <-] Hwr. by rewrite Hwr in Hd.
  - unfold sending in Hw. by rewrite Hs in Hw.
Qed.

Lemma recv_request_ok w s o a d n :
  within w s o → waits o (sending o) (receiving s o) → recv o = RECV_STATE_READY → 0 < n →
  is_ok_b (load (ram (sys w)) d (Z.to_nat n)) = true →
  from_option (λ '(e, p), disjoint d n e (Z.of_nat (length p))) true (w_send w) = true →
  ∃ w', run_conn (set_ports w (w_send w) (Some (d, n))) (connection_recv_if_handler_recv A o (sys w) a d n) = Ok w' ∧ inv w'.
Proof.
  intros Hin Hw Hr Hn Hl Hd. unfold connection_recv_if_handler_recv.
  rewrite (in_no_error _ _ _ Hin), bool_decide_eq_true_2 by done. cbn [c_assert]. run_assert.
  destruct (load (ram (sys w)) d (Z.to_nat n)) as [bs|] eqn:Hbs; [|done]. apply load_ok in Hbs as [Hbl Hh].
  pose proof (m_recv_job _ _ _ _ _ _ (in_mid _ _ _ Hin)) as Hj.
  apply (recv_now_ok (set_ports w (w_send w) (Some (d, n))) s); [|done| |].
  - apply (request_within w s o); [done..|].
    eapply mid_recv; [apply Hin| |done|].
    + split; [done|]. split; [done|]. apply holds_at_mapped in Hh. by rewrite Hbl, Z2Nat.id in Hh by lia.
    + intros d' p' e' n' Hws [= <- <-]. rewrite Hws in Hd. by rewrite disjoint_comm.
  - intros H. specialize (Hj H). by rewrite Hj in Hr.
  - unfold receiving in Hw. by rewrite Hr in Hw.
Qed.

(** *** The reactor's events *)

Lemma run_loop_after w r out : run_loop w = Ok (r, out) →
  registered r = registered w ∧ match out with Called (Job _) | Called (Descriptor _ _) => at_mode r = Program | _ => True end.
Proof.
  unfold run_loop. intros H. apply bind_ok in H as ([o d] & _ & H).
  destruct d; simpl in H; try (injection H as <- <-; done).
  unfold waited in H. apply bind_ok in H as ([o' [wt|]] & _ & H); injection H as <- <-; done.
Qed.

Lemma step_after w s e r out : good w s → ReactorWorld.step w e = Some (Ok (r, out)) →
  owner_after w e (owner r) ∧
  match out with Called (Job _) | Called (Descriptor _ _) => at_mode r = Program | _ => True end.
Proof.
  intros Hg Hs.
  assert (Hcall : is_call e → at_mode w = Program ∧ ReactorWorld.call w e = Ok (r, out)).
  { intros He. destruct e; try done; cbn [ReactorWorld.step] in Hs; destruct (at_mode w) eqn:Hm; try done;
      (destruct (call_ok w _); [|done]); (split; [done|congruence]). }
  assert (Hcases : is_call e ∨ (∃ z, e = Tick z) ∨ e = Run ∨ e = Return ∨ ∃ r, e = Epoll r) by (destruct e; naive_solver).
  destruct Hcases as [He|[[z ->]|[->|[->|[x ->]]]]]; simpl in Hs.
  - destruct (Hcall He) as [Hm Hc]. split; [by eapply call_owner|]. rewrite (call_mode _ _ _ _ Hc), Hm.
    by destruct out as [| |[]|].
  - case_if; [|done]. by injection Hs as <- <-.
  - destruct (at_mode w); try done. injection Hs as Hs. destruct (run_loop_after _ _ _ Hs) as [Hr Hm].
    split; [|done]. simpl. unfold owner. by rewrite Hr.
  - destruct (at_mode w); try done. by injection Hs as <- <-.
  - destruct (at_mode w); try done. destruct (ReactorWorld.kernel_ok _ _ _); [|done]. injection Hs as Hs. unfold waited in Hs.
    apply bind_ok in Hs as ([o [wt|]] & _ & Hs); by injection Hs as <- <-.
Qed.

(** The state of the contract without the job whose handler is called. *)
Definition popped (s : spec) (out : output) : spec :=
  match out with Called (Job _) => with_jobs s (tail (s_jobs s)) | _ => s end.

Lemma foreign_owner k s e r out : good (rx k) s → foreign A k e = true → ReactorWorld.step (rx k) e = Some (Ok (r, out)) →
  (∀ n p, p ∈ my_fds A → owner (rx k) !! n = Some p → owner r !! n = Some p) ∧
  (∀ n, n ∈ files k → owner (rx k) !! n = None → owner r !! n = None).
Proof.
  intros Hg Hf Hs. destruct (step_after _ _ _ _ _ Hg Hs) as [Ho _].
  destruct e; simpl in Ho; try (rewrite Ho; done).
  - destruct res; [|rewrite Ho; done]. destruct Ho as (b & Hb & ->). simpl in Hf, Hs. rewrite Hb in Hf, Hs. simpl in Hf, Hs.
    destruct (at_mode (rx k)); try done. case_if; [|done]. zify_bool. simpl in *. zify_bool.
    assert (Hn : owner (rx k) !! BReactor.fd b = None).
    { unfold owner. rewrite lookup_fmap. match goal with H : registered _ !! _ = None |- _ => by rewrite H end. }
    split; intros n; intros; rewrite lookup_insert_ne; congruence.
  - destruct Ho as (b & Hb & Ha & ->). simpl in Hf. apply bool_decide_eq_true in Hf.
    assert (Hn : owner (rx k) !! BReactor.fd b = Some p).
    { unfold owner. by rewrite lookup_fmap, (k_active _ _ (g_kernel _ _ Hg) _ _ Hb Ha). }
    split; intros n; intros; rewrite lookup_delete_ne; try done; intros <-; congruence.
Qed.

Definition dispatched_ok (s : spec) (out : output) (s' : spec) : Prop :=
  match out with
  | Called (Job j) => ∃ J, s_jobs s = j :: J
  | Called (Descriptor p evs) => s_jobs s' = [] ∧ ∃ m ev, s_watched s' !! p = Some m ∧ evs = report m ev
  | _ => True
  end.

(** What the contract says about the three objects when others use the reactor. *)
Record undisturbed (s s' : spec) : Prop := {
  u_watched p : p ∈ my_fds A → s_watched s' !! p = s_watched s !! p;
  u_jobs j : j ∈ my_jobs A → (j ∈ s_jobs s' ↔ j ∈ s_jobs s);
  u_nodup : NoDup (s_jobs s) → NoDup (s_jobs s');
  u_conn : beside_conn s s';
}.

Lemma undisturbed_refl s : undisturbed s s.
Proof. by split. Qed.

Lemma undisturbed_fds s W R : (∀ p, p ∈ my_fds A → W !! p = s_watched s !! p) → undisturbed s (with_fds s W R).
Proof. intros H. by split. Qed.

Lemma undisturbed_limits s L : (∀ l, l ∈ my_limits A → (is_Some (L !! l) ↔ is_Some (s_limits s !! l))) → undisturbed s (with_limits s L).
Proof. intros H. by split. Qed.

Lemma my_jobs_ne j : j ∉ my_jobs A → j ≠ recv_job A ∧ j ≠ err_job A.
Proof. intros Hj. split; intros ->; apply Hj; set_solver+. Qed.

Lemma call_undisturbed k s e : foreign A k e = true →
  undisturbed (popped s (spec_call s e).2) (spec_call s e).1 ∧ dispatched_ok s (spec_call s e).2 (spec_call s e).1.
Proof.
  intros Hf. destruct e; simpl in *; zify_bool; try (split; [|done]);
    try first [apply undisturbed_refl | by split].
  - destruct res; [|apply undisturbed_refl].
    apply undisturbed_fds. intros q Hq. rewrite lookup_insert_ne; [done|]. by intros ->.
  - apply undisturbed_fds. intros q Hq. rewrite lookup_delete_ne; [done|]. by intros ->.
  - apply undisturbed_fds. intros q Hq. rewrite lookup_insert_ne; [done|]. by intros ->.
  - apply undisturbed_limits. intros q Hq. rewrite lookup_insert_ne; [done|]. by intros ->.
  - apply undisturbed_limits. intros q Hq. rewrite lookup_delete_ne; [done|]. by intros ->.
  - destruct (s_limits s !! p) as [l|]; [|split; [apply undisturbed_refl|done]].
    destruct (count l <? limit l); (split; [|done]); [|apply undisturbed_refl].
    apply undisturbed_limits. intros q Hq. rewrite lookup_insert_ne; [done|]. by intros ->.
  - apply undisturbed_limits. intros q Hq. rewrite lookup_alter_ne; [done|]. by intros ->.
  - destruct (my_jobs_ne _ Hf) as [Hr He]. split; simpl; auto with csem.
    + intros i Hi. rewrite elem_of_job_set. split; [intros [->|]; done|by right].
    + split; simpl; [done|]. by apply shielded_set.
  - destruct (my_jobs_ne _ Hf) as [Hr He]. split; simpl; auto with csem.
    + intros i Hi. rewrite elem_of_job_unset. split; [naive_solver|]. split; [by intros ->|done].
    + split; simpl; [done|]. by apply shielded_unset.
  - destruct (s_exit s); [split; [apply undisturbed_refl|done]|].
    destruct (s_jobs s) as [|j js] eqn:Hj; [split; [apply undisturbed_refl|done]|].
    case_bool_decide; simpl; [split; [apply undisturbed_refl|done]|]. rewrite Hj. simpl.
    split; [apply undisturbed_refl|by eexists].
Qed.

Lemma spec_undisturbed k s e out s' : spec_step s e out s' → foreign A k e = true →
  undisturbed (popped s out) s' ∧ dispatched_ok s out s'.
Proof.
  intros Hs Hf. destruct Hs as [z Hz| |e He|code He|j js He Hj|p t Hi Ht Hle Hq|p m evs Hi Hm Hr Hne|p m evs Hi Hm Hr Hne|Hi|Hi Hr Hd
    |ms Hi Hr Hw|r ms Hr Hw|r Hr Hd|rs Hrs]; try (split; [|done]); try (simpl; by apply undisturbed_refl); try (by split).
  - by eapply call_undisturbed.
  - simpl. rewrite Hj. simpl. split; [apply undisturbed_refl|by eexists].
  - simpl. split; [by apply undisturbed_fds|]. split; [apply Hi|]. by exists m, evs.
  - split; simpl; try done. split; [|done]. intros l Hl. simpl. rewrite lookup_fmap. by destruct (s_limits s !! l).
  - split; simpl; try done. split; [|done]. intros l Hl. simpl. rewrite lookup_fmap. by destruct (s_limits s !! l).
Qed.

(** An event of the reactor's. *)
Lemma reactor_event_ok w s e r out :
  base w s → foreign A (sys w) e = true → ReactorWorld.step (rx (sys w)) e = Some (Ok (r, out)) →
  ∃ s', good r s' ∧ dispatched_ok s out s' ∧ beside_conn (popped s out) s' ∧
    beside (my_fds A) (my_jobs A) (elements (files (sys w))) (popped s out) (owner (rx (sys w))) s' (owner r) ∧
    match out with Called (Job _) | Called (Descriptor _ _) => at_mode r = Program | _ => True end.
Proof.
  intros Hb Hf Hs. pose proof (b_good _ _ Hb) as Hg. destruct (step_good _ _ _ _ Hg Hs) as (r' & out' & s' & [= <- <-] & Hsp & Hg').
  destruct (spec_undisturbed _ _ _ _ _ Hsp Hf) as [[Hw Hj Hn Hc] Hd].
  destruct (foreign_owner _ _ _ _ _ Hg Hf Hs) as [Ho1 Ho2]. destruct (step_after _ _ _ _ _ Hg Hs) as [_ Hm].
  exists s'. split_and!; try done. split; try done. intros n Hn'. apply Ho2. by apply elem_of_elements in Hn'.
Qed.

(** Without a call of one of the handlers. *)
Lemma popped_beside s O out P Q fs : (∀ j, out = Called (Job j) → j ∉ Q) → dispatched_ok s out s →
  beside P Q fs s O (popped s out) O.
Proof.
  intros Hj Hd. destruct out as [|b|d|ms]; try apply beside_refl. destruct d as [j|p|p evs| | |code]; try apply beside_refl.
  destruct Hd as [J HJ]. simpl. rewrite HJ. split; simpl; try done; rewrite HJ.
  - intros i Hi. rewrite elem_of_cons. split; [by right|]. intros [->|]; [|done]. by destruct (Hj j eq_refl).
  - by intros [_ H]%NoDup_cons.
Qed.

Lemma beside_weaken P Q fs P' Q' fs' s O s' O' : beside P Q fs s O s' O' → P' ⊆ P → Q' ⊆ Q → (∀ n, n ∈ fs' → n ∈ fs) →
  beside P' Q' fs' s O s' O'.
Proof. intros [H1 H2 H3 H4 H5] HP HQ Hf. split; auto. Qed.

Lemma event_beside w s s' O' out Q :
  beside (my_fds A) (my_jobs A) (elements (files (sys w))) (popped s out) (owner (rx (sys w))) s' O' →
  dispatched_ok s out s' → Q ⊆ my_jobs A → (∀ j, out = Called (Job j) → j ∉ Q) →
  beside (my_fds A) Q (elements (files (sys w))) s (owner (rx (sys w))) s' O'.
Proof.
  intros Hb Hd HQ Hj. eapply beside_trans; [|by eapply beside_weaken].
  destruct out as [|b|d|ms]; try apply beside_refl. destruct d as [j|p|p evs| | |code]; try apply beside_refl.
  by apply popped_beside.
Qed.

Lemma event_beside_conn s s' out : beside_conn (popped s out) s' → dispatched_ok s out s' → out ≠ Called (Job (err_job A)) →
  beside_conn s s'.
Proof.
  intros [H1 H2] Hd He. destruct out as [|b|d|ms]; try by split. destruct d as [j|p|p evs| | |code]; try by split.
  destruct Hd as [J HJ]. split; [done|]. intros Hs. apply H2. simpl. rewrite HJ in Hs |- *. by destruct Hs as [->|[_ Hs]].
Qed.

Lemma owned_in w s n : base w s → n ∈ own_lis (lis w) ∨ n ∈ own_ctr (ctr w) ∨ n ∈ own_conn (conn w) → n ∈ elements (files (sys w)).
Proof.
  intros Hb Hn. rewrite elem_of_elements, (b_files _ _ Hb). unfold owned. rewrite elem_of_list_to_set, !elem_of_app. naive_solver.
Qed.

(** The three objects are as before if none of their handlers is called. *)
Section event.
Context (w : world) (s s' : spec) (O' : gmap Z ptr) (out : output) (Hb : base w s) (Hd : dispatched_ok s out s').
Context (Hbe : beside (my_fds A) (my_jobs A) (elements (files (sys w))) (popped s out) (owner (rx (sys w))) s' O').
Context (Hbc : beside_conn (popped s out) s').

Lemma lis_event : out ≠ Called (Job (default_job A)) → lis_ok s' O' (lis w).
Proof.
  intros Hj. eapply lis_frame; [apply (event_beside w s _ _ out [default_job A]); [done|done|set_solver+|]|set_solver+|set_solver+|apply Hb].
  intros j ->. rewrite list_elem_of_singleton. by intros ->.
Qed.

Lemma ctr_event : out ≠ Called (Job (connector_job A)) → ctr_ok s' O' (ctr w).
Proof.
  intros Hj. eapply ctr_frame; [apply (event_beside w s _ _ out [connector_job A]); [done|done|set_solver+|]|set_solver+|set_solver+| |apply Hb].
  - intros j ->. rewrite list_elem_of_singleton. by intros ->.
  - intros n Hn. eapply owned_in; [done|]. by right; left.
Qed.

Lemma conn_event r : conn_inv w s → (∀ j, out = Called (Job j) → j ∉ [send_job A; recv_job A; err_job A]) → owner r = O' →
  conn_inv (set_sys w (set_rx (sys w) r)) s'.
Proof.
  intros Hc Hj HO. assert (Hs : beside (my_fds A) [send_job A; recv_job A; err_job A] (elements (files (sys w))) s (owner (rx (sys w))) s' O').
  { apply (event_beside w s _ _ out); [done|done|set_solver+|done]. }
  assert (Hs' : beside_conn s s').
  { eapply event_beside_conn; [done|done|]. intros ->. eapply Hj; [done|]. set_solver+. }
  unfold conn_inv in *. simpl. rewrite HO. destruct (conn w) as [o|] eqn:Ho.
  - eapply conn_frame; [done|done|set_solver+|done| |done]. intros n Hn. eapply owned_in; [done|]. right; right. by rewrite Ho.
  - eapply no_conn_frame; [done|done|set_solver+|done|done].
Qed.

Lemma base_event r : good r s' → owner r = O' → lis_ok s' O' (lis w) → ctr_ok s' O' (ctr w) →
  base (set_sys w (set_rx (sys w) r)) s'.
Proof.
  intros Hg HO Hl Hc. destruct Hb as [H1 HJ H2 H3 H4 H5 H6 H7 H8]. split; simpl; rewrite ?HO; try done.
  apply (bs_nodup _ _ _ _ _ _ _ Hbe). destruct out as [|b|d|ms]; try done. destruct d as [j|p|p evs| | |code]; try done.
  simpl. destruct (s_jobs s); [done|]. simpl. by apply NoDup_cons in HJ as [_ HJ].
Qed.
End event.

(** *** The listener and the connector *)

(** They change, the connection does not. *)
Lemma objs_next w s k s' O' o c us :
  base w s → conn_inv w s →
  beside [connection_bfd A] [send_job A; recv_job A; err_job A] (own_conn (conn w)) s (owner (rx (sys w))) s' O' → beside_conn s s' →
  st k s' O' → lis_ok s' O' o → ctr_ok s' O' c → ram k = ram (sys w) → took k = took (sys w) → gave k = gave (sys w) →
  files k = list_to_set (own_lis o ++ own_ctr c ++ own_conn (conn w)) → NoDup (own_lis o ++ own_ctr c ++ own_conn (conn w)) →
  wrong_closes k = wrong_closes (sys w) →
  inv (World k o c (conn w) (w_send w) (w_recv w) (sent w) (received w) us).
Proof.
  intros [H1 HJ H2 H3 H4 H5 H6 H7 H8] Hc Hb Hbc [G1 G2 <-] Hl Hct Hr Ht Hg Hf Hn Hw. exists s'. split.
  - split; simpl; try done; try congruence. by apply (bs_nodup _ _ _ _ _ _ _ Hb).
  - unfold conn_inv in *. simpl. rewrite Hr. destruct (conn w).
    + by eapply conn_frame; [done|done|set_solver+| |set_solver+|].
    + by eapply no_conn_frame; [done|done|set_solver+|set_solver+|].
Qed.

Lemma close_ok k n O : owner (rx k) = O → O !! n = None → n ∈ files k → close k n = set_files k (files k ∖ {[n]}) (wrong_closes k).
Proof.
  intros <- HO Hn. unfold close. rewrite !bool_decide_eq_true_2; try done. unfold owner in HO. rewrite lookup_fmap in HO.
  by destruct (registered (rx k) !! n).
Qed.

(** A new descriptor is closed again. *)
Lemma close_open k k1 n O : owner (rx k1) = O → O !! n = None → n ∉ files k → files k1 = files (open k n) → wrong_closes k1 = wrong_closes k →
  close k1 n = set_files k1 (files k) (wrong_closes k).
Proof.
  intros HO Hn Hf Hk Hw. erewrite close_ok; [|done|done|rewrite Hk; simpl; set_solver+].
  rewrite Hk, Hw. f_equal. simpl. set_solver.
Qed.

Lemma fresh_ok k n O : fresh k n = true → owner (rx k) = O → 0 ≤ n ∧ (n ∉ files k) ∧ O !! n = None.
Proof.
  intros Hf <-. unfold fresh in Hf. zify_bool. split_and!; try done. unfold owner. rewrite lookup_fmap.
  match goal with H : registered _ !! _ = None |- _ => by rewrite H end.
Qed.

Abbreviation conn_jobs := [send_job A; recv_job A; err_job A].

Lemma lis_bfd_other : listener_bfd A ∉ [connector_bfd A; connection_bfd A].
Proof. pose proof fds_ne. set_solver. Qed.

Lemma ctr_bfd_other : connector_bfd A ∉ [listener_bfd A; connection_bfd A].
Proof. pose proof fds_ne. set_solver. Qed.

Lemma ctr_job_other : connector_job A ∉ default_job A :: conn_jobs.
Proof. destruct jobs_ne as (H1 & H2 & _). rewrite elem_of_cons. intros [Hj|Hj]; [|done]. apply H1. rewrite Hj. set_solver+. Qed.

Lemma ctr_job_ne : connector_job A ≠ recv_job A ∧ connector_job A ≠ err_job A.
Proof. destruct jobs_ne as (_ & H & _). set_solver. Qed.

Lemma lis_jobs_other : default_job A ∉ connector_job A :: conn_jobs.
Proof. apply jobs_ne. Qed.

Lemma lis_job_ne : default_job A ≠ recv_job A ∧ default_job A ≠ err_job A.
Proof. destruct jobs_ne as (H & _). set_solver. Qed.

(** The outcome of an initialisation: the descriptors [new] were opened and kept. *)
Record grows (P Q : list ptr) (k : Sys.t) (s : spec) (O : gmap Z ptr) (k' : Sys.t) (s' : spec) (O' : gmap Z ptr) (new : list Z) : Prop := {
  gr_st : st k' s' O';
  gr_beside : beside P Q (elements (files k)) s O s' O';
  gr_conn : beside_conn s s';
  gr_ram : ram k' = ram k;
  gr_took : took k' = took k;
  gr_gave : gave k' = gave k;
  gr_wrong : wrong_closes k' = wrong_closes k;
  gr_files : files k' = list_to_set new ∪ files k;
  gr_new n : n ∈ new → n ∉ files k;
}.

Lemma grows_refl P Q k s O : st k s O → grows P Q k s O k s O [].
Proof. intros Hst. split; try done; set_solver+. Qed.

(** A system that differs from [k] in the reactor and in that [n] is open. *)
Record opened (k : Sys.t) (s : spec) (O : gmap Z ptr) (n : Z) (k1 : Sys.t) : Prop := {
  op_st : st k1 s O;
  op_files : files k1 = {[n]} ∪ files k;
  op_wrong : wrong_closes k1 = wrong_closes k;
  op_ram : ram k1 = ram k;
  op_took : took k1 = took k;
  op_gave : gave k1 = gave k;
}.

Lemma open_opened k s O n : st k s O → opened k s O n (open k n).
Proof. intros [H1 H2 H3]. by split. Qed.

Lemma opened_rx k s O n k1 r : opened k s O n k1 → st (set_rx k1 r) s O → opened k s O n (set_rx k1 r).
Proof. intros [H1 H2 H3 H4 H5 H6] Hst. by split. Qed.

Lemma opened_close P Q k s O n k1 : opened k s O n k1 → n ∉ files k → O !! n = None → grows P Q k s O (close k1 n) s O [].
Proof.
  intros [H1 H2 H3 H4 H5 H6] Hn HO.
  rewrite (close_open k k1 n O); [|apply H1|done..]. split; simpl; try done; [|set_solver+|set_solver+].
  by apply (st_same k1).
Qed.

(** [BListener_Init] and [BListener_InitUnix] when there is no listener yet. *)
Section listener_init.
Context (k : Sys.t) (s : spec) (O : gmap Z ptr) (a : kernel).
Context (Hst : st k s O) (Hlis : lis_ok s O None) (Ha : answers_ok k a = true).

Abbreviation l_grows := (grows [connector_bfd A; connection_bfd A] (connector_job A :: conn_jobs) k s O).

Lemma socket_fresh n : on_socket a = Some n → 0 ≤ n ∧ (n ∉ files k) ∧ O !! n = None.
Proof.
  intros Hn. unfold answers_ok in Ha. rewrite Hn in Ha. apply andb_true_iff in Ha as [Ha1 _].
  eapply fresh_ok; [done|apply Hst].
Qed.

Lemma listener_watch k1 path n : opened k s O n k1 → n ∉ files k → O !! n = None →
  ∃ o r s' O', BListener.watch A k1 a path n = Ok (o, set_rx k1 r) ∧ lis_ok s' O' o ∧
    match o with
    | Some l => BListener.fd l = n ∧ l_grows (set_rx k1 r) s' O' [n]
    | None => opened k s O n (set_rx k1 r) ∧ s' = s ∧ O' = O
    end.
Proof.
  intros Hop Hn HO. destruct Hop as [Hst1 Hf Hw Hr Ht Hg].
  unfold BListener.watch.
  destruct (call_watch _ _ _ (listener_bfd A) n (on_epoll_add a) Hst1 (proj1 Hlis) HO) as (r1 & r2 & -> & Hr2 & Hst2).
  rewrite ok_bind, Hr2, ok_bind. destruct (on_epoll_add a); cbn [negb].
  - destruct (call_set_events _ _ _ (listener_bfd A) 0 BREACTOR_READ Hst2) as (r3 & Hr3 & Hst3); [simpl; by rewrite lookup_insert_eq|done|].
    change (set_rx (set_rx k1 r2) r3) with (set_rx k1 r3) in *. change (set_rx (set_rx k1 r1) r2) with (set_rx k1 r2). rewrite Hr3.
    match type of Hst3 with st _ ?s' ?O' => exists (Some (BListener.mk path n)), r3, s', O' end.
    split; [done|]. split; [|split; [done|]].
    + split; simpl; by rewrite lookup_insert_eq.
    + split; simpl; try done.
      * eapply beside_trans; [apply beside_add; [apply lis_bfd_other| |done]|apply beside_fds, lis_bfd_other].
        by rewrite elem_of_elements.
      * by rewrite union_empty_r_L.
      * by intros n' ->%list_elem_of_singleton.
  - exists None, r2, s, O. by split.
Qed.

Lemma listener_init_ok addr : addr_ok addr = true →
  ∃ o k' s' O', BListener_InitGeneric A k a addr = Ok (o, k') ∧ lis_ok s' O' o ∧ l_grows k' s' O' (own_lis o).
Proof.
  intros Hok. assert (Hnone : ∀ k', l_grows k' s O [] → ∃ o k'' s' O', Ok (None (A := BListener.t), k') = Ok (o, k'') ∧ lis_ok s' O' o ∧
    l_grows k'' s' O' (own_lis o)) by (intros k' Hk'; by exists None, k', s, O).
  assert (Hsame : l_grows k s O []) by by apply grows_refl.
  unfold BListener_InitGeneric. destruct addr as [b|path]; simpl in Hok |- *.
  - unfold BListener.Init, AddressSupported. destruct (BAddr.Assert b) as [[]|] eqn:Hb; [|done]. rewrite !ok_bind.
    destruct (match b with BAddr.IPV4 _ _ | BAddr.IPV6 _ _ => true | _ => false end) eqn:Hsup; cbn [negb]; [|by apply Hnone].
    assert (∃ sa, addr_socket_to_sys b = Ok sa) as [sa ->] by (destruct b; try done; by eexists). rewrite ok_bind.
    destruct (on_socket a) as [n|] eqn:Hn; [|by apply Hnone]. destruct (socket_fresh n Hn) as (_ & Hnf & HO).
    pose proof (open_opened _ _ _ n Hst) as Hop. pose proof (λ P Q k1 H, opened_close P Q k s O n k1 H Hnf HO) as Hclose.
    destruct (on_fcntl a); cbn [negb]; [|by apply Hnone, Hclose]. destruct (on_bind a sa); cbn [negb]; [|by apply Hnone, Hclose].
    destruct (on_listen a); cbn [negb]; [|by apply Hnone, Hclose].
    destruct (listener_watch _ None n Hop Hnf HO) as (o & r & s' & O' & -> & Hl & Ho). rewrite ok_bind.
    destruct o as [l|].
    + destruct Ho as [<- Hg]. by eexists _, _, s', O'.
    + destruct Ho as [Hop' _]. by apply Hnone, Hclose.
  - rewrite Hok. cbn [c_assert]. destruct (on_strdup_bin a); cbn [negb]; [|by apply Hnone].
    unfold BListener.InitUnix. destruct (on_strdup a); cbn [negb]; [|by apply Hnone].
    destruct (build_unix_address path) as [sa|]; [|by apply Hnone].
    destruct (on_socket a) as [n|] eqn:Hn; [|by apply Hnone]. destruct (socket_fresh n Hn) as (_ & Hnf & HO).
    pose proof (open_opened _ _ _ n Hst) as Hop. pose proof (λ P Q k1 H, opened_close P Q k s O n k1 H Hnf HO) as Hclose.
    assert (Hunlink : ∀ k1, opened k s O n k1 → opened k s O n (unlink k1 path)).
    { intros k1 [H1 H2 H3 H4 H5 H6]. split; try done. by apply (st_same k1). }
    destruct (on_fcntl a); cbn [negb]; [|by apply Hnone, Hclose]. destruct (on_unlink a path); cbn [negb]; [|by apply Hnone, Hclose, Hunlink].
    destruct (on_bind a sa); cbn [negb]; [|by apply Hnone, Hclose, Hunlink].
    destruct (on_listen a); cbn [negb]; [|by apply Hnone, Hclose, Hunlink, Hunlink].
    destruct (listener_watch _ (Some path) n (Hunlink _ Hop) Hnf HO) as (o & r & s' & O' & -> & Hl & Ho). rewrite ok_bind.
    destruct o as [l|].
    + destruct Ho as [<- Hg]. by eexists _, _, s', O'.
    + destruct Ho as [Hop' _]. by apply Hnone, Hclose, Hunlink.
Qed.
End listener_init.

(** [BConnector_Init] and [BConnector_InitUnix] when there is no connector yet. *)
Section connector_init.
Context (k : Sys.t) (s : spec) (O : gmap Z ptr) (a : kernel).
Context (Hst : st k s O) (Hctr : ctr_ok s O None) (Ha : answers_ok k a = true).

Abbreviation c_grows := (grows [listener_bfd A; connection_bfd A] (default_job A :: conn_jobs) k s O).

Lemma ctr_job_unset : beside_conn s (with_jobs s (job_unset (connector_job A) (s_jobs s))).
Proof. split; [done|]. apply shielded_unset, ctr_job_ne. Qed.

Lemma connector_fail1 k1 : c_grows k1 s O [] →
  ∃ o k' s' O', BConnector.fail1 A k1 = Ok (o, k') ∧ ctr_ok s' O' o ∧ c_grows k' s' O' (own_ctr o).
Proof.
  intros [H1 H2 H3 H4 H5 H6 H7 H8 H9]. unfold BConnector.fail1.
  destruct (call_unset_job _ _ _ (connector_job A) H1) as (r & -> & Hst1). rewrite ok_bind.
  match type of Hst1 with st _ ?s' _ => exists None, (set_rx k1 r), s', O end. split; [done|]. split.
  - destruct Hctr as [Hc1 Hc2]. split; [done|]. simpl. rewrite elem_of_job_unset. by intros [_ H].
  - split; simpl; try done. + apply beside_job_unset, ctr_job_other. + apply ctr_job_unset.
Qed.

Lemma connector_start_ok sa :
  ∃ o k' s' O', BConnector.start A k a sa = Ok (o, k') ∧ ctr_ok s' O' o ∧ c_grows k' s' O' (own_ctr o).
Proof.
  destruct Hctr as [Hc1 Hc2]. unfold BConnector.start.
  destruct (on_socket a) as [n|] eqn:Hn; [|by apply connector_fail1, grows_refl].
  destruct (socket_fresh _ _ _ _ Hst Ha n Hn) as (Hn0 & Hnf & HO).
  pose proof (open_opened _ _ _ n Hst) as Hop. pose proof (λ P Q k1 H, opened_close P Q k s O n k1 H Hnf HO) as Hclose.
  assert (Hn1 : (n =? -1) = false) by (apply Z.eqb_neq; lia).
  destruct (on_fcntl a); cbn [negb]; [|by apply connector_fail1, Hclose].
  destruct (on_connect a sa); [| |by apply connector_fail1, Hclose].
  - destruct (call_set_job _ _ _ (connector_job A) (op_st _ _ _ _ _ Hop)) as (r & -> & Hst1). rewrite ok_bind.
    match type of Hst1 with st _ ?s' _ => exists (Some (BConnector.mk n true false)), (set_rx (open k n) r), s', O end. split; [done|]. simpl. rewrite Hn1. split.
    + split; [done|]. right. by split_and!.
    + split; simpl; try done.
      * apply beside_job_set, ctr_job_other.
      * split; [done|]. apply shielded_set; apply ctr_job_ne.
      * by rewrite union_empty_r_L.
      * by intros n' ->%list_elem_of_singleton.
  - destruct (call_watch _ _ _ (connector_bfd A) n (on_epoll_add a) (op_st _ _ _ _ _ Hop) Hc1 HO) as (r1 & r2 & -> & Hr2 & Hst2).
    rewrite ok_bind, Hr2, ok_bind. destruct (on_epoll_add a); cbn [negb].
    + destruct (call_set_events _ _ _ (connector_bfd A) 0 BREACTOR_WRITE Hst2) as (r3 & Hr3 & Hst3); [simpl; by rewrite lookup_insert_eq|done|].
      change (set_rx (set_rx (open k n) r1) r2) with (set_rx (open k n) r2). rewrite Hr3, ok_bind.
      match type of Hst3 with st _ ?s' ?O' => exists (Some (BConnector.mk n false true)), (set_rx (open k n) r3), s', O' end.
      split; [done|]. simpl. rewrite Hn1. split.
      * simpl. rewrite !lookup_insert_eq. by split_and!.
      * split; simpl; try done.
        -- eapply beside_trans; [apply beside_add; [apply ctr_bfd_other| |done]|apply beside_fds, ctr_bfd_other].
           by rewrite elem_of_elements.
        -- by rewrite union_empty_r_L.
        -- by intros n' ->%list_elem_of_singleton.
    + apply connector_fail1, Hclose. by apply (opened_rx _ _ _ _ _ r2) in Hop.
Qed.

Lemma connector_init_ok addr : addr_ok addr = true →
  ∃ o k' s' O', BConnector_InitGeneric A k a addr = Ok (o, k') ∧ ctr_ok s' O' o ∧ c_grows k' s' O' (own_ctr o).
Proof.
  intros Hok. assert (Hnone : ∃ o k' s' O', Ok (None (A := BConnector.t), k) = Ok (o, k') ∧ ctr_ok s' O' o ∧
    c_grows k' s' O' (own_ctr o)) by (exists None, k, s, O; split; [done|]; split; [done|by apply grows_refl]).
  unfold BConnector_InitGeneric. destruct addr as [b|path]; simpl in Hok |- *.
  - unfold BConnector.Init, AddressSupported. destruct (BAddr.Assert b) as [[]|] eqn:Hb; [|done]. rewrite !ok_bind.
    destruct (match b with BAddr.IPV4 _ _ | BAddr.IPV6 _ _ => true | _ => false end) eqn:Hsup; cbn [negb]; [|by apply Hnone].
    assert (∃ sa, addr_socket_to_sys b = Ok sa) as [sa ->] by (destruct b; try done; by eexists). rewrite ok_bind.
    apply connector_start_ok.
  - rewrite Hok. cbn [c_assert]. destruct (on_strdup_bin a); cbn [negb]; [|by apply Hnone].
    unfold BConnector.InitUnix. destruct (build_unix_address path) as [sa|]; [|by apply Hnone]. apply connector_start_ok.
Qed.
End connector_init.

(** *** The program's calls *)

Lemma NoDup_grow (new : list Z) k old : files k = list_to_set old → (∀ n, n ∈ new → n ∉ files k) → NoDup new → NoDup old → NoDup (new ++ old).
Proof.
  intros Hf Hn H1 H2. apply NoDup_app. split; [done|]. split; [|done]. intros n Hin Hold. apply (Hn n Hin). rewrite Hf.
  by apply elem_of_list_to_set.
Qed.

Lemma own_lis_nodup o : NoDup (own_lis o).
Proof. destruct o; [apply NoDup_singleton|constructor]. Qed.
Lemma own_ctr_nodup o : NoDup (own_ctr o).
Proof. destruct o as [c|]; simpl; [destruct (_ =? _)|]; [constructor|apply NoDup_singleton|constructor]. Qed.

Lemma listener_grows w s o k' s' O' : base w s → conn_inv w s → lis w = None →
  grows [connector_bfd A; connection_bfd A] (connector_job A :: conn_jobs) (sys w) s (owner (rx (sys w))) k' s' O' (own_lis o) →
  lis_ok s' O' o → inv (set_lis w o k').
Proof.
  intros Hb Hc Hl [H1 H2 H3 H4 H5 H6 H7 H8 H9] Ho. pose proof (b_files _ _ Hb) as Hf. pose proof (b_nodup _ _ Hb) as Hn.
  unfold owned in Hf, Hn. rewrite Hl in Hf, Hn. simpl in Hf, Hn.
  eapply (objs_next w s); [done|done| |done|done|done| |done|done|done| | |done].
  - eapply beside_weaken; [done|set_solver+|set_solver+|]. intros n Hn'. eapply owned_in; [done|]. by right; right.
  - eapply ctr_frame; [done|set_solver+|set_solver+| |apply Hb]. intros n Hn'. eapply owned_in; [done|]. by right; left.
  - rewrite H8, Hf. symmetry. apply list_to_set_app_L.
  - eapply NoDup_grow; [done|done|apply own_lis_nodup|done].
Qed.

Lemma connector_grows w s o k' s' O' : base w s → conn_inv w s → ctr w = None →
  grows [listener_bfd A; connection_bfd A] (default_job A :: conn_jobs) (sys w) s (owner (rx (sys w))) k' s' O' (own_ctr o) →
  ctr_ok s' O' o → inv (set_ctr w o k').
Proof.
  intros Hb Hc Hl [H1 H2 H3 H4 H5 H6 H7 H8 H9] Ho. pose proof (b_files _ _ Hb) as Hf. pose proof (b_nodup _ _ Hb) as Hn.
  unfold owned in Hf, Hn. rewrite Hl in Hf, Hn. simpl in Hf, Hn.
  assert (Hperm : own_lis (lis w) ++ own_ctr o ++ own_conn (conn w) ≡ₚ own_ctr o ++ own_lis (lis w) ++ own_conn (conn w)) by solve_Permutation.
  eapply (objs_next w s); [done|done| |done|done| |done|done|done|done| | |done].
  - eapply beside_weaken; [done|set_solver+|set_solver+|]. intros n Hn'. eapply owned_in; [done|]. by right; right.
  - eapply lis_frame; [done|set_solver+|set_solver+|apply Hb].
  - rewrite H8, Hf. set_solver+.
  - rewrite Hperm. eapply NoDup_grow; [done|done|apply own_ctr_nodup|done].
Qed.

Lemma base_st w s : base w s → at_mode (rx (sys w)) = Program → st (sys w) s (owner (rx (sys w))).
Proof. intros Hb Hm. split; [apply Hb|done|done]. Qed.

Section calls.
Context (w : world) (s : spec) (Hb : base w s) (Hc : conn_inv w s).

Lemma conn_owned n : n ∈ own_conn (conn w) → n ∈ elements (files (sys w)).
Proof. intros Hn. eapply owned_in; [done|]. by right; right. Qed.

Lemma ctr_owned n : n ∈ own_ctr (ctr w) → n ∈ elements (files (sys w)).
Proof. intros Hn. eapply owned_in; [done|]. by right; left. Qed.

Lemma lis_inv l : lis w = Some l →
  s_watched s !! listener_bfd A = Some BREACTOR_READ ∧ owner (rx (sys w)) !! BListener.fd l = Some (listener_bfd A) ∧
  BListener.fd l ∈ files (sys w) ∧ files (sys w) ∖ {[BListener.fd l]} = list_to_set (own_ctr (ctr w) ++ own_conn (conn w)) ∧
  NoDup (own_ctr (ctr w) ++ own_conn (conn w)).
Proof.
  intros Hl. pose proof (b_lis _ _ Hb) as H. pose proof (b_files _ _ Hb) as Hf. pose proof (b_nodup _ _ Hb) as Hn.
  unfold owned in Hf, Hn. rewrite Hl in H, Hf, Hn. destruct H as [H1 H2]. simpl in Hf, Hn. apply NoDup_cons in Hn as [Hn1 Hn2].
  split_and!; try done; rewrite Hf; [set_solver+|]. apply set_eq. intros n. rewrite elem_of_difference, elem_of_union, elem_of_list_to_set, elem_of_singleton.
  split; [intros [[|] ?]; done|]. intros Hin. split; [by right|]. by intros ->.
Qed.

Lemma listener_free_ok l : at_mode (rx (sys w)) = Program → lis w = Some l →
  ∃ k, BListener.Free A l (sys w) = Ok k ∧ inv (set_lis w None k).
Proof.
  intros Hm Hl. destruct (lis_inv l Hl) as (Hw & HO & Hin & Hf & Hn). unfold BListener.Free.
  destruct (call_unset_job _ _ _ (default_job A) (base_st _ _ Hb Hm)) as (r1 & -> & Hst1). rewrite ok_bind.
  destruct (call_remove _ _ _ (listener_bfd A) _ Hst1 HO) as (r2 & -> & Hst2). rewrite ok_bind.
  change (set_rx (set_rx (sys w) r1) r2) with (set_rx (sys w) r2) in *.
  rewrite (close_ok _ _ _ (st_owner _ _ _ Hst2)); [|by rewrite lookup_delete_eq|done]. eexists. split; [done|].
  set (k1 := set_files (set_rx (sys w) r2) (files (sys w) ∖ {[BListener.fd l]}) (wrong_closes (sys w))).
  apply (st_same _ (match BListener.unix_socket_path l with Some path => unlink k1 path | None => k1 end)) in Hst2;
    [|by destruct (BListener.unix_socket_path l)].
  refine (objs_next w s _ _ _ None (ctr w) _ Hb Hc _ _ Hst2 _ _ _ _ _ _ Hn _).
  - eapply beside_trans; [apply (beside_job_unset _ _ _ _ _ (default_job A)); destruct jobs_ne as (H & _); set_solver|apply beside_remove; [pose proof fds_ne; set_solver|done]].
  - split; [done|]. apply shielded_unset. apply lis_job_ne.
  - split; simpl; [by rewrite lookup_delete_eq|]. rewrite elem_of_job_unset. naive_solver.
  - eapply (ctr_frame [connector_bfd A] [connector_job A] (elements (files (sys w)))); [|set_solver+|set_solver+|apply ctr_owned|apply Hb].
    eapply beside_trans; [apply (beside_job_unset _ _ _ _ _ (default_job A)); destruct jobs_ne as (H & _); set_solver|apply beside_remove; [pose proof fds_ne; set_solver|done]].
  - by destruct (BListener.unix_socket_path l).
  - by destruct (BListener.unix_socket_path l).
  - by destruct (BListener.unix_socket_path l).
  - by destruct (BListener.unix_socket_path l).
  - by destruct (BListener.unix_socket_path l).
Qed.

(** With its handler, the listener only sets its job. *)
Lemma listener_handler_ok l : at_mode (rx (sys w)) = Program → lis w = Some l →
  ∃ w', ('(k, us) ← BListener.listener_fd_handler A (sys w); run_calls do_call (set_sys w k) us) = Ok w' ∧ inv w'.
Proof.
  intros Hm Hl. destruct (lis_inv l Hl) as (Hw & HO & Hin & Hf & Hn). unfold BListener.listener_fd_handler.
  destruct (call_set_job _ _ _ (default_job A) (base_st _ _ Hb Hm)) as (r1 & -> & Hst1). rewrite !ok_bind. simpl.
  eexists. split; [done|].
  refine (objs_next w s _ _ _ (lis w) (ctr w) _ Hb Hc _ _ Hst1 _ _ eq_refl eq_refl eq_refl (b_files _ _ Hb) (b_nodup _ _ Hb) eq_refl).
  - apply beside_job_set. destruct jobs_ne as (H & _). set_solver.
  - split; [done|]. apply shielded_set; apply lis_job_ne.
  - rewrite Hl. by split.
  - eapply (ctr_frame [connector_bfd A] [connector_job A] (elements (files (sys w)))); [|set_solver+|set_solver+|apply ctr_owned|apply Hb].
    apply beside_job_set. destruct jobs_ne as (H & _). set_solver.
Qed.

Lemma default_job_ok a : answers_ok (sys w) a = true → inv (set_sys w (BListener.listener_default_job_handler (sys w) a)).
Proof.
  intros Ha. assert (Hi : inv (set_sys w (sys w))) by (exists s; split; [by destruct Hb|done]).
  unfold BListener.listener_default_job_handler. destruct (on_accept a) as [[n ad]|] eqn:Hn; [|done].
  unfold answers_ok in Ha. rewrite Hn in Ha. apply andb_true_iff in Ha as [_ [Hfr _]%andb_true_iff].
  destruct (fresh_ok _ _ _ Hfr eq_refl) as (_ & Hnf & HO).
  rewrite (close_open (sys w) (open (sys w) n) n (owner (rx (sys w))) eq_refl HO Hnf); [|done|done].
  replace (set_files (open (sys w) n) _ _) with (sys w) by by destruct (sys w). exact Hi.
Qed.

(** The connector's descriptor while it has one. *)
Lemma ctr_inv c : ctr w = Some c → BConnector.fd c ≠ -1 →
  BConnector.fd c ∈ files (sys w) ∧ files (sys w) ∖ {[BConnector.fd c]} = list_to_set (own_lis (lis w) ++ own_conn (conn w)) ∧
  NoDup (own_lis (lis w) ++ own_conn (conn w)).
Proof.
  intros Hl H1. pose proof (b_files _ _ Hb) as Hf. pose proof (b_nodup _ _ Hb) as Hn.
  unfold owned in Hf, Hn. rewrite Hl in Hf, Hn. simpl in Hf, Hn. rewrite (proj2 (Z.eqb_neq _ _)) in Hf, Hn by done.
  assert (Hp : own_lis (lis w) ++ [BConnector.fd c] ++ own_conn (conn w) ≡ₚ BConnector.fd c :: own_lis (lis w) ++ own_conn (conn w)) by solve_Permutation.
  rewrite Hp in Hn. apply NoDup_cons in Hn as [Hn1 Hn2]. split_and!; try done; rewrite Hf; [set_solver+|].
  apply set_eq. intros n. rewrite elem_of_difference, elem_of_list_to_set, Hp, elem_of_cons, elem_of_singleton, elem_of_list_to_set.
  split; [intros [[|] ?]; done|]. intros Hin. split; [by right|]. by intros ->.
Qed.

Lemma connector_free_ok c : at_mode (rx (sys w)) = Program → ctr w = Some c →
  ∃ k, BConnector.Free A c (sys w) = Ok k ∧ inv (set_ctr w None k).
Proof.
  intros Hm Hl. pose proof (b_ctr _ _ Hb) as H. rewrite Hl in H. simpl in H. pose proof (base_st _ _ Hb Hm) as Hst. unfold BConnector.Free.
  assert (Hr : ∃ r s1 O1, (if BConnector.have_bfd c then call (sys w) (Remove_fd (connector_bfd A)) else Ok (sys w)) = Ok (set_rx (sys w) r) ∧
    st (set_rx (sys w) r) s1 O1 ∧ s_watched s1 !! connector_bfd A = None ∧ (BConnector.fd c = -1 ∨ O1 !! BConnector.fd c = None) ∧
    beside [listener_bfd A; connection_bfd A] (default_job A :: conn_jobs) (elements (files (sys w))) s (owner (rx (sys w))) s1 O1 ∧
    beside_conn s s1).
  { destruct (BConnector.have_bfd c).
    - destruct H as (H1 & H2 & H3 & H4 & H5).
      destruct (call_remove _ _ _ (connector_bfd A) _ Hst H4) as (r & -> & Hst1). eexists r, _, _. split; [done|]. split; [exact Hst1|].
      simpl. rewrite !lookup_delete_eq. split; [done|]. split; [by right|]. split; [|done]. apply beside_remove; [apply ctr_bfd_other|done].
    - destruct H as (H1 & H2). exists (rx (sys w)), s, (owner (rx (sys w))). split; [by destruct (sys w)|]. split; [by apply (st_same (sys w))|].
      split; [done|]. split; [naive_solver|]. split; [apply beside_refl|done]. }
  destruct Hr as (r & s1 & O1 & -> & Hst1 & Hw1 & HO1 & Hb1 & Hc1). rewrite ok_bind.
  set (k1 := if negb (BConnector.fd c =? -1) then close (set_rx (sys w) r) (BConnector.fd c) else set_rx (sys w) r).
  assert (Hk1 : st k1 s1 O1 ∧ ram k1 = ram (sys w) ∧ took k1 = took (sys w) ∧ gave k1 = gave (sys w) ∧ wrong_closes k1 = wrong_closes (sys w) ∧
    files k1 = list_to_set (own_lis (lis w) ++ own_conn (conn w)) ∧ NoDup (own_lis (lis w) ++ own_conn (conn w))).
  { subst k1. destruct (Z.eqb_spec (BConnector.fd c) (-1)) as [He|He]; cbn [negb].
    - split_and!; try done; pose proof (b_files _ _ Hb) as Hf; pose proof (b_nodup _ _ Hb) as Hn; unfold owned in Hf, Hn;
        rewrite Hl in Hf, Hn; simpl in Hf, Hn; by rewrite He in Hf, Hn.
    - destruct (ctr_inv c Hl He) as (Hin & Hf & Hn). destruct HO1 as [?|HO1]; [done|].
      rewrite (close_ok _ _ _ (st_owner _ _ _ Hst1)) by done. split_and!; try done. by apply (st_same (set_rx (sys w) r)). }
  clearbody k1. destruct Hk1 as (Hst2 & H2 & H3 & H4 & H5 & H6 & H7).
  destruct (call_unset_job _ _ _ (connector_job A) Hst2) as (r2 & -> & Hst3). eexists. split; [done|].
  assert (Hb3 : beside [listener_bfd A; connection_bfd A] (default_job A :: conn_jobs) (elements (files (sys w))) s (owner (rx (sys w)))
    (with_jobs s1 (job_unset (connector_job A) (s_jobs s1))) O1).
  { eapply beside_trans; [exact Hb1|]. apply beside_job_unset, ctr_job_other. }
  refine (objs_next w s _ _ _ (lis w) None _ Hb Hc _ _ Hst3 _ _ H2 H3 H4 H6 H7 H5).
  - eapply beside_weaken; [exact Hb3|set_solver+|set_solver+|apply conn_owned].
  - destruct Hc1 as [G1 G2]. split; simpl; [done|]. intros Hs. apply shielded_unset; [apply ctr_job_ne|auto].
  - eapply lis_frame; [exact Hb3|set_solver+|set_solver+|apply Hb].
  - split; simpl; [done|]. rewrite elem_of_job_unset. by intros [? _].
Qed.

Lemma connector_fd_ok c a m : at_mode (rx (sys w)) = Program → ctr w = Some c → s_watched s !! connector_bfd A = Some m →
  ∃ w', run_ctr w (BConnector.connector_fd_handler A c (sys w) a) = Ok w' ∧ inv w'.
Proof.
  intros Hm Hl Hw. pose proof (b_ctr _ _ Hb) as H. rewrite Hl in H. simpl in H. pose proof (base_st _ _ Hb Hm) as Hst.
  destruct (BConnector.have_bfd c) eqn:Hbfd; [|destruct H as [H _]; by rewrite Hw in H].
  destruct H as (H1 & H2 & H3 & H4 & H5). unfold BConnector.connector_fd_handler. rewrite H2, Hbfd. run_assert. cbn [negb c_assert].
  destruct (call_remove _ _ _ (connector_bfd A) _ Hst H4) as (r & -> & Hst1). rewrite ok_bind. unfold run_ctr. rewrite ok_bind. simpl.
  eexists. split; [done|].
  assert (Hb1 : beside [listener_bfd A; connection_bfd A] (default_job A :: conn_jobs) (elements (files (sys w))) s (owner (rx (sys w)))
    (with_fds s (delete (connector_bfd A) (s_watched s)) (delete (connector_bfd A) (s_reported s))) (delete (BConnector.fd c) (owner (rx (sys w))))).
  { apply beside_remove; [apply ctr_bfd_other|done]. }
  set (ok := match on_so_error a with Some result => result =? 0 | None => false end).
  assert (Hown : own_ctr (Some (BConnector.mk (BConnector.fd c) (if ok then true else false) false)) = own_ctr (ctr w)) by by rewrite Hl.
  refine (objs_next w s _ _ _ (lis w) (Some (BConnector.mk (BConnector.fd c) (if ok then true else false) false)) _ Hb Hc _ _ Hst1 _ _
    eq_refl eq_refl eq_refl _ _ eq_refl).
  - eapply beside_weaken; [exact Hb1|set_solver+|set_solver+|apply conn_owned].
  - done.
  - eapply lis_frame; [exact Hb1|set_solver+|set_solver+|apply Hb].
  - simpl. rewrite !lookup_delete_eq. split; [done|]. right. by split_and!.
  - rewrite Hown. apply Hb.
  - rewrite Hown. apply Hb.
Qed.
End calls.

(** *** The connection's functions *)

Definition conn_state (s : spec) (O : gmap Z ptr) (m : mem) (o : option BConnection.t) (ws : option (ptr * list Z)) (wr : option (ptr * Z)) : Prop :=
  match o with Some o => conn_ok s O m o ws wr | None => no_conn s ws wr end.

(** The connection changes, and the connector if it was its source. *)
Lemma conn_next w s k s' O' c o ws wr us :
  base w s → others (own_lis (lis w) ++ own_ctr c) s (owner (rx (sys w))) s' O' → ctr_ok s (owner (rx (sys w))) c →
  st k s' O' → conn_state s' O' (ram k) o ws wr → took k = took (sys w) → gave k = gave (sys w) → wrong_closes k = wrong_closes (sys w) →
  files k = list_to_set (own_lis (lis w) ++ own_ctr c ++ own_conn o) → NoDup (own_lis (lis w) ++ own_ctr c ++ own_conn o) →
  inv (World k (lis w) c o ws wr (sent w) (received w) us).
Proof.
  intros [H1 HJ H2 H3 H4 H5 H6 H7 H8] Hb Hct [G1 G2 <-] Hc Ht Hg Hw Hf Hn. exists s'. split; [|exact Hc].
  split; simpl; try done; try congruence.
  - by apply (bs_nodup _ _ _ _ _ _ _ Hb).
  - eapply lis_frame; [exact Hb|set_solver+|set_solver+|done].
  - eapply ctr_frame; [exact Hb|set_solver+|set_solver+| |done]. intros n Hin. apply elem_of_app. by right.
Qed.

(** [fail1], and the rest of [BConnection_Init] when there is a descriptor. *)
Lemma conn_watch_ok k s O a n cf c client fs :
  st k s O → no_conn s None None → O !! n = None → (cf = true → n ∈ files k) → n ∉ fs →
  ∃ o k' s' O', BConnection.watch A k a n cf c client = Ok (Init_result o c client, k') ∧ st k' s' O' ∧ others fs s O s' O' ∧
    conn_state s' O' (ram k') o None None ∧ took k' = took k ∧ gave k' = gave k ∧ wrong_closes k' = wrong_closes k ∧
    match o with
    | Some o => own_conn (Some o) = (if cf then [n] else []) ∧ files k' = files k
    | None => files k' = if cf then files k ∖ {[n]} else files k
    end.
Proof.
  intros Hst [N1 N2 N3 _ _] HO Hcf Hfs. unfold BConnection.watch.
  destruct (call_watch _ _ _ (connection_bfd A) n (on_epoll_add a) Hst N1 HO) as (r1 & r2 & -> & Hr2 & Hst2).
  rewrite ok_bind, Hr2, ok_bind. change (set_rx (set_rx k r1) r2) with (set_rx k r2).
  destruct (on_epoll_add a); cbn [negb].
  - destruct (call_init_limit _ _ _ (send_limit A) BCONNECTION_SEND_LIMIT Hst2) as (r3 & -> & Hst3); [apply N2; set_solver+|done|].
    rewrite ok_bind. destruct (call_init_limit _ _ _ (recv_limit A) BCONNECTION_RECV_LIMIT Hst3) as (r4 & Hr4 & Hst4); [|done|].
    { simpl. rewrite lookup_insert_ne by apply limits_ne. apply N2. set_solver+. }
    rewrite Hr4, ok_bind. change (set_rx (set_rx (set_rx k r2) r3) r4) with (set_rx k r4) in *.
    match type of Hst4 with st _ ?s' ?O' => eexists (Some _), (set_rx k r4), s', O' end. split; [done|]. split; [done|].
    split; [|split; [|by destruct cf]].
    + eapply beside_trans; [apply beside_add; [apply conn_bfd_other|exact Hfs|exact HO]|].
      eapply beside_trans; [apply beside_limits|apply beside_limits].
    + split; [|by intros _]. split; simpl; try done.
      * intros l Hl. destruct (decide (l = recv_limit A)) as [->|Hne]; [by rewrite lookup_insert_eq|rewrite lookup_insert_ne by done].
        destruct (decide (l = send_limit A)) as [->|Hne']; [by rewrite lookup_insert_eq|]. set_solver.
      * by rewrite !lookup_insert_eq.
      * intros H. exfalso. eapply (N3 (err_job A)); [set_solver+|done].
      * apply N3. set_solver+.
      * intros H. exfalso. eapply (N3 (recv_job A)); [set_solver+|done].
  - unfold fail1. exists None, (if cf then close (set_rx k r2) n else set_rx k r2), s, O. split; [done|]. destruct cf.
    + rewrite (close_ok _ _ _ (st_owner _ _ _ Hst2) HO) by (simpl; auto).
      split; [by apply (st_same (set_rx k r2))|]. split; [apply beside_refl|]. by split.
    + split; [done|]. split; [apply beside_refl|]. by split.
Qed.

Section conn_calls.
Context (w : world) (s : spec) (Hb : base w s) (Hm : at_mode (rx (sys w)) = Program).

Lemma init_pipe_ok a n : no_conn s (w_send w) (w_recv w) → conn w = None → fresh (sys w) n = true →
  ∃ w', run_init A w (Source_pipe n) a = Ok w' ∧ inv w'.
Proof.
  intros Hno Hc Hfr. pose proof (base_st _ _ Hb Hm) as Hst. destruct (fresh_ok _ _ _ Hfr eq_refl) as (Hn0 & Hnf & HO).
  pose proof (b_files _ _ Hb) as Hf. pose proof (b_nodup _ _ Hb) as Hn. unfold owned in Hf, Hn. rewrite Hc in Hf, Hn.
  pose proof Hno as [N1 N2 N3 N4 N5]. unfold run_init, BConnection.Init. rewrite c_assert_true by by apply Z.leb_le.
  destruct (on_fcntl a); cbn [negb].
  - destruct (conn_watch_ok (sys w) s _ a n false None None (own_lis (lis w) ++ own_ctr (ctr w)) Hst) as (o & k' & s' & O' & -> & Hst' & Hbe & Hcs & H1 & H2 & H3 & H4);
      [by rewrite <- N4 at 1; rewrite <- N5|done|done| |].
    { intros Hin. apply Hnf. rewrite Hf, app_assoc, list_to_set_app_L, elem_of_union. left. by apply elem_of_list_to_set. }
    rewrite ok_bind. eexists. split; [done|]. unfold set_ctr, set_conn. simpl. rewrite N4, N5.
    assert (Hown : own_conn o = [] ∧ files k' = files (sys w)) by (destruct o; [exact H4|done]). destruct Hown as [E1 E2].
    eapply (conn_next w s); [done|done|apply Hb|done|done|done|done|done|by rewrite E1, E2|by rewrite E1].
  - unfold fail1. rewrite ok_bind. eexists. split; [done|]. unfold set_ctr, set_conn. simpl.
    eapply (conn_next w s); [done|apply beside_refl|apply Hb|done|done|done|done|done|done|done].
Qed.

Lemma init_connector_ok a c : no_conn s (w_send w) (w_recv w) → conn w = None → ctr w = Some c → source_ok A (sys w) (Source_connector c) = true →
  ∃ w', run_init A w (Source_connector c) a = Ok w' ∧ inv w'.
Proof.
  intros Hno Hc Hct Hok. pose proof (base_st _ _ Hb Hm) as Hst. pose proof Hno as [N1 N2 N3 N4 N5].
  unfold run_init, BConnection.Init. rewrite Hok. cbn [c_assert]. simpl in Hok. unfold BPending_IsSet in Hok.
  rewrite <- (g_jobs _ _ (b_good _ _ Hb)) in Hok. zify_bool.
  pose proof (b_ctr _ _ Hb) as Hcok. rewrite Hct in Hcok. simpl in Hcok.
  destruct (BConnector.have_bfd c) eqn:Hbfd; [done|]. destruct Hcok as [Hw [[? _]|(Hfd & HO & _)]]; [lia|].
  destruct (ctr_inv w s Hb c Hct) as (Hin & Hf & Hn); [lia|]. rewrite Hc in Hf, Hn. simpl in Hf, Hn. rewrite app_nil_r in Hf, Hn.
  pose proof (b_files _ _ Hb) as Hf'. pose proof (b_nodup _ _ Hb) as Hn'. unfold owned in Hf', Hn'. rewrite Hc, Hct in Hf', Hn'.
  simpl in Hf', Hn'. rewrite (proj2 (Z.eqb_neq _ _)) in Hf', Hn' by lia.
  destruct (conn_watch_ok (sys w) s _ a (BConnector.fd c) true (Some (BConnector.mk (-1) (BConnector.connected c) false)) None
    (own_lis (lis w) ++ []) Hst) as (o & k' & s' & O' & -> & Hst' & Hbe & Hcs & T1 & T2 & T3 & T4);
    [by rewrite <- N4 at 1; rewrite <- N5|done|done| |].
  { rewrite app_nil_r. apply NoDup_app in Hn' as (_ & Hn' & _). intros Hl. apply (Hn' _ Hl). set_solver+. }
  rewrite ok_bind. eexists. split; [done|]. unfold set_ctr, set_conn. cbn [sys lis ctr conn w_send w_recv sent received upcalls made connector].
  rewrite N4, N5.
  assert (Hown : files k' = list_to_set (own_lis (lis w) ++ own_conn o) ∧ NoDup (own_lis (lis w) ++ own_conn o)).
  { destruct o as [o|].
    - destruct T4 as [E1 E2]. rewrite E1, E2. split; [exact Hf'|exact Hn'].
    - simpl. rewrite app_nil_r. split; [by rewrite T4|done]. }
  destruct Hown as [E1 E2]. eapply (conn_next w s); [done|exact Hbe| |done|done|done|done|done|exact E1|exact E2].
  split; [done|]. by left.
Qed.

Lemma init_listener_ok a l out_addr : no_conn s (w_send w) (w_recv w) → conn w = None → lis w = Some l → answers_ok (sys w) a = true →
  BPending_IsSet (sys w) (default_job A) = true →
  ∃ w', run_init A w (Source_listener l out_addr) a = Ok w' ∧ inv w'.
Proof.
  intros Hno Hc Hl Ha Hset. pose proof (base_st _ _ Hb Hm) as Hst. pose proof Hno as [N1 N2 N3 N4 N5].
  unfold run_init, BConnection.Init. cbn [source_ok]. rewrite Hset. cbn [c_assert].
  destruct (call_unset_job _ _ _ (default_job A) Hst) as (r & -> & Hst1). rewrite ok_bind.
  set (s1 := with_jobs s (job_unset (default_job A) (s_jobs s))) in *.
  pose proof (b_files _ _ Hb) as Hf. pose proof (b_nodup _ _ Hb) as Hn. unfold owned in Hf, Hn. rewrite Hc in Hf, Hn. simpl in Hf, Hn. rewrite app_nil_r in Hf, Hn.
  (* the job of the listener is the only thing that changes *)
  assert (Hno1 : no_conn s1 (w_send w) (w_recv w)).
  { split; try done. intros j Hj. simpl. rewrite elem_of_job_unset. intros [_ Hin]. by apply (N3 j). }
  assert (Hb1 : base (set_sys w (set_rx (sys w) r)) s1).
  { destruct Hb as [G1 GJ G2 G3 G4 G5 G6 G7 G8]. pose proof (st_owner _ _ _ Hst1) as HO1. simpl in HO1.
    split; simpl; rewrite ?HO1; try done.
    - apply Hst1. - by apply NoDup_job_unset.
    - unfold lis_ok in *. rewrite Hl in *. done.
    - eapply (ctr_frame [connector_bfd A] [connector_job A] (own_ctr (ctr w))); [|set_solver+|set_solver+|done|exact G3].
      apply beside_job_unset. destruct jobs_ne as (H & _). set_solver. }
  set (w1 := set_sys w (set_rx (sys w) r)) in *. change (set_rx (sys w) r) with (sys w1) in Hst1 |- *.
  pose proof (st_owner _ _ _ Hst1) as HO1. rewrite <- HO1 in Hst1.
  assert (Hnone : ∀ k, st k s1 (owner (rx (sys w1))) → took k = took (sys w) → gave k = gave (sys w) → wrong_closes k = wrong_closes (sys w) →
    files k = files (sys w) → ∃ w', (Ok (set_ctr (set_conn w None k) (ctr w) k) = Ok w' ∧ inv w')).
  { intros k Hk H1 H2 H3 H4. eexists. split; [done|]. unfold set_ctr, set_conn. simpl.
    eapply (conn_next w1 s1); [done|apply beside_refl|apply Hb1|done|done|done|done|done|..]; simpl; rewrite app_nil_r; [rewrite H4; exact Hf|exact Hn]. }
  destruct (on_accept a) as [[n ad]|] eqn:Hacc; [|rewrite ok_bind; apply Hnone; [exact Hst1|done..]].
  unfold answers_ok in Ha. rewrite Hacc in Ha. apply andb_true_iff in Ha as [_ [Hfr Hwf]%andb_true_iff].
  destruct (fresh_ok (sys w) n (owner (rx (sys w1))) Hfr) as (_ & Hnf & HO).
  { symmetry. exact HO1. }
  assert (Hst2 : st (open (sys w1) n) s1 (owner (rx (sys w1)))).
  { by apply (st_same (sys w1)). }
  assert (Hcl : close (open (sys w1) n) n = set_files (open (sys w1) n) (files (sys w)) (wrong_closes (sys w))).
  { by rewrite (close_open (sys w1) (open (sys w1) n) n (owner (rx (sys w1))) eq_refl HO). }
  destruct (on_fcntl a); cbn [negb].
  2:{ unfold fail1. rewrite ok_bind, Hcl. apply Hnone; [|done..]. by apply (st_same (open (sys w1) n)). }
  assert (∃ b, (if out_addr then b ← addr_sys_to_socket ad; Ok (Some b) else Ok None) = Ok b) as [b ->].
  { unfold addr_sys_to_socket, well_formed in *. destruct out_addr; [|by eexists]. destruct (SysAddr.addr ad); try rewrite Hwf; by eexists. }
  rewrite ok_bind.
  destruct (conn_watch_ok _ _ _ a n true None b (own_lis (lis w) ++ own_ctr (ctr w)) Hst2)
    as (o & k' & s' & O' & -> & Hst' & Hbe & Hcs & H1 & H2 & H3 & H4); [by rewrite <- N4 at 1; rewrite <- N5|done| | |].
  { intros _. simpl. set_solver+. }
  { intros Hin. apply Hnf. rewrite Hf. by apply elem_of_list_to_set. }
  rewrite ok_bind. eexists. split; [done|]. unfold set_ctr, set_conn. cbn [sys lis ctr conn w_send w_recv sent received upcalls made connector].
  rewrite N4, N5.
  assert (Hown : files k' = list_to_set (own_lis (lis w) ++ own_ctr (ctr w) ++ own_conn o) ∧ NoDup (own_lis (lis w) ++ own_ctr (ctr w) ++ own_conn o)).
  { destruct o as [o|].
    - destruct H4 as [E1 E2]. rewrite E1, E2. simpl. rewrite app_assoc, Hf. split; [set_solver+|].
      apply NoDup_app. split; [done|]. split; [|apply NoDup_singleton]. intros x Hx. rewrite list_elem_of_singleton. intros ->.
      apply Hnf. rewrite Hf. by apply elem_of_list_to_set.
    - simpl. rewrite app_nil_r. split; [|done]. rewrite H4. simpl. rewrite <- Hf. set_solver. }
  destruct Hown as [E1 E2]. eapply (conn_next w1 s1); [done|exact Hbe|apply Hb1|done|done|done|done|done|exact E1|exact E2].
Qed.

End conn_calls.

Section conn_frees.
Context (w : world) (s : spec) (o : BConnection.t) (Hb : base w s) (Hm : at_mode (rx (sys w)) = Program).
Context (Ho : conn w = Some o) (Hc : conn_ok s (owner (rx (sys w))) (ram (sys w)) o (w_send w) (w_recv w)).

Abbreviation O := (owner (rx (sys w))).

Lemma conn_files : files (sys w) = list_to_set (own_lis (lis w) ++ own_ctr (ctr w) ++ own_conn (Some o)) ∧
  NoDup (own_lis (lis w) ++ own_ctr (ctr w) ++ own_conn (Some o)).
Proof. rewrite <- Ho. split; apply Hb. Qed.

(** The connection's functions other than [BConnection_Init] and [BConnection_Free]. *)
Lemma conn_update k s' o' ws wr us :
  others (own_lis (lis w) ++ own_ctr (ctr w)) s O s' O → st k s' O → conn_ok s' O (ram (sys w)) o' ws wr →
  own_conn (Some o') = own_conn (Some o) → ram k = ram (sys w) → took k = took (sys w) → gave k = gave (sys w) →
  wrong_closes k = wrong_closes (sys w) → files k = files (sys w) →
  inv (World k (lis w) (ctr w) (Some o') ws wr (sent w) (received w) us).
Proof.
  intros Hbe Hst Hco Hown Hr Ht Hg Hw Hf. destruct conn_files as [F1 F2].
  eapply (conn_next w s); [done|exact Hbe|apply Hb|exact Hst|simpl; rewrite Hr; exact Hco|done|done|done|by rewrite Hf, Hown|by rewrite Hown].
Qed.

Lemma conn_jobs_unset P fs j s1 : j ∈ conn_jobs → beside P [default_job A; connector_job A] fs s O s1 O →
  beside P [default_job A; connector_job A] fs s O (with_jobs s1 (job_unset j (s_jobs s1))) O.
Proof. intros Hj Hs. eapply beside_trans; [exact Hs|]. by apply beside_job_unset, conn_job_other. Qed.

Lemma conn_free_ok : send o = SEND_STATE_NOT_INITED → recv o = RECV_STATE_NOT_INITED →
  ∃ k, BConnection.Free A o (sys w) = Ok k ∧ inv (set_conn w None k).
Proof.
  intros Hs Hr. pose proof (base_st _ _ Hb Hm) as Hst. destruct (co_mid _ _ _ _ _ _ Hc) as [M1 M2 M3 M4 M5 M6 M7 M8 M9].
  unfold send_port in M7. unfold recv_port in M8. rewrite Hs in M7. rewrite Hr in M8. unfold BConnection.Free.
  destruct (call_unset_job _ _ _ (err_job A) Hst) as (r1 & -> & Hst1). rewrite ok_bind, Hs, Hr. cbn [c_assert bool_decide_eq_true orb].
  rewrite !bool_decide_eq_true_2 by done. cbn [c_assert orb].
  destruct (call_free_limit _ _ _ (recv_limit A) Hst1) as (r2 & -> & Hst2); [apply M1; set_solver+|]. rewrite ok_bind.
  destruct (call_free_limit _ _ _ (send_limit A) Hst2) as (r3 & -> & Hst3).
  { simpl. rewrite lookup_delete_ne by (intros E; by apply limits_ne). apply M1. set_solver+. }
  rewrite ok_bind. change (set_rx (set_rx (set_rx (sys w) r1) r2) r3) with (set_rx (sys w) r3) in *.
  match type of Hst3 with st _ ?s3 _ => set (s3' := s3) in * end.
  assert (Hbe3 : others (own_lis (lis w) ++ own_ctr (ctr w)) s O s3' O).
  { eapply beside_trans; [apply (conn_jobs_unset _ _ (err_job A)); [set_solver+|apply beside_refl]|].
    eapply beside_trans; [apply beside_limits|apply beside_limits]. }
  assert (Hrem : ∃ r s4 O4, (if is_hupd o then Ok (set_rx (sys w) r3) else call (set_rx (sys w) r3) (Remove_fd (connection_bfd A))) =
      Ok (set_rx (sys w) r) ∧ st (set_rx (sys w) r) s4 O4 ∧ others (own_lis (lis w) ++ own_ctr (ctr w)) s O s4 O4 ∧
      s_watched s4 !! connection_bfd A = None ∧ s_limits s4 = s_limits s3' ∧ s_jobs s4 = s_jobs s3' ∧ (close_fd o = true → O4 !! fd o = None)).
  { destruct (is_hupd o).
    - exists r3, s3', O. split_and!; try done; naive_solver.
    - destruct M2 as [M2 M2']. destruct (call_remove _ _ _ (connection_bfd A) _ Hst3 M2') as (r4 & -> & Hst4).
      exists r4. eexists _, _. split; [done|]. split; [exact Hst4|]. split.
      + eapply beside_trans; [exact Hbe3|]. apply beside_remove; [apply conn_bfd_other|done].
      + simpl. rewrite !lookup_delete_eq. by split_and!. }
  destruct Hrem as (r & s4 & O4 & -> & Hst4 & Hbe4 & HW & HL & HJ & HO4). rewrite ok_bind. eexists. split; [done|].
  destruct conn_files as [F1 F2]. simpl in F1, F2.
  assert (Hno : no_conn s4 (w_send w) (w_recv w)).
  { split; try done.
    - intros l Hl. rewrite HL. simpl. destruct (decide (l = send_limit A)) as [->|]; [by rewrite lookup_delete_eq|].
      rewrite lookup_delete_ne by done. destruct (decide (l = recv_limit A)) as [->|]; [by rewrite lookup_delete_eq|]. set_solver.
    - intros j Hj. rewrite HJ. simpl. rewrite elem_of_job_unset. rewrite !elem_of_cons in Hj. intros [Hj1 Hj2].
      destruct Hj as [->|[->|[->|Hj]]]; [done| |done|by apply not_elem_of_nil in Hj]. specialize (M6 Hj2). by rewrite M6 in Hr. }
  destruct (close_fd o) eqn:Hcf.
  - assert (Hin : fd o ∈ files (sys w)) by (rewrite F1; set_solver+).
    rewrite (close_ok _ _ _ (st_owner _ _ _ Hst4)); [|auto|done].
    assert (Hp : own_lis (lis w) ++ own_ctr (ctr w) ++ [fd o] ≡ₚ fd o :: own_lis (lis w) ++ own_ctr (ctr w)) by solve_Permutation.
    rewrite Hp in F2. apply NoDup_cons in F2 as [F2 F3].
    eapply (conn_next w s); [done|exact Hbe4|apply Hb| |exact Hno|done|done|done| |].
    + by apply (st_same (set_rx (sys w) r)).
    + simpl. rewrite app_nil_r, F1. apply set_eq. intros n.
      rewrite elem_of_difference, elem_of_list_to_set, Hp, elem_of_cons, elem_of_singleton, elem_of_list_to_set.
      split; [intros [[|] ?]; done|]. intros Hn. split; [by right|]. by intros ->.
    + simpl. by rewrite app_nil_r.
  - eapply (conn_next w s); [done|exact Hbe4|apply Hb|exact Hst4|exact Hno|done|done|done|exact F1|exact F2].
Qed.

Lemma ldiff_mask x y : Z.ldiff x (Z.lor BREACTOR_READ BREACTOR_WRITE) = 0 →
  Z.ldiff (Z.ldiff x y) (Z.lor BREACTOR_READ BREACTOR_WRITE) = 0.
Proof.
  intros H. apply Z.bits_inj'. intros n Hn. apply (f_equal (λ z, Z.testbit z n)) in H.
  rewrite Z.ldiff_spec, Z.bits_0 in *. rewrite Z.ldiff_spec. by destruct (Z.testbit x n), (Z.testbit y n).
Qed.

Lemma stop_waiting_ok ev : ∃ o' r s', stop_waiting A o (sys w) ev = Ok (o', set_rx (sys w) r) ∧ st (set_rx (sys w) r) s' O ∧
  others (own_lis (lis w) ++ own_ctr (ctr w)) s O s' O ∧ s_jobs s' = s_jobs s ∧ mid s' O (ram (sys w)) o' (w_send w) (w_recv w) ∧
  o' = if is_hupd o then o else set_wait o (Z.ldiff (wait_events o) ev).
Proof.
  pose proof (base_st _ _ Hb Hm) as Hst. pose proof (co_mid _ _ _ _ _ _ Hc) as Hmid. unfold stop_waiting. destruct (is_hupd o) eqn:Hh.
  - exists o, (rx (sys w)), s. split; [by destruct (sys w)|]. split; [by apply (st_same (sys w))|]. split; [apply beside_refl|]. by split_and!.
  - pose proof (m_fd _ _ _ _ _ _ Hmid) as Hfd. rewrite Hh in Hfd. destruct Hfd as [Hwd HO].
    pose proof (ldiff_mask _ ev (m_wait _ _ _ _ _ _ Hmid)) as Hz. simpl.
    destruct (call_set_events _ _ _ _ _ (Z.ldiff (wait_events o) ev) Hst Hwd Hz) as (r & -> & Hst1). rewrite ok_bind.
    eexists _, r, _. split; [done|]. split; [exact Hst1|]. split; [apply beside_fds, conn_bfd_other|]. split; [done|]. split; [|done].
    by apply mid_set_wait.
Qed.

Lemma send_free_ok : send_inited o = true →
  ∃ o' k, SendAsync_Free A o (sys w) = Ok (o', k) ∧ inv (set_ports (set_conn w (Some o') k) None (w_recv w)).
Proof.
  intros Hi. unfold SendAsync_Free. rewrite Hi. cbn [c_assert].
  destruct (stop_waiting_ok BREACTOR_WRITE) as (o1 & r & s1 & -> & Hst1 & Hbe & HJ & Hmid & Ho1). rewrite ok_bind.
  destruct (call_unset_job _ _ _ (send_job A) Hst1) as (r2 & -> & Hst2). rewrite ok_bind. eexists _, _. split; [done|].
  destruct jobs_ne as (_ & _ & Hsj & Hrj). rewrite elem_of_cons, list_elem_of_singleton in Hsj.
  assert (Hj : ∀ j, j = recv_job A ∨ j = err_job A → j ∈ job_unset (send_job A) (s_jobs s1) ↔ j ∈ s_jobs s).
  { intros j Hj. rewrite elem_of_job_unset, HJ. naive_solver. }
  assert (Hown : own_conn (Some (set_send_state o1 SEND_STATE_NOT_INITED)) = own_conn (Some o)) by (rewrite Ho1; by destruct (is_hupd o)).
  eapply conn_update; [|exact Hst2| |exact Hown|done..].
  - eapply (conn_jobs_unset _ _ (send_job A)); [set_solver+|exact Hbe].
  - split.
    + destruct Hmid as [M1 M2 M3 M4 M5 M6 M7 M8 M9]. split; simpl; try done.
      * intros He. apply shielded_unset; [naive_solver|]. apply M4. rewrite HJ. apply Hj; [by right|done].
      * rewrite elem_of_job_unset. naive_solver.
      * intros He. apply M6. rewrite HJ. apply Hj; [by left|done].
    + simpl. rewrite Hj by by right. intros He. pose proof (co_waits _ _ _ _ _ _ Hc He) as Hw.
      assert (Hrec : receiving (with_jobs s1 (job_unset (send_job A) (s_jobs s1))) (set_send_state o1 SEND_STATE_NOT_INITED) = receiving s o).
      { unfold receiving. simpl. rewrite Ho1. f_equal; [by destruct (is_hupd o)|]. apply bool_decide_ext. rewrite Hj by by left. done. }
      rewrite Hrec. unfold waits in *. rewrite Ho1. destruct (is_hupd o) eqn:Hh; simpl; rewrite Hh; [naive_solver|].
      rewrite Hw. by destruct (sending o), (receiving s o).
Qed.

Lemma recv_free_ok : recv_inited o = true →
  ∃ o' k, RecvAsync_Free A o (sys w) = Ok (o', k) ∧ inv (set_ports (set_conn w (Some o') k) (w_send w) None).
Proof.
  intros Hi. unfold RecvAsync_Free. rewrite Hi. cbn [c_assert].
  destruct (stop_waiting_ok BREACTOR_READ) as (o1 & r & s1 & -> & Hst1 & Hbe & HJ & Hmid & Ho1). rewrite ok_bind.
  destruct (call_unset_job _ _ _ (recv_job A) Hst1) as (r2 & -> & Hst2). rewrite ok_bind. eexists _, _. split; [done|].
  destruct jobs_ne as (_ & _ & Hsj & Hrj). rewrite elem_of_cons, list_elem_of_singleton in Hsj. rewrite list_elem_of_singleton in Hrj.
  assert (Hj : err_job A ∈ job_unset (recv_job A) (s_jobs s1) ↔ err_job A ∈ s_jobs s).
  { rewrite elem_of_job_unset, HJ. naive_solver. }
  assert (Hown : own_conn (Some (set_recv_state o1 RECV_STATE_NOT_INITED)) = own_conn (Some o)) by (rewrite Ho1; by destruct (is_hupd o)).
  eapply conn_update; [|exact Hst2| |exact Hown|done..].
  - eapply (conn_jobs_unset _ _ (recv_job A)); [set_solver+|exact Hbe].
  - split.
    + destruct Hmid as [M1 M2 M3 M4 M5 M6 M7 M8 M9]. split; simpl; try done.
      * intros He. apply shielded_unset; [naive_solver|]. apply M4. rewrite HJ. by apply Hj.
      * rewrite elem_of_job_unset. naive_solver.
      * rewrite elem_of_job_unset. naive_solver.
    + simpl. rewrite Hj. intros He. pose proof (co_waits _ _ _ _ _ _ Hc He) as Hw.
      unfold receiving. simpl. unfold waits in *. rewrite Ho1.
      destruct (is_hupd o) eqn:Hh; simpl; rewrite Hh; [naive_solver|].
      rewrite Hw. unfold sending. simpl. by destruct (bool_decide (send o = SEND_STATE_BUSY)), (receiving s o).
Qed.

End conn_frees.

(** *** Every event *)

Lemma handler_jobs w s o : conn_inv w s → conn w = Some o →
  conn_ok s (owner (rx (sys w))) (ram (sys w)) o (w_send w) (w_recv w).
Proof. intros Hc Ho. unfold conn_inv in Hc. by rewrite Ho in Hc. Qed.

Lemma inv_upcall w u : inv w → inv (add_upcall w u).
Proof. intros (s & Hb & Hc). exists s. split; [|done]. by destruct Hb. Qed.

Section dispatching.
Context (w : world) (s s' : spec) (r : ReactorWorld.world) (out : output) (Hb : base w s) (Hc : conn_inv w s).
Context (Hg : good r s') (Hd : dispatched_ok s out s') (Hbc : beside_conn (popped s out) s').
Context (Hbe : beside (my_fds A) (my_jobs A) (elements (files (sys w))) (popped s out) (owner (rx (sys w))) s' (owner r)).

Abbreviation w1 := (set_sys w (set_rx (sys w) r)).

(** No handler of the three objects is called, or one that the reactor calls for a descriptor. *)
Lemma event_inv : (∀ j, out = Called (Job j) → j ∉ my_jobs A) → base w1 s' ∧ conn_inv w1 s'.
Proof.
  intros Hj. assert (Hne : ∀ j, j ∈ my_jobs A → out ≠ Called (Job j)) by (intros j Hin Hout; by apply (Hj j)). split.
  - eapply (base_event w s s' (owner r) out); [done..| |].
    + eapply (lis_event w s s' _ out); [done..|]. apply Hne. set_solver+.
    + eapply (ctr_event w s s' _ out); [done..|]. apply Hne. set_solver+.
  - eapply (conn_event w s s' (owner r) out); [done..| |done]. intros j Hout Hin. apply (Hj j Hout). set_solver.
Qed.

(** A job of one of the objects. *)
Lemma job_popped j : out = Called (Job j) → j ∈ s_jobs s ∧ (j ∈ my_jobs A → j ∉ s_jobs s').
Proof.
  intros Hout. pose proof Hd as Hd1. rewrite Hout in Hd1. destruct Hd1 as [J HJ]. pose proof (b_jobs _ _ Hb) as Hn. rewrite HJ in Hn. apply NoDup_cons in Hn as [Hn _].
  rewrite HJ. split; [set_solver+|]. intros Hj. rewrite (bs_jobs _ _ _ _ _ _ _ Hbe j Hj), Hout. simpl. by rewrite HJ.
Qed.

Lemma job_inv j : out = Called (Job j) → j ∉ conn_jobs →
  lis_ok s' (owner r) (lis w) → ctr_ok s' (owner r) (ctr w) → base w1 s' ∧ conn_inv w1 s'.
Proof.
  intros Hj Hnc Hl Hct. split; [by eapply base_event|]. eapply (conn_event w s s' (owner r) out); [done..| |done].
  rewrite Hj. by intros j' [= <-].
Qed.

Lemma not_my_fd p : p ≠ connection_bfd A → p ≠ connector_bfd A → p ≠ listener_bfd A → p ∉ my_fds A.
Proof. intros. unfold my_fds. rewrite !elem_of_cons. intros [?|[?|[?|?%not_elem_of_nil]]]; done. Qed.

Lemma not_my_job j : j ≠ err_job A → j ≠ recv_job A → j ≠ send_job A → j ≠ connector_job A → j ≠ default_job A → j ∉ my_jobs A.
Proof. intros. unfold my_jobs. rewrite !elem_of_cons. intros [?|[?|[?|[?|[?|?%not_elem_of_nil]]]]]; done. Qed.

Context (Hmode : match out with Called (Job _) | Called (Descriptor _ _) => at_mode r = Program | _ => True end).

Lemma descriptor_ok a p evs res : out = Called (Descriptor p evs) → dispatch A false w1 a out = Some res → ∃ w', res = Ok w' ∧ inv w'.
Proof.
  intros Hout Hres. pose proof Hd as Hd1. pose proof Hmode as Hmode1. rewrite Hout in Hd1, Hmode1, Hres.
  destruct Hd1 as (HJ & m & ev & Hm & ->). simpl in Hres.
  destruct event_inv as [Hb1 Hc1]; [by rewrite Hout|].
  case_bool_decide as H1; [subst p|case_bool_decide as H2; [subst p|case_bool_decide as H3; [subst p|]]].
  - destruct (conn w) as [o|] eqn:Ho.
    + destruct (handler o && error_ok false o (report m ev)) eqn:Hh; [|done]. injection Hres as <-. apply andb_true_iff in Hh as [Hh Herr].
      pose proof (handler_jobs w1 s' o Hc1 Ho) as [Hmid Hw]. assert (He : err_job A ∉ s_jobs s') by (rewrite HJ; apply not_elem_of_nil).
      change (set_rx (sys w) r) with (sys w1). eapply fd_handler_ok; [|done|by apply Hw|done|done]. by apply conn_within.
    + unfold conn_inv in Hc1. simpl in Hc1. rewrite Ho in Hc1. destruct Hc1 as [Hc1 _ _ _ _]. by rewrite Hm in Hc1.
  - destruct (ctr w) as [c|] eqn:Ho.
    + injection Hres as <-. by eapply (connector_fd_ok w1 s').
    + pose proof (b_ctr _ _ Hb1) as Hct. simpl in Hct. rewrite Ho in Hct. destruct Hct as [Hct _]. by rewrite Hm in Hct.
  - destruct (lis w) as [l|] eqn:Ho.
    + injection Hres as <-. by eapply (listener_handler_ok w1 s').
    + pose proof (b_lis _ _ Hb1) as Hct. simpl in Hct. rewrite Ho in Hct. destruct Hct as [Hct _]. by rewrite Hm in Hct.
  - injection Hres as <-. eexists. split; [done|]. by exists s'.
Qed.

(** The job of receiving: the connection has the state of its handler. *)
Lemma recv_job_within o : out = Called (Job (recv_job A)) → conn w = Some o → handler o = true → at_mode r = Program →
  within w1 s' o ∧ (recv_job A ∉ s_jobs s') ∧ recv o = RECV_STATE_BUSY ∧ waits o (sending o) false.
Proof.
  intros Hj Ho Hh Hm. destruct (job_popped _ Hj) as [Hin Hout]. specialize (Hout ltac:(set_solver+)).
  destruct (handler_jobs w s o Hc Ho) as [[M1 M2 M3 M4 M5 M6 M7 M8 M9] Hw]. destruct jobs_ne as (Hdj & Hcj & Hsj & Hrj).
  rewrite list_elem_of_singleton in Hrj.
  assert (He : err_job A ∉ s_jobs s).
  { intros He. specialize (M4 He). pose proof Hd as Hd1. rewrite Hj in Hd1. destruct Hd1 as [J HJ]. rewrite HJ in M4. destruct M4 as [?|[? _]]; done. }
  assert (Hl : lis_ok s' (owner r) (lis w)).
  { eapply (lis_event w s s' _ out); [done..|]. rewrite Hj. intros [= E]. apply Hdj. rewrite <- E. set_solver+. }
  assert (Hct : ctr_ok s' (owner r) (ctr w)).
  { eapply (ctr_event w s s' _ out); [done..|]. rewrite Hj. intros [= E]. apply Hcj. rewrite <- E. set_solver+. }
  assert (Hq : beside (my_fds A) [send_job A; err_job A] (elements (files (sys w))) s (owner (rx (sys w))) s' (owner r)).
  { apply (event_beside w s s' _ out); [done|done|set_solver+|]. rewrite Hj. intros j [= <-] Hj'. rewrite elem_of_cons, list_elem_of_singleton in Hj'.
    destruct Hj' as [E|E]; [apply Hsj; rewrite <- E; set_solver+|done]. }
  assert (Hq' : beside_conn s s').
  { eapply event_beside_conn; [done|done|]. rewrite Hj. by intros [= E]. }
  assert (He' : err_job A ∉ s_jobs s') by (rewrite (bs_jobs _ _ _ _ _ _ _ Hq); [done|set_solver+]).
  split; [|split; [done|split; [by apply M6|]]].
  - apply conn_within; [by eapply base_event|done|done|done|done|]. simpl. split; try done.
    + intros l Hl'. apply (bc_limits _ _ Hq' l Hl'). by apply M1.
    + rewrite (bs_watched _ _ _ _ _ _ _ Hq) by set_solver+. destruct (is_hupd o); destruct M2 as [M2 M2']; (split; [done|]).
      * intros Hcf. apply (bs_free _ _ _ _ _ _ _ Hq); [|by apply M2']. eapply owned_in; [done|]. right; right. rewrite Ho. simpl. rewrite Hcf. set_solver+.
      * by apply (bs_owner _ _ _ _ _ _ _ Hq); [set_solver+|].
    + rewrite (bs_jobs _ _ _ _ _ _ _ Hq); [done|set_solver+].
  - specialize (Hw He). unfold receiving in Hw. by rewrite (bool_decide_eq_false_2 (recv_job A ∉ s_jobs s)), andb_false_r in Hw by naive_solver.
Qed.

Lemma job_ok a j res : answers_ok (sys w1) a = true → out = Called (Job j) → dispatch A false w1 a out = Some res → ∃ w', res = Ok w' ∧ inv w'.
Proof.
  intros Ha Hj Hres. destruct (job_popped _ Hj) as [Hin Hout]. pose proof Hmode as Hmode1. rewrite Hj in Hres, Hmode1. simpl in Hres.
  destruct jobs_ne as (Hdj & Hcj & Hsj & Hrj).
  case_bool_decide as H1; [done|]. case_bool_decide as H2; [subst j|case_bool_decide as H3; [subst j|case_bool_decide as H4; [subst j|case_bool_decide as H5; [subst j|]]]].
  - destruct (conn w) as [o|] eqn:Ho.
    + destruct (handler o) eqn:Hh; [|done]. injection Hres as <-. destruct (recv_job_within o Hj Ho Hh Hmode1) as (Hwi & R1 & R2 & R3).
      change (set_rx (sys w) r) with (sys w1). by eapply recv_job_handler_ok.
    + unfold conn_inv in Hc. rewrite Ho in Hc. destruct Hc as [_ _ N3 _ _]. exfalso. eapply (N3 (recv_job A)); [set_solver+|done].
  - exfalso. unfold conn_inv in Hc. destruct (conn w) as [o|].
    + by destruct Hc as [[_ _ _ _ M5 _ _ _ _] _].
    + destruct Hc as [_ _ N3 _ _]. eapply (N3 (send_job A)); [set_solver+|done].
  - specialize (Hout ltac:(set_solver+)). pose proof (b_ctr _ _ Hb) as Hct. destruct (ctr w) as [c|] eqn:Ho; [|by destruct Hct].
    simpl in Hct. destruct (BConnector.have_bfd c) eqn:Hbfd; [by destruct Hct as (_ & _ & _ & _ & ?)|].
    destruct Hct as [Hw [[_ ?]|(Hfd & HO & Hcon)]]; [done|]. specialize (Hcon Hin).
    injection Hres as <-. unfold BConnector.connector_job_handler. rewrite Hcon, Hbfd. run_assert. cbn [c_assert negb]. rewrite ok_bind. simpl.
    eexists. split; [done|]. apply inv_upcall. exists s'. apply (job_inv _ Hj Hcj).
    + eapply (lis_event w s s' _ out); [done..|]. rewrite Hj. intros [= E]. apply Hdj. rewrite <- E. set_solver+.
    + rewrite Ho. simpl. rewrite Hbfd. rewrite (bs_watched _ _ _ _ _ _ _ Hbe) by set_solver+.
      split; [rewrite Hj; done|]. right. split; [done|]. split; [|by intros ?].
      apply (bs_free _ _ _ _ _ _ _ Hbe); [|done]. eapply owned_in; [done|]. right; left. rewrite Ho. simpl.
      rewrite (proj2 (Z.eqb_neq _ _)) by lia. set_solver+.
  - specialize (Hout ltac:(set_solver+)). pose proof (b_lis _ _ Hb) as Hl. destruct (lis w) as [l|] eqn:Ho; [|by destruct Hl].
    destruct Hl as [Hw HO]. injection Hres as <-. destruct (job_inv _ Hj) as [Hb1 Hc1].
    + intros H. apply Hdj. by apply list_elem_of_further.
    + rewrite Ho. split; [rewrite (bs_watched _ _ _ _ _ _ _ Hbe) by set_solver+; by rewrite Hj|].
      by apply (bs_owner _ _ _ _ _ _ _ Hbe); [set_solver+|].
    + eapply (ctr_event w s s' _ out); [done..|]. rewrite Hj. intros [= E]. apply Hdj. rewrite E. set_solver+.
    + eexists. split; [done|]. by eapply (default_job_ok w1 s').
  - injection Hres as <-. eexists. split; [done|]. exists s'. apply event_inv. rewrite Hj. intros j' [= <-]. by apply not_my_job.
Qed.

Lemma dispatch_ok a res : answers_ok (sys w1) a = true → dispatch A false w1 a out = Some res → ∃ w', res = Ok w' ∧ inv w'.
Proof.
  intros Ha Hres. assert (Hnone : (∀ j, out ≠ Called (Job j)) → res = Ok w1 → ∃ w', res = Ok w' ∧ inv w').
  { intros Hn ->. eexists. split; [done|]. exists s'. apply event_inv. intros j Hj. by apply Hn in Hj. }
  assert (∃ x, out = x) as [x Hx] by eauto. pose proof Hres as Hres1. rewrite Hx in Hres1.
  destruct x as [|b|d|ms]; try (injection Hres1 as <-; apply Hnone; [by rewrite Hx|done]).
  destruct d as [j|p|p evs| | |code]; try (injection Hres1 as <-; apply Hnone; [by rewrite Hx|done]).
  - by eapply job_ok.
  - by eapply descriptor_ok.
Qed.
End dispatching.

Lemma load_keeps w m s O o : keeps_buffers w m = true → conn_ok s O (ram (sys w)) o (w_send w) (w_recv w) → conn_ok s O m o (w_send w) (w_recv w).
Proof.
  intros Hk [[M1 M2 M3 M4 M5 M6 M7 M8 M9] Hw]. unfold keeps_buffers in Hk. apply andb_true_iff in Hk as [K1 K2]. split; [|done]. split; try done.
  - unfold send_port in *. destruct (send o); try done. destruct M7 as (p & Hp & Hl & Hpos & _). rewrite Hp in K1.
    apply bool_decide_eq_true, load_ok in K1 as [_ K1]. exists p. by split_and!.
  - unfold recv_port in *. destruct (recv o); try done. destruct M8 as (Hp & Hpos & _). rewrite Hp in K2. split_and!; try done.
    destruct (load m (recv_data o) (Z.to_nat (recv_avail o))) as [bs|] eqn:Hbs; [|done]. apply load_ok in Hbs as [Hl Hh].
    apply holds_at_mapped in Hh. by rewrite Hl, Z2Nat.id in Hh by lia.
Qed.

Lemma program_mode w e : in_program w e = true → match e with Reactor _ | Fill _ => True | _ => at_mode (rx (sys w)) = Program end.
Proof. destruct e; try done; simpl; by destruct (at_mode (rx (sys w))). Qed.

(** The connection's functions that only change its own state. *)
Lemma own_update w s o o' : base w s → conn w = Some o → own_conn (Some o') = own_conn (Some o) → conn_inv (set_conn w (Some o') (sys w)) s →
  inv (set_conn w (Some o') (sys w)).
Proof.
  intros [H1 HJ H2 H3 H4 H5 H6 H7 H8] Ho Hown Hc. exists s. split; [|done]. unfold owned in *. rewrite Ho, <- Hown in *. by split.
Qed.

Lemma connection_step_ok w s e a res : base w s → conn_inv w s → at_mode (rx (sys w)) = Program → event_ok A w e = true →
  match e with Connection_free | Set_handlers _ | Send_init | Send_free | Recv_init | Recv_free | Send _ _ | Recv _ _ => True | _ => False end →
  exec A false w a e = Some res → ∃ w', res = Ok w' ∧ inv w'.
Proof.
  intros Hb Hc Hm Hok He Hres. pose proof (base_st _ _ Hb Hm) as Hst.
  destruct (conn w) as [o|] eqn:Ho.
  2:{ destruct e; try done; simpl in Hok; rewrite Ho in Hok; simpl in Hok; rewrite ?andb_false_r in Hok; done. }
  pose proof (handler_jobs w s o Hc Ho) as Hco. pose proof (co_mid _ _ _ _ _ _ Hco) as Hmid.
  assert (Herr : negb (BPending_IsSet (sys w) (err_job A)) = true → err_job A ∉ s_jobs s).
  { unfold BPending_IsSet. rewrite <- (g_jobs _ _ (b_good _ _ Hb)). intros H. by zify_bool. }
  destruct e; try done; simpl in Hok, Hres; rewrite Ho in Hok, Hres; simpl in Hok, Hres; injection Hres as <-; rewrite ?ok_bind.
  - apply andb_true_iff in Hok as [Hs%bool_decide_eq_true Hr%bool_decide_eq_true].
    destruct (conn_free_ok w s o Hb Hm Ho Hco Hs Hr) as (k & -> & Hi). rewrite ok_bind. by eexists.
  - eexists. split; [done|]. eapply own_update; [done|done|done|]. destruct Hco as [[M1 M2 M3 M4 M5 M6 M7 M8 M9] Hw1]. by split.
  - apply andb_true_iff in Hok as [H1%Herr Hs%bool_decide_eq_true]. unfold SendAsync_Init.
    rewrite (no_error_true _ _ _ Hst H1), bool_decide_eq_true_2 by done. cbn [c_assert]. rewrite ok_bind.
    eexists. split; [done|]. eapply own_update; [done|done|done|]. unfold send_port in *. destruct Hco as [[M1 M2 M3 M4 M5 M6 M7 M8 M9] Hw1].
    unfold send_port in M7. unfold sending in Hw1. rewrite Hs in M7, Hw1. by split.
  - destruct (send_free_ok w s o Hb Hm Ho Hco Hok) as (o' & k & -> & Hi). rewrite ok_bind. by eexists.
  - apply andb_true_iff in Hok as [H1%Herr Hs%bool_decide_eq_true]. unfold RecvAsync_Init.
    rewrite (no_error_true _ _ _ Hst H1), bool_decide_eq_true_2 by done. cbn [c_assert]. rewrite ok_bind.
    eexists. split; [done|]. eapply own_update; [done|done|done|]. destruct Hco as [[M1 M2 M3 M4 M5 M6 M7 M8 M9] Hw1].
    unfold recv_port in M8. unfold receiving in Hw1. rewrite Hs in M6, M8, Hw1. split; [|done]. split; try done. intros H. by specialize (M6 H).
  - destruct (recv_free_ok w s o Hb Hm Ho Hco Hok) as (o' & k & -> & Hi). rewrite ok_bind. by eexists.
  - repeat (apply andb_true_iff in Hok as [Hok ?]). apply Herr in Hok. zify_bool.
    match goal with H : (_ <? _)%nat = true |- _ => apply Nat.ltb_lt in H end.
    eapply send_request_ok; [by apply conn_within|by apply Hco|done|done|done|done].
  - repeat (apply andb_true_iff in Hok as [Hok ?]). apply Herr in Hok. zify_bool.
    eapply recv_request_ok; [by apply conn_within|by apply Hco|done|done|done|done].
Qed.

Lemma world_step_ok w ae res : inv w → step A false w ae = Some res → ∃ w', res = Ok w' ∧ inv w'.
Proof.
  intros (s & Hb & Hc) Hres. unfold step in Hres. destruct ae as [a e]. simpl in Hres.
  destruct (in_program w e && event_ok A w e && answers_ok (sys w) a) eqn:Hok; [|done].
  apply andb_true_iff in Hok as [[Hm%program_mode Hok]%andb_true_iff Ha].
  destruct e; try (eapply connection_step_ok; done); simpl in Hm, Hok.
  - simpl in Hres. destruct (ReactorWorld.step (rx (sys w)) e) as [x|] eqn:Hx; [|done].
    destruct (step_good _ _ _ _ (b_good _ _ Hb) Hx) as (r & out & _ & -> & _).
    destruct (reactor_event_ok w s e r out Hb Hok Hx) as (s' & Hg & Hd & Hbc & Hbe & Hmode).
    destruct (answers_ok (set_rx (sys w) r) a) eqn:Ha'; [|done]. by apply (dispatch_ok w s s' r out Hb Hc Hg Hd Hbc Hbe Hmode a res Ha').
  - injection Hres as <-. eexists. split; [done|]. exists s. split; [by destruct Hb|]. unfold conn_inv in *. simpl.
    destruct (conn w); [|done]. by apply load_keeps.
  - simpl in Hres. injection Hres as <-. apply andb_true_iff in Hok as [Hl%bool_decide_eq_true Hok].
    pose proof (b_lis _ _ Hb) as Hlo. rewrite Hl in Hlo.
    destruct (listener_init_ok (sys w) s _ a (base_st _ _ Hb Hm) Hlo Ha _ Hok) as (o & k & s' & O' & -> & H1 & H2).
    rewrite ok_bind. eexists. split; [done|]. by eapply listener_grows.
  - simpl in Hres. injection Hres as <-. apply bool_decide_eq_true in Hok as [l Hl]. rewrite Hl. simpl.
    destruct (listener_free_ok w s Hb Hc l Hm Hl) as (k & -> & Hi). by eexists.
  - simpl in Hres. injection Hres as <-. apply andb_true_iff in Hok as [Hl%bool_decide_eq_true Hok].
    pose proof (b_ctr _ _ Hb) as Hlo. rewrite Hl in Hlo.
    destruct (connector_init_ok (sys w) s _ a (base_st _ _ Hb Hm) Hlo Ha _ Hok) as (o & k & s' & O' & -> & H1 & H2).
    rewrite ok_bind. eexists. split; [done|]. by eapply connector_grows.
  - simpl in Hres. injection Hres as <-. apply bool_decide_eq_true in Hok as [l Hl]. rewrite Hl. simpl.
    destruct (connector_free_ok w s Hb Hc l Hm Hl) as (k & -> & Hi). by eexists.
  - simpl in Hres. injection Hres as <-. apply andb_true_iff in Hok as [[Hn%bool_decide_eq_true [l Hl]%bool_decide_eq_true]%andb_true_iff Hset].
    rewrite Hl. simpl. unfold conn_inv in Hc. rewrite Hn in Hc. by eapply init_listener_ok.
  - simpl in Hres. injection Hres as <-. apply andb_true_iff in Hok as [Hn%bool_decide_eq_true Hok].
    destruct (ctr w) as [c|] eqn:Hct; [|done]. simpl in Hok |- *. unfold conn_inv in Hc. rewrite Hn in Hc. by eapply init_connector_ok.
  - simpl in Hres. injection Hres as <-. apply andb_true_iff in Hok as [Hn%bool_decide_eq_true Hok].
    unfold conn_inv in Hc. rewrite Hn in Hc. by eapply init_pipe_ok.
Qed.

Lemma initial_inv z m : inv (initial z m).
Proof.
  exists (spec0 z). split.
  - split; simpl; try done; try apply initial_good; try constructor; try done; apply not_elem_of_nil.
  - split; try done. intros j Hj. apply not_elem_of_nil.
Qed.

Lemma connection_run_ok z m es res : run_steps (step A false) (initial z m) es = Some res → ∃ w, res = Ok w ∧ inv w.
Proof. apply run_steps_inv; [apply world_step_ok|apply initial_inv]. Qed.

End invariant.

(** ** The theorems *)

(** C9: A listener, a connector and a connection in one event loop with other users, in a
    program that follows the rules of BConnection.h, whatever the kernel answers to the
    system calls, provided that it reports an error of a descriptor with a hangup or
    together with every event that is waited for, as Linux does for sockets (without this an
    assertion can fail: see the findings): no handler or function fails an assertion, breaks
    a rule of the reactor or accesses memory outside of the buffers; the open descriptors
    are exactly those that the objects own, each owned by one, and none is closed twice or
    while it is still watched; the state RECV_STATE_NOT_INITED_CLOSED, by which a use after
    the end of the stream would be noticed, is never reached. *)
Theorem connection_safe A z m es res : distinct A → run_steps (step A false) (initial z m) es = Some res →
  ∃ w, res = Ok w ∧ wrong_closes (sys w) = 0%nat ∧ files (sys w) = list_to_set (owned w) ∧ NoDup (owned w) ∧
    ∀ o, conn w = Some o → recv o ≠ RECV_STATE_NOT_INITED_CLOSED.
Proof.
  intros HA Hr. destruct (connection_run_ok A HA _ _ _ _ Hr) as (w & -> & s & Hb & Hc). exists w. split; [done|]. split_and!; [apply Hb..|].
  intros o Ho He. unfold conn_inv in Hc. rewrite Ho in Hc. pose proof (m_recv _ _ _ _ _ _ _ (co_mid _ _ _ _ _ _ _ Hc)) as H.
  unfold recv_port in H. by rewrite He in H.
Qed.

(** C10: Under the condition of connection_safe on the reports of errors: the bytes reported as
    sent are those that the kernel took, in order and none twice or lost, and the bytes
    reported as received are those that the kernel gave; while a request to send is
    outstanding the connection has exactly its buffer, unchanged. *)
Theorem connection_streams A z m es w : distinct A → run_steps (step A false) (initial z m) es = Some (Ok w) →
  sent w = took (sys w) ∧ received w = gave (sys w) ∧
  (∀ o d p, conn w = Some o → w_send w = Some (d, p) →
    send o = SEND_STATE_BUSY ∧ send_data o = d ∧ send_len o = Z.of_nat (length p) ∧ holds_at (ram (sys w)) d p).
Proof.
  intros HA Hr. destruct (connection_run_ok A HA _ _ _ _ Hr) as (w' & [= <-] & s & Hb & Hc). split_and!; [apply Hb..|].
  intros o d p Ho Hs. unfold conn_inv in Hc. rewrite Ho in Hc. destruct (co_mid _ _ _ _ _ _ _ Hc) as [_ _ _ _ _ _ M7 _ _].
  unfold send_port in M7. rewrite Hs in M7. destruct (send o); try discriminate M7. destruct M7 as (p' & [= -> ->] & Hl & _ & Hh). by split_and!.
Qed.

(** C11: No wakeup is lost, provided that the kernel reports an error of a descriptor with a
    hangup or together with every event that is waited for (connection_safe): unless an
    error was reported to the user, the kernel is asked to report a writable descriptor
    exactly while a request to send is outstanding, and a readable one exactly while one to
    receive is outstanding whose job is not pending; after a hangup, when the descriptor is
    not watched any more, nothing waits for it. *)
Theorem connection_wakes A z m es w o : distinct A → run_steps (step A false) (initial z m) es = Some (Ok w) →
  conn w = Some o → err_job A ∉ pending_jobs (reactor (rx (sys w))) →
  let to_send := bool_decide (is_Some (w_send w)) in
  let to_recv := bool_decide (recv o = RECV_STATE_BUSY) && bool_decide (recv_job A ∉ pending_jobs (reactor (rx (sys w)))) in
  if is_hupd o then to_send = false ∧ to_recv = false
  else registered (rx (sys w)) !! fd o = Some (connection_bfd A, to_epoll (mask to_send to_recv)).
Proof.
  intros HA Hr Ho He. destruct (connection_run_ok A HA _ _ _ _ Hr) as (w' & [= <-] & s & Hb & Hc).
  pose proof (b_good _ _ _ Hb) as Hg. rewrite <- (g_jobs _ _ Hg) in *. unfold conn_inv in Hc. rewrite Ho in Hc.
  destruct Hc as [[M1 M2 M3 M4 M5 M6 M7 M8 M9] Hw]. specialize (Hw He).
  assert (Hs : bool_decide (is_Some (w_send w)) = sending o).
  { unfold sending, send_port in *. destruct (send o); try (rewrite M7; done). destruct M7 as (p & -> & _). done. }
  simpl. rewrite Hs. fold (receiving A s o). unfold waits in Hw. destruct (is_hupd o); [done|]. rewrite <- Hw. destruct M2 as [M2 M2'].
  rewrite (g_watched _ _ Hg) in M2. apply lookup_omap_Some in M2 as (b & Ha & Hfd). destruct (active b) eqn:Hact; [|done].
  simplify_eq. unfold owner in M2'. rewrite lookup_fmap in M2'.
  destruct (registered (rx (sys w)) !! fd o) as [[p evs]|] eqn:Hreg; [|done]. simpl in M2'. simplify_eq.
  destruct (k_registered _ _ (g_kernel _ _ Hg) _ _ _ Hreg) as (b' & Hb' & _ & Hf). simplify_eq.
  pose proof (k_active _ _ (g_kernel _ _ Hg) _ _ Hfd Hact) as Hk. rewrite Hf in Hk. congruence.
Qed.

(** Conversion to the system's form of an address and back. *)
Theorem sys_addr_roundtrip b sa : addr_socket_to_sys b = Ok sa →
  well_formed sa = true ∧
  addr_sys_to_socket sa = Ok (match b with BAddr.IPV6 ip port => BAddr.IPV6 (take 16 ip) port | _ => b end).
Proof.
  destruct b; simpl; intros H; try done; injection H as <-; (split; [done|]); unfold addr_sys_to_socket; simpl;
    unfold BAddr.InitIPv4, BAddr.InitIPv6, BAddr.MakeIPv4, BAddr.MakeIPv6; rewrite ?take_take; done.
Qed.

(** *** Concrete runs *)

Definition demo_layout : layout := Layout 1 2 3 4 5 6 7 8 9 10.

Lemma demo_distinct : distinct demo_layout.
Proof. split; by apply (bool_decide_eq_true_1 _). Qed.

Definition quiet : kernel := Kernel Write_would_block Read_would_block None None true true (Some 0)
  (λ _, true) true (λ _, In_progress) (λ _, true) true true true.
Definition with_socket (n : Z) : kernel := Kernel Write_would_block Read_would_block (Some n) None true true (Some 0)
  (λ _, true) true (λ _, In_progress) (λ _, true) true true true.
Definition with_io (wr : write_result) (rd : read_result) : kernel := Kernel wr rd None None true true (Some 0)
  (λ _, true) true (λ _, In_progress) (λ _, true) true true true.

Definition demo_mem : mem := <[100 := 7]> (<[101 := 8]> (<[102 := 9]> (map_block ∅ 200 4))).

Definition loop (e : ReactorWorld.event) : kernel * event := (quiet, Reactor e).

(** A connection is made to an address, and its two interfaces are initialised. *)
Definition connecting : list (kernel * event) :=
  [(with_socket 5, Connector_init (Addr_baddr (BAddr.IPV4 1 2))); loop ReactorWorld.Return; loop ReactorWorld.Run;
   loop (Epoll (Returned [entry (Some 3) EPOLLOUT])); loop ReactorWorld.Run; (quiet, From_connector);
   (quiet, Send_init); (quiet, Recv_init)].

(** Sending has to wait, then two bytes are taken while three are received; the rest is sent; a hangup ends the stream and
    everything is freed. *)
Definition demo : list (kernel * event) :=
  connecting ++
  [(quiet, Send 100 [7; 8; 9]); (quiet, Recv 200 4); loop ReactorWorld.Return; loop ReactorWorld.Run;
   loop (Epoll (Returned [entry (Some 5) (Z.lor EPOLLIN EPOLLOUT)]));
   (with_io (Wrote 2) Read_failed, Reactor ReactorWorld.Run); (with_io (Wrote 1) Read_failed, Send 102 [9]);
   loop ReactorWorld.Return; (with_io Write_failed (Read [1; 2; 3]), Reactor ReactorWorld.Run); (quiet, Recv 201 3);
   loop ReactorWorld.Return; loop ReactorWorld.Run; loop (Epoll (Returned [entry (Some 5) EPOLLHUP]));
   (with_io Write_failed (Read []), Reactor ReactorWorld.Run)].

Definition ending : list (kernel * event) := [(quiet, Send_free); (quiet, Recv_free); (quiet, Connection_free); (quiet, Connector_free)].

Definition summary (w : world) : nat * list Z * list Z * list upcall :=
  (wrong_closes (sys w), sent w, received w, upcalls w).

Definition observed (es : list (kernel * event)) : option (nat * list Z * list Z * list upcall) :=
  match run_steps (step demo_layout false) (initial 0 demo_mem) es with Some (Ok w) => Some (summary w) | _ => None end.

Lemma observed_some es x : observed es = Some x →
  ∃ w, run_steps (step demo_layout false) (initial 0 demo_mem) es = Some (Ok w) ∧ summary w = x.
Proof.
  unfold observed. destruct (run_steps _ _ es) as [[w|]|]; try done. intros [= <-]. by exists w.
Qed.

Definition demo_summary : nat * list Z * list Z * list upcall :=
  (0%nat, [7; 8; 9], [1; 2; 3],
   [Connector_done false; Send_done 2; Send_done 1; Recv_done 3; Connection_closed]).

Lemma connection_safe_witness : ∃ w,
  run_steps (step demo_layout false) (initial 0 demo_mem) (demo ++ ending) = Some (Ok w) ∧ summary w = demo_summary ∧
  files (sys w) = list_to_set (owned w).
Proof.
  destruct (observed_some (demo ++ ending) demo_summary ltac:(vm_compute; reflexivity)) as (w & Hr & Hs).
  destruct (connection_safe demo_layout 0 demo_mem (demo ++ ending) _ demo_distinct Hr) as (w' & [= <-] & _ & Hf & _).
  exists w. by split_and!.
Defined.

Lemma connection_streams_witness : ∃ w,
  run_steps (step demo_layout false) (initial 0 demo_mem) demo = Some (Ok w) ∧ took (sys w) = [7; 8; 9] ∧ gave (sys w) = [1; 2; 3].
Proof.
  destruct (observed_some demo demo_summary ltac:(vm_compute; reflexivity)) as (w & Hr & Hs).
  destruct (connection_streams demo_layout 0 demo_mem demo w demo_distinct Hr) as (H1 & H2 & _).
  exists w. unfold summary in Hs. injection Hs as _ Hsent Hreceived _. rewrite <- H1, <- H2. by split_and!.
Defined.

(** Both directions wait. *)
Definition waiting_both : list (kernel * event) := connecting ++ [(quiet, Send 100 [7; 8; 9]); (quiet, Recv 200 4)].

Definition waiting_state (w : world) : Prop :=
  ∃ o, conn w = Some o ∧ fd o = 5 ∧ is_hupd o = false ∧ recv o = RECV_STATE_BUSY ∧ is_Some (w_send w) ∧
    pending_jobs (reactor (rx (sys w))) = [].

Lemma connection_wakes_witness : ∃ w o,
  run_steps (step demo_layout false) (initial 0 demo_mem) waiting_both = Some (Ok w) ∧ conn w = Some o ∧
  registered (rx (sys w)) !! 5 = Some (5, Z.lor EPOLLIN EPOLLOUT).
Proof.
  destruct (observed_some waiting_both (0%nat, [], [], [Connector_done false]) ltac:(vm_compute; reflexivity)) as (w & Hr & _).
  assert (H : waiting_state w).
  { assert (H : match run_steps (step demo_layout false) (initial 0 demo_mem) waiting_both with Some (Ok w) => waiting_state w | _ => True end).
    { vm_compute. eexists. split_and!; try reflexivity. eexists. reflexivity. }
    by rewrite Hr in H. }
  destruct H as (o & Ho & Hfd & Hh & Hrecv & Hsend & Hj). exists w, o. split; [done|]. split; [done|].
  pose proof (connection_wakes demo_layout 0 demo_mem waiting_both w o demo_distinct Hr Ho ltac:(rewrite Hj; apply not_elem_of_nil)) as Hk.
  simpl in Hk. rewrite Hh, Hfd, Hj, Hrecv, (bool_decide_eq_true_2 (is_Some _) Hsend) in Hk. exact Hk.
Defined.

(** What [error_ok] excludes, on a concrete run: [connection_fd_handler] serves a busy direction when an error alone is
    reported, but keeps watching the descriptor for it; when the read succeeds, the next report that the descriptor is
    readable fails an assertion. *)
Example connection_lone_error :
  run_steps (step demo_layout true) (initial 0 demo_mem)
    (connecting ++
     [(quiet, Recv 200 4); loop ReactorWorld.Return; loop ReactorWorld.Run; loop (Epoll (Returned [entry (Some 5) EPOLLERR]));
      (with_io Write_failed (Read [1; 2]), Reactor ReactorWorld.Run); loop ReactorWorld.Return; loop ReactorWorld.Run;
      loop (Epoll (Returned [entry (Some 5) EPOLLIN])); loop ReactorWorld.Run])
  = Some (Fault AssertFailed).
Proof. vm_compute. reflexivity. Qed.
End ConnectionFacts.
