(* ===== verification/Interfaces.v ===== *)
(** * The flow interfaces: flow/PacketPassInterface, StreamPassInterface,
      PacketRecvInterface and StreamRecvInterface

    Components of the data plane never call each other directly.  A sender
    submits a packet (or a piece of a stream) to an interface object, which
    schedules a job; the job calls the provider; the provider reports
    completion, which schedules another job; that job calls the sender back.
    Receiving works the same way with a buffer to fill.

    [PacketPass], [StreamPass], [PacketRecv] and [StreamRecv] are the code of
    the four interfaces over the job list of [Pending].  [Port] is the contract
    the components rely on, and [PacketPassRefines]/[SimpleRefines] show that
    the code implements it. *)

From S2P Require Import Prelude CMem Pending.

(** The [state] field of an interface ([PPI_STATE_*] etc.). *)
Inductive istate := STATE_NONE | STATE_OPERATION_PENDING | STATE_BUSY | STATE_DONE_PENDING.

#[export] Instance istate_eq_dec : EqDecision istate.
Proof. solve_decision. Defined.

Definition is_state (s s' : istate) : bool := bool_decide (s = s').

(** ** flow/PacketPassInterface.h and .c *)

Module PacketPass.

(** The jobs of one interface object. *)
Inductive job := JOperation | JRequestCancel | JDone.

#[global] Instance job_eq_dec : EqDecision job.
Proof. solve_decision. Defined.

(** [has_cancel] is [handler_requestcancel != NULL], [has_user] is [handler_done != NULL]. *)
Record t := mk {
  mtu : Z;
  has_cancel : bool;
  has_user : bool;
  op_data : ptr;
  op_len : Z;
  state : istate;
  cancel_requested : bool;
}.

Section code.
Context {J : Type} `{EqDecision J} (jid : job → J).

Definition Init (m : Z) : result t :=
  ASSERT (0 <=? m) ;;
  Ok {| mtu := m; has_cancel := false; has_user := false; op_data := NULL; op_len := 0;
        state := STATE_NONE; cancel_requested := false |}.

Definition Free (g : list J) : list J :=
  job_unset (jid JOperation) (job_unset (jid JRequestCancel) (job_unset (jid JDone) g)).

Definition EnableCancel (i : t) : result t :=
  ASSERT negb (has_cancel i) ;; ASSERT negb (has_user i) ;;
  Ok {| mtu := mtu i; has_cancel := true; has_user := has_user i; op_data := op_data i;
        op_len := op_len i; state := state i; cancel_requested := cancel_requested i |}.

Definition Sender_Init (i : t) : result t :=
  ASSERT negb (has_user i) ;;
  Ok {| mtu := mtu i; has_cancel := has_cancel i; has_user := true; op_data := op_data i;
        op_len := op_len i; state := state i; cancel_requested := cancel_requested i |}.

Definition set_state (i : t) (s : istate) : t :=
  {| mtu := mtu i; has_cancel := has_cancel i; has_user := has_user i; op_data := op_data i;
     op_len := op_len i; state := s; cancel_requested := cancel_requested i |}.

Definition set_cancel (i : t) : t :=
  {| mtu := mtu i; has_cancel := has_cancel i; has_user := has_user i; op_data := op_data i;
     op_len := op_len i; state := state i; cancel_requested := true |}.

Definition Done (i : t) (g : list J) : result (t * list J) :=
  ASSERT is_state (state i) STATE_BUSY ;;
  let g := job_unset (jid JRequestCancel) g in
  let g := job_set (jid JDone) g in
  Ok (set_state i STATE_DONE_PENDING, g).

Definition Sender_Send (i : t) (g : list J) (data : ptr) (data_len : Z) : result (t * list J) :=
  ASSERT (0 <=? data_len) ;;
  ASSERT (data_len <=? mtu i) ;;
  ASSERT (negb (0 <? data_len) || negb (data =? NULL)) ;;
  ASSERT is_state (state i) STATE_NONE ;;
  ASSERT has_user i ;;
  Ok ({| mtu := mtu i; has_cancel := has_cancel i; has_user := has_user i; op_data := data;
         op_len := data_len; state := STATE_OPERATION_PENDING; cancel_requested := false |},
      job_set (jid JOperation) g).

Definition Sender_RequestCancel (i : t) (g : list J) : result (t * list J) :=
  ASSERT (is_state (state i) STATE_OPERATION_PENDING || is_state (state i) STATE_BUSY
          || is_state (state i) STATE_DONE_PENDING) ;;
  ASSERT has_cancel i ;;
  if cancel_requested i then Ok (i, g) else
  let i := set_cancel i in
  match state i with
  | STATE_OPERATION_PENDING =>
      let g := job_unset (jid JOperation) g in
      let g := job_set (jid JDone) g in
      Ok (set_state i STATE_DONE_PENDING, g)
  | STATE_BUSY => Ok (i, job_set (jid JRequestCancel) g)
  | _ => Ok (i, g)
  end.

Definition GetMTU (i : t) : Z := mtu i.
Definition HasCancel (i : t) : bool := has_cancel i.

(** The job handlers; the result of [job_operation] holds the arguments the provider's
    [handler_operation] is then called with. *)
Definition job_operation (i : t) : result (t * (ptr * Z)) :=
  ASSERT is_state (state i) STATE_OPERATION_PENDING ;;
  Ok (set_state i STATE_BUSY, (op_data i, op_len i)).

Definition job_requestcancel (i : t) : result t :=
  ASSERT is_state (state i) STATE_BUSY ;;
  ASSERT cancel_requested i ;;
  ASSERT has_cancel i ;;
  Ok i.

Definition job_done (i : t) : result t :=
  ASSERT is_state (state i) STATE_DONE_PENDING ;;
  Ok (set_state i STATE_NONE).
End code.

End PacketPass.

(** ** flow/StreamPassInterface.h and .c *)

Module StreamPass.

Inductive job := JOperation | JDone.

#[global] Instance job_eq_dec : EqDecision job.
Proof. solve_decision. Defined.

Record t := mk {
  has_user : bool;
  op_data : ptr;
  op_len : Z;
  done_len : Z;
  state : istate;
}.

Section code.
Context {J : Type} `{EqDecision J} (jid : job → J).

Definition Init : t :=
  {| has_user := false; op_data := NULL; op_len := 0; done_len := 0; state := STATE_NONE |}.

Definition Free (g : list J) : list J :=
  job_unset (jid JOperation) (job_unset (jid JDone) g).

Definition Sender_Init (i : t) : result t :=
  ASSERT negb (has_user i) ;;
  Ok {| has_user := true; op_data := op_data i; op_len := op_len i;
        done_len := done_len i; state := state i |}.

Definition set_state (i : t) (s : istate) : t :=
  {| has_user := has_user i; op_data := op_data i; op_len := op_len i;
     done_len := done_len i; state := s |}.

Definition Done (i : t) (g : list J) (data_len : Z) : result (t * list J) :=
  ASSERT is_state (state i) STATE_BUSY ;;
  ASSERT (0 <? data_len) ;;
  ASSERT (data_len <=? op_len i) ;;
  Ok ({| has_user := has_user i; op_data := op_data i; op_len := op_len i;
         done_len := data_len; state := STATE_DONE_PENDING |},
      job_set (jid JDone) g).

Definition Sender_Send (i : t) (g : list J) (data : ptr) (data_len : Z) : result (t * list J) :=
  ASSERT (0 <? data_len) ;;
  ASSERT negb (data =? NULL) ;;
  ASSERT is_state (state i) STATE_NONE ;;
  ASSERT has_user i ;;
  Ok ({| has_user := has_user i; op_data := data; op_len := data_len;
         done_len := done_len i; state := STATE_OPERATION_PENDING |},
      job_set (jid JOperation) g).

(** The result holds the arguments of the call to the provider's [handler_operation]. *)
Definition job_operation (i : t) : result (t * (ptr * Z)) :=
  ASSERT is_state (state i) STATE_OPERATION_PENDING ;;
  Ok (set_state i STATE_BUSY, (op_data i, op_len i)).

(** The result holds the argument of the call to the user's [handler_done]. *)
Definition job_done (i : t) : result (t * Z) :=
  ASSERT is_state (state i) STATE_DONE_PENDING ;;
  Ok (set_state i STATE_NONE, done_len i).
End code.

End StreamPass.

(** ** flow/PacketRecvInterface.h and .c *)

Module PacketRecv.

Inductive job := JOperation | JDone.

#[global] Instance job_eq_dec : EqDecision job.
Proof. solve_decision. Defined.

Record t := mk {
  mtu : Z;
  has_user : bool;
  op_data : ptr;
  done_len : Z;
  state : istate;
}.

Section code.
Context {J : Type} `{EqDecision J} (jid : job → J).

Definition Init (m : Z) : result t :=
  ASSERT (0 <=? m) ;;
  Ok {| mtu := m; has_user := false; op_data := NULL; done_len := 0; state := STATE_NONE |}.

Definition GetMTU (i : t) : Z := mtu i.

Definition Free (g : list J) : list J :=
  job_unset (jid JOperation) (job_unset (jid JDone) g).

Definition Receiver_Init (i : t) : result t :=
  ASSERT negb (has_user i) ;;
  Ok {| mtu := mtu i; has_user := true; op_data := op_data i; 
        done_len := done_len i; state := state i |}.

Definition set_state (i : t) (s : istate) : t :=
  {| mtu := mtu i; has_user := has_user i; op_data := op_data i; 
     done_len := done_len i; state := s |}.

Definition Done (i : t) (g : list J) (data_len : Z) : result (t * list J) :=
  ASSERT (0 <=? data_len) ;;
  ASSERT (data_len <=? mtu i) ;;
  ASSERT is_state (state i) STATE_BUSY ;;
  Ok ({| mtu := mtu i; has_user := has_user i; op_data := op_data i; 
         done_len := data_len; state := STATE_DONE_PENDING |},
      job_set (jid JDone) g).

Definition Receiver_Recv (i : t) (g : list J) (data : ptr) : result (t * list J) :=
  ASSERT (negb (0 <? mtu i) || negb (data =? NULL)) ;;
  ASSERT is_state (state i) STATE_NONE ;;
  ASSERT has_user i ;;
  Ok ({| mtu := mtu i; has_user := has_user i; op_data := data;
         done_len := done_len i; state := STATE_OPERATION_PENDING |},
      job_set (jid JOperation) g).

(** The result holds the arguments of the call to the provider's [handler_operation]. *)
Definition job_operation (i : t) : result (t * ptr) :=
  ASSERT is_state (state i) STATE_OPERATION_PENDING ;;
  Ok (set_state i STATE_BUSY, op_data i).

(** The result holds the argument of the call to the user's [handler_done]. *)
Definition job_done (i : t) : result (t * Z) :=
  ASSERT is_state (state i) STATE_DONE_PENDING ;;
  Ok (set_state i STATE_NONE, done_len i).
End code.

End PacketRecv.

(** ** flow/StreamRecvInterface.h and .c *)

Module StreamRecv.

Inductive job := JOperation | JDone.

#[global] Instance job_eq_dec : EqDecision job.
Proof. solve_decision. Defined.

Record t := mk {
  has_user : bool;
  op_data : ptr;
  op_len : Z;
  done_len : Z;
  state : istate;
}.

Section code.
Context {J : Type} `{EqDecision J} (jid : job → J).

Definition Init : t :=
  {| has_user := false; op_data := NULL; op_len := 0; done_len := 0; state := STATE_NONE |}.

Definition Free (g : list J) : list J :=
  job_unset (jid JOperation) (job_unset (jid JDone) g).

Definition Receiver_Init (i : t) : result t :=
  ASSERT negb (has_user i) ;;
  Ok {| has_user := true; op_data := op_data i; op_len := op_len i;
        done_len := done_len i; state := state i |}.

Definition set_state (i : t) (s : istate) : t :=
  {| has_user := has_user i; op_data := op_data i; op_len := op_len i;
     done_len := done_len i; state := s |}.

Definition Done (i : t) (g : list J) (data_len : Z) : result (t * list J) :=
  ASSERT is_state (state i) STATE_BUSY ;;
  ASSERT (0 <? data_len) ;;
  ASSERT (data_len <=? op_len i) ;;
  Ok ({| has_user := has_user i; op_data := op_data i; op_len := op_len i;
         done_len := data_len; state := STATE_DONE_PENDING |},
      job_set (jid JDone) g).

Definition Receiver_Recv (i : t) (g : list J) (data : ptr) (data_len : Z) : result (t * list J) :=
  ASSERT (0 <? data_len) ;;
  ASSERT negb (data =? NULL) ;;
  ASSERT is_state (state i) STATE_NONE ;;
  ASSERT has_user i ;;
  Ok ({| has_user := has_user i; op_data := data; op_len := data_len;
         done_len := done_len i; state := STATE_OPERATION_PENDING |},
      job_set (jid JOperation) g).

(** The result holds the arguments of the call to the provider's [handler_operation]. *)
Definition job_operation (i : t) : result (t * (ptr * Z)) :=
  ASSERT is_state (state i) STATE_OPERATION_PENDING ;;
  Ok (set_state i STATE_BUSY, (op_data i, op_len i)).

(** The result holds the argument of the call to the user's [handler_done]. *)
Definition job_done (i : t) : result (t * Z) :=
  ASSERT is_state (state i) STATE_DONE_PENDING ;;
  Ok (set_state i STATE_NONE, done_len i).
End code.

End StreamRecv.

(** ** The contract *)

Module Port.

(** What can be observed of an interface: the user's request [a : A], the call to the
    provider, the provider's completion [b : B], the call back to the user, and, where the
    interface has it, the request to stop early. *)
Inductive event (A B : Type) :=
| ERequest (a : A) | EOperation (a : A) | EDone (b : B) | EDoneCallback (b : B)
| ECancel | ECancelCallback | ETau.
Arguments ERequest {A B} a.
Arguments EOperation {A B} a.
Arguments EDone {A B} b.
Arguments EDoneCallback {A B} b.
Arguments ECancel {A B}.
Arguments ECancelCallback {A B}.
Arguments ETau {A B}.

(** Where a request stands. *)
Inductive phase (A B : Type) := Idle | Requested (a : A) | Busy (a : A) | Finished (b : B).
Arguments Idle {A B}.
Arguments Requested {A B} a.
Arguments Busy {A B} a.
Arguments Finished {A B} b.

Section automaton.
Context {A B : Type} `{EqDecision A} `{EqDecision B}.

(** The allowed orders of events; [cancelled] is the completion of a request that was
    stopped before the provider saw it, when the interface can be stopped. *)
Definition astep (cancelled : option B) (ph : phase A B) (e : event A B)
    : option (phase A B) :=
  match e, ph with
  | ETau, _ => Some ph
  | ERequest a, Idle => Some (Requested a)
  | EOperation a', Requested a => if bool_decide (a = a') then Some (Busy a) else None
  | EDone b, Busy _ => Some (Finished b)
  | EDoneCallback b', Finished b => if bool_decide (b = b') then Some Idle else None
  | ECancel, Requested _ => Finished <$> cancelled
  | ECancel, Busy a => _ ← cancelled; Some (Busy a)
  | ECancel, Finished b => _ ← cancelled; Some (Finished b)
  | ECancelCallback, Busy a => _ ← cancelled; Some (Busy a)
  | _, _ => None
  end.

Fixpoint aruns (cancelled : option B) (ph : phase A B) (es : list (event A B))
    : option (phase A B) :=
  match es with
  | [] => Some ph
  | e :: es => ph ← astep cancelled ph e; aruns cancelled ph es
  end.
End automaton.

End Port.
Import Port.

(** What an implementation of an interface provides, and the laws it must satisfy.  [fi_inv]
    ties the [state] field to the jobs that are pending. *)
Class FlowInterface (J A B I : Type) `{EqDecision J} `{EqDecision A} `{EqDecision B} := {
  fi_job_op : J;
  fi_job_done : J;
  fi_job_cancel : option J;
  fi_cancelled : option B;
  fi_request : I → list J → A → result (I * list J);
  fi_done : I → list J → B → result (I * list J);
  fi_cancel : I → list J → result (I * list J);
  fi_operation_handler : I → result (I * A);
  fi_done_handler : I → result (I * B);
  fi_cancel_handler : I → result I;
  fi_phase : I → phase A B;
  fi_inv : I → list J → Prop;
  fi_can_request : I → A → bool;
  fi_can_done : I → B → bool;
  fi_can_cancel : I → bool;
  (* laws *)
  fi_foreign : ∀ i g g', fi_inv i g → NoDup g' →
    (∀ j, j = fi_job_op ∨ j = fi_job_done ∨ Some j = fi_job_cancel → (j ∈ g' ↔ j ∈ g)) →
    fi_inv i g';
  fi_request_law : ∀ i g a, fi_inv i g → fi_phase i = Idle → fi_can_request i a = true →
    ∃ i' g', fi_request i g a = Ok (i', g');
  fi_request_step : ∀ i g a i' g', fi_inv i g → fi_request i g a = Ok (i', g') →
    fi_inv i' g' ∧ fi_phase i = Idle ∧ fi_phase i' = Requested a;
  fi_done_law : ∀ i g a b, fi_inv i g → fi_phase i = Busy a → fi_can_done i b = true →
    ∃ i' g', fi_done i g b = Ok (i', g');
  fi_done_step : ∀ i g b i' g', fi_inv i g → fi_done i g b = Ok (i', g') →
    fi_inv i' g' ∧ (∃ a, fi_phase i = Busy a) ∧ fi_phase i' = Finished b;
  fi_cancel_law : ∀ i g, fi_inv i g → fi_phase i ≠ Idle → fi_can_cancel i = true →
    ∃ i' g', fi_cancel i g = Ok (i', g');
  fi_cancel_step : ∀ i g i' g', fi_inv i g → fi_cancel i g = Ok (i', g') →
    fi_inv i' g' ∧ astep fi_cancelled (fi_phase i) ECancel = Some (fi_phase i');
  fi_operation_law : ∀ i g, fi_inv i (fi_job_op :: g) →
    ∃ i' a, fi_operation_handler i = Ok (i', a) ∧ fi_inv i' g
      ∧ fi_phase i = Requested a ∧ fi_phase i' = Busy a;
  fi_done_handler_law : ∀ i g, fi_inv i (fi_job_done :: g) →
    ∃ i' b, fi_done_handler i = Ok (i', b) ∧ fi_inv i' g
      ∧ fi_phase i = Finished b ∧ fi_phase i' = Idle;
  fi_cancel_handler_law : ∀ i g j, fi_job_cancel = Some j → fi_inv i (j :: g) →
    ∃ i', fi_cancel_handler i = Ok i' ∧ fi_inv i' g
      ∧ astep fi_cancelled (fi_phase i) ECancelCallback = Some (fi_phase i');
  fi_progress : ∀ i g, fi_inv i g →
    (∀ a, fi_phase i = Requested a → fi_job_op ∈ g) ∧
    (∀ b, fi_phase i = Finished b → fi_job_done ∈ g);
}.

(** Clients of any interface: everything that can happen to an interface object and to the
    job list it shares with the rest of the program. *)
Section contract.
Context {J A B I : Type} `{EqDecision J} `{EqDecision A} `{EqDecision B}
        `{!FlowInterface J A B I}.

Inductive fstep : I * list J → event A B → I * list J → Prop :=
| fs_request i g a i' g' :
    fi_request i g a = Ok (i', g') → fstep (i, g) (ERequest a) (i', g')
| fs_done i g b i' g' :
    fi_done i g b = Ok (i', g') → fstep (i, g) (EDone b) (i', g')
| fs_cancel i g i' g' :
    fi_cancel i g = Ok (i', g') → fstep (i, g) ECancel (i', g')
| fs_operation i g i' a :
    fi_operation_handler i = Ok (i', a) → fstep (i, fi_job_op :: g) (EOperation a) (i', g)
| fs_done_callback i g i' b :
    fi_done_handler i = Ok (i', b) → fstep (i, fi_job_done :: g) (EDoneCallback b) (i', g)
| fs_cancel_callback i g i' j :
    fi_job_cancel = Some j → fi_cancel_handler i = Ok i' →
    fstep (i, j :: g) ECancelCallback (i', g)
| fs_other i g g' :
    NoDup g' →
    (∀ j, j = fi_job_op ∨ j = fi_job_done ∨ Some j = fi_job_cancel → (j ∈ g' ↔ j ∈ g)) →
    fstep (i, g) ETau (i, g').

Inductive fsteps : I * list J → list (event A B) → I * list J → Prop :=
| fsteps_nil w : fsteps w [] w
| fsteps_cons w e w' es w'' : fstep w e w' → fsteps w' es w'' → fsteps w (e :: es) w''.

Lemma fstep_sound i g e i' g' :
  fi_inv i g → fstep (i, g) e (i', g') →
  fi_inv i' g' ∧ astep fi_cancelled (fi_phase i) e = Some (fi_phase i').
Proof.
  intros Hinv Hs. inversion Hs; subst.
  - match goal with H : fi_request _ _ _ = _ |- _ =>
      destruct (fi_request_step _ _ _ _ _ Hinv H) as (? & -> & ->) end. done.
  - match goal with H : fi_done _ _ _ = _ |- _ =>
      destruct (fi_done_step _ _ _ _ _ Hinv H) as (? & [? ->] & ->) end. done.
  - by eapply fi_cancel_step.
  - destruct (fi_operation_law _ _ Hinv) as (i1 & a1 & Heq & ? & Hph & Hph').
    same_run. rewrite Hph, Hph'. simpl. by rewrite bool_decide_true.
  - destruct (fi_done_handler_law _ _ Hinv) as (i1 & b1 & Heq & ? & Hph & Hph').
    same_run. rewrite Hph, Hph'. simpl. by rewrite bool_decide_true.
  - match goal with Hj : fi_job_cancel = Some _ |- _ =>
      destruct (fi_cancel_handler_law _ _ _ Hj Hinv) as (i1 & Heq & ? & ?) end.
    same_run. done.
  - split; [by eapply fi_foreign | done].
Qed.

Lemma fsteps_sound w es w' :
  fsteps w es w' → fi_inv (fst w) (snd w) →
  fi_inv (fst w') (snd w') ∧ aruns fi_cancelled (fi_phase (fst w)) es = Some (fi_phase (fst w')).
Proof.
  induction 1 as [w | [i g] e [i' g'] es w'' Hs Hss IH]; intros Hinv; [done|].
  destruct (fstep_sound _ _ _ _ _ Hinv Hs) as [Hinv' Ha].
  destruct (IH Hinv') as [? Hr]. split; [done|].
  cbn [aruns fst] in *. rewrite Ha. exact Hr.
Qed.

(** What a user, a provider and the event loop may do without a failed assertion. *)
Definition safe_at (w : I * list J) : Prop :=
  let '(i, g) := w in
  (∀ a, fi_phase i = Idle → fi_can_request i a = true → is_ok (fi_request i g a)) ∧
  (∀ a b, fi_phase i = Busy a → fi_can_done i b = true → is_ok (fi_done i g b)) ∧
  (fi_phase i ≠ Idle → fi_can_cancel i = true → is_ok (fi_cancel i g)) ∧
  (∀ g', g = fi_job_op :: g' → is_ok (fi_operation_handler i)) ∧
  (∀ g', g = fi_job_done :: g' → is_ok (fi_done_handler i)) ∧
  (∀ j g', fi_job_cancel = Some j → g = j :: g' → is_ok (fi_cancel_handler i)).

Lemma inv_safe i g : fi_inv i g → safe_at (i, g).
Proof.
  intros Hinv. split_and!.
  - intros a H1 H2. destruct (fi_request_law _ _ _ Hinv H1 H2) as (? & ? & ->). by eexists.
  - intros a b H1 H2. destruct (fi_done_law _ _ _ _ Hinv H1 H2) as (? & ? & ->). by eexists.
  - intros H1 H2. destruct (fi_cancel_law _ _ Hinv H1 H2) as (? & ? & ->). by eexists.
  - intros g' ->. destruct (fi_operation_law _ _ Hinv) as (? & ? & -> & _). by eexists.
  - intros g' ->. destruct (fi_done_handler_law _ _ Hinv) as (? & ? & -> & _). by eexists.
  - intros j g' Hj ->. destruct (fi_cancel_handler_law _ _ _ Hj Hinv) as (? & -> & _). by eexists.
Qed.
End contract.

(** ** The four interfaces implement the contract *)

#[local] Ltac jobs_solver :=
  repeat first
    [ rewrite elem_of_job_set | rewrite elem_of_job_unset | rewrite elem_of_cons
    | setoid_rewrite elem_of_job_set | setoid_rewrite elem_of_job_unset ];
  naive_solver.

Module PacketPassPort.
Import PacketPass.

Section instance.
Context {J : Type} `{EqDecision J} (jid : job → J) `{!Inj (=) (=) jid}.

Definition phase_of (i : t) : phase (ptr * Z) unit :=
  match state i with
  | STATE_NONE => Idle
  | STATE_OPERATION_PENDING => Requested (op_data i, op_len i)
  | STATE_BUSY => Busy (op_data i, op_len i)
  | STATE_DONE_PENDING => Finished tt
  end.

Record inv (i : t) (g : list J) : Prop := {
  inv_nodup : NoDup g;
  inv_op : jid JOperation ∈ g ↔ state i = STATE_OPERATION_PENDING;
  inv_done : jid JDone ∈ g ↔ state i = STATE_DONE_PENDING;
  inv_cancel : jid JRequestCancel ∈ g →
    state i = STATE_BUSY ∧ cancel_requested i = true ∧ has_cancel i = true;
  inv_user : has_user i = true;
  inv_fresh : state i = STATE_OPERATION_PENDING → cancel_requested i = false;
}.

Definition can_request (i : t) (a : ptr * Z) : bool :=
  (0 <=? a.2) && (a.2 <=? mtu i) && (negb (0 <? a.2) || negb (a.1 =? NULL)).

Lemma jid_ne j k : j ≠ k → jid j ≠ jid k.
Proof. intros H ?%(inj jid). done. Qed.

Program Definition packet_pass_interface : FlowInterface J (ptr * Z) unit t := {|
  fi_job_op := jid JOperation; fi_job_done := jid JDone;
  fi_job_cancel := Some (jid JRequestCancel);
  fi_cancelled := Some tt;
  fi_request i g a := Sender_Send jid i g a.1 a.2;
  fi_done i g _ := Done jid i g;
  fi_cancel := Sender_RequestCancel jid;
  fi_operation_handler := job_operation;
  fi_done_handler i := (λ i', (i', tt)) <$> job_done i;
  fi_cancel_handler := job_requestcancel;
  fi_phase := phase_of; fi_inv := inv;
  fi_can_request := can_request;
  fi_can_done _ _ := true;
  fi_can_cancel := has_cancel;
|}.
Next Obligation.
  intros i g g' [] Hnd Hg. split; try done; rewrite ?Hg by naive_solver; done.
Qed.
Next Obligation.
  intros i g [d l] [] Hp Hc. unfold can_request in Hc. zify_bool. simpl in *.
  unfold Sender_Send, phase_of in *. destruct (state i) eqn:Hst; simplify_eq.
  rewrite (proj2 (Z.leb_le _ _)), (proj2 (Z.leb_le l _)) by done. simpl.
  rewrite H0, inv_user0. simpl. eauto.
Qed.
Next Obligation.
  intros i g [d l] i' g' [] H. unfold Sender_Send, is_state in H. inv_ok. zify_bool.
  unfold phase_of. rewrite H2 in *. pose proof (jid_ne JOperation JDone ltac:(done)).
  pose proof (jid_ne JOperation JRequestCancel ltac:(done)).
  split; [|done]. split; simpl; auto with csem; jobs_solver.
Qed.
Next Obligation.
  intros i g a [] [] Hp _. unfold Done, phase_of, is_state in *.
  destruct (state i) eqn:Hst; simplify_eq/=. eauto.
Qed.
Next Obligation.
  intros i g [] i' g' [] H. unfold Done, is_state in H. inv_ok. zify_bool.
  unfold phase_of. rewrite H in *. pose proof (jid_ne JOperation JDone ltac:(done)).
  pose proof (jid_ne JDone JRequestCancel ltac:(done)).
  split; [|simpl; eauto]. split; simpl; auto 6 with csem; jobs_solver.
Qed.
Next Obligation.
  intros i g [] Hp Hc. unfold Sender_RequestCancel, phase_of, is_state in *. rewrite Hc.
  destruct (state i) eqn:Hst; try done; simpl; rewrite Hst; case_if; eauto.
Qed.
Next Obligation.
  intros i g i' g' [] H. unfold Sender_RequestCancel, is_state in H. inv_ok.
  pose proof (jid_ne JOperation JDone ltac:(done)).
  pose proof (jid_ne JOperation JRequestCancel ltac:(done)).
  pose proof (jid_ne JDone JRequestCancel ltac:(done)).
  unfold phase_of. destruct (state i) eqn:Hst, (cancel_requested i) eqn:Hcr; try done;
    try (specialize (inv_fresh0 eq_refl); done); simplify_eq/=; rewrite ?Hst; simpl;
    (split; [|done]); split; simpl; rewrite ?Hst; auto 6 with csem; jobs_solver.
Qed.
Next Obligation.
  intros i g []. apply NoDup_cons in inv_nodup0 as [Hn ?].
  assert (state i = STATE_OPERATION_PENDING) as Hst by (apply inv_op0; set_solver).
  pose proof (jid_ne JOperation JDone ltac:(done)).
  pose proof (jid_ne JOperation JRequestCancel ltac:(done)).
  unfold job_operation, phase_of, is_state. rewrite Hst. simpl. eexists _, _.
  split; [done|]. split; [|done]. rewrite !elem_of_cons, Hst in *.
  split; simpl; try done; naive_solver.
Qed.
Next Obligation.
  intros i g []. apply NoDup_cons in inv_nodup0 as [Hn ?].
  assert (state i = STATE_DONE_PENDING) as Hst by (apply inv_done0; set_solver).
  pose proof (jid_ne JOperation JDone ltac:(done)).
  pose proof (jid_ne JDone JRequestCancel ltac:(done)).
  unfold job_done, phase_of, is_state. rewrite Hst. simpl. eexists _, _.
  split; [done|]. split; [|done]. rewrite !elem_of_cons, Hst in *.
  split; simpl; try done; naive_solver.
Qed.
Next Obligation.
  intros i g j ? []. simplify_eq. apply NoDup_cons in inv_nodup0 as [Hn ?].
  pose proof (jid_ne JOperation JRequestCancel ltac:(done)).
  pose proof (jid_ne JDone JRequestCancel ltac:(done)).
  destruct inv_cancel0 as (Hst & Hc & Hh); [set_solver|].
  unfold job_requestcancel, phase_of, is_state. rewrite Hst, Hc, Hh. simpl. exists i.
  split; [done|]. split; [|by rewrite Hst]. rewrite !elem_of_cons, Hst in *.
  split; rewrite ?Hst; try done; naive_solver.
Qed.
Next Obligation.
  intros i g []. unfold phase_of. destruct (state i) eqn:Hst; naive_solver.
Qed.
End instance.

End PacketPassPort.

(** The interfaces without cancellation share their proofs; the argument is the fact that
    the interface's two jobs differ. *)
#[local] Ltac use_state :=
  match goal with |- context [is_state (?f ?i) _] => destruct (f i) eqn:?; try done end.

#[local] Ltac simple_request :=
  intros i g a [] Hp Hc;
  repeat match goal with H : _ && _ = true |- _ => apply andb_true_iff in H as [H ?] end;
  use_state;
  repeat match goal with H : _ = true |- _ => rewrite H; clear H end; simpl; eauto.

#[local] Ltac simple_done :=
  intros i g a b [] Hp Hc;
  repeat match goal with H : _ && _ = true |- _ => apply andb_true_iff in H as [H ?] end;
  use_state;
  repeat match goal with H : _ = true |- _ => rewrite H; clear H end; simpl; eauto.

#[local] Ltac simple_step ne :=
  intros i g a i' g' [] H; inv_ok; pose proof ne;
  repeat match goal with H : is_state _ _ = true |- _ =>
    unfold is_state in H; apply bool_decide_eq_true in H; rewrite H in * end;
  (split; [|simpl; try (destruct a); eauto]);
  split; simpl; auto with csem; jobs_solver.

#[local] Ltac simple_handler ne :=
  intros i g [Hnd Hop Hdone Hu]; apply NoDup_cons in Hnd as [Hn ?]; pose proof ne;
  rewrite !elem_of_cons in *; use_state;
  try (discriminate (proj1 Hop (or_introl eq_refl)));
  try (discriminate (proj1 Hdone (or_introl eq_refl)));
  simpl; eexists _, _; (split; [done|]); (split; [|done]);
  split; simpl; [done | | | done]; (split; [|discriminate]);
  let Hin := fresh in intros Hin;
  first [ contradiction
        | discriminate (proj1 Hdone (or_intror Hin)) | discriminate (proj1 Hop (or_intror Hin)) ].

Module StreamPassPort.
Import StreamPass.

Section instance.
Context {J : Type} `{EqDecision J} (jid : job → J) `{!Inj (=) (=) jid}.

Definition phase_of (i : t) : phase (ptr * Z) Z :=
  match state i with
  | STATE_NONE => Idle
  | STATE_OPERATION_PENDING => Requested (op_data i, op_len i)
  | STATE_BUSY => Busy (op_data i, op_len i)
  | STATE_DONE_PENDING => Finished (done_len i)
  end.

Record inv (i : t) (g : list J) : Prop := {
  inv_nodup : NoDup g;
  inv_op : jid JOperation ∈ g ↔ state i = STATE_OPERATION_PENDING;
  inv_done : jid JDone ∈ g ↔ state i = STATE_DONE_PENDING;
  inv_user : has_user i = true;
}.

Definition can_request (i : t) (a : (ptr * Z)) : bool := (0 <? a.2) && negb (a.1 =? NULL).
Definition can_done (i : t) (b : Z) : bool := (0 <? b) && (b <=? op_len i).

Lemma sp_start_inv i g :
  NoDup g → (∀ j, jid j ∉ g) → state i = STATE_NONE → has_user i = true → inv i g.
Proof.
  intros Hnd Hg Hst Hu. split; [done | rewrite Hst .. | done]; (split; [|done]);
    intros H; by apply Hg in H.
Qed.

Lemma sp_jid_op_done : jid JOperation ≠ jid JDone.
Proof. intros ?%(inj jid). done. Qed.

Program Definition stream_pass_interface : FlowInterface J (ptr * Z) Z t := {|
  fi_job_op := jid JOperation; fi_job_done := jid JDone; fi_job_cancel := None;
  fi_cancelled := None;
  fi_request i g a := Sender_Send jid i g a.1 a.2;
  fi_done := Done jid;
  fi_cancel _ _ := Fault AssertFailed;
  fi_operation_handler := job_operation;
  fi_done_handler := job_done;
  fi_cancel_handler _ := Fault AssertFailed;
  fi_phase := phase_of; fi_inv := inv;
  fi_can_request := can_request; fi_can_done := can_done; fi_can_cancel _ := false;
|}.
Next Obligation.
  intros i g g' [] Hnd Hg. split; try done; rewrite ?Hg by naive_solver; done.
Qed.
Next Obligation.
  unfold phase_of, can_request, Sender_Send. simple_request.
Qed.
Next Obligation.
  unfold phase_of, Sender_Send. simple_step sp_jid_op_done.
Qed.
Next Obligation.
  unfold phase_of, can_done, Done. simple_done.
Qed.
Next Obligation.
  unfold phase_of, Done. simple_step sp_jid_op_done.
Qed.
Next Obligation. done. Qed.
Next Obligation. done. Qed.
Next Obligation.
  unfold phase_of, job_operation. simple_handler sp_jid_op_done.
Qed.
Next Obligation.
  unfold phase_of, job_done. simple_handler sp_jid_op_done.
Qed.
Next Obligation. done. Qed.
Next Obligation.
  intros i g []. unfold phase_of. destruct (state i) eqn:Hst; naive_solver.
Qed.
End instance.

End StreamPassPort.

Module PacketRecvPort.
Import PacketRecv.

Section instance.
Context {J : Type} `{EqDecision J} (jid : job → J) `{!Inj (=) (=) jid}.

Definition phase_of (i : t) : phase ptr Z :=
  match state i with
  | STATE_NONE => Idle
  | STATE_OPERATION_PENDING => Requested (op_data i)
  | STATE_BUSY => Busy (op_data i)
  | STATE_DONE_PENDING => Finished (done_len i)
  end.

Record inv (i : t) (g : list J) : Prop := {
  inv_nodup : NoDup g;
  inv_op : jid JOperation ∈ g ↔ state i = STATE_OPERATION_PENDING;
  inv_done : jid JDone ∈ g ↔ state i = STATE_DONE_PENDING;
  inv_user : has_user i = true;
}.

Definition can_request (i : t) (a : ptr) : bool := negb (0 <? mtu i) || negb (a =? NULL).
Definition can_done (i : t) (b : Z) : bool := (0 <=? b) && (b <=? mtu i).

Lemma pr_start_inv i g :
  NoDup g → (∀ j, jid j ∉ g) → state i = STATE_NONE → has_user i = true → inv i g.
Proof.
  intros Hnd Hg Hst Hu. split; [done | rewrite Hst .. | done]; (split; [|done]);
    intros H; by apply Hg in H.
Qed.

Lemma pr_jid_op_done : jid JOperation ≠ jid JDone.
Proof. intros ?%(inj jid). done. Qed.

Program Definition packet_recv_interface : FlowInterface J ptr Z t := {|
  fi_job_op := jid JOperation; fi_job_done := jid JDone; fi_job_cancel := None;
  fi_cancelled := None;
  fi_request i g a := Receiver_Recv jid i g a;
  fi_done := Done jid;
  fi_cancel _ _ := Fault AssertFailed;
  fi_operation_handler := job_operation;
  fi_done_handler := job_done;
  fi_cancel_handler _ := Fault AssertFailed;
  fi_phase := phase_of; fi_inv := inv;
  fi_can_request := can_request; fi_can_done := can_done; fi_can_cancel _ := false;
|}.
Next Obligation.
  intros i g g' [] Hnd Hg. split; try done; rewrite ?Hg by naive_solver; done.
Qed.
Next Obligation.
  unfold phase_of, can_request, Receiver_Recv. simple_request.
Qed.
Next Obligation.
  unfold phase_of, Receiver_Recv. simple_step pr_jid_op_done.
Qed.
Next Obligation.
  unfold phase_of, can_done, Done. simple_done.
Qed.
Next Obligation.
  unfold phase_of, Done. simple_step pr_jid_op_done.
Qed.
Next Obligation. done. Qed.
Next Obligation. done. Qed.
Next Obligation.
  unfold phase_of, job_operation. simple_handler pr_jid_op_done.
Qed.
Next Obligation.
  unfold phase_of, job_done. simple_handler pr_jid_op_done.
Qed.
Next Obligation. done. Qed.
Next Obligation.
  intros i g []. unfold phase_of. destruct (state i) eqn:Hst; naive_solver.
Qed.
End instance.

End PacketRecvPort.

Module StreamRecvPort.
Import StreamRecv.

Section instance.
Context {J : Type} `{EqDecision J} (jid : job → J) `{!Inj (=) (=) jid}.

Definition phase_of (i : t) : phase (ptr * Z) Z :=
  match state i with
  | STATE_NONE => Idle
  | STATE_OPERATION_PENDING => Requested (op_data i, op_len i)
  | STATE_BUSY => Busy (op_data i, op_len i)
  | STATE_DONE_PENDING => Finished (done_len i)
  end.

Record inv (i : t) (g : list J) : Prop := {
  inv_nodup : NoDup g;
  inv_op : jid JOperation ∈ g ↔ state i = STATE_OPERATION_PENDING;
  inv_done : jid JDone ∈ g ↔ state i = STATE_DONE_PENDING;
  inv_user : has_user i = true;
}.

Definition can_request (i : t) (a : (ptr * Z)) : bool := (0 <? a.2) && negb (a.1 =? NULL).
Definition can_done (i : t) (b : Z) : bool := (0 <? b) && (b <=? op_len i).

Lemma sr_start_inv i g :
  NoDup g → (∀ j, jid j ∉ g) → state i = STATE_NONE → has_user i = true → inv i g.
Proof.
  intros Hnd Hg Hst Hu. split; [done | rewrite Hst .. | done]; (split; [|done]);
    intros H; by apply Hg in H.
Qed.

Lemma sr_jid_op_done : jid JOperation ≠ jid JDone.
Proof. intros ?%(inj jid). done. Qed.

Program Definition stream_recv_interface : FlowInterface J (ptr * Z) Z t := {|
  fi_job_op := jid JOperation; fi_job_done := jid JDone; fi_job_cancel := None;
  fi_cancelled := None;
  fi_request i g a := Receiver_Recv jid i g a.1 a.2;
  fi_done := Done jid;
  fi_cancel _ _ := Fault AssertFailed;
  fi_operation_handler := job_operation;
  fi_done_handler := job_done;
  fi_cancel_handler _ := Fault AssertFailed;
  fi_phase := phase_of; fi_inv := inv;
  fi_can_request := can_request; fi_can_done := can_done; fi_can_cancel _ := false;
|}.
Next Obligation.
  intros i g g' [] Hnd Hg. split; try done; rewrite ?Hg by naive_solver; done.
Qed.
Next Obligation.
  unfold phase_of, can_request, Receiver_Recv. simple_request.
Qed.
Next Obligation.
  unfold phase_of, Receiver_Recv. simple_step sr_jid_op_done.
Qed.
Next Obligation.
  unfold phase_of, can_done, Done. simple_done.
Qed.
Next Obligation.
  unfold phase_of, Done. simple_step sr_jid_op_done.
Qed.
Next Obligation. done. Qed.
Next Obligation. done. Qed.
Next Obligation.
  unfold phase_of, job_operation. simple_handler sr_jid_op_done.
Qed.
Next Obligation.
  unfold phase_of, job_done. simple_handler sr_jid_op_done.
Qed.
Next Obligation. done. Qed.
Next Obligation.
  intros i g []. unfold phase_of. destruct (state i) eqn:Hst; naive_solver.
Qed.
End instance.

End StreamRecvPort.

(** ** The contract of each interface, from its initialisation *)

Module InterfaceContracts.
Import PacketPass.

(** An initialised packet-passing interface with a user attached, and, when [cancel] is set,
    with cancellation enabled by the provider before. *)
Definition setup (m : Z) (cancel : bool) : result t :=
  i ← Init m;
  i ← (if cancel then EnableCancel i else Ok i);
  Sender_Init i.

Lemma setup_inv {J} `{EqDecision J} (jid : job → J) m c i (g : list J) :
  setup m c = Ok i → NoDup g → (∀ j, jid j ∉ g) →
  PacketPassPort.inv jid i g ∧ PacketPassPort.phase_of i = Idle ∧ has_cancel i = c.
Proof.
  intros H Hnd Hg. unfold setup, Init, EnableCancel, Sender_Init in H.
  destruct c; inv_ok; (split; [|done]); split; simpl; naive_solver.
Qed.

(** C38: The packet-passing interface, cancellation included, implements the request/busy/done
    automaton over the job list: every sequence of calls and job executions it accepts is a
    run of the automaton, every call the automaton allows succeeds, and a requested or
    finished operation has its job pending. *)
Theorem packet_pass_contract {J} `{EqDecision J} (jid : job → J) `{!Inj (=) (=) jid}
    m c i (g : list J) es i' g' :
  setup m c = Ok i → NoDup g → (∀ j, jid j ∉ g) →
  @fsteps J (ptr * Z) unit t _ _ _ (PacketPassPort.packet_pass_interface jid) (i, g) es (i', g') →
  aruns (Some tt) Idle es = Some (PacketPassPort.phase_of i')
  ∧ @safe_at J (ptr * Z) unit t _ _ _ (PacketPassPort.packet_pass_interface jid) (i', g')
  ∧ (∀ a, PacketPassPort.phase_of i' = Requested a → jid JOperation ∈ g')
  ∧ (PacketPassPort.phase_of i' = Finished tt → jid JDone ∈ g').
Proof.
  intros Hs Hnd Hg Hr. destruct (setup_inv jid m c i g Hs Hnd Hg) as (Hinv & Hph & _).
  pose proof (@fsteps_sound _ _ _ _ _ _ _ (PacketPassPort.packet_pass_interface jid)
    _ _ _ Hr Hinv) as [Hinv' Ha].
  simpl in Ha. rewrite Hph in Ha. split; [done|]. split; [by apply inv_safe|].
  destruct (@fi_progress _ _ _ _ _ _ _ (PacketPassPort.packet_pass_interface jid) _ _ Hinv')
    as [H1 H2]. naive_solver.
Qed.

(** One packet accepted, delivered and completed. *)
Lemma packet_pass_contract_witness :
  aruns (Some tt) Idle [ERequest (4096, 10); EOperation (4096, 10); EDone tt; EDoneCallback tt]
  = Some Idle.
Proof.
  pose (i0 := mk 100 false true NULL 0 STATE_NONE false).
  pose (i1 := mk 100 false true 4096 10 STATE_OPERATION_PENDING false).
  refine (proj1 (packet_pass_contract (@id job) 100 false i0 []
    [ERequest (4096, 10); EOperation (4096, 10); EDone tt; EDoneCallback tt]
    (mk 100 false true 4096 10 STATE_NONE false) [] eq_refl _ _ _)).
  - constructor.
  - intros j. apply not_elem_of_nil.
  - econstructor; [apply (@fs_request _ _ _ _ _ _ _
      (PacketPassPort.packet_pass_interface (@id job)) i0 [] (4096, 10)); reflexivity|].
    econstructor; [apply (@fs_operation _ _ _ _ _ _ _
      (PacketPassPort.packet_pass_interface (@id job))); reflexivity|].
    econstructor; [apply (@fs_done _ _ _ _ _ _ _
      (PacketPassPort.packet_pass_interface (@id job))); reflexivity|].
    econstructor; [apply (@fs_done_callback _ _ _ _ _ _ _
      (PacketPassPort.packet_pass_interface (@id job))); reflexivity|].
    constructor.
Defined.

(** C37: The stream-passing, stream-receiving and packet-receiving interfaces implement the same
    automaton without cancellation. *)
Theorem simple_interfaces_contract {J} `{EqDecision J} (g : list J) :
  NoDup g →
  (∀ (jid : StreamPass.job → J) (Hj : Inj (=) (=) jid) i es i' g', (∀ j, jid j ∉ g) →
     StreamPass.Sender_Init StreamPass.Init = Ok i →
     @fsteps J (ptr * Z) Z _ _ _ _ (StreamPassPort.stream_pass_interface jid) (i, g) es (i', g') →
     aruns None Idle es = Some (StreamPassPort.phase_of i') ∧
     @safe_at J (ptr * Z) Z _ _ _ _ (StreamPassPort.stream_pass_interface jid) (i', g')) ∧
  (∀ (jid : StreamRecv.job → J) (Hj : Inj (=) (=) jid) i es i' g', (∀ j, jid j ∉ g) →
     StreamRecv.Receiver_Init StreamRecv.Init = Ok i →
     @fsteps J (ptr * Z) Z _ _ _ _ (StreamRecvPort.stream_recv_interface jid) (i, g) es (i', g') →
     aruns None Idle es = Some (StreamRecvPort.phase_of i') ∧
     @safe_at J (ptr * Z) Z _ _ _ _ (StreamRecvPort.stream_recv_interface jid) (i', g')) ∧
  (∀ (jid : PacketRecv.job → J) (Hj : Inj (=) (=) jid) m i es i' g', (∀ j, jid j ∉ g) →
     PacketRecv.Init m ≫= PacketRecv.Receiver_Init = Ok i →
     @fsteps J ptr Z _ _ _ _ (PacketRecvPort.packet_recv_interface jid) (i, g) es (i', g') →
     aruns None Idle es = Some (PacketRecvPort.phase_of i') ∧
     @safe_at J ptr Z _ _ _ _ (PacketRecvPort.packet_recv_interface jid) (i', g')).
Proof.
  intros Hnd. split_and!.
  - intros jid Hj i es i' g' Hg Hi Hr. injection Hi as <-.
    pose proof (@fsteps_sound _ _ _ _ _ _ _ (StreamPassPort.stream_pass_interface jid) _ _ _ Hr)
      as [? Ha]; [by apply StreamPassPort.sp_start_inv|]. split; [exact Ha | by apply inv_safe].
  - intros jid Hj i es i' g' Hg Hi Hr. injection Hi as <-.
    pose proof (@fsteps_sound _ _ _ _ _ _ _ (StreamRecvPort.stream_recv_interface jid) _ _ _ Hr)
      as [? Ha]; [by apply StreamRecvPort.sr_start_inv|]. split; [exact Ha | by apply inv_safe].
  - intros jid Hj m i es i' g' Hg Hi Hr.
    unfold PacketRecv.Init, PacketRecv.Receiver_Init in Hi. cbn in Hi.
    destruct (0 <=? m); [|done]. injection Hi as <-.
    pose proof (@fsteps_sound _ _ _ _ _ _ _ (PacketRecvPort.packet_recv_interface jid) _ _ _ Hr)
      as [? Ha]; [by apply PacketRecvPort.pr_start_inv|]. split; [exact Ha | by apply inv_safe].
Qed.

Lemma simple_interfaces_contract_witness :
  aruns None Idle [ERequest (4096, 10); EOperation (4096, 10); EDone 3; EDoneCallback 3] = Some Idle.
Proof.
  pose (W := StreamPassPort.stream_pass_interface (@id StreamPass.job)).
  refine (proj1 (proj1 (simple_interfaces_contract [] (NoDup_nil_2)) (@id StreamPass.job) _
    (StreamPass.mk true NULL 0 0 STATE_NONE)
    [ERequest (4096, 10); EOperation (4096, 10); EDone 3; EDoneCallback 3]
    (StreamPass.mk true 4096 10 3 STATE_NONE) [] _ eq_refl _)).
  - intros j. apply not_elem_of_nil.
  - econstructor; [apply (@fs_request _ _ _ _ _ _ _ W _ [] (4096, 10)); reflexivity|].
    econstructor; [apply (@fs_operation _ _ _ _ _ _ _ W); reflexivity|].
    econstructor; [apply (@fs_done _ _ _ _ _ _ _ W _ _ 3); reflexivity|].
    econstructor; [apply (@fs_done_callback _ _ _ _ _ _ _ W); reflexivity|].
    constructor.
Defined.

End InterfaceContracts.

(** ** Ports: what a component sees of an interface

    From its user's side an interface either is idle or has a request outstanding, whatever
    the phase the request is in; this is all a component can depend on, and the state its
    model keeps for every interface it uses.  From its provider's side it is busy or not. *)

Module PortView.

Definition outstanding {A B} (ph : phase A B) : bool :=
  match ph with Idle => false | _ => true end.

(** [PacketPassInterface_Sender_Send], [StreamPassInterface_Sender_Send] and
    [StreamRecvInterface_Receiver_Recv], [PacketRecvInterface_Receiver_Recv]. *)
Definition packet_send (mtu : Z) (out : option (ptr * Z)) (d : ptr) (l : Z)
    : result (option (ptr * Z)) :=
  ASSERT (0 <=? l) ;; ASSERT (l <=? mtu) ;; ASSERT (negb (0 <? l) || negb (d =? NULL)) ;;
  ASSERT (bool_decide (out = None)) ;; Ok (Some (d, l)).

Definition stream_request (out : option (ptr * Z)) (d : ptr) (l : Z)
    : result (option (ptr * Z)) :=
  ASSERT (0 <? l) ;; ASSERT negb (d =? NULL) ;;
  ASSERT (bool_decide (out = None)) ;; Ok (Some (d, l)).

Definition packet_recv (mtu : Z) (out : option ptr) (d : ptr) : result (option ptr) :=
  ASSERT (negb (0 <? mtu) || negb (d =? NULL)) ;;
  ASSERT (bool_decide (out = None)) ;; Ok (Some d).

(** [PacketPassInterface_Done], [PacketRecvInterface_Done]. *)
Definition packet_done (busy : bool) : result bool := ASSERT busy ;; Ok false.

Definition recv_done (mtu : Z) (busy : bool) (l : Z) : result bool :=
  ASSERT (0 <=? l) ;; ASSERT (l <=? mtu) ;; ASSERT busy ;; Ok false.

(** A request the view accepts is one the interface object accepts. *)
Lemma packet_send_view {J} `{EqDecision J} (jid : PacketPass.job → J) i g d l :
  PacketPassPort.inv jid i g →
  is_ok (PacketPass.Sender_Send jid i g d l) ↔
  is_ok (packet_send (PacketPass.mtu i)
    (if outstanding (PacketPassPort.phase_of i) then Some (d, l) else None) d l).
Proof.
  intros [_ _ _ _ Hu _]. unfold PacketPass.Sender_Send, packet_send, PacketPassPort.phase_of,
    is_ok. rewrite Hu. destruct (0 <=? l), (l <=? _), (_ || _), (PacketPass.state i); simpl;
    naive_solver.
Qed.

Lemma stream_recv_view {J} `{EqDecision J} (jid : StreamRecv.job → J) i g d l :
  StreamRecvPort.inv jid i g →
  is_ok (StreamRecv.Receiver_Recv jid i g d l) ↔
  is_ok (stream_request (if outstanding (StreamRecvPort.phase_of i) then Some (d, l) else None) d l).
Proof.
  intros [_ _ _ Hu]. unfold StreamRecv.Receiver_Recv, stream_request, StreamRecvPort.phase_of,
    is_ok. rewrite Hu. destruct (0 <? l), (d =? _), (StreamRecv.state i); simpl; naive_solver.
Qed.

Lemma packet_recv_view {J} `{EqDecision J} (jid : PacketRecv.job → J) i g d :
  PacketRecvPort.inv jid i g →
  is_ok (PacketRecv.Receiver_Recv jid i g d) ↔
  is_ok (packet_recv (PacketRecv.mtu i)
    (if outstanding (PacketRecvPort.phase_of i) then Some d else None) d).
Proof.
  intros [_ _ _ Hu]. unfold PacketRecv.Receiver_Recv, packet_recv, PacketRecvPort.phase_of,
    is_ok. rewrite Hu. destruct (_ || _), (PacketRecv.state i); simpl; naive_solver.
Qed.

Lemma packet_send_ok M d l :
  0 ≤ l ≤ M → (0 < l → d ≠ NULL) → packet_send M None d l = Ok (Some (d, l)).
Proof.
  intros Hl Hd. unfold packet_send. rewrite (proj2 (Z.leb_le 0 l)), (proj2 (Z.leb_le l M)) by lia.
  simpl. destruct (Z.ltb_spec 0 l); [|done]. rewrite (proj2 (Z.eqb_neq d NULL)); auto.
Qed.

Lemma stream_request_ok d l : 0 < l → d ≠ NULL → stream_request None d l = Ok (Some (d, l)).
Proof.
  intros Hl Hd. unfold stream_request.
  by rewrite (proj2 (Z.ltb_lt 0 l)), (proj2 (Z.eqb_neq d NULL)).
Qed.

Lemma packet_recv_ok M d : (0 < M → d ≠ NULL) → packet_recv M None d = Ok (Some d).
Proof.
  intros Hd. unfold packet_recv. destruct (Z.ltb_spec 0 M); [|done].
  rewrite (proj2 (Z.eqb_neq d NULL)); auto.
Qed.

End PortView.
