(* ===== verification/IpPackets.v ===== *)
(** * UDP over IP: misc/ipv4_proto.h, misc/ipv6_proto.h, misc/udp_proto.h and tun2socks/tun2socks.c

    tun2socks takes UDP out of the packets the device reads ([process_device_udp_packet]), and puts
    replies into packets it writes to the device ([udpgw_client_handler_received]).  The headers are
    packed structures, whose object representation is [bytes]; a checksum is the sum of the 16-bit words of
    the objects it covers, in [uint32_t], with its carries folded.

    [IpFacts] relates the checksums to the one's complement sum of RFC 1071 and shows the round trip, the
    validity of what is written, and that reading a packet never leaves it. *)

From S2P Require Import Prelude CMem ReadWriteInt Addr.

(** ** Checksums *)

(** [badvpn_read_be16] of two bytes of an object *)
Definition be16 (b0 b1 : Z) : Z := Z.lor (Z.shiftl b0 8) (Z.shiftl b1 0).

(** The loops that sum the words of an object in [t], over the object's bytes. *)
Fixpoint sum_words (t : Z) (bs : list Z) : Z :=
  match bs with
  | b0 :: b1 :: bs => sum_words (to_u32 (t + be16 b0 b1)) bs
  | _ => t
  end.

(** [while (t >> 16) t = (t & 0xFFFF) + (t >> 16)]; [None] when [fuel] iterations were not enough.
    Three are (see [fold_carries_ok]). *)
Fixpoint fold_carries (fuel : nat) (t : Z) : option Z :=
  if Z.shiftr t 16 =? 0 then Some t else
  match fuel with
  | O => None
  | S fuel => fold_carries fuel (to_u32 (Z.land t 65535 + Z.shiftr t 16))
  end.

(** [~t] *)
Definition complement (t : Z) : Z := to_u32 (Z.lnot t).

Definition length_z (bs : list Z) : Z := Z.of_nat (length bs).

(** The unsigned integers at offset [i] of an object. *)
Definition u16_at (bs : list Z) (i : nat) : Z := le_value (take 2 (drop i bs)).

Definition u32_at (bs : list Z) (i : nat) : Z := le_value (take 4 (drop i bs)).

Definition u8_at (bs : list Z) (i : nat) : Z := nth i bs 0.

(** ** misc/ipv4_proto.h *)

Module Ipv4.

Definition IPV4_PROTOCOL_UDP : Z := 17.

Record ipv4_header := mkh {
  version4_ihl4 : Z;
  ds : Z;
  total_length : Z;
  identification : Z;
  flags3_fragmentoffset13 : Z;
  ttl : Z;
  protocol : Z;
  checksum : Z;
  source_address : Z;
  destination_address : Z;
}.

Definition sizeof : Z := 20.

Definition offsetof_protocol : Z := 9.

Definition bytes (h : ipv4_header) : list Z :=
  [version4_ihl4 h; ds h] ++ le_bytes 2 (total_length h)
  ++ le_bytes 2 (identification h) ++ le_bytes 2 (flags3_fragmentoffset13 h)
  ++ [ttl h; protocol h] ++ le_bytes 2 (checksum h)
  ++ le_bytes 4 (source_address h) ++ le_bytes 4 (destination_address h).

(** [memcpy(&header, data, sizeof(header))] *)
Definition of_bytes (bs : list Z) : ipv4_header :=
  mkh (u8_at bs 0) (u8_at bs 1) (u16_at bs 2) (u16_at bs 4) (u16_at bs 6)
      (u8_at bs 8) (u8_at bs 9) (u16_at bs 10) (u32_at bs 12) (u32_at bs 16).

Definition set_checksum (h : ipv4_header) (c : Z) : ipv4_header :=
  mkh (version4_ihl4 h) (ds h) (total_length h) (identification h) (flags3_fragmentoffset13 h)
      (ttl h) (protocol h) c (source_address h) (destination_address h).

Definition IPV4_GET_VERSION (h : ipv4_header) : Z := Z.shiftr (Z.land (version4_ihl4 h) 240) 4.

Definition IPV4_GET_IHL (h : ipv4_header) : Z := Z.shiftr (Z.land (version4_ihl4 h) 15) 0.

Definition IPV4_MAKE_VERSION_IHL (size : Z) : Z := size / 4 + Z.shiftl 4 4.

(** [extra] is the options, of a length that fits in [uint16_t]. *)
Definition ipv4_checksum (h : ipv4_header) (extra : list Z) : result Z :=
  ASSERT (length_z extra mod 2 =? 0) ;;
  let t := sum_words 0 (bytes h) in
  let t := sum_words t extra in
  t ← or_fault AssertFailed (fold_carries 3 t);
  Ok (hton16 (complement t)).

(** The header, the payload and its length. *)
Definition ipv4_check (m : mem) (data : ptr) (data_len : Z) : result (option (ipv4_header * ptr * Z)) :=
  ASSERT (0 <=? data_len) ;;
  if data_len <? sizeof then Ok None else
  bs ← load m data (Z.to_nat sizeof);
  let h := of_bytes bs in
  if negb (IPV4_GET_VERSION h =? 4) then Ok None else
  let header_len := to_u16 (IPV4_GET_IHL h * 4) in
  if header_len <? sizeof then Ok None else
  if data_len <? header_len then Ok None else
  let total := ntoh16 (total_length h) in
  if total <? header_len then Ok None else
  if data_len <? total then Ok None else
  let checksum_in_packet := checksum h in
  extra ← load m (data + sizeof) (Z.to_nat (header_len - sizeof));
  checksum_computed ← ipv4_checksum (set_checksum h (hton16 0)) extra;
  if negb (checksum_in_packet =? checksum_computed) then Ok None else
  Ok (Some (h, data + header_len, total - header_len)).

End Ipv4.

(** ** misc/ipv6_proto.h *)

Module Ipv6.

Definition IPV6_NEXT_UDP : Z := 17.

Record ipv6_header := mkh {
  version4_tc4 : Z;
  tc4_fl4 : Z;
  fl : Z;
  payload_length : Z;
  next_header : Z;
  hop_limit : Z;
  source_address : list Z;
  destination_address : list Z;
}.

Definition sizeof : Z := 40.

Definition offsetof_next_header : Z := 6.

Definition bytes (h : ipv6_header) : list Z :=
  [version4_tc4 h; tc4_fl4 h] ++ le_bytes 2 (fl h) ++ le_bytes 2 (payload_length h)
  ++ [next_header h; hop_limit h] ++ source_address h ++ destination_address h.

Definition of_bytes (bs : list Z) : ipv6_header :=
  mkh (u8_at bs 0) (u8_at bs 1) (u16_at bs 2) (u16_at bs 4) (u8_at bs 6) (u8_at bs 7)
      (take 16 (drop 8 bs)) (take 16 (drop 24 bs)).

Definition ipv6_check (m : mem) (data : ptr) (data_len : Z) : result (option (ipv6_header * ptr * Z)) :=
  ASSERT (0 <=? data_len) ;;
  if data_len <? sizeof then Ok None else
  bs ← load m data (Z.to_nat sizeof);
  let h := of_bytes bs in
  if negb (Z.shiftr (ntoh8 (version4_tc4 h)) 4 =? 6) then Ok None else
  let payload := ntoh16 (payload_length h) in
  if to_size (data_len - sizeof) <? payload then Ok None else
  Ok (Some (h, data + sizeof, payload)).

End Ipv6.

(** ** misc/udp_proto.h *)

Module Udp.

Record udp_header := mkh {
  source_port : Z;
  dest_port : Z;
  len : Z;
  checksum : Z;
}.

Definition sizeof : Z := 8.

Definition bytes (h : udp_header) : list Z :=
  le_bytes 2 (source_port h) ++ le_bytes 2 (dest_port h) ++ le_bytes 2 (len h) ++ le_bytes 2 (checksum h).

Definition of_bytes (bs : list Z) : udp_header :=
  mkh (u16_at bs 0) (u16_at bs 2) (u16_at bs 4) (u16_at bs 6).

Definition set_checksum (h : udp_header) (c : Z) : udp_header :=
  mkh (source_port h) (dest_port h) (len h) c.

Definition udp_checksum_summer (bs : list Z) : result Z :=
  ASSERT (length_z bs mod 2 =? 0) ;; Ok (sum_words 0 bs).

(** The second half of both checksums, from the header on; [t] is the sum so far. *)
Definition finish_checksum (t : Z) (h : udp_header) (payload : list Z) : result Z :=
  s ← udp_checksum_summer (bytes h);
  let t := to_u32 (t + s) in
  t ← (if length_z payload mod 2 =? 0 then
         s ← udp_checksum_summer payload; Ok (to_u32 (t + s))
       else
         s ← udp_checksum_summer (take (length payload - 1) payload);
         let t := to_u32 (t + s) in
         let x := hton16 (Z.shiftl (nth (length payload - 1) payload 0) 8) in
         s ← udp_checksum_summer (le_bytes 2 x); Ok (to_u32 (t + s)));
  t ← or_fault AssertFailed (fold_carries 3 t);
  let t := if t =? 0 then UINT16_MAX else t in
  Ok (hton16 (complement t)).

Definition udp_checksum (h : udp_header) (payload : list Z) (source_addr dest_addr : Z) : result Z :=
  let t := 0 in
  s ← udp_checksum_summer (le_bytes 4 source_addr); let t := to_u32 (t + s) in
  s ← udp_checksum_summer (le_bytes 4 dest_addr); let t := to_u32 (t + s) in
  s ← udp_checksum_summer (le_bytes 2 (hton16 Ipv4.IPV4_PROTOCOL_UDP)); let t := to_u32 (t + s) in
  s ← udp_checksum_summer (le_bytes 2 (hton16 (sizeof + length_z payload))); let t := to_u32 (t + s) in
  finish_checksum t h payload.

Definition udp_ip6_checksum (h : udp_header) (payload : list Z) (source_addr dest_addr : list Z) : result Z :=
  let t := 0 in
  s ← udp_checksum_summer (take 16 source_addr); let t := to_u32 (t + s) in
  s ← udp_checksum_summer (take 16 dest_addr); let t := to_u32 (t + s) in
  s ← udp_checksum_summer (le_bytes 4 (hton32 (sizeof + length_z payload))); let t := to_u32 (t + s) in
  s ← udp_checksum_summer (le_bytes 4 (hton32 Ipv6.IPV6_NEXT_UDP)); let t := to_u32 (t + s) in
  finish_checksum t h payload.

(** The header, the payload and its length. *)
Definition udp_check (m : mem) (data : ptr) (data_len : Z) : result (option (udp_header * ptr * Z)) :=
  ASSERT (0 <=? data_len) ;;
  if data_len <? sizeof then Ok None else
  bs ← load m data (Z.to_nat sizeof);
  let h := of_bytes bs in
  let data := data + sizeof in
  let data_len := data_len - sizeof in
  let udp_length := ntoh16 (len h) in
  if udp_length <? sizeof then Ok None else
  if sizeof + data_len <? udp_length then Ok None else
  let data_len := udp_length - sizeof in
  Ok (Some (h, data, data_len)).

End Udp.

(** ** The device side of tun2socks/tun2socks.c *)

Module Device.

(** The options and globals the functions read: whether there is a gateway, transparent DNS and IPv6,
    the address of the interface, the MTUs of the UDP client and of the device. *)
Record config := mkcfg {
  udpgw_remote_server_addr : bool;
  udpgw_transparent_dns : bool;
  netif_ip6addr : bool;
  netif_ipaddr : Z;
  udp_mtu : Z;
  device_mtu : Z;
}.

(** A packet of the lwip stack: a chain of buffers, as their addresses and lengths. *)
Definition pbuf : Type := ptr * Z.

Inductive call :=
| Read_Done                             (** [PacketPassInterface_Done(&device_read_interface)] *)
| SubmitPacket (local remote : BAddr.t) (is_dns : bool) (data : ptr) (len : Z)
| Pbuf_Take (data : ptr) (len : Z)      (** the copy of the packet for lwip *)
| Netif_Input
| Pbuf_Free
| Ip_Input | Ip6_Input
| BTap_Send (data : ptr) (len : Z).

Definition process_ipv4 (o : config) (m : mem) (data : ptr) (data_len : Z)
    : result (option (BAddr.t * BAddr.t * bool * ptr * Z)) :=
  proto ← (if data_len <? Ipv4.sizeof then Ok (-1) else byte_at m data Ipv4.offsetof_protocol);
  if (data_len <? Ipv4.sizeof) || negb (proto =? Ipv4.IPV4_PROTOCOL_UDP) then Ok None else
  r ← Ipv4.ipv4_check m data data_len;
  match r with
  | None => Ok None
  | Some (iph, data, data_len) =>
      r ← Udp.udp_check m data data_len;
      match r with
      | None => Ok None
      | Some (udph, data, data_len) =>
          payload ← load m data (Z.to_nat data_len);
          let checksum_in_packet := Udp.checksum udph in
          let udph := Udp.set_checksum udph 0 in
          checksum_computed ← Udp.udp_checksum udph payload (Ipv4.source_address iph)
                                                            (Ipv4.destination_address iph);
          if negb (checksum_in_packet =? checksum_computed) then Ok None else
          Ok (Some (BAddr.InitIPv4 (Ipv4.source_address iph) (Udp.source_port udph),
                    BAddr.InitIPv4 (Ipv4.destination_address iph) (Udp.dest_port udph),
                    udpgw_transparent_dns o && (Ipv4.destination_address iph =? netif_ipaddr o)
                    && (Udp.dest_port udph =? hton16 53),
                    data, data_len))
      end
  end.

Definition process_ipv6 (o : config) (m : mem) (data : ptr) (data_len : Z)
    : result (option (BAddr.t * BAddr.t * bool * ptr * Z)) :=
  if negb (netif_ip6addr o) then Ok None else
  proto ← (if data_len <? Ipv6.sizeof then Ok (-1) else byte_at m data Ipv6.offsetof_next_header);
  if (data_len <? Ipv6.sizeof) || negb (proto =? Ipv6.IPV6_NEXT_UDP) then Ok None else
  r ← Ipv6.ipv6_check m data data_len;
  match r with
  | None => Ok None
  | Some (iph, data, data_len) =>
      r ← Udp.udp_check m data data_len;
      match r with
      | None => Ok None
      | Some (udph, data, data_len) =>
          payload ← load m data (Z.to_nat data_len);
          let checksum_in_packet := Udp.checksum udph in
          let udph := Udp.set_checksum udph 0 in
          checksum_computed ← Udp.udp_ip6_checksum udph payload (Ipv6.source_address iph)
                                                                (Ipv6.destination_address iph);
          if negb (checksum_in_packet =? checksum_computed) then Ok None else
          Ok (Some (BAddr.InitIPv6 (Ipv6.source_address iph) (Udp.source_port udph),
                    BAddr.InitIPv6 (Ipv6.destination_address iph) (Udp.dest_port udph),
                    false, data, data_len))
      end
  end.

(** The return value is whether there is a call. *)
Definition process_device_udp_packet (o : config) (m : mem) (data : ptr) (data_len : Z)
    : result (option call) :=
  ASSERT (0 <=? data_len) ;;
  if negb (udpgw_remote_server_addr o) then Ok None else
  ip_version ← (if 0 <? data_len then b ← byte_at m data 0; Ok (Z.shiftr b 4) else Ok 0);
  r ← (if ip_version =? 4 then process_ipv4 o m data data_len
       else if ip_version =? 6 then process_ipv6 o m data data_len else Ok None);
  match r with
  | None => Ok None
  | Some (local, remote, is_dns, data, data_len) =>
      if udp_mtu o <? data_len then Ok None else
      Ok (Some (SubmitPacket local remote is_dns data data_len))
  end.

(** [alloc_ok], [take_ok] and [input_ok] are whether lwip's [pbuf_alloc], [pbuf_take] and [netif.input]
    succeed. *)
Definition device_read_handler_send (quitting : bool) (o : config) (m : mem) (data : ptr) (data_len : Z)
    (alloc_ok take_ok input_ok : bool) : result (list call) :=
  ASSERT negb quitting ;;
  ASSERT (0 <=? data_len) ;;
  r ← process_device_udp_packet o m data data_len;
  match r with
  | Some c => Ok [Read_Done; c]
  | None =>
      if UINT16_MAX <? data_len then Ok [Read_Done] else
      if negb alloc_ok then Ok [Read_Done] else
      ASSERT take_ok ;;
      Ok ([Read_Done; Pbuf_Take data data_len; Netif_Input] ++ (if input_ok then [] else [Pbuf_Free]))
  end.

(** The first buffer of the packet is enough to choose. *)
Definition netif_input_func (o : config) (m : mem) (p : pbuf) : result (list call) :=
  ip_version ← (if 0 <? snd p then b ← byte_at m (fst p) 0; Ok (Z.shiftr b 4) else Ok 0);
  Ok (if ip_version =? 4 then [Ip_Input]
      else if (ip_version =? 6) && netif_ip6addr o then [Ip6_Input] else [Pbuf_Free]).

(** The loop that copies a chain to the device's buffer; [None] when it does not fit. *)
Fixpoint copy_chain (o : config) (buf : ptr) (m : mem) (len : Z) (ps : list pbuf)
    : result (mem * option Z) :=
  match ps with
  | [] => Ok (m, Some len)
  | (payload, plen) :: ps =>
      if device_mtu o - len <? plen then Ok (m, None) else
      m ← memmove m (buf + len) payload plen;
      copy_chain o buf m (len + plen) ps
  end.

(** [p] is the first buffer, [next] the others; [device_write_buf] is the device's buffer. *)
Definition common_netif_output (quitting : bool) (o : config) (device_write_buf : ptr) (m : mem)
    (p : pbuf) (next : list pbuf) : result (mem * list call) :=
  if quitting then Ok (m, []) else
  match next with
  | [] =>
      if device_mtu o <? snd p then Ok (m, []) else Ok (m, [BTap_Send (fst p) (snd p)])
  | _ =>
      '(m, len) ← copy_chain o device_write_buf m 0 (p :: next);
      Ok (m, match len with None => [] | Some len => [BTap_Send device_write_buf len] end)
  end.

(** [memcpy] of two headers and the payload to the device's buffer. *)
Definition write_packet (m : mem) (buf : ptr) (iph udph : list Z) (data : ptr) (data_len : Z) : result mem :=
  m ← store m buf iph;
  m ← store m (buf + length_z iph) udph;
  memmove m (buf + length_z iph + length_z udph) data data_len.

Definition udpgw_client_handler_received (o : config) (device_write_buf : ptr) (m : mem)
    (local_addr remote_addr : BAddr.t) (data : ptr) (data_len : Z) : result (mem * list call) :=
  ASSERT udpgw_remote_server_addr o ;;
  ASSERT ((BAddr.type_of local_addr =? BADDR_TYPE_IPV4) || (BAddr.type_of local_addr =? BADDR_TYPE_IPV6)) ;;
  ASSERT (BAddr.type_of local_addr =? BAddr.type_of remote_addr) ;;
  ASSERT (0 <=? data_len) ;;
  match local_addr, remote_addr with
  | BAddr.IPV4 local_ip local_port, BAddr.IPV4 remote_ip remote_port =>
      if (to_size (UINT16_MAX - (Ipv4.sizeof + Udp.sizeof)) <? data_len)
         || (device_mtu o - (Ipv4.sizeof + Udp.sizeof) <? data_len) then Ok (m, []) else
      let iph := Ipv4.mkh (Ipv4.IPV4_MAKE_VERSION_IHL Ipv4.sizeof) (hton8 0)
                   (hton16 (Ipv4.sizeof + Udp.sizeof + data_len)) (hton16 0) (hton16 0)
                   (hton8 64) (hton8 Ipv4.IPV4_PROTOCOL_UDP) (hton16 0) remote_ip local_ip in
      c ← Ipv4.ipv4_checksum iph [];
      let iph := Ipv4.set_checksum iph c in
      let udph := Udp.mkh remote_port local_port (hton16 (Udp.sizeof + data_len)) (hton16 0) in
      payload ← load m data (Z.to_nat data_len);
      c ← Udp.udp_checksum udph payload (Ipv4.source_address iph) (Ipv4.destination_address iph);
      let udph := Udp.set_checksum udph c in
      m ← write_packet m device_write_buf (Ipv4.bytes iph) (Udp.bytes udph) data data_len;
      Ok (m, [BTap_Send device_write_buf (Ipv4.sizeof + Udp.sizeof + data_len)])
  | BAddr.IPV6 local_ip local_port, BAddr.IPV6 remote_ip remote_port =>
      if negb (netif_ip6addr o) then Ok (m, []) else
      if (to_size (UINT16_MAX - Udp.sizeof) <? data_len)
         || (device_mtu o - (Ipv6.sizeof + Udp.sizeof) <? data_len) then Ok (m, []) else
      let iph := Ipv6.mkh (hton8 (Z.shiftl 6 4)) (hton8 0) (hton16 0)
                   (hton16 (Udp.sizeof + data_len)) (hton8 Ipv6.IPV6_NEXT_UDP) (hton8 64)
                   (take 16 remote_ip) (take 16 local_ip) in
      let udph := Udp.mkh remote_port local_port (hton16 (Udp.sizeof + data_len)) (hton16 0) in
      payload ← load m data (Z.to_nat data_len);
      c ← Udp.udp_ip6_checksum udph payload (Ipv6.source_address iph) (Ipv6.destination_address iph);
      let udph := Udp.set_checksum udph c in
      m ← write_packet m device_write_buf (Ipv6.bytes iph) (Udp.bytes udph) data data_len;
      Ok (m, [BTap_Send device_write_buf (Ipv6.sizeof + Udp.sizeof + data_len)])
  | _, _ => Fault AssertFailed
  end.

End Device.

Module IpFacts.

(** ** The one's complement sum of RFC 1071 *)

Definition oc_add (a b : Z) : Z := if 65535 <? a + b then a + b - 65535 else a + b.

(** The 16-bit words of data in network order, the last one padded with zeros. *)
Fixpoint words (bs : list Z) : list Z :=
  match bs with
  | b0 :: b1 :: bs => (256 * b0 + b1) :: words bs
  | [b0] => [256 * b0]
  | [] => []
  end.

Definition ones_sum (bs : list Z) : Z := foldr oc_add 0 (words bs).

Definition sum_z (ws : list Z) : Z := foldr Z.add 0 ws.

Definition is_word (w : Z) : Prop := 0 ≤ w ≤ 65535.

(** The number from 1 to 65535 congruent to a positive sum. *)
Definition folded (s : Z) : Z := if s =? 0 then 0 else (s - 1) mod 65535 + 1.

Lemma bytes_pair_ind (P : list Z → Prop) :
  P [] → (∀ b, P [b]) → (∀ b0 b1 bs, P bs → P (b0 :: b1 :: bs)) → ∀ bs, P bs.
Proof.
  intros H0 H1 H2 bs. enough (P bs ∧ ∀ b, P (b :: bs)) by tauto.
  induction bs as [|b bs [IH1 IH2]]; [by split|]. split; [apply IH2 | intros b'; by apply H2].
Qed.

Lemma words_bound bs : Forall is_byte bs → Forall is_word (words bs).
Proof.
  unfold is_byte, is_word. revert bs. apply (bytes_pair_ind (λ bs, Forall _ bs → Forall _ (words bs))); simpl.
  - intros _. constructor.
  - intros b Hb. decompose_Forall_hyps. repeat constructor; lia.
  - intros b0 b1 bs IH Hb. decompose_Forall_hyps. constructor; [lia | by apply IH].
Qed.

Lemma sum_z_bound ws : Forall is_word ws → 0 ≤ sum_z ws ≤ 65535 * Z.of_nat (length ws).
Proof. unfold is_word. induction 1; cbn [sum_z foldr length] in *; unfold sum_z in *; lia. Qed.

Lemma length_words bs : Z.of_nat (length (words bs)) = (length_z bs + 1) / 2.
Proof.
  unfold length_z. revert bs. apply bytes_pair_ind; [done|done|]. intros b0 b1 bs IH. cbn [words length].
  rewrite !Nat2Z.inj_succ, IH. replace (Z.succ (Z.succ _) + 1) with (Z.of_nat (length bs) + 1 + 1 * 2) by lia.
  rewrite Z.div_add by done. lia.
Qed.

Lemma folded_bound s : 0 ≤ s → 0 ≤ folded s ≤ 65535.
Proof. intros. unfold folded. case_if; [lia|]. pose proof (Z.mod_pos_bound (s - 1) 65535). lia. Qed.

Lemma folded_small s : 0 ≤ s ≤ 65535 → folded s = s.
Proof. intros. unfold folded. case_if; [lia|]. rewrite Z.mod_small; lia. Qed.

Lemma folded_pos s : 0 < s → 1 ≤ folded s.
Proof. intros. unfold folded. case_if; [lia|]. pose proof (Z.mod_pos_bound (s - 1) 65535). lia. Qed.

Lemma folded_add s k : 0 < s → 0 ≤ k → folded (s + k * 65535) = folded s.
Proof.
  intros. unfold folded. rewrite (proj2 (Z.eqb_neq _ _)), (proj2 (Z.eqb_neq s _)) by nia.
  replace (s + k * 65535 - 1) with (s - 1 + k * 65535) by lia. by rewrite Z.mod_add.
Qed.

Lemma folded_mod s : 0 ≤ s → folded s mod 65535 = s mod 65535.
Proof.
  intros. unfold folded. case_if; [by subst|].
  rewrite Zplus_mod_idemp_l. f_equal. lia.
Qed.

Lemma oc_add_folded a s : is_word a → 0 ≤ s → oc_add a (folded s) = folded (a + s).
Proof.
  unfold is_word, oc_add. intros Ha Hs. pose proof (folded_bound s Hs).
  destruct (decide (s = 0)) as [->|]; [change (folded 0) with 0; rewrite !Z.add_0_r, (folded_small a) by lia; case_if; lia|].
  pose proof (folded_pos s ltac:(lia)).
  assert (∃ k, 0 ≤ k ∧ s = folded s + k * 65535) as (k & Hk & E).
  { unfold folded. rewrite (proj2 (Z.eqb_neq s _)) by done. exists ((s - 1) / 65535).
    split; [apply Z.div_pos; lia|]. pose proof (Z.div_mod (s - 1) 65535). lia. }
  assert (folded (a + s) = folded (a + folded s)) as ->.
  { rewrite <- (folded_add (a + folded s) k) by lia. f_equal. lia. }
  case_if.
  - transitivity (folded (a + folded s - 65535)); [by rewrite (folded_small (a + folded s - 65535)) by lia|].
    rewrite <- (folded_add (a + folded s - 65535) 1) by lia. f_equal. lia.
  - by rewrite (folded_small (a + folded s)) by lia.
Qed.

(** The one's complement sum is the sum, folded. *)
Lemma ones_sum_folded bs : Forall is_byte bs → ones_sum bs = folded (sum_z (words bs)).
Proof.
  intros Hb%words_bound. unfold ones_sum. induction Hb as [|w ws Hw Hws IH]; [done|].
  cbn [foldr sum_z]. rewrite IH. apply oc_add_folded; [done|]. by apply sum_z_bound.
Qed.

Lemma words_app a b : length_z a mod 2 = 0 → words (a ++ b) = words a ++ words b.
Proof.
  unfold length_z. revert a. apply (bytes_pair_ind (λ a, _ → words (a ++ b) = _)); [done|done|].
  intros b0 b1 bs IH H. cbn [app words]. rewrite IH; [done|]. cbn [length] in H.
  rewrite !Nat2Z.inj_succ in H. rewrite <- H. replace (Z.succ (Z.succ _)) with (Z.of_nat (length bs) + 1 * 2) by lia.
  by rewrite Z.mod_add.
Qed.

Lemma sum_z_app a b : sum_z (a ++ b) = sum_z a + sum_z b.
Proof. unfold sum_z. induction a as [|x a IH]; cbn [app foldr]; [done|]. rewrite IH. lia. Qed.

(** The sum of data of even length. *)
Definition data_sum (bs : list Z) : Z := sum_z (words bs).

Lemma data_sum_app a b : length_z a mod 2 = 0 → data_sum (a ++ b) = data_sum a + data_sum b.
Proof. intros H. unfold data_sum. by rewrite words_app, sum_z_app by done. Qed.

Lemma data_sum_bound bs n : Forall is_byte bs → length_z bs ≤ n → 0 ≤ data_sum bs ≤ 32768 * (n + 1).
Proof.
  intros Hb Hn. pose proof (sum_z_bound _ (words_bound _ Hb)) as H. rewrite length_words in H.
  pose proof (Z.mul_div_le (length_z bs + 1) 2). unfold data_sum. lia.
Qed.

(** ** The code's sums *)

Lemma be16_value b0 b1 : is_byte b1 → be16 b0 b1 = 256 * b0 + b1.
Proof. intros. unfold be16. rewrite Z.shiftl_0_r. by apply ReadWriteFacts.lor_byte. Qed.

Lemma to_u32_small x : 0 ≤ x < 2 ^ 32 → to_u32 x = x.
Proof. apply Z.mod_small. Qed.

Lemma sum_words_ok bs : ∀ t,
  Forall is_byte bs → length_z bs mod 2 = 0 → 0 ≤ t → t + data_sum bs < 2 ^ 32 →
  sum_words t bs = t + data_sum bs.
Proof.
  revert bs. refine (bytes_pair_ind _ _ _ _); [cbn; intros; lia | done |].
  intros b0 b1 bs IH t Hb Hl Ht Hs. decompose_Forall_hyps. unfold is_byte in *. unfold length_z in *.
  cbn [sum_words]. unfold data_sum in *. cbn [words sum_z foldr] in *. fold (sum_z (words bs)) in *.
  match goal with H : Forall _ bs |- _ => rename H into Hbs end.
  pose proof (sum_z_bound _ (words_bound _ Hbs)). rewrite be16_value by done.
  rewrite to_u32_small by lia. rewrite IH; [lia|done| |lia|lia].
  cbn [length] in Hl. rewrite !Nat2Z.inj_succ in Hl. rewrite <- Hl.
  replace (Z.succ (Z.succ _)) with (Z.of_nat (length bs) + 1 * 2) by lia. by rewrite Z.mod_add.
Qed.

Lemma carry_step t : 65536 ≤ t < 2 ^ 32 →
  to_u32 (Z.land t 65535 + Z.shiftr t 16) = t mod 65536 + t / 65536 ∧
  folded (t mod 65536 + t / 65536) = folded t.
Proof.
  intros Ht. change 65535 with (Z.ones 16) at 1. rewrite Z.land_ones, Z.shiftr_div_pow2 by lia.
  change (2 ^ 16) with 65536. pose proof (Z.mod_pos_bound t 65536). pose proof (Z.div_mod t 65536).
  pose proof (Z.div_lt_upper_bound t 65536 65536). pose proof (Z.div_le_lower_bound t 65536 1).
  split; [apply to_u32_small; lia|].
  rewrite <- (folded_add _ (t / 65536)) by lia. f_equal. lia.
Qed.

Lemma fold_carries_ok t : 0 ≤ t < 2 ^ 32 → fold_carries 3 t = Some (folded t).
Proof.
  assert (Hdone : ∀ n x, 0 ≤ x < 65536 → fold_carries n x = Some (folded x)).
  { intros n x Hx. rewrite folded_small by lia.
    assert (Z.shiftr x 16 = 0) as E by (rewrite Z.shiftr_div_pow2 by lia; apply Z.div_small; lia).
    destruct n; cbn [fold_carries]; by rewrite E. }
  assert (Hstep : ∀ n x, 65536 ≤ x < 2 ^ 32 → folded (x mod 65536 + x / 65536) = folded x ∧
    fold_carries (S n) x = fold_carries n (x mod 65536 + x / 65536)).
  { intros n x Hx. destruct (carry_step x Hx) as [H1 H2]. split; [done|]. cbn [fold_carries].
    rewrite H1. rewrite (proj2 (Z.eqb_neq _ _)); [done|]. rewrite Z.shiftr_div_pow2 by lia.
    pose proof (Z.div_le_lower_bound x (2 ^ 16) 1). lia. }
  assert (Hb : ∀ x k, 0 < k → 65536 ≤ x < 65536 * k → 0 ≤ x mod 65536 + x / 65536 < 65535 + k).
  { intros x k Hk Hx. pose proof (Z.mod_pos_bound x 65536). pose proof (Z.div_lt_upper_bound x 65536 k).
    pose proof (Z.div_pos x 65536). lia. }
  intros Ht. destruct (decide (t < 65536)); [apply Hdone; lia|].
  destruct (Hstep 2%nat t ltac:(lia)) as [<- ->]. pose proof (Hb t 65536 ltac:(lia) ltac:(lia)).
  set (x := t mod 65536 + t / 65536) in *. clearbody x.
  destruct (decide (x < 65536)); [apply Hdone; lia|].
  destruct (Hstep 1%nat x ltac:(lia)) as [<- ->]. pose proof (Hb x 2 ltac:(lia) ltac:(lia)).
  set (y := x mod 65536 + x / 65536) in *. clearbody y.
  destruct (decide (y < 65536)); [apply Hdone; lia|].
  destruct (Hstep 0%nat y ltac:(lia)) as [<- ->]. apply Hdone.
  assert (y = 65536) as -> by lia. change (0 ≤ 1 < 65536). lia.
Qed.

Lemma hton16_complement t : 0 ≤ t ≤ 65535 → hton16 (complement t) = hton16 (65535 - t).
Proof.
  intros Ht. unfold hton16, complement. f_equal. unfold to_u16, to_u32, Z.lnot.
  rewrite <- (Z.mod_add (Z.pred (- t)) 1 (2 ^ 32)) by done.
  rewrite (Z.mod_small (_ + _)), (Z.mod_small (65535 - t)) by lia.
  replace (Z.pred (- t) + 1 * 2 ^ 32) with (65535 - t + 65535 * 2 ^ 16) by lia.
  rewrite Z.mod_add by done. apply Z.mod_small. lia.
Qed.

(** ** Objects and their bytes *)

Definition is_u16 (x : Z) : Prop := 0 ≤ x < 2 ^ 16.
Definition is_u32 (x : Z) : Prop := 0 ≤ x < 2 ^ 32.

Record ipv4_ok (h : Ipv4.ipv4_header) : Prop := {
  o4_version : is_byte (Ipv4.version4_ihl4 h);
  o4_ds : is_byte (Ipv4.ds h);
  o4_total : is_u16 (Ipv4.total_length h);
  o4_id : is_u16 (Ipv4.identification h);
  o4_flags : is_u16 (Ipv4.flags3_fragmentoffset13 h);
  o4_ttl : is_byte (Ipv4.ttl h);
  o4_protocol : is_byte (Ipv4.protocol h);
  o4_checksum : is_u16 (Ipv4.checksum h);
  o4_source : is_u32 (Ipv4.source_address h);
  o4_dest : is_u32 (Ipv4.destination_address h);
}.

Record ipv6_ok (h : Ipv6.ipv6_header) : Prop := {
  o6_version : is_byte (Ipv6.version4_tc4 h);
  o6_tc : is_byte (Ipv6.tc4_fl4 h);
  o6_fl : is_u16 (Ipv6.fl h);
  o6_payload : is_u16 (Ipv6.payload_length h);
  o6_next : is_byte (Ipv6.next_header h);
  o6_hop : is_byte (Ipv6.hop_limit h);
  o6_source : length (Ipv6.source_address h) = 16%nat ∧ Forall is_byte (Ipv6.source_address h);
  o6_dest : length (Ipv6.destination_address h) = 16%nat ∧ Forall is_byte (Ipv6.destination_address h);
}.

Record udp_ok (h : Udp.udp_header) : Prop := {
  ou_source : is_u16 (Udp.source_port h);
  ou_dest : is_u16 (Udp.dest_port h);
  ou_len : is_u16 (Udp.len h);
  ou_checksum : is_u16 (Udp.checksum h);
}.

Lemma ok_inj {A} (a b : A) : Ok a = Ok b → a = b.
Proof. by intros [= ->]. Qed.

Lemma le2 x : is_u16 x → le_value [x mod 256; x / 256 mod 256] = x.
Proof. apply (le_value_bytes 2). Qed.

Lemma le4 x : is_u32 x →
  le_value [x mod 256; x / 256 mod 256; x / 256 / 256 mod 256; x / 256 / 256 / 256 mod 256] = x.
Proof. apply (le_value_bytes 4). Qed.

Lemma ipv4_of_bytes h rest : ipv4_ok h → Ipv4.of_bytes (Ipv4.bytes h ++ rest) = h.
Proof.
  intros []. destruct h. unfold Ipv4.of_bytes, u16_at, u32_at, u8_at.
  cbn [Ipv4.bytes Ipv4.version4_ihl4 Ipv4.ds Ipv4.total_length Ipv4.identification Ipv4.flags3_fragmentoffset13
       Ipv4.ttl Ipv4.protocol Ipv4.checksum Ipv4.source_address Ipv4.destination_address
       le_bytes app nth drop take] in *.
  by rewrite !le2, !le4.
Qed.

Lemma udp_of_bytes h rest : udp_ok h → Udp.of_bytes (Udp.bytes h ++ rest) = h.
Proof.
  intros []. destruct h. unfold Udp.of_bytes, u16_at.
  cbn [Udp.bytes Udp.source_port Udp.dest_port Udp.len Udp.checksum le_bytes app nth drop take] in *.
  by rewrite !le2.
Qed.

Lemma ipv6_of_bytes h rest : ipv6_ok h → Ipv6.of_bytes (Ipv6.bytes h ++ rest) = h.
Proof.
  intros [????? ? [Hs _] [Hd _]]. unfold Ipv6.of_bytes, Ipv6.bytes.
  set (hd := [Ipv6.version4_tc4 h; Ipv6.tc4_fl4 h] ++ le_bytes 2 (Ipv6.fl h) ++ le_bytes 2 (Ipv6.payload_length h)
             ++ [Ipv6.next_header h; Ipv6.hop_limit h]).
  replace (_ ++ rest) with (hd ++ Ipv6.source_address h ++ Ipv6.destination_address h ++ rest)
    by (unfold hd; rewrite <- !app_assoc; done).
  rewrite (drop_app_length' hd), take_app_length' by done.
  replace (drop 24 _) with (Ipv6.destination_address h ++ rest)
    by (rewrite (app_assoc hd); rewrite drop_app_length'; [done | rewrite length_app, Hs; done]).
  rewrite take_app_length' by done. subst hd. unfold u16_at, u8_at. destruct h.
  cbn [Ipv6.version4_tc4 Ipv6.tc4_fl4 Ipv6.fl Ipv6.payload_length Ipv6.next_header Ipv6.hop_limit
       Ipv6.source_address Ipv6.destination_address le_bytes app nth drop take] in *.
  by rewrite !le2 by done.
Qed.

Ltac bytes_list := repeat (apply Forall_cons_2; [done|]); apply Forall_nil_2.

Lemma le_bytes2_value b0 b1 : is_byte b0 → is_byte b1 → le_bytes 2 (le_value [b0; b1]) = [b0; b1].
Proof. intros. apply (le_bytes_value [b0; b1]). bytes_list. Qed.

Lemma le_bytes4_value b0 b1 b2 b3 : is_byte b0 → is_byte b1 → is_byte b2 → is_byte b3 →
  le_bytes 4 (le_value [b0; b1; b2; b3]) = [b0; b1; b2; b3].
Proof. intros. apply (le_bytes_value [b0; b1; b2; b3]). bytes_list. Qed.

Lemma u16_value b0 b1 : is_byte b0 → is_byte b1 → is_u16 (le_value [b0; b1]).
Proof. intros. apply (le_value_bound [b0; b1]). bytes_list. Qed.

Lemma u32_value b0 b1 b2 b3 : is_byte b0 → is_byte b1 → is_byte b2 → is_byte b3 →
  is_u32 (le_value [b0; b1; b2; b3]).
Proof. intros. apply (le_value_bound [b0; b1; b2; b3]). bytes_list. Qed.

(** Take the bytes of a list of known length apart. *)
Ltac explode bs n :=
  match n with
  | O => destruct bs; [|done]
  | S ?n => let b := fresh "b" in let bs' := fresh "bs" in
            destruct bs as [|b bs']; [done|]; explode bs' n
  end.

Lemma ipv4_bytes_of bs : Forall is_byte bs → length bs = 20%nat →
  Ipv4.bytes (Ipv4.of_bytes bs) = bs ∧ ipv4_ok (Ipv4.of_bytes bs).
Proof.
  intros Hb Hl. explode bs 20%nat. decompose_Forall_hyps.
  unfold Ipv4.of_bytes, u16_at, u32_at, u8_at. cbn [drop take nth]. split.
  - unfold Ipv4.bytes. cbn [Ipv4.version4_ihl4 Ipv4.ds Ipv4.total_length Ipv4.identification
      Ipv4.flags3_fragmentoffset13 Ipv4.ttl Ipv4.protocol Ipv4.checksum Ipv4.source_address Ipv4.destination_address].
    by rewrite !le_bytes2_value, !le_bytes4_value.
  - split; cbn -[le_value]; first [done | by apply u16_value | by apply u32_value].
Qed.

Lemma udp_bytes_of bs : Forall is_byte bs → length bs = 8%nat →
  Udp.bytes (Udp.of_bytes bs) = bs ∧ udp_ok (Udp.of_bytes bs).
Proof.
  intros Hb Hl. explode bs 8%nat. decompose_Forall_hyps.
  unfold Udp.of_bytes, u16_at. cbn [drop take]. split.
  - unfold Udp.bytes. cbn [Udp.source_port Udp.dest_port Udp.len Udp.checksum]. by rewrite !le_bytes2_value.
  - split; cbn -[le_value]; by apply u16_value.
Qed.

Lemma ipv6_bytes_of bs : Forall is_byte bs → length bs = 40%nat →
  Ipv6.bytes (Ipv6.of_bytes bs) = bs ∧ ipv6_ok (Ipv6.of_bytes bs).
Proof.
  intros Hb Hl. explode bs 40%nat. decompose_Forall_hyps.
  unfold Ipv6.of_bytes, u16_at, u8_at. cbn [drop take nth]. split.
  - unfold Ipv6.bytes. cbn [Ipv6.version4_tc4 Ipv6.tc4_fl4 Ipv6.fl Ipv6.payload_length Ipv6.next_header
      Ipv6.hop_limit Ipv6.source_address Ipv6.destination_address]. by rewrite !le_bytes2_value.
  - split; cbn -[le_value]; first [done | by apply u16_value | split; [done | bytes_list]].
Qed.

(** ** The checksums *)

(** What a receiver verifies: all words, the checksum included, sum to all ones. *)
Definition checks (bs : list Z) : Prop := ones_sum bs = 65535.

(** The checksum of RFC 768 for the data, whose checksum field is zero. *)
Definition rfc768 (bs : list Z) : Z :=
  let c := 65535 - ones_sum bs in if c =? 0 then 65535 else c.

(** The pseudo headers, with the length of the datagram. *)
Definition pseudo4 (src dst : Z) (n : Z) : list Z :=
  le_bytes 4 src ++ le_bytes 4 dst ++ [0; Ipv4.IPV4_PROTOCOL_UDP] ++ le_bytes 2 (hton16 n).

Definition pseudo6 (src dst : list Z) (n : Z) : list Z :=
  src ++ dst ++ le_bytes 4 (hton32 n) ++ [0; 0; 0; Ipv6.IPV6_NEXT_UDP].

Lemma hton16_bytes x : is_u16 x → le_bytes 2 (hton16 x) = [x / 256; x mod 256].
Proof.
  intros Hx. unfold hton16, badvpn_reverse16, to_u16. rewrite (Z.mod_small x) by done.
  change (reverse (le_bytes 2 x)) with [x / 256 mod 256; x mod 256]. unfold is_u16 in *.
  assert (is_byte (x / 256)).
  { split; [apply Z.div_pos; lia | apply Z.div_lt_upper_bound; lia]. }
  rewrite (Z.mod_small (x / 256)) by done. rewrite le_bytes2_value; [done|done|]. apply ReadWriteFacts.byte_mod.
Qed.

Lemma data_sum2 b0 b1 : data_sum [b0; b1] = 256 * b0 + b1.
Proof. unfold data_sum. cbn [words sum_z foldr]. lia. Qed.

Lemma hton16_sum x : is_u16 x → data_sum (le_bytes 2 (hton16 x)) = x.
Proof.
  intros Hx. rewrite hton16_bytes, data_sum2 by done. pose proof (Z.div_mod x 256). lia.
Qed.

Lemma hton16_u16 x : is_u16 x → hton16 (hton16 x) = x ∧ is_u16 (hton16 x).
Proof. apply AddrFacts.hton16_involutive. Qed.

(** The sum of an object's checksum field is its value in host order. *)
Lemma field_sum c : is_u16 c → data_sum (le_bytes 2 c) = ntoh16 c.
Proof.
  intros Hc. destruct (hton16_u16 c Hc) as [H1 H2]. rewrite <- H1 at 1. by rewrite hton16_sum.
Qed.

Lemma length_ipv4_bytes h : length (Ipv4.bytes h) = 20%nat.
Proof. done. Qed.

Lemma length_udp_bytes h : length (Udp.bytes h) = 8%nat.
Proof. done. Qed.

Lemma length_ipv6_bytes h : ipv6_ok h → length (Ipv6.bytes h) = 40%nat.
Proof. intros [?????? [Hs _] [Hd _]]. unfold Ipv6.bytes. cbn [le_bytes app length]. by rewrite length_app, Hs, Hd. Qed.

Lemma ipv4_bytes_ok h : ipv4_ok h → Forall is_byte (Ipv4.bytes h).
Proof.
  intros []. unfold Ipv4.bytes.
  repeat (apply Forall_app; split); try apply le_bytes_bytes; bytes_list.
Qed.

Lemma udp_bytes_ok h : Forall is_byte (Udp.bytes h).
Proof. unfold Udp.bytes. repeat (apply Forall_app; split); apply le_bytes_bytes. Qed.

Lemma ipv4_sum h : is_u16 (Ipv4.checksum h) →
  data_sum (Ipv4.bytes h) = data_sum (Ipv4.bytes (Ipv4.set_checksum h 0)) + ntoh16 (Ipv4.checksum h).
Proof.
  intros Hc. rewrite <- field_sum by done. unfold Ipv4.bytes, data_sum.
  cbn [Ipv4.set_checksum Ipv4.version4_ihl4 Ipv4.ds Ipv4.total_length Ipv4.identification
    Ipv4.flags3_fragmentoffset13 Ipv4.ttl Ipv4.protocol Ipv4.checksum Ipv4.source_address
    Ipv4.destination_address le_bytes app words sum_z foldr]. change (0 mod 256) with 0.
  change (0 / 256 mod 256) with 0. lia.
Qed.

Lemma udp_sum h : is_u16 (Udp.checksum h) →
  data_sum (Udp.bytes h) = data_sum (Udp.bytes (Udp.set_checksum h 0)) + ntoh16 (Udp.checksum h).
Proof.
  intros Hc. rewrite <- field_sum by done. unfold Udp.bytes, data_sum.
  cbn [Udp.set_checksum Udp.source_port Udp.dest_port Udp.len Udp.checksum le_bytes app words sum_z foldr].
  change (0 mod 256) with 0. change (0 / 256 mod 256) with 0. lia.
Qed.

(** A first byte that is not zero makes a sum positive. *)
Lemma data_sum_pos bs i b : Forall is_byte bs → bs !! i = Some b → b ≠ 0 → 0 < data_sum bs.
Proof.
  unfold data_sum. revert bs i. refine (bytes_pair_ind _ _ _ _); [done | |].
  - intros b0 [|i] Hb Hi Hne; simplify_eq/=. decompose_Forall_hyps. unfold is_byte in *. cbn. lia.
  - intros b0 b1 bs IH i Hb Hi Hne. decompose_Forall_hyps. unfold is_byte in *. cbn [words sum_z foldr].
    fold (sum_z (words bs)). match goal with H : Forall _ bs |- _ => rename H into Hbs end.
    pose proof (sum_z_bound _ (words_bound _ Hbs)).
    destruct i as [|[|i]]; simplify_eq/=; [lia|lia|]. specialize (IH i Hbs Hi Hne). lia.
Qed.

(** The checksum that makes a positive sum check, and the code's test for it. *)
Lemma checksum_checks s c : 0 < s → is_u16 c →
  c = 65535 - folded s ↔ folded (s + c) = 65535 ∧ c ≠ 65535.
Proof.
  unfold is_u16. intros Hs Hc. pose proof (folded_bound s ltac:(lia)). pose proof (folded_pos s Hs).
  assert (Ha : ∀ x y, 0 < x → 0 ≤ y → folded (folded x + y) = folded (x + y)).
  { intros x y Hx Hy. pose proof (folded_pos x Hx). unfold folded at 2.
    rewrite (proj2 (Z.eqb_neq x 0)) by lia.
    rewrite <- (folded_add (_ + y) ((x - 1) / 65535)); [|pose proof (Z.mod_pos_bound (x - 1) 65535); lia | apply Z.div_pos; lia].
    f_equal. pose proof (Z.div_mod (x - 1) 65535). lia. }
  rewrite <- Ha by lia. split.
  - intros ->. rewrite folded_small by lia. lia.
  - intros [H1 H2]. destruct (decide (folded s + c ≤ 65535)); [rewrite folded_small in H1; lia|].
    replace (folded s + c) with (folded s + c - 65535 + 1 * 65535) in H1 by lia.
    rewrite folded_add, folded_small in H1 by lia. lia.
Qed.

Lemma ntoh16_inj a b : is_u16 a → is_u16 b → ntoh16 a = ntoh16 b ↔ a = b.
Proof.
  intros Ha Hb. split; [|by intros ->]. intros H. unfold ntoh16 in H.
  rewrite <- (proj1 (hton16_u16 a Ha)), H. by apply hton16_u16.
Qed.

Lemma ntoh16_max c : is_u16 c → ntoh16 c ≠ 65535 ↔ c ≠ 65535.
Proof. intros Hc. rewrite <- (ntoh16_inj c 65535) by done. done. Qed.

Lemma data_sum_app4 h extra : data_sum (Ipv4.bytes h ++ extra) = data_sum (Ipv4.bytes h) + data_sum extra.
Proof. by rewrite data_sum_app. Qed.

Lemma ipv4_checksum_ok h extra :
  ipv4_ok h → Forall is_byte extra → length_z extra mod 2 = 0 → length_z extra ≤ 65535 →
  0 < data_sum (Ipv4.bytes h) →
  Ipv4.ipv4_checksum h extra = Ok (hton16 (65535 - folded (data_sum (Ipv4.bytes h ++ extra)))).
Proof.
  intros Hh He Hl Hn Hpos. unfold Ipv4.ipv4_checksum. rewrite Hl. cbn [Z.eqb c_assert].
  pose proof (ipv4_bytes_ok h Hh) as Hb.
  pose proof (data_sum_bound (Ipv4.bytes h) 20 Hb ltac:(done)) as H1.
  pose proof (data_sum_bound extra 65535 He Hn) as H2.
  rewrite data_sum_app4, (sum_words_ok (Ipv4.bytes h)), (sum_words_ok extra) by (done || lia).
  rewrite Z.add_0_l, fold_carries_ok by lia. cbn [or_fault]. rewrite ok_bind. f_equal.
  apply hton16_complement, folded_bound. lia.
Qed.

Lemma ipv4_sum_pos h : ipv4_ok h → Ipv4.version4_ihl4 h ≠ 0 → 0 < data_sum (Ipv4.bytes h).
Proof. intros Hh Hv. by apply (data_sum_pos _ 0 (Ipv4.version4_ihl4 h)); [apply ipv4_bytes_ok|..]. Qed.

Lemma ipv4_set_ok h c : ipv4_ok h → is_u16 c → ipv4_ok (Ipv4.set_checksum h c).
Proof. intros [] ?. by split. Qed.

Lemma udp_set_ok h c : udp_ok h → is_u16 c → udp_ok (Udp.set_checksum h c).
Proof. intros [] ?. by split. Qed.

Lemma folded_u16 s : 0 ≤ s → is_u16 (65535 - folded s).
Proof. intros H%folded_bound. unfold is_u16. lia. Qed.

(** The checksum test of a received header. *)
Lemma ipv4_test h extra :
  ipv4_ok h → Ipv4.version4_ihl4 h ≠ 0 → Forall is_byte extra → length_z extra mod 2 = 0 →
  length_z extra ≤ 65535 →
  ∃ c, Ipv4.ipv4_checksum (Ipv4.set_checksum h (hton16 0)) extra = Ok c ∧
    (Ipv4.checksum h = c ↔ checks (Ipv4.bytes h ++ extra) ∧ Ipv4.checksum h ≠ 65535).
Proof.
  intros Hh Hv He Hl Hn. change (hton16 0) with 0.
  assert (H0 : ipv4_ok (Ipv4.set_checksum h 0)) by (apply ipv4_set_ok; [done | by unfold is_u16]).
  pose proof (ipv4_sum_pos _ H0 Hv) as Hp. rewrite ipv4_checksum_ok by done. eexists. split; [done|].
  pose proof (data_sum_bound extra _ He Hn) as Hx.
  rewrite data_sum_app4. set (s0 := data_sum (Ipv4.bytes _) + data_sum extra).
  assert (Hs0 : 0 < s0) by (unfold s0; lia). pose proof (o4_checksum _ Hh) as Hc.
  destruct (hton16_u16 _ Hc) as [Hc1 Hc2].
  rewrite <- (ntoh16_inj (Ipv4.checksum h)) by (done || apply hton16_u16, folded_u16; lia).
  unfold ntoh16 at 2. rewrite (proj1 (hton16_u16 _ (folded_u16 s0 ltac:(lia)))).
  rewrite (checksum_checks s0) by done. unfold checks.
  rewrite ones_sum_folded by (apply Forall_app; split; [by apply ipv4_bytes_ok | done]).
  change (sum_z (words ?x)) with (data_sum x). rewrite data_sum_app4, ipv4_sum by done.
  rewrite ntoh16_max by done. unfold s0.
  by replace (data_sum (Ipv4.bytes (Ipv4.set_checksum h 0)) + ntoh16 (Ipv4.checksum h) + data_sum extra)
    with (data_sum (Ipv4.bytes (Ipv4.set_checksum h 0)) + data_sum extra + ntoh16 (Ipv4.checksum h)) by lia.
Qed.

(** *** UDP *)

Lemma summer_ok bs : Forall is_byte bs → length_z bs mod 2 = 0 → length_z bs ≤ 65536 →
  Udp.udp_checksum_summer bs = Ok (data_sum bs).
Proof.
  intros Hb Hl Hn. unfold Udp.udp_checksum_summer. rewrite Hl. cbn [Z.eqb c_assert].
  pose proof (data_sum_bound bs _ Hb Hn). rewrite sum_words_ok; try done. cbn in *. lia.
Qed.

Lemma data_sum_last bs : length_z bs mod 2 ≠ 0 →
  data_sum bs = data_sum (take (length bs - 1) bs) + 256 * nth (length bs - 1) bs 0 ∧
  length_z (take (length bs - 1) bs) mod 2 = 0 ∧ nth (length bs - 1) bs 0 ∈ bs.
Proof.
  intros Hl. destruct bs as [|b bs _] using rev_ind; [done|].
  unfold length_z in *. rewrite length_app in *. cbn [length] in *. rewrite Nat.add_sub.
  rewrite take_app_length, nth_middle. assert (Hm : Z.of_nat (length bs) mod 2 = 0).
  { pose proof (Z.mod_pos_bound (Z.of_nat (length bs)) 2). rewrite Nat2Z.inj_add in Hl.
    rewrite Z.add_mod in Hl by done. destruct (Z.eqb_spec (Z.of_nat (length bs) mod 2) 0); [done|].
    assert (Z.of_nat (length bs) mod 2 = 1) as E by lia. by rewrite E in Hl. }
  rewrite data_sum_app by done. split_and!; [|done|apply elem_of_app; right; by left].
  unfold data_sum at 2. cbn [words sum_z foldr]. lia.
Qed.

(** From the header on, whatever the sum so far. *)
Lemma finish_checksum_ok t h payload :
  udp_ok h → Forall is_byte payload → length_z payload ≤ 65535 → 0 < t < 2 ^ 22 →
  Udp.finish_checksum t h payload =
    Ok (hton16 (65535 - folded (t + data_sum (Udp.bytes h ++ payload)))).
Proof.
  intros Hh Hp Hn Ht. unfold Udp.finish_checksum. pose proof (udp_bytes_ok h) as Hb.
  pose proof (data_sum_bound (Udp.bytes h) 8 Hb ltac:(done)) as H1.
  pose proof (data_sum_bound payload 65535 Hp Hn) as H2.
  rewrite (summer_ok (Udp.bytes h)), ok_bind by (done || by vm_compute). cbv zeta. rewrite to_u32_small by lia.
  rewrite data_sum_app by done. set (s := data_sum (Udp.bytes h)) in *.
  assert (Hpay : ∀ k, k = to_u32 (t + s + data_sum payload) →
    (t0 ← or_fault AssertFailed (fold_carries 3 k);
     Ok (hton16 (complement (if t0 =? 0 then UINT16_MAX else t0))))
    = Ok (hton16 (65535 - folded (t + (s + data_sum payload))))).
  { intros k ->. rewrite to_u32_small, fold_carries_ok by lia. cbn [or_fault]. rewrite ok_bind.
    pose proof (folded_pos (t + s + data_sum payload) ltac:(lia)).
    rewrite (proj2 (Z.eqb_neq _ _)) by lia. rewrite Z.add_assoc. f_equal.
    apply hton16_complement, folded_bound. lia. }
  case_if.
  - rewrite summer_ok, !ok_bind by (done || lia). by apply Hpay.
  - destruct (data_sum_last payload Heqb) as (E & Hl & Hin).
    assert (Forall is_byte (take (length payload - 1) payload)) as Ht1 by by apply Forall_take.
    assert (length_z (take (length payload - 1) payload) ≤ 65536).
    { unfold length_z in *. rewrite length_take. lia. }
    rewrite Forall_forall in Hp. apply Hp in Hin. unfold is_byte in Hin.
    pose proof (data_sum_bound _ 65536 Ht1 ltac:(done)) as H3.
    rewrite (summer_ok (take _ _)), ok_bind by first [done | lia].
    rewrite Z.shiftl_mul_pow2 by lia. change (2 ^ 8) with 256.
    assert (is_u16 (nth (length payload - 1) payload 0 * 256)) as Hu by (unfold is_u16; lia).
    rewrite (summer_ok (le_bytes 2 _)) by (apply le_bytes_bytes || by vm_compute). rewrite hton16_sum by done.
    rewrite !ok_bind. apply Hpay. rewrite E. rewrite (to_u32_small (t + s + _)) by lia. f_equal. lia.
Qed.

Lemma hton32_bytes x : is_u16 x → le_bytes 4 (hton32 x) = [0; 0; x / 256; x mod 256].
Proof.
  unfold is_u16. intros Hx. unfold hton32, badvpn_reverse32, to_u32. rewrite (Z.mod_small x) by lia.
  change (reverse (le_bytes 4 x)) with
    [x / 256 / 256 / 256 mod 256; x / 256 / 256 mod 256; x / 256 mod 256; x mod 256].
  assert (is_byte (x / 256)) as Hb.
  { split; [apply Z.div_pos; lia | apply Z.div_lt_upper_bound; lia]. }
  rewrite (Z.div_small (x / 256)) by done. change (0 / 256 mod 256) with 0. change (0 mod 256) with 0.
  rewrite (Z.mod_small (x / 256)) by done.
  rewrite le_bytes4_value; try done. apply ReadWriteFacts.byte_mod.
Qed.

Lemma pseudo4_ok src dst n : is_u16 n →
  Forall is_byte (pseudo4 src dst n) ∧ length (pseudo4 src dst n) = 12%nat ∧ 0 < data_sum (pseudo4 src dst n).
Proof.
  intros Hn. assert (Forall is_byte (pseudo4 src dst n)) as Hb.
  { unfold pseudo4. repeat (apply Forall_app; split); try apply le_bytes_bytes. bytes_list. }
  split_and!; [done | done |]. by apply (data_sum_pos _ 9 17).
Qed.

Lemma pseudo6_ok src dst n : is_u16 n →
  length src = 16%nat → Forall is_byte src → length dst = 16%nat → Forall is_byte dst →
  Forall is_byte (pseudo6 src dst n) ∧ length (pseudo6 src dst n) = 40%nat ∧ 0 < data_sum (pseudo6 src dst n).
Proof.
  intros Hn Hs Hsb Hd Hdb. assert (Forall is_byte (pseudo6 src dst n)) as Hb.
  { unfold pseudo6. repeat (apply Forall_app; split); try done; try apply le_bytes_bytes. bytes_list. }
  split_and!; [done | unfold pseudo6; by rewrite !length_app, Hs, Hd |].
  apply (data_sum_pos _ 39 17); [done | | done].
  unfold pseudo6. rewrite !lookup_app_r, Hs, Hd; [done|..]; rewrite ?Hs, ?Hd, ?length_le_bytes; lia.
Qed.

Lemma length_even bs n : length bs = n → Z.of_nat n mod 2 = 0 → length_z bs mod 2 = 0.
Proof. by intros <-. Qed.

(** Sums too small to wrap around, innermost first. *)
Ltac fold_u32 :=
  rewrite ?Z.add_0_l;
  repeat match goal with
  | |- context [to_u32 ?x] =>
      lazymatch x with context [to_u32] => fail | _ => rewrite (to_u32_small x) by lia end
  end.

Lemma udp_checksum_ok h payload src dst :
  udp_ok h → Forall is_byte payload → length_z payload + 8 ≤ 65535 → is_u32 src → is_u32 dst →
  Udp.udp_checksum h payload src dst =
    Ok (hton16 (65535 - folded (data_sum (pseudo4 src dst (8 + length_z payload) ++ Udp.bytes h ++ payload)))).
Proof.
  intros Hh Hp Hn Hs Hd. unfold Udp.udp_checksum. assert (is_u16 (8 + length_z payload)) as Hu.
  { unfold is_u16, length_z in *. lia. }
  rewrite !summer_ok by (apply le_bytes_bytes || by vm_compute). rewrite !ok_bind. cbv zeta.
  destruct (pseudo4_ok src dst _ Hu) as (Hpb & Hpl & Hpos).
  rewrite data_sum_app by (by apply (length_even _ _ Hpl)).
  assert (data_sum (le_bytes 4 src) + data_sum (le_bytes 4 dst) + data_sum (le_bytes 2 (hton16 17))
    + data_sum (le_bytes 2 (hton16 (8 + length_z payload))) = data_sum (pseudo4 src dst (8 + length_z payload))) as E.
  { unfold pseudo4. rewrite !data_sum_app by (by vm_compute). change (data_sum [0; Ipv4.IPV4_PROTOCOL_UDP]) with 17.
    change (data_sum (le_bytes 2 (hton16 17))) with 17. lia. }
  change Udp.sizeof with 8. change Ipv4.IPV4_PROTOCOL_UDP with 17.
  rewrite <- E in *.
  assert (Hb : ∀ n x, Z.of_nat n ≤ 4 → 0 ≤ data_sum (le_bytes n x) ≤ 163840).
  { intros n x Hx. pose proof (data_sum_bound (le_bytes n x) 4 (le_bytes_bytes n x)) as H.
    unfold length_z in H. rewrite length_le_bytes in H. lia. }
  pose proof (Hb 4%nat src ltac:(done)). pose proof (Hb 4%nat dst ltac:(done)).
  pose proof (Hb 2%nat (hton16 17) ltac:(done)). pose proof (Hb 2%nat (hton16 (8 + length_z payload)) ltac:(done)).
  fold_u32.
  rewrite finish_checksum_ok; [done|done|done|lia|lia].
Qed.

Lemma udp_ip6_checksum_ok h payload src dst :
  udp_ok h → Forall is_byte payload → length_z payload + 8 ≤ 65535 →
  length src = 16%nat → Forall is_byte src → length dst = 16%nat → Forall is_byte dst →
  Udp.udp_ip6_checksum h payload src dst =
    Ok (hton16 (65535 - folded (data_sum (pseudo6 src dst (8 + length_z payload) ++ Udp.bytes h ++ payload)))).
Proof.
  intros Hh Hp Hn Hs Hsb Hd Hdb. unfold Udp.udp_ip6_checksum. assert (is_u16 (8 + length_z payload)) as Hu.
  { unfold is_u16, length_z in *. lia. }
  rewrite !take_ge by lia.
  rewrite !summer_ok by (done || apply le_bytes_bytes || (unfold length_z; rewrite ?Hs, ?Hd; by vm_compute)).
  rewrite !ok_bind. cbv zeta. destruct (pseudo6_ok src dst _ Hu Hs Hsb Hd Hdb) as (Hpb & Hpl & Hpos).
  rewrite data_sum_app by (by apply (length_even _ _ Hpl)).
  assert (data_sum src + data_sum dst + data_sum (le_bytes 4 (hton32 (8 + length_z payload)))
    + data_sum (le_bytes 4 (hton32 17)) = data_sum (pseudo6 src dst (8 + length_z payload))) as E.
  { unfold pseudo6. rewrite !data_sum_app by (unfold length_z; rewrite ?Hs, ?Hd; by vm_compute).
    change (data_sum [0; 0; 0; Ipv6.IPV6_NEXT_UDP]) with 17.
    change (data_sum (le_bytes 4 (hton32 17))) with 17. lia. }
  change Udp.sizeof with 8. change Ipv6.IPV6_NEXT_UDP with 17. rewrite <- E in *.
  pose proof (data_sum_bound src 16 Hsb ltac:(unfold length_z; by rewrite Hs)).
  pose proof (data_sum_bound dst 16 Hdb ltac:(unfold length_z; by rewrite Hd)).
  assert (Hb : ∀ x, 0 ≤ data_sum (le_bytes 4 x) ≤ 163840).
  { intros x. pose proof (data_sum_bound (le_bytes 4 x) 4 (le_bytes_bytes 4 x) ltac:(done)). lia. }
  pose proof (Hb (hton32 17)). pose proof (Hb (hton32 (8 + length_z payload))).
  fold_u32.
  rewrite finish_checksum_ok; [done|done|done|lia|lia].
Qed.

Lemma datagram_bytes ps h payload :
  Forall is_byte ps → Forall is_byte payload → Forall is_byte (ps ++ Udp.bytes h ++ payload).
Proof. intros H1 H2. apply Forall_app; split; [done|]. apply Forall_app; split; [apply udp_bytes_ok | done]. Qed.

(** The checksum test of a received datagram: [ps] is the pseudo header. *)
Lemma udp_test ps h payload :
  udp_ok h → Forall is_byte payload → Forall is_byte ps → length_z ps mod 2 = 0 → 0 < data_sum ps →
  Udp.checksum h =
    hton16 (65535 - folded (data_sum (ps ++ Udp.bytes (Udp.set_checksum h 0) ++ payload)))
  ↔ checks (ps ++ Udp.bytes h ++ payload) ∧ Udp.checksum h ≠ 65535.
Proof.
  intros Hh Hp Hps Hl Hpos. pose proof (ou_checksum _ Hh) as Hc.
  unfold checks. rewrite ones_sum_folded by (by apply datagram_bytes).
  change (sum_z (words ?x)) with (data_sum x). rewrite !data_sum_app, (udp_sum h) by done.
  set (x := data_sum ps + (data_sum (Udp.bytes (Udp.set_checksum h 0)) + data_sum payload)).
  pose proof (sum_z_bound _ (words_bound _ (udp_bytes_ok (Udp.set_checksum h 0)))).
  pose proof (sum_z_bound _ (words_bound _ Hp)). fold (data_sum payload) in *.
  fold (data_sum (Udp.bytes (Udp.set_checksum h 0))) in *.
  assert (Hx : 0 < x) by (unfold x; lia).
  assert (Hf : is_u16 (65535 - folded x)) by (apply folded_u16; lia). destruct (hton16_u16 _ Hf) as [Hf1 Hf2].
  rewrite <- (ntoh16_inj (Udp.checksum h)) by done. unfold ntoh16 at 2. rewrite Hf1.
  rewrite (checksum_checks x), ntoh16_max by (done || apply hton16_u16, Hc).
  replace (data_sum ps + (data_sum (Udp.bytes (Udp.set_checksum h 0)) + ntoh16 (Udp.checksum h)
    + data_sum payload)) with (x + ntoh16 (Udp.checksum h)) by (unfold x; lia). done.
Qed.

(** The code's checksum and that of RFC 768, of which all ones are never sent. *)
Definition without_ones (c : Z) : Z := if c =? 65535 then 0 else c.

Lemma rfc768_folded ps h payload :
  Forall is_byte ps → Forall is_byte payload → length_z ps mod 2 = 0 → 0 < data_sum ps →
  65535 - folded (data_sum (ps ++ Udp.bytes h ++ payload)) = without_ones (rfc768 (ps ++ Udp.bytes h ++ payload)).
Proof.
  intros Hps Hp Hl Hpos. unfold without_ones, rfc768. rewrite ones_sum_folded by (by apply datagram_bytes).
  fold (data_sum (ps ++ Udp.bytes h ++ payload)).
  assert (0 < data_sum (ps ++ Udp.bytes h ++ payload)) as Hs%folded_pos.
  { rewrite data_sum_app by done. pose proof (sum_z_bound _ (words_bound (Udp.bytes h ++ payload)
      ltac:(apply Forall_app; split; [apply udp_bytes_ok | done]))). unfold data_sum in *. lia. }
  repeat case_if; lia.
Qed.

(** C31: The UDP checksum, over IPv4 and IPv6, is that of RFC 768 (one's complement of the one's
    complement sum of pseudo header, header and padded payload) except that where the RFC
    sends all ones the code computes zero. *)
Theorem udp_checksum_rfc768 h payload :
  udp_ok h → Forall is_byte payload → length_z payload + 8 ≤ 65535 →
  (∀ src dst, is_u32 src → is_u32 dst →
     let c := rfc768 (pseudo4 src dst (8 + length_z payload) ++ Udp.bytes h ++ payload) in
     Udp.udp_checksum h payload src dst = Ok (hton16 (if c =? 65535 then 0 else c))) ∧
  (∀ src dst, length src = 16%nat → Forall is_byte src → length dst = 16%nat → Forall is_byte dst →
     let c := rfc768 (pseudo6 src dst (8 + length_z payload) ++ Udp.bytes h ++ payload) in
     Udp.udp_ip6_checksum h payload src dst = Ok (hton16 (if c =? 65535 then 0 else c))).
Proof.
  intros Hh Hp Hn. assert (is_u16 (8 + length_z payload)) as Hu by (unfold is_u16, length_z in *; lia).
  split; intros src dst Hs Hd.
  - destruct (pseudo4_ok src dst _ Hu) as (? & E & ?).
    cbv zeta. rewrite udp_checksum_ok, rfc768_folded; (done || by apply (length_even _ _ E)).
  - intros Hd1 Hd2. destruct (pseudo6_ok src dst _ Hu) as (? & E & ?); try done.
    cbv zeta. rewrite udp_ip6_checksum_ok, rfc768_folded; (done || by apply (length_even _ _ E)).
Qed.

(** ** What the parsers accept *)

Lemma version_ihl b : is_byte b →
  Z.shiftr (Z.land b 240) 4 = Z.shiftr b 4 ∧ Z.shiftr (Z.land b 15) 0 = b mod 16.
Proof.
  assert (forall_upto 256 (λ b, (Z.shiftr (Z.land b 240) 4 =? Z.shiftr b 4)
                                && (Z.shiftr (Z.land b 15) 0 =? b mod 16)) = true) as H by by vm_compute.
  intros Hb. apply (forall_upto_ok _ _ b) in H; [|done]. cbv beta in H. zify_bool. done.
Qed.

(** A region is what is read first and the rest. *)
Lemma load_split m p bs n : holds_at m p bs → Z.of_nat n ≤ length_z bs →
  load m p n = Ok (take n bs) ∧ length (take n bs) = n ∧ holds_at m (p + Z.of_nat n) (drop n bs) ∧
  bs = take n bs ++ drop n bs.
Proof.
  unfold length_z. intros Hh Hn. assert (length (take n bs) = n) as Hl by (rewrite length_take; lia).
  split_and!; [apply load_ok; split; [done | by apply holds_at_take] | done | | by rewrite take_drop].
  apply holds_at_drop; [lia | done].
Qed.

Lemma length_z_app a b : length_z (a ++ b) = length_z a + length_z b.
Proof. unfold length_z. rewrite length_app. lia. Qed.

Lemma length_z_nonneg a : 0 ≤ length_z a.
Proof. unfold length_z. lia. Qed.

(** An IPv4 header with options, valid, at the start of [bs]; [total] is the packet's length. *)
Record ipv4_at (bs : list Z) (h : Ipv4.ipv4_header) (opts rest : list Z) : Prop := {
  a4_bytes : bs = Ipv4.bytes h ++ opts ++ rest;
  a4_ok : ipv4_ok h;
  a4_version : Z.shiftr (Ipv4.version4_ihl4 h) 4 = 4;
  a4_ihl : 4 * (Ipv4.version4_ihl4 h mod 16) = 20 + length_z opts;
  a4_total : 20 + length_z opts ≤ ntoh16 (Ipv4.total_length h) ≤ length_z bs;
  a4_checks : checks (Ipv4.bytes h ++ opts);
  a4_checksum : Ipv4.checksum h ≠ 65535;
}.

Lemma app_split_eq {A} (a a' b b' : list A) : length a = length a' → a ++ b = a' ++ b' → a = a' ∧ b = b'.
Proof. intros Hl H. by apply app_inj_1. Qed.

Lemma ipv4_check_spec m data bs :
  holds_at m data bs → Forall is_byte bs →
  (∃ h opts rest, ipv4_at bs h opts rest ∧
     Ipv4.ipv4_check m data (length_z bs) =
       Ok (Some (h, data + (20 + length_z opts), ntoh16 (Ipv4.total_length h) - (20 + length_z opts)))) ∨
  ((∀ h opts rest, ¬ ipv4_at bs h opts rest) ∧ Ipv4.ipv4_check m data (length_z bs) = Ok None).
Proof.
  intros Hh Hb. unfold Ipv4.ipv4_check. pose proof (length_z_nonneg bs). run_assert.
  change Ipv4.sizeof with 20. case_if.
  { right. split; [|done]. intros h opts rest [E _ _ _ Ht _ _]. rewrite E in *.
    rewrite !length_z_app in *. change (length_z (Ipv4.bytes h)) with 20 in *.
    pose proof (length_z_nonneg opts). pose proof (length_z_nonneg rest). lia. }
  change (Z.to_nat 20) with 20%nat.
  destruct (load_split m data bs 20 Hh ltac:(lia)) as (-> & Hl & Hrest & Ebs). rewrite ok_bind.
  set (hb := take 20 bs) in *. set (r0 := drop 20 bs) in *. clearbody hb r0. subst bs.
  apply Forall_app in Hb as [Hb Hr0]. destruct (ipv4_bytes_of hb Hb Hl) as [Ehb Hok]. cbv zeta.
  set (h := Ipv4.of_bytes hb) in *. rewrite <- Ehb in *. clear Ehb.
  unfold Ipv4.IPV4_GET_VERSION, Ipv4.IPV4_GET_IHL.
  destruct (version_ihl _ (o4_version _ Hok)) as [-> ->].
  pose proof (Z.mod_pos_bound (Ipv4.version4_ihl4 h) 16 ltac:(lia)) as Hmod.
  unfold to_u16. rewrite (Z.mod_small (_ * 4)) by lia.
  assert (Huniq : ∀ h' opts rest, Ipv4.bytes h ++ r0 = Ipv4.bytes h' ++ opts ++ rest → ipv4_ok h' →
    h' = h ∧ r0 = opts ++ rest).
  { intros h' opts rest E Hh'. apply app_split_eq in E as [E ->]; [|done]. split; [|done].
    by rewrite <- (ipv4_of_bytes h' []), <- E, ipv4_of_bytes by done. }
  assert (Hnone : ∀ P : Prop, (∀ opts rest, ipv4_at (Ipv4.bytes h ++ r0) h opts rest → P) → ¬ P →
    ∀ h' opts rest, ¬ ipv4_at (Ipv4.bytes h ++ r0) h' opts rest).
  { intros P HP HnP h' opts rest Ha. destruct (Huniq h' opts rest (a4_bytes _ _ _ _ Ha) (a4_ok _ _ _ _ Ha)) as [-> _].
    eauto. }
  case_if; [right; split; [|done]; apply (Hnone False); [intros ?? []; lia | tauto]|].
  case_if; [right; split; [|done]; apply (Hnone False); [|tauto]; intros opts rest [];
    pose proof (length_z_nonneg opts); lia|].
  case_if; [right; split; [|done]; apply (Hnone False); [intros ?? []; lia | tauto]|].
  case_if; [right; split; [|done]; apply (Hnone False); [intros ?? []; lia | tauto]|].
  case_if; [right; split; [|done]; apply (Hnone False); [intros ?? []; lia | tauto]|].
  rewrite length_z_app in *. change (length_z (Ipv4.bytes h)) with 20 in *.
  set (n := Ipv4.version4_ihl4 h mod 16 * 4 - 20) in *.
  destruct (load_split m (data + 20) r0 (Z.to_nat n) Hrest ltac:(lia)) as (-> & Hl2 & _ & Er0). rewrite ok_bind.
  set (opts := take (Z.to_nat n) r0) in *. set (r1 := drop (Z.to_nat n) r0) in *.
  assert (Hopts : length_z opts = n) by (unfold length_z; lia). clearbody opts r1. subst r0.
  apply Forall_app in Hr0 as [Ho Hr1].
  assert (Hv : Ipv4.version4_ihl4 h ≠ 0) by (intros E0; rewrite E0 in *; done).
  destruct (ipv4_test h opts Hok Hv Ho) as (c & -> & Hc).
  { rewrite Hopts. unfold n. replace (_ * 4 - 20) with ((Ipv4.version4_ihl4 h mod 16 * 2 - 10) * 2) by lia.
    apply Z.mod_mul. lia. }
  { unfold n in *. lia. }
  rewrite ok_bind. case_if.
  - right. split; [|done]. apply (Hnone False); [|tauto]. intros opts' rest' [E' _ _ Hi' _ Hch Hne].
    destruct (Huniq _ _ _ E' Hok) as [_ Er].
    apply app_split_eq in Er as [-> _]; [by apply Heqb5, Hc|]. unfold length_z in *. lia.
  - left. exists h, opts, r1. apply Hc in Heqb5 as [Hch Hne].
    replace (data + Ipv4.version4_ihl4 h mod 16 * 4) with (data + (20 + length_z opts)) by lia.
    replace (Ipv4.version4_ihl4 h mod 16 * 4) with (20 + length_z opts) by lia.
    split; [|done]. split; try done; [lia|].
    rewrite !length_z_app in *. change (length_z (Ipv4.bytes h)) with 20. lia.
Qed.
Lemma ipv4_at_unique bs h opts rest h' opts' rest' :
  ipv4_at bs h opts rest → ipv4_at bs h' opts' rest' → h' = h ∧ opts' = opts ∧ rest' = rest.
Proof.
  intros [E Hh _ Hi _ _ _] [E' Hh' _ Hi' _ _ _]. rewrite E in E'.
  apply app_split_eq in E' as [Eh Er]; [|done].
  assert (h' = h) as -> by (by rewrite <- (ipv4_of_bytes h' []), <- Eh, ipv4_of_bytes by done).
  split; [done|]. apply app_split_eq in Er as [-> ->]; [done|]. unfold length_z in *. lia.
Qed.

(** An IPv6 header at the start of [bs]. *)
Record ipv6_at (bs : list Z) (h : Ipv6.ipv6_header) (rest : list Z) : Prop := {
  a6_bytes : bs = Ipv6.bytes h ++ rest;
  a6_ok : ipv6_ok h;
  a6_version : Z.shiftr (Ipv6.version4_tc4 h) 4 = 6;
  a6_length : ntoh16 (Ipv6.payload_length h) ≤ length_z rest;
}.

Lemma ipv6_at_unique bs h rest h' rest' :
  ipv6_at bs h rest → ipv6_at bs h' rest' → h' = h ∧ rest' = rest.
Proof.
  intros [E Hh _ _] [E' Hh' _ _]. rewrite E in E'.
  apply app_split_eq in E' as [Eh ->]; [|by rewrite !length_ipv6_bytes]. split; [|done].
  by rewrite <- (ipv6_of_bytes h' []), <- Eh, ipv6_of_bytes by done.
Qed.

Lemma ipv6_check_spec m data bs :
  holds_at m data bs → Forall is_byte bs → length_z bs ≤ INT_MAX →
  (∃ h rest, ipv6_at bs h rest ∧
     Ipv6.ipv6_check m data (length_z bs) = Ok (Some (h, data + 40, ntoh16 (Ipv6.payload_length h)))) ∨
  ((∀ h rest, ¬ ipv6_at bs h rest) ∧ Ipv6.ipv6_check m data (length_z bs) = Ok None).
Proof.
  intros Hh Hb Hmax. unfold Ipv6.ipv6_check. pose proof (length_z_nonneg bs). run_assert.
  assert (Hlen : ∀ h, ipv6_ok h → length_z (Ipv6.bytes h) = 40).
  { intros h Hok. unfold length_z. by rewrite length_ipv6_bytes. }
  change Ipv6.sizeof with 40. case_if.
  { right. split; [|done]. intros h rest [E Ho _ _]. rewrite E, length_z_app, Hlen in * by done.
    pose proof (length_z_nonneg rest). lia. }
  change (Z.to_nat 40) with 40%nat.
  destruct (load_split m data bs 40 Hh ltac:(lia)) as (-> & Hl & _ & Ebs). rewrite ok_bind.
  set (hb := take 40 bs) in *. set (r0 := drop 40 bs) in *. clearbody hb r0. subst bs.
  apply Forall_app in Hb as [Hb Hr0]. destruct (ipv6_bytes_of hb Hb Hl) as [Ehb Hok]. cbv zeta.
  set (h := Ipv6.of_bytes hb) in *. rewrite <- Ehb in *. clear Ehb.
  rewrite length_z_app, Hlen in * by done. unfold to_size, INT_MAX, SIZE_MAX in *.
  rewrite Z.mod_small by lia.
  assert (Huniq : ∀ h' rest, ipv6_at (Ipv6.bytes h ++ r0) h' rest → h' = h ∧ rest = r0).
  { intros h' rest [E Hh' _ _]. apply app_split_eq in E as [Eh ->]; [|by rewrite !length_ipv6_bytes]. split; [|done].
    by rewrite <- (ipv6_of_bytes h' []), <- Eh, ipv6_of_bytes by done. }
  assert (Hv : ntoh8 (Ipv6.version4_tc4 h) = Ipv6.version4_tc4 h) by (apply Z.mod_small, (o6_version _ Hok)).
  rewrite Hv. case_if; [|case_if].
  - right. split; [|done]. intros h' rest Ha. destruct (Huniq _ _ Ha) as [-> ->]. by destruct Ha.
  - right. split; [|done]. intros h' rest Ha. destruct (Huniq _ _ Ha) as [-> ->]. destruct Ha. lia.
  - left. exists h, r0. split; [|done]. split; try done. lia.
Qed.

(** A UDP header with its payload at the start of [bs]. *)
Record udp_at (bs : list Z) (u : Udp.udp_header) (payload stray : list Z) : Prop := {
  au_bytes : bs = Udp.bytes u ++ payload ++ stray;
  au_ok : udp_ok u;
  au_len : ntoh16 (Udp.len u) = 8 + length_z payload;
}.

Lemma udp_at_unique bs u payload stray u' payload' stray' :
  udp_at bs u payload stray → udp_at bs u' payload' stray' → u' = u ∧ payload' = payload ∧ stray' = stray.
Proof.
  intros [E Hu Hl] [E' Hu' Hl']. rewrite E in E'. apply app_split_eq in E' as [Eh Er]; [|done].
  assert (u' = u) as -> by (by rewrite <- (udp_of_bytes u' []), <- Eh, udp_of_bytes by done).
  split; [done|]. apply app_split_eq in Er as [-> ->]; [done|]. unfold length_z in *. lia.
Qed.

Lemma udp_check_spec m data bs :
  holds_at m data bs → Forall is_byte bs →
  (∃ u payload stray, udp_at bs u payload stray ∧ holds_at m (data + 8) payload ∧ Forall is_byte payload ∧
     Udp.udp_check m data (length_z bs) = Ok (Some (u, data + 8, length_z payload))) ∨
  ((∀ u payload stray, ¬ udp_at bs u payload stray) ∧ Udp.udp_check m data (length_z bs) = Ok None).
Proof.
  intros Hh Hb. unfold Udp.udp_check. pose proof (length_z_nonneg bs). run_assert.
  change Udp.sizeof with 8. case_if.
  { right. split; [|done]. intros u payload stray [E _ _]. rewrite E, !length_z_app in *.
    change (length_z (Udp.bytes u)) with 8 in *.
    pose proof (length_z_nonneg payload). pose proof (length_z_nonneg stray). lia. }
  change (Z.to_nat 8) with 8%nat.
  destruct (load_split m data bs 8 Hh ltac:(lia)) as (-> & Hl & Hr & Ebs). rewrite ok_bind.
  set (hb := take 8 bs) in *. set (r0 := drop 8 bs) in *. clearbody hb r0. subst bs.
  apply Forall_app in Hb as [Hb Hr0]. destruct (udp_bytes_of hb Hb Hl) as [Ehb Hok]. cbv zeta.
  set (u := Udp.of_bytes hb) in *. rewrite <- Ehb in *. clear Ehb.
  rewrite length_z_app in *. change (length_z (Udp.bytes u)) with 8 in *.
  assert (Huniq : ∀ u' payload stray, udp_at (Udp.bytes u ++ r0) u' payload stray → u' = u ∧ r0 = payload ++ stray).
  { intros u' payload stray [E Hu' _]. apply app_split_eq in E as [Eh ->]; [|done]. split; [|done].
    by rewrite <- (udp_of_bytes u' []), <- Eh, udp_of_bytes by done. }
  case_if; [|case_if].
  - right. split; [|done]. intros u' payload stray Ha. destruct (Huniq _ _ _ Ha) as [-> ->]. destruct Ha.
    pose proof (length_z_nonneg payload). lia.
  - right. split; [|done]. intros u' payload stray Ha. destruct (Huniq _ _ _ Ha) as [-> ->]. destruct Ha.
    rewrite length_z_app in *. pose proof (length_z_nonneg stray). lia.
  - left. set (n := Z.to_nat (ntoh16 (Udp.len u) - 8)).
    assert (Hn : length (take n r0) = n) by (rewrite length_take; unfold n, length_z in *; lia).
    exists u, (take n r0), (drop n r0). split_and!; [| by apply holds_at_take | by apply Forall_take |].
    + split; [by rewrite take_drop | done |]. unfold length_z. lia.
    + unfold length_z. rewrite Hn. do 3 f_equal. lia.
Qed.

(** ** Datagrams *)

(** The packet [bs] is a UDP datagram from [local] to [remote] with the payload at [off], as the code accepts it: valid as
    the standards say, except for the checksum field of UDP.  It must make the words sum to all ones but not be all
    ones itself, so that zero is taken for a checksum: for the right one where RFC 768 has all ones (also over IPv6, where
    zero is forbidden), and not, over IPv4, for the absence of one. *)
Inductive datagram (o : Device.config) (bs : list Z) : BAddr.t → BAddr.t → bool → Z → list Z → Prop :=
| Datagram4 h opts rest u payload stray :
    ipv4_at bs h opts rest → Ipv4.protocol h = 17 →
    udp_at (take (Z.to_nat (ntoh16 (Ipv4.total_length h) - (20 + length_z opts))) rest) u payload stray →
    checks (pseudo4 (Ipv4.source_address h) (Ipv4.destination_address h) (8 + length_z payload)
            ++ Udp.bytes u ++ payload) →
    Udp.checksum u ≠ 65535 →
    datagram o bs (BAddr.IPV4 (Ipv4.source_address h) (Udp.source_port u))
      (BAddr.IPV4 (Ipv4.destination_address h) (Udp.dest_port u))
      (Device.udpgw_transparent_dns o && (Ipv4.destination_address h =? Device.netif_ipaddr o)
       && (Udp.dest_port u =? hton16 53))
      (28 + length_z opts) payload
| Datagram6 h rest u payload stray :
    Device.netif_ip6addr o = true →
    ipv6_at bs h rest → Ipv6.next_header h = 17 →
    udp_at (take (Z.to_nat (ntoh16 (Ipv6.payload_length h))) rest) u payload stray →
    checks (pseudo6 (Ipv6.source_address h) (Ipv6.destination_address h) (8 + length_z payload)
            ++ Udp.bytes u ++ payload) →
    Udp.checksum u ≠ 65535 →
    datagram o bs (BAddr.IPV6 (Ipv6.source_address h) (Udp.source_port u))
      (BAddr.IPV6 (Ipv6.destination_address h) (Udp.dest_port u)) false 48 payload.

Definition version (bs : list Z) : Z := match bs with b :: _ => Z.shiftr b 4 | [] => 0 end.

Lemma ipv4_at_version bs h opts rest : ipv4_at bs h opts rest → version bs = 4.
Proof. intros [-> _ Hv _ _ _ _]. exact Hv. Qed.

Lemma ipv6_at_version bs h rest : ipv6_at bs h rest → version bs = 6.
Proof. intros [-> _ Hv _]. exact Hv. Qed.

Lemma datagram_unique o bs l r d off payload l' r' d' off' payload' :
  datagram o bs l r d off payload → datagram o bs l' r' d' off' payload' →
  l' = l ∧ r' = r ∧ d' = d ∧ off' = off ∧ payload' = payload.
Proof.
  intros [h opts rest u pl stray Ha _ Hu _ _|h rest u pl stray _ Ha _ Hu _ _]
         [h' opts' rest' u' pl' stray' Ha' _ Hu' _ _|h' rest' u' pl' stray' _ Ha' _ Hu' _ _].
  - destruct (ipv4_at_unique _ _ _ _ _ _ _ Ha Ha') as (-> & -> & ->).
    destruct (udp_at_unique _ _ _ _ _ _ _ Hu Hu') as (-> & -> & ->). done.
  - apply ipv4_at_version in Ha. apply ipv6_at_version in Ha'. congruence.
  - apply ipv6_at_version in Ha. apply ipv4_at_version in Ha'. congruence.
  - destruct (ipv6_at_unique _ _ _ _ _ Ha Ha') as [-> ->].
    destruct (udp_at_unique _ _ _ _ _ _ _ Hu Hu') as (-> & -> & ->). done.
Qed.

(** What a parser of packets returns: the datagram, if there is one. *)
Definition parses (o : Device.config) (data : ptr) (bs : list Z)
    (r : result (option (BAddr.t * BAddr.t * bool * ptr * Z))) : Prop :=
  (∃ l rm d off payload, datagram o bs l rm d off payload ∧
     r = Ok (Some (l, rm, d, data + off, length_z payload))) ∨
  ((∀ l rm d off payload, ¬ datagram o bs l rm d off payload) ∧ r = Ok None).

Lemma byte_of m p bs i b : holds_at m p bs → bs !! i = Some b → byte_at m p (Z.of_nat i) = Ok b.
Proof. intros Hh Hi. apply ReadWriteFacts.byte_at_ok. by apply Hh. Qed.

Lemma payload_bound u bs payload stray : udp_at bs u payload stray → length_z payload + 8 ≤ 65535.
Proof.
  intros [_ Hu Hl]. destruct (hton16_u16 _ (ou_len _ Hu)) as [_ H]. unfold is_u16, ntoh16 in *. lia.
Qed.

Lemma load_all m p bs : holds_at m p bs → load m p (Z.to_nat (length_z bs)) = Ok bs.
Proof. intros H. apply load_ok. unfold length_z. split; [lia|done]. Qed.

(** The part of a packet a header leaves for its payload. *)
Lemma region_take m p n n' bs :
  holds_at m (p + n) bs → n' ≤ length_z bs → 0 ≤ n' →
  length_z (take (Z.to_nat n') bs) = n' ∧ holds_at m (p + n) (take (Z.to_nat n') bs).
Proof.
  intros Hh Hn H0. split; [unfold length_z in *; rewrite length_take; lia | by apply holds_at_take].
Qed.

(** The bytes an IPv4 header leaves for the datagram, in memory. *)
Lemma ipv4_region m data bs h opts rest :
  holds_at m data bs → Forall is_byte bs → ipv4_at bs h opts rest →
  let n := ntoh16 (Ipv4.total_length h) - (20 + length_z opts) in
  let region := take (Z.to_nat n) rest in
  length_z region = n ∧ holds_at m (data + (20 + length_z opts)) region ∧ Forall is_byte region.
Proof.
  intros Hh Hb [E _ _ _ Ht _ _]. cbv zeta. pose proof (length_z_nonneg opts).
  rewrite E in Hh, Hb, Ht. rewrite !length_z_app in Ht. change (length_z (Ipv4.bytes h)) with 20 in Ht.
  rewrite app_assoc in Hh. apply holds_at_app in Hh as [_ Hh]. rewrite length_app in Hh.
  change (length (Ipv4.bytes h)) with 20%nat in Hh.
  replace (data + Z.of_nat (20 + length opts)) with (data + (20 + length_z opts)) in Hh by (unfold length_z; lia).
  rewrite !Forall_app in Hb. destruct Hb as (_ & _ & Hb).
  destruct (region_take _ _ _ (ntoh16 (Ipv4.total_length h) - (20 + length_z opts)) _ Hh) as [Hl Hh'];
    [lia|lia|]. split_and!; [done | done | by apply Forall_take].
Qed.

Lemma ipv6_region m data bs h rest :
  holds_at m data bs → Forall is_byte bs → ipv6_at bs h rest →
  let region := take (Z.to_nat (ntoh16 (Ipv6.payload_length h))) rest in
  length_z region = ntoh16 (Ipv6.payload_length h) ∧ holds_at m (data + 40) region ∧ Forall is_byte region.
Proof.
  intros Hh Hb [E Ho _ Ht]. cbv zeta. rewrite E in Hh, Hb.
  apply holds_at_app in Hh as [_ Hh]. rewrite length_ipv6_bytes in Hh by done.
  apply Forall_app in Hb as [_ Hb]. destruct (hton16_u16 _ (o6_payload _ Ho)) as [_ Hu].
  destruct (region_take m data 40 (ntoh16 (Ipv6.payload_length h)) _ Hh) as [Hl Hh'];
    [done | unfold is_u16, ntoh16 in *; lia |]. split_and!; [done | done | by apply Forall_take].
Qed.

(** The fixed offsets of the protocol numbers. *)
Lemma ipv4_at_protocol bs h opts rest :
  ipv4_at bs h opts rest → 20 ≤ length_z bs ∧ bs !! 9%nat = Some (Ipv4.protocol h).
Proof.
  intros [E _ _ _ _ _ _]. rewrite E, !length_z_app. change (length_z (Ipv4.bytes h)) with 20.
  split; [pose proof (length_z_nonneg opts); pose proof (length_z_nonneg rest); lia | done].
Qed.

Lemma ipv6_at_next bs h rest :
  ipv6_at bs h rest → 40 ≤ length_z bs ∧ bs !! 6%nat = Some (Ipv6.next_header h).
Proof.
  intros [E Ho _ _]. rewrite E, !length_z_app. split; [|done].
  assert (length_z (Ipv6.bytes h) = 40) as -> by (unfold length_z; by rewrite length_ipv6_bytes).
  pose proof (length_z_nonneg rest). lia.
Qed.

(** No datagram, if its header would be wrong. *)
Lemma no_datagram4 o bs : version bs = 4 →
  (∀ h opts rest u pl stray, ipv4_at bs h opts rest → Ipv4.protocol h = 17 →
     udp_at (take (Z.to_nat (ntoh16 (Ipv4.total_length h) - (20 + length_z opts))) rest) u pl stray →
     checks (pseudo4 (Ipv4.source_address h) (Ipv4.destination_address h) (8 + length_z pl) ++ Udp.bytes u ++ pl) →
     Udp.checksum u ≠ 65535 → False) →
  ∀ l rm d off payload, ¬ datagram o bs l rm d off payload.
Proof.
  intros Hv HP l rm d off pl [h opts rest u pl' stray|h rest u pl' stray _ Ha%ipv6_at_version]; [|congruence].
  intros. by eapply HP.
Qed.

Lemma no_datagram6 o bs : version bs = 6 →
  (∀ h rest u pl stray, Device.netif_ip6addr o = true → ipv6_at bs h rest → Ipv6.next_header h = 17 →
     udp_at (take (Z.to_nat (ntoh16 (Ipv6.payload_length h))) rest) u pl stray →
     checks (pseudo6 (Ipv6.source_address h) (Ipv6.destination_address h) (8 + length_z pl) ++ Udp.bytes u ++ pl) →
     Udp.checksum u ≠ 65535 → False) →
  ∀ l rm d off payload, ¬ datagram o bs l rm d off payload.
Proof.
  intros Hv HP l rm d off pl [h opts rest u pl' stray Ha%ipv4_at_version|h rest u pl' stray]; [congruence|].
  intros. by eapply HP.
Qed.

Lemma process_ipv4_spec o m data bs :
  holds_at m data bs → Forall is_byte bs → version bs = 4 →
  parses o data bs (Device.process_ipv4 o m data (length_z bs)).
Proof.
  intros Hh Hb Hv. unfold parses, Device.process_ipv4. change Ipv4.sizeof with 20.
  pose proof (no_datagram4 o bs) as Hno. destruct (Z.ltb_spec (length_z bs) 20).
  { right. split; [|done]. apply Hno; [done|]. intros h opts rest u pl stray Ha%ipv4_at_protocol. lia. }
  destruct (lookup_lt_is_Some_2 bs 9) as [b Hb9]; [unfold length_z in *; lia|].
  change Ipv4.offsetof_protocol with (Z.of_nat 9). rewrite (byte_of _ _ _ _ _ Hh Hb9), ok_bind. cbn [orb].
  change Ipv4.IPV4_PROTOCOL_UDP with 17. case_if.
  { right. split; [|done]. apply Hno; [done|]. intros h opts rest u pl stray [_ Ha]%ipv4_at_protocol Hp. congruence. }
  destruct (ipv4_check_spec m data bs Hh Hb) as [(h & opts & rest & Ha & ->)|[Hn ->]]; rewrite ok_bind; [|
    right; split; [|done]; apply Hno; [done|]; intros h opts rest ? ? ? Ha; by destruct (Hn h opts rest)].
  assert (Ipv4.protocol h = 17) as Hproto.
  { apply ipv4_at_protocol in Ha as [_ Ha]. rewrite Hb9 in Ha. by simplify_eq. }
  pose proof (a4_ok _ _ _ _ Ha) as Hok. destruct (ipv4_region _ _ _ _ _ _ Hh Hb Ha) as (Hl & Hh' & Hb').
  rewrite <- Hl. destruct (udp_check_spec _ _ _ Hh' Hb') as [(u & pl & stray & Hu & Hp & Hpb & ->)|[Hn ->]];
    rewrite ok_bind; [|right; split; [|done]; apply Hno; [done|]; intros h' opts' rest' ? ? ? Ha' _ Hu;
      destruct (ipv4_at_unique _ _ _ _ _ _ _ Ha Ha') as (-> & -> & ->); by destruct (Hn _ _ _ Hu)].
  rewrite load_all, ok_bind by done. cbv zeta. pose proof (payload_bound _ _ _ _ Hu) as Hbound.
  pose proof (au_ok _ _ _ _ Hu) as Huok.
  rewrite udp_checksum_ok, ok_bind; [|by apply udp_set_ok|done|done|by destruct Hok|by destruct Hok].
  destruct (pseudo4_ok (Ipv4.source_address h) (Ipv4.destination_address h) (8 + length_z pl))
    as (Hps & Hpl & Hpos); [unfold is_u16, length_z in *; lia|].
  pose proof (udp_test _ u pl Huok Hpb Hps (length_even _ 12 Hpl ltac:(done)) Hpos) as Htest. case_if.
  - right. split; [|done]. apply Hno; [done|]. intros h' opts' rest' u' pl' stray' Ha' _ Hu' Hc' Hne.
    destruct (ipv4_at_unique _ _ _ _ _ _ _ Ha Ha') as (-> & -> & ->).
    destruct (udp_at_unique _ _ _ _ _ _ _ Hu Hu') as (-> & -> & ->). by apply Heqb1, Htest.
  - left. apply Htest in Heqb1 as [Hc Hne]. do 5 eexists. split; [by eapply Datagram4|].
    by replace (data + (28 + length_z opts)) with (data + (20 + length_z opts) + 8) by lia.
Qed.

Lemma process_ipv6_spec o m data bs :
  holds_at m data bs → Forall is_byte bs → length_z bs ≤ INT_MAX → version bs = 6 →
  parses o data bs (Device.process_ipv6 o m data (length_z bs)).
Proof.
  intros Hh Hb Hmax Hv. unfold parses, Device.process_ipv6. change Ipv6.sizeof with 40.
  pose proof (no_datagram6 o bs) as Hno. destruct (Device.netif_ip6addr o) eqn:Hip6; cbn [negb]; [|
    right; split; [|done]; apply Hno; [done|]; intros h rest u pl stray Ha; congruence].
  destruct (Z.ltb_spec (length_z bs) 40).
  { right. split; [|done]. apply Hno; [done|]. intros h rest u pl stray _ Ha%ipv6_at_next. lia. }
  destruct (lookup_lt_is_Some_2 bs 6) as [b Hb6]; [unfold length_z in *; lia|].
  change Ipv6.offsetof_next_header with (Z.of_nat 6). rewrite (byte_of _ _ _ _ _ Hh Hb6), ok_bind. cbn [orb].
  change Ipv6.IPV6_NEXT_UDP with 17. case_if.
  { right. split; [|done]. apply Hno; [done|]. intros h rest u pl stray _ [_ Ha]%ipv6_at_next Hp. congruence. }
  destruct (ipv6_check_spec m data bs Hh Hb Hmax) as [(h & rest & Ha & ->)|[Hn ->]]; rewrite ok_bind; [|
    right; split; [|done]; apply Hno; [done|]; intros h rest ? ? ? _ Ha; by destruct (Hn h rest)].
  assert (Ipv6.next_header h = 17) as Hproto.
  { apply ipv6_at_next in Ha as [_ Ha]. rewrite Hb6 in Ha. by simplify_eq. }
  pose proof (a6_ok _ _ _ Ha) as Hok. destruct (ipv6_region _ _ _ _ _ Hh Hb Ha) as (Hl & Hh' & Hb').
  rewrite <- Hl. destruct (udp_check_spec _ _ _ Hh' Hb') as [(u & pl & stray & Hu & Hp & Hpb & ->)|[Hn ->]];
    rewrite ok_bind; [|right; split; [|done]; apply Hno; [done|]; intros h' rest' ? ? ? _ Ha' _ Hu;
      destruct (ipv6_at_unique _ _ _ _ _ Ha Ha') as [-> ->]; by destruct (Hn _ _ _ Hu)].
  rewrite load_all, ok_bind by done. cbv zeta. pose proof (payload_bound _ _ _ _ Hu) as Hbound.
  pose proof (au_ok _ _ _ _ Hu) as Huok. destruct (o6_source _ Hok) as [Hs Hsb], (o6_dest _ Hok) as [Hd Hdb].
  rewrite udp_ip6_checksum_ok, ok_bind; [|by apply udp_set_ok|done..].
  destruct (pseudo6_ok (Ipv6.source_address h) (Ipv6.destination_address h) (8 + length_z pl))
    as (Hps & Hpl & Hpos); [unfold is_u16, length_z in *; lia|done..|].
  pose proof (udp_test _ u pl Huok Hpb Hps (length_even _ 40 Hpl ltac:(done)) Hpos) as Htest. case_if.
  - right. split; [|done]. apply Hno; [done|]. intros h' rest' u' pl' stray' _ Ha' _ Hu' Hc' Hne.
    destruct (ipv6_at_unique _ _ _ _ _ Ha Ha') as [-> ->].
    destruct (udp_at_unique _ _ _ _ _ _ _ Hu Hu') as (-> & -> & ->). by apply Heqb1, Htest.
  - left. apply Htest in Heqb1 as [Hc Hne]. do 5 eexists. split; [by eapply Datagram6|].
    unfold BAddr.InitIPv6, BAddr.MakeIPv6. rewrite !take_ge by lia.
    by replace (data + 48) with (data + 40 + 8) by lia.
Qed.

(** The payload is inside the packet, and the addresses are those of datagrams. *)
Lemma datagram_in o bs l rm d off payload :
  datagram o bs l rm d off payload →
  (∃ pre post, bs = pre ++ payload ++ post ∧ length_z pre = off) ∧
  AddrFacts.is_ip l ∧ AddrFacts.is_ip rm ∧ l ≠ BAddr.NONE ∧ BAddr.type_of l = BAddr.type_of rm.
Proof.
  intros [h opts rest u pl stray [E Hok _ _ _ _ _] _ [Eu Huok _] _ _|h rest u pl stray _ [E Hok _ _] _ [Eu Huok _] _ _].
  - split.
    + set (n := Z.to_nat (ntoh16 (Ipv4.total_length h) - (20 + length_z opts))) in *.
      exists (Ipv4.bytes h ++ opts ++ Udp.bytes u), (stray ++ drop n rest). split.
      * rewrite E. rewrite <- (take_drop n rest) at 1. rewrite Eu. by rewrite <- !app_assoc.
      * rewrite !length_z_app. change (length_z (Ipv4.bytes h)) with 20. change (length_z (Udp.bytes u)) with 8. lia.
    + destruct Hok, Huok. unfold is_u32, is_u16 in *. by split_and!.
  - split.
    + set (n := Z.to_nat (ntoh16 (Ipv6.payload_length h))) in *.
      exists (Ipv6.bytes h ++ Udp.bytes u), (stray ++ drop n rest). split.
      * rewrite E. rewrite <- (take_drop n rest) at 1. rewrite Eu. by rewrite <- !app_assoc.
      * rewrite !length_z_app. assert (length_z (Ipv6.bytes h) = 40) as -> by (unfold length_z; by rewrite length_ipv6_bytes).
        done.
    + destruct Hok, Huok. unfold is_u16 in *. destruct_and!. by split_and!.
Qed.

(** The packet is passed on exactly if it is a datagram that is not too large. *)
Lemma process_datagrams o m data bs :
  holds_at m data bs → Forall is_byte bs → length_z bs ≤ INT_MAX →
  ∃ r, Device.process_device_udp_packet o m data (length_z bs) = Ok r ∧
    ∀ c, r = Some c ↔ Device.udpgw_remote_server_addr o = true ∧
       ∃ l rm d off payload, datagram o bs l rm d off payload ∧ length_z payload ≤ Device.udp_mtu o ∧
         c = Device.SubmitPacket l rm d (data + off) (length_z payload).
Proof.
  intros Hh Hb Hmax. unfold Device.process_device_udp_packet. pose proof (length_z_nonneg bs). run_assert.
  case_if; [eexists; split; [done|]; intros c; split; [done|intros [? _]; congruence]|].
  assert ((if 0 <? length_z bs then b ← byte_at m data 0; Ok (Z.shiftr b 4) else Ok 0) = Ok (version bs)) as ->.
  { destruct bs as [|b bs]; [done|]. change (byte_at m data 0) with (byte_at m data (Z.of_nat 0)).
    by rewrite (byte_of _ _ (b :: bs) _ b). }
  rewrite ok_bind. set (r := if version bs =? 4 then _ else _). assert (Hparse : parses o data bs r).
  { unfold r. case_if; [by apply process_ipv4_spec|]. case_if; [by apply process_ipv6_spec|].
    right. split; [|done]. intros l rm d off pl [? ? ? ? ? ? Ha%ipv4_at_version|? ? ? ? ? _ Ha%ipv6_at_version]; congruence. }
  clearbody r.
  destruct Hparse as [(l & rm & d & off & pl & Hd & ->)|[Hn ->]]; rewrite ok_bind.
  - case_if; eexists; (split; [done|]); intros c; split; try done.
    + intros (_ & l' & rm' & d' & off' & pl' & Hd' & Hle & _).
      destruct (datagram_unique _ _ _ _ _ _ _ _ _ _ _ _ Hd Hd') as (-> & -> & -> & -> & ->). lia.
    + intros [= <-]. split; [done|]. naive_solver.
    + intros (_ & l' & rm' & d' & off' & pl' & Hd' & Hle & ->).
      by destruct (datagram_unique _ _ _ _ _ _ _ _ _ _ _ _ Hd Hd') as (-> & -> & -> & -> & ->).
  - eexists; split; [done|]. intros c; split; [done|].
    intros (_ & l' & rm' & d' & off' & pl' & Hd' & _). by apply Hn in Hd'.
Qed.

(** C30: Whatever bytes the device delivers, looking for UDP in them reads nothing outside the
    packet and never fails, and it submits exactly the datagrams: versions, lengths and
    checksums right (a checksum of all ones excepted), payload within the MTU; with the
    addresses of the headers and the payload's place in the packet. *)
Theorem device_packet_spec o m data bs :
  holds_at m data bs → Forall is_byte bs → length_z bs ≤ INT_MAX →
  ∃ r, Device.process_device_udp_packet o m data (length_z bs) = Ok r ∧
    (∀ c, r = Some c ↔ Device.udpgw_remote_server_addr o = true ∧
       ∃ l rm d off payload, datagram o bs l rm d off payload ∧ length_z payload ≤ Device.udp_mtu o ∧
         c = Device.SubmitPacket l rm d (data + off) (length_z payload)) ∧
    (∀ l rm d off payload, datagram o bs l rm d off payload →
       holds_at m (data + off) payload ∧ 0 ≤ off ∧ off + length_z payload ≤ length_z bs ∧
       AddrFacts.is_ip l ∧ AddrFacts.is_ip rm ∧ l ≠ BAddr.NONE ∧ BAddr.type_of l = BAddr.type_of rm).
Proof.
  intros Hh Hb Hmax. destruct (process_datagrams o m data bs Hh Hb Hmax) as (r & Hr & Hc).
  exists r. split_and!; [done|done|].
  intros l rm d off pl [(pre & post & E & <-) Ha]%datagram_in. rewrite E in Hh |- *.
  rewrite !holds_at_app in Hh. destruct Hh as (_ & Hh & _). rewrite !length_z_app. unfold length_z in *.
  pose proof (length_z_nonneg post). unfold length_z in *. split_and!; [done|lia|lia|apply Ha..].
Qed.

(** ** What is written *)

Lemma store_put m p bs n : mapped m p n → length_z bs ≤ n →
  ∃ m', store m p bs = Ok m' ∧ holds_at m' p bs ∧ mapped m' p n ∧
    ∀ q cs, holds_at m q cs → q + length_z cs ≤ p ∨ p + length_z bs ≤ q → holds_at m' q cs.
Proof.
  unfold length_z. intros Hm Hn. destruct (store_mapped_ok m p bs) as [m' Hs].
  { eapply mapped_sub; [exact Hm|lia|lia]. }
  exists m'. split_and!; [done | by eapply store_holds | by eapply store_mapped |].
  intros q cs Hc Hd. by eapply store_frame.
Qed.

Lemma write_packet_ok m buf iph udph data payload n :
  mapped m buf n → length_z iph + length_z udph + length_z payload ≤ n →
  holds_at m data payload → data + length_z payload ≤ buf ∨ buf + n ≤ data →
  ∃ m', Device.write_packet m buf iph udph data (length_z payload) = Ok m' ∧
    holds_at m' buf (iph ++ udph ++ payload) ∧
    ∀ a, ¬ (buf ≤ a < buf + (length_z iph + length_z udph + length_z payload)) → m' !! a = m !! a.
Proof.
  intros Hm Hn Hp Hd. pose proof (length_z_nonneg iph). pose proof (length_z_nonneg udph).
  pose proof (length_z_nonneg payload). unfold Device.write_packet.
  destruct (store_put m buf iph n Hm ltac:(lia)) as (m1 & Hs1 & Hi1 & Hm1 & Hf1). rewrite Hs1, ok_bind.
  destruct (store_put m1 (buf + length_z iph) udph (n - length_z iph)) as (m2 & Hs2 & Hu2 & Hm2 & Hf2);
    [eapply mapped_sub; [exact Hm1|lia|lia] | lia |]. rewrite Hs2, ok_bind.
  assert (holds_at m2 data payload) as Hp2 by (apply Hf2; [apply Hf1; [done|lia]|lia]).
  unfold memmove. rewrite load_all, ok_bind by done.
  destruct (store_put m2 (buf + length_z iph + length_z udph) payload (n - length_z iph - length_z udph))
    as (m3 & Hs & Hp3 & _ & Hf3); [eapply mapped_sub; [exact Hm2|lia|lia] | lia |].
  exists m3. split; [done|]. rewrite !holds_at_app. unfold length_z in *. split; [split_and!|].
  - apply Hf3; [apply Hf2; [done|lia]|lia].
  - apply Hf3; [done|lia].
  - done.
  - intros a Ha. rewrite (store_lookup _ _ _ _ a Hs), (store_lookup _ _ _ _ a Hs2), (store_lookup _ _ _ _ a Hs1).
    by rewrite !decide_False by lia.
Qed.

Definition addr_ok (a : BAddr.t) : Prop := AddrFacts.is_ip a ∧ a ≠ BAddr.NONE.

(** The headers of a datagram, and the largest payload that fits, if there can be any. *)
Definition header_len (a : BAddr.t) : Z := match a with BAddr.IPV6 _ _ => 48 | _ => 28 end.

Definition fits (o : Device.config) (a : BAddr.t) (n : Z) : Prop :=
  header_len a + n ≤ Device.device_mtu o ∧
  match a with BAddr.IPV6 _ _ => Device.netif_ip6addr o = true ∧ 8 + n ≤ 65535 | _ => 28 + n ≤ 65535 end.

(** The datagram that the code writes, as the parser sees it. *)
Lemma written4 o src dst sport dport payload c u :
  is_u32 src → is_u32 dst → is_u16 sport → is_u16 dport → Forall is_byte payload → 28 + length_z payload ≤ 65535 →
  let h0 := Ipv4.mkh 69 0 (hton16 (28 + length_z payload)) 0 0 64 17 0 src dst in
  let u0 := Udp.mkh sport dport (hton16 (8 + length_z payload)) 0 in
  Ipv4.ipv4_checksum h0 [] = Ok c → Udp.udp_checksum u0 payload src dst = Ok u →
  datagram o (Ipv4.bytes (Ipv4.set_checksum h0 c) ++ Udp.bytes (Udp.set_checksum u0 u) ++ payload)
    (BAddr.IPV4 src sport) (BAddr.IPV4 dst dport)
    (Device.udpgw_transparent_dns o && (dst =? Device.netif_ipaddr o) && (dport =? hton16 53)) 28 payload.
Proof.
  intros Hs Hd Hsp Hdp Hp Hn h0 u0 Hc Hu. pose proof (length_z_nonneg payload).
  assert (H28 : is_u16 (28 + length_z payload)) by (unfold is_u16; lia).
  assert (H8 : is_u16 (8 + length_z payload)) by (unfold is_u16; lia).
  destruct (hton16_u16 _ H28) as [E28 B28], (hton16_u16 _ H8) as [E8 B8].
  assert (H00 : is_u16 0) by (by unfold is_u16).
  assert (ipv4_ok h0) as Hh0 by (split; done). assert (udp_ok u0) as Hu0 by (split; done).
  rewrite ipv4_checksum_ok in Hc; [|done|constructor|done|done|by apply ipv4_sum_pos].
  apply ok_inj in Hc. assert (Hcu : is_u16 c).
  { rewrite <- Hc. apply hton16_u16, folded_u16. apply Z.lt_le_incl. rewrite app_nil_r. by apply ipv4_sum_pos. }
  destruct (pseudo4_ok src dst _ H8) as (Hps & Hpl & Hpos).
  rewrite udp_checksum_ok in Hu by (done || lia). apply ok_inj in Hu.
  assert (Huu : is_u16 u).
  { rewrite <- Hu. apply hton16_u16, folded_u16.
    apply (sum_z_bound _ (words_bound _ (datagram_bytes _ u0 _ Hps Hp))). }
  pose proof (ipv4_set_ok h0 c Hh0 Hcu) as Hh. pose proof (udp_set_ok u0 u Hu0 Huu) as Huk.
  destruct (ipv4_test (Ipv4.set_checksum h0 c) [] Hh ltac:(done) ltac:(constructor) ltac:(done) ltac:(done))
    as (c' & Hc' & Htest). change (Ipv4.set_checksum (Ipv4.set_checksum h0 c) (hton16 0)) with h0 in Hc'.
  rewrite ipv4_checksum_ok in Hc'; [|done|constructor|done|done|by apply ipv4_sum_pos].
  rewrite Hc in Hc'. apply ok_inj in Hc'. apply Htest in Hc' as [Hck Hcne].
  pose proof (udp_test _ (Udp.set_checksum u0 u) payload Huk Hp Hps (length_even _ 12 Hpl ltac:(done)) Hpos) as Ht.
  change (Udp.set_checksum (Udp.set_checksum u0 u) 0) with u0 in Ht. rewrite Hu in Ht.
  destruct (proj1 Ht eq_refl) as [Huck Hune].
  refine (_ : datagram o _ _ _ _ (28 + length_z []) payload).
  apply (Datagram4 o _ (Ipv4.set_checksum h0 c) [] (Udp.bytes (Udp.set_checksum u0 u) ++ payload)
           (Udp.set_checksum u0 u) payload []); [|done| |done|done].
  - split; try done; cbn [Ipv4.set_checksum Ipv4.total_length h0]; unfold ntoh16; rewrite E28.
    rewrite !length_z_app. change (length_z (Ipv4.bytes _)) with 20. change (length_z (Udp.bytes _)) with 8.
    change (length_z []) with 0. lia.
  - cbn [Ipv4.set_checksum Ipv4.total_length h0]. unfold ntoh16. rewrite E28.
    rewrite take_ge; [|change (length_z []) with 0; rewrite length_app; change (length (Udp.bytes _)) with 8%nat; unfold length_z; lia].
    split; [by rewrite app_nil_r | done | exact E8].
Qed.
Lemma written6 o src dst sport dport payload u :
  Device.netif_ip6addr o = true →
  length src = 16%nat → Forall is_byte src → length dst = 16%nat → Forall is_byte dst →
  is_u16 sport → is_u16 dport → Forall is_byte payload → 8 + length_z payload ≤ 65535 →
  let h := Ipv6.mkh 96 0 0 (hton16 (8 + length_z payload)) 17 64 src dst in
  let u0 := Udp.mkh sport dport (hton16 (8 + length_z payload)) 0 in
  Udp.udp_ip6_checksum u0 payload src dst = Ok u →
  datagram o (Ipv6.bytes h ++ Udp.bytes (Udp.set_checksum u0 u) ++ payload)
    (BAddr.IPV6 src sport) (BAddr.IPV6 dst dport) false 48 payload.
Proof.
  intros Hip6 Hs Hsb Hd Hdb Hsp Hdp Hp Hn h u0 Hu. pose proof (length_z_nonneg payload).
  assert (H8 : is_u16 (8 + length_z payload)) by (unfold is_u16; lia).
  destruct (hton16_u16 _ H8) as [E8 B8]. assert (H00 : is_u16 0) by (by unfold is_u16).
  assert (ipv6_ok h) as Hh by (split; done). assert (udp_ok u0) as Hu0 by (split; done).
  destruct (pseudo6_ok src dst _ H8 Hs Hsb Hd Hdb) as (Hps & Hpl & Hpos).
  rewrite udp_ip6_checksum_ok in Hu by (done || lia). apply ok_inj in Hu.
  assert (Huu : is_u16 u).
  { rewrite <- Hu. apply hton16_u16, folded_u16.
    apply (sum_z_bound _ (words_bound _ (datagram_bytes _ u0 _ Hps Hp))). }
  pose proof (udp_set_ok u0 u Hu0 Huu) as Huk.
  pose proof (udp_test _ (Udp.set_checksum u0 u) payload Huk Hp Hps (length_even _ 40 Hpl ltac:(done)) Hpos) as Ht.
  change (Udp.set_checksum (Udp.set_checksum u0 u) 0) with u0 in Ht. rewrite Hu in Ht.
  destruct (proj1 Ht eq_refl) as [Huck Hune].
  apply (Datagram6 o _ h (Udp.bytes (Udp.set_checksum u0 u) ++ payload) (Udp.set_checksum u0 u) payload []);
    [done| |done| |done|done].
  - split; try done; cbn [Ipv6.payload_length h]. unfold ntoh16. rewrite E8, length_z_app.
    change (length_z (Udp.bytes _)) with 8. lia.
  - cbn [Ipv6.payload_length h]. unfold ntoh16. rewrite E8.
    rewrite take_ge; [|rewrite length_app; change (length (Udp.bytes _)) with 8%nat; unfold length_z; lia].
    split; [by rewrite app_nil_r | done | exact E8].
Qed.

Definition fits_b (o : Device.config) (a : BAddr.t) (n : Z) : bool :=
  (header_len a + n <=? Device.device_mtu o) &&
  match a with
  | BAddr.IPV6 _ _ => Device.netif_ip6addr o && (8 + n <=? 65535)
  | _ => 28 + n <=? 65535
  end.

Lemma ipv4_checksum_total h : ipv4_ok h → Ipv4.version4_ihl4 h ≠ 0 →
  ∃ c, Ipv4.ipv4_checksum h [] = Ok c ∧ is_u16 c.
Proof.
  intros Hh Hv. pose proof (ipv4_sum_pos _ Hh Hv).
  rewrite ipv4_checksum_ok; [|done|constructor|done|done|done]. eexists. split; [done|].
  rewrite app_nil_r. apply hton16_u16, folded_u16. lia.
Qed.

Lemma udp_checksum_total h payload src dst :
  udp_ok h → Forall is_byte payload → length_z payload + 8 ≤ 65535 → is_u32 src → is_u32 dst →
  let c := hton16 (without_ones (rfc768 (pseudo4 src dst (8 + length_z payload) ++ Udp.bytes h ++ payload))) in
  Udp.udp_checksum h payload src dst = Ok c ∧ is_u16 c.
Proof.
  intros Hh Hp Hn Hs Hd. destruct (pseudo4_ok src dst (8 + length_z payload)) as (Hps & E & Hpos);
    [unfold is_u16, length_z in *; lia|].
  cbv zeta. rewrite udp_checksum_ok, <- rfc768_folded by (done || by apply (length_even _ _ E)). split; [done|].
  apply hton16_u16, folded_u16, (sum_z_bound _ (words_bound _ (datagram_bytes _ h _ Hps Hp))).
Qed.

Lemma udp_ip6_checksum_total h payload src dst :
  udp_ok h → Forall is_byte payload → length_z payload + 8 ≤ 65535 →
  length src = 16%nat → Forall is_byte src → length dst = 16%nat → Forall is_byte dst →
  let c := hton16 (without_ones (rfc768 (pseudo6 src dst (8 + length_z payload) ++ Udp.bytes h ++ payload))) in
  Udp.udp_ip6_checksum h payload src dst = Ok c ∧ is_u16 c.
Proof.
  intros Hh Hp Hn Hs Hsb Hd Hdb. destruct (pseudo6_ok src dst (8 + length_z payload)) as (Hps & E & Hpos);
    [unfold is_u16, length_z in *; lia|done..|].
  cbv zeta. rewrite udp_ip6_checksum_ok, <- rfc768_folded by (done || by apply (length_even _ _ E)). split; [done|].
  apply hton16_u16, folded_u16, (sum_z_bound _ (words_bound _ (datagram_bytes _ h _ Hps Hp))).
Qed.

(** The checksum that goes with a datagram from [src] to [dst]: that of RFC 768, except that zero is sent where the RFC asks
    for all ones; and the field it is in. *)
Definition sent_checksum (src dst : BAddr.t) (payload : list Z) : Z :=
  let n := 8 + length_z payload in
  match src, dst with
  | BAddr.IPV4 sip sport, BAddr.IPV4 dip dport =>
      without_ones (rfc768 (pseudo4 sip dip n ++ Udp.bytes (Udp.mkh sport dport (hton16 n) 0) ++ payload))
  | BAddr.IPV6 sip sport, BAddr.IPV6 dip dport =>
      without_ones (rfc768 (pseudo6 sip dip n ++ Udp.bytes (Udp.mkh sport dport (hton16 n) 0) ++ payload))
  | _, _ => 0
  end.

Definition checksum_field (a : BAddr.t) (bs : list Z) : list Z := take 2 (drop (Z.to_nat (header_len a) - 2) bs).

Lemma checksum_field_at a iph u c payload :
  length_z iph + 8 = header_len a → checksum_field a (iph ++ Udp.bytes (Udp.set_checksum u c) ++ payload) = le_bytes 2 c.
Proof.
  intros Hl. unfold checksum_field, Udp.bytes, length_z in *. rewrite !app_assoc.
  replace (Z.to_nat (header_len a) - 2)%nat with
    (length (((iph ++ le_bytes 2 (Udp.source_port u)) ++ le_bytes 2 (Udp.dest_port u)) ++ le_bytes 2 (Udp.len u)))
    by (rewrite !length_app; simpl; lia).
  cbn [Udp.set_checksum Udp.source_port Udp.dest_port Udp.len Udp.checksum].
  rewrite <- !(app_assoc _ _ payload), drop_app_length. apply (take_app_length (le_bytes 2 c)).
Qed.

Lemma ipv6_bytes_ok h : ipv6_ok h → Forall is_byte (Ipv6.bytes h).
Proof.
  intros [?????? [_ Hs] [_ Hd]]. unfold Ipv6.bytes.
  repeat (apply Forall_app; split); try apply le_bytes_bytes; try done; bytes_list.
Qed.

Lemma handler4 o buf m lip lport rip rport data payload :
  Device.udpgw_remote_server_addr o = true →
  is_u32 lip → is_u16 lport → is_u32 rip → is_u16 rport →
  holds_at m data payload → Forall is_byte payload → mapped m buf (Device.device_mtu o) →
  (data + length_z payload ≤ buf ∨ buf + Device.device_mtu o ≤ data) →
  let run := Device.udpgw_client_handler_received o buf m (BAddr.IPV4 lip lport) (BAddr.IPV4 rip rport)
               data (length_z payload) in
  (28 + length_z payload ≤ Device.device_mtu o ∧ 28 + length_z payload ≤ 65535 →
   ∃ m' bs, run = Ok (m', [Device.BTap_Send buf (28 + length_z payload)]) ∧ holds_at m' buf bs ∧
     length_z bs = 28 + length_z payload ∧ Forall is_byte bs ∧
     (∀ a, ¬ (buf ≤ a < buf + (28 + length_z payload)) → m' !! a = m !! a) ∧
     checksum_field (BAddr.IPV4 lip lport) bs =
       le_bytes 2 (hton16 (sent_checksum (BAddr.IPV4 rip rport) (BAddr.IPV4 lip lport) payload)) ∧
     datagram o bs (BAddr.IPV4 rip rport) (BAddr.IPV4 lip lport)
       (Device.udpgw_transparent_dns o && (lip =? Device.netif_ipaddr o) && (lport =? hton16 53)) 28 payload) ∧
  (¬ (28 + length_z payload ≤ Device.device_mtu o ∧ 28 + length_z payload ≤ 65535) → run = Ok (m, [])).
Proof.
  intros Ho Hl Hlp Hr Hrp Hp Hb Hm Hd. cbv zeta. pose proof (length_z_nonneg payload).
  unfold Device.udpgw_client_handler_received. rewrite Ho. cbn [c_assert BAddr.type_of].
  do 2 (rewrite c_assert_true by done). run_assert.
  change (to_size (UINT16_MAX - (Ipv4.sizeof + Udp.sizeof))) with 65507.
  change (Ipv4.sizeof + Udp.sizeof) with 28. split; intros Hfit.
  2: { case_if; [done|lia]. }
  rewrite (proj2 (orb_false_iff _ _)) by lia.
  set (h0 := Ipv4.mkh 69 0 (hton16 (28 + length_z payload)) 0 0 64 17 0 rip lip).
  change (Ipv4.mkh _ _ _ _ _ _ _ _ rip lip) with h0.
  set (u0 := Udp.mkh rport lport (hton16 (8 + length_z payload)) 0).
  change (Udp.mkh _ _ _ _) with u0. cbv zeta.
  assert (H00 : is_u16 0) by (by unfold is_u16). assert (is_u16 (hton16 (28 + length_z payload)))
    by (apply hton16_u16; unfold is_u16; lia). assert (is_u16 (hton16 (8 + length_z payload)))
    by (apply hton16_u16; unfold is_u16; lia).
  assert (ipv4_ok h0) as Hh0 by (split; done). assert (udp_ok u0) as Hu0 by (split; done).
  destruct (ipv4_checksum_total h0 Hh0 ltac:(done)) as (c & Hc & Hcu). rewrite Hc, ok_bind, load_all, ok_bind by done.
  cbn [Ipv4.set_checksum Ipv4.source_address Ipv4.destination_address h0].
  destruct (udp_checksum_total u0 payload rip lip Hu0 Hb ltac:(lia) Hr Hl) as [Hu Huu]. rewrite Hu, ok_bind.
  match type of Hu with _ = Ok ?x => set (u := x) in * end.
  change (Ipv4.mkh _ _ _ _ _ _ _ _ rip lip) with (Ipv4.set_checksum h0 c).
  destruct (write_packet_ok m buf (Ipv4.bytes (Ipv4.set_checksum h0 c)) (Udp.bytes (Udp.set_checksum u0 u)) data
    payload (Device.device_mtu o)) as (m' & -> & Hw & Hfr); [done| |done|done|].
  { change (length_z (Ipv4.bytes _)) with 20. change (length_z (Udp.bytes _)) with 8. lia. }
  do 2 eexists. split_and!; [done | exact Hw | | | exact Hfr | |].
  - rewrite !length_z_app. change (length_z (Ipv4.bytes _)) with 20. change (length_z (Udp.bytes _)) with 8. lia.
  - apply datagram_bytes; [|done]. by apply ipv4_bytes_ok, ipv4_set_ok.
  - by apply checksum_field_at.
  - apply written4; done || lia.
Qed.

Lemma handler6 o buf m lip lport rip rport data payload :
  Device.udpgw_remote_server_addr o = true →
  length lip = 16%nat → Forall is_byte lip → is_u16 lport →
  length rip = 16%nat → Forall is_byte rip → is_u16 rport →
  holds_at m data payload → Forall is_byte payload → mapped m buf (Device.device_mtu o) →
  (data + length_z payload ≤ buf ∨ buf + Device.device_mtu o ≤ data) →
  let run := Device.udpgw_client_handler_received o buf m (BAddr.IPV6 lip lport) (BAddr.IPV6 rip rport)
               data (length_z payload) in
  let fit := Device.netif_ip6addr o = true ∧ 48 + length_z payload ≤ Device.device_mtu o
             ∧ 8 + length_z payload ≤ 65535 in
  (fit →
   ∃ m' bs, run = Ok (m', [Device.BTap_Send buf (48 + length_z payload)]) ∧ holds_at m' buf bs ∧
     length_z bs = 48 + length_z payload ∧ Forall is_byte bs ∧
     (∀ a, ¬ (buf ≤ a < buf + (48 + length_z payload)) → m' !! a = m !! a) ∧
     checksum_field (BAddr.IPV6 lip lport) bs =
       le_bytes 2 (hton16 (sent_checksum (BAddr.IPV6 rip rport) (BAddr.IPV6 lip lport) payload)) ∧
     datagram o bs (BAddr.IPV6 rip rport) (BAddr.IPV6 lip lport) false 48 payload) ∧
  (¬ fit → run = Ok (m, [])).
Proof.
  intros Ho Hl Hlb Hlp Hr Hrb Hrp Hp Hb Hm Hd. cbv zeta. pose proof (length_z_nonneg payload).
  unfold Device.udpgw_client_handler_received. rewrite Ho. cbn [c_assert BAddr.type_of].
  do 2 (rewrite c_assert_true by done). run_assert.
  change (to_size (UINT16_MAX - Udp.sizeof)) with 65527.
  change (Ipv6.sizeof + Udp.sizeof) with 48. split; intros Hfit.
  2: { destruct (Device.netif_ip6addr o); cbn [negb]; [|done]. case_if; [done|]. destruct Hfit. lia. }
  destruct Hfit as (Hip6 & Hfit). rewrite Hip6. cbn [negb].
  rewrite (proj2 (orb_false_iff _ _)) by lia. rewrite !(take_ge _ 16) by lia.
  set (h := Ipv6.mkh 96 0 0 (hton16 (8 + length_z payload)) 17 64 rip lip).
  change (Ipv6.mkh _ _ _ _ _ _ rip lip) with h.
  set (u0 := Udp.mkh rport lport (hton16 (8 + length_z payload)) 0).
  change (Udp.mkh _ _ _ _) with u0. cbv zeta.
  assert (H00 : is_u16 0) by (by unfold is_u16). assert (is_u16 (hton16 (8 + length_z payload)))
    by (apply hton16_u16; unfold is_u16; lia).
  assert (ipv6_ok h) as Hh by (split; done). assert (udp_ok u0) as Hu0 by (split; done).
  rewrite load_all, ok_bind by done. cbn [Ipv6.source_address Ipv6.destination_address h].
  destruct (udp_ip6_checksum_total u0 payload rip lip) as [Hu Huu]; try done; [lia|]. rewrite Hu, ok_bind.
  match type of Hu with _ = Ok ?x => set (u := x) in * end.
  assert (Hl6 : length_z (Ipv6.bytes h) = 40) by (unfold length_z; by rewrite length_ipv6_bytes).
  destruct (write_packet_ok m buf (Ipv6.bytes h) (Udp.bytes (Udp.set_checksum u0 u)) data
    payload (Device.device_mtu o)) as (m' & -> & Hw & Hfr); [done| |done|done|].
  { rewrite Hl6. change (length_z (Udp.bytes _)) with 8. lia. }
  do 2 eexists. split_and!; [done | exact Hw | | | | |].
  - rewrite !length_z_app, Hl6. change (length_z (Udp.bytes _)) with 8. lia.
  - apply datagram_bytes; [|done]. by apply ipv6_bytes_ok.
  - rewrite Hl6 in Hfr. exact Hfr.
  - apply checksum_field_at. by rewrite Hl6.
  - apply written6; done || lia.
Qed.

(** A datagram in memory is parsed back. *)
Lemma parse_back o m data bs l rm d off payload :
  holds_at m data bs → Forall is_byte bs → length_z bs ≤ INT_MAX →
  Device.udpgw_remote_server_addr o = true → datagram o bs l rm d off payload →
  Device.process_device_udp_packet o m data (length_z bs) =
    Ok (if length_z payload <=? Device.udp_mtu o
        then Some (Device.SubmitPacket l rm d (data + off) (length_z payload)) else None).
Proof.
  intros Hh Hb Hmax Ho Hd. destruct (process_datagrams o m data bs Hh Hb Hmax) as (r & -> & Hr). f_equal. case_if.
  - apply Hr. naive_solver.
  - destruct r as [c|]; [|done]. destruct (proj1 (Hr c) eq_refl) as (_ & l' & rm' & d' & off' & pl' & Hd' & Hle & _).
    destruct (datagram_unique _ _ _ _ _ _ _ _ _ _ _ _ Hd Hd') as (_ & _ & _ & _ & ->). lia.
Qed.

(** C29: A reply from the gateway that fits the device and the length fields is written to the
    device's buffer, and no other memory is changed, as one UDP datagram over IPv4 or IPv6:
    the checksum of the IPv4 header is correct, and that of UDP is the one of RFC 768 except
    that zero is sent where the RFC asks for all ones (see the findings); the device's
    reader would parse it back to the same addresses and payload; one that does not fit, or
    of IPv6 when it is disabled, is dropped. *)
Theorem udp_packet_roundtrip o buf m local remote data payload :
  Device.udpgw_remote_server_addr o = true →
  addr_ok local → addr_ok remote → BAddr.type_of local = BAddr.type_of remote →
  holds_at m data payload → Forall is_byte payload → mapped m buf (Device.device_mtu o) →
  (data + length_z payload ≤ buf ∨ buf + Device.device_mtu o ≤ data) → Device.device_mtu o ≤ INT_MAX →
  let n := header_len local + length_z payload in
  if fits_b o local (length_z payload) then
    ∃ m' bs d, Device.udpgw_client_handler_received o buf m local remote data (length_z payload)
                 = Ok (m', [Device.BTap_Send buf n]) ∧
      holds_at m' buf bs ∧ length_z bs = n ∧ (∀ a, ¬ (buf ≤ a < buf + n) → m' !! a = m !! a) ∧
      datagram o bs remote local d (header_len local) payload ∧
      checksum_field local bs = le_bytes 2 (hton16 (sent_checksum remote local payload)) ∧
      Device.process_device_udp_packet o m' buf n =
        Ok (if length_z payload <=? Device.udp_mtu o
            then Some (Device.SubmitPacket remote local d (buf + header_len local) (length_z payload)) else None)
  else
    Device.udpgw_client_handler_received o buf m local remote data (length_z payload) = Ok (m, []).
Proof.
  intros Ho [Hl Hl0] [Hr Hr0] Ht Hp Hb Hm Hd Hmax n.
  destruct local as [|lip lport|lip lport|?|?], remote as [|rip rport|rip rport|?|?]; try done; clear Hl0 Hr0 Ht.
  - cbn [AddrFacts.is_ip] in Hl, Hr. destruct Hl as [Hl Hlp], Hr as [Hr Hrp].
    pose proof (handler4 o buf m lip lport rip rport data payload Ho Hl Hlp Hr Hrp Hp Hb Hm Hd) as [H1 H2].
    unfold fits_b. cbn [header_len] in *. unfold n. cbn [header_len].
    case_if; [|by apply H2; lia]. destruct H1 as (m' & bs & Hrun & Hh & Hlen & Hbb & Hfr & Hck & Hdg); [lia|].
    do 3 eexists. split_and!; [exact Hrun | exact Hh | done | exact Hfr | exact Hdg | exact Hck |].
    rewrite <- Hlen. apply (parse_back o m' buf bs); [done|done|lia|done|exact Hdg].
  - cbn [AddrFacts.is_ip] in Hl, Hr. destruct Hl as (Hl & Hlb & Hlp), Hr as (Hr & Hrb & Hrp).
    pose proof (handler6 o buf m lip lport rip rport data payload Ho Hl Hlb Hlp Hr Hrb Hrp Hp Hb Hm Hd) as [H1 H2].
    unfold fits_b. cbn [header_len] in *. unfold n. cbn [header_len].
    destruct (Device.netif_ip6addr o) eqn:Hip6; cbn [andb] in *; [|rewrite andb_false_r; apply H2; by intros [? _]].
    case_if; [|by apply H2; lia]. destruct H1 as (m' & bs & Hrun & Hh & Hlen & Hbb & Hfr & Hck & Hdg); [lia|].
    do 3 eexists. split_and!; [exact Hrun | exact Hh | done | exact Hfr | exact Hdg | exact Hck |].
    rewrite <- Hlen. apply (parse_back o m' buf bs); [done|done|lia|done|exact Hdg].
Qed.

(** ** Packets of the lwip stack *)

(** The buffer [p] holds [bs], and is not in the device's. *)
Definition holds_chunk (m : mem) (buf mtu : Z) (p : Device.pbuf) (bs : list Z) : Prop :=
  holds_at m (fst p) bs ∧ length_z bs = snd p ∧ (fst p + snd p ≤ buf ∨ buf + mtu ≤ fst p).

Lemma chunk_frame m m' buf mtu p bs :
  (∀ a, ¬ (buf ≤ a < buf + mtu) → m' !! a = m !! a) → holds_chunk m buf mtu p bs → holds_chunk m' buf mtu p bs.
Proof.
  intros Hf (Hh & Hl & Hd). split_and!; [|done|done]. intros i b Hi.
  pose proof (lookup_lt_Some _ _ _ Hi). unfold length_z in *. rewrite Hf by lia. by apply Hh.
Qed.

Lemma copy_chain_ok o buf ps bss : ∀ m len,
  mapped m buf (Device.device_mtu o) →
  Forall2 (holds_chunk m buf (Device.device_mtu o)) ps bss → 0 ≤ len ≤ Device.device_mtu o →
  let total := len + length_z (concat bss) in
  ∃ m', Device.copy_chain o buf m len ps
          = Ok (m', if total <=? Device.device_mtu o then Some total else None) ∧
    (∀ a, ¬ (buf ≤ a < buf + Device.device_mtu o) → m' !! a = m !! a) ∧
    (∀ done, length_z done = len → holds_at m buf done → total ≤ Device.device_mtu o →
       holds_at m' buf (done ++ concat bss)).
Proof.
  revert bss. induction ps as [|p ps IH]; intros bss m len Hm Hc Hlen; cbv zeta.
  { apply Forall2_nil_inv_l in Hc as ->. exists m. cbn [concat]. change (length_z []) with 0. rewrite Z.add_0_r.
    rewrite (proj2 (Z.leb_le _ _)) by lia. split_and!; [done|done|]. intros ds _ Hd _. by rewrite app_nil_r. }
  apply Forall2_cons_inv_l in Hc as (bs & bss' & [Hh [Hl Hd]] & Hc & ->). cbn [concat Device.copy_chain].
  rewrite length_z_app. pose proof (length_z_nonneg bs). pose proof (length_z_nonneg (concat bss')).
  destruct p as [payload plen]. cbn [fst snd] in *. case_if.
  { exists m. rewrite (proj2 (Z.leb_gt _ _)) by lia. split_and!; [done|done|lia]. }
  unfold memmove. rewrite <- Hl, load_all, ok_bind by done.
  destruct (store_put m (buf + len) bs (Device.device_mtu o - len)) as (m1 & Hs & Hh1 & _ & Hf1);
    [eapply mapped_sub; [exact Hm|lia|lia]|lia|]. rewrite Hs, ok_bind.
  assert (Hout : ∀ a, ¬ (buf ≤ a < buf + Device.device_mtu o) → m1 !! a = m !! a).
  { intros a Ha. rewrite (store_lookup _ _ _ _ _ Hs), decide_False; [done|]. unfold length_z in *. lia. }
  destruct (IH bss' m1 (len + length_z bs)) as (m' & -> & Hf & Hdone);
    [by eapply store_mapped | eapply Forall2_impl; [exact Hc|]; intros; by eapply chunk_frame | lia |].
  exists m'. rewrite Z.add_assoc. split_and!; [done|intros a Ha; by rewrite Hf, Hout|].
  intros ds Hdl Hdh Ht. rewrite app_assoc. apply Hdone; [rewrite length_z_app; lia| |lia].
  apply holds_at_app. unfold length_z in *. rewrite Hdl. split; [apply Hf1; [done|unfold length_z; lia]|done].
Qed.

(** A packet of the stack is sent to the device whole, however it is cut into buffers, exactly if it fits the
    device's MTU, and nothing but the device's buffer is written. *)
Theorem netif_output_sends o buf m p next bs bss :
  mapped m buf (Device.device_mtu o) → 0 ≤ Device.device_mtu o →
  Forall2 (holds_chunk m buf (Device.device_mtu o)) (p :: next) (bs :: bss) →
  let total := length_z (concat (bs :: bss)) in
  ∃ m' q, Device.common_netif_output false o buf m p next
      = Ok (m', if total <=? Device.device_mtu o then [Device.BTap_Send q total] else []) ∧
    (total ≤ Device.device_mtu o → holds_at m' q (concat (bs :: bss))) ∧
    (∀ a, ¬ (buf ≤ a < buf + Device.device_mtu o) → m' !! a = m !! a).
Proof.
  intros Hm Hmtu Hc total. unfold Device.common_netif_output. destruct next as [|p2 next].
  - apply Forall2_cons in Hc as [(Hh & Hl & _) Hc]. apply Forall2_nil_inv_l in Hc as ->.
    unfold total. cbn [concat]. rewrite app_nil_r. exists m, (fst p). rewrite <- Hl.
    split_and!; [|done|done]. rewrite Z.ltb_antisym. by destruct (length_z bs <=? _).
  - destruct (copy_chain_ok o buf (p :: p2 :: next) (bs :: bss) m 0 Hm Hc ltac:(lia)) as (m' & -> & Hf & Hd).
    rewrite Z.add_0_l in *. fold total in Hd |- *. exists m', buf. rewrite ok_bind. split_and!; [by case_if | | done].
    intros Ht. by apply (Hd []); [| apply holds_at_nil |].
Qed.

(** Every packet the device reads is acknowledged once, first, and is then either submitted or
    passed to lwip, or dropped. *)
Lemma device_read_once o m data bs alloc_ok input_ok :
  holds_at m data bs → Forall is_byte bs → length_z bs ≤ INT_MAX →
  ∃ cs, Device.device_read_handler_send false o m data (length_z bs) alloc_ok true input_ok
          = Ok (Device.Read_Done :: cs) ∧ Device.Read_Done ∉ cs.
Proof.
  intros Hh Hb Hmax. unfold Device.device_read_handler_send. pose proof (length_z_nonneg bs).
  cbn [negb c_assert]. run_assert. destruct (process_datagrams o m data bs Hh Hb Hmax) as (r & -> & Hr).
  rewrite ok_bind. destruct r as [c|].
  - destruct (proj1 (Hr c) eq_refl) as (_ & l & rm & d & off & pl & _ & _ & ->).
    eexists. split; [done|]. set_solver.
  - repeat case_if; eexists; (split; [done|]); set_solver.
Qed.

(** ** Concrete runs *)

Definition ex_config : Device.config := Device.mkcfg true true false (hton32 167772161) 72 100.

(** A payload of three bytes at 1000, and the device's buffer at 2000. *)
Definition ex_mem : mem :=
  <[1000 := 7]> (<[1001 := 8]> (<[1002 := 9]> (map_block ∅ 2000 100))).

Definition ex_local : BAddr.t := BAddr.IPV4 (hton32 167772161) (hton16 53).
Definition ex_remote : BAddr.t := BAddr.IPV4 (hton32 134744072) (hton16 1024).

Lemma ex_payload : holds_at ex_mem 1000 [7; 8; 9].
Proof. apply (load_ok _ _ 3). by vm_compute. Qed.

Lemma ex_buffer : mapped ex_mem 2000 100.
Proof. do 3 apply mapped_insert. apply (map_block_mapped ∅ 2000 100). Qed.

Lemma ex_bytes : Forall is_byte [7; 8; 9].
Proof. repeat (apply Forall_cons_2; [by unfold is_byte|]). constructor. Qed.

(** A sum of all ones: the checksum is 0, where RFC 768 wants 65535. *)
Lemma udp_checksum_rfc768_witness :
  let h := Udp.mkh (hton16 65502) 0 (hton16 8) 0 in
  udp_ok h ∧ rfc768 (pseudo4 0 0 8 ++ Udp.bytes h ++ []) = 65535 ∧ Udp.udp_checksum h [] 0 0 = Ok (hton16 0).
Proof.
  assert (udp_ok (Udp.mkh (hton16 65502) 0 (hton16 8) 0)) as Hok by (split; by vm_compute).
  split_and!; [done | by vm_compute |].
  by apply (proj1 (udp_checksum_rfc768 _ [] Hok ltac:(constructor) ltac:(done)) 0 0).
Defined.

Definition ex_packet : list Z :=
  [69; 0; 0; 31; 0; 0; 0; 0; 64; 17; 96; 190; 8; 8; 8; 8; 10; 0; 0; 1; 4; 0; 0; 53; 0; 11; 209; 138; 7; 8; 9].

Definition ex_packet_mem : mem :=
  match store (map_block ∅ 2000 31) 2000 ex_packet with Ok m => m | Fault _ => ∅ end.

(** A reply of three bytes: what is read from the packet. *)
Lemma device_packet_spec_witness :
  ∃ r, Device.process_device_udp_packet ex_config ex_packet_mem 2000 31 = Ok r ∧
    r = Some (Device.SubmitPacket ex_remote ex_local true 2028 3).
Proof.
  assert (holds_at ex_packet_mem 2000 ex_packet) as Hh by (apply (load_ok _ _ 31); by vm_compute).
  assert (Forall is_byte ex_packet) as Hb by (apply Forall_forall; intros x Hx;
    assert (forallb (λ x, (0 <=? x) && (x <? 256)) ex_packet = true) as H by (by vm_compute);
    rewrite forallb_forall in H; apply list_elem_of_In, H in Hx; zify_bool; by unfold is_byte).
  destruct (device_packet_spec ex_config ex_packet_mem 2000 ex_packet Hh Hb) as (r & Hr & _ & _).
  { by vm_compute. }
  exists r. split; [exact Hr|].
  assert (Device.process_device_udp_packet ex_config ex_packet_mem 2000 31
    = Ok (Some (Device.SubmitPacket ex_remote ex_local true 2028 3))) as E by (by vm_compute).
  change (length_z ex_packet) with 31 in Hr. rewrite E in Hr. by apply ok_inj in Hr.
Defined.

Lemma udp_packet_roundtrip_witness :
  ∃ m' d, Device.udpgw_client_handler_received ex_config 2000 ex_mem ex_local ex_remote 1000 3
            = Ok (m', [Device.BTap_Send 2000 31]) ∧
    Device.process_device_udp_packet ex_config m' 2000 31
      = Ok (Some (Device.SubmitPacket ex_remote ex_local d 2028 3)).
Proof.
  assert (addr_ok ex_local ∧ addr_ok ex_remote) as [H1 H2] by (split; split; [by vm_compute|done|by vm_compute|done]).
  pose proof (udp_packet_roundtrip ex_config 2000 ex_mem ex_local ex_remote 1000 [7; 8; 9] eq_refl H1 H2 eq_refl
    ex_payload ex_bytes ex_buffer ltac:(left; by vm_compute) ltac:(by vm_compute)) as H.
  cbv zeta in H. change (fits_b ex_config ex_local (length_z [7; 8; 9])) with true in H. cbv iota in H.
  destruct H as (m' & bs & d & Hrun & _ & _ & _ & _ & _ & Hp). exists m', d. split; [exact Hrun | exact Hp].
Defined.

(** A packet of two buffers, copied to the device's. *)
Lemma netif_output_sends_witness :
  ∃ m' q, Device.common_netif_output false ex_config 2000 ex_mem (1000, 1) [(1001, 2)]
      = Ok (m', [Device.BTap_Send q 3]) ∧ holds_at m' q [7; 8; 9].
Proof.
  destruct (netif_output_sends ex_config 2000 ex_mem (1000, 1) [(1001, 2)] [7] [[8; 9]]) as (m' & q & Hrun & Hh & _).
  - exact ex_buffer.
  - by vm_compute.
  - apply Forall2_cons; split; [|apply Forall2_cons; split; [|apply Forall2_nil_2]];
      (split; [|split; [done | left; by vm_compute]]).
    + apply (load_ok _ _ 1). by vm_compute.
    + apply (load_ok _ _ 2). by vm_compute.
  - exists m', q. split; [exact Hrun | by apply Hh; vm_compute].
Defined.

End IpFacts.
