(* ===== verification/TunDevice.v ===== *)
(** * The device: tuntap/BTap.c, flow/SinglePacketBuffer.c and what tun2socks/tun2socks.c connects to them

    The packets of the device are read one at a time: [SinglePacketBuffer] receives a packet from the device and sends it
    to tun2socks' handler, and receives the next when that has accepted it.  A read that would block waits for
    the descriptor to become readable.

    [SinglePacketBuffer] and [BTap] have the functions, in the Linux build; [DeviceWorld] runs them with the
    kernel, whose answers are inputs, the event loop, which calls the descriptor's handler for what is watched (Reactor.v),
    the two interfaces between them, and tun2socks' handler of IpPackets.v.  [DeviceFacts] shows that every packet the
    kernel delivers is handled once and in order, that reading never stops unless an error was reported, and what of the
    packets is submitted to the UDP gateway. *)

From S2P Require Import Prelude CMem Interfaces IpPackets Reactor.
Import Port.

(** ** flow/SinglePacketBuffer.c *)

Module SinglePacketBuffer.

Record t := mk { buf : ptr }.

Inductive call :=
| Input_Recv (data : ptr)              (** [PacketRecvInterface_Receiver_Recv(o->input, ..)] *)
| Output_Send (data : ptr) (len : Z)   (** [PacketPassInterface_Sender_Send(o->output, ..)] *)
| Free_buf (p : ptr).                  (** [BFree] *)

Definition input_handler_done (o : t) (in_len : Z) : list call := [Output_Send (buf o) in_len].

Definition output_handler_done (o : t) : list call := [Input_Recv (buf o)].

(** [alloc] is what [BAlloc] of the input's MTU returns; [Ok None] is the failure return. *)
Definition Init (input_mtu output_mtu : Z) (alloc : option ptr) : result (option (t * list call)) :=
  ASSERT (input_mtu <=? output_mtu) ;;
  match alloc with
  | None => Ok None
  | Some p => Ok (Some (mk p, [Input_Recv p]))
  end.

Definition Free (o : t) : list call := [Free_buf (buf o)].

End SinglePacketBuffer.

(** ** tuntap/BTap.c *)

Module BTap.
Import BReactor.

Definition BTAP_ETHERNET_HEADER_LENGTH : Z := 14.
Definition IFNAMSIZ : nat := 16.
Definition IFF_TUN : Z := 1.
Definition IFF_TAP : Z := 2.
Definition IFF_NO_PI : Z := 4096.

Inductive dev_type := BTAP_DEV_TUN | BTAP_DEV_TAP.

#[global] Instance dev_type_eq_dec : EqDecision dev_type.
Proof. solve_decision. Defined.

(** [struct BTap_init_data] *)
Inductive init_data :=
| BTAP_INIT_STRING (string : option (list Z))
| BTAP_INIT_FD (fd mtu : Z).

(** [output_packet] is [NULL] when there is none. *)
Record t := mk {
  frame_mtu : Z;
  output_packet : ptr;
  close_fd : bool;
  fd : Z;
  poll_events : Z;
}.

(** The calls of the running device, and those of the start and the end. *)
Inductive call :=
| SetEvents (events : Z)    (** [BReactor_SetFileDescriptorEvents(o->reactor, &o->bfd, ..)] *)
| Output_Done (len : Z)     (** [PacketRecvInterface_Done(&o->output, ..)] *)
| Handler_error             (** [o->handler_error(o->handler_error_user)] *)
| Write (bs : list Z)       (** [write] *)
| Open (n : Z) | Close (n : Z)
| AddFd (n : Z)             (** [BReactor_AddFileDescriptor], successful *)
| RemoveFd
| Output_Free.

(** What [read] returns: a packet, EAGAIN or EWOULDBLOCK, or another error. *)
Inductive read_result := Read_packet (bs : list Z) | Read_again | Read_failed.

Definition set_waiting (o : t) (packet : ptr) (events : Z) : t :=
  mk (frame_mtu o) packet (close_fd o) (fd o) events.

Definition report_error : list call := [Handler_error].

(** The body of the loop for [BREACTOR_READ]; the kernel writes what is read to memory. *)
Definition fd_handler (o : t) (events : Z) (ans : read_result) (m : mem) : result (t * mem * list call) :=
  if negb (has events BREACTOR_READ) then Ok (o, m, []) else
  ASSERT negb (output_packet o =? NULL) ;;
  match ans with
  | Read_again => Ok (o, m, [])
  | Read_failed => Ok (o, m, report_error)
  | Read_packet bs =>
      m ← store m (output_packet o) bs;
      ASSERT (Z.of_nat (length bs) <=? frame_mtu o) ;;
      let o := set_waiting o NULL (Z.ldiff (poll_events o) BREACTOR_READ) in
      Ok (o, m, [SetEvents (poll_events o); Output_Done (Z.of_nat (length bs))])
  end.

Definition output_handler_recv (o : t) (data : ptr) (ans : read_result) (m : mem) : result (t * mem * list call) :=
  ASSERT negb (data =? NULL) ;;
  ASSERT (output_packet o =? NULL) ;;
  match ans with
  | Read_again =>
      let o := set_waiting o data (Z.lor (poll_events o) BREACTOR_READ) in
      Ok (o, m, [SetEvents (poll_events o)])
  | Read_failed => Ok (o, m, report_error)
  | Read_packet bs =>
      m ← store m data bs;
      ASSERT (Z.of_nat (length bs) <=? frame_mtu o) ;;
      Ok (o, m, [Output_Done (Z.of_nat (length bs))])
  end.

(** What the kernel and the reactor answer when the device is opened: the new descriptors, the name the device gets
    from the request's flags and name, the MTU of a device, and whether [fcntl] and adding the descriptor succeed. *)
Record answers := mkans {
  on_open : option Z;
  on_tunsetiff : Z → list Z → option (list Z);
  on_socket : option Z;
  on_getmtu : list Z → option Z;
  on_fcntl : bool;
  on_add : bool;
}.

Definition ifr_name (string : option (list Z)) : list Z := take (IFNAMSIZ - 1) (default [] string).

(** The case [BTAP_INIT_STRING]: the device's descriptor and real name; [None] for a failure. *)
Definition configure (ty : dev_type) (string : option (list Z)) (k : answers) : option (Z * list Z) * list call :=
  match on_open k with
  | None => (None, [])
  | Some n =>
      let flags := Z.lor IFF_NO_PI (match ty with BTAP_DEV_TUN => IFF_TUN | BTAP_DEV_TAP => IFF_TAP end) in
      match on_tunsetiff k flags (ifr_name string) with
      | None => (None, [Open n; Close n])
      | Some devname_real => (Some (n, devname_real), [Open n])
      end
  end.

(** The MTU, by a dummy socket; a failure closes the device. *)
Definition query_mtu (ty : dev_type) (n : Z) (devname_real : list Z) (k : answers) : option Z * list call :=
  match on_socket k with
  | None => (None, [Close n])
  | Some sock =>
      match on_getmtu k devname_real with
      | None => (None, [Open sock; Close sock; Close n])
      | Some ifr_mtu =>
          (Some (match ty with BTAP_DEV_TUN => ifr_mtu | BTAP_DEV_TAP => ifr_mtu + BTAP_ETHERNET_HEADER_LENGTH end),
           [Open sock; Close sock])
      end
  end.

(** The case [BTAP_INIT_FD] *)
Definition fd_ok (ty : dev_type) (n mtu : Z) : bool :=
  (0 <=? n) && (0 <=? mtu) && (negb (bool_decide (ty = BTAP_DEV_TAP)) || (BTAP_ETHERNET_HEADER_LENGTH <=? mtu)).

(** [None] is the failure return; [cs] are the calls before. *)
Definition finish (close : bool) (n mtu : Z) (add : bool) (cs : list call) : option t * list call :=
  if add then (Some (mk mtu NULL close n 0), cs ++ [AddFd n])
  else (None, cs ++ (if close then [Close n] else [])).

Definition Init2 (ty : dev_type) (data : init_data) (k : answers) : result (option t * list call) :=
  let after close n mtu cs :=
    if on_fcntl k then Ok (finish close n mtu (on_add k) cs)
    else Ok (None, cs ++ (if close then [Close n] else [])) in
  match data with
  | BTAP_INIT_FD n mtu => ASSERT fd_ok ty n mtu ;; after false n mtu []
  | BTAP_INIT_STRING s =>
      let '(r, cs) := configure ty s k in
      match r with
      | None => Ok (None, cs)
      | Some (n, devname_real) =>
          let '(mtu, cs') := query_mtu ty n devname_real k in
          match mtu with
          | None => Ok (None, cs ++ cs')
          | Some mtu => after true n mtu (cs ++ cs')
          end
      end
  end.

Definition Init (devname : option (list Z)) (tun : bool) (k : answers) : result (option t * list call) :=
  Init2 (if tun then BTAP_DEV_TUN else BTAP_DEV_TAP) (BTAP_INIT_STRING devname) k.

Definition InitWithFD (n mtu : Z) (add : bool) : option t * list call := finish true n mtu add [].

Definition Free (o : t) : list call := [Output_Free; RemoveFd] ++ (if close_fd o then [Close (fd o)] else []).

Definition GetMTU (o : t) : Z := frame_mtu o.

(** Errors are ignored. *)
Definition Send (o : t) (m : mem) (data : ptr) (data_len : Z) : result (list call) :=
  ASSERT (0 <=? data_len) ;;
  ASSERT (data_len <=? frame_mtu o) ;;
  bs ← load m data (Z.to_nat data_len);
  Ok [Write bs].

End BTap.

(** ** The device, its reader and tun2socks *)

Module DeviceWorld.
Import BReactor.

(** [tx] and [rx] are the two interfaces, [watched] the events the device's descriptor is watched for while it is
    registered, [quitting] whether the device reported an error, which ends the program.  [reads] and [written] are the
    packets the kernel has delivered and was given; [handled] those tun2socks was given, with the calls its handler made. *)
Record world := mkw {
  tap : BTap.t;
  spb : SinglePacketBuffer.t;
  cfg : Device.config;
  mm : mem;
  rx : phase ptr Z;
  tx : phase (ptr * Z) unit;
  watched : option Z;
  files : gset Z;
  quitting : bool;
  reads : list (list Z);
  handled : list (list Z * list Device.call);
  written : list (list Z);
}.

Definition set_tap (w : world) (o : BTap.t) (m : mem) : world :=
  mkw o (spb w) (cfg w) m (rx w) (tx w) (watched w) (files w) (quitting w) (reads w) (handled w) (written w).
Definition set_ports (w : world) (r : phase ptr Z) (t : phase (ptr * Z) unit) : world :=
  mkw (tap w) (spb w) (cfg w) (mm w) r t (watched w) (files w) (quitting w) (reads w) (handled w) (written w).
Definition set_fd (w : world) (e : option Z) (f : gset Z) : world :=
  mkw (tap w) (spb w) (cfg w) (mm w) (rx w) (tx w) e f (quitting w) (reads w) (handled w) (written w).
Definition set_quitting (w : world) : world :=
  mkw (tap w) (spb w) (cfg w) (mm w) (rx w) (tx w) (watched w) (files w) true (reads w) (handled w) (written w).
Definition set_log (w : world) (r : list (list Z)) (h : list (list Z * list Device.call)) (wr : list (list Z)) : world :=
  mkw (tap w) (spb w) (cfg w) (mm w) (rx w) (tx w) (watched w) (files w) (quitting w) r h wr.

(** tun2socks' [device_error_handler] and [terminate] *)
Definition device_error_handler (w : world) : result world := ASSERT negb (quitting w) ;; Ok (set_quitting w).

Definition tap_call (w : world) (c : BTap.call) : result world :=
  match c with
  | BTap.SetEvents ev =>
      ASSERT bool_decide (is_Some (watched w)) ;;
      ASSERT Z.ldiff ev (Z.lor BREACTOR_READ BREACTOR_WRITE) =? 0 ;;
      Ok (set_fd w (Some ev) (files w))
  | BTap.Output_Done l =>
      ASSERT (0 <=? l) ;; ASSERT (l <=? BTap.GetMTU (tap w)) ;;
      match rx w with Busy _ => Ok (set_ports w (Finished l) (tx w)) | _ => Fault AssertFailed end
  | BTap.Handler_error => device_error_handler w
  | BTap.Write bs => Ok (set_log w (reads w) (handled w) (written w ++ [bs]))
  | BTap.Open n => ASSERT bool_decide (n ∉ files w) ;; Ok (set_fd w (watched w) ({[n]} ∪ files w))
  | BTap.Close n => ASSERT bool_decide (n ∈ files w) ;; Ok (set_fd w (watched w) (files w ∖ {[n]}))
  | BTap.AddFd n =>
      ASSERT bool_decide (n ∈ files w) ;; ASSERT bool_decide (watched w = None) ;; Ok (set_fd w (Some 0) (files w))
  | BTap.RemoveFd => ASSERT bool_decide (is_Some (watched w)) ;; Ok (set_fd w None (files w))
  | BTap.Output_Free => Ok (set_ports w Idle (tx w))
  end.

Definition spb_call (w : world) (c : SinglePacketBuffer.call) : result world :=
  match c with
  | SinglePacketBuffer.Input_Recv d =>
      ASSERT (negb (0 <? BTap.GetMTU (tap w)) || negb (d =? NULL)) ;;
      match rx w with Idle => Ok (set_ports w (Requested d) (tx w)) | _ => Fault AssertFailed end
  | SinglePacketBuffer.Output_Send d l =>
      ASSERT (0 <=? l) ;; ASSERT (l <=? BTap.GetMTU (tap w)) ;; ASSERT (negb (0 <? l) || negb (d =? NULL)) ;;
      match tx w with Idle => Ok (set_ports w (rx w) (Requested (d, l))) | _ => Fault AssertFailed end
  | SinglePacketBuffer.Free_buf _ => Ok w
  end.

(** The handler of [device_read_interface]: it accepts the packet first; its other calls are logged with it. *)
Definition read_call (w : world) (c : Device.call) : result world :=
  match c with
  | Device.Read_Done => match tx w with Busy _ => Ok (set_ports w (rx w) (Finished tt)) | _ => Fault AssertFailed end
  | _ => Ok w
  end.

Definition run_tap (w : world) (r : result (BTap.t * mem * list BTap.call)) : result world :=
  '(o, m, cs) ← r; run_calls tap_call (set_tap w o m) cs.

(** The descriptor's handler is called with [events]; the jobs of the interfaces run: the device is asked for a packet,
    the buffer gets it, tun2socks gets it, the buffer has it accepted; a packet is written to the
    device; others write to memory. *)
Inductive event :=
| Ready (events : Z) (ans : BTap.read_result)
| Recv_job (ans : BTap.read_result)
| Recv_done_job
| Send_job (alloc_ok take_ok input_ok : bool)
| Send_done_job
| Write_packet (data : ptr) (len : Z)
| SetMem (m : mem).

(** [read] returns at most the number of bytes asked for; what is read is logged. *)
Definition read_ok (w : world) (ans : BTap.read_result) : bool :=
  match ans with
  | BTap.Read_packet bs => bool_decide (Forall is_byte bs) && (Z.of_nat (length bs) <=? BTap.frame_mtu (tap w))
  | _ => true
  end.

Definition log_read (w : world) (ans : BTap.read_result) : world :=
  match ans with BTap.Read_packet bs => set_log w (reads w ++ [bs]) (handled w) (written w) | _ => w end.

(** The loop reports what is watched, and errors and hang-ups. *)
Definition reported (w : world) (events : Z) : bool :=
  match watched w with
  | Some ev => negb (events =? 0) && (Z.ldiff events (Z.lor ev (Z.lor BREACTOR_ERROR BREACTOR_HUP)) =? 0)
  | None => false
  end.

Definition same_buffer (w : world) (m : mem) : bool :=
  forallb (λ a, bool_decide (m !! a = mm w !! a)) (seqZ (SinglePacketBuffer.buf (spb w)) (BTap.frame_mtu (tap w))).

Definition step (w : world) (e : event) : option (result world) :=
  if quitting w then None else
  match e with
  | Ready events ans =>
      if reported w events && read_ok w ans then
        Some (let w := if has events BREACTOR_READ then log_read w ans else w in
              run_tap w (BTap.fd_handler (tap w) events ans (mm w)))
      else None
  | Recv_job ans =>
      match rx w with
      | Requested d =>
          if read_ok w ans then
            Some (let w := log_read (set_ports w (Busy d) (tx w)) ans in
                  run_tap w (BTap.output_handler_recv (tap w) d ans (mm w)))
          else None
      | _ => None
      end
  | Recv_done_job =>
      match rx w with
      | Finished l =>
          Some (run_calls spb_call (set_ports w Idle (tx w)) (SinglePacketBuffer.input_handler_done (spb w) l))
      | _ => None
      end
  | Send_job alloc_ok take_ok input_ok =>
      match tx w with
      | Requested (d, l) =>
          if take_ok then
            Some (bs ← load (mm w) d (Z.to_nat l);
                  cs ← Device.device_read_handler_send (quitting w) (cfg w) (mm w) d l alloc_ok take_ok input_ok;
                  run_calls read_call (set_log (set_ports w (rx w) (Busy (d, l))) (reads w) (handled w ++ [(bs, cs)]) (written w)) cs)
          else None
      | _ => None
      end
  | Send_done_job =>
      match tx w with
      | Finished _ =>
          Some (run_calls spb_call (set_ports w (rx w) Idle) (SinglePacketBuffer.output_handler_done (spb w)))
      | _ => None
      end
  | Write_packet d l =>
      if (0 <=? l) && (l <=? BTap.GetMTU (tap w)) && is_ok_b (load (mm w) d (Z.to_nat l)) then
        Some (cs ← BTap.Send (tap w) (mm w) d l; run_calls tap_call w cs)
      else None
  | SetMem m => if same_buffer w m then Some (Ok (set_tap w (tap w) m)) else None
  end.

Abbreviation run := (run_steps step).

(** The start of the program: the device is opened, from the descriptor the program was given if it was, then the reader, whose buffer is [buf]. *)
Inductive source :=
| Descriptor (n mtu : Z) (add : bool)                        (** the program's way: it then owns [n] *)
| Name (devname : option (list Z)) (k : BTap.answers)        (** the other way *)
| Borrowed (n mtu : Z) (k : BTap.answers).                   (** another user's [BTap_Init2] with a descriptor *)

Definition open_device (s : source) : result (option BTap.t * list BTap.call) :=
  match s with
  | Descriptor n mtu add => Ok (BTap.InitWithFD n mtu add)
  | Name devname k => BTap.Init devname true k
  | Borrowed n mtu k => BTap.Init2 BTap.BTAP_DEV_TUN (BTap.BTAP_INIT_FD n mtu) k
  end.

(** The descriptors that are open before. *)
Definition given (s : source) : gset Z := match s with Descriptor n _ _ | Borrowed n _ _ => {[n]} | Name _ _ => ∅ end.

(** Those that are to be open after. *)
Definition kept (s : source) : gset Z := match s with Borrowed n _ _ => {[n]} | _ => ∅ end.

Definition no_tap : BTap.t := BTap.mk 0 NULL false 0 0.

Definition opened (s : source) (c : Device.config) (m : mem) : result (option BTap.t * world) :=
  '(r, cs) ← open_device s;
  let o := default no_tap r in
  w ← run_calls tap_call (mkw o (SinglePacketBuffer.mk NULL) c m Idle Idle None (given s) false [] [] []) cs;
  Ok (r, w).

Definition init_world (s : source) (c : Device.config) (m : mem) (buf : ptr) : result world :=
  '(r, w) ← opened s c m;
  _ ← or_fault AssertFailed r;
  r ← SinglePacketBuffer.Init (BTap.GetMTU (tap w)) (BTap.GetMTU (tap w)) (Some buf);
  '(b, cs) ← or_fault AssertFailed r;
  run_calls spb_call (mkw (tap w) b (cfg w) (mm w) (rx w) (tx w) (watched w) (files w) false [] [] []) cs.

(** The end of the program: the reader, then the device. *)
Definition free_world (w : world) : result world :=
  w ← run_calls spb_call w (SinglePacketBuffer.Free (spb w));
  run_calls tap_call w (BTap.Free (tap w)).

End DeviceWorld.

(** ** What the device does *)

Module DeviceFacts.
Import BReactor DeviceWorld IpFacts.

(** *** tun2socks' handler *)

(** What the handler does with a packet [bs] in the buffer: the datagrams in it are submitted to the gateway, and
    only what is not submitted is copied for lwip. *)
Record handled_ok (o : Device.config) (buf : ptr) (bs : list Z) (cs : list Device.call) : Prop := {
  h_submit : ∀ l rm d p n, Device.SubmitPacket l rm d p n ∈ cs ↔
    Device.udpgw_remote_server_addr o = true ∧
    ∃ off payload, datagram o bs l rm d off payload ∧ length_z payload ≤ Device.udp_mtu o ∧
      p = buf + off ∧ n = length_z payload;
  h_lwip : ∀ p n, Device.Pbuf_Take p n ∈ cs →
    p = buf ∧ n = length_z bs ∧ ∀ l rm d p n, Device.SubmitPacket l rm d p n ∉ cs;
}.

Lemma read_handler o m buf bs alloc_ok input_ok :
  holds_at m buf bs → Forall is_byte bs → length_z bs ≤ INT_MAX →
  ∃ cs, Device.device_read_handler_send false o m buf (length_z bs) alloc_ok true input_ok = Ok (Device.Read_Done :: cs) ∧
    (Device.Read_Done ∉ cs) ∧ handled_ok o buf bs (Device.Read_Done :: cs).
Proof.
  intros Hh Hb Hmax. unfold Device.device_read_handler_send. pose proof (length_z_nonneg bs). do 2 run_assert.
  destruct (process_datagrams o m buf bs Hh Hb Hmax) as (r & -> & Hr). rewrite ok_bind.
  assert (Hno : r = None → ∀ l rm d p n, Device.udpgw_remote_server_addr o = true →
    (∃ off payload, datagram o bs l rm d off payload ∧ length_z payload ≤ Device.udp_mtu o ∧
      p = buf + off ∧ n = length_z payload) → False).
  { intros -> l rm d p n Hg (off & pl & Hd & Hl & -> & ->).
    enough (None = Some (Device.SubmitPacket l rm d (buf + off) (length_z pl))) by done.
    apply Hr. split; [done|]. eauto 10. }
  destruct r as [c|].
  - exists [c]. split; [done|]. destruct (proj1 (Hr c) eq_refl) as (Hg & l & rm & d & off & pl & Hd & Hl & ->).
    split; [rewrite list_elem_of_singleton; done|]. split.
    + intros l' rm' d' p n. rewrite elem_of_cons, list_elem_of_singleton. split.
      * intros [[=]|[= -> -> -> -> ->]]. eauto 10.
      * intros (_ & off' & pl' & Hd' & Hl' & -> & ->). right.
        by destruct (datagram_unique _ _ _ _ _ _ _ _ _ _ _ _ Hd Hd') as (-> & -> & -> & -> & ->).
    + intros p n. rewrite elem_of_cons, list_elem_of_singleton. by intros [[=]|[=]].
  - specialize (Hno eq_refl).
    assert (Hall : ∀ cs, (∀ l rm d p n, Device.SubmitPacket l rm d p n ∉ cs) →
      (∀ p n, Device.Pbuf_Take p n ∈ cs → p = buf ∧ n = length_z bs) → handled_ok o buf bs cs).
    { intros cs Hs Ht. split.
      - intros l rm d p n. split; [intros H'; by apply Hs in H' | intros [Hg Hd]; by destruct (Hno l rm d p n Hg Hd)].
      - intros p n Hp. destruct (Ht _ _ Hp) as [-> ->]. done. }
    assert (Hdone : handled_ok o buf bs [Device.Read_Done]).
    { apply Hall; intros *; rewrite list_elem_of_singleton; done. }
    case_if; [exists []; split_and!; [done | apply not_elem_of_nil | done]|].
    case_if; [exists []; split_and!; [done | apply not_elem_of_nil | done]|]. run_assert.
    eexists. split; [reflexivity|]. split.
    + destruct input_ok; simpl; rewrite !elem_of_cons, elem_of_nil; intros Hin; naive_solver.
    + apply Hall.
      * intros *. destruct input_ok; simpl; rewrite !elem_of_cons, elem_of_nil; intros Hin; naive_solver.
      * intros p n. destruct input_ok; simpl; rewrite !elem_of_cons, elem_of_nil; intros Hin; naive_solver.
Qed.

Lemma read_calls w cs : Device.Read_Done ∉ cs → run_calls read_call w cs = Ok w.
Proof.
  induction cs as [|c cs IH]; [done|]. rewrite not_elem_of_cons. intros [Hc Hcs].
  assert (read_call w c = Ok w) as E by (destruct c; done). simpl. rewrite E. by apply IH.
Qed.

(** *** The invariant *)

Section invariant.
Context (s : source) (c : Device.config) (b : ptr).

(** The buffer holds the packet that was read and not yet handled. *)
Definition in_buffer (w : world) (bs : list Z) (l : Z) : Prop :=
  holds_at (mm w) (SinglePacketBuffer.buf (spb w)) bs ∧ Forall is_byte bs ∧ l = length_z bs ∧
  l ≤ BTap.frame_mtu (tap w).

Definition idle_tap (w : world) : Prop := BTap.output_packet (tap w) = NULL ∧ BTap.poll_events (tap w) = 0.

(** Where the one packet is, and the packets not handled. *)
Inductive stage (w : world) : list (list Z) → Prop :=
| Stage_ask :
    rx w = Requested (SinglePacketBuffer.buf (spb w)) → tx w = Idle → idle_tap w → quitting w = false → stage w []
| Stage_wait :
    rx w = Busy (SinglePacketBuffer.buf (spb w)) → tx w = Idle → quitting w = false →
    BTap.output_packet (tap w) = SinglePacketBuffer.buf (spb w) → BTap.poll_events (tap w) = BREACTOR_READ → stage w []
| Stage_failed d : rx w = Busy d → tx w = Idle → quitting w = true → stage w []
| Stage_read bs l :
    rx w = Finished l → tx w = Idle → idle_tap w → quitting w = false → in_buffer w bs l → stage w [bs]
| Stage_sent bs l :
    rx w = Idle → tx w = Requested (SinglePacketBuffer.buf (spb w), l) → idle_tap w → quitting w = false →
    in_buffer w bs l → stage w [bs]
| Stage_accepted u : rx w = Idle → tx w = Finished u → idle_tap w → quitting w = false → stage w [].

Record core (w : world) : Prop := {
  i_mtu : 0 ≤ BTap.frame_mtu (tap w) ≤ INT_MAX;
  i_buf : 0 < SinglePacketBuffer.buf (spb w);
  i_same : SinglePacketBuffer.buf (spb w) = b ∧ cfg w = c;
  i_mapped : mapped (mm w) (SinglePacketBuffer.buf (spb w)) (BTap.frame_mtu (tap w));
  i_watched : watched w = Some (BTap.poll_events (tap w));
  i_files : files w = {[BTap.fd (tap w)]};
  i_kept : kept s = if BTap.close_fd (tap w) then ∅ else {[BTap.fd (tap w)]};
  i_handled : Forall (λ x, handled_ok (cfg w) (SinglePacketBuffer.buf (spb w)) (fst x) (snd x)) (handled w);
}.

Definition inv (w : world) : Prop :=
  core w ∧ ∃ pend, stage w pend ∧ reads w = (handled w).*1 ++ pend.

Lemma has_bit e f k : 0 ≤ k → f = 2 ^ k → has e f = Z.testbit e k.
Proof.
  intros Hk ->. unfold has. destruct (Z.testbit e k) eqn:Hb.
  - apply negb_true_iff, Z.eqb_neq. intros H. apply (f_equal (λ z, Z.testbit z k)) in H.
    by rewrite Z.land_spec, Z.pow2_bits_true, Hb, Z.bits_0 in H by done.
  - apply negb_false_iff, Z.eqb_eq, Z.bits_inj_iff'. intros n Hn.
    rewrite Z.land_spec, Z.bits_0, Z.pow2_bits_eqb by done.
    destruct (Z.eqb_spec k n) as [->|]; [by rewrite Hb | by rewrite andb_false_r].
Qed.

Lemma not_watched e : Z.ldiff e (Z.lor 0 (Z.lor BREACTOR_ERROR BREACTOR_HUP)) = 0 → has e BREACTOR_READ = false.
Proof.
  intros H. rewrite (has_bit e _ 0) by done. apply (f_equal (λ z, Z.testbit z 0)) in H.
  rewrite Z.ldiff_spec, Z.bits_0 in H. by rewrite andb_true_r in H.
Qed.

Lemma store_buffer m p n bs :
  mapped m p n → Z.of_nat (length bs) ≤ n →
  ∃ m', store m p bs = Ok m' ∧ mapped m' p n ∧ holds_at m' p bs.
Proof.
  intros Hm Hl. destruct (store_mapped_ok m p bs) as [m' Hs]; [by apply (mapped_sub m p n); [|lia..]|].
  exists m'. split; [done|]. split; [by eapply store_mapped | by eapply store_holds].
Qed.

(** A read gives a packet. *)
Lemma packet_read w bs m (o := BTap.set_waiting (tap w) NULL 0) :
  core w → quitting w = false → tx w = Idle → rx w = Busy (SinglePacketBuffer.buf (spb w)) →
  reads w = (handled w).*1 → Forall is_byte bs → Z.of_nat (length bs) ≤ BTap.frame_mtu (tap w) →
  mapped m (SinglePacketBuffer.buf (spb w)) (BTap.frame_mtu (tap w)) →
  holds_at m (SinglePacketBuffer.buf (spb w)) bs → BTap.poll_events o = 0 →
  inv (mkw o (spb w) (cfg w) m (Finished (Z.of_nat (length bs))) (tx w) (Some 0)
           (files w) (quitting w) (reads w ++ [bs]) (handled w) (written w)).
Proof.
  intros Hi Hq Ht Hr Hlog Hb Hl Hm Hh Hp. destruct Hi. split; [by split|].
  exists [bs]. simpl. rewrite Hlog. split; [|done]. by eapply Stage_read.
Qed.

(** What the handlers do when the device is asked for a packet at [buf], or waits for one. *)
Lemma tap_step w ans o :
  core w → quitting w = false → tx w = Idle → rx w = Busy (SinglePacketBuffer.buf (spb w)) →
  reads w = (handled w).*1 → read_ok w ans = true →
  (o = BTap.output_handler_recv (tap w) (SinglePacketBuffer.buf (spb w)) ans (mm w) ∧ idle_tap w) ∨
  (o = BTap.fd_handler (tap w) BREACTOR_READ ans (mm w) ∧
     BTap.output_packet (tap w) = SinglePacketBuffer.buf (spb w) ∧ BTap.poll_events (tap w) = BREACTOR_READ) →
  ∃ w', run_tap (log_read w ans) o = Ok w' ∧ inv w'.
Proof.
  intros Hi Hq Ht Hr Hlog Hok Ho. pose proof (i_buf _ Hi) as Hbuf. pose proof (i_watched _ Hi) as Hw.
  pose proof (i_mtu _ Hi) as Hmtu.
  assert (Hn : (SinglePacketBuffer.buf (spb w) =? NULL) = false) by (apply Z.eqb_neq; unfold NULL; lia).
  destruct ans as [bs| |]; simpl in Hok.
  - apply andb_true_iff in Hok as [Hb Hl]. rewrite bool_decide_eq_true in Hb. apply Z.leb_le in Hl.
    destruct (store_buffer _ _ _ bs (i_mapped _ Hi) Hl) as (m & Hs & Hm & Hh).
    assert (Hrd : ∀ o0, o0 = BTap.set_waiting (tap w) NULL 0 →
      inv (mkw o0 (spb w) (cfg w) m (Finished (Z.of_nat (length bs))) (tx w) (Some 0)
           (files w) (quitting w) (reads w ++ [bs]) (handled w) (written w))).
    { intros o0 ->. by apply packet_read. }
    destruct Ho as [[-> [Hn0 Hp]]|(-> & Hn0 & Hp)].
    + unfold BTap.output_handler_recv. rewrite Hn, Hn0, Hs. do 2 run_assert. rewrite ok_bind. run_assert.
      unfold run_tap. rewrite ok_bind. cbn [run_calls tap_call]. unfold BTap.GetMTU.
      cbn [tap set_tap rx log_read set_log]. do 2 run_assert. rewrite Hr. rewrite ok_bind.
      eexists. split; [reflexivity|]. unfold set_ports, set_tap, set_log. simpl. rewrite Hw, Hp. apply Hrd.
      destruct (tap w); simpl in *. by subst.
    + unfold BTap.fd_handler. rewrite Hn0, Hn, Hs. change (has BREACTOR_READ BREACTOR_READ) with true.
      cbn [negb]. run_assert. rewrite ok_bind. run_assert. unfold run_tap. rewrite ok_bind, Hp.
      change (Z.ldiff BREACTOR_READ BREACTOR_READ) with 0. cbn [run_calls tap_call set_tap log_read set_log watched].
      rewrite Hw. simpl bool_decide. do 2 run_assert. rewrite ok_bind. unfold BTap.GetMTU.
      cbn [tap set_fd rx]. simpl BTap.frame_mtu. do 2 run_assert. cbn [rx set_tap set_log]. rewrite Hr.
      eexists. split; [reflexivity|]. unfold set_ports, set_fd. simpl. by apply Hrd.
  - destruct Ho as [[-> [Hn0 Hp]]|(-> & Hn0 & Hp)].
    + unfold BTap.output_handler_recv. rewrite Hn, Hn0. do 2 run_assert. unfold run_tap. rewrite ok_bind, Hp.
      cbn [run_calls tap_call set_tap log_read watched]. rewrite Hw. simpl bool_decide. do 2 run_assert.
      rewrite ok_bind. eexists. split; [reflexivity|]. destruct Hi. split; [by split|].
      exists []. rewrite app_nil_r. split; [|done]. by apply Stage_wait.
    + unfold BTap.fd_handler. rewrite Hn0, Hn. change (has BREACTOR_READ BREACTOR_READ) with true.
      cbn [negb]. run_assert. unfold run_tap. rewrite ok_bind.
      eexists. split; [reflexivity|]. destruct Hi. split; [by split|].
      exists []. rewrite app_nil_r. split; [|done]. by apply Stage_wait.
  - assert (run_tap (log_read w BTap.Read_failed) o =
            Ok (set_quitting (set_tap w (tap w) (mm w)))) as ->.
    { unfold run_tap, log_read. destruct Ho as [[-> [Hn0 Hp]]|(-> & Hn0 & Hp)].
      - unfold BTap.output_handler_recv. rewrite Hn, Hn0. do 2 run_assert. rewrite ok_bind.
        cbn [run_calls tap_call BTap.report_error]. unfold device_error_handler. simpl quitting. by rewrite Hq.
      - unfold BTap.fd_handler. rewrite Hn0, Hn. change (has BREACTOR_READ BREACTOR_READ) with true.
        cbn [negb]. run_assert. rewrite ok_bind. cbn [run_calls tap_call BTap.report_error].
        unfold device_error_handler. simpl quitting. by rewrite Hq. }
    eexists. split; [reflexivity|]. destruct Hi. split; [by split|].
    exists []. rewrite app_nil_r. split; [|done]. by eapply Stage_failed.
Qed.

Lemma log_read_tap w ans : tap (log_read w ans) = tap w ∧ mm (log_read w ans) = mm w.
Proof. by destruct ans. Qed.

(** A world that differs in what is not of the device or its reader. *)
Lemma inv_same w w' :
  inv w → tap w' = tap w → spb w' = spb w → cfg w' = cfg w → rx w' = rx w → tx w' = tx w → watched w' = watched w →
  files w' = files w → quitting w' = quitting w → reads w' = reads w → handled w' = handled w →
  (∀ a, SinglePacketBuffer.buf (spb w) ≤ a < SinglePacketBuffer.buf (spb w) + BTap.frame_mtu (tap w) →
     mm w' !! a = mm w !! a) → inv w'.
Proof.
  intros Hi E1 E2 E3 E4 E5 E6 E7 E8 E9 E10 Hm. destruct Hi as [[? ? ? Hmap ? ? ? ?] (pend & Hst & Hlog)].
  split; [split|]; rewrite ?E1, ?E2, ?E3, ?E4, ?E5, ?E6, ?E7, ?E8, ?E9, ?E10; try done.
  - intros a Ha. rewrite Hm by done. by apply Hmap.
  - exists pend. split; [|done].
    assert (Hb : ∀ bs l, in_buffer w bs l → in_buffer w' bs l).
    { intros bs l (Hh & Hb & -> & Hl). split_and!; rewrite ?E1, ?E2; try done. intros i x Hi.
      rewrite Hm; [by apply Hh|]. apply lookup_lt_Some in Hi. unfold length_z in Hl. lia. }
    unfold idle_tap in *. destruct Hst; [eapply Stage_ask|eapply Stage_wait|eapply Stage_failed|eapply Stage_read|eapply Stage_sent|eapply Stage_accepted];
      unfold idle_tap; rewrite ?E1, ?E2, ?E4, ?E5, ?E8; eauto.
Qed.

Lemma device_step w e r : inv w → step w e = Some r → ∃ w', r = Ok w' ∧ inv w'.
Proof.
  intros Hi Hs. unfold step in Hs. destruct (quitting w) eqn:Hq; [done|].
  pose proof Hi as [Hc (pend & Hst & Hlog)].
  pose proof (i_buf _ Hc) as Hbuf. pose proof (i_mtu _ Hc) as Hmtu. pose proof (i_watched _ Hc) as Hw.
  destruct e as [events ans|ans| |alloc_ok take_ok input_ok| |d l|m].
  - case_if; [|done]. apply (inj Some) in Hs as <-. unfold reported in *. rewrite Hw in *. zify_bool.
    destruct (has events BREACTOR_READ) eqn:Hread.
    + assert (pend = [] ∧ rx w = Busy (SinglePacketBuffer.buf (spb w)) ∧ tx w = Idle ∧
        BTap.output_packet (tap w) = SinglePacketBuffer.buf (spb w) ∧ BTap.poll_events (tap w) = BREACTOR_READ)
        as (-> & Hr & Ht & Hpk & Hev).
      { assert (BTap.poll_events (tap w) ≠ 0) as Hne.
        { intros Hev. rewrite Hev in *.
          match goal with H : Z.ldiff _ _ = 0 |- _ => apply not_watched in H; congruence end. }
        destruct Hst; unfold idle_tap in *; (congruence || naive_solver). }
      rewrite app_nil_r in Hlog. destruct (log_read_tap w ans) as [-> ->]. eapply tap_step; eauto. right. split_and!; try done.
      unfold BTap.fd_handler. rewrite Hread. reflexivity.
    + unfold BTap.fd_handler. rewrite Hread. exists (set_tap w (tap w) (mm w)). split; [done|]. by apply (inv_same w).
  - destruct (rx w) as [|d| |] eqn:Hr; try done. case_if; [|done]. apply (inj Some) in Hs as <-.
    destruct Hst; try congruence. assert (d = SinglePacketBuffer.buf (spb w)) as -> by congruence.
    rewrite app_nil_r in Hlog. destruct (log_read_tap (set_ports w (Busy (SinglePacketBuffer.buf (spb w))) (tx w)) ans) as [-> ->].
    eapply (tap_step (set_ports w (Busy (SinglePacketBuffer.buf (spb w))) (tx w))); eauto.
    by destruct Hc.
  - destruct (rx w) as [| | |l] eqn:Hr; try done. apply (inj Some) in Hs as <-.
    destruct Hst as [| | |bs l' Hr' Ht Hid _ Hb| |]; try congruence. assert (l' = l) as -> by congruence.
    pose proof Hb as (Hh & Hbs & -> & Hl). pose proof (length_z_nonneg bs).
    unfold SinglePacketBuffer.input_handler_done. cbn [run_calls spb_call]. unfold BTap.GetMTU.
    cbn [tap set_ports]. do 2 run_assert. rewrite (proj2 (Z.eqb_neq _ NULL)) by (unfold NULL; lia).
    rewrite orb_true_r. run_assert. cbn [tx set_ports]. rewrite Ht, ok_bind. eexists. split; [reflexivity|].
    destruct Hc. split; [by split|]. exists [bs]. split; [|done]. by eapply Stage_sent.
  - destruct (tx w) as [|[d l]| |] eqn:Ht; try done. case_if; [|done]. subst. apply (inj Some) in Hs as <-.
    destruct Hst as [| | | |bs l' Hr Ht' Hid _ Hb|]; try congruence.
    assert (d = SinglePacketBuffer.buf (spb w) ∧ l = l') as [-> ->] by (split; congruence).
    pose proof Hb as (Hh & Hbs & -> & Hl). rewrite (proj2 (load_ok _ _ _ bs)), ok_bind
      by (split; [unfold length_z; by rewrite Nat2Z.id | done]).
    destruct (read_handler (cfg w) (mm w) _ bs alloc_ok input_ok Hh Hbs ltac:(lia)) as (cs & -> & Hno & Hok).
    rewrite ok_bind. cbn [run_calls read_call set_log set_ports tx]. rewrite ok_bind, read_calls by done.
    eexists. split; [reflexivity|]. destruct Hc. split.
    + split; try done. simpl. by apply Forall_app_2, Forall_singleton.
    + exists []. simpl. rewrite Hlog, fmap_app, app_nil_r. split; [|done]. by eapply Stage_accepted.
  - destruct (tx w) as [| | |u] eqn:Ht; try done. apply (inj Some) in Hs as <-.
    destruct Hst; try congruence.
    unfold SinglePacketBuffer.output_handler_done. cbn [run_calls spb_call].
    rewrite (proj2 (Z.eqb_neq _ NULL)) by (unfold NULL; lia). rewrite orb_true_r. run_assert.
    cbn [rx set_ports]. match goal with H : rx w = Idle |- _ => rewrite H end. rewrite ok_bind.
    eexists. split; [reflexivity|]. destruct Hc. split; [by split|]. exists []. split; [|done]. by eapply Stage_ask.
  - case_if; [|done]. apply (inj Some) in Hs as <-. unfold BTap.GetMTU in *. unfold BTap.Send. do 2 run_assert.
    match goal with H : is_ok_b _ = true |- _ => destruct (load (mm w) d (Z.to_nat l)) as [bs|]; [clear H|done] end.
    rewrite !ok_bind. eexists. split; [reflexivity|]. by apply (inv_same w).
  - case_if; [|done]. injection Hs as <-. eexists. split; [done|]. apply (inv_same w); try done. simpl.
    intros a Ha. match goal with H : same_buffer w m = true |- _ => unfold same_buffer in H;
      rewrite forallb_forall in H; specialize (H a); rewrite bool_decide_eq_true in H; apply H end.
    apply list_elem_of_In, elem_of_seqZ. done.
Qed.

End invariant.

(** *** The start and the end *)

(** A descriptor the kernel returns is not one that is open, and a device has an MTU an [int] can hold. *)
Definition good_source (s : source) : Prop :=
  match s with
  | Descriptor _ mtu _ => 0 ≤ mtu ≤ INT_MAX
  | Name _ k => (∀ n n', BTap.on_open k = Some n → BTap.on_socket k = Some n' → n ≠ n') ∧
                ∀ name mtu, BTap.on_getmtu k name = Some mtu → 0 ≤ mtu ≤ INT_MAX
  | Borrowed n mtu _ => 0 ≤ n ∧ 0 ≤ mtu ≤ INT_MAX
  end.

(** A device that is open. *)
Record open_ok (s : source) (o : BTap.t) (w : world) : Prop := {
  p_tap : tap w = o;
  p_mtu : 0 ≤ BTap.frame_mtu o ≤ INT_MAX;
  p_idle : BTap.output_packet o = NULL ∧ BTap.poll_events o = 0;
  p_watched : watched w = Some 0;
  p_files : files w = {[BTap.fd o]};
  p_kept : kept s = if BTap.close_fd o then ∅ else {[BTap.fd o]};
  p_ports : rx w = Idle ∧ tx w = Idle;
  p_log : reads w = [] ∧ handled w = [] ∧ quitting w = false;
}.

Definition open_result (s : source) (r : option BTap.t) (w : world) : Prop :=
  match r with
  | Some o => open_ok s o w
  | None => files w = kept s ∧ watched w = None
  end.

(** Opening and closing a descriptor. *)
Lemma call_open w n : n ∉ files w → tap_call w (BTap.Open n) = Ok (set_fd w (watched w) ({[n]} ∪ files w)).
Proof. intros H. simpl. by rewrite bool_decide_true. Qed.

Lemma call_close w n : n ∈ files w → tap_call w (BTap.Close n) = Ok (set_fd w (watched w) (files w ∖ {[n]})).
Proof. intros H. simpl. by rewrite bool_decide_true. Qed.

Lemma init_finish_ok s (close : bool) n mtu add cs (w0 w : world) :
  0 ≤ mtu ≤ INT_MAX → run_calls tap_call w0 cs = Ok w → files w = {[n]} → watched w = None →
  rx w = Idle → tx w = Idle → reads w = [] → handled w = [] → quitting w = false →
  kept s = (if close then ∅ else {[n]}) →
  tap w = default no_tap (fst (BTap.finish close n mtu add cs)) →
  ∃ w', run_calls tap_call w0 (snd (BTap.finish close n mtu add cs)) = Ok w' ∧
    open_result s (fst (BTap.finish close n mtu add cs)) w'.
Proof.
  intros Hmtu Hr Hf Hw H1 H2 H3 H4 H5 Hk Ht. unfold BTap.finish in *. destruct add; simpl in *.
  - rewrite run_calls_app, Hr, ok_bind. cbn [run_calls tap_call]. rewrite Hf, Hw.
    rewrite bool_decide_true by set_solver. do 2 run_assert. rewrite ok_bind. eexists. split; [reflexivity|].
    by split.
  - rewrite run_calls_app, Hr, ok_bind. destruct close.
    + cbn [run_calls]. rewrite call_close, ok_bind by (rewrite Hf; set_solver). eexists. split; [reflexivity|].
      simpl. rewrite Hf, Hk. split; [set_solver | done].
    + eexists. split; [reflexivity|]. simpl. by rewrite Hf, Hk.
Qed.

Lemma tap_calls_keep cs : ∀ w w', run_calls tap_call w cs = Ok w' →
  tap w' = tap w ∧ cfg w' = cfg w ∧ mm w' = mm w ∧ spb w' = spb w.
Proof.
  induction cs as [|c cs IH]; intros w w' H; cbn [run_calls] in H; [by simplify_eq|].
  apply bind_ok in H as (w1 & Hc & H). destruct (IH _ _ H) as (-> & -> & -> & ->).
  destruct c; cbn [tap_call] in Hc; unfold device_error_handler in Hc; inv_ok; try done.
  destruct (rx w); inv_ok. done.
Qed.

(** The device before its descriptor is there. *)
Definition before (s : source) (c : Device.config) (m : mem) (o : BTap.t) : world :=
  mkw o (SinglePacketBuffer.mk NULL) c m Idle Idle None (given s) false [] [] [].

(** A result whose calls can be made. *)
Definition opens (s : source) (c : Device.config) (m : mem) (r : option BTap.t * list BTap.call) : Prop :=
  ∃ w, run_calls tap_call (before s c m (default no_tap (fst r))) (snd r) = Ok w ∧ open_result s (fst r) w.

Lemma finish_opens s c m (close : bool) n mtu add cs :
  0 ≤ mtu ≤ INT_MAX → kept s = (if close then ∅ else {[n]}) →
  (∀ o, ∃ w, run_calls tap_call (before s c m o) cs = Ok w ∧ files w = {[n]} ∧ watched w = None ∧
     rx w = Idle ∧ tx w = Idle ∧ reads w = [] ∧ handled w = [] ∧ quitting w = false) →
  opens s c m (BTap.finish close n mtu add cs) ∧
  opens s c m (None, cs ++ (if close then [BTap.Close n] else [])).
Proof.
  intros Hmtu Hk Hpre. split.
  - destruct (Hpre (default no_tap (fst (BTap.finish close n mtu add cs)))) as (w & Hr & ? & ? & ? & ? & ? & ? & ?).
    eapply (init_finish_ok s close n mtu add cs _ w); try done. by destruct (tap_calls_keep _ _ _ Hr) as (-> & _).
  - destruct (Hpre no_tap) as (w & Hr & Hf & Hw & _). unfold opens. cbn [fst snd default].
    rewrite run_calls_app, Hr, ok_bind. destruct close.
    + cbn [run_calls]. rewrite call_close, ok_bind by (rewrite Hf; set_solver). eexists. split; [reflexivity|].
      simpl. rewrite Hf, Hk. split; [set_solver | done].
    + eexists. split; [reflexivity|]. simpl. by rewrite Hf, Hk.
Qed.

(** The calls for a device that is opened by name. *)
Lemma open_one s c m o n : given s = ∅ →
  ∃ w, run_calls tap_call (before s c m o) [BTap.Open n] = Ok w ∧ files w = {[n]} ∧ w = set_fd (before s c m o) None {[n]}.
Proof.
  intros Hg. cbn [run_calls]. rewrite call_open, ok_bind by (simpl; rewrite Hg; set_solver).
  assert ({[n]} ∪ files (before s c m o) = {[n]}) as -> by (simpl; rewrite Hg; set_solver).
  eexists. split; [reflexivity|]. by split.
Qed.

Lemma open_two s c m o n n' : given s = ∅ → n ≠ n' →
  run_calls tap_call (before s c m o) [BTap.Open n; BTap.Open n'; BTap.Close n'] = Ok (set_fd (before s c m o) None {[n]}).
Proof.
  intros Hg Hne. change [BTap.Open n; BTap.Open n'; BTap.Close n'] with ([BTap.Open n] ++ [BTap.Open n'; BTap.Close n']).
  rewrite run_calls_app. destruct (open_one s c m o n Hg) as (w & -> & Hf & ->). rewrite ok_bind. cbn [run_calls].
  rewrite call_open, ok_bind by (simpl; set_solver). rewrite call_close, ok_bind by (simpl; set_solver).
  unfold set_fd. simpl. do 2 f_equal. set_solver.
Qed.

Lemma open_device_ok s c m : good_source s → ∃ r, open_device s = Ok r ∧ opens s c m r.
Proof.
  destruct s as [n mtu add|devname k|n mtu k]; simpl; intros Hs.
  - eexists. split; [done|]. apply finish_opens; [done..|]. intros o. eexists. split; [done|]. done.
  - destruct Hs as [Hne Hmtu]. unfold BTap.Init, BTap.Init2, BTap.configure, BTap.query_mtu.
    destruct (BTap.on_open k) as [n|] eqn:Ho; [|eexists; split; [done|]; eexists; split; [done|]; done].
    assert (Hclose : opens (Name devname k) c m (None, [BTap.Open n; BTap.Close n])).
    { eapply (finish_opens _ _ _ true n 0 true [BTap.Open n]); [unfold INT_MAX; lia | done |]. intros o.
      destruct (open_one (Name devname k) c m o n eq_refl) as (w & ? & ? & ->). eexists. split; [done|]. done. }
    destruct (BTap.on_tunsetiff _ _ _) as [name|]; [|eexists; split; [done|]; exact Hclose].
    destruct (BTap.on_socket k) as [n'|] eqn:Hsock; [|eexists; split; [done|]; exact Hclose].
    pose proof (λ o, open_two (Name devname k) c m o n n' eq_refl (Hne _ _ eq_refl eq_refl)) as H2.
    destruct (BTap.on_getmtu k name) as [mtu|] eqn:Hm.
    + specialize (Hmtu _ _ Hm).
      destruct (finish_opens (Name devname k) c m true n mtu (BTap.on_add k) [BTap.Open n; BTap.Open n'; BTap.Close n'])
        as [Hfin Hfail]; [done..| |].
      { intros o. eexists. split; [apply H2|]. done. }
      destruct (BTap.on_fcntl k); eexists; (split; [done|]); [exact Hfin | exact Hfail].
    + eexists. split; [done|].
      destruct (finish_opens (Name devname k) c m true n 0 true [BTap.Open n; BTap.Open n'; BTap.Close n'])
        as [_ Hfail]; [unfold INT_MAX; lia | done | | exact Hfail].
      intros o. eexists. split; [apply H2|]. done.
  - destruct Hs as [Hn Hmtu]. unfold BTap.fd_ok. run_assert.
    destruct (finish_opens (Borrowed n mtu k) c m false n mtu (BTap.on_add k) []) as [Hfin Hfail]; [done..| |].
    { intros o. eexists. split; [done|]. done. }
    destruct (BTap.on_fcntl k); eexists; (split; [done|]); [exact Hfin | exact Hfail].
Qed.

Lemma opened_ok s c m : good_source s → ∃ r w, opened s c m = Ok (r, w) ∧ open_result s r w ∧ cfg w = c ∧ mm w = m.
Proof.
  intros Hs. destruct (open_device_ok s c m Hs) as ([r cs] & Ho & w & Hr & Hres). unfold opened.
  rewrite Ho, ok_bind. cbv zeta. unfold before in Hr. cbn [fst snd] in *. rewrite Hr, ok_bind.
  destruct (tap_calls_keep _ _ _ Hr) as (_ & Hc & Hm & _). by exists r, w.
Qed.

(** Closing the device at any time. *)
Lemma tap_free s w :
  watched w = Some (BTap.poll_events (tap w)) → files w = {[BTap.fd (tap w)]} →
  kept s = (if BTap.close_fd (tap w) then ∅ else {[BTap.fd (tap w)]}) →
  ∃ w', run_calls tap_call w (BTap.Free (tap w)) = Ok w' ∧ files w' = kept s ∧ watched w' = None.
Proof.
  intros Hw Hf Hk. unfold BTap.Free. cbn [run_calls tap_call app]. rewrite ok_bind.
  cbn [watched set_ports]. rewrite Hw. simpl bool_decide. run_assert. rewrite ok_bind.
  destruct (BTap.close_fd (tap w)).
  - cbn [run_calls]. rewrite call_close, ok_bind by (simpl; rewrite Hf; set_solver). eexists. split; [reflexivity|].
    simpl. rewrite Hf, Hk. split; [set_solver | done].
  - eexists. split; [reflexivity|]. simpl. by rewrite Hf, Hk.
Qed.

Lemma device_init s c m buf w :
  good_source s → 0 < buf → init_world s c m buf = Ok w → mapped m buf (BTap.frame_mtu (tap w)) → inv s c buf w.
Proof.
  intros Hs Hbuf Hi Hm. unfold init_world in Hi. destruct (opened_ok s c m Hs) as (r & w1 & Ho & Hres & Hc & Hmm).
  rewrite Ho, ok_bind in Hi. destruct r as [o|]; [|done]. destruct Hres. cbn [or_fault] in Hi. rewrite ok_bind in Hi.
  unfold SinglePacketBuffer.Init in Hi. inv_ok.
  destruct p_ports0 as [Hrx Htx], p_log0 as (Hr & Hh & Hq), p_idle0 as [? Hp].
  match goal with H : match rx w1 with _ => _ end = Ok w |- _ => rewrite Hrx in H; injection H as <- end.
  split.
  - split; simpl in *; rewrite ?Hp; done.
  - exists []. split; [by apply Stage_ask | done].
Qed.

(** *** The theorems *)

(** Something is going to happen: a job is pending, or the device is watched for a packet that a read is waiting for. *)
Definition alive (w : world) : Prop :=
  (∃ d, rx w = Requested d) ∨ (∃ l, rx w = Finished l) ∨ (∃ p, tx w = Requested p) ∨ tx w = Finished tt ∨
  (watched w = Some BREACTOR_READ ∧ BTap.output_packet (tap w) ≠ NULL).

(** C19: Every packet the kernel delivers from the device is handled by tun2socks once,
    unchanged and in order, with at most one of them waiting, and its handler submits to the
    UDP gateway exactly the datagrams in them and gives lwip only the others; nothing fails,
    whatever the kernel answers; unless an error was reported there is always a job pending
    or the device watched for the packet a read is waiting for, and it is watched only then;
    and closing the device at any time leaves open only a descriptor that was borrowed. *)
Theorem device_correct s c m buf w0 es r :
  good_source s → 0 < buf → init_world s c m buf = Ok w0 → mapped m buf (BTap.frame_mtu (tap w0)) →
  run w0 es = Some r →
  ∃ w pend, r = Ok w ∧ reads w = (handled w).*1 ++ pend ∧ (length pend ≤ 1)%nat ∧
    Forall (λ x, handled_ok (cfg w) buf (fst x) (snd x)) (handled w) ∧
    (quitting w = false → alive w ∧
       (watched w = Some 0 ∨ watched w = Some BREACTOR_READ ∧ BTap.output_packet (tap w) = buf)) ∧
    ∃ w', free_world w = Ok w' ∧ files w' = kept s ∧ watched w' = None.
Proof.
  intros Hs Hbuf H0 Hm Hr. pose proof (device_init s c m buf w0 Hs Hbuf H0 Hm) as Hi.
  destruct (run_steps_inv _ (inv s c buf) (device_step s c buf) _ _ _ Hi Hr) as (w & -> & Hc & pend & Hst & Hlog).
  destruct Hc as [Hmtu _ [Hb Hcf] Hmap Hw Hf Hk Hh]. rewrite Hb in Hh. exists w, pend. split; [done|]. split; [done|].
  split; [destruct Hst; simpl; lia|]. split; [done|]. unfold alive, idle_tap in *. rewrite Hw. split.
  - intros Hq. destruct Hst as [Hr' Ht [_ Hp] _|Hr' Ht _ Hn Hp|d Hr' Ht Hq'|bs l Hr' Ht [_ Hp] _ _|
      bs l Hr' Ht [_ Hp] _ _|[] Hr' Ht [_ Hp] _]; [| |congruence|..]; rewrite Hp; (split; [|eauto]); eauto 8.
    + do 4 right. split; [done|]. unfold NULL. lia.
    + right. split; [done | congruence].
  - unfold free_world, SinglePacketBuffer.Free. cbn [run_calls spb_call]. rewrite !ok_bind. by apply tap_free.
Qed.

(** C39: However the device is opened and wherever that fails, every descriptor that was opened
    on the way is closed again, and so is the one that was handed over; a device that is
    open has exactly its descriptor, watched for nothing, and closing it closes that unless
    it was borrowed. *)
Theorem device_descriptors s c m :
  good_source s →
  ∃ r w, opened s c m = Ok (r, w) ∧
    match r with
    | None => files w = kept s ∧ watched w = None
    | Some o => tap w = o ∧ files w = {[BTap.fd o]} ∧ watched w = Some 0 ∧
                ∃ w', run_calls tap_call w (BTap.Free o) = Ok w' ∧ files w' = kept s ∧ watched w' = None
    end.
Proof.
  intros Hs. destruct (opened_ok s c m Hs) as (r & w & Ho & Hres & _). exists r, w. split; [done|].
  destruct r as [o|]; [|exact Hres]. destruct Hres as [<- _ [_ Hp] Hw Hf Hk _ _]. split_and!; try done.
  apply (tap_free s); by rewrite ?Hw, ?Hp.
Qed.

(** A read that has to wait, and a packet that is not a datagram. *)
Definition ex_cfg : Device.config := Device.mkcfg true false false 0 100 50.
Definition ex_mem : mem := map_block ∅ 4096 50.
Definition ex_source : source := Descriptor 7 50 true.
Definition ex_world : world :=
  match init_world ex_source ex_cfg ex_mem 4096 with
  | Ok w => w
  | Fault _ => mkw no_tap (SinglePacketBuffer.mk NULL) ex_cfg ∅ Idle Idle None ∅ true [] [] []
  end.
Definition ex_events : list event :=
  [Recv_job BTap.Read_again; Ready BREACTOR_READ BTap.Read_again; Ready BREACTOR_READ (BTap.Read_packet [69; 1; 2]);
   Recv_done_job; Send_job true true true; Send_done_job; Recv_job (BTap.Read_packet [])].

Lemma device_correct_witness :
  ∃ w, init_world ex_source ex_cfg ex_mem 4096 = Ok ex_world ∧ run ex_world ex_events = Some (Ok w) ∧
    reads w = [[69; 1; 2]; []] ∧ (handled w).*1 = [[69; 1; 2]] ∧ alive w.
Proof.
  assert (Hi : init_world ex_source ex_cfg ex_mem 4096 = Ok ex_world) by (vm_compute; reflexivity).
  assert (Hr : ∃ w, run ex_world ex_events = Some (Ok w) ∧ reads w = [[69; 1; 2]; []] ∧
    (handled w).*1 = [[69; 1; 2]] ∧ quitting w = false).
  { eexists. split; [vm_compute; reflexivity|]. vm_compute. done. }
  destruct Hr as (w & Hr & H1 & H2 & Hq). exists w.
  destruct (device_correct ex_source ex_cfg ex_mem 4096 ex_world ex_events (Ok w)) as (w' & pend & Hw & _ & _ & _ & Ha & _);
    [simpl; unfold INT_MAX; lia | lia | exact Hi | exact (map_block_mapped ∅ 4096 50) | exact Hr |].
  injection Hw as <-. split; [exact Hi|]. split; [exact Hr|]. split; [exact H1|]. split; [exact H2|].
  exact (proj1 (Ha Hq)).
Defined.

(** The device cannot be configured. *)
Lemma device_descriptors_witness :
  ∃ r w, opened (Name (Some [116; 117; 110]) (BTap.mkans (Some 5) (λ _ s, Some s) (Some 6) (λ _, None) true true))
           ex_cfg ∅ = Ok (r, w) ∧ r = None ∧ files w = ∅.
Proof.
  set (s := Name _ _). destruct (device_descriptors s ex_cfg ∅) as (r & w & Ho & Hw).
  { split; simpl; [by intros n n' [= <-] [= <-] | done]. }
  assert (Hn : match opened s ex_cfg ∅ with Ok (None, _) => true | _ => false end = true) by (vm_compute; reflexivity).
  rewrite Ho in Hn. destruct r; [done|]. exists None, w. split; [exact Ho|]. split; [done|]. exact (proj1 Hw).
Defined.

(** An error or a hang-up that comes without the descriptor becoming readable changes nothing: no error is reported,
    and the descriptor stays watched, so that a loop whose kernel reports states calls the handler again at once. *)
Theorem tap_lone_error w events ans :
  quitting w = false → has events BREACTOR_READ = false → reported w events = true → read_ok w ans = true →
  step w (Ready events ans) = Some (Ok (set_tap w (tap w) (mm w))) ∧
  reported (set_tap w (tap w) (mm w)) events = true.
Proof. intros Hq Hn Hr Hok. unfold step, BTap.fd_handler. rewrite Hq, Hr, Hok, Hn. by split. Qed.

Lemma tap_lone_error_witness :
  ∃ w, run ex_world (take 1 ex_events) = Some (Ok w) ∧ watched w = Some BREACTOR_READ ∧
    step w (Ready BREACTOR_ERROR BTap.Read_failed) = Some (Ok (set_tap w (tap w) (mm w))).
Proof.
  assert (Hr : ∃ w, run ex_world (take 1 ex_events) = Some (Ok w) ∧ watched w = Some BREACTOR_READ ∧ quitting w = false ∧
    reported w BREACTOR_ERROR = true).
  { eexists. split; [vm_compute; reflexivity|]. vm_compute. done. }
  destruct Hr as (w & Hr & Hw & Hq & He). exists w. split; [exact Hr|]. split; [exact Hw|].
  exact (proj1 (tap_lone_error w BREACTOR_ERROR BTap.Read_failed Hq eq_refl He eq_refl)).
Defined.

End DeviceFacts.
