(* ===== verification/PacketProto.v ===== *)
(** * PacketProto framing: protocol/packetproto.h, flow/PacketProtoEncoder.c and
      flow/PacketProtoDecoder.c

    Packets travel over a byte stream as a 16-bit little-endian length followed
    by the payload.  The encoder writes the length in front of a packet that its
    input wrote in place; the decoder reassembles packets from whatever pieces
    the stream delivers, in one buffer of the size of the largest packet.

    [Frame] is the format, [PacketProtoEncoder] and [PacketProtoDecoder] are the
    handlers; [EncoderWorld] runs the encoder against any packet source and any
    reader, [DecoderWorld] the decoder against any stream source and any packet
    consumer. *)

From S2P Require Import Prelude CMem Interfaces.
Import PortView.

(** ** The format *)

Definition packetproto_header_size : Z := 2.
Definition PACKETPROTO_ENCLEN (len : Z) : Z := packetproto_header_size + len.
Definition PACKETPROTO_MAXPAYLOAD : Z := UINT16_MAX.

Module Frame.

(** A packet on the wire, and a sequence of packets. *)
Definition encode (p : list Z) : list Z := le_bytes 2 (Z.of_nat (length p)) ++ p.
Definition encodes (ps : list (list Z)) : list Z := concat (encode <$> ps).

#[global] Arguments encode : simpl never.
#[global] Arguments encodes : simpl never.

Definition fits (mtu : Z) (p : list Z) : Prop := Z.of_nat (length p) ≤ mtu.

(** The payload length announced at the start of a stream, if a header is there. *)
Definition header (s : list Z) : option Z :=
  match s with b0 :: b1 :: _ => Some (b0 + 256 * b1) | _ => None end.

(** A stream that does not yet hold a whole packet. *)
Definition incomplete (s : list Z) : Prop :=
  match header s with
  | None => True
  | Some n => Z.of_nat (length s) < PACKETPROTO_ENCLEN n
  end.

End Frame.

(** ** The encoder *)

Module PacketProtoEncoder.

(** [enc->output_packet]; the two interfaces are ports of the model's user. *)
Record t := mk { output_packet : ptr }.

Inductive call :=
| Input_Recv (data : ptr)        (** [PacketRecvInterface_Receiver_Recv(enc->input, data)] *)
| Output_Done (len : Z).         (** [PacketRecvInterface_Done(&enc->output, len)] *)

Definition Init (input_mtu : Z) : result (t * Z) :=
  ASSERT (input_mtu <=? PACKETPROTO_MAXPAYLOAD) ;;
  Ok ({| output_packet := NULL |}, PACKETPROTO_ENCLEN input_mtu).

Definition output_handler_recv (enc : t) (data : ptr) : result (t * list call) :=
  ASSERT (output_packet enc =? NULL) ;;
  ASSERT negb (data =? NULL) ;;
  Ok ({| output_packet := data |}, [Input_Recv (data + packetproto_header_size)]).

Definition input_handler_done (enc : t) (m : mem) (in_len : Z) : result (t * mem * list call) :=
  ASSERT negb (output_packet enc =? NULL) ;;
  m ← store_u16 m (output_packet enc) (htol16 in_len);
  Ok ({| output_packet := NULL |}, m, [Output_Done (PACKETPROTO_ENCLEN in_len)]).

End PacketProtoEncoder.

(** ** The decoder *)

Module PacketProtoDecoder.

Record t := mk {
  output_mtu : Z;
  buf_size : Z;
  buf_start : Z;
  buf_used : Z;
  buf : ptr;
}.

Definition set_buf (enc : t) (start used : Z) : t :=
  {| output_mtu := output_mtu enc; buf_size := buf_size enc; buf_start := start;
     buf_used := used; buf := buf enc |}.

Inductive call :=
| Output_Send (data : ptr) (len : Z)   (** [PacketPassInterface_Sender_Send(enc->output, ..)] *)
| Input_Recv (data : ptr) (len : Z)    (** [StreamRecvInterface_Receiver_Recv(enc->input, ..)] *)
| Handler_error.                       (** [enc->handler_error(enc->user)] *)

(** What the [do { .. } while (0)] block decides. *)
Inductive decision := Submit (enc : t) (data : ptr) (len : Z) | NeedMore | TooLarge.

Definition process_header (enc : t) (m : mem) : result decision :=
  let data := buf enc + buf_start enc in
  let left := buf_used enc in
  if to_size left <? packetproto_header_size then Ok NeedMore else
  len ← load_u16 m data;
  let data := data + packetproto_header_size in
  let left := left - packetproto_header_size in
  let data_len := ltoh16 len in
  if output_mtu enc <? data_len then Ok TooLarge else
  if left <? data_len then Ok NeedMore else
  Ok (Submit (set_buf enc (buf_start enc + (packetproto_header_size + data_len))
                          (buf_used enc - (packetproto_header_size + data_len)))
             data data_len).

Definition process_data (enc : t) (m : mem) : result (t * mem * list call) :=
  d ← process_header enc m;
  match d with
  | Submit enc data data_len => Ok (enc, m, [Output_Send data data_len])
  | _ =>
    let was_error := match d with TooLarge => true | _ => false end in
    '(enc, m) ←
      (if was_error then Ok (set_buf enc 0 0, m)
       else if buf_start enc + buf_used enc =? buf_size enc then
         m ← memmove m (buf enc) (buf enc + buf_start enc) (buf_used enc);
         Ok (set_buf enc 0 (buf_used enc), m)
       else Ok (enc, m));
    let recv := Input_Recv (buf enc + (buf_start enc + buf_used enc))
                           (buf_size enc - (buf_start enc + buf_used enc)) in
    Ok (enc, m, recv :: (if was_error then [Handler_error] else []))
  end.

Definition input_handler_done (enc : t) (m : mem) (data_len : Z) : result (t * mem * list call) :=
  ASSERT (0 <? data_len) ;;
  ASSERT (data_len <=? buf_size enc - (buf_start enc + buf_used enc)) ;;
  process_data (set_buf enc (buf_start enc) (buf_used enc + data_len)) m.

Definition output_handler_done (enc : t) (m : mem) : result (t * mem * list call) :=
  process_data enc m.

(** [None] when [malloc] fails; [block] is what [malloc(enc->buf_size)] returns. *)
Definition Init (out_mtu : Z) (block : option ptr) : option (t * list call) :=
  let output_mtu := bmin_int out_mtu PACKETPROTO_MAXPAYLOAD in
  let buf_size := PACKETPROTO_ENCLEN output_mtu in
  buf ← block;
  Some ({| output_mtu := output_mtu; buf_size := buf_size; buf_start := 0; buf_used := 0;
           buf := buf |},
        [Input_Recv buf buf_size]).

Definition Reset (enc : t) : t := set_buf enc (buf_start enc + buf_used enc) 0.

End PacketProtoDecoder.

(** ** The decoder and its surroundings *)

Module DecoderWorld.
Import PacketProtoDecoder.

(** [out_mtu] is the MTU of the output interface; [w_in] and [w_out] are the requests
    outstanding at the two interfaces.  The other fields record what happened: [received],
    the stream since the beginning, the last error or the last reset; [sent], the packets
    submitted to the output over the same time, with the content they had then; [errors],
    the calls to [handler_error]. *)
Record world := mkw {
  out_mtu : Z;
  dec : t;
  w_mem : mem;
  w_in : option (ptr * Z);
  w_out : option (ptr * Z);
  received : list Z;
  sent : list (list Z);
  errors : nat;
}.

Definition do_call (w : world) (c : call) : result world :=
  match c with
  | Output_Send d l =>
      out ← packet_send (out_mtu w) (w_out w) d l;
      p ← load (w_mem w) d (Z.to_nat l);
      Ok (mkw (out_mtu w) (dec w) (w_mem w) (w_in w) out (received w) (sent w ++ [p]) (errors w))
  | Input_Recv d l =>
      i ← stream_request (w_in w) d l;
      Ok (mkw (out_mtu w) (dec w) (w_mem w) i (w_out w) (received w) (sent w) (errors w))
  | Handler_error =>
      Ok (mkw (out_mtu w) (dec w) (w_mem w) (w_in w) (w_out w) [] [] (S (errors w)))
  end.

Abbreviation do_calls := (run_calls do_call).

(** Run a handler on the decoder and perform the calls it makes. *)
Definition run_handler (w : world) (h : result (t * mem * list call)) : result world :=
  '(enc, m, cs) ← h;
  do_calls (mkw (out_mtu w) enc m (w_in w) (w_out w) (received w) (sent w) (errors w)) cs.

(** What the surroundings can do: the source completes the outstanding receive with some
    bytes, the consumer completes the outstanding packet, the owner resets the decoder. *)
Inductive event := Received (bs : list Z) | SendDone | DoReset.

(** [None]: the event cannot happen now. *)
Definition step (w : world) (e : event) : option (result world) :=
  match e with
  | Received bs =>
      match w_in w with
      | Some (d, l) =>
          if (0 <? Z.of_nat (length bs)) && (Z.of_nat (length bs) <=? l)
             && bool_decide (Forall is_byte bs) then
            Some (m ← store (w_mem w) d bs;
                  let w := mkw (out_mtu w) (dec w) m None (w_out w)
                               (received w ++ bs) (sent w) (errors w) in
                  run_handler w (input_handler_done (dec w) (w_mem w) (Z.of_nat (length bs))))
          else None
      | None => None
      end
  | SendDone =>
      match w_out w with
      | Some _ =>
          Some (let w := mkw (out_mtu w) (dec w) (w_mem w) (w_in w) None
                             (received w) (sent w) (errors w) in
                run_handler w (output_handler_done (dec w) (w_mem w)))
      | None => None
      end
  | DoReset =>
      Some (Ok (mkw (out_mtu w) (Reset (dec w)) (w_mem w) (w_in w) (w_out w) [] [] (errors w)))
  end.

Abbreviation run := (run_steps step).

(** The decoder just initialised, its buffer freshly allocated at [block] in [m]. *)
Definition init_world (mtu : Z) (m : mem) (block : ptr) : option (result world) :=
  '(enc, cs) ← Init mtu (Some block);
  Some (do_calls (mkw mtu enc (map_block m block (Z.to_nat (buf_size enc))) None None [] [] 0) cs).

End DecoderWorld.

(** ** The encoder and its surroundings *)

Module EncoderWorld.
Import PacketProtoEncoder.

(** [in_mtu] is the MTU of the packet source, [w_in] the receive outstanding at it, [w_out] the
    buffer the reader of the encoder's output waits for; [taken] and [produced] are the packets
    received from the source and handed to the reader. *)
Record world := mkw {
  in_mtu : Z;
  enc : t;
  w_mem : mem;
  w_in : option ptr;
  w_out : option ptr;
  taken : list (list Z);
  produced : list (list Z);
}.

Definition do_call (w : world) (c : call) : result world :=
  match c with
  | Input_Recv d =>
      i ← packet_recv (in_mtu w) (w_in w) d;
      Ok (mkw (in_mtu w) (enc w) (w_mem w) i (w_out w) (taken w) (produced w))
  | Output_Done l =>
      _ ← recv_done (PACKETPROTO_ENCLEN (in_mtu w)) (bool_decide (is_Some (w_out w))) l;
      d ← or_fault BadAccess (w_out w);
      p ← load (w_mem w) d (Z.to_nat l);
      Ok (mkw (in_mtu w) (enc w) (w_mem w) (w_in w) None (taken w) (produced w ++ [p]))
  end.

Abbreviation do_calls := (run_calls do_call).

(** The reader asks for a packet in a buffer of the output's MTU; the source completes the
    outstanding receive by a packet written where the encoder asked. *)
Inductive event := Read (buffer : ptr) | Packet (p : list Z).

Definition step (w : world) (e : event) : option (result world) :=
  match e with
  | Read d =>
      if bool_decide (w_out w = None) && (0 <? d)
         && is_ok_b (load (w_mem w) d (Z.to_nat (PACKETPROTO_ENCLEN (in_mtu w)))) then
        Some ('(e, cs) ← output_handler_recv (enc w) d;
              do_calls (mkw (in_mtu w) e (w_mem w) (w_in w) (Some d) (taken w) (produced w)) cs)
      else None
  | Packet p =>
      match w_in w with
      | Some d =>
          if Z.of_nat (length p) <=? in_mtu w then
            Some (m ← store (w_mem w) d p;
                  '(e, m, cs) ← input_handler_done (enc w) m (Z.of_nat (length p));
                  do_calls (mkw (in_mtu w) e m None (w_out w) (taken w ++ [p]) (produced w)) cs)
          else None
      | None => None
      end
  end.

Abbreviation run := (run_steps step).

Definition init_world (mtu : Z) (m : mem) : result world :=
  '(e, out_mtu) ← Init mtu;
  Ok (mkw mtu e m None None [] []).

End EncoderWorld.

(** ** Properties of the format *)

Module FrameFacts.
Import Frame.

Lemma length_encode p : length (encode p) = (2 + length p)%nat.
Proof. unfold encode. by rewrite length_app, length_le_bytes. Qed.

Lemma encodes_snoc ps p : encodes (ps ++ [p]) = encodes ps ++ encode p.
Proof. unfold encodes. by rewrite fmap_app, concat_app; simpl; rewrite app_nil_r. Qed.

Lemma encodes_cons p ps : encodes (p :: ps) = encode p ++ encodes ps.
Proof. done. Qed.

Lemma encode_header p s :
  fits UINT16_MAX p → header (encode p ++ s) = Some (Z.of_nat (length p)).
Proof.
  intros Hp. unfold encode, header, fits, UINT16_MAX in *. cbn [le_bytes app].
  f_equal. pose proof (le_value_bytes 2 (Z.of_nat (length p))) as H.
  cbn [le_bytes le_value] in H. lia.
Qed.

(** A header read from bytes is the header of the packet that follows it. *)
Lemma header_encode b0 b1 p :
  is_byte b0 → is_byte b1 → b0 + 256 * b1 = Z.of_nat (length p) → b0 :: b1 :: p = encode p.
Proof.
  intros H0 H1 Hn. unfold encode. rewrite <- Hn.
  pose proof (le_bytes_value [b0; b1]) as Hb. cbn [length le_value] in Hb.
  replace (b0 + 256 * (b1 + 256 * 0)) with (b0 + 256 * b1) in Hb by lia.
  rewrite Hb; [done|]. by rewrite !Forall_cons.
Qed.

Lemma header_app s t n : header s = Some n → header (s ++ t) = Some n.
Proof. destruct s as [|? [|??]]; simpl; congruence. Qed.

(** Unique decodability: packets at the start of a sequence of packets are its first ones. *)
Lemma encodes_split mtu ps qs rest :
  mtu ≤ UINT16_MAX → Forall (fits mtu) ps → Forall (fits mtu) qs →
  encodes ps ++ rest = encodes qs → ∃ qs', qs = ps ++ qs' ∧ rest = encodes qs'.
Proof.
  intros Hmtu Hps. revert qs. induction Hps as [|p ps Hp Hps IH]; intros qs Hqs Heq.
  { exists qs. done. }
  destruct qs as [|q qs].
  { apply (f_equal length) in Heq. rewrite encodes_cons, !length_app, length_encode in Heq.
    simpl in Heq. lia. }
  apply Forall_cons in Hqs as [Hq Hqs]. rewrite !encodes_cons, <- app_assoc in Heq.
  assert (length p = length q) as Hl.
  { pose proof (encode_header p (encodes ps ++ rest)) as H1.
    pose proof (encode_header q (encodes qs)) as H2. unfold fits in *.
    rewrite Heq, H2 in H1 by lia. specialize (H1 ltac:(lia)). injection H1. lia. }
  apply app_inj_1 in Heq as [He Heq]; [|by rewrite !length_encode, Hl].
  unfold encode in He. rewrite Hl in He. apply app_inv_head in He as ->.
  destruct (IH qs Hqs Heq) as (qs' & -> & ->). by exists qs'.
Qed.

Lemma encodes_header mtu qs rest more n :
  mtu ≤ UINT16_MAX → Forall (fits mtu) qs → rest ++ more = encodes qs →
  header rest = Some n → n ≤ mtu.
Proof.
  intros Hmtu Hqs Heq Hh. destruct qs as [|q qs].
  { apply app_nil in Heq as [-> _]. done. }
  apply Forall_cons in Hqs as [Hq _]. apply (header_app _ more) in Hh.
  rewrite Heq, encodes_cons, encode_header in Hh by (unfold fits in *; lia).
  unfold fits in Hq. by simplify_eq.
Qed.

Lemma encodes_incomplete mtu qs :
  mtu ≤ UINT16_MAX → Forall (fits mtu) qs → incomplete (encodes qs) → qs = [].
Proof.
  intros Hmtu Hqs Hinc. destruct qs as [|q qs]; [done|]. exfalso.
  apply Forall_cons in Hqs as [Hq _]. unfold incomplete in Hinc.
  rewrite encodes_cons, encode_header in Hinc by (unfold fits in *; lia).
  rewrite length_app, length_encode in Hinc.
  unfold PACKETPROTO_ENCLEN, packetproto_header_size in Hinc. lia.
Qed.

End FrameFacts.

(** ** The encoder is safe and correct *)

Module EncoderFacts.
Import Frame FrameFacts PacketProtoEncoder EncoderWorld.

(** The encoder either has nothing to do, or waits for the source to fill the reader's buffer
    behind the place of the header. *)
Record inv (w : world) : Prop := {
  i_mtu : 0 ≤ in_mtu w ≤ PACKETPROTO_MAXPAYLOAD;
  i_ports : match w_out w with
            | None => w_in w = None ∧ output_packet (enc w) = NULL
            | Some d => w_in w = Some (d + 2) ∧ output_packet (enc w) = d ∧ 0 < d
                        ∧ mapped (w_mem w) d (2 + in_mtu w)
            end;
  i_coded : produced w = encode <$> taken w;
}.

Lemma encoder_step w e r : inv w → step w e = Some r → ∃ w', r = Ok w' ∧ inv w'.
Proof.
  intros [Hm Hp Hc] Hs. destruct e as [d|p]; simpl in Hs.
  - case_if; [|done]. destruct (w_out w) eqn:Hout; [done|]. destruct Hp as [Hin Hop].
    injection Hs as <-. unfold output_handler_recv.
    rewrite Hop, c_assert_true, c_assert_true by
      (first [done | apply negb_true_iff, Z.eqb_neq; unfold NULL; lia]).
    simpl. rewrite Hin, packet_recv_ok by (unfold packetproto_header_size, NULL; lia).
    eexists. split; [done|]. split; simpl; try done. split_and!; try done.
    match goal with H : is_ok_b (load ?m ?d ?n) = true |- _ =>
      destruct (load m d n) as [bs|] eqn:Hl; [|done] end.
    apply load_ok in Hl as [Hl Hh]. apply holds_at_mapped in Hh. rewrite Hl in Hh.
    unfold PACKETPROTO_ENCLEN, packetproto_header_size in Hh. by rewrite Z2Nat.id in Hh by lia.
  - destruct (w_out w) as [d|] eqn:Hout; destruct Hp as [Hin Hp]; rewrite Hin in Hs; [|done].
    destruct Hp as (Hop & Hd & Hmap). case_if; [|done]. injection Hs as <-.
    destruct (store_mapped_ok (w_mem w) (d + 2) p) as [m1 Hm1].
    { eapply mapped_sub; [done | lia | lia]. }
    rewrite Hm1, ok_bind. unfold input_handler_done. rewrite Hop, c_assert_true by
      (apply negb_true_iff, Z.eqb_neq; unfold NULL; lia).
    assert (htol16 (Z.of_nat (length p)) = Z.of_nat (length p)) as ->.
    { unfold htol16, to_u16. apply Z.mod_small.
      unfold PACKETPROTO_MAXPAYLOAD, UINT16_MAX in *. lia. }
    pose proof (store_mapped _ _ _ _ _ _ Hm1 Hmap) as Hmap1.
    destruct (store_mapped_ok m1 d (le_bytes 2 (Z.of_nat (length p)))) as [m2 Hm2].
    { rewrite length_le_bytes. eapply mapped_sub; [done | lia | lia]. }
    unfold store_u16. rewrite Hm2, !ok_bind. simpl.
    unfold recv_done, PACKETPROTO_ENCLEN, packetproto_header_size.
    do 2 run_assert. simpl.
    assert (holds_at m2 d (encode p)) as Hh.
    { unfold encode. apply holds_at_app. rewrite length_le_bytes. split.
      - by eapply store_holds.
      - eapply store_frame; [done | by eapply store_holds|]. rewrite length_le_bytes. lia. }
    rewrite (proj2 (load_ok m2 d _ (encode p))).
    2:{ split; [rewrite length_encode; lia | done]. }
    simpl. eexists. split; [done|]. split; simpl; try done. by rewrite fmap_app, Hc.
Qed.

(** The encoder never fails, hands its reader exactly the encodings of the packets received
    from its source, in order, and waits for the source exactly while its reader waits. *)
Theorem encoder_correct mtu m w0 es r :
  0 ≤ mtu → init_world mtu m = Ok w0 → run w0 es = Some r →
  ∃ w, r = Ok w ∧ produced w = encode <$> taken w
    ∧ (w_out w = None ↔ w_in w = None).
Proof.
  intros Hmtu Hi Hr. assert (inv w0) as Hinv.
  { unfold init_world, Init in Hi. inv_ok. zify_bool. by split. }
  destruct (run_steps_inv _ inv encoder_step _ _ _ Hinv Hr) as (w & -> & [_ Hp Hc]).
  exists w. split; [done|]. split; [done|]. destruct (w_out w); naive_solver.
Qed.

Lemma encoder_correct_witness :
  ∃ w0 w, init_world 5 (map_block ∅ 4096 7) = Ok w0
    ∧ run w0 [Read 4096; Packet [7; 8; 9]] = Some (Ok w) ∧ produced w = [[3; 0; 7; 8; 9]].
Proof.
  destruct (init_world 5 (map_block ∅ 4096 7)) as [w0|] eqn:Hi; [|done].
  destruct (run w0 [Read 4096; Packet [7; 8; 9]]) as [r|] eqn:Hr;
    [|exfalso; revert Hr; vm_compute in Hi; simplify_eq; vm_compute; done].
  destruct (encoder_correct 5 (map_block ∅ 4096 7) w0 _ r ltac:(lia) Hi Hr) as (w & -> & Hp & _).
  exists w0, w. split; [done|]. split; [done|]. rewrite Hp. revert Hr. vm_compute in Hi.
  simplify_eq. vm_compute. by intros [= <-].
Defined.

End EncoderFacts.

(** ** The decoder is safe and correct *)

Module DecoderFacts.
Import Frame FrameFacts PacketProtoDecoder DecoderWorld.

(** The part of the invariant that does not depend on what is outstanding: the buffer holds
    exactly the bytes received but not yet submitted. *)
Record base (w : world) (rest : list Z) : Prop := {
  b_mtu : 0 ≤ output_mtu (dec w) ≤ out_mtu w;
  b_max : output_mtu (dec w) ≤ UINT16_MAX;
  b_size : buf_size (dec w) = PACKETPROTO_ENCLEN (output_mtu (dec w));
  b_buf : 0 < buf (dec w);
  b_start : 0 ≤ buf_start (dec w);
  b_len : buf_used (dec w) = Z.of_nat (length rest);
  b_end : buf_start (dec w) + buf_used (dec w) ≤ buf_size (dec w);
  b_map : mapped (w_mem w) (buf (dec w)) (buf_size (dec w));
  b_rest : holds_at (w_mem w) (buf (dec w) + buf_start (dec w)) rest;
  b_bytes : Forall is_byte rest;
  b_recv : received w = encodes (sent w) ++ rest;
  b_fits : Forall (fits (output_mtu (dec w))) (sent w);
}.

(** Either the decoder waits for input, in the free part of its buffer and with no complete
    packet in it, or the packet last submitted is still with the consumer, in the part of the
    buffer the decoder has given up. *)
Definition waiting (w : world) (rest : list Z) : Prop :=
  match w_in w, w_out w with
  | Some (d, l), None =>
      d = buf (dec w) + (buf_start (dec w) + buf_used (dec w))
      ∧ l = buf_size (dec w) - (buf_start (dec w) + buf_used (dec w))
      ∧ 0 < l ∧ incomplete rest
  | None, Some (d, l) =>
      ∃ p, Z.of_nat (length p) = l ∧ holds_at (w_mem w) d p
           ∧ buf (dec w) ≤ d ∧ d + l ≤ buf (dec w) + buf_start (dec w)
           ∧ (∀ q, last (sent w) = Some q → q = p)
  | _, _ => False
  end.

Definition inv (w : world) : Prop := ∃ rest, base w rest ∧ waiting w rest.

(** What one call of [process_data] achieves. *)
Inductive outcome (w : world) (rest : list Z) (w' : world) : Prop :=
| o_wait : errors w' = errors w → received w' = received w → sent w' = sent w →
    is_Some (w_in w') → (∀ n, header rest = Some n → n ≤ output_mtu (dec w)) → outcome w rest w'
| o_submit p rest' : rest = encode p ++ rest' → fits (output_mtu (dec w)) p → errors w' = errors w →
    received w' = received w → sent w' = sent w ++ [p] → outcome w rest w'
| o_error n : header rest = Some n → output_mtu (dec w) < n → errors w' = S (errors w) →
    received w' = [] → sent w' = [] → buf_used (dec w') = 0 →
    w_in w' = Some (buf (dec w'), buf_size (dec w')) → outcome w rest w'.

Lemma to_size_small n : 0 ≤ n ≤ SIZE_MAX → to_size n = n.
Proof. intros. unfold to_size. apply Z.mod_small. lia. Qed.

(** Reading the header decides exactly as the format says. *)
Lemma process_header_spec w rest :
  base w rest →
  (incomplete rest ∧ (∀ n, header rest = Some n → n ≤ output_mtu (dec w))
     ∧ process_header (dec w) (w_mem w) = Ok NeedMore) ∨
  (∃ n, header rest = Some n ∧ output_mtu (dec w) < n
        ∧ process_header (dec w) (w_mem w) = Ok TooLarge) ∨
  (∃ p rest', rest = encode p ++ rest' ∧ fits (output_mtu (dec w)) p ∧
     process_header (dec w) (w_mem w) =
       Ok (Submit (set_buf (dec w) (buf_start (dec w) + (2 + Z.of_nat (length p)))
                                   (buf_used (dec w) - (2 + Z.of_nat (length p))))
                  (buf (dec w) + buf_start (dec w) + 2) (Z.of_nat (length p)))).
Proof.
  intros [? ? Hsz ? ? Hlen Hend ? Hrest Hbytes ? ?]. unfold process_header.
  unfold PACKETPROTO_ENCLEN, packetproto_header_size, UINT16_MAX, fits in *.
  rewrite to_size_small by (unfold SIZE_MAX; lia).
  destruct rest as [|b0 [|b1 r]].
  - left. split_and!; [done | done | by rewrite Hlen].
  - left. split_and!; [done | done | by rewrite Hlen].
  - apply Forall_cons in Hbytes as [H0 Hbytes]. apply Forall_cons in Hbytes as [H1 _].
    change (b0 :: b1 :: r) with ([b0; b1] ++ r) in Hrest.
    apply holds_at_app in Hrest as [Hhd _]. rewrite (load_u16_ok _ _ _ _ Hhd).
    rewrite ok_bind, Hlen. cbn [length]. rewrite (proj2 (Z.ltb_ge _ _)) by lia.
    unfold is_byte in *. set (n := b0 + 256 * b1). assert (0 ≤ n < 65536) by (unfold n; lia).
    assert (ltoh16 n = n) as ->.
    { unfold ltoh16, htol16, to_u16. apply Z.mod_small. lia. }
    destruct (Z.ltb_spec (output_mtu (dec w)) n) as [Hn|Hn].
    { right; left. exists n. auto. }
    destruct (Z.ltb_spec (Z.of_nat (length (b0 :: b1 :: r)) - 2) n) as [Hl|Hl]; cbn [length] in Hl.
    { left. split_and!; [|by simpl; intros k [= <-]|
        by rewrite (proj2 (Z.ltb_lt _ _)) by (cbn [length]; lia)].
      unfold incomplete, header. cbn [length].
      unfold PACKETPROTO_ENCLEN, packetproto_header_size. fold n. lia. }
    right; right. exists (take (Z.to_nat n) r), (drop (Z.to_nat n) r).
    assert (Z.of_nat (length (take (Z.to_nat n) r)) = n) as Hp.
    { rewrite length_take. lia. }
    split; [|split; [lia|]].
    + rewrite <- (header_encode b0 b1 _ H0 H1) by (by rewrite Hp).
      cbn [app]. by rewrite take_drop.
    + rewrite Hp. rewrite (proj2 (Z.ltb_ge _ _)) by (cbn [length]; lia). done.
Qed.

Lemma incomplete_short w rest :
  base w rest → incomplete rest → (∀ n, header rest = Some n → n ≤ output_mtu (dec w)) →
  buf_used (dec w) < buf_size (dec w).
Proof.
  intros [] Hinc Hh. rewrite b_len0, b_size0. unfold incomplete in Hinc.
  unfold PACKETPROTO_ENCLEN, packetproto_header_size in *.
  destruct (header rest) as [n|] eqn:Hhd; [specialize (Hh n eq_refl); lia|].
  destruct rest as [|? [|??]]; simpl in *; try done; lia.
Qed.

(** With no complete packet in the buffer, the decoder makes room if needed and asks for
    more. *)
Lemma need_more_ok w rest :
  base w rest → w_in w = None → w_out w = None → incomplete rest →
  (∀ n, header rest = Some n → n ≤ output_mtu (dec w)) →
  process_header (dec w) (w_mem w) = Ok NeedMore →
  ∃ w', run_handler w (process_data (dec w) (w_mem w)) = Ok w'
        ∧ base w' rest ∧ waiting w' rest ∧ outcome w rest w'.
Proof.
  intros HB Hin Hout Hinc Hle Hph. pose proof (incomplete_short _ _ HB Hinc Hle) as Hshort.
  unfold process_data. rewrite Hph, ok_bind.
  pose proof HB as [Hmtu Hmax Hsize Hbuf Hstart Hlen Hend Hmap Hrest Hbytes Hrecv Hfits].
  destruct (Z.eqb_spec (buf_start (dec w) + buf_used (dec w)) (buf_size (dec w))) as [He|He].
  - destruct (memmove_ok (w_mem w) (buf (dec w)) (buf (dec w) + buf_start (dec w))
      (buf_used (dec w)) rest) as (m' & Hmv & Hst); [lia | done | | lia |].
    { eapply mapped_sub; [exact Hmap | lia | lia]. }
    rewrite Hmv, !ok_bind. unfold run_handler. rewrite ok_bind. simpl. rewrite Hin, Hout.
    rewrite stream_request_ok by (unfold NULL; lia). simpl. eexists. split; [done|].
    split; [|split].
    + split; simpl; try done; try lia.
      * eapply store_mapped; eauto.
      * rewrite Z.add_0_r. eapply store_holds; eauto.
    + unfold waiting. simpl. split_and!; [lia | lia | lia | done].
    + by apply o_wait.
  - rewrite ok_bind. unfold run_handler. rewrite ok_bind. simpl. rewrite Hin, Hout.
    rewrite stream_request_ok by (unfold NULL; lia). simpl. eexists. split; [done|].
    split; [|split].
    + split; done.
    + unfold waiting. simpl. split_and!; [lia | lia | lia | done].
    + by apply o_wait.
Qed.

Lemma process_ok w rest :
  base w rest → w_in w = None → w_out w = None →
  ∃ w', run_handler w (process_data (dec w) (w_mem w)) = Ok w' ∧ inv w'
        ∧ outcome w rest w'.
Proof.
  intros HB Hin Hout.
  destruct (process_header_spec w rest HB)
    as [(Hinc & Hle & Hph) | [(n & Hh & Hn & Hph) | (p & r & -> & Hp & Hph)]].
  - destruct (need_more_ok w rest) as (w' & Hr & HB' & Hw' & Ho); try done.
    exists w'. split; [done|]. split; [by exists rest | done].
  - unfold process_data. rewrite Hph, ok_bind. cbn [mbind result_bind]. unfold run_handler.
    rewrite ok_bind. pose proof HB as [].
    cbn [run_calls do_call w_in w_out dec set_buf buf buf_start buf_used buf_size].
    rewrite Hin, Hout.
    rewrite stream_request_ok by (unfold NULL, PACKETPROTO_ENCLEN, packetproto_header_size in *; lia).
    simpl. eexists. split; [done|]. split; [|eapply o_error; try done; simpl; repeat f_equal; lia].
    exists []. unfold PACKETPROTO_ENCLEN, packetproto_header_size in *. split.
    + split; simpl; try done; lia.
    + unfold waiting. simpl. split_and!; [lia | lia | lia | done].
  - unfold process_data. rewrite Hph, ok_bind. unfold run_handler. rewrite ok_bind.
    pose proof HB as [Hmtu Hmax Hsize Hbuf Hstart Hlen Hend Hmap Hrest Hbytes Hrecv Hfits].
    rewrite length_app, length_encode in Hlen. unfold fits in Hp.
    unfold encode in Hrest. rewrite <- app_assoc in Hrest.
    apply holds_at_app in Hrest as [_ Hrest]. apply holds_at_app in Hrest as [Hpd Hrest].
    rewrite length_le_bytes in Hpd, Hrest. change (Z.of_nat 2) with 2 in Hpd, Hrest.
    cbn [run_calls do_call w_in w_out dec out_mtu w_mem]. rewrite Hin, Hout.
    rewrite packet_send_ok by (unfold NULL; lia). rewrite ok_bind.
    rewrite Nat2Z.id, (proj2 (load_ok _ _ _ _) (conj eq_refl Hpd)), ok_bind.
    eexists. split; [done|]. split; [|by eapply o_submit]. exists r. split.
    + split; simpl; try done; try lia.
      * eapply eq_ind with (P := λ q, holds_at _ q r); [exact Hrest | lia].
      * by apply Forall_app in Hbytes as [_ ?].
      * by rewrite Hrecv, encodes_snoc, app_assoc.
      * apply Forall_app. split; [done|]. by constructor.
    + unfold waiting. simpl. exists p. split_and!; [done | done | lia | lia |].
      intros q. rewrite last_snoc. by intros [= ->].
Qed.

Lemma decoder_init_inv mtu m block :
  0 ≤ mtu → 0 < block →
  ∃ w, init_world mtu m block = Some (Ok w) ∧ inv w ∧ errors w = 0%nat
    ∧ received w = [] ∧ sent w = [] ∧ output_mtu (dec w) = Z.min mtu UINT16_MAX.
Proof.
  intros Hmtu Hb. unfold init_world, Init. simpl.
  assert (bmin_int mtu PACKETPROTO_MAXPAYLOAD = Z.min mtu UINT16_MAX) as Hmin.
  { unfold bmin_int, PACKETPROTO_MAXPAYLOAD. case_if; lia. }
  rewrite Hmin. unfold PACKETPROTO_ENCLEN, packetproto_header_size.
  rewrite stream_request_ok by (unfold NULL, UINT16_MAX; lia).
  simpl. eexists. split; [done|]. split; [|done]. exists []. split.
  - split; simpl; try done; try (unfold UINT16_MAX; lia).
    eapply mapped_sub; [apply map_block_mapped | lia | unfold UINT16_MAX; lia].
  - unfold waiting. simpl. split_and!; [lia | lia | unfold UINT16_MAX; lia | done].
Qed.

(** Nothing the surroundings do makes the decoder fail, and the invariant is kept. *)
Definition bytes_of (e : event) : list Z := match e with Received bs => bs | _ => [] end.

Lemma step_ok w e r :
  inv w → step w e = Some r →
  ∃ w', r = Ok w' ∧ inv w' ∧
    (e = DoReset ∨ ∃ w1 rest, outcome w1 rest w' ∧ errors w1 = errors w
       ∧ received w1 = received w ++ bytes_of e ∧ sent w1 = sent w
       ∧ received w1 = encodes (sent w) ++ rest
       ∧ output_mtu (dec w1) = output_mtu (dec w)) .
Proof.
  intros (rest & HB & HW) Hs. destruct e as [bs| |]; simpl in Hs.
  - unfold waiting in HW. destruct (w_in w) as [[d l]|] eqn:Hin; [|done].
    destruct (w_out w) eqn:Hout; [done|]. destruct HW as (-> & -> & Hl & Hinc).
    case_if; simplify_eq. pose proof HB as [].
    destruct (store_mapped_ok (w_mem w) (buf (dec w) + (buf_start (dec w) + buf_used (dec w))) bs)
      as [m' Hm']; [eapply mapped_sub; [done | lia | lia]|].
    rewrite Hm', ok_bind. unfold input_handler_done.
    cbn [dec w_mem]. rewrite (proj2 (Z.ltb_lt _ _)), (proj2 (Z.leb_le _ _)) by done. simpl c_assert.
    set (enc1 := set_buf (dec w) (buf_start (dec w)) (buf_used (dec w) + Z.of_nat (length bs))).
    set (w1 := mkw (out_mtu w) enc1 m' None None (received w ++ bs) (sent w) (errors w)).
    destruct (process_ok w1 (rest ++ bs)) as (w' & Hr & Hinv & Ho); [|done|done|].
    { split; simpl; try done; try lia.
      - rewrite length_app. lia.
      - eapply store_mapped; eauto.
      - apply holds_at_app. split.
        + eapply store_frame; [done..|]. lia.
        + apply store_holds in Hm'. eapply eq_ind with (P := λ q, holds_at _ q bs); [done | lia].
      - by apply Forall_app.
      - by rewrite b_recv0, app_assoc. }
    exists w'. split; [exact Hr|]. split; [done|]. right. exists w1, (rest ++ bs).
    split_and!; try done. simpl. by rewrite b_recv0, app_assoc.
  - destruct (w_out w) as [[d l]|] eqn:Hout; [|done]. simplify_eq. unfold waiting in HW.
    destruct (w_in w) as [[??]|] eqn:Hin; rewrite Hout in HW; [done|].
    set (w1 := mkw (out_mtu w) (dec w) (w_mem w) None None (received w) (sent w) (errors w)).
    destruct (process_ok w1 rest) as (w' & Hr & Hinv & Ho); [|done|done|].
    { destruct HB. by split. }
    exists w'. split; [exact Hr|]. split; [done|]. right. exists w1, rest.
    split_and!; try done; simpl; rewrite ?app_nil_r; try done. apply HB.
  - simplify_eq. eexists. split; [done|]. split; [|by left].
    destruct HB. exists []. split.
    + split; simpl; try done; try lia.
    + unfold waiting in *. simpl. destruct (w_in w) as [[d l]|], (w_out w) as [[d' l']|]; try done.
      * destruct HW as (-> & -> & ? & ?). split_and!; [lia | lia | lia | done].
      * destruct HW as (p & ? & ? & ? & ? & ?). exists p. split_and!; try done. lia.
Qed.

Lemma run_ok w es r : inv w → run w es = Some r → ∃ w', r = Ok w' ∧ inv w'.
Proof.
  apply run_steps_inv. intros w1 e r1 Hinv Hs.
  destruct (step_ok _ _ _ Hinv Hs) as (w' & ? & ? & _). eauto.
Qed.

Lemma do_calls_dec w cs w' : do_calls w cs = Ok w' → dec w' = dec w.
Proof.
  revert w. induction cs as [|c cs IH]; intros w H; simpl in H; [by simplify_eq|].
  apply bind_ok in H as (w1 & Hc & H). rewrite (IH _ H). destruct c; simpl in Hc; inv_ok; done.
Qed.

Lemma process_data_mtu enc m enc' m' cs :
  process_data enc m = Ok (enc', m', cs) → output_mtu enc' = output_mtu enc.
Proof.
  unfold process_data, process_header. intros H. apply bind_ok in H as (d & Hd & H).
  repeat case_if; inv_ok; repeat case_if; inv_ok; done.
Qed.

Lemma step_mtu w e w' :
  step w e = Some (Ok w') → output_mtu (dec w') = output_mtu (dec w).
Proof.
  intros H. destruct e; simpl in H; repeat case_match; simplify_eq/=; [| |done].
  - apply bind_ok in H as (m' & _ & H). unfold run_handler in H.
    apply bind_ok in H as ([[enc m1] cs] & Hh & H). rewrite (do_calls_dec _ _ _ H). simpl.
    unfold input_handler_done in Hh. inv_ok.
    match goal with Hp : process_data _ _ = _ |- _ => by apply process_data_mtu in Hp end.
  - unfold run_handler in H. apply bind_ok in H as ([[enc m1] cs] & Hh & H).
    rewrite (do_calls_dec _ _ _ H). simpl. by apply process_data_mtu in Hh.
Qed.

(** Runs on a stream that is a sequence of packets, all of which fit. *)
Lemma run_packets mtu pkts w es more r :
  inv w → output_mtu (dec w) = mtu → Forall (fits mtu) pkts → errors w = 0%nat →
  DoReset ∉ es → received w ++ concat (bytes_of <$> es) ++ more = encodes pkts →
  run w es = Some r →
  ∃ w', r = Ok w' ∧ inv w' ∧ output_mtu (dec w') = mtu ∧ errors w' = 0%nat
    ∧ received w' ++ more = encodes pkts.
Proof.
  intros Hinv. revert w Hinv. induction es as [|e es IH];
    intros w Hinv Hmtu Hpk He0 Hnr Hall Hr; simpl in Hr.
  { simplify_eq. eauto 10. }
  destruct (step w e) as [r'|] eqn:Hs; [|done].
  assert (e ≠ DoReset ∧ DoReset ∉ es) as [Hne Hnr'] by set_solver.
  destruct (step_ok _ _ _ Hinv Hs) as (w' & -> & Hinv' & [?|(w1 & rest & Ho & H1 & H2 & H3 & H4 & H5)]);
    [done|].
  pose proof Hinv as (rest0 & HB & _). pose proof (b_max _ _ HB) as Hmax.
  simpl in Hall. rewrite <- app_assoc, (app_assoc (received w)), <- H2 in Hall.
  assert (∀ n, header rest = Some n → n ≤ mtu) as Hle.
  { intros n Hh. rewrite H4, <- app_assoc in Hall.
    destruct (encodes_split mtu (sent w) pkts (rest ++ concat (bytes_of <$> es) ++ more))
      as (qs & -> & Hq); [lia | rewrite <- Hmtu; apply HB | done | done |].
    apply Forall_app in Hpk as [_ Hqs]. by eapply (encodes_header mtu qs); [lia|..]. }
  apply (IH w'); try done.
  - by rewrite (step_mtu _ _ _ Hs).
  - destruct Ho as [?? | | n Hh Hn]; try congruence. specialize (Hle n Hh). lia.
  - destruct Ho as [? Hrc | ????? Hrc | n Hh Hn];
      [by rewrite Hrc | by rewrite Hrc | specialize (Hle n Hh); lia].
Qed.

(** C33: From its initialisation on, whatever bytes arrive and whenever the consumer is done or
    the decoder is reset, the decoder never fails: all accesses stay inside its buffer and
    every request it makes is one the interfaces accept; the stream received is the
    encodings of the packets passed on followed by what is left in the buffer. *)
Theorem decoder_safe mtu m block :
  0 ≤ mtu → 0 < block →
  ∃ w0, init_world mtu m block = Some (Ok w0) ∧
  ∀ es r, run w0 es = Some r →
  ∃ w rest, r = Ok w ∧ received w = encodes (sent w) ++ rest
    ∧ Forall (fits (output_mtu (dec w))) (sent w)
    ∧ holds_at (w_mem w) (buf (dec w) + buf_start (dec w)) rest
    ∧ waiting w rest.
Proof.
  intros Hmtu Hb. destruct (decoder_init_inv mtu m block Hmtu Hb) as (w0 & Hi & Hinv & _).
  exists w0. split; [done|]. intros es r Hr.
  destruct (run_ok _ _ _ Hinv Hr) as (w & -> & rest & [] & HW). eauto 10.
Qed.

Lemma decoder_safe_witness :
  ∃ w0, init_world 5 ∅ 4096 = Some (Ok w0) ∧
  ∀ es r, run w0 es = Some r →
  ∃ w rest, r = Ok w ∧ received w = encodes (sent w) ++ rest
    ∧ Forall (fits (output_mtu (dec w))) (sent w)
    ∧ holds_at (w_mem w) (buf (dec w) + buf_start (dec w)) rest
    ∧ waiting w rest.
Proof. apply (decoder_safe 5 ∅ 4096); lia. Defined.

(** C1: If what the stream delivers, in pieces of any sizes, is a prefix of the encodings of
    packets that fit the MTU, then the decoder never reports an error, passes a prefix of
    these packets on in order and unchanged, and when everything was delivered and it waits
    for input it has passed on all of them. *)
Theorem decoder_roundtrip mtu m block w0 pkts es more r :
  0 ≤ mtu → 0 < block → init_world mtu m block = Some (Ok w0) →
  Forall (fits (Z.min mtu UINT16_MAX)) pkts → DoReset ∉ es →
  concat (bytes_of <$> es) ++ more = encodes pkts →
  run w0 es = Some r →
  ∃ w, r = Ok w ∧ errors w = 0%nat ∧ sent w `prefix_of` pkts
    ∧ (more = [] → is_Some (w_in w) → sent w = pkts).
Proof.
  intros Hmtu Hb Hi Hpk Hnr Hall Hr.
  destruct (decoder_init_inv mtu m block Hmtu Hb) as (w0' & Hi' & Hinv & He & Hrec & _ & Hom).
  rewrite Hi in Hi'. simplify_eq.
  destruct (run_packets _ pkts w0' es more r Hinv Hom Hpk He Hnr) as (w & -> & Hinv' & Hm' & He' & Hrec');
    [by rewrite Hrec | done |].
  exists w. split; [done|]. split; [done|]. destruct Hinv' as (rest & HB & HW).
  pose proof HB as []. rewrite b_recv0, <- app_assoc in Hrec'.
  destruct (encodes_split (Z.min mtu UINT16_MAX) (sent w) pkts (rest ++ more)) as (qs & -> & Hq);
    [lia | by rewrite <- Hm' | done | done |].
  split; [by exists qs|]. intros -> [[d l] Hin]. rewrite app_nil_r in Hq. subst rest.
  unfold waiting in HW. rewrite Hin in HW. destruct (w_out w); [done|].
  destruct HW as (_ & _ & _ & Hinc). apply Forall_app in Hpk as [_ Hqs].
  rewrite (encodes_incomplete (Z.min mtu UINT16_MAX) qs); [by rewrite app_nil_r | lia | done..].
Qed.

(** Two packets, the first in three pieces. *)
Lemma decoder_roundtrip_witness :
  ∃ w, run (default (mkw 0 (mk 0 0 0 0 0) ∅ None None [] [] 0)
             (init_world 5 ∅ 4096 ≫= λ r, match r with Ok w => Some w | _ => None end))
        [Received [3; 0; 7]; Received [8]; Received [9; 1; 0]; SendDone; Received [255]; SendDone]
      = Some (Ok w) ∧ sent w = [[7; 8; 9]; [255]].
Proof.
  destruct (init_world 5 ∅ 4096) as [[w0|]|] eqn:Hi; [|done..]. simpl.
  set (es := [Received [3; 0; 7]; Received [8]; Received [9; 1; 0]; SendDone; Received [255];
    SendDone]).
  destruct (run w0 es) as [r|] eqn:Hr.
  2:{ exfalso. revert Hr. vm_compute in Hi. simplify_eq. vm_compute. done. }
  assert (Forall (fits (Z.min 5 UINT16_MAX)) [[7; 8; 9]; [255]]) as Hf.
  { repeat constructor; unfold fits; vm_compute; congruence. }
  assert (DoReset ∉ es) as Hn.
  { unfold es. rewrite !not_elem_of_cons. split_and!; try done. apply not_elem_of_nil. }
  destruct (decoder_roundtrip 5 ∅ 4096 w0 [[7; 8; 9]; [255]] es [] r ltac:(lia) ltac:(lia) Hi
    Hf Hn eq_refl Hr) as (w & -> & _ & _ & Hall).
  exists w. split; [done|]. apply Hall; [done|]. revert Hr. vm_compute in Hi. simplify_eq.
  vm_compute. intros. simplify_eq. by eexists.
Defined.

Lemma run_mtu w es w' : run w es = Some (Ok w') → output_mtu (dec w') = output_mtu (dec w).
Proof.
  revert w. induction es as [|e es IH]; intros w H; simpl in H; [by simplify_eq|].
  destruct (step w e) as [[w1|]|] eqn:Hs; simplify_eq. rewrite (IH _ H). by eapply step_mtu.
Qed.

(** C34: The decoder reports an error exactly when the length at the start of the undecoded
    bytes exceeds the MTU; it then has discarded its buffer and waits for input into all of
    it, and otherwise the error count does not change. *)
Theorem decoder_error_iff mtu m block w0 es w e w' :
  0 ≤ mtu → 0 < block → init_world mtu m block = Some (Ok w0) →
  run w0 es = Some (Ok w) → e ≠ DoReset → step w e = Some (Ok w') →
  (errors w' = S (errors w) ↔
   ∃ rest n, received w ++ bytes_of e = encodes (sent w) ++ rest
             ∧ header rest = Some n ∧ Z.min mtu UINT16_MAX < n)
  ∧ (errors w' = S (errors w) →
     buf_used (dec w') = 0 ∧ w_in w' = Some (buf (dec w'), buf_size (dec w')))
  ∧ (errors w' ≠ S (errors w) → errors w' = errors w).
Proof.
  intros Hmtu Hb Hi Hr Hne Hs.
  destruct (decoder_init_inv mtu m block Hmtu Hb) as (w0' & Hi' & Hinv & _ & _ & _ & Hom).
  rewrite Hi in Hi'. simplify_eq. pose proof (run_mtu _ _ _ Hr) as Hm. rewrite Hom in Hm.
  destruct (run_ok _ _ _ Hinv Hr) as (? & [= <-] & Hinv').
  destruct (step_ok _ _ _ Hinv' Hs) as (? & [= <-] & _ & [?|(w1 & rest & Ho & H1 & H2 & H3 & H4 & H5)]);
    [done|].
  rewrite <- H2. destruct Ho as [He _ _ _ Hle | p rest' Hrest Hp He | n Hh Hn He _ _ Hu Hw].
  - split_and!; [|lia|lia]. split; [lia|]. intros (rest1 & n & Hr1 & Hh & Hn).
    rewrite H4 in Hr1. apply app_inv_head in Hr1 as ->. specialize (Hle n Hh). lia.
  - split_and!; [|lia|lia]. split; [lia|]. intros (rest1 & n & Hr1 & Hh & Hn).
    rewrite H4 in Hr1. apply app_inv_head in Hr1 as <-. subst rest.
    unfold fits in Hp. rewrite encode_header in Hh by (unfold fits; lia). simplify_eq. lia.
  - split_and!; [|done|lia]. split; [|lia]. intros _. exists rest, n. split_and!; [done..|lia].
Qed.

(** A header announcing 259 bytes, with room for 5. *)
Lemma decoder_error_iff_witness :
  ∃ w0 w', init_world 5 ∅ 4096 = Some (Ok w0) ∧ step w0 (Received [3; 1; 0]) = Some (Ok w')
    ∧ errors w' = 1%nat.
Proof.
  destruct (init_world 5 ∅ 4096) as [[w0|]|] eqn:Hi; [|done..].
  destruct (step w0 (Received [3; 1; 0])) as [[w'|]|] eqn:Hs;
    [|exfalso; revert Hs; vm_compute in Hi; simplify_eq; vm_compute; done..].
  exists w0, w'. split; [done|]. split; [done|].
  destruct (decoder_error_iff 5 ∅ 4096 w0 [] w0 (Received [3; 1; 0]) w' ltac:(lia) ltac:(lia) Hi
    eq_refl ltac:(done) Hs) as [[_ H] _].
  assert (received w0 = [] ∧ sent w0 = [] ∧ errors w0 = 0%nat) as (Hr & Hst & He).
  { vm_compute in Hi. simplify_eq. done. }
  rewrite He, Hr, Hst in H. apply H. exists [3; 1; 0], 259. by vm_compute.
Defined.

End DecoderFacts.
