(* ===== verification/ChunkBuffer.v ===== *)
(** * The circular packet buffer: structure/ChunkBuffer2.h

    An array of 4-byte blocks holds packets one after another, each as a length
    in a block of its own followed by the data, rounded up to whole blocks.
    When the free space after the last packet could not hold a packet of the
    maximal size, the buffer wraps: [wrap] remembers where the packets end, and
    the next packet goes to the beginning.

    [ChunkBuffer2] is the code, over the byte memory of [CMem]; [repr] is the
    abstraction, a queue of packets; the lemmas show that submitting and
    consuming are the queue's operations, that the debug checks of the code never
    fail, and how many packets are guaranteed to fit. *)

From S2P Require Import Prelude CMem.

Module ChunkBuffer2.

(** [sizeof(struct ChunkBuffer2_block)]: one [int]. *)
Definition block_size : Z := 4.

Record t := mk {
  buffer : ptr;
  size : Z;
  wrap : Z;
  start : Z;
  used : Z;
  mtu : Z;
  input_dest : ptr;
  input_avail : Z;
  output_dest : ptr;
  output_avail : Z;
}.

(** A [size_t] stored into an [int]. *)
Definition to_int (x : Z) : Z := (x + 2 ^ 31) mod 2 ^ 32 - 2 ^ 31.

(** [&buf->buffer[i]] *)
Definition block_addr (buf : t) (i : Z) : ptr := buffer buf + block_size * i.

Definition _end (buf : t) : Z :=
  if wrap buf - start buf <=? used buf then used buf - (wrap buf - start buf)
  else start buf + used buf.

Definition assert_buffer (buf : t) : bool :=
  (0 <? size buf) && (0 <? wrap buf) && (wrap buf <=? size buf) && (0 <=? start buf)
  && (start buf <? wrap buf) && (0 <=? used buf) && (used buf <=? wrap buf)
  && ((wrap buf =? size buf) || (wrap buf - start buf <=? used buf)) && (0 <=? mtu buf).

(** What [_ChunkBuffer2_update_input] stores, and [_ChunkBuffer2_assert_io] checks. *)
Definition input_of (buf : t) : ptr * Z :=
  let e := _end buf in
  if size buf - e - 1 <? mtu buf then (NULL, -1) else
  let free := if wrap buf - start buf <=? used buf then start buf - e else size buf - e in
  if 0 <? free then (block_addr buf (e + 1), to_int ((free - 1) * block_size)) else (NULL, -1).

Definition set_input (buf : t) (io : ptr * Z) : t :=
  mk (buffer buf) (size buf) (wrap buf) (start buf) (used buf) (mtu buf) io.1 io.2
     (output_dest buf) (output_avail buf).

Definition set_output (buf : t) (d : ptr) (a : Z) : t :=
  mk (buffer buf) (size buf) (wrap buf) (start buf) (used buf) (mtu buf)
     (input_dest buf) (input_avail buf) d a.

Definition set_pos (buf : t) (wr st us : Z) : t :=
  mk (buffer buf) (size buf) wr st us (mtu buf) (input_dest buf) (input_avail buf)
     (output_dest buf) (output_avail buf).

Definition update_input (buf : t) : t := set_input buf (input_of buf).

Definition update_output (buf : t) (m : mem) : result t :=
  if 0 <? used buf then
    datalen ← load_int m (block_addr buf (start buf));
    ASSERT (0 <=? datalen) ;;
    let blocklen := bdivide_up datalen block_size in
    ASSERT (blocklen <=? used buf - 1) ;;
    ASSERT (blocklen <=? wrap buf - start buf - 1) ;;
    Ok (set_output buf (block_addr buf (start buf + 1)) datalen)
  else Ok (set_output buf NULL (-1)).

Definition assert_io (buf : t) (m : mem) : result bool :=
  out ← update_output buf m;
  Ok ((input_dest buf =? (input_of buf).1) && (input_avail buf =? (input_of buf).2)
      && (output_dest buf =? output_dest out) && (output_avail buf =? output_avail out)).

Definition calc_blocks (chunk_len num : Z) : Z :=
  let chunk_data_blocks := bdivide_up chunk_len block_size in
  if INT_MAX - 1 <? chunk_data_blocks then -1 else
  let chunk_blocks := 1 + chunk_data_blocks in
  if INT_MAX - 1 <? num then -1 else
  let num_chunks := num + 1 in
  if INT_MAX / num_chunks <? chunk_blocks then -1 else
  chunk_blocks * num_chunks.

Definition Init (buffer : ptr) (blocks mtu : Z) (m : mem) : result t :=
  ASSERT (0 <? blocks) ;;
  ASSERT (0 <=? mtu) ;;
  let buf := mk buffer blocks blocks 0 0 (bdivide_up mtu block_size) NULL 0 NULL 0 in
  ASSERT assert_buffer buf ;;
  let buf := update_input buf in
  buf ← update_output buf m;
  ok ← assert_io buf m;
  ASSERT ok ;; Ok buf.

Definition SubmitPacket (buf : t) (m : mem) (len : Z) : result (t * mem) :=
  ASSERT negb (input_dest buf =? NULL) ;;
  ASSERT (0 <=? len) ;;
  ASSERT (len <=? input_avail buf) ;;
  ASSERT assert_buffer buf ;;
  ok ← assert_io buf m;
  ASSERT ok ;;
  let e := _end buf in
  let blocklen := bdivide_up len block_size in
  ASSERT (blocklen <=? size buf - e - 1) ;;
  ASSERT ((used buf <? wrap buf - start buf) || (blocklen <=? start buf - e - 1)) ;;
  m ← store_int m (block_addr buf e) len;
  let buf := set_pos buf (wrap buf) (start buf) (used buf + (1 + blocklen)) in
  let buf :=
    if (used buf <=? wrap buf - start buf) && (size buf - (e + 1 + blocklen) - 1 <? mtu buf)
    then set_pos buf (e + 1 + blocklen) (start buf) (used buf) else buf in
  ASSERT assert_buffer buf ;;
  let buf := update_input buf in
  buf ← (if used buf =? 1 + blocklen then update_output buf m else Ok buf);
  ok ← assert_io buf m;
  ASSERT ok ;; Ok (buf, m).

Definition ConsumePacket (buf : t) (m : mem) : result t :=
  ASSERT negb (output_dest buf =? NULL) ;;
  ASSERT assert_buffer buf ;;
  ok ← assert_io buf m;
  ASSERT ok ;;
  ASSERT (1 <=? wrap buf - start buf) ;;
  ASSERT (1 <=? used buf) ;;
  len ← load_int m (block_addr buf (start buf));
  let blocklen := bdivide_up len block_size in
  ASSERT (blocklen <=? wrap buf - start buf - 1) ;;
  ASSERT (blocklen <=? used buf - 1) ;;
  let data_wrapped := wrap buf - start buf <=? used buf in
  let buf := set_pos buf (wrap buf) (start buf + (1 + blocklen)) (used buf - (1 + blocklen)) in
  let buf := if start buf =? wrap buf then set_pos buf (size buf) 0 (used buf) else buf in
  ASSERT assert_buffer buf ;;
  let buf := if data_wrapped then update_input buf else buf in
  buf ← update_output buf m;
  ok ← assert_io buf m;
  ASSERT ok ;; Ok buf.

End ChunkBuffer2.

(** ** The abstraction: a queue of packets *)

Module ChunkBufferFacts.
Import ChunkBuffer2.

(** Blocks taken by a packet. *)
Definition blocks (p : list Z) : Z := 1 + bdivide_up (Z.of_nat (length p)) block_size.

(** The packets [ps] lie one after another in the blocks from [pos] to [e]; where each of
    them starts, a packet of the maximal size would have fitted. *)
Fixpoint laid (m : mem) (base sz M pos : Z) (ps : list (list Z)) (e : Z) : Prop :=
  match ps with
  | [] => pos = e
  | p :: ps =>
      M ≤ sz - pos - 1 ∧ Z.of_nat (length p) ≤ INT_MAX
      ∧ holds_at m (base + block_size * pos) (le_bytes 4 (Z.of_nat (length p)) ++ p)
      ∧ laid m base sz M (pos + blocks p) ps e
  end.

(** Where the packets are: either in one piece that ends before the end of the array, or in
    two pieces, up to [wrap] and from 0. *)
Definition layout (buf : t) (m : mem) (q : list (list Z)) : Prop :=
  (used buf < wrap buf - start buf ∧ wrap buf = size buf
   ∧ mtu buf ≤ size buf - (start buf + used buf) - 1
   ∧ laid m (buffer buf) (size buf) (mtu buf) (start buf) q (start buf + used buf))
  ∨ (∃ q1 q2, q = q1 ++ q2 ∧ wrap buf - start buf ≤ used buf
   ∧ used buf - (wrap buf - start buf) ≤ start buf ∧ size buf - wrap buf ≤ mtu buf
   ∧ laid m (buffer buf) (size buf) (mtu buf) (start buf) q1 (wrap buf)
   ∧ laid m (buffer buf) (size buf) (mtu buf) 0 q2 (used buf - (wrap buf - start buf))).

Record shape (buf : t) (m : mem) : Prop := {
  s_size : 0 < size buf;
  s_int : block_size * size buf ≤ INT_MAX;
  s_mtu : 0 ≤ mtu buf;
  s_buffer : 0 < buffer buf;
  s_start : 0 ≤ start buf < wrap buf;
  s_wrap : wrap buf ≤ size buf;
  s_used : 0 ≤ used buf;
  s_map : mapped m (buffer buf) (block_size * size buf);
}.

Definition io (buf : t) (q : list (list Z)) : Prop :=
  (input_dest buf, input_avail buf) = input_of buf
  ∧ match q with
    | [] => output_dest buf = NULL ∧ output_avail buf = -1
    | p :: _ => output_dest buf = block_addr buf (start buf + 1)
                ∧ output_avail buf = Z.of_nat (length p)
    end.

Definition repr (buf : t) (m : mem) (q : list (list Z)) : Prop :=
  shape buf m ∧ layout buf m q ∧ io buf q.

(** ** Lemmas on the layout *)

Lemma blocks_pos p : 1 ≤ blocks p.
Proof.
  unfold blocks. pose proof (bdivide_up_nonneg (Z.of_nat (length p)) block_size).
  unfold block_size in *. lia.
Qed.

Lemma blocks_bytes p : Z.of_nat (length p) ≤ block_size * (blocks p - 1).
Proof.
  unfold blocks. pose proof (bdivide_up_spec (Z.of_nat (length p)) block_size).
  unfold block_size in *. lia.
Qed.

Lemma laid_end m base sz M pos ps e : laid m base sz M pos ps e → pos ≤ e.
Proof.
  revert pos. induction ps as [|p ps IH]; intros pos; cbn [laid]; [lia|].
  intros (_ & _ & _ & H). apply IH in H. pose proof (blocks_pos p). lia.
Qed.

Lemma laid_blocks m base sz M pos ps e p ps' :
  laid m base sz M pos ps e → ps = p :: ps' → pos + blocks p ≤ e.
Proof. intros H ->. cbn [laid] in H. destruct H as (_ & _ & _ & H). by apply laid_end in H. Qed.

Lemma holds_at_agree m m' p bs :
  (∀ a, p ≤ a < p + Z.of_nat (length bs) → m' !! a = m !! a) →
  holds_at m p bs → holds_at m' p bs.
Proof.
  intros H Hh i b Hi. pose proof (lookup_lt_Some _ _ _ Hi). rewrite H by lia. by apply Hh.
Qed.

Lemma laid_frame m m' base sz M pos ps e :
  (∀ a, base + block_size * pos ≤ a < base + block_size * e → m' !! a = m !! a) →
  laid m base sz M pos ps e → laid m' base sz M pos ps e.
Proof.
  revert pos. induction ps as [|p ps IH]; intros pos Ha; cbn [laid]; [done|].
  intros (H1 & H2 & H3 & H4). pose proof (blocks_pos p). pose proof (blocks_bytes p).
  pose proof (laid_end _ _ _ _ _ _ _ H4). unfold block_size in *. split_and!; [done..| |].
  - eapply holds_at_agree; [|exact H3]. intros a. rewrite length_app, length_le_bytes.
    intros ?. apply Ha. lia.
  - apply IH; [|done]. intros a ?. apply Ha. lia.
Qed.

Lemma laid_snoc m base sz M pos ps e p :
  laid m base sz M pos ps e → M ≤ sz - e - 1 → Z.of_nat (length p) ≤ INT_MAX →
  holds_at m (base + block_size * e) (le_bytes 4 (Z.of_nat (length p)) ++ p) →
  laid m base sz M pos (ps ++ [p]) (e + blocks p).
Proof.
  revert pos. induction ps as [|q ps IH]; intros pos; cbn [laid app].
  - intros ->. done.
  - intros (? & ? & ? & ?) ???. split_and!; auto.
Qed.

Lemma laid_load m base sz M pos p ps e :
  laid m base sz M pos (p :: ps) e →
  load_int m (base + block_size * pos) = Ok (Z.of_nat (length p))
  ∧ holds_at m (base + block_size * (pos + 1)) p.
Proof.
  cbn [laid]. intros (_ & Hi & Hh & _). apply holds_at_app in Hh as [H1 H2].
  rewrite length_le_bytes in H2. split.
  - rewrite (load_int_ok m _ _ (length_le_bytes 4 _) H1). f_equal. apply le_value_bytes.
    unfold INT_MAX in Hi. lia.
  - eapply eq_ind with (P := λ q, holds_at _ q p); [exact H2|]. unfold block_size. lia.
Qed.

Lemma to_int_small x : - 2 ^ 31 ≤ x < 2 ^ 31 → to_int x = x.
Proof. intros. unfold to_int. rewrite Z.mod_small; lia. Qed.

(** The queue is empty exactly when no block is used, and its head starts at [start]. *)
Lemma layout_nil buf m : shape buf m → layout buf m [] → used buf = 0.
Proof.
  intros [] [(? & ? & ? & H)|(q1 & q2 & Hq & ? & ? & ? & H & ?)].
  - simpl in H. lia.
  - symmetry in Hq. apply app_nil in Hq as [-> ->]. simpl in *. lia.
Qed.

Lemma layout_cons buf m p q :
  shape buf m → layout buf m (p :: q) →
  load_int m (block_addr buf (start buf)) = Ok (Z.of_nat (length p))
  ∧ holds_at m (block_addr buf (start buf + 1)) p
  ∧ blocks p ≤ used buf ∧ blocks p ≤ wrap buf - start buf.
Proof.
  intros [] [(? & ? & ? & H)|(q1 & q2 & Hq & ? & ? & ? & H & H')].
  - pose proof (laid_load _ _ _ _ _ _ _ _ H) as [? ?].
    pose proof (laid_blocks _ _ _ _ _ _ _ _ _ H eq_refl). unfold block_addr.
    split_and!; [done..|lia|lia].
  - destruct q1 as [|p' q1]; [cbn [laid] in H; lia|]. injection Hq as <- ->.
    pose proof (laid_load _ _ _ _ _ _ _ _ H) as [? ?].
    pose proof (laid_blocks _ _ _ _ _ _ _ _ _ H eq_refl). unfold block_addr.
    split_and!; [done..|lia|lia].
Qed.

(** Every position at which the buffer can be asked to start leaves room for the largest
    packet, and [_end] is where the next packet goes. *)
Lemma layout_start buf m q :
  shape buf m → layout buf m q →
  mtu buf ≤ size buf - start buf - 1 ∧ mtu buf ≤ size buf - _end buf - 1 ∧ 0 ≤ _end buf
  ∧ _end buf = (if wrap buf - start buf <=? used buf then used buf - (wrap buf - start buf)
                else start buf + used buf).
Proof.
  intros [] [(? & ? & ? & H)|(q1 & q2 & -> & ? & ? & ? & H & ?)]; unfold _end.
  - rewrite (proj2 (Z.leb_gt _ _)) by lia. split_and!; lia.
  - rewrite (proj2 (Z.leb_le _ _)) by lia. destruct q1 as [|p q1]; cbn [laid] in H; [lia|].
    split_and!; lia.
Qed.

(** ** The code's own checks *)

Definition limit (buf : t) : Z :=
  if wrap buf - start buf <=? used buf then start buf else size buf.

Lemma input_of_spec buf m q :
  shape buf m → layout buf m q →
  _end buf ≤ limit buf ≤ size buf ∧
  input_of buf =
    if 0 <? limit buf - _end buf
    then (block_addr buf (_end buf + 1), (limit buf - _end buf - 1) * block_size)
    else (NULL, -1).
Proof.
  intros HS HL. destruct (layout_start _ _ _ HS HL) as (H1 & H2 & H3 & H4).
  destruct HS as [? Hint]. unfold input_of, limit, block_size, INT_MAX in *.
  rewrite (proj2 (Z.ltb_ge _ _)) by lia.
  destruct HL as [(Hu & Hw & ? & _)|(q1 & q2 & _ & Hu & He & ? & _ & _)].
  - rewrite (proj2 (Z.leb_gt _ _)) in H4 |- * by lia. split; [lia|].
    case_if; [|done]. rewrite to_int_small by lia. done.
  - rewrite (proj2 (Z.leb_le _ _)) in H4 |- * by lia. split; [lia|].
    case_if; [|done]. rewrite to_int_small by lia. done.
Qed.

Definition out_of (buf : t) (q : list (list Z)) : ptr * Z :=
  match q with
  | [] => (NULL, -1)
  | p :: _ => (block_addr buf (start buf + 1), Z.of_nat (length p))
  end.

Lemma update_output_spec buf m q :
  shape buf m → layout buf m q →
  update_output buf m = Ok (set_output buf (out_of buf q).1 (out_of buf q).2).
Proof.
  intros HS HL. unfold update_output. destruct q as [|p q].
  - by rewrite (layout_nil _ _ HS HL).
  - destruct (layout_cons _ _ _ _ HS HL) as (Hld & _ & Hu & Hw). pose proof (blocks_pos p).
    rewrite (proj2 (Z.ltb_lt _ _)) by lia. rewrite Hld, ok_bind.
    unfold blocks in *. repeat run_assert. done.
Qed.

Lemma assert_buffer_ok buf m q : shape buf m → layout buf m q → assert_buffer buf = true.
Proof.
  intros [] HL. unfold assert_buffer. repeat (apply andb_true_iff; split);
    try apply Z.ltb_lt; try apply Z.leb_le; try lia.
  - destruct HL as [?|(? & ? & ?)]; lia.
  - apply orb_true_iff. destruct HL as [(? & ? & _)|(? & ? & ? & ? & _)].
    + left. apply Z.eqb_eq. done.
    + right. apply Z.leb_le. lia.
Qed.

Lemma io_out buf q : io buf q → output_dest buf = (out_of buf q).1 ∧ output_avail buf = (out_of buf q).2.
Proof. intros [_ H]. by destruct q. Qed.

Lemma assert_io_ok buf m q : repr buf m q → assert_io buf m = Ok true.
Proof.
  intros (HS & HL & HI). unfold assert_io. rewrite (update_output_spec _ _ _ HS HL), ok_bind.
  destruct (io_out _ _ HI) as [-> ->]. destruct HI as [<- _]. simpl.
  by rewrite !Z.eqb_refl.
Qed.

(** Re-establishing the io fields after the positions changed. *)
Lemma update_both buf m q :
  shape buf m → layout buf m q →
  ∃ buf', update_output (update_input buf) m = Ok buf' ∧ repr buf' m q
    ∧ size buf' = size buf ∧ mtu buf' = mtu buf ∧ buffer buf' = buffer buf
    ∧ _end buf' = _end buf ∧ limit buf' = limit buf.
Proof.
  intros HS HL. rewrite (update_output_spec (update_input buf) m q); [|by destruct HS | done].
  eexists. split; [done|]. split; [|done]. split; [by destruct HS|]. split; [done|].
  split; [by destruct (input_of buf) eqn:Hi; unfold update_input; simpl; rewrite Hi|].
  by destruct q.
Qed.

(** ** Operations *)

Lemma Init_ok base blks m mt :
  0 < base → 0 ≤ mt → bdivide_up mt block_size < blks → block_size * blks ≤ INT_MAX →
  mapped m base (block_size * blks) →
  ∃ buf, Init base blks mt m = Ok buf ∧ repr buf m [] ∧ buffer buf = base ∧ size buf = blks
    ∧ mtu buf = bdivide_up mt block_size.
Proof.
  intros Hb Hmt Hfit Hint Hmap. unfold Init.
  pose proof (bdivide_up_nonneg mt block_size Hmt ltac:(unfold block_size; lia)).
  do 2 run_assert. set (buf := mk base blks blks 0 0 (bdivide_up mt block_size) NULL 0 NULL 0).
  assert (shape buf m) as HS by (split; simpl; try done; lia).
  assert (layout buf m []) as HL by (left; simpl; split_and!; lia).
  cbv zeta. rewrite (c_assert_true _ _ (assert_buffer_ok _ _ _ HS HL)).
  destruct (update_both buf m [] HS HL) as (buf' & -> & HR & ? & ? & ? & _).
  rewrite ok_bind, (assert_io_ok _ _ _ HR), ok_bind. exists buf'. simpl in *. done.
Qed.

(** The input region: what the provider may overwrite. *)
Lemma input_region buf m q :
  repr buf m q → input_dest buf ≠ NULL →
  0 < limit buf - _end buf
  ∧ input_dest buf = block_addr buf (_end buf + 1)
  ∧ input_avail buf = (limit buf - _end buf - 1) * block_size
  ∧ mapped m (input_dest buf) (input_avail buf).
Proof.
  intros (HS & HL & [Hin _]) Hne. destruct (input_of_spec _ _ _ HS HL) as [Hlim Hio].
  rewrite Hio in Hin. destruct (layout_start _ _ _ HS HL) as (_ & _ & He & _).
  destruct (Z.ltb_spec 0 (limit buf - _end buf)); [|simplify_eq; congruence].
  injection Hin as -> ->. split_and!; try done.
  destruct HS. unfold block_addr, block_size in *. eapply mapped_sub; [done | lia | lia].
Qed.

(** Memory changes confined to the free blocks keep the queue. *)
Lemma layout_frame buf m m' q :
  shape buf m → layout buf m q →
  (∀ a, ¬ (block_addr buf (_end buf) ≤ a < block_addr buf (limit buf)) → m' !! a = m !! a) →
  layout buf m' q.
Proof.
  intros HS HL Ha. destruct (layout_start _ _ _ HS HL) as (_ & _ & He & Hee).
  unfold limit, block_addr, block_size in *.
  destruct HL as [(Hu & ? & ? & H)|(q1 & q2 & -> & Hu & ? & ? & H1 & H2)].
  - left. split_and!; [done..|]. eapply laid_frame; [|exact H]. intros a ?. apply Ha.
    rewrite (proj2 (Z.leb_gt _ _)) in Hee |- * by lia. unfold block_size in *. lia.
  - right. exists q1, q2. rewrite (proj2 (Z.leb_le _ _)) in Hee, Ha by lia.
    split_and!; [done.. | |].
    + eapply laid_frame; [|exact H1]. intros a ?. apply Ha. unfold block_size in *. lia.
    + eapply laid_frame; [|exact H2]. intros a ?. apply Ha. unfold block_size in *.
      destruct HS. lia.
Qed.

Lemma repr_write_at buf m q a bs m' :
  repr buf m q → input_dest buf ≠ NULL → input_dest buf ≤ a →
  a + Z.of_nat (length bs) ≤ input_dest buf + input_avail buf →
  store m a bs = Ok m' → repr buf m' q.
Proof.
  intros HR Hne Ha Hlen Hst. destruct (input_region _ _ _ HR Hne) as (Hf & Hd & Hav & _).
  destruct HR as (HS & HL & HI). split; [|split; [|done]].
  - destruct HS. split; try done. by eapply store_mapped.
  - eapply layout_frame; [done..|]. intros x Hx. rewrite (store_lookup _ _ _ _ _ Hst).
    rewrite decide_False; [done|]. rewrite Hd in Ha, Hlen. rewrite Hav in Hlen.
    unfold block_addr, block_size in *. lia.
Qed.

Lemma repr_write buf m q bs m' :
  repr buf m q → input_dest buf ≠ NULL → Z.of_nat (length bs) ≤ input_avail buf →
  store m (input_dest buf) bs = Ok m' → repr buf m' q.
Proof. intros. eapply repr_write_at; [done | done | .. | done]; lia. Qed.

(** The positions after a packet [p] was put at the end. *)
Definition pos_submit (buf : t) (p : list Z) : t :=
  let e' := _end buf + 1 + bdivide_up (Z.of_nat (length p)) block_size in
  let buf := set_pos buf (wrap buf) (start buf) (used buf + blocks p) in
  if (used buf <=? wrap buf - start buf) && (size buf - e' - 1 <? mtu buf)
  then set_pos buf e' (start buf) (used buf) else buf.

Lemma submit_layout buf m m' q p :
  shape buf m → layout buf m q → _end buf + blocks p ≤ limit buf →
  Z.of_nat (length p) ≤ INT_MAX →
  (∀ a, ¬ (block_addr buf (_end buf) ≤ a < block_addr buf (limit buf)) → m' !! a = m !! a) →
  holds_at m' (block_addr buf (_end buf)) (le_bytes 4 (Z.of_nat (length p)) ++ p) →
  mapped m' (buffer buf) (block_size * size buf) →
  shape (pos_submit buf p) m' ∧ layout (pos_submit buf p) m' (q ++ [p]).
Proof.
  intros HS HL Hfit Hint Ha Hh Hm.
  destruct (layout_start _ _ _ HS HL) as (Hst & He1 & He0 & Hee).
  pose proof (layout_frame _ _ _ _ HS HL Ha) as HL'. pose proof (blocks_pos p) as Hb.
  destruct (input_of_spec _ _ _ HS HL) as [Hlim _]. clear HL.
  destruct HS. unfold pos_submit, limit in *.
  replace (_end buf + 1 + bdivide_up (Z.of_nat (length p)) block_size)
    with (_end buf + blocks p) by (unfold blocks; lia). cbv zeta.
  cbn [used wrap start size mtu set_pos] in *.
  destruct HL' as [(Hu & Hw & ? & H)|(q1 & q2 & -> & Hu & ? & ? & H1 & H2)].
  - rewrite (proj2 (Z.leb_gt _ _)) in Hee, Hfit by lia.
    rewrite (proj2 (Z.leb_le _ _)) by lia. simpl andb.
    assert (laid m' (buffer buf) (size buf) (mtu buf) (start buf) (q ++ [p]) (_end buf + blocks p)).
    { apply laid_snoc; [by rewrite Hee | lia | done | exact Hh]. }
    destruct (Z.ltb_spec (size buf - (_end buf + blocks p) - 1) (mtu buf)).
    + split; [split; simpl; done || lia|]. right. exists (q ++ [p]), [].
      simpl. rewrite app_nil_r. split_and!; try done; lia.
    + split; [split; simpl; done || lia|]. left. simpl. split_and!; [lia | done | lia |].
      by replace (start buf + (used buf + blocks p)) with (_end buf + blocks p) by lia.
  - rewrite (proj2 (Z.leb_le _ _)) in Hee, Hfit by lia.
    rewrite (proj2 (Z.leb_gt _ _)) by lia. simpl andb. cbv iota.
    split; [split; simpl; done || lia|]. right. exists q1, (q2 ++ [p]). simpl.
    split_and!; [by rewrite app_assoc | lia | lia | lia | done |].
    replace (used buf + blocks p - (wrap buf - start buf)) with (_end buf + blocks p) by lia.
    apply laid_snoc; [by rewrite Hee | lia | done | exact Hh].
Qed.

Lemma used_nil buf m q : shape buf m → layout buf m q → used buf = 0 ↔ q = [].
Proof.
  intros HS HL. split.
  - destruct q as [|p q]; [done|]. destruct (layout_cons _ _ _ _ HS HL) as (_ & _ & Hu & _).
    pose proof (blocks_pos p). lia.
  - intros ->. by eapply layout_nil.
Qed.

Lemma Submit_ok buf m q p :
  repr buf m q → input_dest buf ≠ NULL → Z.of_nat (length p) ≤ input_avail buf →
  holds_at m (input_dest buf) p →
  ∃ buf' m', SubmitPacket buf m (Z.of_nat (length p)) = Ok (buf', m') ∧ repr buf' m' (q ++ [p])
    ∧ size buf' = size buf ∧ mtu buf' = mtu buf ∧ buffer buf' = buffer buf.
Proof.
  intros HR Hne Hlen Hh. destruct (input_region _ _ _ HR Hne) as (Hf & Hd & Hav & _).
  pose proof HR as (HS & HL & HI). pose proof (assert_io_ok _ _ _ HR) as Hio.
  destruct (layout_start _ _ _ HS HL) as (Hst & He1 & He0 & Hee).
  destruct (input_of_spec _ _ _ HS HL) as [Hlim _].
  assert (bdivide_up (Z.of_nat (length p)) block_size ≤ limit buf - _end buf - 1) as Hbl.
  { pose proof (bdivide_up_spec (Z.of_nat (length p)) block_size).
    rewrite Hav in Hlen. unfold block_size in *. nia. }
  unfold SubmitPacket. rewrite (c_assert_true _ _ (proj2 (negb_true_iff _) (proj2 (Z.eqb_neq _ _) Hne))).
  do 2 run_assert. rewrite (c_assert_true _ _ (assert_buffer_ok _ _ _ HS HL)), Hio, ok_bind.
  rewrite (c_assert_true true) by done. cbv zeta. run_assert.
  rewrite (c_assert_true (_ || _)).
  2:{ apply orb_true_iff. unfold limit in Hbl. destruct (Z.leb_spec (wrap buf - start buf) (used buf)).
      - right. apply Z.leb_le. lia.
      - left. by apply Z.ltb_lt. }
  assert (Z.of_nat (length p) ≤ INT_MAX) as Hint.
  { destruct HS. rewrite Hav in Hlen. unfold block_size in *. lia. }
  destruct (store_mapped_ok m (block_addr buf (_end buf)) (le_bytes 4 (Z.of_nat (length p))))
    as [m' Hm'].
  { rewrite length_le_bytes. destruct HS. unfold block_addr, block_size in *.
    eapply mapped_sub; [done | lia | lia]. }
  unfold store_int. rewrite Hm', ok_bind.
  destruct (submit_layout buf m m' q p HS HL) as [HS' HL'];
    [unfold blocks; lia | done | | | |].
  { intros a Ha. rewrite (store_lookup _ _ _ _ _ Hm'), length_le_bytes, decide_False; [done|].
    unfold block_addr, block_size in *. lia. }
  { apply holds_at_app. rewrite length_le_bytes. split; [by eapply store_holds|].
    rewrite Hd in Hh. eapply store_frame; [exact Hm'| |].
    - eapply eq_ind with (P := λ x, holds_at m x p); [exact Hh|].
      unfold block_addr, block_size. lia.
    - right. rewrite length_le_bytes. lia. }
  { destruct HS. by eapply store_mapped. }
  match goal with |- context [c_assert (assert_buffer ?b) _] => change b with (pos_submit buf p) end.
  rewrite (c_assert_true _ _ (assert_buffer_ok _ _ _ HS' HL')).
  assert (∃ buf', (if used (update_input (pos_submit buf p)) =? 1 + bdivide_up (Z.of_nat (length p)) block_size
    then update_output (update_input (pos_submit buf p)) m' else Ok (update_input (pos_submit buf p)))
    = Ok buf' ∧ repr buf' m' (q ++ [p]) ∧ size buf' = size (pos_submit buf p)
    ∧ mtu buf' = mtu (pos_submit buf p) ∧ buffer buf' = buffer (pos_submit buf p))
    as (buf' & Heq & HR' & H1 & H2 & H3).
  { case_if; [destruct (update_both _ _ _ HS' HL') as (? & ? & ? & ? & ? & ? & _); eauto 10|].
    eexists. split; [done|]. split; [|done].
    split; [by destruct HS'|]. split; [done|]. split.
    { unfold update_input. simpl. by destruct (input_of _) eqn:Hi. }
    assert (used (pos_submit buf p) = used buf + blocks p
      ∧ start (pos_submit buf p) = start buf ∧ output_dest (pos_submit buf p) = output_dest buf
      ∧ output_avail (pos_submit buf p) = output_avail buf ∧ buffer (pos_submit buf p) = buffer buf)
      as (Hu' & Hs' & Ho' & Ha' & Hb').
    { unfold pos_submit. by destruct (_ && _). }
    destruct q as [|p0 q].
    { exfalso. apply Heqb. simpl. rewrite Hu', (proj2 (used_nil _ _ _ HS HL) eq_refl). done. }
    destruct HI as [_ [Ho1 Ho2]]. simpl. rewrite Ho', Ha', Ho1, Ho2. unfold block_addr. simpl.
    by rewrite Hb', Hs'. }
  change (set_input (pos_submit buf p) (input_of (pos_submit buf p))) with (update_input (pos_submit buf p)).
  rewrite Heq, ok_bind, (assert_io_ok _ _ _ HR'), ok_bind.
  rewrite (c_assert_true true) by done. exists buf', m'. split; [done|]. split; [done|].
  rewrite H1, H2, H3. unfold pos_submit. by destruct (_ && _).
Qed.

(** Submitting does not move the first packet. *)
Lemma Submit_start buf m len buf' m' :
  SubmitPacket buf m len = Ok (buf', m') → start buf' = start buf ∧ buffer buf' = buffer buf.
Proof.
  unfold SubmitPacket, update_output. intros H. inv_ok. repeat case_if; inv_ok; done.
Qed.

Lemma repr_output_dest buf m p q :
  repr buf m (p :: q) →
  output_dest buf = block_addr buf (start buf + 1) ∧ output_avail buf = Z.of_nat (length p)
  ∧ output_dest buf ≠ NULL ∧ holds_at m (output_dest buf) p.
Proof.
  intros (HS & HL & _ & [Ho Ha]). destruct (layout_cons _ _ _ _ HS HL) as (_ & Hh & _).
  rewrite Ho. split_and!; try done. destruct HS. unfold block_addr, block_size, NULL. lia.
Qed.

(** The positions after the first packet [p] was taken out. *)
Definition pos_consume (buf : t) (p : list Z) : t :=
  let buf := set_pos buf (wrap buf) (start buf + blocks p) (used buf - blocks p) in
  if start buf =? wrap buf then set_pos buf (size buf) 0 (used buf) else buf.

Lemma consume_layout buf m p q :
  shape buf m → layout buf m (p :: q) →
  shape (pos_consume buf p) m ∧ layout (pos_consume buf p) m q
  ∧ _end (pos_consume buf p) = _end buf
  ∧ limit buf - _end buf ≤ limit (pos_consume buf p) - _end (pos_consume buf p)
  ∧ (used buf < wrap buf - start buf → limit (pos_consume buf p) = limit buf).
Proof.
  intros HS HL. destruct (layout_start _ _ _ HS HL) as (Hst & He1 & He0 & Hee).
  destruct (layout_cons _ _ _ _ HS HL) as (_ & _ & Hbu & Hbw). pose proof (blocks_pos p) as Hb.
  destruct HS. unfold pos_consume, limit. cbn [start wrap size used set_pos].
  destruct HL as [(Hu & Hw & ? & H)|(q1 & q2 & Hq & Hu & ? & ? & H1 & H2)].
  - rewrite (proj2 (Z.eqb_neq _ _)) by lia. rewrite (proj2 (Z.leb_gt _ _)) in Hee |- * by lia.
    unfold _end. cbn [start wrap size used set_pos].
    rewrite !(proj2 (Z.leb_gt _ _)) by lia.
    split; [split; simpl; done || lia|]. split; [|lia].
    left. simpl. split_and!; [lia | done | lia |]. cbn [laid] in H. destruct H as (_ & _ & _ & H).
    by replace (start buf + blocks p + (used buf - blocks p)) with (start buf + used buf) by lia.
  - destruct q1 as [|p' q1]; [cbn [laid] in H1; lia|]. injection Hq as <- ->.
    cbn [laid] in H1. destruct H1 as (_ & _ & _ & H1).
    rewrite (proj2 (Z.leb_le _ _)) in Hee |- * by lia.
    destruct (Z.eqb_spec (start buf + blocks p) (wrap buf)) as [He|He].
    + assert (q1 = []) as ->.
      { destruct q1 as [|p1 q1]; [done|]. pose proof (blocks_pos p1).
        cbn [laid] in H1. destruct H1 as (_ & _ & _ & H1). apply laid_end in H1. lia. }
      unfold _end. cbn [start wrap size used set_pos].
      destruct (Z.leb_spec (size buf - 0) (used buf - blocks p)).
      * exfalso. lia.
      * rewrite !(proj2 (Z.leb_le _ _)) by lia.
        split; [split; simpl; done || lia|]. split; [|lia].
        left. simpl. split_and!; [lia | done | lia |].
        by replace (used buf - blocks p) with (used buf - (wrap buf - start buf)) by lia.
    + pose proof (laid_end _ _ _ _ _ _ _ H1).
      unfold _end. cbn [start wrap size used set_pos].
      rewrite !(proj2 (Z.leb_le _ _)) by lia.
      split; [split; simpl; done || lia|]. split; [|lia].
      right. exists q1, q2. simpl. split_and!; [done | lia | lia | lia | done |].
      by replace (used buf - blocks p - (wrap buf - (start buf + blocks p)))
        with (used buf - (wrap buf - start buf)) by lia.
Qed.

Lemma Consume_ok buf m p q :
  repr buf m (p :: q) →
  ∃ buf', ConsumePacket buf m = Ok buf' ∧ repr buf' m q
    ∧ size buf' = size buf ∧ mtu buf' = mtu buf ∧ buffer buf' = buffer buf
    ∧ (input_dest buf ≠ NULL →
       input_dest buf' = input_dest buf ∧ input_avail buf ≤ input_avail buf').
Proof.
  intros HR. pose proof HR as (HS & HL & HI). pose proof (assert_io_ok _ _ _ HR) as Hio.
  destruct (layout_cons _ _ _ _ HS HL) as (Hld & _ & Hbu & Hbw). pose proof (blocks_pos p) as Hb.
  destruct (consume_layout _ _ _ _ HS HL) as (HS' & HL' & Hend & Hlim & Hsame).
  assert (size (pos_consume buf p) = size buf ∧ mtu (pos_consume buf p) = mtu buf
    ∧ buffer (pos_consume buf p) = buffer buf
    ∧ input_dest (pos_consume buf p) = input_dest buf
    ∧ input_avail (pos_consume buf p) = input_avail buf) as (Hsz & Hmt & Hbf & Hid & Hia).
  { unfold pos_consume. by destruct (_ =? _). }
  unfold ConsumePacket. rewrite (c_assert_true (negb _)).
  2:{ apply negb_true_iff, Z.eqb_neq. destruct HI as [_ [-> _]]. destruct HS.
      unfold block_addr, block_size, NULL. lia. }
  rewrite (c_assert_true _ _ (assert_buffer_ok _ _ _ HS HL)), Hio, ok_bind.
  rewrite (c_assert_true true) by done. do 2 run_assert. rewrite Hld, ok_bind. cbv zeta.
  unfold blocks in Hbu, Hbw. do 2 run_assert.
  match goal with |- context [c_assert (assert_buffer ?b) _] => change b with (pos_consume buf p) end.
  rewrite (c_assert_true _ _ (assert_buffer_ok _ _ _ HS' HL')).
  set (b1 := if wrap buf - start buf <=? used buf then update_input (pos_consume buf p)
             else pos_consume buf p).
  assert (b1 = update_input (pos_consume buf p)) as Hb1.
  { unfold b1. case_if; [done|]. unfold update_input, set_input.
    destruct (input_of_spec _ _ _ HS' HL') as [_ ->]. destruct (input_of_spec _ _ _ HS HL) as [_ Hin].
    destruct HI as [HI _]. rewrite Hin, <- Hend, <- Hsame in HI by lia.
    unfold block_addr in HI |- *. rewrite Hbf, <- HI. simpl. rewrite <- Hid, <- Hia, <- Hbf.
    by destruct (pos_consume buf p). }
  change (if wrap buf - start buf <=? used buf then _ else _) with b1. rewrite Hb1.
  destruct (update_both _ _ _ HS' HL') as (buf' & -> & HR' & H1 & H2 & H3 & H4 & H5).
  rewrite ok_bind, (assert_io_ok _ _ _ HR'), ok_bind, (c_assert_true true) by done.
  exists buf'. split; [done|]. split; [done|]. split_and!; [congruence..|].
  intros Hne. destruct (input_region _ _ _ HR Hne) as (Hf & Hd & Hav & _).
  destruct HR' as (HS1 & HL1 & [HI1 _]). destruct (input_of_spec _ _ _ HS1 HL1) as [_ Hin].
  rewrite Hin, H4, H5, Hend, (proj2 (Z.ltb_lt _ _)) in HI1 by lia. injection HI1 as -> ->.
  rewrite Hd, Hav. unfold block_addr, block_size. rewrite H3, Hbf. split; [done|]. lia.
Qed.

(** How many packets fit: with a buffer of [calc_blocks] blocks, a packet of the maximal size
    can be written as long as fewer than [num] packets of at most that size are queued. *)
Lemma used_bound m base sz M M' pos ps e :
  laid m base sz M pos ps e → Forall (λ p, blocks p ≤ 1 + M') ps →
  e - pos ≤ Z.of_nat (length ps) * (1 + M').
Proof.
  intros H HF. revert pos H. induction HF as [|p ps Hp HF IH]; intros pos H; cbn [laid] in H.
  - simpl. lia.
  - destruct H as (_ & _ & _ & H). apply IH in H. cbn [length]. lia.
Qed.

Lemma capacity buf m q len num :
  repr buf m q → 0 ≤ len → mtu buf = bdivide_up len block_size →
  size buf = (1 + mtu buf) * (num + 1) → Z.of_nat (length q) < num →
  Forall (λ p, Z.of_nat (length p) ≤ len) q →
  input_dest buf ≠ NULL ∧ len ≤ input_avail buf.
Proof.
  intros HR Hlen Hmtu Hsize Hq HF. pose proof HR as (HS & HL & [HI _]).
  destruct (input_of_spec _ _ _ HS HL) as [Hlim Hin].
  destruct (layout_start _ _ _ HS HL) as (Hst & He1 & He0 & Hee).
  assert (Forall (λ p, blocks p ≤ 1 + mtu buf) q) as HF'.
  { eapply Forall_impl; [exact HF|]. intros p Hp. unfold blocks. rewrite Hmtu.
    pose proof (bdivide_up_mono (Z.of_nat (length p)) len block_size). unfold block_size in *. lia. }
  assert (1 + mtu buf ≤ limit buf - _end buf) as Hfree.
  { destruct HS. unfold limit. destruct HL as [(Hu & Hw & He & H)|(q1 & q2 & -> & Hu & He & Hw & H1 & H2)].
    - rewrite (proj2 (Z.leb_gt _ _)) in Hee |- * by lia. lia.
    - rewrite (proj2 (Z.leb_le _ _)) in Hee |- * by lia. apply Forall_app in HF' as [HF1 HF2].
      pose proof (used_bound _ _ _ _ _ _ _ _ H1 HF1). pose proof (used_bound _ _ _ _ _ _ _ _ H2 HF2).
      rewrite length_app in Hq. nia. }
  destruct HS. rewrite Hin, (proj2 (Z.ltb_lt _ _)) in HI by lia. injection HI as -> ->.
  pose proof (bdivide_up_spec len block_size). unfold block_addr, block_size, NULL in *. nia.
Qed.

(** When [calc_blocks] does not report an overflow, it is exact. *)
Lemma calc_blocks_value len num :
  0 ≤ len ≤ INT_MAX → 0 < num ≤ INT_MAX → 0 ≤ calc_blocks len num →
  calc_blocks len num = (1 + bdivide_up len block_size) * (num + 1) ∧ 0 < calc_blocks len num.
Proof.
  intros Hlen Hnum Hpos.
  pose proof (bdivide_up_nonneg len block_size ltac:(lia) ltac:(unfold block_size; lia)).
  revert Hpos. unfold calc_blocks. repeat case_if; simpl; nia.
Qed.

(** calc_blocks returns the exact number of blocks for num + 1 packets of len bytes when it
    fits in an int, and -1 when it does not. *)
Theorem calc_blocks_spec len num :
  0 ≤ len ≤ INT_MAX → 0 < num ≤ INT_MAX →
  let exact := (1 + bdivide_up len block_size) * (num + 1) in
  (exact ≤ INT_MAX → calc_blocks len num = exact) ∧ (INT_MAX < exact → calc_blocks len num = -1).
Proof.
  intros Hlen Hnum exact. unfold calc_blocks, exact.
  pose proof (bdivide_up_nonneg len block_size ltac:(lia) ltac:(unfold block_size; lia)).
  pose proof (bdivide_up_spec len block_size ltac:(lia) ltac:(unfold block_size; lia)).
  rewrite (proj2 (Z.ltb_ge _ _)) by (unfold block_size, INT_MAX in *; lia).
  destruct (Z.ltb_spec (INT_MAX - 1) num).
  { split; intros; [|done]. exfalso. nia. }
  pose proof (Z.div_mod INT_MAX (num + 1) ltac:(lia)).
  pose proof (Z.mod_pos_bound INT_MAX (num + 1) ltac:(lia)).
  destruct (Z.ltb_spec (INT_MAX / (num + 1)) (1 + bdivide_up len block_size)); split; intros;
    try done; exfalso; nia.
Qed.

Lemma calc_blocks_spec_witness : calc_blocks 1500 16 = 6392 ∧ calc_blocks 65535 200000 = -1.
Proof.
  split.
  - apply (proj1 (calc_blocks_spec 1500 16 ltac:(unfold INT_MAX; lia) ltac:(unfold INT_MAX; lia))).
    vm_compute. congruence.
  - apply (proj2 (calc_blocks_spec 65535 200000 ltac:(unfold INT_MAX; lia) ltac:(unfold INT_MAX; lia))).
    vm_compute. congruence.
Defined.

(** Using the buffer as the components do: write a packet where [input_dest] says and submit
    it, or read the packet at [output_dest] and consume it. *)
Inductive op := Push (p : list Z) | Pop.

Definition step_code (st : t * mem * list (list Z)) (o : op) : result (t * mem * list (list Z)) :=
  let '(buf, m, outs) := st in
  match o with
  | Push p => m ← store m (input_dest buf) p;
              '(buf, m) ← SubmitPacket buf m (Z.of_nat (length p));
              Ok (buf, m, outs)
  | Pop => p ← load m (output_dest buf) (Z.to_nat (output_avail buf));
           buf ← ConsumePacket buf m;
           Ok (buf, m, outs ++ [p])
  end.

Fixpoint run_code (st : t * mem * list (list Z)) (os : list op) : result (t * mem * list (list Z)) :=
  match os with [] => Ok st | o :: os => st ← step_code st o; run_code st os end.

(** The specification: a queue of at most [num] packets of at most [len] bytes. *)
Definition step_spec (len num : Z) (st : list (list Z) * list (list Z)) (o : op)
    : option (list (list Z) * list (list Z)) :=
  let '(q, outs) := st in
  match o with
  | Push p => if (Z.of_nat (length q) <? num) && (Z.of_nat (length p) <=? len)
              then Some (q ++ [p], outs) else None
  | Pop => match q with p :: q => Some (q, outs ++ [p]) | [] => None end
  end.

Fixpoint run_spec (len num : Z) (st : list (list Z) * list (list Z)) (os : list op)
    : option (list (list Z) * list (list Z)) :=
  match os with [] => Some st | o :: os => st ← step_spec len num st o; run_spec len num st os end.

Lemma op_refines len num buf m q outs o q' outs' :
  0 ≤ len → repr buf m q → mtu buf = bdivide_up len block_size →
  size buf = (1 + mtu buf) * (num + 1) → Forall (λ p, Z.of_nat (length p) ≤ len) q →
  step_spec len num (q, outs) o = Some (q', outs') →
  ∃ buf' m', step_code (buf, m, outs) o = Ok (buf', m', outs') ∧ repr buf' m' q'
    ∧ mtu buf' = mtu buf ∧ size buf' = size buf ∧ Forall (λ p, Z.of_nat (length p) ≤ len) q'.
Proof.
  intros Hlen HR Hmtu Hsize HF Hs. destruct o as [p|]; simpl in Hs.
  - case_if; simplify_eq. destruct (capacity _ _ _ _ _ HR Hlen Hmtu Hsize ltac:(done) HF) as [Hne Hav].
    destruct (input_region _ _ _ HR Hne) as (_ & _ & _ & Hmap).
    destruct (store_mapped_ok m (input_dest buf) p) as [m1 Hm1].
    { eapply mapped_sub; [exact Hmap | lia | lia]. }
    pose proof (repr_write buf m q p m1 HR Hne ltac:(lia) Hm1) as HR1.
    destruct (Submit_ok buf m1 q p HR1 Hne ltac:(lia)) as (buf' & m' & Hsub & HR' & ? & ? & ?).
    { by eapply store_holds. }
    exists buf', m'. unfold step_code. rewrite Hm1, ok_bind, Hsub. split_and!; try done.
    apply Forall_app. split; [done|]. constructor; [lia | done].
  - destruct q as [|p q]; simplify_eq. destruct (Consume_ok _ _ _ _ HR) as (buf' & Hc & HR' & ? & ? & _).
    pose proof HR as (HS & HL & [_ [Ho1 Ho2]]).
    destruct (layout_cons _ _ _ _ HS HL) as (_ & Hh & _).
    exists buf', m. unfold step_code. rewrite Ho1, Ho2, Nat2Z.id.
    rewrite (proj2 (load_ok _ _ _ _) (conj eq_refl Hh)), ok_bind, Hc.
    apply Forall_cons in HF as [_ HF]. done.
Qed.

(** C32: The circular buffer refines a queue: started by Init on calc_blocks blocks, any
    sequence of writing a packet where input_dest says and submitting it, and of reading and
    consuming the packet at output_dest, which a queue of num packets of at most len bytes
    allows, runs without a failed assertion and returns the packets the queue returns. *)
Theorem chunk_buffer_refines len num base m buf os q outs :
  0 ≤ len → 0 < num → 0 < base → len ≤ INT_MAX → num ≤ INT_MAX →
  block_size * calc_blocks len num ≤ INT_MAX → 0 ≤ calc_blocks len num →
  mapped m base (block_size * calc_blocks len num) →
  Init base (calc_blocks len num) len m = Ok buf →
  run_spec len num ([], []) os = Some (q, outs) →
  ∃ buf' m', run_code (buf, m, []) os = Ok (buf', m', outs) ∧ repr buf' m' q.
Proof.
  intros Hlen Hnum Hbase Hlm Hnm Hint Hpos Hmap Hi.
  destruct (calc_blocks_spec len num ltac:(lia) ltac:(lia)) as [Hex Hov].
  set (exact := (1 + bdivide_up len block_size) * (num + 1)) in *.
  destruct (Z.le_gt_cases exact INT_MAX) as [He|He]; [|rewrite Hov in Hpos by lia; lia].
  pose proof (bdivide_up_nonneg len block_size Hlen ltac:(unfold block_size; lia)).
  destruct (Init_ok base (calc_blocks len num) m len Hbase Hlen) as (b0 & Hb0 & HR & _ & Hs & Hm);
    [rewrite Hex by lia; unfold exact; nia | done | done |].
  rewrite Hi in Hb0. injection Hb0 as <-.
  assert (size buf = (1 + mtu buf) * (num + 1)) as Hsize by (by rewrite Hs, Hm, Hex).
  assert (Forall (λ p : list Z, Z.of_nat (length p) ≤ len) []) as HF by constructor.
  revert HR Hm Hsize HF. generalize (@nil (list Z)) at 1 2 3 as q0. generalize (@nil (list Z)) as outs0.
  clear Hi Hs Hmap. revert buf m. induction os as [|o os IH]; intros buf m outs0 q0 HR Hm Hsize HF Hr;
    cbn [run_code run_spec] in *; [simplify_eq; eauto|].
  apply bind_Some in Hr as ([q1 outs1] & Hst & Hr).
  destruct (op_refines len num buf m q0 outs0 o q1 outs1 Hlen HR Hm Hsize HF Hst)
    as (b1 & m1 & -> & HR1 & Hm1 & Hs1 & HF1).
  rewrite ok_bind. eapply (IH b1 m1 outs1 q1); try done; congruence.
Qed.

(** Three packets through a buffer for two, wrapping around. *)
Lemma chunk_buffer_refines_witness :
  ∃ buf buf' m', Init 4096 (calc_blocks 8 2) 8 (map_block ∅ 4096 36) = Ok buf ∧
  run_code (buf, map_block ∅ 4096 36, []) [Push [1; 2; 3; 4; 5]; Push [6]; Pop; Push [7; 8]; Pop; Pop]
    = Ok (buf', m', [[1; 2; 3; 4; 5]; [6]; [7; 8]]) ∧ repr buf' m' [].
Proof.
  destruct (Init 4096 (calc_blocks 8 2) 8 (map_block ∅ 4096 36)) as [buf|] eqn:Hi.
  2:{ exfalso. vm_compute in Hi. done. }
  destruct (chunk_buffer_refines 8 2 4096 (map_block ∅ 4096 36) buf
    [Push [1; 2; 3; 4; 5]; Push [6]; Pop; Push [7; 8]; Pop; Pop] [] [[1; 2; 3; 4; 5]; [6]; [7; 8]]
    ltac:(lia) ltac:(lia) ltac:(lia) ltac:(unfold INT_MAX; lia) ltac:(unfold INT_MAX; lia)
    ltac:(vm_compute; congruence) ltac:(vm_compute; congruence)
    (map_block_mapped ∅ 4096 36) Hi eq_refl) as (buf' & m' & H1 & H2).
  exists buf, buf', m'. done.
Defined.

End ChunkBufferFacts.
