(* ===== verification/PacketBuffer.v ===== *)
(** * The packet buffer: flow/PacketBuffer.c

    A FIFO between a packet source and a packet consumer, over the circular
    buffer of [ChunkBuffer]: the source writes packets directly where they will
    be queued, the consumer reads them in place, and a slot is freed when the
    consumer reports completion.

    [PacketBuffer] is the component's handlers, [PacketBufferWorld] runs it
    against any source and any consumer, [PacketBufferFacts] shows that it never
    fails, delivers what it accepted in order, and accepts packets as long as
    fewer than [num_packets] are queued. *)

From S2P Require Import Prelude CMem Interfaces ChunkBuffer.
Import PortView.

Module PacketBuffer.

Record t := mk {
  buf : ChunkBuffer2.t;
  input_mtu : Z;
}.

Inductive call :=
| Input_Recv (data : ptr)              (** [PacketRecvInterface_Receiver_Recv(buf->input, ..)] *)
| Output_Send (data : ptr) (len : Z).  (** [PacketPassInterface_Sender_Send(buf->output, ..)] *)

(** [if (buf->buf.input_avail >= buf->input_mtu)] *)
Definition has_space (b : t) : bool := input_mtu b <=? ChunkBuffer2.input_avail (buf b).

Definition recv_call (b : t) : call := Input_Recv (ChunkBuffer2.input_dest (buf b)).

Definition send_call (b : t) : call :=
  Output_Send (ChunkBuffer2.output_dest (buf b)) (ChunkBuffer2.output_avail (buf b)).

Definition input_handler_done (b : t) (m : mem) (in_len : Z) : result (t * mem * list call) :=
  ASSERT (0 <=? in_len) ;;
  ASSERT (in_len <=? input_mtu b) ;;
  let was_empty := ChunkBuffer2.output_avail (buf b) <? 0 in
  '(c, m) ← ChunkBuffer2.SubmitPacket (buf b) m in_len;
  let b := mk c (input_mtu b) in
  Ok (b, m, (if has_space b then [recv_call b] else [])
            ++ (if was_empty then [send_call b] else [])).

Definition output_handler_done (b : t) (m : mem) : result (t * mem * list call) :=
  let was_full := ChunkBuffer2.input_avail (buf b) <? input_mtu b in
  c ← ChunkBuffer2.ConsumePacket (buf b) m;
  let b := mk c (input_mtu b) in
  Ok (b, m, (if was_full && has_space b then [recv_call b] else [])
            ++ (if 0 <=? ChunkBuffer2.output_avail (buf b) then [send_call b] else [])).

(** [Ok None] is the failure return; the new block is added to the memory. *)
Definition Init (malloc : Z → option ptr) (in_mtu out_mtu num_packets : Z) (m : mem)
    : result (option (t * mem * list call)) :=
  ASSERT (in_mtu <=? out_mtu) ;;
  ASSERT (0 <? num_packets) ;;
  let num_blocks := ChunkBuffer2.calc_blocks in_mtu num_packets in
  if num_blocks <? 0 then Ok None else
  match BAlloc.BAllocArray malloc num_blocks ChunkBuffer2.block_size with
  | None => Ok None
  | Some buf_data =>
      let m := map_block m buf_data (Z.to_nat (num_blocks * ChunkBuffer2.block_size)) in
      c ← ChunkBuffer2.Init buf_data num_blocks in_mtu m;
      let b := mk c in_mtu in
      Ok (Some (b, m, [recv_call b]))
  end.

End PacketBuffer.

Module PacketBufferWorld.
Import PacketBuffer.

(** [w_in] and [w_out] are the requests outstanding at the source and the consumer;
    [accepted] the packets received from the source, [delivered] the packets the consumer has
    completed, with the content they had at that time. *)
Record world := mkw {
  out_mtu : Z;
  pb : t;
  w_mem : mem;
  w_in : option ptr;
  w_out : option (ptr * Z);
  accepted : list (list Z);
  delivered : list (list Z);
}.

Definition do_call (w : world) (c : call) : result world :=
  match c with
  | Input_Recv d =>
      i ← packet_recv (input_mtu (pb w)) (w_in w) d;
      Ok (mkw (out_mtu w) (pb w) (w_mem w) i (w_out w) (accepted w) (delivered w))
  | Output_Send d l =>
      o ← packet_send (out_mtu w) (w_out w) d l;
      Ok (mkw (out_mtu w) (pb w) (w_mem w) (w_in w) o (accepted w) (delivered w))
  end.

Abbreviation do_calls := (run_calls do_call).

Definition run_handler (w : world) (h : result (t * mem * list call)) : result world :=
  '(b, m, cs) ← h;
  do_calls (mkw (out_mtu w) b m (w_in w) (w_out w) (accepted w) (delivered w)) cs.

(** The source completes the outstanding receive with a packet written in place; the consumer
    completes the outstanding packet, having read it. *)
Inductive event := Packet (p : list Z) | SendDone.

Definition step (w : world) (e : event) : option (result world) :=
  match e with
  | Packet p =>
      match w_in w with
      | Some d =>
          if Z.of_nat (length p) <=? input_mtu (pb w) then
            Some (m ← store (w_mem w) d p;
                  run_handler (mkw (out_mtu w) (pb w) m None (w_out w) (accepted w ++ [p]) (delivered w))
                    (input_handler_done (pb w) m (Z.of_nat (length p))))
          else None
      | None => None
      end
  | SendDone =>
      match w_out w with
      | Some (d, l) =>
          Some (p ← load (w_mem w) d (Z.to_nat l);
                run_handler (mkw (out_mtu w) (pb w) (w_mem w) (w_in w) None (accepted w) (delivered w ++ [p]))
                  (output_handler_done (pb w) (w_mem w)))
      | None => None
      end
  end.

Abbreviation run := (run_steps step).

Definition init_world (malloc : Z → option ptr) (in_mtu omtu num : Z) (m : mem)
    : result (option world) :=
  r ← Init malloc in_mtu omtu num m;
  match r with
  | None => Ok None
  | Some (b, m, cs) => w ← do_calls (mkw omtu b m None None [] []) cs; Ok (Some w)
  end.

End PacketBufferWorld.

Module PacketBufferFacts.
Import PacketBuffer PacketBufferWorld ChunkBuffer2 ChunkBufferFacts.

(** [q] is what is queued in a buffer for [num] packets: the source is asked for a packet
    whenever there is room for one, and the first packet is always with the consumer. *)
Record queue_inv (num : Z) (w : world) (q : list (list Z)) : Prop := {
  q_repr : repr (buf (pb w)) (w_mem w) q;
  q_mtu : 0 ≤ input_mtu (pb w) ≤ out_mtu w;
  q_chunk : mtu (buf (pb w)) = bdivide_up (input_mtu (pb w)) block_size;
  q_size : size (buf (pb w)) = (1 + mtu (buf (pb w))) * (num + 1);
  q_fits : Forall (λ p, Z.of_nat (length p) ≤ input_mtu (pb w)) q;
  q_fifo : accepted w = delivered w ++ q;
}.

Definition in_port (w : world) : Prop :=
  w_in w = if has_space (pb w) then Some (input_dest (buf (pb w))) else None.

Definition out_port (w : world) (q : list (list Z)) : Prop :=
  w_out w = match q with
            | [] => None
            | p :: _ => Some (output_dest (buf (pb w)), Z.of_nat (length p))
            end.

Definition inv (num : Z) (w : world) : Prop :=
  ∃ q, queue_inv num w q ∧ in_port w ∧ out_port w q.

Lemma space_dest b m q :
  repr (buf b) m q → 0 ≤ input_mtu b → has_space b = true → input_dest (buf b) ≠ NULL.
Proof.
  intros HR Hm Hs. unfold has_space in Hs. zify_bool.
  destruct HR as (HS & HL & HI & _). destruct (input_of_spec _ _ _ HS HL) as [Hl Hin].
  rewrite Hin in HI. destruct (_ <? _) in HI; simplify_eq; [|lia].
  destruct (layout_start _ _ _ HS HL) as (? & ? & ? & _).
  destruct HS. unfold block_addr, block_size, NULL in *. lia.
Qed.

(** The receive request a handler makes when there is space is one the interface accepts. *)
Lemma recv_ok num w q (r : bool) cs :
  queue_inv num w q → (r = true → has_space (pb w) = true) → (r = true → w_in w = None) →
  do_calls w ((if r then [recv_call (pb w)] else []) ++ cs)
  = do_calls (mkw (out_mtu w) (pb w) (w_mem w)
      (if r then Some (input_dest (buf (pb w))) else w_in w) (w_out w) (accepted w) (delivered w)) cs.
Proof.
  intros HQ Hr Hin. destruct r; [|by destruct w]. destruct HQ.
  pose proof (space_dest _ _ _ q_repr0 ltac:(lia) (Hr eq_refl)) as Hd. simpl.
  rewrite (Hin eq_refl), packet_recv_ok by done. done.
Qed.

Lemma send_ok num w b p q :
  queue_inv num w (p :: q) → w_out w = None → b = pb w →
  do_calls w [send_call b]
  = Ok (mkw (out_mtu w) (pb w) (w_mem w) (w_in w)
      (Some (output_dest (buf (pb w)), Z.of_nat (length p))) (accepted w) (delivered w)).
Proof.
  intros [] Hout ->. destruct (repr_output_dest _ _ _ _ q_repr0) as (_ & Ha & Hd & _).
  apply Forall_cons in q_fits0 as [Hp _]. simpl. rewrite Hout, Ha, packet_send_ok by (done || lia).
  done.
Qed.

(** Writing where the source was asked to write does not disturb the queue. *)
Lemma write_ok num w q bs m :
  queue_inv num w q → has_space (pb w) = true → Z.of_nat (length bs) ≤ input_mtu (pb w) →
  store (w_mem w) (input_dest (buf (pb w))) bs = Ok m →
  queue_inv num (mkw (out_mtu w) (pb w) m (w_in w) (w_out w) (accepted w) (delivered w)) q.
Proof.
  intros [] Hs Hl Hst. pose proof (space_dest _ _ _ q_repr0 ltac:(lia) Hs) as Hd.
  unfold has_space in Hs. zify_bool. split; simpl; try done.
  eapply repr_write; [done | done | | done]. lia.
Qed.

(** The source has written [p] and reports it. *)
Lemma packet_ok num w q p :
  queue_inv num w q → out_port w q → has_space (pb w) = true →
  Z.of_nat (length p) ≤ input_mtu (pb w) → holds_at (w_mem w) (input_dest (buf (pb w))) p →
  ∃ w', run_handler (mkw (out_mtu w) (pb w) (w_mem w) None (w_out w) (accepted w ++ [p]) (delivered w))
          (input_handler_done (pb w) (w_mem w) (Z.of_nat (length p))) = Ok w'
    ∧ accepted w' = accepted w ++ [p] ∧ delivered w' = delivered w
    ∧ input_mtu (pb w') = input_mtu (pb w) ∧ inv num w'.
Proof.
  intros HQ Ho Hs Hl Hh. pose proof HQ as [].
  pose proof (space_dest _ _ _ q_repr0 ltac:(lia) Hs) as Hd. unfold has_space in Hs. zify_bool.
  destruct (Submit_ok (buf (pb w)) (w_mem w) q p q_repr0 Hd ltac:(lia) Hh)
    as (c & m' & Hsub & HR & Hcs & Hcm & Hcb).
  destruct (Submit_start _ _ _ _ _ Hsub) as [Hcst _].
  unfold input_handler_done. do 2 run_assert. rewrite Hsub, ok_bind. unfold run_handler.
  rewrite ok_bind. cbn [out_mtu pb w_mem w_in w_out accepted delivered].
  set (w1 := mkw _ _ _ _ _ _ _).
  assert (queue_inv num w1 (q ++ [p])) as HQ1.
  { split; simpl; try done; try congruence.
    - apply Forall_app. split; [done|]. by constructor.
    - by rewrite q_fifo0, app_assoc. }
  change (PacketBuffer.mk c (input_mtu (pb w))) with (pb w1) at 1 2.
  rewrite (recv_ok num w1 (q ++ [p])) by done.
  destruct q as [|p0 q].
  - destruct q_repr0 as (_ & _ & _ & _ & ->). change (-1 <? 0) with true. cbv iota.
    rewrite (send_ok num _ _ p []); [|destruct HQ1; by split | done | done].
    eexists. split; [done|]. split_and!; [done..|]. exists [p]. split; [destruct HQ1; by split|]. done.
  - destruct (repr_output_dest _ _ _ _ q_repr0) as (Hod & -> & _).
    rewrite (proj2 (Z.ltb_ge _ _)) by lia. eexists. split; [done|]. split_and!; [done..|]. exists ((p0 :: q) ++ [p]).
    split; [destruct HQ1; by split|]. split; [done|]. unfold out_port in *. cbn [app w_out] in *.
    destruct (repr_output_dest _ _ _ _ HR) as (Hod' & _). simpl. rewrite Ho, Hod, Hod'.
    unfold block_addr. by rewrite Hcb, Hcst.
Qed.

(** The consumer is done with the first packet; what the source was asked for stays. *)
Lemma sent_ok num w p q :
  queue_inv num w (p :: q) → in_port w →
  ∃ w', run_handler (mkw (out_mtu w) (pb w) (w_mem w) (w_in w) None (accepted w) (delivered w ++ [p]))
          (output_handler_done (pb w) (w_mem w)) = Ok w'
    ∧ accepted w' = accepted w ∧ delivered w' = delivered w ++ [p] ∧ w_mem w' = w_mem w
    ∧ (is_Some (w_in w) → w_in w' = w_in w) ∧ input_mtu (pb w') = input_mtu (pb w) ∧ inv num w'.
Proof.
  intros HQ Hi. pose proof HQ as [].
  destruct (Consume_ok _ _ _ _ q_repr0) as (c & Hc & HR & Hcs & Hcm & Hcb & Hsame).
  unfold output_handler_done. rewrite Hc, ok_bind. unfold run_handler. rewrite ok_bind.
  cbn [out_mtu pb w_mem w_in w_out accepted delivered]. set (w1 := mkw _ _ _ _ _ _ _).
  assert (queue_inv num w1 q) as HQ1.
  { split; simpl; try done; try congruence.
    - by apply Forall_cons in q_fits0 as [_ ?].
    - by rewrite q_fifo0, <- app_assoc. }
  change (PacketBuffer.mk c (input_mtu (pb w))) with (pb w1) at 1 2.
  assert ((input_avail (buf (pb w)) <? input_mtu (pb w)) = negb (has_space (pb w))) as ->.
  { unfold has_space. by rewrite Z.leb_antisym, negb_involutive. }
  unfold in_port in Hi.
  rewrite (recv_ok num w1 q).
  2: done.
  2:{ intros H. by zify_bool. }
  2:{ intros H. zify_bool. simpl. by rewrite Hi, H. }
  assert (in_port (mkw (out_mtu w1) (pb w1) (w_mem w1)
    (if negb (has_space (pb w)) && has_space (pb w1) then Some (input_dest (buf (pb w1)))
     else w_in w1) (w_out w1) (accepted w1) (delivered w1))) as Hi1.
  { unfold in_port. simpl. rewrite Hi. destruct (has_space (pb w)) eqn:Hs; simpl.
    - pose proof (space_dest _ _ _ q_repr0 ltac:(lia) Hs) as Hd. destruct (Hsame Hd) as [Hd' Ha].
      unfold has_space in *. simpl. zify_bool. rewrite (proj2 (Z.leb_le _ _)) by lia. by rewrite Hd'.
    - done. }
  assert (is_Some (w_in w) →
    (if negb (has_space (pb w)) && has_space (pb w1) then Some (input_dest (buf (pb w1)))
     else w_in w1) = w_in w) as Hsame'.
  { rewrite Hi. destruct (has_space (pb w)); [done|]. by intros [? ?]. }
  destruct q as [|p0 q].
  - destruct HR as (_ & _ & _ & _ & Ha). simpl (buf (PacketBuffer.mk _ _)). rewrite Ha. change (0 <=? -1) with false. cbv iota.
    eexists. split; [done|]. split_and!; [done | done | done | exact Hsame' | done |]. exists []. split; [destruct HQ1; by split|]. done.
  - destruct (repr_output_dest _ _ _ _ HR) as (_ & Ha & _). simpl (buf (PacketBuffer.mk _ _)).
    rewrite Ha, (proj2 (Z.leb_le _ _)) by lia.
    rewrite (send_ok num _ _ p0 q); [|destruct HQ1; by split | done | done].
    eexists. split; [done|]. split_and!; [done | done | done | exact Hsame' | done |]. exists (p0 :: q). split; [destruct HQ1; by split|]. done.
Qed.

Lemma buffer_step num w e r : inv num w → step w e = Some r → ∃ w', r = Ok w' ∧ inv num w'.
Proof.
  intros (q & HQ & Hi & Ho) Hs. pose proof HQ as []. destruct e as [p|]; simpl in Hs.
  - pose proof Hi as Hi'. unfold in_port in Hi'.
    destruct (has_space (pb w)) eqn:Hsp; rewrite Hi' in Hs; [|done]. case_if; [|done].
    injection Hs as <-. pose proof (space_dest _ _ _ q_repr0 ltac:(lia) Hsp) as Hd.
    destruct (input_region _ _ _ q_repr0 Hd) as (_ & _ & _ & Hmap).
    assert (mapped (w_mem w) (input_dest (buf (pb w))) (Z.of_nat (length p))) as Hmp.
    { unfold has_space in Hsp. zify_bool. eapply mapped_sub; [exact Hmap | lia | lia]. }
    destruct (store_mapped_ok _ _ _ Hmp) as [m Hm]. rewrite Hm, ok_bind.
    pose proof (write_ok num w q p m HQ Hsp ltac:(done) Hm) as HQm.
    destruct (packet_ok num _ q p HQm Ho Hsp ltac:(done) (store_holds _ _ _ _ Hm))
      as (w' & ? & _ & _ & _ & ?). eauto.
  - pose proof Ho as Ho'. unfold out_port in Ho'. destruct q as [|p q]; rewrite Ho' in Hs; [done|].
    injection Hs as <-. destruct (repr_output_dest _ _ _ _ q_repr0) as (_ & _ & _ & Hh).
    rewrite Nat2Z.id, (proj2 (load_ok _ _ _ _) (conj eq_refl Hh)), ok_bind.
    destruct (sent_ok num w p q HQ Hi) as (w' & ? & _ & _ & _ & _ & _ & ?). eauto.
Qed.

(** Initialisation never fails on an assertion, and starts with an empty queue. *)
Lemma init_inv malloc in_mtu omtu num m :
  BAlloc.malloc_documented malloc → 0 ≤ in_mtu ≤ omtu → in_mtu ≤ INT_MAX → 0 < num ≤ INT_MAX →
  init_world malloc in_mtu omtu num m = Ok None
  ∨ ∃ w, init_world malloc in_mtu omtu num m = Ok (Some w) ∧ inv num w
         ∧ input_mtu (pb w) = in_mtu ∧ accepted w = [].
Proof.
  intros Hmal Hmtu Hint Hnum. unfold init_world, PacketBuffer.Init. do 2 run_assert.
  destruct (Z.ltb_spec (calc_blocks in_mtu num) 0) as [|Hpos]; [by left|].
  destruct (BAlloc.BAllocArray _ _ _) as [p|] eqn:Ha; [|by left]. right.
  destruct (calc_blocks_value in_mtu num ltac:(lia) Hnum Hpos) as [Hex Hcb].
  destruct (BAlloc.BAllocArray_ok malloc _ _ _ Hmal Hcb (eq_refl : 0 < block_size) Ha) as [Hp Hsz].
  set (m' := map_block m p (Z.to_nat (calc_blocks in_mtu num * block_size))).
  pose proof (map_block_mapped m p (Z.to_nat (calc_blocks in_mtu num * block_size))) as Hmm.
  fold m' in Hmm. rewrite Z2Nat.id, Z.mul_comm in Hmm by (unfold block_size in *; lia).
  destruct (ChunkBufferFacts.Init_ok p (calc_blocks in_mtu num) m' in_mtu Hp) as
    (c & Hc & HR & _ & Hs & Hm); [lia | | lia | done |].
  { pose proof (bdivide_up_nonneg in_mtu block_size ltac:(lia) eq_refl). nia. }
  rewrite Hc, !ok_bind. cbv beta iota.
  set (w0 := mkw omtu (PacketBuffer.mk c in_mtu) m' None None [] []).
  assert (queue_inv num w0 []) as HQ.
  { split; simpl; try done; try lia.  }
  assert (has_space (pb w0) = true) as Hsp.
  { pose proof HQ as []. destruct (capacity _ _ _ in_mtu num q_repr0 ltac:(lia) q_chunk0 q_size0
      ltac:(simpl; lia) ltac:(constructor)) as [_ ?].
    unfold has_space. by apply Z.leb_le. }
  change (PacketBuffer.mk c in_mtu) with (pb w0).
  pose proof (recv_ok num w0 [] true [] HQ (λ _, Hsp) (λ _, eq_refl)) as Hrun.
  rewrite app_nil_r in Hrun. rewrite Hrun. cbn [run_calls]. rewrite ok_bind.
  eexists. split; [done|]. split; [|by split]. exists []. split; [destruct HQ; by split|].
  split; [|done]. unfold in_port. cbn [pb w_in]. by rewrite Hsp.
Qed.

(** PacketBuffer_Init fails cleanly or starts an empty FIFO; afterwards no run fails, the
    packets accepted are those delivered followed by the queue, the first packet of the
    queue is at the output with its content, and the source is asked for a packet whenever
    fewer than num_packets are queued. *)
Theorem packet_buffer_correct malloc in_mtu omtu num m :
  BAlloc.malloc_documented malloc → 0 ≤ in_mtu ≤ omtu → in_mtu ≤ INT_MAX → 0 < num ≤ INT_MAX →
  init_world malloc in_mtu omtu num m = Ok None ∨
  ∃ w0, init_world malloc in_mtu omtu num m = Ok (Some w0) ∧
  ∀ es r, run w0 es = Some r →
  ∃ w q, r = Ok w ∧ accepted w = delivered w ++ q
    ∧ (Z.of_nat (length q) < num → is_Some (w_in w))
    ∧ match q with
      | [] => w_out w = None
      | p :: _ => ∃ d, w_out w = Some (d, Z.of_nat (length p)) ∧ holds_at (w_mem w) d p
      end.
Proof.
  intros Hmal Hmtu Hint Hnum.
  destruct (init_inv malloc in_mtu omtu num m Hmal Hmtu Hint Hnum) as [?|(w0 & Hi & Hinv & _)];
    [by left|]. right. exists w0. split; [done|]. intros es r Hr.
  destruct (run_steps_inv _ (inv num) (buffer_step num) _ _ _ Hinv Hr) as (w & -> & q & [] & Hin & Hout). exists w, q.
  split; [done|]. split; [done|]. split.
  - intros Hq. destruct (capacity _ _ _ (input_mtu (pb w)) num q_repr0 ltac:(lia) q_chunk0 q_size0
      Hq q_fits0) as [_ Ha].
    rewrite Hin. unfold has_space. rewrite (proj2 (Z.leb_le _ _) Ha). eauto.
  - destruct q as [|p q]; [done|]. destruct (repr_output_dest _ _ _ _ q_repr0) as (_ & _ & _ & Hh).
    eexists. split; [exact Hout | exact Hh].
Qed.

(** A buffer for two packets of at most 8 bytes; the packets wrap around in it. *)
Lemma packet_buffer_correct_witness :
  ∃ w0 w, init_world (λ n, if n <? 100 then Some 4096 else None) 8 10 2 ∅ = Ok (Some w0)
    ∧ run w0 [Packet [1; 2; 3; 4; 5]; Packet [6]; SendDone; Packet [7; 8]; SendDone; SendDone]
      = Some (Ok w)
    ∧ delivered w = [[1; 2; 3; 4; 5]; [6]; [7; 8]].
Proof.
  destruct (packet_buffer_correct (λ n, if n <? 100 then Some 4096 else None) 8 10 2 ∅)
    as [H|(w0 & Hi & H)]; [| lia | unfold INT_MAX; lia | unfold INT_MAX; lia | |].
  { intros n p Hp. unfold INT_MAX. destruct (Z.ltb_spec n 100); simplify_eq. lia. }
  { exfalso. vm_compute in H. done. }
  set (es := [Packet [1; 2; 3; 4; 5]; Packet [6]; SendDone; Packet [7; 8]; SendDone; SendDone]).
  destruct (run w0 es) as [r|] eqn:Hr;
    [|exfalso; revert Hr; vm_compute in Hi; simplify_eq; vm_compute; done].
  destruct (H es r Hr) as (w & q & -> & _). exists w0, w. split; [done|]. split; [done|].
  revert Hr. vm_compute in Hi. simplify_eq. vm_compute. by intros [= <-].
Defined.

End PacketBufferFacts.
