(* ===== verification/PacketProtoFlow.v ===== *)
(** * Writing packets to a stream: flow/BufferWriter.c and flow/PacketProtoFlow.c

    A packet flow is a chain of three objects: the [BufferWriter] its user writes
    packets to, the [PacketProtoEncoder] and the [PacketBuffer].  The buffer asks the
    encoder for a packet, the encoder asks the writer, and the writer lets its user
    write when it has been asked; everything is written in place in the buffer.

    [BufferWriter] is the writer's operations.  [FlowWorld] runs the chain, with the
    two interfaces between the objects as phases of the contract of [Interfaces], against
    any user and any output.  [FlowFacts] shows that the chain never fails and that its
    output is the encodings of the packets written, in order. *)

From S2P Require Import Prelude CMem Interfaces PacketProto ChunkBuffer PacketBuffer.
Import PortView Port.

Module BufferWriter.

Record t := mk {
  out_have : bool;
  out : ptr;
  d_mtu : Z;
  d_writing : bool;
}.

(** [PacketRecvInterface_Done(&o->recv_interface, len)] *)
Inductive call := Recv_Done (len : Z).

Definition Init (mtu : Z) : result t :=
  ASSERT (0 <=? mtu) ;;
  Ok (mk false NULL mtu false).

Definition output_handler_recv (o : t) (data : ptr) : result t :=
  ASSERT negb (out_have o) ;;
  Ok (mk true data (d_mtu o) (d_writing o)).

(** [None] is the return value 0. *)
Definition StartPacket (o : t) : result (t * option ptr) :=
  ASSERT negb (d_writing o) ;;
  if negb (out_have o) then Ok (o, None) else
  Ok (mk (out_have o) (out o) (d_mtu o) true, Some (out o)).

Definition EndPacket (o : t) (len : Z) : result (t * list call) :=
  ASSERT (0 <=? len) ;;
  ASSERT (len <=? d_mtu o) ;;
  ASSERT out_have o ;;
  ASSERT d_writing o ;;
  Ok (mk false (out o) (d_mtu o) false, [Recv_Done len]).

End BufferWriter.

Module PacketProtoFlow.

(** The three objects; the memory holds the buffer's blocks. *)
Record t := mk {
  ainput : BufferWriter.t;
  encoder : PacketProtoEncoder.t;
  buffer : PacketBuffer.t;
}.

(** [Ok None] is the failure return; the last component are the calls of [PacketBuffer_Init]. *)
Definition Init (malloc : Z → option ptr) (input_mtu num_packets output_mtu : Z) (m : mem)
    : result (option (t * mem * list PacketBuffer.call)) :=
  ASSERT (0 <=? input_mtu) ;;
  ASSERT (input_mtu <=? PACKETPROTO_MAXPAYLOAD) ;;
  ASSERT (0 <? num_packets) ;;
  ASSERT (PACKETPROTO_ENCLEN input_mtu <=? output_mtu) ;;
  ainput ← BufferWriter.Init input_mtu;
  enc ← PacketProtoEncoder.Init input_mtu;
  r ← PacketBuffer.Init malloc enc.2 output_mtu num_packets m;
  match r with
  | None => Ok None
  | Some (buffer, m, cs) => Ok (Some (mk ainput enc.1 buffer, m, cs))
  end.

End PacketProtoFlow.

(** ** The chain and its surroundings *)

Module FlowWorld.

(** [pw] is the buffer with its ports (the memory included), [p1] the interface between the
    writer and the encoder, [p2] the one between the encoder and the buffer; [written] are the
    packets the user has ended. *)
Record world := mkw {
  fmtu : Z;
  bw : BufferWriter.t;
  enc : PacketProtoEncoder.t;
  pw : PacketBufferWorld.world;
  p1 : phase ptr Z;
  p2 : phase ptr Z;
  written : list (list Z);
}.

Definition mem_of (w : world) : mem := PacketBufferWorld.w_mem (pw w).

Definition set_mem (w : PacketBufferWorld.world) (m : mem) : PacketBufferWorld.world :=
  PacketBufferWorld.mkw (PacketBufferWorld.out_mtu w) (PacketBufferWorld.pb w) m
    (PacketBufferWorld.w_in w) (PacketBufferWorld.w_out w) (PacketBufferWorld.accepted w)
    (PacketBufferWorld.delivered w).

Definition writer_call (w : world) (c : BufferWriter.call) : result world :=
  match c with
  | BufferWriter.Recv_Done l =>
      _ ← recv_done (fmtu w) (match p1 w with Busy _ => true | _ => false end) l;
      Ok (mkw (fmtu w) (bw w) (enc w) (pw w) (Finished l) (p2 w) (written w))
  end.

Definition encoder_call (w : world) (c : PacketProtoEncoder.call) : result world :=
  match c with
  | PacketProtoEncoder.Input_Recv d =>
      i ← packet_recv (fmtu w) (match p1 w with Idle => None | _ => Some d end) d;
      Ok (mkw (fmtu w) (bw w) (enc w) (pw w) (Requested d) (p2 w) (written w))
  | PacketProtoEncoder.Output_Done l =>
      _ ← recv_done (PACKETPROTO_ENCLEN (fmtu w)) (match p2 w with Busy _ => true | _ => false end) l;
      Ok (mkw (fmtu w) (bw w) (enc w) (pw w) (p1 w) (Finished l) (written w))
  end.

(** A receive the buffer has made on its input is a request at the interface. *)
Definition requested (p : phase ptr Z) (i : option ptr) : phase ptr Z :=
  match p, i with Idle, Some d => Requested d | _, _ => p end.

Definition set_buffer (w : world) (pw' : PacketBufferWorld.world) (ph : phase ptr Z) : world :=
  mkw (fmtu w) (bw w) (enc w) pw' (p1 w) (requested ph (PacketBufferWorld.w_in pw')) (written w).

(** The user writes a packet if it can; the interfaces' jobs run the handler of the provider
    ([Op1], [Op2]) or of the user ([Done1], [Done2]); the output completes a packet. *)
Inductive event := Write (p : list Z) | Op1 | Done1 | Op2 | Done2 | SendDone.

Definition step (w : world) (e : event) : option (result world) :=
  match e with
  | Write p =>
      if Z.of_nat (length p) <=? fmtu w then
        Some ('(b, o) ← BufferWriter.StartPacket (bw w);
              match o with
              | None => Ok (mkw (fmtu w) b (enc w) (pw w) (p1 w) (p2 w) (written w))
              | Some d =>
                  m ← store (mem_of w) d p;
                  '(b, cs) ← BufferWriter.EndPacket b (Z.of_nat (length p));
                  run_calls writer_call
                    (mkw (fmtu w) b (enc w) (set_mem (pw w) m) (p1 w) (p2 w) (written w ++ [p])) cs
              end)
      else None
  | Op1 =>
      match p1 w with
      | Requested d =>
          Some (b ← BufferWriter.output_handler_recv (bw w) d;
                Ok (mkw (fmtu w) b (enc w) (pw w) (Busy d) (p2 w) (written w)))
      | _ => None
      end
  | Done1 =>
      match p1 w with
      | Finished l =>
          Some ('(e, m, cs) ← PacketProtoEncoder.input_handler_done (enc w) (mem_of w) l;
                run_calls encoder_call
                  (mkw (fmtu w) (bw w) e (set_mem (pw w) m) Idle (p2 w) (written w)) cs)
      | _ => None
      end
  | Op2 =>
      match p2 w with
      | Requested d =>
          Some ('(e, cs) ← PacketProtoEncoder.output_handler_recv (enc w) d;
                run_calls encoder_call
                  (mkw (fmtu w) (bw w) e (pw w) (p1 w) (Busy d) (written w)) cs)
      | _ => None
      end
  | Done2 =>
      match p2 w, PacketBufferWorld.w_in (pw w) with
      | Finished l, Some d =>
          Some (p ← load (mem_of w) d (Z.to_nat l);
                pw' ← PacketBufferWorld.run_handler
                  (PacketBufferWorld.mkw (PacketBufferWorld.out_mtu (pw w)) (PacketBufferWorld.pb (pw w))
                     (mem_of w) None (PacketBufferWorld.w_out (pw w))
                     (PacketBufferWorld.accepted (pw w) ++ [p]) (PacketBufferWorld.delivered (pw w)))
                  (PacketBuffer.input_handler_done (PacketBufferWorld.pb (pw w)) (mem_of w) l);
                Ok (set_buffer w pw' Idle))
      | _, _ => None
      end
  | SendDone =>
      r ← PacketBufferWorld.step (pw w) PacketBufferWorld.SendDone;
      Some (pw' ← r; Ok (set_buffer w pw' (p2 w)))
  end.

Abbreviation run := (run_steps step).

Definition init_world (malloc : Z → option ptr) (input_mtu num_packets output_mtu : Z) (m : mem)
    : result (option world) :=
  r ← PacketProtoFlow.Init malloc input_mtu num_packets output_mtu m;
  match r with
  | None => Ok None
  | Some (f, m, cs) =>
      pw ← run_calls PacketBufferWorld.do_call
             (PacketBufferWorld.mkw output_mtu (PacketProtoFlow.buffer f) m None None [] []) cs;
      Ok (Some (mkw input_mtu (PacketProtoFlow.ainput f) (PacketProtoFlow.encoder f) pw Idle
                  (requested Idle (PacketBufferWorld.w_in pw)) []))
  end.

End FlowWorld.

(** ** The chain is safe and correct *)

Module FlowFacts.
Import Frame FrameFacts FlowWorld.

(** Where the packet being written is, by the phases of the two interfaces; the last argument
    is the packet that has been written and not yet been queued. *)
Inductive stage (mtu : Z) (m : mem) :
    phase ptr Z → phase ptr Z → option ptr → bool → ptr → ptr → list (list Z) → Prop :=
| st_full o : stage mtu m Idle Idle None false o NULL []
| st_asked d o : stage mtu m Idle (Requested d) (Some d) false o NULL []
| st_encoder d o : stage mtu m (Requested (d + 2)) (Busy d) (Some d) false o d []
| st_writer d : stage mtu m (Busy (d + 2)) (Busy d) (Some d) true (d + 2) d []
| st_written d o p : Z.of_nat (length p) ≤ mtu → holds_at m (d + 2) p →
    stage mtu m (Finished (Z.of_nat (length p))) (Busy d) (Some d) false o d [encode p]
| st_encoded d o p : Z.of_nat (length p) ≤ mtu → holds_at m d (encode p) →
    stage mtu m Idle (Finished (2 + Z.of_nat (length p))) (Some d) false o NULL [encode p].

Record inv (num : Z) (w : world) : Prop := {
  f_mtu : 0 ≤ fmtu w ≤ PACKETPROTO_MAXPAYLOAD;
  f_buffer : PacketBufferFacts.inv num (pw w);
  f_input : PacketBuffer.input_mtu (PacketBufferWorld.pb (pw w)) = 2 + fmtu w;
  f_writer : BufferWriter.d_mtu (bw w) = fmtu w ∧ BufferWriter.d_writing (bw w) = false;
  f_stage : ∃ flight,
    stage (fmtu w) (mem_of w) (p1 w) (p2 w) (PacketBufferWorld.w_in (pw w))
      (BufferWriter.out_have (bw w)) (BufferWriter.out (bw w))
      (PacketProtoEncoder.output_packet (enc w)) flight
    ∧ encode <$> written w = PacketBufferWorld.accepted (pw w) ++ flight;
}.

(** The place the buffer has asked its source to write to. *)
Lemma asked_region num w d :
  PacketBufferFacts.inv num w → PacketBufferWorld.w_in w = Some d →
  0 < d ∧ PacketBuffer.has_space (PacketBufferWorld.pb w) = true
  ∧ d = ChunkBuffer2.input_dest (PacketBuffer.buf (PacketBufferWorld.pb w))
  ∧ mapped (PacketBufferWorld.w_mem w) d (PacketBuffer.input_mtu (PacketBufferWorld.pb w)).
Proof.
  intros (q & [] & Hin & _) Hd. unfold PacketBufferFacts.in_port in Hin.
  destruct (PacketBuffer.has_space _) eqn:Hs; [|congruence].
  rewrite Hd in Hin. injection Hin as ->.
  pose proof (PacketBufferFacts.space_dest _ _ _ q_repr ltac:(lia) Hs) as Hne.
  destruct (ChunkBufferFacts.input_region _ _ _ q_repr Hne) as (_ & He & _ & Hm).
  unfold PacketBuffer.has_space in Hs. zify_bool. split_and!; try done.
  - rewrite He. destruct q_repr as (HS & HL & _). pose proof HS as [].
    destruct (ChunkBufferFacts.layout_start _ _ _ HS HL) as (? & ? & ? & _).
    unfold ChunkBuffer2.block_addr, ChunkBuffer2.block_size in *. lia.
  - eapply mapped_sub; [exact Hm | lia | lia].
Qed.

(** Writing inside that place keeps the buffer's invariant. *)
Lemma write_inv num w d a bs m :
  PacketBufferFacts.inv num w → PacketBufferWorld.w_in w = Some d → d ≤ a →
  a + Z.of_nat (length bs) ≤ d + PacketBuffer.input_mtu (PacketBufferWorld.pb w) →
  store (PacketBufferWorld.w_mem w) a bs = Ok m →
  PacketBufferFacts.inv num (set_mem w m).
Proof.
  intros Hinv Hd Ha Hl Hst. destruct (asked_region _ _ _ Hinv Hd) as (_ & Hs & He & _).
  destruct Hinv as (q & HQ & Hin & Hout). exists q. split; [|done].
  pose proof HQ as []. pose proof (PacketBufferFacts.space_dest _ _ _ q_repr ltac:(lia) Hs) as Hne.
  unfold PacketBuffer.has_space in Hs. zify_bool. split; simpl; try done.
  eapply ChunkBufferFacts.repr_write_at; [done | done | .. | done]; lia.
Qed.

(** The cases of [stage], with an equation for each of its arguments. *)
Ltac stage_cases Hst :=
  inversion Hst as
    [o E1 E2 E3 E4 E5 E6 | d o E1 E2 E3 E4 E5 E6 | d o E1 E2 E3 E4 E5 E6 | d E1 E2 E3 E4 E5 E6
    | d o p Hp Hh E1 E2 E3 E4 E5 E6 | d o p Hp Hh E1 E2 E3 E4 E5 E6];
  match goal with E : _ = ?fl |- _ => is_var fl; subst fl end.

Lemma step_write num w q r :
  inv num w → step w (Write q) = Some r → ∃ w', r = Ok w' ∧ inv num w'
    ∧ written w' = if BufferWriter.out_have (bw w) then written w ++ [q] else written w.
Proof.
  intros [Hm HB Hi [Hw1 Hw2] (fl & Hst & Hfl)] Hs. simpl in Hs. destruct (Z.leb_spec (Z.of_nat (length q)) (fmtu w)); [|done]. injection Hs as <-.
  unfold BufferWriter.StartPacket. rewrite Hw2. simpl.
  destruct (BufferWriter.out_have (bw w)) eqn:Hhave; simpl.
  2:{ eexists. split; [done|]. split; [|done]. split; simpl; try done.
      exists fl. rewrite Hhave. done. }
  stage_cases Hst; try congruence.
  destruct (asked_region num (pw w) d HB) as (Hd & _ & _ & Hmap); [done|].
  rewrite Hi in Hmap. rewrite <- ?E5, <- ?E6.
  assert (mapped (mem_of w) (d + 2) (Z.of_nat (length q))) as Hmp.
  { eapply mapped_sub; [exact Hmap | lia | lia]. }
  destruct (store_mapped_ok _ _ _ Hmp) as [m Hst']. rewrite Hst', ok_bind.
  unfold BufferWriter.EndPacket. simpl. rewrite Hw1. do 2 run_assert. simpl.
  unfold recv_done. do 2 run_assert. simpl.
  eexists. split; [done|]. split; [|done]. split; simpl; try done.
  - eapply write_inv; [exact HB | done | .. | exact Hst']; lia.
  - exists [encode q]. rewrite <- ?E2, <- ?E3, <- ?E6. split.
    + constructor; [done|]. by eapply store_holds.
    + by rewrite fmap_app, Hfl, <- app_assoc.
Qed.

(** The encoder's and the writer's handlers, run by the interfaces' jobs. *)
Lemma step_jobs num w e r :
  inv num w → e = Op1 ∨ e = Done1 ∨ e = Op2 → step w e = Some r →
  ∃ w', r = Ok w' ∧ inv num w' ∧ written w' = written w.
Proof.
  intros [Hm HB Hi [Hw1 Hw2] (fl & Hst & Hfl)] He Hs.
  destruct He as [->|[->| ->]]; simpl in Hs; stage_cases Hst;
    rewrite <- ?E1, <- ?E2 in Hs; try discriminate; injection Hs as <-.
  - unfold BufferWriter.output_handler_recv. rewrite <- ?E4. simpl.
    eexists. split; [done|]. split; [|done]. split; simpl; try done.
    exists []. split; [|done]. rewrite <- ?E2, <- ?E3, <- ?E6. constructor.
  - destruct (asked_region num (pw w) d HB) as (Hd & _ & _ & Hmap); [done|]. rewrite Hi in Hmap.
    rewrite <- ?E6 in Hh. unfold PacketProtoEncoder.input_handler_done. rewrite <- ?E6, c_assert_true by
      (apply negb_true_iff, Z.eqb_neq; unfold NULL; lia).
    assert (htol16 (Z.of_nat (length p)) = Z.of_nat (length p)) as ->.
    { unfold htol16, to_u16. apply Z.mod_small. unfold PACKETPROTO_MAXPAYLOAD, UINT16_MAX in *. lia. }
    destruct (store_mapped_ok (mem_of w) d (le_bytes 2 (Z.of_nat (length p)))) as [m Hst'].
    { rewrite length_le_bytes. eapply mapped_sub; [exact Hmap | lia | lia]. }
    unfold store_u16. rewrite Hst'. simpl. rewrite <- ?E2. unfold recv_done, PACKETPROTO_ENCLEN,
      packetproto_header_size. do 2 run_assert. simpl.
    eexists. split; [done|]. split; [|done]. split; simpl; try done.
    + eapply write_inv; [exact HB | done | .. | exact Hst']; rewrite ?length_le_bytes; lia.
    + exists [encode p]. split; [|done]. rewrite <- ?E3, <- ?E4. constructor; [done|].
      unfold encode. apply holds_at_app. rewrite length_le_bytes. split; [by eapply store_holds|].
      eapply store_frame; [exact Hst' | exact Hh |]. rewrite length_le_bytes. lia.
  - destruct (asked_region num (pw w) d HB) as (Hd & _ & _ & _); [done|].
    unfold PacketProtoEncoder.output_handler_recv. rewrite <- ?E6. simpl.
    rewrite c_assert_true by (apply negb_true_iff, Z.eqb_neq; unfold NULL; lia). simpl.
    rewrite <- ?E1, packet_recv_ok by (unfold packetproto_header_size, NULL; lia). simpl.
    eexists. split; [done|]. split; [|done]. split; simpl; try done.
    exists []. split; [|done]. rewrite <- ?E3, <- ?E4. constructor.
Qed.

Lemma stage_requested mtu m i o :
  stage mtu m Idle (requested Idle i) i false o NULL [].
Proof. destruct i; constructor. Qed.

Lemma stage_sent mtu m ph1 ph2 i i' have o op fl :
  stage mtu m ph1 ph2 i have o op fl → (is_Some i → i' = i) →
  stage mtu m ph1 (requested ph2 i') i' have o op fl.
Proof.
  intros Hst Hs. destruct Hst; try (rewrite Hs by eauto; simpl; by constructor).
  apply stage_requested.
Qed.

(** The buffer takes the encoded packet. *)
Lemma step_done2 num w r :
  inv num w → step w Done2 = Some r → ∃ w', r = Ok w' ∧ inv num w' ∧ written w' = written w.
Proof.
  intros [Hm HB Hi Hw (fl & Hst & Hfl)] Hs. simpl in Hs. stage_cases Hst;
    rewrite <- ?E2, <- ?E3 in Hs; try discriminate; injection Hs as <-.
  destruct (asked_region num (pw w) d HB) as (Hd & Hsp & He & _); [done|].
  assert (Z.to_nat (2 + Z.of_nat (length p)) = length (encode p)
    ∧ 2 + Z.of_nat (length p) = Z.of_nat (length (encode p))) as [Hl1 Hl2].
  { rewrite length_encode. lia. }
  rewrite Hl1, (proj2 (load_ok _ _ _ _) (conj eq_refl Hh)), ok_bind, Hl2.
  destruct HB as (q & HQ & Hin & Hout). rewrite He in Hh.
  destruct (PacketBufferFacts.packet_ok num (pw w) q (encode p) HQ Hout Hsp ltac:(lia) Hh)
    as (pw' & Hr & Ha & _ & Hmtu & Hinv).
  unfold mem_of. rewrite Hr, ok_bind. eexists. split; [done|]. split; [|done].
  split; simpl; try done; [congruence|]. exists []. rewrite <- ?E1, <- ?E4, <- ?E6. split.
  - apply stage_requested.
  - by rewrite Ha, app_nil_r.
Qed.

Lemma step_sent num w r :
  inv num w → step w SendDone = Some r → ∃ w', r = Ok w' ∧ inv num w' ∧ written w' = written w.
Proof.
  intros [Hm HB Hi Hw (fl & Hst & Hfl)] Hs. simpl in Hs.
  destruct (PacketBufferWorld.w_out (pw w)) as [[d l]|] eqn:Ho; [|done]. simpl in Hs. injection Hs as <-.
  destruct HB as (q & HQ & Hin & Hout). pose proof Hout as Hout'. unfold PacketBufferFacts.out_port in Hout'.
  destruct q as [|p0 q]; rewrite Hout' in Ho; [done|]. injection Ho as <- <-.
  destruct (ChunkBufferFacts.repr_output_dest _ _ _ _ (PacketBufferFacts.q_repr _ _ _ HQ))
    as (_ & _ & _ & Hhd).
  rewrite Nat2Z.id, (proj2 (load_ok _ _ _ _) (conj eq_refl Hhd)), ok_bind.
  destruct (PacketBufferFacts.sent_ok num (pw w) p0 q HQ Hin)
    as (pw' & Hr & Ha & _ & Hmem & Hsame & Hmtu & Hinv).
  rewrite Hr, ok_bind. eexists. split; [done|]. split; [|done].
  split; simpl; try done; [congruence|]. exists fl. unfold mem_of in *. simpl. rewrite Hmem, Ha.
  split; [|done]. by eapply stage_sent.
Qed.

Lemma flow_step num w e r :
  inv num w → step w e = Some r → ∃ w', r = Ok w' ∧ inv num w'.
Proof.
  intros Hinv Hs. destruct e as [p| | | | |].
  - destruct (step_write _ _ _ _ Hinv Hs) as (w' & ? & ? & _). eauto.
  - destruct (step_jobs _ _ _ _ Hinv (or_introl eq_refl) Hs) as (w' & ? & ? & _). eauto.
  - destruct (step_jobs _ _ _ _ Hinv (or_intror (or_introl eq_refl)) Hs) as (w' & ? & ? & _). eauto.
  - destruct (step_jobs _ _ _ _ Hinv (or_intror (or_intror eq_refl)) Hs) as (w' & ? & ? & _). eauto.
  - destruct (step_done2 _ _ _ Hinv Hs) as (w' & ? & ? & _). eauto.
  - destruct (step_sent _ _ _ Hinv Hs) as (w' & ? & ? & _). eauto.
Qed.

Lemma flow_init malloc mtu num omtu m :
  BAlloc.malloc_documented malloc → 0 ≤ mtu ≤ PACKETPROTO_MAXPAYLOAD → 2 + mtu ≤ omtu →
  0 < num ≤ INT_MAX →
  init_world malloc mtu num omtu m = Ok None
  ∨ ∃ w, init_world malloc mtu num omtu m = Ok (Some w) ∧ inv num w.
Proof.
  intros Hmal Hmtu Homtu Hnum. unfold init_world, PacketProtoFlow.Init, BufferWriter.Init,
    PacketProtoEncoder.Init, PACKETPROTO_ENCLEN, packetproto_header_size.
  do 6 run_assert. rewrite !ok_bind.
  destruct (PacketBufferFacts.init_inv malloc (2 + mtu) omtu num m Hmal) as [Hi|(pw & Hi & HB & Hin & Hacc)];
    [lia | unfold PACKETPROTO_MAXPAYLOAD, UINT16_MAX, INT_MAX in *; lia | done | |];
    unfold PacketBufferWorld.init_world in Hi; cbn [fst snd].
  - destruct (PacketBuffer.Init malloc (2 + mtu) omtu num m) as [[[[b m'] cs]|]|]; [| by left | done].
    rewrite ok_bind in Hi. apply bind_ok in Hi as (? & _ & ?). done.
  - destruct (PacketBuffer.Init malloc (2 + mtu) omtu num m) as [[[[b m'] cs]|]|]; [| done | done].
    right. rewrite ok_bind in Hi. apply bind_ok in Hi as (pw' & Hr & [= ->]).
    rewrite !ok_bind. cbn [PacketProtoFlow.buffer]. rewrite Hr, ok_bind. eexists. split; [done|].
    split; simpl; try done. exists []. split; [apply stage_requested|].
    by rewrite Hacc.
Qed.

(** No job of the two interfaces is pending. *)
Definition settled (w : world) : bool :=
  match p1 w with Requested _ | Finished _ => false | _ => true end
  && match p2 w with Requested _ | Finished _ => false | _ => true end.

(** C2: A PacketProtoFlow (BufferWriter, encoder and packet buffer connected by their
    interfaces) never fails whatever its user, the jobs and the output do; what the output
    has taken is a prefix of the encodings of the packets written, in order; when no job is
    pending the user can write as long as fewer than num_packets packets wait, and an idle
    output means that nothing is left. *)
Theorem flow_correct malloc mtu num omtu m w0 es r :
  BAlloc.malloc_documented malloc → 0 ≤ mtu ≤ PACKETPROTO_MAXPAYLOAD → 2 + mtu ≤ omtu →
  0 < num ≤ INT_MAX → init_world malloc mtu num omtu m = Ok (Some w0) → run w0 es = Some r →
  ∃ w rest, r = Ok w
    ∧ encode <$> written w = PacketBufferWorld.delivered (pw w) ++ rest
    ∧ (settled w = true → Z.of_nat (length rest) < num → BufferWriter.out_have (bw w) = true)
    ∧ (settled w = true → PacketBufferWorld.w_out (pw w) = None → rest = []).
Proof.
  intros Hmal Hmtu Homtu Hnum Hi Hr.
  destruct (flow_init malloc mtu num omtu m Hmal Hmtu Homtu Hnum) as [H|(w & H & Hinv)];
    rewrite Hi in H; [done|]. injection H as <-.
  destruct (run_steps_inv _ (inv num) (flow_step num) _ _ _ Hinv Hr) as (w & -> & Hw).
  destruct Hw as [Hm (q & HQ & Hin & Hout) Hmt Hw (fl & Hst & Hfl)]. pose proof HQ as [].
  exists w, (q ++ fl). split; [done|]. split; [by rewrite app_assoc, <- q_fifo|].
  split; intros Hset; unfold settled in Hset; stage_cases Hst; rewrite <- ?E1, <- ?E2 in Hset;
    try discriminate.
  - intros Hq. rewrite app_nil_r in Hq.
    destruct (ChunkBufferFacts.capacity _ _ _ (PacketBuffer.input_mtu (PacketBufferWorld.pb (pw w))) num q_repr ltac:(lia) q_chunk q_size Hq q_fits)
      as [_ Hav].
    unfold PacketBufferFacts.in_port, PacketBuffer.has_space in Hin.
    rewrite (proj2 (Z.leb_le _ _) Hav) in Hin. congruence.
  - done.
  - intros Ho. rewrite app_nil_r. unfold PacketBufferFacts.out_port in Hout. rewrite Ho in Hout.
    by destruct q.
  - intros Ho. rewrite app_nil_r. unfold PacketBufferFacts.out_port in Hout. rewrite Ho in Hout.
    by destruct q.
Qed.

(** One packet of three bytes goes through a flow for two packets of at most five. *)
Lemma flow_correct_witness :
  ∃ w0 w rest, init_world (λ n, if n <? 100 then Some 4096 else None) 5 2 7 ∅ = Ok (Some w0)
    ∧ run w0 [Op2; Op1; Write [7; 8; 9]; Done1; Done2; SendDone; Op2; Op1] = Some (Ok w)
    ∧ [[3; 0; 7; 8; 9]] = PacketBufferWorld.delivered (pw w) ++ rest
    ∧ BufferWriter.out_have (bw w) = true.
Proof.
  destruct (init_world (λ n, if n <? 100 then Some 4096 else None) 5 2 7 ∅) as [[w0|]|] eqn:Hi;
    [|exfalso; vm_compute in Hi; done..].
  set (es := [Op2; Op1; Write [7; 8; 9]; Done1; Done2; SendDone; Op2; Op1]).
  destruct (run w0 es) as [r|] eqn:Hr;
    [|exfalso; revert Hr; vm_compute in Hi; injection Hi as <-; vm_compute; done].
  assert (BAlloc.malloc_documented (λ n, if n <? 100 then Some 4096 else None)) as Hmal.
  { intros n p Hp. unfold INT_MAX. destruct (Z.ltb_spec n 100); simplify_eq. lia. }
  destruct (flow_correct _ 5 2 7 ∅ w0 es r Hmal ltac:(vm_compute; intuition congruence) ltac:(lia)
    ltac:(unfold INT_MAX; lia) Hi Hr) as (w & rest & -> & H1 & H2 & _).
  assert (encode <$> written w = [[3; 0; 7; 8; 9]] ∧ settled w = true
    ∧ length (encode <$> written w) = 1%nat) as (He & Hset & Hlen).
  { revert Hr. vm_compute in Hi. injection Hi as <-. vm_compute. by intros [= <-]. }
  exists w0, w, rest. split; [done|]. split; [done|]. split; [by rewrite <- He|].
  apply H2; [done|]. rewrite H1, length_app in Hlen. lia.
Defined.

End FlowFacts.
