(* ===== verification/Senders.v ===== *)
(** * The small senders: flow/PacketStreamSender.c and flow/PacketPassConnector.c

    The objects the UDP gateway client puts between a packet source and a connection:
    [PacketStreamSender] writes packets to a byte stream, [PacketPassConnector] lets the
    connection behind a sender come and go.  Each has the code's handlers, a world in which
    its surroundings do whatever the interfaces allow, and its invariant. *)

From S2P Require Import Prelude CMem Interfaces.
Import PortView.

(** ** flow/PacketStreamSender.c *)

Module PacketStreamSender.

Record t := mk {
  s_in : ptr;
  in_len : Z;
  in_used : Z;
}.

Inductive call :=
| Output_Send (data : ptr) (len : Z)   (** [StreamPassInterface_Sender_Send(s->output, ..)] *)
| Input_Done.                          (** [PacketPassInterface_Done(&s->input)] *)

Definition send_data (s : t) : result (t * list call) :=
  ASSERT (0 <=? in_len s) ;;
  if in_used s <? in_len s then
    Ok (s, [Output_Send (s_in s + in_used s) (in_len s - in_used s)])
  else Ok (mk (s_in s) (-1) (in_used s), [Input_Done]).

Definition input_handler_send (s : t) (data : ptr) (data_len : Z) : result (t * list call) :=
  ASSERT (in_len s =? -1) ;;
  ASSERT (0 <=? data_len) ;;
  send_data (mk data data_len 0).

Definition output_handler_done (s : t) (data_len : Z) : result (t * list call) :=
  ASSERT (0 <=? in_len s) ;;
  ASSERT (0 <? data_len) ;;
  ASSERT (data_len <=? in_len s - in_used s) ;;
  send_data (mk (s_in s) (in_len s) (in_used s + data_len)).

Definition Init (mtu : Z) : result t :=
  ASSERT (0 <=? mtu) ;; Ok (mk NULL (-1) 0).

End PacketStreamSender.

Module StreamSenderWorld.
Import PacketStreamSender.

(** [w_in] is the packet the user has sent and not got back, [w_out] the piece outstanding at
    the stream; [sent] are the packets given to the sender, [stream] the bytes the stream took. *)
Record world := mkw {
  in_mtu : Z;
  sender : t;
  w_mem : mem;
  w_in : option (ptr * Z);
  w_out : option (ptr * Z);
  sent : list (list Z);
  stream : list Z;
}.

Definition do_call (w : world) (c : call) : result world :=
  match c with
  | Output_Send d l =>
      o ← stream_request (w_out w) d l;
      Ok (mkw (in_mtu w) (sender w) (w_mem w) (w_in w) o (sent w) (stream w))
  | Input_Done =>
      _ ← packet_done (bool_decide (is_Some (w_in w)));
      Ok (mkw (in_mtu w) (sender w) (w_mem w) None (w_out w) (sent w) (stream w))
  end.

Definition run_handler (w : world) (h : result (t * list call)) : result world :=
  '(s, cs) ← h;
  run_calls do_call (mkw (in_mtu w) s (w_mem w) (w_in w) (w_out w) (sent w) (stream w)) cs.

(** The user sends a packet that is in memory; the stream takes the first [n] bytes of the
    outstanding piece. *)
Inductive event := Packet (d : ptr) (p : list Z) | Taken (n : Z).

Definition step (w : world) (e : event) : option (result world) :=
  match e with
  | Packet d p =>
      if bool_decide (w_in w = None) && (Z.of_nat (length p) <=? in_mtu w) && (0 <? d)
         && bool_decide (load (w_mem w) d (length p) = Ok p) then
        Some (run_handler (mkw (in_mtu w) (sender w) (w_mem w) (Some (d, Z.of_nat (length p))) (w_out w)
                               (sent w ++ [p]) (stream w))
                (input_handler_send (sender w) d (Z.of_nat (length p))))
      else None
  | Taken n =>
      match w_out w with
      | Some (d, l) =>
          if (0 <? n) && (n <=? l) then
            Some (bs ← load (w_mem w) d (Z.to_nat n);
                  run_handler (mkw (in_mtu w) (sender w) (w_mem w) (w_in w) None (sent w) (stream w ++ bs))
                    (output_handler_done (sender w) n))
          else None
      | None => None
      end
  end.

Abbreviation run := (run_steps step).

Definition init_world (mtu : Z) (m : mem) : result world :=
  s ← Init mtu; Ok (mkw mtu s m None None [] []).

End StreamSenderWorld.

Module StreamSenderFacts.
Import PacketStreamSender StreamSenderWorld.

(** Either nothing is being sent, or the rest of a packet is at the stream. *)
Definition inv (w : world) : Prop :=
  match w_in w with
  | None => w_out w = None ∧ in_len (sender w) = -1 ∧ stream w = concat (sent w)
  | Some (d, l) =>
      ∃ rest, w_out w = Some (s_in (sender w) + in_used (sender w), in_len (sender w) - in_used (sender w))
        ∧ 0 < s_in (sender w) ∧ 0 ≤ in_used (sender w) < in_len (sender w)
        ∧ Z.of_nat (length rest) = in_len (sender w) - in_used (sender w)
        ∧ holds_at (w_mem w) (s_in (sender w) + in_used (sender w)) rest
        ∧ stream w ++ rest = concat (sent w)
  end.

(** [send_data] sends the rest of the packet, or reports that there is none. *)
Lemma send_data_ok mtu m s i snt str rest :
  0 < s_in s → 0 ≤ in_used s → is_Some i → Z.of_nat (length rest) = in_len s - in_used s →
  holds_at m (s_in s + in_used s) rest → str ++ rest = concat snt →
  ∃ w', run_handler (mkw mtu s m i None snt str) (send_data s) = Ok w' ∧ inv w' ∧ sent w' = snt.
Proof.
  intros Hd Hu [[d l] ->] Hl Hh Hs. unfold send_data. run_assert. unfold run_handler.
  destruct (Z.ltb_spec (in_used s) (in_len s)); rewrite ok_bind; simpl.
  - rewrite stream_request_ok by (unfold NULL; lia). simpl. eexists. split; [done|]. split; [|done].
    unfold inv. simpl. exists rest. by split_and!.
  - eexists. split; [done|]. split; [|done]. unfold inv. simpl.
    destruct rest; [|simpl in Hl; lia]. by rewrite app_nil_r in Hs.
Qed.

Lemma stream_sender_step w e r : inv w → step w e = Some r → ∃ w', r = Ok w' ∧ inv w'.
Proof.
  intros Hinv Hs. destruct e as [d p|n]; simpl in Hs.
  - case_if; [|done]. injection Hs as <-. unfold inv in Hinv.
    match goal with H : w_in w = None |- _ => rewrite H in Hinv end.
    destruct Hinv as (Ho & Hl & Hst). unfold input_handler_send. rewrite Hl.
    do 2 run_assert. rewrite Ho.
    match goal with H : load _ _ _ = Ok p |- _ => apply load_ok in H as [_ Hh] end.
    destruct (send_data_ok (in_mtu w) (w_mem w) (mk d (Z.of_nat (length p)) 0)
      (Some (d, Z.of_nat (length p))) (sent w ++ [p]) (stream w) p) as (w' & Hr & ? & _);
      try done; [simpl; lia | simpl; by rewrite Z.add_0_r | |].
    + rewrite Hst, concat_app. simpl. by rewrite app_nil_r.
    + exists w'. split; [exact Hr|done].
  - destruct (w_out w) as [[d l]|] eqn:Ho; [|done]. unfold inv in Hinv.
    destruct (w_in w) as [[di li]|] eqn:Hi; [|naive_solver].
    destruct Hinv as (rest & Hout & Hd & Hu & Hl & Hh & Hst). rewrite Ho in Hout. simplify_eq.
    case_if; [|done]. injection Hs as <-.
    pose proof (holds_at_take _ _ _ (Z.to_nat n) Hh) as Ht.
    rewrite (proj2 (load_ok _ _ _ (take (Z.to_nat n) rest))).
    2:{ split; [rewrite length_take; lia | done]. }
    rewrite ok_bind. unfold output_handler_done. do 3 run_assert.
    destruct (send_data_ok (in_mtu w) (w_mem w) (mk (s_in (sender w)) (in_len (sender w)) (in_used (sender w) + n))
      (w_in w) (sent w) (stream w ++ take (Z.to_nat n) rest) (drop (Z.to_nat n) rest))
      as (w' & Hr & ? & _); simpl; try lia.
    + rewrite Hi. eauto.
    + rewrite length_drop. lia.
    + apply (holds_at_drop _ _ _ (Z.to_nat n)) in Hh; [|lia].
      by rewrite Z2Nat.id, <- Z.add_assoc in Hh by lia.
    + by rewrite <- app_assoc, take_drop.
    + rewrite <- Hi. exists w'. split; [exact Hr|done].
Qed.

(** The stream sender writes the packets it is given to the stream one after another,
    whatever pieces the stream takes, and reports a packet done exactly when all its bytes
    were taken. *)
Theorem stream_sender_correct mtu m w0 es r :
  init_world mtu m = Ok w0 → run w0 es = Some r →
  ∃ w rest, r = Ok w ∧ stream w ++ rest = concat (sent w)
    ∧ (w_in w = None ↔ w_out w = None) ∧ (w_in w = None → rest = []).
Proof.
  intros Hi Hr. assert (inv w0) as Hinv.
  { unfold init_world, Init in Hi. inv_ok. done. }
  destruct (run_steps_inv _ inv stream_sender_step _ _ _ Hinv Hr) as (w & -> & Hw).
  unfold inv in Hw. destruct (w_in w) as [[d l]|] eqn:Hin.
  - destruct Hw as (rest & Ho & _ & _ & _ & _ & Hs). exists w, rest. rewrite Ho. naive_solver.
  - destruct Hw as (Ho & _ & Hs). exists w, []. rewrite app_nil_r, Ho. naive_solver.
Qed.

Lemma stream_sender_correct_witness :
  ∃ w0 w, init_world 5 (<[10 := 7]> (<[11 := 8]> ∅)) = Ok w0
    ∧ run w0 [Packet 10 [7; 8]; Taken 1; Taken 1; Packet 11 []] = Some (Ok w)
    ∧ stream w = [7; 8] ∧ w_in w = None.
Proof.
  destruct (init_world 5 (<[10 := 7]> (<[11 := 8]> ∅))) as [w0|] eqn:Hi; [|done].
  destruct (run w0 [Packet 10 [7; 8]; Taken 1; Taken 1; Packet 11 []]) as [r|] eqn:Hr;
    [|exfalso; revert Hr; vm_compute in Hi; injection Hi as <-; vm_compute; done].
  destruct (stream_sender_correct _ _ _ _ _ Hi Hr) as (w & rest & -> & H1 & _ & H2).
  assert (w_in w = None ∧ concat (sent w) = [7; 8]) as [Hin Hc].
  { revert Hr. vm_compute in Hi. injection Hi as <-. vm_compute. by intros [= <-]. }
  exists w0, w. split; [done|]. split; [done|]. rewrite (H2 Hin), app_nil_r in H1.
  by rewrite H1.
Defined.

End StreamSenderFacts.

(** ** flow/PacketPassConnector.c *)

Module PacketPassConnector.

(** [output] is whether an output is connected. *)
Record t := mk {
  input_mtu : Z;
  in_len : Z;
  c_in : ptr;
  output : bool;
}.

Inductive call :=
| Output_Send (data : ptr) (len : Z)   (** [PacketPassInterface_Sender_Send(o->output, ..)] *)
| Input_Done.                          (** [PacketPassInterface_Done(&o->input)] *)

Definition input_handler_send (o : t) (data : ptr) (data_len : Z) : result (t * list call) :=
  ASSERT (0 <=? data_len) ;;
  ASSERT (data_len <=? input_mtu o) ;;
  ASSERT (in_len o =? -1) ;;
  Ok (mk (input_mtu o) data_len data (output o),
      if output o then [Output_Send data data_len] else []).

Definition output_handler_done (o : t) : result (t * list call) :=
  ASSERT (0 <=? in_len o) ;;
  ASSERT output o ;;
  Ok (mk (input_mtu o) (-1) (c_in o) (output o), [Input_Done]).

Definition Init (mtu : Z) : result t :=
  ASSERT (0 <=? mtu) ;; Ok (mk mtu (-1) NULL false).

Definition ConnectOutput (o : t) (output_mtu : Z) : result (t * list call) :=
  ASSERT negb (output o) ;;
  ASSERT (input_mtu o <=? output_mtu) ;;
  Ok (mk (input_mtu o) (in_len o) (c_in o) true,
      if 0 <=? in_len o then [Output_Send (c_in o) (in_len o)] else []).

Definition DisconnectOutput (o : t) : result t :=
  ASSERT output o ;; Ok (mk (input_mtu o) (in_len o) (c_in o) false).

End PacketPassConnector.

Module ConnectorWorld.
Import PacketPassConnector.

(** [w_in] is the packet the user has sent and not got back; [w_out] the MTU of the connected
    output and the packet outstanding at it. *)
Record world := mkw {
  con : t;
  w_in : option (ptr * Z);
  w_out : option (Z * option (ptr * Z));
}.

Definition do_call (w : world) (c : call) : result world :=
  match c, w_out w with
  | Output_Send d l, Some (mtu, o) =>
      o ← packet_send mtu o d l; Ok (mkw (con w) (w_in w) (Some (mtu, o)))
  | Output_Send _ _, None => Fault BadAccess
  | Input_Done, _ =>
      _ ← packet_done (bool_decide (is_Some (w_in w))); Ok (mkw (con w) None (w_out w))
  end.

(** Events of the user, the output and the owner. *)
Inductive event := Send (d : ptr) (l : Z) | SendDone | Connect (mtu : Z) | Disconnect.

Definition step (w : world) (e : event) : option (result world) :=
  match e with
  | Send d l =>
      if bool_decide (w_in w = None) && (0 <=? l) && (l <=? input_mtu (con w))
         && (negb (0 <? l) || negb (d =? NULL)) then
        Some ('(o, cs) ← input_handler_send (con w) d l;
              run_calls do_call (mkw o (Some (d, l)) (w_out w)) cs)
      else None
  | SendDone =>
      match w_out w with
      | Some (mtu, Some _) =>
          Some ('(o, cs) ← output_handler_done (con w);
                run_calls do_call (mkw o (w_in w) (Some (mtu, None))) cs)
      | _ => None
      end
  | Connect mtu =>
      if bool_decide (w_out w = None) && (input_mtu (con w) <=? mtu) then
        Some ('(o, cs) ← ConnectOutput (con w) mtu;
              run_calls do_call (mkw o (w_in w) (Some (mtu, None))) cs)
      else None
  | Disconnect =>
      match w_out w with
      | Some _ => Some (o ← DisconnectOutput (con w); Ok (mkw o (w_in w) None))
      | None => None
      end
  end.

Abbreviation run := (run_steps step).

Definition init_world (mtu : Z) : result world := o ← Init mtu; Ok (mkw o None None).

End ConnectorWorld.

Module ConnectorFacts.
Import PacketPassConnector ConnectorWorld.

(** The connector remembers exactly the user's packet, and it is at the output when there is one. *)
Definition inv (w : world) : Prop :=
  output (con w) = bool_decide (is_Some (w_out w))
  ∧ match w_in w with
    | None => in_len (con w) = -1
    | Some (d, l) => in_len (con w) = l ∧ c_in (con w) = d ∧ 0 ≤ l ≤ input_mtu (con w)
                     ∧ (0 < l → d ≠ NULL)
    end
  ∧ match w_out w with Some (mtu, o) => o = w_in w ∧ input_mtu (con w) ≤ mtu | None => True end.

Lemma connector_step w e r : inv w → step w e = Some r → ∃ w', r = Ok w' ∧ inv w'.
Proof.
  intros (Ho & Hi & Hp) Hs. destruct e as [d l| |mtu|]; simpl in Hs.
  - destruct (bool_decide (w_in w = None) && (0 <=? l) && (l <=? input_mtu (con w))
         && (negb (0 <? l) || negb (d =? NULL))) eqn:Hc; [|done]. injection Hs as <-. zify_bool.
    match goal with H : w_in w = None |- _ => rewrite H in Hi, Hp end.
    assert (0 < l → d ≠ NULL) as Hnn.
    { intros Hl ->. rewrite (proj2 (Z.ltb_lt _ _)) in * by done. simpl in *. done. }
    unfold input_handler_send. rewrite Hi. do 3 run_assert. rewrite ok_bind, Ho.
    destruct (w_out w) as [[mtu o]|] eqn:Hw; simpl.
    + destruct Hp as [-> Hm]. rewrite packet_send_ok by (done || lia). simpl. eexists. split; [done|].
      split; [done|]. simpl. split_and!; done || lia.
    + eexists. split; [done|]. split; [done|]. simpl. split_and!; done || lia.
  - destruct (w_out w) as [[mtu [[d l]|]]|] eqn:Hw; try done. injection Hs as <-.
    destruct Hp as [Hp Hm]. rewrite <- Hp in Hi. destruct Hi as (Hl & _ & Hlb & _).
    unfold output_handler_done. rewrite Hl, Ho. do 2 run_assert. simpl. rewrite <- Hp. simpl.
    eexists. split; [done|]. split; [done|]. simpl. split_and!; done || lia.
  - destruct (bool_decide (w_out w = None) && (input_mtu (con w) <=? mtu)) eqn:Hc; [|done].
    injection Hs as <-. zify_bool. match goal with H : w_out w = None |- _ => rewrite H in Ho, Hp end.
    unfold ConnectOutput. rewrite Ho. do 2 run_assert. rewrite ok_bind.
    destruct (w_in w) as [[d l]|] eqn:Hw.
    + destruct Hi as (Hl & Hd & Hlb & Hnn). rewrite Hl, (proj2 (Z.leb_le _ _)) by lia. simpl.
      rewrite Hd, packet_send_ok by (done || lia). simpl. eexists. split; [done|].
      split; [done|]. simpl. split_and!; done || lia.
    + rewrite Hi. simpl. eexists. split; [done|]. split; [done|]. simpl. split_and!; done || lia.
  - destruct (w_out w) as [[mtu o]|] eqn:Hw; [|done]. injection Hs as <-. unfold DisconnectOutput.
    rewrite Ho. simpl. eexists. split; [done|]. split; [done|]. simpl. by split.
Qed.

(** Whenever an output is connected, the packet outstanding at it is the one the user has
    given: connecting an output sends the packet waiting, and disconnecting one loses none. *)
Theorem connector_correct mtu w0 es r :
  init_world mtu = Ok w0 → run w0 es = Some r →
  ∃ w, r = Ok w ∧ ∀ omtu o, w_out w = Some (omtu, o) → o = w_in w.
Proof.
  intros Hi Hr. assert (inv w0) as Hinv.
  { unfold init_world, Init in Hi. inv_ok. done. }
  destruct (run_steps_inv _ inv connector_step _ _ _ Hinv Hr) as (w & -> & _ & _ & Hw).
  exists w. split; [done|]. intros omtu o Ho. rewrite Ho in Hw. by destruct Hw.
Qed.

(** The connection is replaced while a packet is outstanding; the new one gets the packet. *)
Lemma connector_correct_witness :
  ∃ w0 w, init_world 100 = Ok w0
    ∧ run w0 [Send 4096 10; Connect 100; Disconnect; Connect 200] = Some (Ok w)
    ∧ w_out w = Some (200, Some (4096, 10)).
Proof.
  destruct (run (mkw (mk 100 (-1) NULL false) None None)
    [Send 4096 10; Connect 100; Disconnect; Connect 200]) as [r|] eqn:Hr; [|done].
  destruct (connector_correct 100 _ _ _ eq_refl Hr) as (w & -> & Hw).
  eexists _, w. split; [reflexivity|]. split; [exact Hr|].
  assert (is_Some (w_in w) ∧ ∃ o, w_out w = Some (200, o) ∧ w_in w = Some (4096, 10)) as [_ (o & Ho & Hi)].
  { vm_compute in Hr. injection Hr as <-. split; [by eexists|]. by eexists. }
  by rewrite Ho, (Hw _ _ Ho), Hi.
Defined.

End ConnectorFacts.
