(* ===== verification/InactivityMonitor.v ===== *)
(** * The inactivity monitor: flowextra/PacketPassInactivityMonitor.c

    Sits between a sender and its output and calls a handler when nothing has been sent for some time; the UDP
    gateway client sends its keep-alive packets from it.

    [PacketPassInactivityMonitor] has the functions, [MonitorWorld] runs them with the user, the output and a clock, and
    [MonitorFacts] shows when the handler is called: never within the interval of the last activity, and never
    while a packet is being sent unless a report was forced. *)

From S2P Require Import Prelude CMem Interfaces Reactor.
Import PortView.

Module PacketPassInactivityMonitor.

(** [handler] is whether there is one, [has_cancel] whether the input supports cancelling. *)
Record t := mk {
  interval : Z;
  handler : bool;
  has_cancel : bool;
}.

Inductive call :=
| Output_Send (data : ptr) (len : Z)   (** [PacketPassInterface_Sender_Send(o->output, ..)] *)
| Output_RequestCancel                 (** [PacketPassInterface_Sender_RequestCancel(o->output)] *)
| Input_Done                           (** [PacketPassInterface_Done(&o->input)] *)
| SetTimer                             (** [BReactor_SetTimer(o->reactor, &o->timer)] *)
| SetTimerAfter (after : Z)
| RemoveTimer
| Handler.                             (** [o->handler(o->user)] *)

Definition input_handler_send (o : t) (data : ptr) (data_len : Z) : list call :=
  [Output_Send data data_len; RemoveTimer].

Definition input_handler_requestcancel (o : t) : list call := [Output_RequestCancel].

Definition output_handler_done (o : t) : list call := [SetTimer; Input_Done].

Definition timer_handler (o : t) : list call := SetTimer :: (if handler o then [Handler] else []).

(** [output_cancel] is [PacketPassInterface_HasCancel(output)]. *)
Definition Init (output_cancel : bool) (interval : Z) (handler : bool) : t * list call :=
  (mk interval handler output_cancel, [SetTimer]).

Definition Free (o : t) : list call := [RemoveTimer].

Definition SetHandler (o : t) (handler : bool) : t := mk (interval o) handler (has_cancel o).

Definition Force (o : t) : list call := [SetTimerAfter 0].

End PacketPassInactivityMonitor.

Module MonitorWorld.
Import PacketPassInactivityMonitor.

(** What happened, with its time: the monitor was started, a packet was sent or was done, a report was forced, or the
    timer's handler ran; [busy] is whether a packet was being sent then, and [handled] whether
    there was a handler. *)
Inductive entry :=
| Started (time : Z)
| Sent (time : Z)
| Done (time : Z)
| Forced (time : Z)
| Reported (time : Z) (busy handled : bool).

#[global] Instance entry_eq_dec : EqDecision entry.
Proof. solve_decision. Defined.

(** [timer] is the time the timer expires, when it is running; [w_in] the packet of the user's, [w_out] the one
    outstanding at the output, [cancel] whether it was asked to cancel it; [log] is newest first, and [calls] the
    number of calls of the user's handler. *)
Record world := mkw {
  mtu : Z;
  mon : t;
  now : Z;
  timer : option Z;
  w_in : option (ptr * Z);
  w_out : option (ptr * Z);
  cancel : bool;
  log : list entry;
  calls : nat;
}.

Definition set_timer (w : world) (tm : option Z) : world :=
  mkw (mtu w) (mon w) (now w) tm (w_in w) (w_out w) (cancel w) (log w) (calls w).

Definition set_ports (w : world) (i o : option (ptr * Z)) (c : bool) : world :=
  mkw (mtu w) (mon w) (now w) (timer w) i o c (log w) (calls w).

Definition record (w : world) (e : entry) : world :=
  mkw (mtu w) (mon w) (now w) (timer w) (w_in w) (w_out w) (cancel w) (e :: log w) (calls w).

Definition do_call (w : world) (c : call) : result world :=
  match c with
  | Output_Send d l => o ← packet_send (mtu w) (w_out w) d l; Ok (set_ports w (w_in w) o false)
  | Output_RequestCancel =>
      ASSERT bool_decide (is_Some (w_out w)) ;;
      ASSERT has_cancel (mon w) ;;
      ASSERT negb (cancel w) ;;
      Ok (set_ports w (w_in w) (w_out w) true)
  | Input_Done => _ ← packet_done (bool_decide (is_Some (w_in w))); Ok (set_ports w None (w_out w) (cancel w))
  | SetTimer => Ok (set_timer w (Some (BTime.btime_add (now w) (interval (mon w)))))
  | SetTimerAfter n => Ok (set_timer w (Some (BTime.btime_add (now w) n)))
  | RemoveTimer => Ok (set_timer w None)
  | Handler => Ok (mkw (mtu w) (mon w) (now w) (timer w) (w_in w) (w_out w) (cancel w) (log w) (S (calls w)))
  end.

(** The user sends or cancels, or its handler is replaced, or a report is forced; the output is done; time
    passes; the timer has expired. *)
Inductive event :=
| Send (d : ptr) (l : Z)
| RequestCancel
| OutputDone
| NewHandler (handler : bool)
| ForceReport
| Tick (time : Z)
| Expire.

Definition step (w : world) (e : event) : option (result world) :=
  match e with
  | Send d l =>
      if bool_decide (w_in w = None) && (0 <=? l) && (l <=? mtu w) && (negb (0 <? l) || negb (d =? NULL)) then
        Some (run_calls do_call (record (set_ports w (Some (d, l)) (w_out w) false) (Sent (now w)))
                (input_handler_send (mon w) d l))
      else None
  | RequestCancel =>
      if bool_decide (is_Some (w_in w)) && has_cancel (mon w) && negb (cancel w) then
        Some (run_calls do_call w (input_handler_requestcancel (mon w)))
      else None
  | OutputDone =>
      match w_out w with
      | Some _ => Some (run_calls do_call (record (set_ports w (w_in w) None (cancel w)) (Done (now w)))
                          (output_handler_done (mon w)))
      | None => None
      end
  | NewHandler h =>
      Some (Ok (mkw (mtu w) (SetHandler (mon w) h) (now w) (timer w) (w_in w) (w_out w) (cancel w) (log w) (calls w)))
  | ForceReport => Some (run_calls do_call (record w (Forced (now w))) (Force (mon w)))
  | Tick time =>
      if (now w <=? time) && (time <=? BTime.INT64_MAX) then
        Some (Ok (mkw (mtu w) (mon w) time (timer w) (w_in w) (w_out w) (cancel w) (log w) (calls w)))
      else None
  | Expire =>
      match timer w with
      | Some tm =>
          if tm <=? now w then
            Some (run_calls do_call
                    (record (set_timer w None) (Reported (now w) (bool_decide (is_Some (w_out w))) (handler (mon w))))
                    (timer_handler (mon w)))
          else None
      | None => None
      end
  end.

Abbreviation run := (run_steps step).

Definition init_world (mtu : Z) (cancel : bool) (interval : Z) (handler : bool) (start : Z) : result world :=
  let '(o, cs) := Init cancel interval handler in
  run_calls do_call (mkw mtu o start None None None false [Started start] 0) cs.

End MonitorWorld.

Module MonitorFacts.
Import PacketPassInactivityMonitor MonitorWorld.

(** When the timer expires after an event: [interval] after it, unless a packet is being sent; or at once. *)
Definition expiry (i : Z) (e : entry) : option Z :=
  match e with
  | Started t | Done t | Reported t _ _ => Some (BTime.btime_add t i)
  | Sent _ => None
  | Forced t => Some (BTime.btime_add t 0)
  end.

(** Every report comes when the timer expires that the event before it has set. *)
Fixpoint on_time (i : Z) (l : list entry) : Prop :=
  match l with
  | e :: l =>
      match e with
      | Reported t _ _ => ∃ e' l' x, l = e' :: l' ∧ expiry i e' = Some x ∧ x ≤ t
      | _ => True
      end ∧ on_time i l
  | [] => True
  end.

Definition is_forced (e : entry) : bool := match e with Forced _ => true | _ => false end.
Definition handled_b (e : entry) : bool := match e with Reported _ _ h => h | _ => false end.
Definition while_busy (e : entry) : bool := match e with Reported _ b _ => b | _ => false end.

Record inv (i : Z) (w : world) : Prop := {
  v_interval : interval (mon w) = i;
  v_ports : w_out w = w_in w;
  v_timer : ∃ e l, log w = e :: l ∧ timer w = expiry i e;
  v_log : on_time i (log w);
  v_busy : Forall (λ e, is_forced e = false) (log w) →
           (is_Some (w_out w) ↔ ∃ t l, log w = Sent t :: l) ∧ Forall (λ e, while_busy e = false) (log w);
  v_calls : calls w = length (filter handled_b (log w));
}.

Lemma monitor_step i w e r : inv i w → step w e = Some r → ∃ w', r = Ok w' ∧ inv i w'.
Proof.
  intros [Hi Hp (e0 & l0 & Hl & Ht) Hlog Hb Hc] Hs. destruct e as [d l| | |h| |time|]; cbn [step] in Hs.
  - case_if; [|done]. injection Hs as <-. simpl.
    match goal with H : w_in w = None |- _ => rewrite H in Hp end. rewrite Hp.
    assert (0 < l → d ≠ NULL) as Hnn.
    { intros Hl0 ->. rewrite (proj2 (Z.ltb_lt _ _)) in * by done. simpl in *. done. }
    rewrite packet_send_ok by (done || lia). simpl. eexists. split; [done|].
    split; simpl; eauto. intros [_ Hf]%Forall_cons. destruct (Hb Hf) as [_ Hw]. split; [|by constructor].
    split; [eauto | by eexists].
  - case_if; [|done]. injection Hs as <-. simpl. rewrite Hp. do 3 run_assert. simpl. eexists. split; [done|].
    rewrite <- Hp. split; simpl; eauto.
  - destruct (w_out w) as [[d l]|] eqn:Ho; [|done]. injection Hs as <-. simpl. rewrite <- Hp. simpl.
    eexists. split; [done|]. split; simpl; rewrite ?Hi; eauto.
    intros [_ Hf]%Forall_cons. destruct (Hb Hf) as [_ Hw]. split; [|by constructor].
    split; [by intros [? [=]] | by intros (? & ? & [=])].
  - injection Hs as <-. eexists. split; [done|]. split; simpl; eauto.
  - injection Hs as <-. eexists. split; [done|]. split; simpl; eauto.
    by intros [[=] _]%Forall_cons.
  - case_if; [|done]. injection Hs as <-. eexists. split; [done|]. split; simpl; eauto.
  - destruct (timer w) as [tm|] eqn:Htm; [|done]. case_if; [|done]. apply (inj Some) in Hs as <-.
    assert (∃ w', run_calls do_call
      (record (set_timer w None) (Reported (now w) (bool_decide (is_Some (w_out w))) (handler (mon w)))) (timer_handler (mon w)) = Ok w' ∧
      mon w' = mon w ∧ w_out w' = w_out w ∧ w_in w' = w_in w ∧
      timer w' = Some (BTime.btime_add (now w) i) ∧ calls w' = (Nat.b2n (handler (mon w)) + calls w)%nat ∧
      log w' = Reported (now w) (bool_decide (is_Some (w_out w))) (handler (mon w)) :: log w) as (w' & -> & Em & Eo & Ei & Et & Ec & El).
    { unfold timer_handler. destruct (handler (mon w)); simpl; eexists; rewrite Hi; split_and!; try done; simpl; lia. }
    exists w'. split; [done|]. split.
    + by rewrite Em.
    + by rewrite Eo, Ei.
    + rewrite El, Et. eauto.
    + rewrite El. split; [|done]. exists e0, l0, tm. rewrite Hl, <- Ht. split_and!; [done..|lia].
    + rewrite El, Eo. intros [_ Hf]%Forall_cons. destruct (Hb Hf) as [Hbu Hw].
      assert (¬ is_Some (w_out w)) as Hidle.
      { rewrite Hbu. intros (t & l & Hl'). rewrite Hl' in Hl. injection Hl as <- <-. done. }
      split; [split; [done | by intros (? & ? & [=])]|].
      constructor; [|done]. simpl. by rewrite bool_decide_false.
    + rewrite El, Ec, filter_cons. simpl. destruct (handler (mon w)); simpl; lia.
Qed.

Lemma monitor_init mtu cancel i h start w :
  init_world mtu cancel i h start = Ok w → inv i w.
Proof.
  intros [= <-]. split; simpl; eauto. intros _. split; [|by repeat constructor].
  split; [by intros [? [=]] | by intros (? & ? & [=])].
Qed.

(** C40: The inactivity monitor's handler is called only when its timer has expired, an interval
    or more after the last activity (start, packet done or report) or after a report was
    forced, and once for each expiry while there is a handler; packets pass through one at a
    time; and unless a report was forced, the timer runs exactly while no packet is being
    sent, so that no report comes while one is. *)
Theorem monitor_correct mtu cancel i h start w0 es r :
  init_world mtu cancel i h start = Ok w0 → run w0 es = Some r →
  ∃ w, r = Ok w ∧ w_out w = w_in w ∧ on_time i (log w) ∧
    (∃ e l, log w = e :: l ∧ timer w = expiry i e) ∧
    calls w = length (filter handled_b (log w)) ∧
    (Forall (λ e, is_forced e = false) (log w) →
     Forall (λ e, while_busy e = false) (log w) ∧ (timer w = None ↔ is_Some (w_in w))).
Proof.
  intros Hi%monitor_init Hr.
  destruct (run_steps_inv _ (inv i) (monitor_step i) _ _ _ Hi Hr) as (w & -> & [_ Hp (e & l & Hl & Ht) Hlog Hb Hc]).
  exists w. split_and!; [done.. | eauto | done |]. intros Hf. destruct (Hb Hf) as [Hbu Hw]. split; [done|].
  rewrite <- Hp, Hbu, Ht, Hl. split.
  - destruct e; simpl; try done. eauto.
  - by intros (t & l' & [= -> ->]).
Qed.

(** Two reports of an idle monitor and a packet that takes longer than the interval. *)
Definition ex_events : list event :=
  [Tick 10; Expire; Tick 25; Expire; Send 4096 5; Tick 100; OutputDone; Tick 110; Expire].

Lemma monitor_correct_witness :
  ∃ w, run_steps step (set_timer (mkw 9 (mk 10 true false) 0 None None None false [Started 0] 0) (Some 10)) ex_events
       = Some (Ok w) ∧
    log w = [Reported 110 false true; Done 100; Sent 25; Reported 25 false true; Reported 10 false true; Started 0] ∧
    calls w = 3%nat ∧ timer w = Some 120 ∧ on_time 10 (log w).
Proof.
  assert (Hr : ∃ w, run (set_timer (mkw 9 (mk 10 true false) 0 None None None false [Started 0] 0) (Some 10)) ex_events
    = Some (Ok w) ∧ log w = [Reported 110 false true; Done 100; Sent 25; Reported 25 false true; Reported 10 false true; Started 0] ∧
    calls w = 3%nat ∧ timer w = Some 120).
  { eexists. split; [vm_compute; reflexivity|]. by vm_compute. }
  destruct Hr as (w & Hr & Hl & Hc & Ht).
  destruct (monitor_correct 9 false 10 true 0 _ _ _ eq_refl Hr) as (w' & [= <-] & _ & Ho & _).
  exists w. split_and!; done.
Defined.

(** A report that is forced while a packet is being sent comes while it is being sent, although the header says of
    the handler that "it is guaranteed that the interfaces are in not sending state", and so do the reports after it. *)
Theorem forced_report_while_sending :
  ∃ w0 w, init_world 9 false 10 true 0 = Ok w0 ∧
    run w0 [Send 4096 5; ForceReport; Expire; Tick 10; Expire] = Some (Ok w) ∧
    log w = [Reported 10 true true; Reported 0 true true; Forced 0; Sent 0; Started 0] ∧ calls w = 2%nat.
Proof. eexists _, _. split; [reflexivity|]. split; [vm_compute; reflexivity|]. by vm_compute. Qed.

End MonitorFacts.
