(* ===== verification/FairQueue.v ===== *)
(** * The fair queue: flow/PacketPassFairQueue.c

    Packets of any number of flows share one output.  Every flow has a virtual
    time, advanced by the size of each packet it sends; the queued flow with the
    least time is sent next, and a flow that becomes active is raised to the
    current time.  Times are 64-bit and are rescaled for all flows when one
    would overflow.

    The flows are queued in an ordered set, a [Tree]; [FairQueue] has the handlers and operations,
    [FairQueueWorld] runs them against any output and any users of the flows, and
    [FairQueueFacts] shows safety, the ordering of service, the exactness of the
    rescaling and the fairness bound. *)

From S2P Require Import Prelude CMem Tree Interfaces.
Import PortView.

Module FairQueue.

Definition FAIRQUEUE_MAX_TIME : Z := UINT64_MAX.

(** A flow object; [handler_busy] holds the [user] argument when the handler is not NULL. *)
Record flow := mkf {
  time : Z;
  is_queued : bool;
  q_data : ptr;
  q_data_len : Z;
  handler_busy : option Z;
}.

(** The queue; [flows] is the memory of the flow objects that are initialised, by address,
    [schedule_job] whether the job is set. *)
Record t := mk {
  output_mtu : Z;
  use_cancel : bool;
  packet_weight : Z;
  sending_flow : option ptr;
  sending_len : Z;
  previous_flow : option ptr;
  queued_tree : list ptr;
  flows_list : list ptr;
  freeing : bool;
  schedule_job : bool;
  flows : gmap ptr flow;
}.

Inductive call :=
| Output_Send (data : ptr) (len : Z)   (** [PacketPassInterface_Sender_Send(m->output, ..)] *)
| Output_RequestCancel                 (** [PacketPassInterface_Sender_RequestCancel(m->output)] *)
| Input_Done (f : ptr)                 (** [PacketPassInterface_Done(&flow->input)] *)
| Handler_busy (user : Z).             (** [handler(flow->user)] *)

Definition compare_flows (fl : gmap ptr flow) (f1 f2 : ptr) : Z :=
  let tm f := match fl !! f with Some x => time x | None => 0 end in
  let cmp := B_COMPARE (tm f1) (tm f2) in
  if negb (cmp =? 0) then cmp else B_COMPARE f1 f2.

Definition set_time (x : flow) (tm : Z) : flow :=
  mkf tm (is_queued x) (q_data x) (q_data_len x) (handler_busy x).

Definition set_queued (x : flow) (b : bool) : flow :=
  mkf (time x) b (q_data x) (q_data_len x) (handler_busy x).

Definition set_packet (x : flow) (d : ptr) (l : Z) : flow :=
  mkf (time x) (is_queued x) d l (handler_busy x).

Definition set_handler (x : flow) (h : option Z) : flow :=
  mkf (time x) (is_queued x) (q_data x) (q_data_len x) h.

Definition set_flows (m : t) (fl : gmap ptr flow) : t :=
  mk (output_mtu m) (use_cancel m) (packet_weight m) (sending_flow m) (sending_len m)
     (previous_flow m) (queued_tree m) (flows_list m) (freeing m) (schedule_job m) fl.

Definition set_tree (m : t) (tr : list ptr) : t :=
  mk (output_mtu m) (use_cancel m) (packet_weight m) (sending_flow m) (sending_len m)
     (previous_flow m) tr (flows_list m) (freeing m) (schedule_job m) (flows m).

Definition set_list (m : t) (l : list ptr) : t :=
  mk (output_mtu m) (use_cancel m) (packet_weight m) (sending_flow m) (sending_len m)
     (previous_flow m) (queued_tree m) l (freeing m) (schedule_job m) (flows m).

Definition set_sending (m : t) (s : option ptr) (l : Z) : t :=
  mk (output_mtu m) (use_cancel m) (packet_weight m) s l
     (previous_flow m) (queued_tree m) (flows_list m) (freeing m) (schedule_job m) (flows m).

Definition set_previous (m : t) (p : option ptr) : t :=
  mk (output_mtu m) (use_cancel m) (packet_weight m) (sending_flow m) (sending_len m)
     p (queued_tree m) (flows_list m) (freeing m) (schedule_job m) (flows m).

Definition set_job (m : t) (b : bool) : t :=
  mk (output_mtu m) (use_cancel m) (packet_weight m) (sending_flow m) (sending_len m)
     (previous_flow m) (queued_tree m) (flows_list m) (freeing m) b (flows m).

Definition set_freeing (m : t) : t :=
  mk (output_mtu m) (use_cancel m) (packet_weight m) (sending_flow m) (sending_len m)
     (previous_flow m) (queued_tree m) (flows_list m) true (schedule_job m) (flows m).

(** Dereferencing a pointer to a flow. *)
Definition get (m : t) (f : ptr) : result flow := or_fault BadAccess (flows m !! f).

Definition put (m : t) (f : ptr) (x : flow) : t := set_flows m (<[f := x]> (flows m)).

Definition get_current_time (m : t) : result Z :=
  match sending_flow m with
  | Some s => x ← get m s; Ok (time x)
  | None =>
    first ← match Tree.GetFirst (queued_tree m) with
            | Some f => x ← get m f; ASSERT is_queued x ;; Ok (time x, true)
            | None => Ok (0, false)
            end;
    now ← match previous_flow m with
          | Some p => x ← get m p;
                      Ok (if negb (first : Z * bool).2 || (time x <? first.1) then (time x, true) else first)
          | None => Ok first
          end;
    Ok (if (now : Z * bool).2 then now.1 else 0)
  end.

(** The body of the loop over all flows. *)
Definition subtract_time (self : ptr) (subtract : Z) (fl : gmap ptr flow) (f : ptr)
    : result (gmap ptr flow) :=
  x ← or_fault BadAccess (fl !! f);
  if (time x <? subtract) && negb (f =? self) then
    ASSERT negb (is_queued x) ;; Ok (<[f := set_time x 0]> fl)
  else Ok (<[f := set_time x (to_u64 (time x - subtract))]> fl).

Fixpoint subtract_all (self : ptr) (subtract : Z) (fl : gmap ptr flow) (fs : list ptr)
    : result (gmap ptr flow) :=
  match fs with
  | [] => Ok fl
  | f :: fs => fl ← subtract_time self subtract fl f; subtract_all self subtract fl fs
  end.

Definition increment_sent_flow (m : t) (f : ptr) (amount : Z) : result t :=
  x ← get m f;
  ASSERT (amount <=? FAIRQUEUE_MAX_TIME) ;;
  ASSERT negb (is_queued x) ;;
  ASSERT bool_decide (sending_flow m = None) ;;
  fl ← (if FAIRQUEUE_MAX_TIME - time x <? amount then
          subtract ← match Tree.GetFirst (queued_tree m) with
                     | None => Ok (time x)
                     | Some f1 => y ← get m f1; ASSERT is_queued y ;; Ok (time y)
                     end;
          subtract_all f subtract (flows m) (flows_list m)
        else Ok (flows m));
  x ← or_fault BadAccess (fl !! f);
  Ok (set_flows m (<[f := set_time x (to_u64 (time x + amount))]> fl)).

Definition schedule (m : t) : result (t * list call) :=
  ASSERT bool_decide (sending_flow m = None) ;;
  ASSERT bool_decide (previous_flow m = None) ;;
  ASSERT negb (freeing m) ;;
  match Tree.GetFirst (queued_tree m) with
  | None => Fault AssertFailed
  | Some f =>
      x ← get m f;
      ASSERT is_queued x ;;
      let m := set_tree m (Tree.Remove (queued_tree m) f) in
      let m := put m f (set_queued x false) in
      Ok (set_sending m (Some f) (q_data_len x), [Output_Send (q_data x) (q_data_len x)])
  end.

Definition schedule_job_handler (m : t) : result (t * list call) :=
  ASSERT bool_decide (sending_flow m = None) ;;
  ASSERT negb (freeing m) ;;
  let m := set_previous m None in
  if negb (Tree.IsEmpty (queued_tree m)) then schedule m else Ok (m, []).

Definition input_handler_send (m : t) (f : ptr) (data : ptr) (data_len : Z)
    : result (t * list call) :=
  x ← get m f;
  ASSERT bool_decide (Some f ≠ sending_flow m) ;;
  ASSERT negb (is_queued x) ;;
  ASSERT negb (freeing m) ;;
  m ← (if bool_decide (Some f = previous_flow m) then Ok (set_previous m None)
       else now ← get_current_time m;
            Ok (put m f (set_time x (bmax_uint64 (time x) now))));
  x ← get m f;
  let m := put m f (set_packet x data data_len) in
  tr ← or_fault AssertFailed (Tree.Insert (compare_flows (flows m)) (queued_tree m) f);
  let m := set_tree m tr in
  x ← get m f;
  let m := put m f (set_queued x true) in
  if bool_decide (sending_flow m = None) && negb (schedule_job m) then schedule m
  else Ok (m, []).

Definition output_handler_done (m : t) : result (t * list call) :=
  match sending_flow m with
  | None => Fault AssertFailed
  | Some f =>
    ASSERT bool_decide (previous_flow m = None) ;;
    ASSERT negb (schedule_job m) ;;
    ASSERT negb (freeing m) ;;
    x ← get m f;
    ASSERT negb (is_queued x) ;;
    let m := set_sending m None (sending_len m) in
    let m := set_previous m (Some f) in
    m ← increment_sent_flow m f (to_u64 (packet_weight m + sending_len m));
    let m := set_job m true in
    x ← get m f;
    match handler_busy x with
    | Some user => Ok (put m f (set_handler x None), [Input_Done f; Handler_busy user])
    | None => Ok (m, [Input_Done f])
    end
  end.

(** [Ok None] is the failure return. *)
Definition Init (mtu : Z) (has_cancel : bool) (use_cancel : bool) (packet_weight : Z)
    : result (option t) :=
  ASSERT (0 <? packet_weight) ;;
  ASSERT (negb use_cancel || has_cancel) ;;
  if negb ((mtu <=? FAIRQUEUE_MAX_TIME) && (packet_weight <=? FAIRQUEUE_MAX_TIME - mtu)) then Ok None
  else Ok (Some (mk mtu use_cancel packet_weight None 0 None [] [] false false ∅)).

Definition Free (m : t) : result unit :=
  ASSERT (Tree.IsEmpty (flows_list m)) ;;
  ASSERT (Tree.IsEmpty (queued_tree m)) ;;
  ASSERT bool_decide (previous_flow m = None) ;;
  ASSERT bool_decide (sending_flow m = None) ;;
  Ok tt.

Definition PrepareFree (m : t) : t := set_freeing m.

Definition GetMTU (m : t) : Z := output_mtu m.

Definition Flow_Init (m : t) (f : ptr) : result t :=
  ASSERT negb (freeing m) ;;
  Ok (set_list (put m f (mkf 0 false NULL 0 None)) (flows_list m ++ [f])).

Definition Flow_Free (m : t) (f : ptr) : result t :=
  x ← get m f;
  ASSERT (freeing m || bool_decide (Some f ≠ sending_flow m)) ;;
  let m := if bool_decide (Some f = sending_flow m) then set_sending m None (sending_len m) else m in
  let m := if bool_decide (Some f = previous_flow m) then set_previous m None else m in
  let m := if is_queued x then set_tree m (Tree.Remove (queued_tree m) f) else m in
  let m := set_list m (Tree.Remove (flows_list m) f) in
  Ok (set_flows m (delete f (flows m))).

Definition Flow_AssertFree (m : t) (f : ptr) : result unit :=
  ASSERT (freeing m || bool_decide (Some f ≠ sending_flow m)) ;; Ok tt.

Definition Flow_IsBusy (m : t) (f : ptr) : result bool :=
  ASSERT negb (freeing m) ;; Ok (bool_decide (Some f = sending_flow m)).

Definition Flow_RequestCancel (m : t) (f : ptr) : result (list call) :=
  ASSERT bool_decide (Some f = sending_flow m) ;;
  ASSERT use_cancel m ;;
  ASSERT negb (freeing m) ;;
  ASSERT negb (schedule_job m) ;;
  Ok [Output_RequestCancel].

Definition Flow_SetBusyHandler (m : t) (f : ptr) (h : option Z) : result t :=
  ASSERT bool_decide (Some f = sending_flow m) ;;
  ASSERT negb (freeing m) ;;
  x ← get m f;
  Ok (put m f (set_handler x h)).

End FairQueue.

(** ** The queue and its surroundings *)

Module FairQueueWorld.
Import FairQueue.

(** [w_out] is the packet outstanding at the output, [given] the packet each flow's user has
    given to the queue and not got back; [work] records how much each flow has sent. *)
Record world := mkw {
  fq : t;
  w_out : option (ptr * Z);
  given : gmap ptr (ptr * Z);
  work : gmap ptr Z;
}.

Definition work_of (w : world) (f : ptr) : Z := default 0 (work w !! f).

Definition do_call (w : world) (c : call) : result world :=
  match c with
  | Output_Send d l =>
      o ← packet_send (output_mtu (fq w)) (w_out w) d l;
      Ok (mkw (fq w) o (given w) (work w))
  | Output_RequestCancel => ASSERT bool_decide (is_Some (w_out w)) ;; Ok w
  | Input_Done f =>
      ASSERT bool_decide (is_Some (given w !! f)) ;;
      Ok (mkw (fq w) (w_out w) (delete f (given w)) (work w))
  | Handler_busy _ => Ok w
  end.

Abbreviation do_calls := (run_calls do_call).

Definition run_handler (w : world) (h : result (t * list call)) : result world :=
  '(m, cs) ← h; do_calls (mkw m (w_out w) (given w) (work w)) cs.

(** A flow's user sends a packet; the output completes a packet; the schedule job runs; the
    owner adds and removes flows, requests cancellation of the packet being sent, sets a busy
    handler, prepares for freeing. *)
Inductive event :=
| Send (f : ptr) (data : ptr) (len : Z)
| SendDone
| ScheduleJob
| NewFlow (f : ptr)
| FreeFlow (f : ptr)
| RequestCancel (f : ptr)
| SetBusyHandler (f : ptr) (h : option Z)
| DoPrepareFree.

(** What the documentation of the queue and of the interfaces allows its users to do now. *)
Definition allowed (w : world) (e : event) : bool :=
  let m := fq w in
  match e with
  | Send f d l =>
      negb (freeing m) && bool_decide (is_Some (flows m !! f)) && bool_decide (given w !! f = None)
      && (0 <=? l) && (l <=? output_mtu m) && (negb (0 <? l) || negb (d =? NULL))
  | SendDone => negb (freeing m) && bool_decide (is_Some (w_out w))
  | ScheduleJob => negb (freeing m) && schedule_job m
  | NewFlow f => negb (freeing m) && bool_decide (flows m !! f = None) && negb (f =? NULL)
  | FreeFlow f => bool_decide (is_Some (flows m !! f))
                  && (freeing m || bool_decide (Some f ≠ sending_flow m))
  | RequestCancel f => negb (freeing m) && bool_decide (Some f = sending_flow m) && use_cancel m
  | SetBusyHandler f _ => negb (freeing m) && bool_decide (Some f = sending_flow m)
  | DoPrepareFree => true
  end.

Definition add_work (w : gmap ptr Z) (f : ptr) (n : Z) : gmap ptr Z :=
  <[f := default 0 (w !! f) + n]> w.

Definition perform (w : world) (e : event) : result world :=
  let m := fq w in
  match e with
  | Send f d l =>
      run_handler (mkw m (w_out w) (<[f := (d, l)]> (given w)) (work w)) (input_handler_send m f d l)
  | SendDone =>
      let work' := match sending_flow m with
                   | Some f => add_work (work w) f (packet_weight m + sending_len m)
                   | None => work w
                   end in
      run_handler (mkw m None (given w) work') (output_handler_done m)
  | ScheduleJob => run_handler w (schedule_job_handler (set_job m false))
  | NewFlow f => m ← Flow_Init m f; Ok (mkw m (w_out w) (given w) (work w))
  | FreeFlow f => m ← Flow_Free m f; Ok (mkw m (w_out w) (delete f (given w)) (work w))
  | RequestCancel f => cs ← Flow_RequestCancel m f; do_calls w cs
  | SetBusyHandler f h => m ← Flow_SetBusyHandler m f h; Ok (mkw m (w_out w) (given w) (work w))
  | DoPrepareFree => Ok (mkw (PrepareFree m) (w_out w) (given w) (work w))
  end.

Definition step (w : world) (e : event) : option (result world) :=
  if allowed w e then Some (perform w e) else None.

(** A run during which [P] holds before and after every event. *)
Fixpoint run_while (P : world → bool) (w : world) (es : list event) : option (result world) :=
  if P w then
    match es with
    | [] => Some (Ok w)
    | e :: es => match step w e with
                 | Some (Ok w') => run_while P w' es
                 | r => r
                 end
    end
  else None.

Definition run : world → list event → option (result world) := run_while (λ _, true).

Definition init_world (mtu : Z) (has_cancel use_cancel : bool) (weight : Z)
    : result (option world) :=
  r ← Init mtu has_cancel use_cancel weight;
  Ok (match r with Some m => Some (mkw m None ∅ ∅) | None => None end).

End FairQueueWorld.

(** ** The queue is safe and fair *)

Module FairQueueFacts.
Import FairQueue FairQueueWorld.

Definition time_of (fl : gmap ptr flow) (f : ptr) : Z :=
  match fl !! f with Some x => time x | None => 0 end.

(** The order of the queue: by time, then by address. *)
Definition before (fl : gmap ptr flow) (f g : ptr) : Prop :=
  time_of fl f < time_of fl g ∨ time_of fl f = time_of fl g ∧ f < g.

Lemma compare_cases fl f g :
  (compare_flows fl f g < 0 ↔ before fl f g) ∧ (compare_flows fl f g = 0 ↔ f = g)
  ∧ (0 < compare_flows fl f g ↔ before fl g f).
Proof.
  unfold compare_flows, before, B_COMPARE. fold (time_of fl f). fold (time_of fl g).
  destruct (Z.ltb_spec (time_of fl g) (time_of fl f)), (Z.ltb_spec (time_of fl f) (time_of fl g));
    simpl; try lia; [split_and!; try lia; split; [lia|by intros ->; lia].. |].
  destruct (Z.ltb_spec g f), (Z.ltb_spec f g); simpl; split_and!; try lia; (split; [lia|]); intros; lia.
Qed.

Lemma before_trans fl f g h : before fl f g → before fl g h → before fl f h.
Proof. unfold before. lia. Qed.

Lemma insert_ok fl t f :
  Tree.sorted (before fl) t → f ∉ t →
  ∃ t', Tree.Insert (compare_flows fl) t f = Some t' ∧ Tree.sorted (before fl) t'
        ∧ ∀ g, g ∈ t' ↔ g = f ∨ g ∈ t.
Proof.
  intros Hs Hf.
  destruct (TreeFacts.Insert_ok (compare_flows fl) (before fl) (λ x y, proj1 (compare_cases fl x y))
    (λ x y, proj2 (proj2 (compare_cases fl x y))) (before_trans fl) t f Hs) as (t' & Hi & Hs' & Hp).
  { intros g Hg Hc. apply compare_cases in Hc as ->. done. }
  exists t'. split; [done|]. split; [done|]. intros g. rewrite Hp. apply elem_of_cons.
Qed.

Lemma remove_ok fl t f :
  Tree.sorted (before fl) t →
  Tree.sorted (before fl) (Tree.Remove t f) ∧ ∀ g, g ∈ Tree.Remove t f ↔ g ≠ f ∧ g ∈ t.
Proof.
  exact (TreeFacts.Remove_sorted (compare_flows fl) (before fl)
    (λ x y, proj1 (compare_cases fl x y)) (λ x y, proj2 (proj2 (compare_cases fl x y))) (before_trans fl) t f).
Qed.

Lemma head_time fl t f g :
  Tree.sorted (before fl) (f :: t) → g ∈ f :: t → time_of fl f ≤ time_of fl g.
Proof. intros Hs Hg. destruct (TreeFacts.head_least _ _ _ _ Hs Hg) as [->|[]]; lia. Qed.

(** What holds of the queue at any time, apart from what is outstanding at the ports. *)
Record queue_ok (m : t) : Prop := {
  k_mtu : 0 ≤ output_mtu m;
  k_weight : 0 < packet_weight m;
  k_max : packet_weight m + output_mtu m ≤ FAIRQUEUE_MAX_TIME;
  k_flows : ∀ f, f ∈ flows_list m ↔ is_Some (flows m !! f);
  k_nodup : NoDup (flows_list m);
  k_time : ∀ f x, flows m !! f = Some x → 0 ≤ time x ≤ FAIRQUEUE_MAX_TIME;
  k_tree : ∀ f, f ∈ queued_tree m ↔ ∃ x, flows m !! f = Some x ∧ is_queued x = true;
  k_sorted : Tree.sorted (before (flows m)) (queued_tree m);
}.

(** The flow being sent is first in time. *)
Definition first_in_time (m : t) (x : flow) : Prop :=
  ∀ g y, flows m !! g = Some y → is_queued y = true → time x ≤ time y.

Definition sending_ok (m : t) (out : option (ptr * Z)) : Prop :=
  match sending_flow m with
  | Some s =>
      previous_flow m = None ∧ schedule_job m = false ∧
      ∃ x p, flows m !! s = Some x ∧ is_queued x = false ∧ out = Some p ∧ sending_len m = p.2
             ∧ first_in_time m x
  | None =>
      freeing m = false →
      out = None ∧ (schedule_job m = false → queued_tree m = [] ∧ previous_flow m = None)
  end.

Definition previous_ok (m : t) : Prop :=
  ∀ p, previous_flow m = Some p → ∃ x, flows m !! p = Some x ∧ is_queued x = false.

(** The packet a flow has given is the one queued, or the one at the output. *)
Definition given_ok (m : t) (out : option (ptr * Z)) (gv : gmap ptr (ptr * Z)) : Prop :=
  (∀ f p, gv !! f = Some p →
     0 ≤ p.2 ≤ output_mtu m ∧ (0 < p.2 → p.1 ≠ NULL) ∧
     ∃ x, flows m !! f = Some x ∧
       (is_queued x = true ∧ p = (q_data x, q_data_len x) ∨ sending_flow m = Some f ∧ out = Some p))
  ∧ (∀ f x, flows m !! f = Some x → is_queued x = true ∨ sending_flow m = Some f → is_Some (gv !! f)).

Record inv (w : world) : Prop := {
  i_queue : queue_ok (fq w);
  i_sending : sending_ok (fq w) (w_out w);
  i_previous : previous_ok (fq w);
  i_given : given_ok (fq w) (w_out w) (given w);
}.

(** ** Rescaling *)

Lemma to_u64_small x : 0 ≤ x ≤ FAIRQUEUE_MAX_TIME → to_u64 x = x.
Proof. intros. unfold to_u64, FAIRQUEUE_MAX_TIME, UINT64_MAX in *. apply Z.mod_small. lia. Qed.

(** The time of a flow after subtracting. *)
Definition subtracted (self : ptr) (sub : Z) (f : ptr) (x : flow) : flow :=
  set_time x (if (time x <? sub) && negb (f =? self) then 0 else to_u64 (time x - sub)).

Lemma subtract_all_ok self sub fl fs :
  NoDup fs → (∀ f, f ∈ fs → is_Some (fl !! f)) →
  (∀ f x, f ∈ fs → fl !! f = Some x → is_queued x = true → sub ≤ time x) →
  ∃ fl', subtract_all self sub fl fs = Ok fl' ∧
    ∀ f, fl' !! f = if decide (f ∈ fs) then subtracted self sub f <$> fl !! f else fl !! f.
Proof.
  intros Hnd. revert fl. induction Hnd as [|f fs Hf Hnd IH]; intros fl Hin Hq; cbn [subtract_all].
  { exists fl. split; [done|]. intros g. by rewrite decide_False by set_solver. }
  destruct (Hin f) as [x Hx]; [set_solver|].
  assert (subtract_time self sub fl f = Ok (<[f := subtracted self sub f x]> fl)) as ->.
  { unfold subtract_time, subtracted. rewrite Hx. simpl. case_if; [|done].
    rewrite c_assert_true; [done|]. apply negb_true_iff. destruct (is_queued x) eqn:Hqx; [|done].
    specialize (Hq f x ltac:(set_solver) Hx Hqx). lia. }
  rewrite ok_bind.
  assert (∀ g, g ∈ fs → <[f := subtracted self sub f x]> fl !! g = fl !! g) as Hsame.
  { intros g Hg. by rewrite lookup_insert_ne by (by intros ->). }
  destruct (IH (<[f := subtracted self sub f x]> fl)) as (fl' & Hr & Hl).
  { intros g Hg. rewrite Hsame by done. apply Hin. set_solver. }
  { intros g y Hg. rewrite Hsame by done. apply Hq. set_solver. }
  exists fl'. split; [done|]. intros g. rewrite Hl. destruct (decide (g = f)) as [->|Hne].
  - rewrite decide_False, decide_True, lookup_insert_eq, Hx by set_solver. done.
  - rewrite lookup_insert_ne by done. by destruct (decide (g ∈ fs)), (decide (g ∈ f :: fs)); set_solver.
Qed.

(** What [increment_sent_flow] does, in exact arithmetic: all times go down by the same amount,
    but not below 0, and no queued flow loses anything by that. *)
Lemma increment_ok m f x amount :
  queue_ok m → flows m !! f = Some x → is_queued x = false → sending_flow m = None →
  0 ≤ amount ≤ FAIRQUEUE_MAX_TIME → first_in_time m x →
  ∃ fl sub, increment_sent_flow m f amount = Ok (set_flows m fl)
    ∧ 0 ≤ sub ∧ (sub ≠ 0 → FAIRQUEUE_MAX_TIME < time x + amount)
    ∧ 0 ≤ time x + amount - sub ≤ FAIRQUEUE_MAX_TIME
    ∧ (∀ g y, flows m !! g = Some y → is_queued y = true → sub ≤ time y)
    ∧ fl !! f = Some (set_time x (time x + amount - sub))
    ∧ ∀ g, g ≠ f → fl !! g = (λ y, set_time y (Z.max 0 (time y - sub))) <$> flows m !! g.
Proof.
  intros [] Hx Hxq Hs Ha Hfirst. pose proof (k_time0 _ _ Hx) as Hxt. unfold increment_sent_flow, get.
  rewrite Hx. simpl. do 2 run_assert. rewrite c_assert_true by (by apply bool_decide_eq_true).
  destruct (Z.ltb_spec (FAIRQUEUE_MAX_TIME - time x) amount) as [Hov|Hov].
  - set (sub := match queued_tree m with [] => time x | g :: _ => time_of (flows m) g end).
    assert (match Tree.GetFirst (queued_tree m) with
            | Some f1 => y ← or_fault BadAccess (flows m !! f1); ASSERT is_queued y ;; Ok (time y)
            | None => Ok (time x) end = Ok sub ∧ time x ≤ sub ≤ FAIRQUEUE_MAX_TIME
            ∧ (∀ g y, flows m !! g = Some y → is_queued y = true → sub ≤ time y))
      as (-> & Hsub & Hall).
    { unfold sub. destruct (queued_tree m) as [|g t] eqn:Ht; simpl.
      - split; [done|]. split; [lia|]. intros g y Hy Hq.
        assert (g ∈ @nil ptr) by (apply k_tree0; eauto). set_solver.
      - destruct (k_tree0 g) as [H _]. destruct H as (y & Hy & Hq); [set_solver|].
        unfold time_of. rewrite Hy. simpl. rewrite Hq. split; [done|].
        split; [split; [by eapply Hfirst | by eapply k_time0]|].
        intros h z Hz Hzq. assert (h ∈ g :: t) as Hin by (apply k_tree0; eauto).
        pose proof (head_time _ _ _ _ k_sorted0 Hin) as Hle. unfold time_of in Hle.
        by rewrite Hy, Hz in Hle. }
    rewrite ok_bind.
    destruct (subtract_all_ok f sub (flows m) (flows_list m) k_nodup0) as (fl & -> & Hl).
    { intros g. apply k_flows0. }
    { intros g y _. apply Hall. }
    rewrite ok_bind, Hl, decide_True, Hx by (apply k_flows0; eauto). simpl.
    exists (<[f := set_time x (time x + amount - sub)]> fl), sub. split_and!; try lia; try done.
    + repeat f_equal. unfold subtracted. simpl. rewrite Z.eqb_refl, andb_false_r.
      unfold set_time. simpl. f_equal. unfold to_u64. rewrite Zplus_mod_idemp_l.
      replace (time x - sub + amount) with (time x + amount - sub) by lia.
      apply to_u64_small. lia.
    + by rewrite lookup_insert_eq.
    + intros g Hg. rewrite lookup_insert_ne by done. rewrite Hl.
      destruct (flows m !! g) as [y|] eqn:Hy; [|by destruct (decide _)].
      rewrite decide_True by (apply k_flows0; eauto). simpl. f_equal. unfold subtracted.
      rewrite (proj2 (Z.eqb_neq g f)) by done. rewrite andb_true_r.
      specialize (k_time0 _ _ Hy). destruct (Z.ltb_spec (time y) sub).
      * f_equal. lia.
      * rewrite to_u64_small by lia. f_equal. lia.
  - rewrite ok_bind, Hx. simpl. rewrite to_u64_small by lia. exists (<[f := set_time x (time x + amount)]> (flows m)), 0.
    split_and!; try lia; try done.
    + intros g y Hy _. specialize (k_time0 _ _ Hy). lia.
    + rewrite lookup_insert_eq. f_equal. f_equal. lia.
    + intros g Hg. rewrite lookup_insert_ne by done.
      destruct (flows m !! g) as [y|] eqn:Hy; [|done]. simpl. f_equal.
      specialize (k_time0 _ _ Hy). rewrite Z.max_r by lia. rewrite Z.sub_0_r. by destruct y.
Qed.

(** ** Queueing and taking a flow *)

Lemma time_of_insert fl f x g :
  time_of (<[f := x]> fl) g = if decide (g = f) then time x else time_of fl g.
Proof.
  unfold time_of. destruct (decide (g = f)) as [->|].
  - by rewrite lookup_insert_eq.
  - by rewrite lookup_insert_ne.
Qed.

Lemma sorted_shift fl fl' sub t :
  (∀ g, g ∈ t → time_of fl' g = time_of fl g - sub) →
  Tree.sorted (before fl) t → Tree.sorted (before fl') t.
Proof.
  intros H. apply TreeFacts.sorted_ext. intros f g Hf Hg. unfold before.
  rewrite (H f Hf), (H g Hg). lia.
Qed.

Lemma insert_queue_ok m f x x' tr :
  queue_ok m → flows m !! f = Some x → 0 ≤ time x' ≤ FAIRQUEUE_MAX_TIME →
  Tree.sorted (before (<[f := x']> (flows m))) tr →
  (∀ g, g ∈ tr ↔ g = f ∧ is_queued x' = true ∨ g ≠ f ∧ g ∈ queued_tree m) →
  queue_ok (set_tree (put m f x') tr).
Proof.
  intros [] Hx Ht Hs Htr. split; simpl; try done.
  - intros g. rewrite k_flows0. destruct (decide (g = f)) as [->|].
    + rewrite lookup_insert_eq, Hx. split; eauto.
    + by rewrite lookup_insert_ne.
  - intros g y. destruct (decide (g = f)) as [->|].
    + rewrite lookup_insert_eq. by intros [= <-].
    + rewrite lookup_insert_ne by done. eauto.
  - intros g. rewrite Htr, k_tree0. destruct (decide (g = f)) as [->|].
    + rewrite lookup_insert_eq. naive_solver.
    + rewrite lookup_insert_ne by done. naive_solver.
Qed.

Lemma enqueue_ok m f x tm d l :
  queue_ok m → flows m !! f = Some x → is_queued x = false → 0 ≤ tm ≤ FAIRQUEUE_MAX_TIME →
  ∃ tr, Tree.Insert (compare_flows (<[f := mkf tm false d l (handler_busy x)]> (flows m)))
          (queued_tree m) f = Some tr
    ∧ (∀ g, g ∈ tr ↔ g = f ∨ g ∈ queued_tree m)
    ∧ queue_ok (set_tree (put m f (mkf tm true d l (handler_busy x))) tr).
Proof.
  intros HQ Hx Hq Ht. pose proof HQ as [].
  assert (f ∉ queued_tree m) as Hf.
  { rewrite k_tree0. intros (y & Hy & Hyq). congruence. }
  assert (∀ b, Tree.sorted (before (<[f := mkf tm b d l (handler_busy x)]> (flows m))) (queued_tree m)) as Hs.
  { intros b. eapply (sorted_shift _ _ 0); [|done]. intros g Hg. rewrite time_of_insert.
    rewrite decide_False by (by intros ->). lia. }
  destruct (insert_ok (<[f := mkf tm false d l (handler_busy x)]> (flows m)) (queued_tree m) f
    (Hs false) Hf) as (tr & -> & Hs' & Htr).
  exists tr. split; [done|]. split; [done|]. eapply insert_queue_ok; try done.
  - eapply (sorted_shift _ _ 0); [|exact Hs']. intros g _. rewrite !time_of_insert. simpl.
    destruct (decide _); lia.
  - intros g. rewrite Htr. simpl. destruct (decide (g = f)) as [->|]; naive_solver.
Qed.

(** Taking the first flow and sending its packet. *)
Lemma schedule_ok m gv wk :
  queue_ok m → given_ok m None gv → sending_flow m = None → previous_flow m = None →
  freeing m = false → schedule_job m = false → queued_tree m ≠ [] →
  ∃ m' p, run_handler (mkw m None gv wk) (schedule m) = Ok (mkw m' (Some p) gv wk)
    ∧ inv (mkw m' (Some p) gv wk)
    ∧ (∀ g, time_of (flows m') g = time_of (flows m) g)
    ∧ packet_weight m' = packet_weight m ∧ output_mtu m' = output_mtu m.
Proof.
  intros HQ [Hg1 Hg2] Hs Hp Hfr Hjob Hne. pose proof HQ as [].
  destruct (queued_tree m) as [|f t] eqn:Ht; [done|].
  destruct (k_tree0 f) as [H _]. destruct H as (x & Hx & Hxq); [set_solver|].
  destruct (Hg2 f x Hx (or_introl Hxq)) as [p Hgf]. pose proof Hgf as Hgf'.
  apply Hg1 in Hgf' as (Hfit & Hnn & y & Hy & [[_ Hpy]|[? _]]); [|congruence].
  rewrite Hx in Hy. injection Hy as <-. subst p. simpl in Hfit, Hnn.
  unfold schedule, get. rewrite Hs, Hp, Ht, Hfr. simpl. rewrite Hx. simpl. rewrite Hxq. simpl.
  rewrite bool_decide_true by done. rewrite packet_send_ok by done. simpl.
  destruct (remove_ok (flows m) (f :: t) f k_sorted0) as [Hsort Hmem].
  simpl in Hsort, Hmem. rewrite bool_decide_true in Hsort, Hmem by done.
  assert (queue_ok (set_tree (put m f (set_queued x false)) t)) as HQ'.
  { eapply insert_queue_ok; try done.
    - exact (k_time0 f x Hx).
    - eapply (sorted_shift _ _ 0); [|exact Hsort]. intros g Hg. rewrite time_of_insert.
      rewrite decide_False by (by intros ->; apply Hmem in Hg as []). lia.
    - intros g. rewrite Hmem, Ht. simpl. naive_solver. }
  eexists _, _. split; [done|]. split; [split; simpl|split; [|done]].
  - destruct HQ'. by split.
  - unfold sending_ok. simpl. split; [done|]. split; [done|].
    exists (set_queued x false), (q_data x, q_data_len x).
    rewrite lookup_insert_eq. split_and!; try done. intros g y. simpl.
    destruct (decide (g = f)) as [->|Hgf0]; [rewrite lookup_insert_eq; by intros [= <-]|].
    rewrite lookup_insert_ne by done. intros Hy Hyq.
    assert (g ∈ f :: t) as Hin by (apply k_tree0; eauto).
    pose proof (head_time _ _ _ _ k_sorted0 Hin) as Hle. unfold time_of in Hle. by rewrite Hx, Hy in Hle.
  - unfold previous_ok. simpl. by rewrite Hp.
  - split.
    + intros g q Hgq. destruct (Hg1 _ _ Hgq) as (? & ? & y & Hy & Hcase). split; [done|]. split; [done|].
      simpl. destruct (decide (g = f)) as [->|Hgf0].
      * rewrite lookup_insert_eq. eexists. split; [done|]. right. simplify_eq. done.
      * rewrite lookup_insert_ne by done. exists y. split; [done|]. naive_solver.
    + intros g y. simpl. destruct (decide (g = f)) as [->|Hgf0].
      * intros _ _. eauto.
      * rewrite lookup_insert_ne by done. intros Hy [?|[= ->]]; [eauto | done].
  - intros g. simpl. rewrite time_of_insert. destruct (decide (g = f)) as [->|]; [|done].
    unfold time_of. by rewrite Hx.
Qed.

(** ** Every event keeps the invariant *)

Definition backlogged (w : world) (f : ptr) : bool :=
  match flows (fq w) !! f with
  | Some x => is_queued x || bool_decide (sending_flow (fq w) = Some f)
              || bool_decide (previous_flow (fq w) = Some f)
  | None => false
  end.

(** The most a single packet costs. *)
Definition cost_max (w : world) : Z := packet_weight (fq w) + output_mtu (fq w).

(** The amount is subtracted because the time of the flow that has sent would otherwise not fit 64 bits. *)
Definition rescales (w w' : world) (sub : Z) : Prop :=
  0 ≤ sub ∧
  (sub ≠ 0 → ∃ f, sending_flow (fq w) = Some f ∧
     FAIRQUEUE_MAX_TIME < time_of (flows (fq w)) f + (work_of w' f - work_of w f)).

(** The times of the backlogged flows advance by exactly what the flows send, up to an amount
    that is the same for all of them, and 0 unless a time would overflow, and only the flow being sent advances. *)
Definition accounted (w w' : world) : Prop :=
  cost_max w' = cost_max w ∧
  ∃ sub, rescales w w' sub ∧ ∀ f, backlogged w f = true → backlogged w' f = true →
    time_of (flows (fq w')) f = time_of (flows (fq w)) f + (work_of w' f - work_of w f) - sub
    ∧ 0 ≤ work_of w' f - work_of w f
    ∧ (work_of w' f ≠ work_of w f →
       sending_flow (fq w) = Some f ∧ work_of w' f - work_of w f ≤ cost_max w).

Lemma accounted_same w w' :
  cost_max w' = cost_max w → work w' = work w →
  (∀ f, backlogged w f = true → time_of (flows (fq w')) f = time_of (flows (fq w)) f) →
  accounted w w'.
Proof.
  intros Hc Hw Ht. split; [done|]. exists 0. split; [by split|]. intros f Hb _. unfold work_of. rewrite Hw, (Ht f Hb).
  split; [lia|]. split; [lia|done].
Qed.

Lemma current_time_ok m out :
  queue_ok m → previous_ok m → sending_ok m out →
  ∃ now, get_current_time m = Ok now ∧ 0 ≤ now ≤ FAIRQUEUE_MAX_TIME
    ∧ (∀ s x, sending_flow m = Some s → flows m !! s = Some x → now = time x).
Proof.
  intros [] Hp Hs. unfold get_current_time, sending_ok, get in *.
  destruct (sending_flow m) as [s|].
  { destruct Hs as (_ & _ & x & _ & Hx & _). rewrite Hx. simpl. exists (time x). split; [done|].
    split; [by eapply k_time0|]. naive_solver. }
  assert (∃ first : Z * bool, match Tree.GetFirst (queued_tree m) with
     | Some f => x ← or_fault BadAccess (flows m !! f); ASSERT is_queued x ;; Ok (time x, true)
     | None => Ok (0, false) end = Ok first ∧ 0 ≤ first.1 ≤ FAIRQUEUE_MAX_TIME) as (first & -> & Hf).
  { destruct (queued_tree m) as [|f t] eqn:Ht; simpl.
    - eexists. split; [done|]. unfold FAIRQUEUE_MAX_TIME, UINT64_MAX. simpl. lia.
    - destruct (k_tree0 f) as [H _]. destruct H as (x & Hx & Hq); [set_solver|].
      rewrite Hx. simpl. rewrite Hq. simpl. eexists. split; [done|]. by eapply k_time0. }
  rewrite ok_bind. destruct (previous_flow m) as [p|] eqn:Hprev.
  - destruct (Hp p Hprev) as (x & Hx & _). rewrite Hx. simpl. eexists. split; [done|].
    split; [|done]. pose proof (k_time0 _ _ Hx).
    destruct (negb first.2 || (time x <? first.1)); simpl; [done|]. destruct first.2; simpl; lia.
  - simpl. eexists. split; [done|]. split; [|done]. destruct first.2; lia.
Qed.

(** The flow a packet arrives at is put into the queue, at its own time or the current one. *)
Lemma enqueue_handler m f x d l out :
  queue_ok m → previous_ok m → sending_ok m out → flows m !! f = Some x → is_queued x = false →
  sending_flow m ≠ Some f → freeing m = false →
  ∃ tm tr,
    let m' := mk (output_mtu m) (use_cancel m) (packet_weight m) (sending_flow m) (sending_len m)
      (if bool_decide (Some f = previous_flow m) then None else previous_flow m) tr (flows_list m)
      (freeing m) (schedule_job m) (<[f := mkf tm true d l (handler_busy x)]> (flows m)) in
    input_handler_send m f d l =
      (if bool_decide (sending_flow m = None) && negb (schedule_job m) then schedule m' else Ok (m', []))
    ∧ queue_ok m' ∧ (∀ g, g ∈ tr ↔ g = f ∨ g ∈ queued_tree m)
    ∧ (previous_flow m = Some f → tm = time x)
    ∧ (∀ s y, sending_flow m = Some s → flows m !! s = Some y → time y ≤ tm).
Proof.
  intros HQ Hp Hs Hx Hq Hne Hfr. pose proof HQ as []. pose proof (k_time0 _ _ Hx) as Hxt.
  unfold input_handler_send, get. rewrite Hx. simpl. rewrite Hq, Hfr. simpl.
  rewrite c_assert_true by (by apply bool_decide_eq_true).
  case_bool_decide as Hpf.
  - rewrite ok_bind. simpl. rewrite Hx. simpl.
    destruct (enqueue_ok m f x (time x) d l HQ Hx Hq Hxt) as (tr & Htr & Hmem & HQ').
    exists (time x), tr. unfold set_packet. rewrite Hq, Htr. simpl. rewrite lookup_insert_eq. simpl.
    unfold put, set_flows, set_tree, set_previous, set_queued. simpl. rewrite insert_insert_eq, ?Hfr.
    split; [done|]. split; [destruct HQ'; by split|].
    split_and!; [done | done |]. intros s y Hsf _. unfold sending_ok in Hs. rewrite Hsf in Hs.
    destruct Hs as (Hpn & _). congruence.
  - destruct (current_time_ok m out HQ Hp Hs) as (now & -> & Hnow & Hns). simpl.
    rewrite lookup_insert_eq. simpl.
    set (tm := bmax_uint64 (time x) now).
    assert (0 ≤ tm ≤ FAIRQUEUE_MAX_TIME ∧ now ≤ tm) as [Htm Hle].
    { unfold tm, bmax_uint64. case_if; lia. }
    destruct (enqueue_ok m f x tm d l HQ Hx Hq Htm) as (tr & Htr & Hmem & HQ').
    exists tm, tr. unfold set_packet. simpl. rewrite Hq, insert_insert_eq, Htr. simpl.
    rewrite lookup_insert_eq. simpl.
    unfold put, set_flows, set_tree, set_queued. simpl. rewrite !insert_insert_eq, ?Hfr. split; [done|].
    split; [destruct HQ'; by split|]. split_and!; [done | intros ?; congruence|].
    intros s y Hsf Hy. by rewrite <- (Hns s y Hsf Hy).
Qed.

Lemma given_sending w f : inv w → given w !! f = None → sending_flow (fq w) ≠ Some f.
Proof.
  intros [_ Hs _ [_ Hg]] Hn Hf. unfold sending_ok in Hs. rewrite Hf in Hs.
  destruct Hs as (_ & _ & x & p & Hx & _). destruct (Hg f x Hx (or_intror Hf)). congruence.
Qed.

Lemma send_event_ok w f d l :
  inv w → allowed w (Send f d l) = true →
  ∃ w', perform w (Send f d l) = Ok w' ∧ inv w' ∧ accounted w w'.
Proof.
  intros Hinv Ha. pose proof Hinv as [HQ HS HP [Hg1 Hg2]]. unfold allowed in Ha. zify_bool.
  match goal with H : is_Some (flows _ !! f) |- _ => destruct H as [x Hx] end.
  match goal with H : given w !! f = None |- _ => rename H into Hgf end.
  pose proof (given_sending _ _ Hinv Hgf) as Hsf.
  assert (is_queued x = false) as Hxq.
  { destruct (is_queued x) eqn:Hq; [|done]. destruct (Hg2 f x Hx (or_introl Hq)). congruence. }
  destruct (enqueue_handler (fq w) f x d l (w_out w)) as (tm & tr & Hh & HQ' & Htr & Hprev & Hle);
    [done..|].
  set (m' := mk _ _ _ _ _ _ _ _ _ _ _) in Hh, HQ'. unfold perform. rewrite Hh.
  set (gv := <[f := (d, l)]> (given w)).
  assert (0 < l → d ≠ NULL) as Hnn.
  { intros Hl ->. rewrite (proj2 (Z.ltb_lt _ _)) in * by done. simpl in *. done. }
  assert (∀ out, (∀ s, sending_flow (fq w) = Some s → out = w_out w) → given_ok m' out gv) as HG.
  { intros out Hout. unfold gv. split.
    - intros g p. destruct (decide (g = f)) as [->|Hgf'].
      + rewrite lookup_insert_eq. intros [= <-]. simpl. split; [done|]. split; [done|].
        rewrite lookup_insert_eq. eexists. split; [done|]. by left.
      + rewrite lookup_insert_ne by done. intros Hp. destruct (Hg1 _ _ Hp) as (? & ? & y & Hy & Hc).
        split; [done|]. split; [done|]. simpl. rewrite lookup_insert_ne by done. exists y.
        split; [done|]. destruct Hc as [|[Hs' Ho]]; [by left|right]. split; [done|].
        by rewrite (Hout _ Hs').
    - intros g y. destruct (decide (g = f)) as [->|Hgf'].
      + rewrite lookup_insert_eq. eauto.
      + simpl. rewrite !lookup_insert_ne by done. apply Hg2. }
  assert (∀ g, g ≠ f → time_of (flows m') g = time_of (flows (fq w)) g) as Htg.
  { intros g Hg. simpl. by rewrite time_of_insert, decide_False. }
  assert (∀ g, backlogged w g = true → time_of (flows m') g = time_of (flows (fq w)) g) as Htb.
  { intros g Hb. destruct (decide (g = f)) as [->|]; [|by apply Htg].
    unfold backlogged in Hb. rewrite Hx, Hxq, (bool_decide_false (sending_flow _ = _)) in Hb by done.
    simpl in Hb. zify_bool. simpl. rewrite time_of_insert, decide_True by done. simpl.
    rewrite Hprev by done. unfold time_of. by rewrite Hx. }
  destruct (bool_decide (sending_flow (fq w) = None) && negb (schedule_job (fq w))) eqn:Hidle.
  - zify_bool. unfold sending_ok in HS.
    match goal with H : sending_flow (fq w) = None |- _ => rename H into Hsn end.
    rewrite Hsn in HS. destruct HS as [Ho Hi]; [done|]. destruct Hi as [Ht Hpn]; [done|].
    destruct (schedule_ok m' gv (work w)) as (m2 & p & Hr & Hinv' & Htm & Hw1 & Hw2); try done.
    + by apply HG; rewrite Hsn.
    + simpl. rewrite Hpn. by case_bool_decide.
    + simpl. assert (f ∈ tr) as Hf by (apply Htr; auto). intros ->. set_solver.
    + exists (mkw m2 (Some p) gv (work w)). rewrite Ho. split; [exact Hr|]. split; [done|].
      apply accounted_same; [unfold cost_max; simpl in *; congruence | done |].
      intros g Hb. simpl. by rewrite Htm, Htb.
  - eexists. split; [done|]. split; [split; simpl|].
    + done.
    + unfold sending_ok in *. simpl. destruct (sending_flow (fq w)) as [s|] eqn:Hsw.
      * destruct HS as (Hpn & ? & y & p & Hy & Hyq & Hop & Hl & Hfi). rewrite Hpn. split; [done|].
        split; [done|]. exists y, p. rewrite lookup_insert_ne by congruence. split_and!; try done.
        intros g z. simpl. destruct (decide (g = f)) as [->|Hgf'].
        -- rewrite lookup_insert_eq. intros [= <-] _. simpl. by eapply Hle.
        -- rewrite lookup_insert_ne by done. apply Hfi.
      * intros Hfr. destruct (HS Hfr) as [Ho Hi]. split; [done|]. intros Hj. rewrite Hj in Hidle.
        by rewrite bool_decide_true in Hidle.
    + unfold previous_ok, m'. simpl. intros p. destruct (bool_decide (Some f = _)) eqn:Hpf; [done|]. zify_bool. intros Hp. destruct (HP _ Hp) as (y & Hy & Hyq).
      rewrite lookup_insert_ne by congruence. eauto.
    + apply HG. done.
    + apply accounted_same; done.
Qed.

Lemma put_same_ok m f x x' :
  queue_ok m → flows m !! f = Some x → time x' = time x → is_queued x' = is_queued x →
  queue_ok (put m f x') ∧ ∀ g, time_of (flows (put m f x')) g = time_of (flows m) g.
Proof.
  intros HQ Hx Ht Hq. pose proof HQ as [].
  assert (∀ g, time_of (<[f := x']> (flows m)) g = time_of (flows m) g) as Htm.
  { intros g. rewrite time_of_insert. destruct (decide (g = f)) as [->|]; [|done].
    unfold time_of. by rewrite Hx. }
  split; [|done].
  pose proof (insert_queue_ok m f x x' (queued_tree m) HQ Hx) as H. rewrite Ht in H.
  specialize (H (k_time0 _ _ Hx)). destruct H; [| |by split].
  - eapply (sorted_shift _ _ 0); [|done]. intros g _. rewrite Htm. lia.
  - intros g. rewrite Hq, k_tree0. destruct (decide (g = f)) as [->|]; [|naive_solver].
    rewrite Hx. naive_solver.
Qed.

Lemma incremented_ok m f x fl sub tm :
  queue_ok m → flows m !! f = Some x → is_queued x = false → 0 ≤ sub → 0 ≤ tm ≤ FAIRQUEUE_MAX_TIME →
  (∀ g y, flows m !! g = Some y → is_queued y = true → sub ≤ time y) →
  fl !! f = Some (set_time x tm) →
  (∀ g, g ≠ f → fl !! g = (λ y, set_time y (Z.max 0 (time y - sub))) <$> flows m !! g) →
  queue_ok (set_flows m fl)
  ∧ ∀ g, g ∈ queued_tree m → time_of fl g = time_of (flows m) g - sub.
Proof.
  intros [] Hx Hq Hsub Htm Hall Hf Hg.
  assert (∀ g, g ∈ queued_tree m → time_of fl g = time_of (flows m) g - sub) as Hshift.
  { intros g Hin. apply k_tree0 in Hin as (y & Hy & Hyq). unfold time_of.
    rewrite Hg, Hy by congruence. simpl. specialize (Hall _ _ Hy Hyq). lia. }
  split; [|done]. split; simpl; try done.
  - intros g. rewrite k_flows0. destruct (decide (g = f)) as [->|].
    + rewrite Hf, Hx. split; eauto.
    + rewrite Hg by done. by rewrite fmap_is_Some.
  - intros g y. destruct (decide (g = f)) as [->|].
    + rewrite Hf. by intros [= <-].
    + rewrite Hg by done. intros (z & Hz & Heq)%fmap_Some. subst y. simpl.
      specialize (k_time0 _ _ Hz). lia.
  - intros g. rewrite k_tree0. destruct (decide (g = f)) as [->|].
    + rewrite Hf, Hx. naive_solver.
    + rewrite Hg by done. destruct (flows m !! g) as [y|]; simpl; [|naive_solver]. split.
      * intros (z & Hz & ?). simplify_eq. eauto.
      * intros (z & Hz & ?). simplify_eq. eauto.
  - by eapply sorted_shift.
Qed.

(** The state after the flow [s] finished a packet. *)
Lemma finish_ok m s x p :
  queue_ok m → sending_flow m = Some s → sending_ok m (Some p) → flows m !! s = Some x →
  freeing m = false → 0 ≤ p.2 ≤ output_mtu m →
  ∃ m' sub, output_handler_done m = Ok (m', Input_Done s :: match handler_busy x with
                                          | Some u => [Handler_busy u] | None => [] end)
    ∧ queue_ok m' ∧ sending_flow m' = None ∧ previous_flow m' = Some s ∧ schedule_job m' = true
    ∧ freeing m' = false ∧ packet_weight m' = packet_weight m ∧ output_mtu m' = output_mtu m
    ∧ (∀ g, g ∈ queued_tree m → time_of (flows m') g = time_of (flows m) g - sub)
    ∧ time_of (flows m') s = time_of (flows m) s + (packet_weight m + sending_len m) - sub
    ∧ (0 ≤ sub ∧ (sub ≠ 0 → FAIRQUEUE_MAX_TIME < time_of (flows m) s + (packet_weight m + sending_len m)))
    ∧ (∃ x', flows m' !! s = Some x' ∧ is_queued x' = false)
    ∧ (∀ g, g ≠ s → ∃ h, flows m' !! g = (λ y, set_time y (h y)) <$> flows m !! g).
Proof.
  intros HQ Hs HS Hx Hfr Hp. pose proof HQ as []. pose proof HS as HS'. unfold sending_ok in HS'.
  rewrite Hs in HS'. destruct HS' as (Hpn & Hj & y & q & Hy & Hyq & Hpq & Hl & Hfi).
  rewrite Hx in Hy. simplify_eq. unfold output_handler_done, get. rewrite Hs, Hpn, Hj, Hfr, Hx. simpl.
  rewrite Hyq. simpl. rewrite ?bool_decide_true by done. simpl.
  rewrite to_u64_small by lia. set (m1 := set_previous _ _).
  assert (queue_ok m1) as HQ1 by by split.
  destruct (increment_ok m1 s y (packet_weight m + sending_len m) HQ1 Hx Hyq)
    as (fl & sub & -> & Hsub & Hover & Htm & Hall & Hf & Hg); [done | lia | done |].
  rewrite ok_bind. simpl. rewrite Hf. simpl.
  destruct (incremented_ok m1 s y fl sub _ HQ1 Hx Hyq Hsub Htm Hall Hf Hg) as [HQ2 Hshift].
  set (m2 := set_job (set_flows m1 fl) true). assert (queue_ok m2) as HQ3 by (destruct HQ2; by split).
  assert (time_of fl s = time_of (flows m) s + (packet_weight m + sending_len m) - sub) as Hts.
  { unfold time_of. by rewrite Hf, Hx. }
  assert (time_of (flows m) s = time y) as Hty by (unfold time_of; by rewrite Hx). rewrite <- Hty in Hover.
  destruct (handler_busy y) as [u|].
  - set (x' := set_handler (set_time y _) None). destruct (put_same_ok m2 s _ x' HQ3 Hf) as [HQ4 Htm'];
      [done..|].
    exists (put m2 s x'), sub. split_and!; try done.
    + intros g Hin. rewrite Htm'. by apply Hshift.
    + by rewrite Htm'.
    + simpl. rewrite lookup_insert_eq. eauto.
    + intros g Hgs. eexists. simpl. rewrite lookup_insert_ne by done. by apply Hg.
  - exists m2, sub. split_and!; try done; [eauto|]. intros g Hgs. eexists. by apply Hg.
Qed.

Lemma done_event_ok w :
  inv w → allowed w SendDone = true →
  ∃ w', perform w SendDone = Ok w' ∧ inv w' ∧ accounted w w'.
Proof.
  intros Hinv Ha. pose proof Hinv as [HQ HS HP [Hg1 Hg2]]. pose proof HQ as [].
  unfold allowed in Ha. zify_bool.
  match goal with H : is_Some (w_out w) |- _ => destruct H as [p Hout] end.
  destruct (sending_flow (fq w)) as [s|] eqn:Hsf.
  2:{ unfold sending_ok in HS. rewrite Hsf in HS. destruct HS; [done|]. congruence. }
  pose proof HS as HS'. unfold sending_ok in HS'. rewrite Hsf in HS'.
  destruct HS' as (Hpn & Hj & x & q & Hx & Hxq & Hpq & Hl & _). rewrite Hout in Hpq. injection Hpq as <-.
  destruct (Hg2 s x Hx (or_intror eq_refl)) as [gp Hgp].
  assert (gp = p) as ->.
  { destruct (Hg1 _ _ Hgp) as (_ & _ & y & Hy & [[? _]|[_ ?]]); congruence. }
  destruct (Hg1 _ _ Hgp) as (Hfit & _ & _). rewrite Hout in HS.
  destruct (finish_ok (fq w) s x p) as (m' & sub & Hh & HQ' & Hs' & Hp' & Hj' & Hf' & Hw' & Ho' & Hsh
    & Hts & Hover & Hxs & Hoth); [done..|].
  unfold perform. rewrite Hh, Hsf. unfold run_handler. rewrite ok_bind. simpl.
  rewrite bool_decide_true by eauto. simpl.
  set (w' := mkw m' None (delete s (given w)) (add_work (work w) s (packet_weight (fq w) + sending_len (fq w)))).
  exists w'. split; [by destruct (handler_busy x)|]. split; [split; simpl|].
  - done.
  - unfold sending_ok. rewrite Hs', Hj'. intros _. split; [done|]. done.
  - intros r. rewrite Hp'. intros [= <-]. done.
  - split.
    + intros g r. rewrite lookup_delete_Some. intros [Hne Hr].
      destruct (Hg1 _ _ Hr) as (? & ? & y & Hy & Hc). rewrite Ho'. split; [done|]. split; [done|].
      destruct (Hoth g ltac:(done)) as [h Hh']. rewrite Hh', Hy. simpl. eexists. split; [done|]. simpl.
      destruct Hc as [|[? _]]; [by left|]. congruence.
    + intros g y Hy. rewrite Hs'. intros [Hyq|]; [|done]. destruct (decide (g = s)) as [->|Hne].
      { destruct Hxs as (x' & Hx' & ?). congruence. }
      rewrite lookup_delete_ne by done. destruct (Hoth g Hne) as [h Hh'].
      rewrite Hh' in Hy. apply fmap_Some in Hy as (z & Hz & ->). eapply Hg2; eauto.
  - split; [unfold cost_max; simpl; congruence|]. exists sub. split.
    { destruct Hover as [Hsub Hover]. split; [done|]. intros Hne. exists s. split; [done|]. unfold work_of. simpl.
      unfold add_work. rewrite lookup_insert_eq. simpl. specialize (Hover Hne). lia. }
    intros g Hb Hb'.
    unfold work_of. simpl. unfold add_work. destruct (decide (g = s)) as [->|Hne].
    + rewrite lookup_insert_eq. simpl. split; [lia|]. split; [lia|]. intros _. split; [done|].
      unfold cost_max. lia.
    + rewrite lookup_insert_ne by done. split; [|split; [lia|done]].
      unfold backlogged in Hb. rewrite Hpn, Hsf in Hb. destruct (flows (fq w) !! g) as [y|] eqn:Hy; [|done].
      rewrite !bool_decide_false in Hb by congruence. rewrite !orb_false_r in Hb.
      rewrite Hsh; [lia|]. apply k_tree0. eauto.
Qed.

Lemma job_event_ok w :
  inv w → allowed w ScheduleJob = true →
  ∃ w', perform w ScheduleJob = Ok w' ∧ inv w' ∧ accounted w w'.
Proof.
  intros [HQ HS HP HG] Ha. unfold allowed in Ha. zify_bool. unfold sending_ok in HS.
  destruct (sending_flow (fq w)) as [s|] eqn:Hsf.
  { destruct HS as (_ & ? & _). congruence. }
  destruct HS as [Ho _]; [done|]. unfold perform, schedule_job_handler. simpl. rewrite Hsf.
  do 2 run_assert. set (m1 := set_previous _ _).
  assert (queue_ok m1) as HQ1 by (destruct HQ; by split).
  assert (given_ok m1 None (given w)) as HG1.
  { rewrite <- Ho. destruct HG as [Hg1 Hg2]. by split. }
  destruct (Tree.IsEmpty (queued_tree (fq w))) eqn:Ht; simpl.
  - unfold Tree.IsEmpty in Ht. destruct (queued_tree (fq w)) eqn:Htr; [|done].
    exists (mkw m1 (w_out w) (given w) (work w)). split; [done|]. split; [split; simpl|].
    + done.
    + unfold sending_ok. simpl. rewrite Hsf. done.
    + done.
    + by rewrite Ho.
    + by apply accounted_same.
  - destruct (schedule_ok m1 (given w) (work w) HQ1 HG1) as (m2 & p & Hr & Hinv' & Htm & Hw1 & Hw2);
      [done..| |].
    { simpl. by intros Htr; rewrite Htr in Ht. }
    exists (mkw m2 (Some p) (given w) (work w)). split; [unfold run_handler in *; rewrite Ho; exact Hr|]. split; [done|].
    apply accounted_same; [unfold cost_max; simpl in *; congruence | done |].
    intros g _. by rewrite Htm.
Qed.

Lemma new_event_ok w f :
  inv w → allowed w (NewFlow f) = true →
  ∃ w', perform w (NewFlow f) = Ok w' ∧ inv w' ∧ accounted w w'.
Proof.
  intros [HQ HS HP [Hg1 Hg2]] Ha. unfold allowed in Ha. zify_bool.
  match goal with H : flows _ !! f = None |- _ => rename H into Hf end.
  unfold perform, Flow_Init. rewrite c_assert_true by (by apply negb_true_iff). rewrite ok_bind.
  pose proof HQ as [].
  assert (f ∉ queued_tree (fq w)) as Hft.
  { rewrite k_tree0. intros (x & Hx & _). congruence. }
  assert (∀ g x, flows (fq w) !! g = Some x → g ≠ f) as Hne.
  { intros g x Hg ->. congruence. }
  eexists. split; [done|]. split; [split; simpl|].
  - split; simpl; try done.
    + intros g. rewrite elem_of_app, list_elem_of_singleton, k_flows0.
      destruct (decide (g = f)) as [->|].
      * rewrite lookup_insert_eq. naive_solver.
      * rewrite lookup_insert_ne by done. naive_solver.
    + apply NoDup_app. split; [done|]. split; [|apply NoDup_singleton].
      intros g Hg. rewrite list_elem_of_singleton. intros ->.
      apply k_flows0 in Hg as [? ?]. congruence.
    + intros g x. destruct (decide (g = f)) as [->|].
      * rewrite lookup_insert_eq. intros [= <-]. simpl.
        unfold FAIRQUEUE_MAX_TIME, UINT64_MAX. lia.
      * rewrite lookup_insert_ne by done. eauto.
    + intros g. rewrite k_tree0. destruct (decide (g = f)) as [->|].
      * rewrite lookup_insert_eq, Hf. naive_solver.
      * by rewrite lookup_insert_ne.
    + eapply (sorted_shift _ _ 0); [|done]. intros g Hg. rewrite time_of_insert, decide_False; [lia|].
      by intros ->.
  - unfold sending_ok in *. simpl. destruct (sending_flow (fq w)) as [s|]; [|done].
    destruct HS as (? & ? & x & p & Hx & ? & ? & ? & Hfi). split; [done|]. split; [done|].
    exists x, p. rewrite lookup_insert_ne by (symmetry; by eapply Hne). split_and!; try done.
    intros g y. simpl. destruct (decide (g = f)) as [->|].
    + rewrite lookup_insert_eq. by intros [= <-].
    + rewrite lookup_insert_ne by done. apply Hfi.
  - intros p Hp. destruct (HP p Hp) as (x & Hx & ?). exists x. simpl.
    by rewrite lookup_insert_ne by (symmetry; by eapply Hne).
  - split.
    + intros g p Hp. destruct (Hg1 _ _ Hp) as (? & ? & x & Hx & ?). split; [done|]. split; [done|].
      exists x. simpl. by rewrite lookup_insert_ne by (symmetry; by eapply Hne).
    + intros g x. simpl. destruct (decide (g = f)) as [->|].
      * rewrite lookup_insert_eq. intros [= <-] [|Hs]; [done|]. unfold sending_ok in HS.
        rewrite Hs in HS. destruct HS as (_ & _ & x & p & Hx & _). congruence.
      * rewrite lookup_insert_ne by done. apply Hg2.
  - apply accounted_same; [done..|]. intros g Hb. simpl. rewrite time_of_insert, decide_False; [done|].
    intros ->. unfold backlogged in Hb. by rewrite Hf in Hb.
Qed.

Lemma free_queue_ok m f x tr :
  queue_ok m → flows m !! f = Some x →
  Tree.sorted (before (flows m)) tr → (∀ g, g ∈ tr ↔ g ≠ f ∧ g ∈ queued_tree m) →
  queue_ok (set_flows (set_list (set_tree m tr) (Tree.Remove (flows_list m) f)) (delete f (flows m))).
Proof.
  intros [] Hx Hs Ht. destruct (TreeFacts.Remove_nodup (flows_list m) f k_nodup0) as [Hnd Hl].
  split; simpl; try done.
  - intros g. rewrite Hl, k_flows0. destruct (decide (g = f)) as [->|].
    + rewrite lookup_delete_eq. split; [naive_solver|]. by intros [? ?].
    + rewrite lookup_delete_ne by done. naive_solver.
  - intros g y. rewrite lookup_delete_Some. naive_solver.
  - intros g. rewrite Ht, k_tree0. setoid_rewrite lookup_delete_Some. naive_solver.
  - eapply (sorted_shift _ _ 0); [|done]. intros g [Hg _]%Ht. unfold time_of.
    rewrite lookup_delete_ne by done. lia.
Qed.

Lemma free_event_ok w f :
  inv w → allowed w (FreeFlow f) = true →
  ∃ w', perform w (FreeFlow f) = Ok w' ∧ inv w' ∧ accounted w w'.
Proof.
  intros [HQ HS HP [Hg1 Hg2]] Ha. unfold allowed in Ha. zify_bool.
  match goal with H : is_Some _ |- _ => destruct H as [x Hx] end.
  match goal with H : _ || _ = true |- _ => rename H into Hor end.
  unfold perform, Flow_Free, get. rewrite Hx. simpl. rewrite Hor. simpl. pose proof HQ as [].
  set (tr := if is_queued x then Tree.Remove (queued_tree (fq w)) f else queued_tree (fq w)).
  assert (Tree.sorted (before (flows (fq w))) tr ∧ ∀ g, g ∈ tr ↔ g ≠ f ∧ g ∈ queued_tree (fq w))
    as [Hts Htm].
  { unfold tr. destruct (is_queued x) eqn:Hq; [by apply remove_ok|]. split; [done|]. intros g.
    rewrite k_tree0. split; [|naive_solver]. intros (y & Hy & Hyq). split; [intros ->; congruence | eauto]. }
  pose proof (free_queue_ok (fq w) f x tr HQ Hx Hts Htm) as HQ'.
  set (sf := if bool_decide (Some f = sending_flow (fq w)) then None else sending_flow (fq w)).
  set (pf := if bool_decide (Some f = previous_flow (fq w)) then None else previous_flow (fq w)).
  set (m' := mk (output_mtu (fq w)) (use_cancel (fq w)) (packet_weight (fq w)) sf (sending_len (fq w))
    pf tr (Tree.Remove (flows_list (fq w)) f) (freeing (fq w)) (schedule_job (fq w))
    (delete f (flows (fq w)))).
  exists (mkw m' (w_out w) (delete f (given w)) (work w)). split; [|split; [split; simpl|]].
  - unfold m', sf, pf, tr. by destruct (bool_decide (Some f = sending_flow (fq w))),
      (bool_decide (Some f = previous_flow (fq w))) eqn:?, (is_queued x);
      simpl; rewrite ?Heqb.
  - destruct HQ'. by split.
  - unfold sending_ok in *. unfold m', sf, pf. simpl. destruct (sending_flow (fq w)) as [s|] eqn:Hsf.
    + destruct (decide (s = f)) as [->|Hne].
      * rewrite bool_decide_true by done. intros Hfr. rewrite Hfr in Hor.
        by rewrite bool_decide_false in Hor by naive_solver.
      * rewrite bool_decide_false by congruence. destruct HS as (-> & ? & y & p & Hy & ? & ? & ? & Hfi).
        split; [by destruct (bool_decide _)|]. split; [done|]. exists y, p.
        rewrite lookup_delete_ne by done. split_and!; try done.
        intros g z. simpl. rewrite lookup_delete_Some. intros [_ Hz]. by apply (Hfi g).
    + rewrite bool_decide_false by done. intros Hfr. destruct (HS Hfr) as [? Hi]. split; [done|].
      intros Hj. destruct (Hi Hj) as [Ht ->]. split; [|by destruct (bool_decide _)].
      destruct tr as [|g t]; [done|]. destruct (Htm g) as [Hgt _]. destruct Hgt as [_ Hgt]; [set_solver|].
      rewrite Ht in Hgt. set_solver.
  - unfold previous_ok, m', pf. simpl. intros p.
    destruct (bool_decide (Some f = previous_flow (fq w))) eqn:Hpf; [done|]. zify_bool. intros Hp.
    destruct (HP _ Hp) as (y & ? & ?). exists y. rewrite lookup_delete_ne by congruence. done.
  - split.
    + intros g p. rewrite lookup_delete_Some. intros [Hne Hp].
      destruct (Hg1 _ _ Hp) as (? & ? & y & Hy & Hc). split; [done|]. split; [done|]. exists y. simpl.
      rewrite lookup_delete_ne by done. split; [done|]. destruct Hc as [|[Hs Ho]]; [by left|right].
      unfold sf. rewrite Hs, bool_decide_false by congruence. done.
    + intros g y. simpl. rewrite lookup_delete_Some. intros [Hne Hy] Hc. rewrite lookup_delete_ne by done.
      apply (Hg2 g y Hy). destruct Hc as [|Hs]; [by left|right]. revert Hs. unfold sf.
      by destruct (bool_decide (Some f = sending_flow (fq w))).
  - split; [done|]. exists 0. split; [by split|]. intros g _ Hb'. unfold work_of. simpl. split; [|split; [lia|done]].
    assert (g ≠ f) as Hne.
    { intros ->. unfold backlogged in Hb'. simpl in Hb'. by rewrite lookup_delete_eq in Hb'. }
    unfold time_of. simpl. rewrite lookup_delete_ne by done. lia.
Qed.

Lemma cancel_event_ok w f :
  inv w → allowed w (RequestCancel f) = true →
  ∃ w', perform w (RequestCancel f) = Ok w' ∧ inv w' ∧ accounted w w'.
Proof.
  intros Hinv Ha. pose proof Hinv as [_ HS _ _]. unfold allowed in Ha. zify_bool.
  match goal with H : Some f = _ |- _ => rename H into Hsf end.
  unfold sending_ok in HS. rewrite <- Hsf in HS. destruct HS as (_ & Hj & x & p & _ & _ & Ho & _).
  exists w. split; [|split; [done|by apply accounted_same]].
  unfold perform, Flow_RequestCancel. rewrite Hj. rewrite (c_assert_true (bool_decide _)) by
    (by apply bool_decide_eq_true). do 3 run_assert. simpl. by rewrite bool_decide_true by eauto.
Qed.

Lemma handler_event_ok w f h :
  inv w → allowed w (SetBusyHandler f h) = true →
  ∃ w', perform w (SetBusyHandler f h) = Ok w' ∧ inv w' ∧ accounted w w'.
Proof.
  intros [HQ HS HP [Hg1 Hg2]] Ha. unfold allowed in Ha. zify_bool.
  match goal with H : Some f = _ |- _ => rename H into Hsf end.
  unfold sending_ok in HS. rewrite <- Hsf in HS.
  destruct HS as (Hpn & Hj & x & p & Hx & Hxq & Ho & Hl & Hfi).
  unfold perform, Flow_SetBusyHandler, get. rewrite c_assert_true by (by apply bool_decide_eq_true).
  run_assert. rewrite Hx. simpl.
  destruct (put_same_ok (fq w) f x (set_handler x h) HQ Hx) as [HQ' Htm]; [done..|].
  eexists. split; [done|]. split; [split; simpl|].
  - done.
  - unfold sending_ok. simpl. rewrite <- Hsf. split; [done|]. split; [done|].
    exists (set_handler x h), p. rewrite lookup_insert_eq. split_and!; try done.
    intros g y. simpl. destruct (decide (g = f)) as [->|].
    + rewrite lookup_insert_eq. intros [= <-]. simpl. congruence.
    + rewrite lookup_insert_ne by done. apply Hfi.
  - unfold previous_ok. simpl. by rewrite Hpn.
  - split; simpl.
    + intros g q Hq. destruct (Hg1 _ _ Hq) as (? & ? & y & Hy & Hc). split; [done|]. split; [done|].
      destruct (decide (g = f)) as [->|].
      * rewrite lookup_insert_eq. eexists. split; [done|]. simplify_eq. naive_solver.
      * rewrite lookup_insert_ne by done. eauto.
    + intros g y. destruct (decide (g = f)) as [->|].
      * intros _ _. eapply Hg2; [exact Hx | by right].
      * rewrite lookup_insert_ne by done. apply Hg2.
  - apply accounted_same; [done..|]. intros g _. apply Htm.
Qed.

Lemma event_ok w e r :
  inv w → step w e = Some r → ∃ w', r = Ok w' ∧ inv w' ∧ accounted w w'.
Proof.
  intros Hinv Hs. unfold step in Hs. destruct (allowed w e) eqn:Ha; [|done]. injection Hs as <-.
  destruct e.
  - by apply send_event_ok.
  - by apply done_event_ok.
  - by apply job_event_ok.
  - by apply new_event_ok.
  - by apply free_event_ok.
  - by apply cancel_event_ok.
  - by apply handler_event_ok.
  - destruct Hinv as [[] HS HP HG]. eexists. split; [done|]. split; [|by apply accounted_same].
    split; simpl; try done. unfold sending_ok in *. simpl. by destruct (sending_flow (fq w)).
Qed.

Lemma run_while_ok P w es r :
  inv w → run_while P w es = Some r → ∃ w', r = Ok w' ∧ inv w'.
Proof.
  revert w. induction es as [|e es IH]; intros w Hinv Hr; simpl in Hr.
  - destruct (P w); [|done]. simplify_eq. eauto.
  - destruct (P w); [|done]. destruct (step w e) as [r'|] eqn:Hs; [|done].
    destruct (event_ok _ _ _ Hinv Hs) as (w' & -> & Hinv' & _). eauto.
Qed.

Lemma queue_init_inv mtu hc uc weight w :
  0 ≤ mtu → init_world mtu hc uc weight = Ok (Some w) → inv w.
Proof.
  intros Hm H. unfold init_world, Init in H.
  apply bind_ok in H as (o & Ho & H). repeat (apply c_assert_ok in Ho as [? Ho]).
  destruct (negb _) eqn:Hc in Ho; simplify_eq. zify_bool. split; simpl.
  - split; simpl; try done; try lia.
    + intros f. rewrite lookup_empty. split; [set_solver|]. by intros [? ?].
    + constructor.
    + intros f. split; [set_solver|]. intros (? & ? & _). done.
  - done.
  - done.
  - split; intros ??; by rewrite ?lookup_empty.
Qed.

Definition no_flows (m : t) : bool := bool_decide (flows_list m = []).

(** C35: The fair queue never fails in any run its interfaces allow; it is idle only when
    nothing is queued; the packet at the output is the one the sending flow was given, and
    no queued flow has a smaller virtual time; the set of queued flows stays sorted; a
    flow's packet is with the queue exactly while the flow is queued or sending; and the
    queue can be freed once all flows are. *)
Theorem fair_queue_safe mtu hc uc weight w0 es r :
  0 ≤ mtu → init_world mtu hc uc weight = Ok (Some w0) → run w0 es = Some r →
  ∃ w, r = Ok w
    ∧ (freeing (fq w) = false → w_out w = None → schedule_job (fq w) = false → queued_tree (fq w) = [])
    ∧ (∀ s, sending_flow (fq w) = Some s →
         w_out w = given w !! s ∧
         ∀ g, g ∈ queued_tree (fq w) → time_of (flows (fq w)) s ≤ time_of (flows (fq w)) g)
    ∧ Tree.sorted (before (flows (fq w))) (queued_tree (fq w))
    ∧ (∀ f, is_Some (given w !! f) ↔ f ∈ queued_tree (fq w) ∨ sending_flow (fq w) = Some f)
    ∧ (flows_list (fq w) = [] → freeing (fq w) = true ∨ w_out w = None → Free (fq w) = Ok tt).
Proof.
  intros Hm Hi Hr.
  destruct (run_while_ok _ _ _ _ (queue_init_inv _ _ _ _ _ Hm Hi) Hr) as (w & -> & [HQ HS HP [Hg1 Hg2]]).
  exists w. split; [done|]. pose proof HQ as []. unfold sending_ok in HS. split_and!.
  - intros Hf Ho Hj. destruct (sending_flow (fq w)).
    + destruct HS as (_ & _ & x & p & _ & _ & ? & _). congruence.
    + destruct HS as [_ HS]; [done|]. by apply HS.
  - intros s Hs. rewrite Hs in HS. destruct HS as (_ & _ & x & p & Hx & Hxq & Ho & _ & Hfi). split.
    + destruct (Hg2 s x Hx (or_intror Hs)) as [q Hq]. rewrite Hq.
      destruct (Hg1 _ _ Hq) as (_ & _ & y & Hy & [[? _]|[_ ?]]); congruence.
    + intros g Hg. apply k_tree0 in Hg as (y & Hy & Hyq). specialize (Hfi g y Hy Hyq).
      unfold time_of. by rewrite Hx, Hy.
  - done.
  - intros f. rewrite k_tree0. split.
    + intros [p Hp]. destruct (Hg1 _ _ Hp) as (_ & _ & x & Hx & [[? _]|[? _]]); eauto.
    + intros [(x & Hx & Hxq)|Hs].
      * by apply (Hg2 f x); auto.
      * rewrite Hs in HS. destruct HS as (_ & _ & x & p & Hx & _). by apply (Hg2 f x); auto.
  - intros Hnil Hcase.
    assert (∀ f, flows (fq w) !! f = None) as Hempty.
    { intros f. apply eq_None_not_Some. rewrite <- k_flows0, Hnil. set_solver. }
    assert (queued_tree (fq w) = []) as Ht.
    { destruct (queued_tree (fq w)) as [|f t]; [done|]. destruct (k_tree0 f) as [H _].
      destruct H as (x & Hx & _); [set_solver|]. by rewrite Hempty in Hx. }
    assert (previous_flow (fq w) = None) as Hp.
    { destruct (previous_flow (fq w)) as [p|] eqn:Hp; [|done]. destruct (HP p Hp) as (x & Hx & _).
      by rewrite Hempty in Hx. }
    assert (sending_flow (fq w) = None) as Hs.
    { destruct (sending_flow (fq w)) as [s|] eqn:Hs; [|done].
      destruct HS as (_ & _ & x & p & Hx & _). by rewrite Hempty in Hx. }
    unfold Free. by rewrite Hnil, Ht, Hp, Hs.
Qed.

(** Two flows share the output; the queue is prepared for freeing while one is sending. *)
Definition some_world : world :=
  match init_world 1500 false false 100 with
  | Ok (Some w) => w
  | _ => mkw (mk 0 false 0 None 0 None [] [] false false ∅) None ∅ ∅
  end.

Definition some_events : list event :=
  [NewFlow 8; NewFlow 16; Send 8 4096 1500; Send 16 8192 500].

Lemma fair_queue_safe_witness :
  ∃ w, run some_world (some_events ++ [DoPrepareFree; FreeFlow 8; FreeFlow 16]) = Some (Ok w)
    ∧ Free (fq w) = Ok tt.
Proof.
  set (es := some_events ++ [DoPrepareFree; FreeFlow 8; FreeFlow 16]).
  destruct (run some_world es) as [r|] eqn:Hr; [|exfalso; vm_compute in Hr; done].
  destruct (fair_queue_safe 1500 false false 100 some_world es r ltac:(lia) eq_refl Hr)
    as (w & -> & _ & _ & _ & _ & Hfree).
  exists w. split; [done|]. apply Hfree.
  - vm_compute in Hr. simplify_eq. done.
  - left. vm_compute in Hr. simplify_eq. done.
Defined.

(** C36: In every step the virtual times of the backlogged flows advance by exactly the weight
    each has sent, up to one amount subtracted from all of them, which is never negative and
    is 0 unless the time of the flow that has sent would exceed the largest 64-bit number;
    times stay within 64 bits and only the sending flow advances. *)
Theorem fair_queue_time mtu hc uc weight w0 es w e r :
  0 ≤ mtu → init_world mtu hc uc weight = Ok (Some w0) → run w0 es = Some (Ok w) →
  step w e = Some r →
  ∃ w', r = Ok w' ∧ (∀ f, 0 ≤ time_of (flows (fq w')) f ≤ FAIRQUEUE_MAX_TIME)
    ∧ ∃ sub, 0 ≤ sub
      ∧ (sub ≠ 0 → ∃ f, sending_flow (fq w) = Some f
           ∧ FAIRQUEUE_MAX_TIME < time_of (flows (fq w)) f + (work_of w' f - work_of w f))
      ∧ ∀ f, backlogged w f = true → backlogged w' f = true →
        time_of (flows (fq w')) f = time_of (flows (fq w)) f + (work_of w' f - work_of w f) - sub
        ∧ (work_of w' f ≠ work_of w f → sending_flow (fq w) = Some f).
Proof.
  intros Hm Hi Hr Hs.
  destruct (run_while_ok _ _ _ _ (queue_init_inv _ _ _ _ _ Hm Hi) Hr) as (? & [= <-] & Hinv).
  destruct (event_ok _ _ _ Hinv Hs) as (w' & -> & [[] _ _ _] & _ & sub & [Hpos Hover] & Hsub). exists w'.
  split; [done|]. split.
  - intros f. unfold time_of. destruct (flows (fq w') !! f) eqn:Hx; [by eapply k_time0|].
    unfold FAIRQUEUE_MAX_TIME, UINT64_MAX. lia.
  - exists sub. split; [done|]. split; [done|]. intros f Hb Hb'. destruct (Hsub f Hb Hb') as (? & _ & ?). naive_solver.
Qed.

(** The first flow finishes its packet of 1500 bytes: its time is 1600. *)
Lemma fair_queue_time_witness :
  ∃ w w', run some_world some_events = Some (Ok w) ∧ step w SendDone = Some (Ok w')
    ∧ time_of (flows (fq w')) 8 = 1600 ∧ 0 ≤ time_of (flows (fq w')) 8 ≤ FAIRQUEUE_MAX_TIME.
Proof.
  destruct (run some_world some_events) as [[w|]|] eqn:Hr;
    [|exfalso; vm_compute in Hr; done..].
  destruct (step w SendDone) as [r|] eqn:Hs.
  2:{ exfalso. vm_compute in Hr. injection Hr as <-. vm_compute in Hs. done. }
  destruct (fair_queue_time 1500 false false 100 some_world some_events w SendDone r ltac:(lia)
    eq_refl Hr Hs) as (w' & -> & Ht & _).
  exists w, w'. split; [done|]. split; [done|]. split; [|apply Ht].
  vm_compute in Hr. injection Hr as <-. vm_compute in Hs. injection Hs as <-. done.
Defined.

(** Both flows always have a packet queued or being sent, or have just sent one. *)
Definition both (f g : ptr) (w : world) : bool := backlogged w f && backlogged w g.

Lemma fair_step w e w' f g :
  inv w → step w e = Some (Ok w') → both f g w = true → both f g w' = true → f ≠ g →
  cost_max w' = cost_max w ∧
  let d := time_of (flows (fq w)) f - time_of (flows (fq w)) g in
  let d' := time_of (flows (fq w')) f - time_of (flows (fq w')) g in
  d' - d = (work_of w' f - work_of w f) - (work_of w' g - work_of w g) ∧ d' ≤ Z.max d (cost_max w).
Proof.
  intros Hinv Hs Hb Hb' Hne. unfold both in *. zify_bool.
  destruct (event_ok _ _ _ Hinv Hs) as (? & [= <-] & _ & Hc & sub & _ & Hsub). split; [done|].
  destruct (Hsub f) as (Hf1 & Hf2 & Hf3); [done..|]. destruct (Hsub g) as (Hg1 & Hg2 & Hg3); [done..|].
  simpl. split; [lia|]. destruct (decide (work_of w' f = work_of w f)); [lia|].
  destruct Hf3 as [Hsf Hw]; [done|]. pose proof Hinv as [[] HS _ _]. unfold sending_ok in HS.
  rewrite Hsf in HS. destruct HS as (Hpn & _ & x & p & Hx & _ & _ & _ & Hfi).
  match goal with H : backlogged w g = true |- _ => unfold backlogged in H; rename H into Hbg end.
  destruct (flows (fq w) !! g) as [y|] eqn:Hy; [|done].
  rewrite Hsf, Hpn, (bool_decide_false (Some f = Some g)), (bool_decide_false (None = Some g)) in Hbg by congruence.
  rewrite !orb_false_r in Hbg. specialize (Hfi g y Hy Hbg).
  assert (time_of (flows (fq w)) f ≤ time_of (flows (fq w)) g) by (unfold time_of; by rewrite Hx, Hy).
  lia.
Qed.

(** C20: Fairness: as long as two flows f and g always have a packet queued, being sent or just
    sent, f is served at most max(0, packet_weight + MTU - (lead of f's virtual time over
    g's)) more than g, where a packet counts its length plus packet_weight. *)
Theorem fair_queue_fair mtu hc uc weight w0 es w es' w' f g :
  0 ≤ mtu → init_world mtu hc uc weight = Ok (Some w0) → run w0 es = Some (Ok w) →
  f ≠ g → run_while (both f g) w es' = Some (Ok w') →
  let ahead := time_of (flows (fq w)) f - time_of (flows (fq w)) g in
  (work_of w' f - work_of w f) - (work_of w' g - work_of w g)
    ≤ Z.max 0 (packet_weight (fq w) + output_mtu (fq w) - ahead).
Proof.
  intros Hm Hi Hr Hne Hr'.
  destruct (run_while_ok _ _ _ _ (queue_init_inv _ _ _ _ _ Hm Hi) Hr) as (? & [= <-] & Hinv).
  cbv zeta. fold (cost_max w).
  assert (let d := time_of (flows (fq w)) f - time_of (flows (fq w)) g in
    let d' := time_of (flows (fq w')) f - time_of (flows (fq w')) g in
    d' - d = (work_of w' f - work_of w f) - (work_of w' g - work_of w g)
    ∧ d' ≤ Z.max d (cost_max w)) as [H1 H2]; [|lia].
  clear Hr Hi. revert w Hinv Hr'. induction es' as [|e es' IH]; intros w Hinv Hr'; cbn [run_while] in Hr'.
  - destruct (both f g w); [|done]. simplify_eq. split; lia.
  - destruct (both f g w) eqn:Hb; [|done]. destruct (step w e) as [[w1|]|] eqn:Hs; try done.
    assert (both f g w1 = true) as Hb1.
    { destruct es'; simpl in Hr'; by destruct (both f g w1). }
    destruct (fair_step _ _ _ _ _ Hinv Hs Hb Hb1 Hne) as (Hc & Hd & Hle).
    destruct (event_ok _ _ _ Hinv Hs) as (? & [= <-] & Hinv1 & _).
    destruct (IH w1 Hinv1 Hr') as [Hd1 Hle1]. split; lia.
Qed.

(** The flow with packets of 500 bytes is served three times for one packet of 1500 bytes. *)
Lemma fair_queue_fair_witness :
  ∃ w w', run some_world some_events = Some (Ok w)
    ∧ run_while (both 16 8) w
        [SendDone; Send 8 4096 1500; ScheduleJob; SendDone; Send 16 8192 500; ScheduleJob;
         SendDone; Send 16 8192 500; ScheduleJob; SendDone; Send 16 8192 500; ScheduleJob]
      = Some (Ok w')
    ∧ work_of w' 16 - work_of w 16 = 1800
    ∧ (work_of w' 16 - work_of w 16) - (work_of w' 8 - work_of w 8) ≤ 1600.
Proof.
  set (es := [SendDone; Send 8 4096 1500; ScheduleJob; SendDone; Send 16 8192 500; ScheduleJob;
    SendDone; Send 16 8192 500; ScheduleJob; SendDone; Send 16 8192 500; ScheduleJob]).
  destruct (run some_world some_events) as [[w|]|] eqn:Hr;
    [|exfalso; vm_compute in Hr; done..].
  destruct (run_while (both 16 8) w es) as [[w'|]|] eqn:Hs;
    [|exfalso; vm_compute in Hr; injection Hr as <-; vm_compute in Hs; done..].
  exists w, w'. split; [done|]. split; [done|].
  pose proof (fair_queue_fair 1500 false false 100 some_world some_events w es w' 16 8 ltac:(lia)
    eq_refl Hr ltac:(done) Hs) as H. cbv zeta in H.
  assert (Z.max 0 (packet_weight (fq w) + output_mtu (fq w)
    - (time_of (flows (fq w)) 16 - time_of (flows (fq w)) 8)) = 1600
    ∧ work_of w' 16 - work_of w 16 = 1800) as [He Hw].
  { vm_compute in Hr. injection Hr as <-. vm_compute in Hs. injection Hs as <-. vm_compute. done. }
  rewrite He in H. done.
Defined.

End FairQueueFacts.
