(* ===== verification/SocksClient.v ===== *)
(** * The SOCKS client: socksclient/BSocksClient.c

    Opens a TCP connection through a SOCKS5 server: it connects, offers its
    authentication methods, authenticates with a password if the server chooses
    that, requests the destination and waits for the reply; then the connection is
    the user's.  One buffer, resized for every message, holds what is sent and received.

    [SocksClient] is the client's functions; pointers into the buffer are offsets, and whether
    an allocation succeeds is an argument.  [SocksWorld] runs the client against any server
    and any connection.  [SocksSpec] says which replies complete the handshake and what the
    client is to send; [SocksFacts] shows that the client never fails, that it is up exactly when the
    replies are complete and fails exactly when a complete message of them is not acceptable, that it sends what the
    protocol says and takes no byte that follows the reply, and that what it holds is released. *)

From S2P Require Import Prelude CMem Interfaces Addr.
Import PortView.

(** ** misc/socks_proto.h *)

Definition SOCKS_VERSION : Z := 5.
Definition SOCKS_METHOD_NO_AUTHENTICATION_REQUIRED : Z := 0.
Definition SOCKS_METHOD_USERNAME_PASSWORD : Z := 2.
Definition SOCKS_CMD_CONNECT : Z := 1.
Definition SOCKS_ATYP_IPV4 : Z := 1.
Definition SOCKS_ATYP_IPV6 : Z := 4.
Definition SOCKS_REP_SUCCEEDED : Z := 0.

Definition sizeof_client_hello_header : Z := 2.
Definition sizeof_client_hello_method : Z := 1.
Definition sizeof_server_hello : Z := 2.
Definition sizeof_request_header : Z := 4.
Definition sizeof_reply_header : Z := 4.
Definition sizeof_addr_ipv4 : Z := 6.
Definition sizeof_addr_ipv6 : Z := 18.

Module SocksClient.

Inductive state :=
| STATE_CONNECTING
| STATE_SENDING_HELLO
| STATE_SENT_HELLO
| STATE_SENDING_PASSWORD
| STATE_SENT_PASSWORD
| STATE_SENDING_REQUEST
| STATE_SENT_REQUEST
| STATE_RECEIVED_REPLY_HEADER
| STATE_UP.

#[global] Instance state_eq_dec : EqDecision state.
Proof. solve_decision. Defined.

Record auth_info := mkauth {
  auth_type : Z;
  username : list Z;
  password : list Z;
}.

(** [buffer] is the block of memory and [None] for NULL; [recv_dest] is an offset in it. *)
Record t := mk {
  auths : list auth_info;
  dest_addr : BAddr.t;
  st : state;
  buffer : option (list Z);
  recv_dest : Z;
  recv_len : Z;
  recv_total : Z;
}.

Inductive event := EVENT_ERROR | EVENT_UP | EVENT_ERROR_CLOSED.

#[global] Instance event_eq_dec : EqDecision event.
Proof. solve_decision. Defined.

Inductive call :=
| Con_Init | Con_Free
| Control_io_Init | Control_io_Free    (** [init_control_io], [free_control_io] *)
| Up_io_Init | Up_io_Free              (** [init_up_io], [free_up_io] *)
| Connector_Free
| Send (off len : Z)                   (** [PacketPassInterface_Sender_Send(o->control.send_if, ..)] *)
| Recv (off len : Z)                   (** [StreamRecvInterface_Receiver_Recv(o->control.recv_if, ..)] *)
| Report (e : event).                  (** [o->handler(o->user, e)], also through [report_error] *)

Definition set_st (o : t) (s : state) : t :=
  mk (auths o) (dest_addr o) s (buffer o) (recv_dest o) (recv_len o) (recv_total o).

Definition set_buffer (o : t) (b : option (list Z)) : t :=
  mk (auths o) (dest_addr o) (st o) b (recv_dest o) (recv_len o) (recv_total o).

Definition set_recv (o : t) (d l n : Z) : t :=
  mk (auths o) (dest_addr o) (st o) (buffer o) d l n.

Definition num_auth_info (o : t) : Z := Z.of_nat (length (auths o)).

(** [memcpy(o->buffer + off, bs, sizeof)] *)
Definition buf_write (o : t) (off : Z) (bs : list Z) : result t :=
  match buffer o with
  | Some b =>
      if (0 <=? off) && (off + Z.of_nat (length bs) <=? Z.of_nat (length b)) then
        Ok (set_buffer o (Some (take (Z.to_nat off) b ++ bs
                                ++ drop (Z.to_nat off + length bs) b)))
      else Fault BadAccess
  | None => Fault BadAccess
  end.

(** [o->buffer[off .. off + n)] *)
Definition buf_read (o : t) (off n : Z) : result (list Z) :=
  match buffer o with
  | Some b => if (0 <=? off) && (0 <=? n) && (off + n <=? Z.of_nat (length b))
              then Ok (take (Z.to_nat n) (drop (Z.to_nat off) b)) else Fault BadAccess
  | None => Fault BadAccess
  end.

(** [alloc] is whether [realloc] succeeds; it keeps the contents and zeroes here what it adds. *)
Definition reserve_buffer (o : t) (size : bsize_t) (alloc : bool) : option t :=
  if is_overflow size then None else
  if negb alloc then None else
  let n := Z.to_nat (if bs_value size =? 0 then 1 else bs_value size) in
  Some (set_buffer o (Some (resize n 0 (default [] (buffer o))))).

Definition do_receive (o : t) : result (list call) :=
  ASSERT (recv_len o <? recv_total o) ;;
  Ok [Recv (recv_dest o + recv_len o) (recv_total o - recv_len o)].

Definition start_receive (o : t) (dest total : Z) : result (t * list call) :=
  ASSERT (0 <? total) ;;
  let o := set_recv o dest 0 total in
  cs ← do_receive o;
  Ok (o, cs).

Definition report_error (e : event) : list call := [Report e].

Fixpoint write_methods (o : t) (i : Z) (ais : list auth_info) : result t :=
  match ais with
  | [] => Ok o
  | ai :: ais =>
      o ← buf_write o (sizeof_client_hello_header + i * sizeof_client_hello_method)
            [hton8 (auth_type ai)];
      write_methods o (i + 1) ais
  end.

(** [con_ok] is what [BConnection_Init] returns. *)
Definition connector_handler (o : t) (is_error con_ok alloc : bool) : result (t * list call) :=
  ASSERT bool_decide (st o = STATE_CONNECTING) ;;
  let fail0 := report_error EVENT_ERROR in
  let fail1 := [Con_Init; Control_io_Init; Control_io_Free; Con_Free] ++ fail0 in
  if is_error then Ok (o, fail0) else
  if negb con_ok then Ok (o, fail0) else
  if (num_auth_info o =? 0) || (255 <? num_auth_info o) then Ok (o, fail1) else
  let size := bsize_add (bsize_fromsize sizeof_client_hello_header)
                (bsize_mul (bsize_fromsize (num_auth_info o))
                           (bsize_fromsize sizeof_client_hello_method)) in
  match reserve_buffer o size alloc with
  | None => Ok (o, fail1)
  | Some o =>
      o ← buf_write o 0 [hton8 SOCKS_VERSION; hton8 (num_auth_info o)];
      o ← write_methods o 0 (auths o);
      Ok (set_st o STATE_SENDING_HELLO, [Con_Init; Control_io_Init; Send 0 (bs_value size)])
  end.

Definition connection_handler (o : t) (recv_closed : bool) : result (list call) :=
  ASSERT negb (bool_decide (st o = STATE_CONNECTING)) ;;
  if bool_decide (st o = STATE_UP) && recv_closed then Ok (report_error EVENT_ERROR_CLOSED)
  else Ok (report_error EVENT_ERROR).

Definition auth_finished (o : t) (alloc : bool) : result (t * list call) :=
  let size := bsize_fromsize sizeof_request_header in
  let size := match dest_addr o with
              | BAddr.IPV4 _ _ => bsize_add size (bsize_fromsize sizeof_addr_ipv4)
              | BAddr.IPV6 _ _ => bsize_add size (bsize_fromsize sizeof_addr_ipv6)
              | _ => size
              end in
  match reserve_buffer o size alloc with
  | None => Ok (o, report_error EVENT_ERROR)
  | Some o =>
      r ← match dest_addr o with
          | BAddr.IPV4 ip port =>
              o ← buf_write o sizeof_request_header (le_bytes 4 ip ++ le_bytes 2 port);
              Ok (o, hton8 SOCKS_ATYP_IPV4)
          | BAddr.IPV6 ip port =>
              o ← buf_write o sizeof_request_header (ip ++ le_bytes 2 port);
              Ok (o, hton8 SOCKS_ATYP_IPV6)
          | _ => Fault AssertFailed
          end;
      o ← buf_write (fst r) 0 [hton8 SOCKS_VERSION; hton8 SOCKS_CMD_CONNECT; hton8 0; snd r];
      Ok (set_st o STATE_SENDING_REQUEST, [Send 0 (bs_value size)])
  end.

(** The loop looking for the method the server chose. *)
Fixpoint find_auth (ais : list auth_info) (method : Z) : option auth_info :=
  match ais with
  | [] => None
  | ai :: ais => if auth_type ai =? method then Some ai else find_auth ais method
  end.

Definition bad_length (l : Z) : bool := (l =? 0) || (255 <? l).

(** The case [SOCKS_METHOD_USERNAME_PASSWORD]. *)
Definition send_password (o : t) (ai : auth_info) (alloc : bool) : result (t * list call) :=
  let ulen := Z.of_nat (length (username ai)) in
  let plen := Z.of_nat (length (password ai)) in
  if bad_length ulen || bad_length plen then Ok (o, report_error EVENT_ERROR) else
  let size := bsize_fromsize (to_size (1 + 1 + ulen + 1 + plen)) in
  match reserve_buffer o size alloc with
  | None => Ok (o, report_error EVENT_ERROR)
  | Some o =>
      o ← buf_write o 0 [1];
      o ← buf_write o 1 [to_u8 ulen];
      o ← buf_write o 2 (username ai);
      o ← buf_write o (2 + ulen) [to_u8 plen];
      o ← buf_write o (2 + ulen + 1) (password ai);
      Ok (set_st o STATE_SENDING_PASSWORD, [Send 0 (bs_value size)])
  end.

Definition received_hello (o : t) (alloc : bool) : result (t * list call) :=
  imsg ← buf_read o 0 sizeof_server_hello;
  if negb (ntoh8 (nth 0 imsg 0) =? SOCKS_VERSION) then Ok (o, report_error EVENT_ERROR) else
  match find_auth (auths o) (ntoh8 (nth 1 imsg 0)) with
  | None => Ok (o, report_error EVENT_ERROR)
  | Some ai =>
      if auth_type ai =? SOCKS_METHOD_NO_AUTHENTICATION_REQUIRED then auth_finished o alloc else
      if auth_type ai =? SOCKS_METHOD_USERNAME_PASSWORD then send_password o ai alloc else
      Fault AssertFailed
  end.

Definition received_reply_header (o : t) : result (t * list call) :=
  imsg ← buf_read o 0 sizeof_reply_header;
  if negb (ntoh8 (nth 0 imsg 0) =? SOCKS_VERSION) then Ok (o, report_error EVENT_ERROR) else
  if negb (ntoh8 (nth 1 imsg 0) =? SOCKS_REP_SUCCEEDED) then Ok (o, report_error EVENT_ERROR) else
  let receive_rest addr_len :=
    r ← start_receive o sizeof_reply_header addr_len;
    Ok (set_st (fst r) STATE_RECEIVED_REPLY_HEADER, snd r) in
  if ntoh8 (nth 3 imsg 0) =? SOCKS_ATYP_IPV4 then receive_rest sizeof_addr_ipv4 else
  if ntoh8 (nth 3 imsg 0) =? SOCKS_ATYP_IPV6 then receive_rest sizeof_addr_ipv6 else
  Ok (o, report_error EVENT_ERROR).

Definition received_password_reply (o : t) (alloc : bool) : result (t * list call) :=
  b0 ← buf_read o 0 1;
  if negb (nth 0 b0 0 =? 1) then Ok (o, report_error EVENT_ERROR) else
  b1 ← buf_read o 1 1;
  if negb (nth 0 b1 0 =? 0) then Ok (o, report_error EVENT_ERROR) else
  auth_finished o alloc.

Definition recv_handler_done (o : t) (data_len : Z) (alloc : bool) : result (t * list call) :=
  ASSERT (0 <=? data_len) ;;
  ASSERT (data_len <=? recv_total o - recv_len o) ;;
  let o := set_recv o (recv_dest o) (recv_len o + data_len) (recv_total o) in
  if recv_len o <? recv_total o then cs ← do_receive o; Ok (o, cs) else
  match st o with
  | STATE_SENT_HELLO => received_hello o alloc
  | STATE_SENT_REQUEST => received_reply_header o
  | STATE_SENT_PASSWORD => received_password_reply o alloc
  | STATE_RECEIVED_REPLY_HEADER =>
      Ok (set_st (set_buffer o None) STATE_UP, [Control_io_Free; Up_io_Init; Report EVENT_UP])
  | _ => Fault AssertFailed
  end.

(** Sending is done: allocate for the answer and receive its first [total] bytes. *)
Definition await (o : t) (size : bsize_t) (total : Z) (s : state) (alloc : bool)
    : result (t * list call) :=
  match reserve_buffer o size alloc with
  | None => Ok (o, report_error EVENT_ERROR)
  | Some o => r ← start_receive o 0 total; Ok (set_st (fst r) s, snd r)
  end.

Definition send_handler_done (o : t) (alloc : bool) : result (t * list call) :=
  ASSERT bool_decide (is_Some (buffer o)) ;;
  match st o with
  | STATE_SENDING_HELLO =>
      let size := bsize_fromsize sizeof_server_hello in
      await o size (bs_value size) STATE_SENT_HELLO alloc
  | STATE_SENDING_REQUEST =>
      let size := bsize_add (bsize_fromsize sizeof_reply_header)
                    (bsize_max (bsize_fromsize sizeof_addr_ipv4) (bsize_fromsize sizeof_addr_ipv6)) in
      await o size sizeof_reply_header STATE_SENT_REQUEST alloc
  | STATE_SENDING_PASSWORD =>
      let size := bsize_fromsize 2 in
      await o size (bs_value size) STATE_SENT_PASSWORD alloc
  | _ => Fault AssertFailed
  end.

Definition auth_none : auth_info := mkauth SOCKS_METHOD_NO_AUTHENTICATION_REQUIRED [] [].

Definition auth_password (u p : list Z) : auth_info := mkauth SOCKS_METHOD_USERNAME_PASSWORD u p.

Definition known_auth (ai : auth_info) : bool :=
  (auth_type ai =? SOCKS_METHOD_NO_AUTHENTICATION_REQUIRED)
  || (auth_type ai =? SOCKS_METHOD_USERNAME_PASSWORD).

(** [connector_ok] is what [BConnector_Init] returns; [Ok None] is the failure return. *)
Definition Init (server_addr : BAddr.t) (ais : list auth_info) (dest : BAddr.t) (connector_ok : bool)
    : result (option t) :=
  invalid ← BAddr.IsInvalid server_addr;
  ASSERT negb invalid ;;
  ASSERT ((BAddr.type_of dest =? BADDR_TYPE_IPV4) || (BAddr.type_of dest =? BADDR_TYPE_IPV6)) ;;
  ASSERT forallb known_auth ais ;;
  if connector_ok then Ok (Some (mk ais dest STATE_CONNECTING None 0 0 0)) else Ok None.

(** The releases of [BSocksClient_Free], and whether the buffer is freed. *)
Definition Free (o : t) : list call * bool :=
  ((if bool_decide (st o = STATE_CONNECTING) then []
    else (if bool_decide (st o = STATE_UP) then [Up_io_Free] else [Control_io_Free]) ++ [Con_Free])
   ++ [Connector_Free],
   bool_decide (is_Some (buffer o))).

End SocksClient.

(** ** The client and its surroundings *)

Module SocksWorld.
Import SocksClient.

(** [con], [control_io], [up_io] and [connector] are whether these objects of the client are
    initialised; [w_send] and [w_recv] are the operations outstanding at the connection, [sent]
    and [rcvd] the bytes it has transferred, [reports] the client's calls of its handler. *)
Record world := mkw {
  cli : t;
  connector : bool;
  con : bool;
  control_io : bool;
  up_io : bool;
  w_send : option (Z * Z);
  w_recv : option (Z * Z);
  sent : list Z;
  rcvd : list Z;
  reports : list event;
}.

Definition set_ports (w : world) (s r : option (Z * Z)) : world :=
  mkw (cli w) (connector w) (con w) (control_io w) (up_io w) s r (sent w) (rcvd w) (reports w).

Definition set_objects (w : world) (cr cn ct u : bool) : world :=
  mkw (cli w) cr cn ct u (w_send w) (w_recv w) (sent w) (rcvd w) (reports w).

Definition set_cli (w : world) (o : t) : world :=
  mkw o (connector w) (con w) (control_io w) (up_io w) (w_send w) (w_recv w) (sent w) (rcvd w)
    (reports w).

Definition do_call (w : world) (c : call) : result world :=
  match c with
  | Con_Init => ASSERT negb (con w) ;; Ok (set_objects w (connector w) true (control_io w) (up_io w))
  | Con_Free => ASSERT con w ;; ASSERT negb (control_io w) ;; ASSERT negb (up_io w) ;;
                Ok (set_objects w (connector w) false (control_io w) (up_io w))
  | Control_io_Init => ASSERT con w ;; ASSERT negb (control_io w) ;; ASSERT negb (up_io w) ;;
                       Ok (set_objects w (connector w) (con w) true (up_io w))
  | Control_io_Free => ASSERT control_io w ;;
                       Ok (set_ports (set_objects w (connector w) (con w) false (up_io w)) None None)
  | Up_io_Init => ASSERT con w ;; ASSERT negb (control_io w) ;; ASSERT negb (up_io w) ;;
                  Ok (set_objects w (connector w) (con w) (control_io w) true)
  | Up_io_Free => ASSERT up_io w ;; Ok (set_objects w (connector w) (con w) (control_io w) false)
  | Connector_Free => ASSERT connector w ;; Ok (set_objects w false (con w) (control_io w) (up_io w))
  | Send off len =>
      ASSERT control_io w ;; ASSERT (0 <=? len) ;; ASSERT (len <=? INT_MAX) ;;
      ASSERT bool_decide (w_send w = None) ;;
      _ ← buf_read (cli w) off len;
      Ok (set_ports w (Some (off, len)) (w_recv w))
  | Recv off len =>
      ASSERT control_io w ;; ASSERT (0 <? len) ;; ASSERT bool_decide (w_recv w = None) ;;
      _ ← buf_read (cli w) off len;
      Ok (set_ports w (w_send w) (Some (off, len)))
  | Report e =>
      Ok (mkw (cli w) (connector w) (con w) (control_io w) (up_io w) (w_send w) (w_recv w)
              (sent w) (rcvd w) (reports w ++ [e]))
  end.

Definition run_handler (w : world) (h : result (t * list call)) : result world :=
  '(o, cs) ← h; run_calls do_call (set_cli w o) cs.

(** After an error the client's owner frees it: nothing else happens. *)
Definition alive (w : world) : bool :=
  bool_decide (EVENT_ERROR ∉ reports w) && bool_decide (EVENT_ERROR_CLOSED ∉ reports w).

Inductive input :=
| Connected (con_ok alloc : bool)
| ConnectFailed
| SendDone (alloc : bool)
| Received (bs : list Z) (alloc : bool)
| ConEvent (recv_closed : bool).

Definition step (w : world) (e : input) : option (result world) :=
  if negb (alive w) then None else
  match e with
  | Connected con_ok alloc =>
      if bool_decide (st (cli w) = STATE_CONNECTING)
      then Some (run_handler w (connector_handler (cli w) false con_ok alloc)) else None
  | ConnectFailed =>
      if bool_decide (st (cli w) = STATE_CONNECTING)
      then Some (run_handler w (connector_handler (cli w) true false false)) else None
  | SendDone alloc =>
      match w_send w with
      | Some (off, len) =>
          Some (bs ← buf_read (cli w) off len;
                let w := mkw (cli w) (connector w) (con w) (control_io w) (up_io w) None (w_recv w)
                             (sent w ++ bs) (rcvd w) (reports w) in
                run_handler w (send_handler_done (cli w) alloc))
      | None => None
      end
  | Received bs alloc =>
      match w_recv w with
      | Some (off, len) =>
          if (0 <? Z.of_nat (length bs)) && (Z.of_nat (length bs) <=? len)
             && bool_decide (Forall is_byte bs) then
            Some (o ← buf_write (cli w) off bs;
                  let w := mkw o (connector w) (con w) (control_io w) (up_io w) (w_send w) None
                               (sent w) (rcvd w ++ bs) (reports w) in
                  run_handler w (recv_handler_done (cli w) (Z.of_nat (length bs)) alloc))
          else None
      | None => None
      end
  | ConEvent closed =>
      if con w then Some (run_handler w (cs ← connection_handler (cli w) closed; Ok (cli w, cs)))
      else None
  end.

Abbreviation run := (run_steps step).

Definition init_world (server : BAddr.t) (ais : list auth_info) (dest : BAddr.t) : result world :=
  r ← Init server ais dest true;
  match r with
  | Some o => Ok (mkw o true false false false None None [] [] [])
  | None => Fault AssertFailed
  end.

(** [BSocksClient_Free] *)
Definition free_world (w : world) : result world := run_calls do_call w (fst (Free (cli w))).

End SocksWorld.

(** ** The protocol *)

Module SocksSpec.
Import SocksClient.

(** What the replies received so far amount to; [Complete] has what follows them.  Each message of the server (the choice of
    the method, 2 bytes; the answer to the password, 2 bytes; the header of the reply, 4 bytes) is judged when it is
    complete: a first byte that no acceptable message starts with is [Partial] until the rest has come, as the client reads
    whole messages. *)
Inductive verdict := Complete (rest : list Z) | Bad | Partial.

#[global] Instance verdict_eq_dec : EqDecision verdict.
Proof. solve_decision. Defined.

Definition addr_len (atyp : Z) : option nat :=
  if atyp =? SOCKS_ATYP_IPV4 then Some 6%nat else if atyp =? SOCKS_ATYP_IPV6 then Some 18%nat else None.

Definition judge_reply (s : list Z) : verdict :=
  match s with
  | v :: rep :: _ :: atyp :: addr =>
      if negb (v =? SOCKS_VERSION) then Bad else
      if negb (rep =? SOCKS_REP_SUCCEEDED) then Bad else
      match addr_len atyp with
      | None => Bad
      | Some n => if decide (length addr < n)%nat then Partial else Complete (drop n addr)
      end
  | _ => Partial
  end.

Definition judge_password (s : list Z) : verdict :=
  match s with
  | v :: status :: s => if (v =? 1) && (status =? 0) then judge_reply s else Bad
  | _ => Partial
  end.

Definition good_password (ai : auth_info) : bool :=
  negb (bad_length (Z.of_nat (length (username ai)))) &&
  negb (bad_length (Z.of_nat (length (password ai)))).

Definition judge (ais : list auth_info) (s : list Z) : verdict :=
  match s with
  | v :: m :: s =>
      if negb (v =? SOCKS_VERSION) then Bad else
      match find_auth ais m with
      | None => Bad
      | Some ai => if m =? SOCKS_METHOD_NO_AUTHENTICATION_REQUIRED then judge_reply s
                   else if good_password ai then judge_password s else Bad
      end
  | _ => Partial
  end.

(** The messages. *)
Definition hello (ais : list auth_info) : list Z :=
  [SOCKS_VERSION; Z.of_nat (length ais)] ++ (auth_type <$> ais).

Definition password_message (ai : auth_info) : list Z :=
  1 :: Z.of_nat (length (username ai)) :: username ai
    ++ Z.of_nat (length (password ai)) :: password ai.

Definition request (dest : BAddr.t) : list Z :=
  match dest with
  | BAddr.IPV4 ip port =>
      [SOCKS_VERSION; SOCKS_CMD_CONNECT; 0; SOCKS_ATYP_IPV4] ++ le_bytes 4 ip ++ le_bytes 2 port
  | BAddr.IPV6 ip port =>
      [SOCKS_VERSION; SOCKS_CMD_CONNECT; 0; SOCKS_ATYP_IPV6] ++ ip ++ le_bytes 2 port
  | _ => []
  end.

(** What is sent in the handshake, by the method the server chose. *)
Definition dialogue (ais : list auth_info) (dest : BAddr.t) (method : Z) : list Z :=
  hello ais
  ++ match find_auth ais method with
     | Some ai => if method =? SOCKS_METHOD_NO_AUTHENTICATION_REQUIRED then [] else password_message ai
     | None => []
     end
  ++ request dest.

Definition good_dest (dest : BAddr.t) : Prop :=
  match dest with
  | BAddr.IPV4 _ _ => True
  | BAddr.IPV6 ip _ => length ip = 16%nat
  | _ => False
  end.

End SocksSpec.

(** ** The client follows the protocol *)

Module SocksFacts.
Import SocksClient SocksWorld SocksSpec.

(** *** The buffer *)

Lemma set_buffer_twice o a b : set_buffer (set_buffer o a) b = set_buffer o b.
Proof. done. Qed.

Lemma buf_write_app o pre rest off bs :
  buffer o = Some (pre ++ rest) → off = Z.of_nat (length pre) → (length bs ≤ length rest)%nat →
  buf_write o off bs = Ok (set_buffer o (Some ((pre ++ bs) ++ drop (length bs) rest))).
Proof.
  intros Hb -> Hl. unfold buf_write. rewrite Hb, length_app, Nat2Z.id.
  rewrite (proj2 (Z.leb_le 0 _)), (proj2 (Z.leb_le _ _)) by lia. simpl.
  by rewrite take_app_length, drop_app_add, app_assoc.
Qed.

(** Overwriting in the middle. *)
Lemma buf_write_mid o pre old post off bs :
  buffer o = Some (pre ++ old ++ post) → off = Z.of_nat (length pre) → length old = length bs →
  buf_write o off bs = Ok (set_buffer o (Some (pre ++ bs ++ post))).
Proof.
  intros Hb Hoff Hl. rewrite (buf_write_app o pre (old ++ post)) by (rewrite ?length_app; auto with lia).
  by rewrite <- Hl, drop_app_length, <- app_assoc.
Qed.

Lemma buf_read_app o pre bs post off n :
  buffer o = Some (pre ++ bs ++ post) → off = Z.of_nat (length pre) → n = Z.of_nat (length bs) →
  buf_read o off n = Ok bs.
Proof.
  intros Hb -> ->. unfold buf_read. rewrite Hb, !length_app.
  rewrite (proj2 (Z.leb_le 0 _)), (proj2 (Z.leb_le 0 _)), (proj2 (Z.leb_le _ _)) by lia. simpl.
  by rewrite !Nat2Z.id, drop_app_length, take_app_length.
Qed.

Lemma buf_read_all o bs : buffer o = Some bs → buf_read o 0 (Z.of_nat (length bs)) = Ok bs.
Proof. intros Hb. apply (buf_read_app o [] bs []); simpl; [by rewrite app_nil_r | done | done]. Qed.

Lemma reserve_some o size alloc o' :
  0 < bs_value size → reserve_buffer o size alloc = Some o' →
  ∃ b, o' = set_buffer o (Some b) ∧ length b = Z.to_nat (bs_value size).
Proof.
  intros Hs H. unfold reserve_buffer in H. repeat (case_if; try done); [lia|].
  injection H as <-. eexists. split; [done|]. by rewrite length_resize.
Qed.

Lemma reserve_true o size :
  is_overflow size = false → is_Some (reserve_buffer o size true).
Proof. intros H. unfold reserve_buffer. rewrite H. simpl. eauto. Qed.

(** *** The messages *)

Lemma hton8_byte x : is_byte x → hton8 x = x.
Proof. intros. unfold hton8, to_u8. apply Z.mod_small. unfold is_byte in *. lia. Qed.

Lemma to_u8_byte x : is_byte x → to_u8 x = x.
Proof. apply hton8_byte. Qed.

Lemma known_type ai : known_auth ai = true → is_byte (auth_type ai).
Proof.
  unfold known_auth, is_byte, SOCKS_METHOD_NO_AUTHENTICATION_REQUIRED, SOCKS_METHOD_USERNAME_PASSWORD.
  intros [->%Z.eqb_eq | ->%Z.eqb_eq]%orb_prop; lia.
Qed.

Lemma write_methods_ok l : ∀ o i pre rest,
  forallb known_auth l = true → buffer o = Some (pre ++ rest) → Z.of_nat (length pre) = 2 + i →
  length rest = length l →
  write_methods o i l = Ok (set_buffer o (Some (pre ++ (auth_type <$> l)))).
Proof.
  induction l as [|ai l IH]; intros o i pre rest Hk Hb Hp Hl; simpl in *.
  { destruct rest; [|done]. rewrite app_nil_r in *. destruct o; simpl in *. by subst. }
  apply andb_true_iff in Hk as [Hai Hk].
  rewrite (buf_write_app o pre rest) by
    (auto; unfold sizeof_client_hello_header, sizeof_client_hello_method; simpl; lia).
  simpl. destruct rest as [|x rest]; [done|]. simpl in Hl.
  rewrite (IH _ _ (pre ++ [hton8 (auth_type ai)]) rest); simpl; auto with lia.
  { by rewrite <- !app_assoc, (hton8_byte _ (known_type ai Hai)). }
  rewrite length_app. simpl. lia.
Qed.

Lemma find_auth_some l m ai :
  find_auth l m = Some ai → forallb known_auth l = true →
  auth_type ai = m ∧ (m = SOCKS_METHOD_NO_AUTHENTICATION_REQUIRED ∨ m = SOCKS_METHOD_USERNAME_PASSWORD).
Proof.
  induction l as [|a l IH]; simpl; [done|]. intros H [Ha Hk]%andb_true_iff.
  destruct (Z.eqb_spec (auth_type a) m) as [Hm|]; [|auto]. simplify_eq. split; [done|].
  unfold known_auth in Ha. apply orb_prop in Ha as [->%Z.eqb_eq | ->%Z.eqb_eq]; auto.
Qed.

(** A message that is allocated, filled in and sent; allocation may fail. *)
Definition sends (o : t) (alloc : bool) (msg : list Z) (s : state) (r : result (t * list call)) : Prop :=
  (alloc = false ∧ r = Ok (o, [Report EVENT_ERROR])) ∨
  (Z.of_nat (length msg) ≤ INT_MAX ∧
   r = Ok (set_st (set_buffer o (Some msg)) s, [Send 0 (Z.of_nat (length msg))])).

Lemma reserve_cases o size alloc :
  is_overflow size = false → 0 < bs_value size →
  (alloc = false ∧ reserve_buffer o size alloc = None) ∨
  (∃ b, reserve_buffer o size alloc = Some (set_buffer o (Some b)) ∧
        length b = Z.to_nat (bs_value size)).
Proof.
  intros Hv Hs. destruct alloc.
  - right. destruct (reserve_true o size Hv) as [o' Ho].
    destruct (reserve_some _ _ _ _ Hs Ho) as (b & -> & Hl). eauto.
  - left. unfold reserve_buffer. by rewrite Hv.
Qed.

Lemma length_hello ais : length (hello ais) = (2 + length ais)%nat.
Proof. unfold hello. by rewrite length_app, length_fmap. Qed.

Lemma hello_sent o con_ok alloc ais :
  st o = STATE_CONNECTING → auths o = ais → forallb known_auth ais = true →
  (∃ cs, connector_handler o false con_ok alloc = Ok (o, cs ++ [Report EVENT_ERROR]) ∧
         (cs = [] ∨ cs = [Con_Init; Control_io_Init; Control_io_Free; Con_Free])) ∨
  (0 < Z.of_nat (length ais) ≤ 255 ∧
   connector_handler o false con_ok alloc =
   Ok (set_st (set_buffer o (Some (hello ais))) STATE_SENDING_HELLO,
       [Con_Init; Control_io_Init; Send 0 (Z.of_nat (length (hello ais)))])).
Proof.
  intros Hst Ha Hk. unfold connector_handler, num_auth_info. rewrite Ha, bool_decide_true by done.
  cbn [c_assert]. destruct con_ok; cbn [negb]; [|by left; exists []; auto].
  destruct (_ || _) eqn:Hn; [by left; exists [Con_Init; Control_io_Init; Control_io_Free; Con_Free]; auto|].
  zify_bool. set (size := bsize_add _ _).
  assert (size = bsize_fromsize (2 + Z.of_nat (length ais))) as ->.
  { subst size. unfold bsize_add, bsize_mul, bsize_fromsize, to_size, SIZE_MAX,
      sizeof_client_hello_header, sizeof_client_hello_method. cbn [is_overflow bs_value].
    rewrite Z.mul_1_r, (proj2 (Z.eqb_neq (Z.of_nat (length ais)) 0)) by lia. cbn [negb andb orb].
    rewrite (Z.mod_small (Z.of_nat (length ais))) by lia.
    rewrite (Z.mod_small (2 + _)) by lia. f_equal.
    rewrite (proj2 (Z.ltb_ge _ 1)), (proj2 (Z.ltb_ge _ _)); [done | lia |].
    apply Z.div_le_lower_bound; lia. }
  destruct (reserve_cases o (bsize_fromsize (2 + Z.of_nat (length ais))) alloc) as
    [[_ ->] | (b & -> & Hb)]; [done | simpl; lia | by left; exists [Con_Init; Control_io_Init; Control_io_Free; Con_Free]; auto|].
  right. split; [lia|]. simpl in Hb.
  rewrite (buf_write_app _ [] b) by (simpl; auto with lia). rewrite ok_bind.
  cbn [auths set_buffer]. rewrite Ha.
  erewrite (write_methods_ok ais _ 0 [hton8 SOCKS_VERSION; hton8 (Z.of_nat (length ais))]);
    [|done|reflexivity|done|rewrite length_drop; simpl; lia].
  rewrite ok_bind, length_hello, Nat2Z.inj_add, (hton8_byte (Z.of_nat _)) by (split; lia). done.
Qed.

Lemma request_sent o alloc dest :
  dest_addr o = dest → good_dest dest → sends o alloc (request dest) STATE_SENDING_REQUEST (auth_finished o alloc).
Proof.
  intros Hd Hg. unfold auth_finished. rewrite Hd.
  destruct dest as [|ip port|ip port|p|n]; try done; cbn [good_dest] in Hg.
  - change (bsize_add _ _) with (bsize_fromsize 10).
    destruct (reserve_cases o (bsize_fromsize 10) alloc) as [[Ha Hr] | (b & Hr & Hb)];
      [done | done | by left; rewrite Hr | right].
    split; [done|]. rewrite Hr. cbn [dest_addr set_buffer].
    rewrite Hd. simpl in Hb. do 10 (destruct b as [|? b]; [done|]). destruct b; [|done]. done.
  - change (bsize_add _ _) with (bsize_fromsize 22).
    destruct (reserve_cases o (bsize_fromsize 22) alloc) as [[Ha Hr] | (b & Hr & Hb)];
      [done | done | by left; rewrite Hr | right].
    do 16 (destruct ip as [|? ip]; [done|]). destruct ip; [|done].
    split; [done|]. rewrite Hr. cbn [dest_addr set_buffer].
    rewrite Hd. simpl in Hb. do 22 (destruct b as [|? b]; [done|]). destruct b; [|done]. done.
Qed.

Lemma password_sent o alloc ai :
  good_password ai = true →
  sends o alloc (password_message ai) STATE_SENDING_PASSWORD (send_password o ai alloc).
Proof.
  unfold good_password, bad_length. intros Hg. zify_bool. unfold send_password, bad_length.
  set (u := length (username ai)) in *. set (p := length (password ai)) in *.
  rewrite !(proj2 (Z.eqb_neq _ 0)), !(proj2 (Z.ltb_ge 255 _)) by lia. cbn [orb].
  assert (Hm : length (password_message ai) = (3 + u + p)%nat).
  { unfold password_message. simpl. rewrite length_app. simpl. lia. }
  unfold to_size, SIZE_MAX. rewrite Z.mod_small by lia.
  destruct (reserve_cases o (bsize_fromsize (1 + 1 + Z.of_nat u + 1 + Z.of_nat p)) alloc) as
    [[Ha ->] | (b & -> & Hb)]; [done | simpl; lia | by left | right].
  simpl in Hb. split; [unfold INT_MAX; lia|].
  rewrite (buf_write_app _ [] b) by (simpl; auto with lia). rewrite ok_bind.
  rewrite (buf_write_app _ [1] (drop 1 b)) by (rewrite ?length_drop; simpl; auto with lia).
  rewrite ok_bind, set_buffer_twice. cbn [length]. rewrite drop_drop.
  rewrite (buf_write_app _ [1; to_u8 (Z.of_nat u)] (drop (1 + 1) b)) by
    (rewrite ?length_drop; simpl; auto with lia). rewrite ok_bind, set_buffer_twice, drop_drop.
  erewrite (buf_write_app _ ([1; to_u8 (Z.of_nat u)] ++ username ai)); [|reflexivity| |]; cycle 1.
  { rewrite length_app. simpl. lia. } { rewrite length_drop. simpl. lia. }
  rewrite ok_bind, set_buffer_twice, drop_drop. cbn [length].
  erewrite (buf_write_app _ (([1; to_u8 (Z.of_nat u)] ++ username ai) ++ [to_u8 (Z.of_nat p)]));
    [|reflexivity| |]; cycle 1.
  { rewrite !length_app. simpl. lia. } { rewrite length_drop. fold p. lia. }
  rewrite ok_bind, set_buffer_twice, drop_drop, (drop_ge b) by (cbn [length]; fold u p; lia).
  rewrite app_nil_r.
  rewrite set_buffer_twice, !to_u8_byte, Hm by (split; lia).
  replace (Z.of_nat (3 + u + p)) with (1 + 1 + Z.of_nat u + 1 + Z.of_nat p) by lia.
  unfold password_message. by rewrite <- !app_assoc.
Qed.

(** A message of [total] bytes to be received at [base]. *)
Lemma await_ok o size total s alloc :
  is_overflow size = false → 0 < total ≤ bs_value size →
  (alloc = false ∧ await o size total s alloc = Ok (o, [Report EVENT_ERROR])) ∨
  (∃ b, length b = Z.to_nat (bs_value size) ∧
        await o size total s alloc =
        Ok (set_st (set_recv (set_buffer o (Some b)) 0 0 total) s, [Recv 0 total])).
Proof.
  intros Hv Ht. unfold await.
  destruct (reserve_cases o size alloc) as [[-> ->] | (b & -> & Hb)]; [done | lia | by left |].
  right. exists b. split; [done|]. unfold start_receive, do_receive.
  run_assert. simpl. run_assert. simpl. by rewrite Z.sub_0_r.
Qed.

(** *** The invariant *)

Section inv.
Context (ais : list auth_info) (dest : BAddr.t).
Context (Hais : forallb known_auth ais = true) (Hdest : good_dest dest).

(** [pre] are the replies of a completed authentication with method [m]. *)
Definition authed (pre : list Z) (m : Z) : Prop :=
  (m = 0 ∧ pre = [5; 0] ∧ is_Some (find_auth ais 0)) ∨
  (m = 2 ∧ pre = [5; 2; 1; 0] ∧ ∃ ai, find_auth ais 2 = Some ai ∧ good_password ai = true).

Definition auth_sent (m : Z) : list Z :=
  hello ais
  ++ match find_auth ais m with
     | Some ai => if m =? SOCKS_METHOD_NO_AUTHENTICATION_REQUIRED then [] else password_message ai
     | None => []
     end.

(** The first four bytes of an acceptable reply, which [n] bytes of address follow. *)
Definition good_header (hdr : list Z) (n : nat) : Prop :=
  ∃ x atyp, hdr = [5; 0; x; atyp] ∧ addr_len atyp = Some n.

Definition sending (w : world) (msg : list Z) : Prop :=
  buffer (cli w) = Some msg ∧ w_send w = Some (0, Z.of_nat (length msg)) ∧ w_recv w = None.

(** [got] of a message of [total] bytes are in the buffer at [base], the rest is being received. *)
Definition receiving (w : world) (base total : nat) (got : list Z) : Prop :=
  ∃ pre post, buffer (cli w) = Some (pre ++ got ++ post) ∧ length pre = base ∧
    (length got < total)%nat ∧ (total ≤ length (got ++ post))%nat ∧
    recv_dest (cli w) = Z.of_nat base ∧ recv_len (cli w) = Z.of_nat (length got) ∧
    recv_total (cli w) = Z.of_nat total ∧ Forall is_byte got ∧ w_send w = None ∧
    w_recv w = Some (Z.of_nat (base + length got), Z.of_nat (total - length got)).

Definition up_facts (w : world) : Prop :=
  ∃ pre m hdr n addr, authed pre m ∧ good_header hdr n ∧ length addr = n ∧
    rcvd w = pre ++ hdr ++ addr ∧ sent w = auth_sent m ++ request dest.

Definition phase (w : world) : Prop :=
  match st (cli w) with
  | STATE_CONNECTING => w_send w = None ∧ w_recv w = None ∧ sent w = [] ∧ rcvd w = []
  | STATE_SENDING_HELLO => sending w (hello ais) ∧ sent w = [] ∧ rcvd w = []
  | STATE_SENT_HELLO => sent w = hello ais ∧ receiving w 0 2 (rcvd w)
  | STATE_SENDING_PASSWORD =>
      ∃ ai, find_auth ais 2 = Some ai ∧ good_password ai = true ∧ sending w (password_message ai) ∧
        sent w = hello ais ∧ rcvd w = [5; 2]
  | STATE_SENT_PASSWORD =>
      ∃ ai got, find_auth ais 2 = Some ai ∧ good_password ai = true ∧ receiving w 0 2 got ∧
        sent w = hello ais ++ password_message ai ∧ rcvd w = [5; 2] ++ got
  | STATE_SENDING_REQUEST =>
      ∃ m, authed (rcvd w) m ∧ sending w (request dest) ∧ sent w = auth_sent m
  | STATE_SENT_REQUEST =>
      ∃ pre m got, authed pre m ∧ receiving w 0 4 got ∧ sent w = auth_sent m ++ request dest ∧
        rcvd w = pre ++ got ∧ (∃ b, buffer (cli w) = Some b ∧ length b = 22%nat)
  | STATE_RECEIVED_REPLY_HEADER =>
      ∃ pre m hdr n got, authed pre m ∧ good_header hdr n ∧ receiving w 4 n got ∧
        sent w = auth_sent m ++ request dest ∧ rcvd w = pre ++ hdr ++ got
  | STATE_UP => w_send w = None ∧ w_recv w = None
  end.

(** The objects that exist are those of the state. *)
Definition resources (w : world) : Prop :=
  auths (cli w) = ais ∧ dest_addr (cli w) = dest ∧ connector w = true ∧
  con w = bool_decide (st (cli w) ≠ STATE_CONNECTING) ∧
  up_io w = bool_decide (st (cli w) = STATE_UP) ∧
  control_io w = bool_decide (st (cli w) ≠ STATE_CONNECTING ∧ st (cli w) ≠ STATE_UP).

Definition Inv (w : world) : Prop :=
  resources w ∧ (alive w = true → phase w) ∧
  (EVENT_UP ∈ reports w ↔ st (cli w) = STATE_UP) ∧ (EVENT_UP ∈ reports w → up_facts w).

(** *** The verdict on a message *)

Lemma authed_judge pre m s : authed pre m → judge ais (pre ++ s) = judge_reply s.
Proof.
  intros [(-> & -> & ai & Ha) | (-> & -> & ai & Ha & Hg)]; simpl.
  - by rewrite Ha.
  - by rewrite Ha, Hg.
Qed.

Lemma good_header_judge hdr n s :
  good_header hdr n → judge_reply (hdr ++ s) = if decide (length s < n)%nat then Partial
                                               else Complete (drop n s).
Proof. intros (x & atyp & -> & Hn). simpl. by rewrite Hn. Qed.

Lemma judge_reply_short s : (length s < 4)%nat → judge_reply s = Partial.
Proof. intros H. do 4 (destruct s as [|? s]; [done|]). simpl in H. lia. Qed.

Lemma up_judge w : up_facts w → judge ais (rcvd w) = Complete [].
Proof.
  intros (pre & m & hdr & n & addr & Ha & Hh & Hl & -> & _).
  rewrite (authed_judge _ m), (good_header_judge _ n) by done.
  by rewrite decide_False, drop_ge by lia.
Qed.

Lemma up_dialogue w : up_facts w → ∃ m, rcvd w !! 1%nat = Some m ∧ sent w = dialogue ais dest m.
Proof.
  intros (pre & m & hdr & n & addr & Ha & Hh & Hl & Hr & Hs). exists m. split.
  - rewrite Hr. by destruct Ha as [(-> & -> & _) | (-> & -> & _)].
  - rewrite Hs. unfold auth_sent, dialogue. by rewrite <- app_assoc.
Qed.

(** While the client is waiting for a reply, what has been received does not settle it. *)
Lemma partial_judge w :
  phase w → st (cli w) ≠ STATE_UP → judge ais (rcvd w) = Partial.
Proof.
  unfold phase. destruct (st (cli w)) eqn:Hs; try done; intros H _.
  - by destruct H as (_ & _ & _ & ->).
  - by destruct H as (_ & _ & ->).
  - destruct H as (_ & pre & post & _ & _ & Hl & _). destruct (rcvd w) as [|? [|? ?]]; [done | done |].
    simpl in Hl. lia.
  - destruct H as (ai & Ha & Hg & _ & _ & ->). simpl. by rewrite Ha, Hg.
  - destruct H as (ai & got & Ha & Hg & (pre & post & _ & _ & Hl & _) & _ & ->). simpl.
    rewrite Ha, Hg. do 2 (destruct got as [|? got]; [done|]). simpl in Hl. lia.
  - destruct H as (m & Hm & _). by rewrite <- (app_nil_r (rcvd w)), (authed_judge _ m).
  - destruct H as (pre & m & got & Hm & (? & ? & _ & _ & Hl & _) & _ & -> & _).
    by rewrite (authed_judge _ m), judge_reply_short.
  - destruct H as (pre & m & hdr & n & got & Hm & Hh & (? & ? & _ & _ & Hl & _) & _ & ->).
    rewrite (authed_judge _ m), (good_header_judge _ n) by done. by rewrite decide_True.
Qed.

(** *** The calls of a handler *)

(** The client, its objects and its history are the same but for buffer, ports and bytes. *)
Record same_client (w w' : world) : Prop := {
  same_st : st (cli w') = st (cli w);
  same_auths : auths (cli w') = auths (cli w);
  same_dest : dest_addr (cli w') = dest_addr (cli w);
  same_connector : connector w' = connector w;
  same_con : con w' = con w;
  same_control_io : control_io w' = control_io w;
  same_up_io : up_io w' = up_io w;
  same_reports : reports w' = reports w;
}.

Lemma same_resources w w' : same_client w w' → resources w → resources w'.
Proof. intros [] H. unfold resources in *. by repeat match goal with E : _ = _ |- _ => rewrite E end. Qed.

Lemma alive_reports w : alive w = true ↔ (EVENT_ERROR ∉ reports w) ∧ (EVENT_ERROR_CLOSED ∉ reports w).
Proof. unfold alive. by rewrite andb_true_iff, !bool_decide_eq_true. Qed.

Lemma alive_same w w' : same_client w w' → alive w' = alive w.
Proof. intros []. unfold alive. by rewrite same_reports0. Qed.

Definition failed (w : world) : Prop :=
  EVENT_ERROR ∈ reports w ∧ (EVENT_UP ∉ reports w) ∧ judge ais (rcvd w) = Bad.

Definition post (e : input) (r : result world) : Prop :=
  ∃ w', r = Ok w' ∧ Inv w' ∧
    match e with Received _ true => alive w' = true ∨ failed w' | _ => True end.

Lemma report_ok w e o ev :
  resources w → (EVENT_UP ∈ reports w ↔ st (cli w) = STATE_UP) → (EVENT_UP ∈ reports w → up_facts w) →
  st o = st (cli w) → auths o = ais → dest_addr o = dest →
  ev = EVENT_ERROR ∨ ev = EVENT_ERROR_CLOSED ∧ (∀ bs, e ≠ Received bs true) →
  (∀ bs, e = Received bs true → judge ais (rcvd w) = Bad) →
  post e (run_handler w (Ok (o, [Report ev]))).
Proof.
  intros Hres Hup Hf Hst Ha Hd Hev Hbad. eexists. split; [done|].
  assert (Hr : EVENT_UP ∈ reports w ++ [ev] ↔ EVENT_UP ∈ reports w).
  { rewrite elem_of_app, list_elem_of_singleton. destruct Hev as [-> | [-> _]]; naive_solver. }
  split; [split; [|split; [|split]]|]; simpl.
  - destruct Hres as (_ & _ & ? & ? & ? & ?). unfold resources. simpl. by rewrite Hst.
  - intros [H1 H2]%alive_reports. simpl in *. exfalso.
    destruct Hev as [-> | [-> _]]; [apply H1 | apply H2]; apply elem_of_app; right; by left.
  - by rewrite Hst, Hr.
  - rewrite Hr. intros H. apply Hf in H as (pre & m & hdr & n & addr & H). by exists pre, m, hdr, n, addr.
  - destruct e as [| | |bs [|]|]; try done. right.
    specialize (Hbad bs eq_refl). destruct Hev as [-> | [_ H]]; [|by destruct (H bs)].
    split; [|split]; simpl; [apply elem_of_app; right; by left | | done].
    rewrite Hr. intros H. apply Hf, up_judge in H. congruence.
Qed.

(** A message is sent: the client waits for the sender. *)
Lemma client_send_ok w o msg s :
  control_io w = true → w_send w = None → Z.of_nat (length msg) ≤ INT_MAX →
  run_handler w (Ok (set_st (set_buffer o (Some msg)) s, [Send 0 (Z.of_nat (length msg))])) =
  Ok (set_ports (set_cli w (set_st (set_buffer o (Some msg)) s))
        (Some (0, Z.of_nat (length msg))) (w_recv w)).
Proof.
  intros Hc Hs Hm. simpl. rewrite Hc. simpl. do 3 run_assert.
  rewrite (buf_read_all _ msg) by done. done.
Qed.

Lemma client_recv_ok w o off n :
  control_io w = true → w_recv w = None → 0 < n →
  is_ok (buf_read o off n) →
  run_handler w (Ok (o, [Recv off n])) = Ok (set_ports (set_cli w o) (w_send w) (Some (off, n))).
Proof. intros Hc Hr Hn [bs Hb]. simpl. rewrite Hc. simpl. do 2 run_assert. by rewrite Hb. Qed.

(** *** Receiving *)

(** What [recv_handler_done] does with a complete message. *)
Definition message_handler (o : t) (alloc : bool) : result (t * list call) :=
  match st o with
  | STATE_SENT_HELLO => received_hello o alloc
  | STATE_SENT_REQUEST => received_reply_header o
  | STATE_SENT_PASSWORD => received_password_reply o alloc
  | STATE_RECEIVED_REPLY_HEADER =>
      Ok (set_st (set_buffer o None) STATE_UP, [Control_io_Free; Up_io_Init; Report EVENT_UP])
  | _ => Fault AssertFailed
  end.

Definition has_message (w : world) (base : nat) (msg : list Z) : Prop :=
  ∃ pre post, buffer (cli w) = Some (pre ++ msg ++ post) ∧ length pre = base ∧
    Forall is_byte msg ∧ w_recv w = None.

Lemma receive_step w base total got bs alloc r :
  alive w = true → control_io w = true → receiving w base total got →
  step w (Received bs alloc) = Some r →
  ∃ w', same_client w w' ∧ rcvd w' = rcvd w ++ bs ∧ sent w' = sent w ∧ w_send w' = None ∧
    length <$> buffer (cli w') = length <$> buffer (cli w) ∧
    ((r = Ok w' ∧ receiving w' base total (got ++ bs)) ∨
     (length (got ++ bs) = total ∧ has_message w' base (got ++ bs) ∧
      r = run_handler w' (message_handler (cli w') alloc))).
Proof.
  intros Hal Hc (pre & post & Hb & Hbase & Hgot & Htot & Hd & Hl & Ht & Hby & Hs & Hr) Hstep.
  unfold step in Hstep. rewrite Hal, Hr in Hstep. cbn [negb] in Hstep.
  case_if; [|done]. injection Hstep as <-.
  rewrite length_app in Htot.
  erewrite (buf_write_app _ (pre ++ got) post) by
    (rewrite ?Hb, ?length_app; rewrite <- ?app_assoc; auto with lia).
  rewrite ok_bind.
  set (buf := ((pre ++ got) ++ bs) ++ drop (length bs) post).
  assert (Hbuf : buf = pre ++ (got ++ bs) ++ drop (length bs) post) by (unfold buf; by rewrite <- !app_assoc).
  assert (Hlen : length buf = length (pre ++ got ++ post)).
  { rewrite Hbuf, !length_app, length_drop. lia. }
  unfold recv_handler_done. cbn [recv_total recv_len recv_dest set_buffer set_recv cli].
  rewrite Hd, Hl, Ht. do 2 run_assert.
  set (o := set_recv _ _ _ _).
  exists (mkw o (connector w) (con w) (control_io w) (up_io w) None
            (if Z.of_nat (length got) + Z.of_nat (length bs) <? Z.of_nat total
             then Some (Z.of_nat (base + length (got ++ bs)), Z.of_nat (total - length (got ++ bs)))
             else None) (sent w) (rcvd w ++ bs) (reports w)).
  split; [done|]. do 3 (split; [done|]). split; [by simpl; rewrite Hb, Hlen|].
  rewrite length_app.
  destruct (Z.ltb_spec (Z.of_nat (length got) + Z.of_nat (length bs)) (Z.of_nat total)); [left | right].
  - split.
    + unfold do_receive. cbn [recv_len recv_total recv_dest o set_recv]. run_assert. rewrite ok_bind.
      rewrite client_recv_ok; try done; [|lia|].
      * replace (Z.of_nat (base + _)) with (Z.of_nat base + (Z.of_nat (length got) + Z.of_nat (length bs)))
          by lia.
        replace (Z.of_nat (total - _)) with (Z.of_nat total - (Z.of_nat (length got) + Z.of_nat (length bs)))
          by lia.
        by rewrite Hs.
      * unfold buf_read. simpl. rewrite Hlen, !length_app.
        rewrite (proj2 (Z.leb_le 0 _)), (proj2 (Z.leb_le 0 _)), (proj2 (Z.leb_le _ _)) by lia.
        simpl. by eexists.
    + exists pre, (drop (length bs) post). rewrite !length_app, length_drop. simpl.
      repeat split; try done; try lia; [by rewrite Hbuf | by apply Forall_app_2].
  - split; [lia|]. split; [|by unfold run_handler; destruct (st (cli w)) eqn:Hst; simpl; rewrite Hs].
    exists pre, (drop (length bs) post). simpl. rewrite Hbuf. split_and!; try done.
    by apply Forall_app_2.
Qed.

(** In the handshake, with nothing outstanding. *)
Record busy (w : world) : Prop := {
  busy_resources : resources w;
  busy_alive : alive w = true;
  busy_up : EVENT_UP ∉ reports w;
  busy_state : st (cli w) ≠ STATE_CONNECTING ∧ st (cli w) ≠ STATE_UP;
  busy_send : w_send w = None;
  busy_recv : w_recv w = None;
}.

Lemma busy_control w : busy w → control_io w = true.
Proof.
  intros [(_ & _ & _ & _ & _ & ->) _ _ Hst _ _]. by apply bool_decide_eq_true.
Qed.

(** The client goes on to another state of the handshake. *)
Lemma continue_ok w e o s sd rv :
  busy w → auths o = ais → dest_addr o = dest → st o = s → s ≠ STATE_CONNECTING → s ≠ STATE_UP →
  phase (set_ports (set_cli w o) sd rv) →
  post e (Ok (set_ports (set_cli w o) sd rv)).
Proof.
  intros [Hres Hal Hup Hst _ _] Ha Hd Hs H1 H2 Hph. eexists. split; [done|].
  split; [|by destruct e as [| | |bs [|]|]; auto].
  destruct Hres as (_ & _ & Hcr & Hcn & Hu & Hct).
  split; [|split; [done|split]]; simpl.
  - unfold resources. simpl. rewrite Hs, Hcr, Hcn, Hu, Hct.
    destruct Hst. split_and!; try done; apply bool_decide_ext; tauto.
  - rewrite Hs. tauto.
  - by intros ?.
Qed.

Lemma fail_ok w e o :
  busy w → st o = st (cli w) → auths o = ais → dest_addr o = dest →
  (∀ bs, e = Received bs true → judge ais (rcvd w) = Bad) →
  post e (run_handler w (Ok (o, [Report EVENT_ERROR]))).
Proof.
  intros [Hres Hal Hup Hst _ _] Hs Ha Hd Hbad.
  destruct Hst. apply report_ok; auto; tauto.
Qed.

Lemma sends_ok w e alloc msg s r :
  busy w → sends (cli w) alloc msg s r → (∀ bs, e = Received bs true → alloc = true) →
  s ≠ STATE_CONNECTING → s ≠ STATE_UP →
  phase (set_ports (set_cli w (set_st (set_buffer (cli w) (Some msg)) s))
           (Some (0, Z.of_nat (length msg))) None) →
  post e (run_handler w r).
Proof.
  intros Hb Hs Ha H1 H2 Hph. pose proof (busy_resources w Hb) as (Hau & Hd & _).
  destruct Hs as [[-> ->] | [Hm ->]].
  - apply fail_ok; try done. intros bs He. by specialize (Ha bs He).
  - rewrite client_send_ok; [|by apply busy_control|by apply busy_send|done].
    rewrite (busy_recv w Hb). by eapply continue_ok.
Qed.

Lemma awaits_ok w e size total s alloc :
  busy w → is_overflow size = false → 0 < Z.of_nat total ≤ bs_value size → (∀ bs, e ≠ Received bs true) →
  s ≠ STATE_CONNECTING → s ≠ STATE_UP →
  (∀ b w', length b = Z.to_nat (bs_value size) → receiving w' 0 total [] → buffer (cli w') = Some b →
     st (cli w') = s → sent w' = sent w → rcvd w' = rcvd w → phase w') →
  post e (run_handler w (await (cli w) size (Z.of_nat total) s alloc)).
Proof.
  intros Hb Hv Ht He H1 H2 Hph. pose proof (busy_resources w Hb) as (Hau & Hd & _).
  destruct (await_ok (cli w) size (Z.of_nat total) s alloc Hv Ht) as [[-> ->] | (b & Hl & ->)].
  - apply fail_ok; try done. intros bs Hbs. by destruct (He bs).
  - rewrite client_recv_ok; [|by apply busy_control|by apply busy_recv|lia|].
    + eapply continue_ok; try done. apply (Hph b); try done.
      exists [], b. simpl. rewrite Nat.sub_0_r. repeat split; try done; try lia.
      by apply busy_send.
    + unfold buf_read. simpl. rewrite Hl.
      rewrite (proj2 (Z.leb_le 0 _)), (proj2 (Z.leb_le _ _)) by lia. by eexists.
Qed.

(** *** The messages *)

Lemma message_read w base msg n :
  has_message w base msg → n = Z.of_nat (length msg) → buf_read (cli w) (Z.of_nat base) n = Ok msg.
Proof. intros (pre & post & Hb & <- & _) ->. by eapply buf_read_app. Qed.

Lemma hello_message w alloc bs got :
  busy w → st (cli w) = STATE_SENT_HELLO → length got = 2%nat → has_message w 0 got →
  rcvd w = got → sent w = hello ais →
  post (Received bs alloc) (run_handler w (received_hello (cli w) alloc)).
Proof.
  intros Hb Hst Hl Hm Hr Hs. pose proof (busy_resources w Hb) as (Ha & Hd & _).
  unfold received_hello. rewrite (message_read w 0 got) by (rewrite ?Hl; done). rewrite ok_bind.
  destruct Hm as (_ & _ & _ & _ & Hby & _).
  destruct got as [|v [|m [|]]]; try done. inversion_clear Hby as [|? ? Hv Hby'].
  inversion_clear Hby' as [|? ? Hm _]. cbn [nth]. unfold ntoh8. rewrite !hton8_byte by done. rewrite Ha.
  destruct (Z.eqb_spec v SOCKS_VERSION) as [->|Hne]; cbn [negb]; cycle 1.
  { apply fail_ok; try done. intros ? _. rewrite Hr. simpl. by rewrite (proj2 (Z.eqb_neq _ _)). }
  destruct (find_auth ais m) as [ai|] eqn:Hf; cycle 1.
  { apply fail_ok; try done. intros ? _. rewrite Hr. simpl. by rewrite Hf. }
  destruct (find_auth_some _ _ _ Hf Hais) as [Ht Hk]. rewrite Ht.
  destruct Hk as [-> | ->]; cbn [Z.eqb SOCKS_METHOD_NO_AUTHENTICATION_REQUIRED
    SOCKS_METHOD_USERNAME_PASSWORD Pos.eqb].
  - eapply sends_ok; [done | by apply request_sent | by intros ? [=] | done | done |].
    exists 0. simpl. rewrite Hr, Hs. split_and!; [left; eauto | done |].
    unfold auth_sent. change 0 with SOCKS_METHOD_NO_AUTHENTICATION_REQUIRED. rewrite Hf. simpl.
    by rewrite app_nil_r.
  - destruct (good_password ai) eqn:Hg.
    + eapply sends_ok; [done | by apply password_sent | by intros ? [=] | done | done |].
      exists ai. simpl. by rewrite Hr, Hs.
    + unfold send_password. unfold good_password in Hg.
      rewrite <- negb_orb, negb_false_iff in Hg. rewrite Hg. apply fail_ok; try done.
      intros ? _. rewrite Hr. simpl. change 2 with SOCKS_METHOD_USERNAME_PASSWORD. rewrite Hf.
      simpl. unfold good_password. by rewrite <- negb_orb, Hg.
Qed.

Lemma password_message_ok w alloc bs ai got :
  busy w → st (cli w) = STATE_SENT_PASSWORD → length got = 2%nat → has_message w 0 got →
  find_auth ais 2 = Some ai → good_password ai = true →
  rcvd w = [5; 2] ++ got → sent w = hello ais ++ password_message ai →
  post (Received bs alloc) (run_handler w (received_password_reply (cli w) alloc)).
Proof.
  intros Hb Hst Hl Hm Hf Hg Hr Hs. pose proof (busy_resources w Hb) as (Ha & Hd & _).
  unfold received_password_reply. destruct got as [|v [|s [|]]]; try done.
  destruct Hm as (pre & post & Hbuf & Hpre & _ & _). apply nil_length_inv in Hpre as ->.
  rewrite (buf_read_app _ [] [v] (s :: post) 0) by done. rewrite ok_bind. cbn [nth].
  destruct (Z.eqb_spec v 1) as [->|Hv]; cbn [negb]; cycle 1.
  { apply fail_ok; try done. intros ? _. rewrite Hr. simpl. rewrite Hf, Hg. simpl.
    by rewrite (proj2 (Z.eqb_neq _ _)). }
  rewrite (buf_read_app _ [1] [s] post) by done. rewrite ok_bind. cbn [nth].
  destruct (Z.eqb_spec s 0) as [->|Hs0]; cbn [negb]; cycle 1.
  { apply fail_ok; try done. intros ? _. rewrite Hr. simpl. rewrite Hf, Hg. simpl.
    by rewrite (proj2 (Z.eqb_neq _ _)). }
  eapply sends_ok; [done | by apply request_sent | by intros ? [=] | done | done |].
  exists 2. simpl. rewrite Hr, Hs. split_and!; [right; eauto | done |].
  unfold auth_sent. by rewrite Hf.
Qed.

Lemma header_message w alloc bs pre m got buf :
  busy w → st (cli w) = STATE_SENT_REQUEST → length got = 4%nat → has_message w 0 got →
  buffer (cli w) = Some buf → length buf = 22%nat →
  authed pre m → rcvd w = pre ++ got → sent w = auth_sent m ++ request dest →
  post (Received bs alloc) (run_handler w (received_reply_header (cli w))).
Proof.
  intros Hb Hst Hl Hm Hbuf Hlen Hau Hr Hs. pose proof (busy_resources w Hb) as (Ha & Hd & _).
  unfold received_reply_header. rewrite (message_read w 0 got) by (rewrite ?Hl; done). rewrite ok_bind.
  destruct Hm as (p0 & rest & Hb' & Hp0 & Hby & _). apply nil_length_inv in Hp0 as ->.
  destruct got as [|v [|rep [|x [|atyp [|]]]]]; try done.
  rewrite !Forall_cons in Hby. destruct Hby as (Hv & Hrep & _ & Hat & _). cbn [nth].
  unfold ntoh8. rewrite !hton8_byte by done.
  assert (Hj : judge ais (rcvd w) = judge_reply [v; rep; x; atyp]) by
    (rewrite Hr; by apply (authed_judge _ m)).
  destruct (Z.eqb_spec v SOCKS_VERSION) as [->|Hne]; cbn [negb]; cycle 1.
  { apply fail_ok; try done. intros ? _. rewrite Hj. simpl. by rewrite (proj2 (Z.eqb_neq _ _)). }
  destruct (Z.eqb_spec rep SOCKS_REP_SUCCEEDED) as [->|Hne]; cbn [negb]; cycle 1.
  { apply fail_ok; try done. intros ? _. rewrite Hj. simpl. by rewrite (proj2 (Z.eqb_neq _ _)). }
  assert (Hrest : ∀ n, addr_len atyp = Some n → (0 < n ≤ 18)%nat →
    post (Received bs alloc)
      (run_handler w (r ← start_receive (cli w) sizeof_reply_header (Z.of_nat n);
                      Ok (set_st (fst r) STATE_RECEIVED_REPLY_HEADER, snd r)))).
  { intros n Hn Hn18. unfold start_receive, do_receive. run_assert.
    cbn [recv_dest recv_len recv_total set_recv fst snd]. run_assert. rewrite ok_bind, Z.sub_0_r.
    rewrite Hbuf in Hb'. injection Hb' as ->. simpl in Hlen.
    rewrite ok_bind. cbn [fst snd].
    rewrite client_recv_ok; [|by apply busy_control|by apply busy_recv|lia|].
    - eapply continue_ok; try done.
      exists pre, m, [5; 0; x; atyp], n, []. simpl. split_and!; try done; [by exists x, atyp|].
      exists [5; 0; x; atyp], rest. simpl. rewrite Nat.sub_0_r.
      repeat split; try done; try lia. by apply busy_send.
    - eexists. apply (buf_read_app _ [5; 0; x; atyp] (take n rest) (drop n rest)).
      + simpl. by rewrite take_drop, Hbuf.
      + done.
      + rewrite length_take. lia. }
  unfold addr_len in Hrest.
  destruct (atyp =? SOCKS_ATYP_IPV4) eqn:H4; [apply (Hrest 6%nat); [done | lia]|].
  destruct (atyp =? SOCKS_ATYP_IPV6) eqn:H6; [apply (Hrest 18%nat); [done | lia]|].
  apply fail_ok; try done. intros ? _. rewrite Hj. simpl. unfold addr_len. by rewrite H4, H6.
Qed.

Lemma same_busy w w' :
  same_client w w' → Inv w → alive w = true → st (cli w) ≠ STATE_CONNECTING → st (cli w) ≠ STATE_UP →
  w_send w' = None → w_recv w' = None → busy w'.
Proof.
  intros Hs (Hres & _ & Hup & _) Hal H1 H2 ??. split; try done.
  - by eapply same_resources.
  - by rewrite (alive_same _ _ Hs).
  - rewrite (same_reports _ _ Hs), Hup. done.
  - by rewrite (same_st _ _ Hs).
Qed.

(** A part of a message arrives: the client waits for the rest. *)
Lemma wait_ok w w' e :
  same_client w w' → Inv w → alive w = true → st (cli w) ≠ STATE_UP → phase w' → post e (Ok w').
Proof.
  intros Hs (Hres & _ & Hup & _) Hal H2 Hph. exists w'. split; [done|]. split.
  - split; [by eapply same_resources|]. split; [done|].
    rewrite (same_reports _ _ Hs), (same_st _ _ Hs). split; [done|]. tauto.
  - rewrite (alive_same _ _ Hs). by destruct e as [| | |? [|]|]; auto.
Qed.

Lemma up_ok w e m pre hdr n addr :
  busy w → authed pre m → good_header hdr n → length addr = n → rcvd w = pre ++ hdr ++ addr →
  sent w = auth_sent m ++ request dest →
  post e (run_handler w (Ok (set_st (set_buffer (cli w) None) STATE_UP,
                             [Control_io_Free; Up_io_Init; Report EVENT_UP]))).
Proof.
  intros Hb Hau Hh Hl Hr Hs. pose proof (busy_control w Hb) as Hc.
  destruct Hb as [(Ha & Hd & Hcr & Hcn & Hu & Hct) Hal Hup [H1 H2] _ _].
  simpl. rewrite Hc, Hcn, Hu, (bool_decide_true (_ ≠ _)), (bool_decide_false (_ = _)) by done. simpl.
  eexists. split; [done|]. unfold alive. simpl.
  assert (Halive : bool_decide (EVENT_ERROR ∉ reports w ++ [EVENT_UP])
                   && bool_decide (EVENT_ERROR_CLOSED ∉ reports w ++ [EVENT_UP]) = true).
  { apply alive_reports in Hal as [??]. apply andb_true_iff. rewrite !bool_decide_eq_true.
    rewrite !elem_of_app, !list_elem_of_singleton. naive_solver. }
  split; [|by destruct e as [| | |? [|]|]; auto].
  split; [|split; [done|]].
  - unfold resources. simpl. rewrite Ha, Hd, Hcr. done.
  - simpl. split; [|intros _; by exists pre, m, hdr, n, addr].
    rewrite elem_of_app. split; [done|]. intros _. right. by left.
Qed.

Lemma received_ok w bs alloc r :
  Inv w → alive w = true → step w (Received bs alloc) = Some r → post (Received bs alloc) r.
Proof.
  intros HI Hal Hstep. pose proof HI as (Hres & Hph & Hup & _). specialize (Hph Hal).
  assert (Hrecv : is_Some (w_recv w)).
  { unfold step in Hstep. rewrite Hal in Hstep. simpl in Hstep. by destruct (w_recv w). }
  assert (Hc : st (cli w) ≠ STATE_CONNECTING ∧ st (cli w) ≠ STATE_UP).
  { unfold phase in Hph. split; intros Hst; rewrite Hst in Hph; destruct Hph as (_ & H & _) || destruct Hph as (_ & H);
      rewrite H in Hrecv; by destruct Hrecv. }
  assert (Hct : control_io w = true).
  { destruct Hres as (_ & _ & _ & _ & _ & ->). by apply bool_decide_eq_true. }
  destruct Hc as [Hc1 Hc2]. unfold phase in Hph.
  assert (Hgo : ∀ base total got, receiving w base total got →
    (∀ w', same_client w w' → rcvd w' = rcvd w ++ bs → sent w' = sent w →
       length <$> buffer (cli w') = length <$> buffer (cli w) →
       receiving w' base total (got ++ bs) → phase w') →
    (∀ w', busy w' → st (cli w') = st (cli w) → rcvd w' = rcvd w ++ bs → sent w' = sent w →
       length <$> buffer (cli w') = length <$> buffer (cli w) →
       length (got ++ bs) = total → has_message w' base (got ++ bs) →
       post (Received bs alloc) (run_handler w' (message_handler (cli w') alloc))) →
    post (Received bs alloc) r).
  { intros base total got Hg Hpart Hfull.
    destruct (receive_step w base total got bs alloc r Hal Hct Hg Hstep)
      as (w' & Hs & Hr & Hsd & Hws & Hbl & [[-> Hg'] | (Hl & Hm & ->)]).
    - eapply wait_ok; eauto.
    - apply Hfull; try done; [|by apply same_st].
      eapply same_busy; try done. by destruct Hm as (? & ? & _ & _ & _ & ?). }
  unfold message_handler in Hgo.
  destruct (st (cli w)) eqn:Hst; try done.
  - destruct Hph as ((_ & _ & H) & _). rewrite H in Hrecv. by destruct Hrecv.
  - destruct Hph as (Hsd & Hg). eapply (Hgo _ _ _ Hg); clear Hgo.
    + intros w' Hs Hr Hs' _ Hg'. unfold phase. by rewrite (same_st _ _ Hs), Hst, Hs', Hr.
    + intros w' Hb Hst' Hr Hs' _ Hl Hm. rewrite Hst'.
      eapply (hello_message _ _ _ (rcvd w ++ bs)); try done. by rewrite Hs'.
  - destruct Hph as (? & _ & _ & (_ & _ & H) & _). rewrite H in Hrecv. by destruct Hrecv.
  - destruct Hph as (ai & got & Hf & Hgp & Hg & Hsd & Hrc). eapply (Hgo _ _ _ Hg); clear Hgo.
    + intros w' Hs Hr Hs' _ Hg'. unfold phase. rewrite (same_st _ _ Hs), Hst, Hs', Hr.
      exists ai, (got ++ bs). by rewrite Hrc, <- app_assoc.
    + intros w' Hb Hst' Hr Hs' _ Hl Hm. rewrite Hst'.
      eapply (password_message_ok _ _ _ ai (got ++ bs)); try done; [|by rewrite Hs'].
      by rewrite Hr, Hrc, <- app_assoc.
  - destruct Hph as (? & _ & (_ & _ & H) & _). rewrite H in Hrecv. by destruct Hrecv.
  - destruct Hph as (pre & m & got & Hau & Hg & Hsd & Hrc & buf & Hbuf & Hlen).
    eapply (Hgo _ _ _ Hg); clear Hgo; rewrite Hbuf; simpl; rewrite Hlen.
    + intros w' Hs Hr Hs' Hl' Hg'. unfold phase. rewrite (same_st _ _ Hs), Hst, Hs', Hr.
      exists pre, m, (got ++ bs). rewrite Hrc, <- app_assoc. split_and!; try done.
      destruct (buffer (cli w')) as [b'|]; [|done]. simplify_eq/=. eauto.
    + intros w' Hb Hst' Hr Hs' Hl' Hl Hm. rewrite Hst'.
      destruct (buffer (cli w')) as [b'|] eqn:Hb'; [|done]. simplify_eq/=.
      eapply (header_message _ _ _ pre m (got ++ bs)); try done; [|by rewrite Hs'].
      by rewrite Hr, Hrc, <- app_assoc.
  - destruct Hph as (pre & m & hdr & n & got & Hau & Hh & Hg & Hsd & Hrc).
    eapply (Hgo _ _ _ Hg); clear Hgo.
    + intros w' Hs Hr Hs' _ Hg'. unfold phase. rewrite (same_st _ _ Hs), Hst, Hs', Hr.
      exists pre, m, hdr, n, (got ++ bs). by rewrite Hrc, <- !app_assoc.
    + intros w' Hb Hst' Hr Hs' _ Hl Hm. rewrite Hst'.
      eapply (up_ok _ _ m pre hdr n (got ++ bs)); try done; [|by rewrite Hs'].
      by rewrite Hr, Hrc, <- !app_assoc.
Qed.

Lemma receiving_send w base total got : receiving w base total got → w_send w = None.
Proof. intros (? & ? & H). tauto. Qed.

Lemma send_done_ok w alloc r :
  Inv w → alive w = true → step w (SendDone alloc) = Some r → post (SendDone alloc) r.
Proof.
  intros HI Hal Hstep. pose proof HI as (Hres & Hph & Hup & _). specialize (Hph Hal).
  unfold step in Hstep. rewrite Hal in Hstep. cbn [negb] in Hstep.
  destruct (w_send w) as [[off len]|] eqn:Hws; [|done]. injection Hstep as <-.
  assert (Hgo : ∀ msg, sending w msg → st (cli w) ≠ STATE_CONNECTING → st (cli w) ≠ STATE_UP →
    (∀ w', busy w' → cli w' = cli w → sent w' = sent w ++ msg → rcvd w' = rcvd w →
       post (SendDone alloc) (run_handler w' (send_handler_done (cli w') alloc))) →
    post (SendDone alloc) (bs ← buf_read (cli w) off len;
      let w := mkw (cli w) (connector w) (con w) (control_io w) (up_io w) None (w_recv w)
                   (sent w ++ bs) (rcvd w) (reports w) in
      run_handler w (send_handler_done (cli w) alloc))).
  { intros msg (Hb & Hs & Hr) H1 H2 Hk. rewrite Hws in Hs. injection Hs as -> ->.
    rewrite (buf_read_all _ msg), ok_bind by done. apply Hk; try done.
    by eapply (same_busy w). }
  unfold phase in Hph. unfold send_handler_done in Hgo.
  destruct (st (cli w)) eqn:Hst; try (destruct Hph as (H & _); congruence).
  - destruct Hph as (Hg & Hsd & Hrc). apply (Hgo _ Hg); try done. intros w' Hb Hcl Hs Hr.
    rewrite Hcl, bool_decide_true, Hst by (destruct Hg as [-> _]; eauto). cbn [c_assert].
    rewrite <- Hcl. apply (awaits_ok _ _ _ 2); try done.
    intros b w2 _ Hg2 _ Hst2 Hs2 Hr2. unfold phase. rewrite Hst2, Hs2, Hr2, Hs, Hr, Hsd, Hrc. done.
  - destruct Hph as (_ & H%receiving_send). congruence.
  - destruct Hph as (ai & Hf & Hgp & Hg & Hsd & Hrc). apply (Hgo _ Hg); try done.
    intros w' Hb Hcl Hs Hr.
    rewrite Hcl, bool_decide_true, Hst by (destruct Hg as [-> _]; eauto). cbn [c_assert].
    rewrite <- Hcl. apply (awaits_ok _ _ _ 2); try done.
    intros b w2 _ Hg2 _ Hst2 Hs2 Hr2. unfold phase. rewrite Hst2, Hs2, Hr2, Hs, Hr, Hsd, Hrc.
    by exists ai, [].
  - destruct Hph as (? & ? & _ & _ & H%receiving_send & _). congruence.
  - destruct Hph as (m & Hau & Hg & Hsd). apply (Hgo _ Hg); try done. intros w' Hb Hcl Hs Hr.
    rewrite Hcl, bool_decide_true, Hst by (destruct Hg as [-> _]; eauto). cbn [c_assert].
    rewrite <- Hcl. apply (awaits_ok _ _ _ 4); try done.
    intros b w2 Hlb Hg2 Hb2 Hst2 Hs2 Hr2. unfold phase. rewrite Hst2, Hs2, Hr2, Hs, Hr, Hsd.
    exists (rcvd w), m, []. rewrite app_nil_r. split_and!; try done. by exists b.
  - destruct Hph as (? & ? & ? & _ & H%receiving_send & _). congruence.
  - destruct Hph as (? & ? & ? & ? & ? & _ & _ & H%receiving_send & _). congruence.
Qed.

Lemma connected_ok w con_ok alloc r :
  Inv w → step w (Connected con_ok alloc) = Some r → post (Connected con_ok alloc) r.
Proof.
  intros HI Hstep. unfold step in Hstep. case_if; [done|]. case_if; [|done]. injection Hstep as <-.
  rename Heqb into Hal, Heqb0 into Hst. destruct HI as (Hres & Hph & Hup & Hf). specialize (Hph Hal).
  pose proof Hres as (Ha & Hd & Hcr & Hcn & Hu & Hct).
  unfold phase in Hph. rewrite Hst in Hph. destruct Hph as (Hs & Hr & Hsd & Hrc).
  destruct (hello_sent (cli w) con_ok alloc ais Hst Ha Hais) as [(cs & -> & Hcs) | (Hn & ->)].
  - rewrite Hst in Hcn, Hct, Hu. rewrite bool_decide_false in Hcn, Hct, Hu by naive_solver.
    assert (Hrun : run_handler w (Ok (cli w, cs ++ [Report EVENT_ERROR])) =
                   run_handler w (Ok (cli w, [Report EVENT_ERROR]))).
    { destruct Hcs as [-> | ->]; [done|].
      destruct w as [o cr cn ct u ws wr sd rc rp]. simpl in *. by subst. }
    rewrite Hrun. apply report_ok; auto; naive_solver.
  - destruct w as [o cr cn ct u ws wr sd rc rp]. cbn [cli] in *.
    rewrite Hst in Hcn, Hct, Hu. rewrite bool_decide_false in Hcn, Hct, Hu by naive_solver.
    cbn in Hcr, Hcn, Hct, Hu, Hs, Hr, Hsd, Hrc. subst.
    assert (Hl := length_hello ais).
    assert (Hread := buf_read_all (set_st (set_buffer o (Some (hello ais))) STATE_SENDING_HELLO)
                       (hello ais) eq_refl).
    remember (hello ais) as msg. cbn -[Z.of_nat Z.leb buf_read set_buffer set_st].
    rewrite c_assert_true by (apply Z.leb_le; lia).
    rewrite c_assert_true by (apply Z.leb_le; unfold INT_MAX; lia). rewrite Hread, !ok_bind.
    eexists. split; [done|]. split; [|done]. split; [by split_and!|].
    split; [intros _; by rewrite Heqmsg|]. simpl. rewrite Hst in Hup.
    split; [naive_solver|]. intros ?. naive_solver.
Qed.

Lemma con_event_ok w closed r :
  Inv w → step w (ConEvent closed) = Some r → post (ConEvent closed) r.
Proof.
  intros HI Hstep. unfold step in Hstep. case_if; [done|]. case_if; [|done]. injection Hstep as <-.
  destruct HI as (Hres & Hph & Hup & Hf). pose proof Hres as (Ha & Hd & _ & Hcn & _).
  unfold connection_handler. rewrite Heqb0 in Hcn. symmetry in Hcn. zify_bool.
  rewrite bool_decide_false by done. cbn [negb c_assert].
  destruct (_ && closed); rewrite ok_bind; apply report_ok; auto; done.
Qed.

Lemma connect_failed_ok w r :
  Inv w → step w ConnectFailed = Some r → post ConnectFailed r.
Proof.
  intros HI Hstep. unfold step in Hstep. case_if; [done|]. case_if; [|done]. injection Hstep as <-.
  destruct HI as (Hres & Hph & Hup & Hf). pose proof Hres as (Ha & Hd & _).
  unfold connector_handler. rewrite bool_decide_true by done. cbn [c_assert].
  apply report_ok; auto; done.
Qed.

Lemma socks_step w e r : Inv w → step w e = Some r → post e r.
Proof.
  intros HI Hstep.
  assert (Hal : alive w = true) by (unfold step in Hstep; by destruct (alive w)).
  destruct e; eauto using connected_ok, connect_failed_ok, send_done_ok, received_ok, con_event_ok.
Qed.

Lemma socks_run w es r : Inv w → run w es = Some r → ∃ w', r = Ok w' ∧ Inv w'.
Proof.
  intros HI. apply run_steps_inv; [|done].
  intros w1 e r1 H1 Hs. destruct (socks_step w1 e r1 H1 Hs) as (w' & -> & Hw' & _). eauto.
Qed.

(** In every state of the handshake something is outstanding. *)
Lemma phase_waits w :
  phase w → st (cli w) ≠ STATE_CONNECTING → st (cli w) ≠ STATE_UP →
  is_Some (w_send w) ∨ is_Some (w_recv w).
Proof.
  assert (Hr : ∀ b t g, receiving w b t g → is_Some (w_recv w)) by
    (intros b t g (? & ? & H); destruct_and! H; eauto).
  assert (Hs : ∀ m, sending w m → is_Some (w_send w)) by (intros m (_ & -> & _); eauto).
  unfold phase. destruct (st (cli w)); naive_solver.
Qed.

Lemma free_ok w :
  resources w → ∃ w', free_world w = Ok w' ∧ connector w' = false ∧ con w' = false ∧
    control_io w' = false ∧ up_io w' = false.
Proof.
  intros (_ & _ & Hcr & Hcn & Hu & Hct). destruct w as [o cr cn ct u ws wr sd rc rp].
  cbn in *. unfold free_world, Free. cbn [cli]. destruct (st o); cbn in *; subst; by eexists.
Qed.

End inv.

Lemma client_init server ais dest w :
  good_dest dest → init_world server ais dest = Ok w → forallb known_auth ais = true ∧ Inv ais dest w.
Proof.
  intros Hd H. unfold init_world, Init in H. inv_ok. split; [done|].
  split; [done|]. split; [done|]. simpl. split; [split; [|done]|]; intros H'; by inversion H'.
Qed.

(** C23: The SOCKS client never fails, whatever the server sends, whenever allocation or the
    connection fails: all accesses stay in its buffer; during the handshake an operation is
    always outstanding, so it cannot get stuck; and freeing it at any time releases every
    object it has initialised, once. *)
Theorem socks_client_safe server ais dest w0 es r :
  good_dest dest → init_world server ais dest = Ok w0 → run w0 es = Some r →
  ∃ w, r = Ok w ∧
    (alive w = true → st (cli w) ≠ STATE_CONNECTING → st (cli w) ≠ STATE_UP →
     is_Some (w_send w) ∨ is_Some (w_recv w)) ∧
    ∃ w', free_world w = Ok w' ∧ connector w' = false ∧ con w' = false ∧
      control_io w' = false ∧ up_io w' = false.
Proof.
  intros Hd H0 Hr. apply client_init in H0 as [Hk HI]; [|done].
  destruct (socks_run _ _ Hk Hd _ _ _ HI Hr) as (w & -> & Hw). exists w. split; [done|].
  destruct Hw as (Hres & Hph & _). split; [|by eapply free_ok].
  intros Hal. by eapply phase_waits, Hph.
Qed.

(** The local SOCKS proxy of the examples. *)
Definition proxy : BAddr.t := BAddr.IPV4 16777343 14340.

(** A server that asks for the password, with its replies in pieces: just after the reply's header. *)
Lemma socks_client_safe_witness :
  ∃ w0 w, init_world proxy [auth_none; auth_password [117] [112; 113]] (BAddr.IPV4 1 2) = Ok w0 ∧
    run w0 [Connected true true; SendDone true; Received [5] true; Received [2] true; SendDone true;
            Received [1; 0] true; SendDone true; Received [5; 0; 0; 1] true] = Some (Ok w) ∧
    st (cli w) = STATE_RECEIVED_REPLY_HEADER ∧
    (is_Some (w_send w) ∨ is_Some (w_recv w)) ∧ is_ok (free_world w).
Proof.
  assert (∃ w, run (mkw (mk [auth_none; auth_password [117] [112; 113]] (BAddr.IPV4 1 2)
                           STATE_CONNECTING None 0 0 0) true false false false None None [] [] [])
    [Connected true true; SendDone true; Received [5] true; Received [2] true; SendDone true;
     Received [1; 0] true; SendDone true; Received [5; 0; 0; 1] true] = Some (Ok w) ∧
     st (cli w) = STATE_RECEIVED_REPLY_HEADER ∧ alive w = true) as (w & Hr & Hst & Hal).
  { eexists. split; [vm_compute; reflexivity|]. by vm_compute. }
  destruct (socks_client_safe proxy [auth_none; auth_password [117] [112; 113]] (BAddr.IPV4 1 2) _ _ _
              I eq_refl Hr) as (w' & [= <-] & Hw & w'' & Hf & _).
  eexists _, w. split; [reflexivity|]. split; [exact Hr|]. split; [done|].
  split; [apply Hw; [done | by rewrite Hst | by rewrite Hst] | by exists w''].
Defined.

(** C22: When the client has reported that it is up, it has received exactly one complete
    sequence of acceptable replies and has sent exactly the hello, the password message if
    the server chose that method, and the request for its destination. *)
Theorem socks_client_up server ais dest w0 es w :
  good_dest dest → init_world server ais dest = Ok w0 → run w0 es = Some (Ok w) → EVENT_UP ∈ reports w →
  judge ais (rcvd w) = Complete [] ∧
  ∃ method, rcvd w !! 1%nat = Some method ∧ sent w = dialogue ais dest method.
Proof.
  intros Hd H0 Hr Hup. apply client_init in H0 as [Hk HI]; [|done].
  destruct (socks_run _ _ Hk Hd _ _ _ HI Hr) as (w' & [= <-] & (_ & _ & _ & Hf)).
  split; [by eapply up_judge, Hf | by eapply up_dialogue, Hf].
Qed.

Lemma socks_client_up_witness :
  ∃ w0 w, init_world proxy [auth_none] (BAddr.IPV4 16777343 20480) = Ok w0 ∧
    run w0 [Connected true true; SendDone true; Received [5; 0] true; SendDone true;
            Received [5; 0; 0; 1] true; Received [127; 0; 0] true; Received [1; 0; 80] true]
    = Some (Ok w) ∧ EVENT_UP ∈ reports w ∧
    sent w = [5; 1; 0; 5; 1; 0; 1; 127; 0; 0; 1; 0; 80].
Proof.
  assert (∃ w, run (mkw (mk [auth_none] (BAddr.IPV4 16777343 20480)
                           STATE_CONNECTING None 0 0 0) true false false false None None [] [] [])
    [Connected true true; SendDone true; Received [5; 0] true; SendDone true;
     Received [5; 0; 0; 1] true; Received [127; 0; 0] true; Received [1; 0; 80] true]
     = Some (Ok w) ∧ reports w = [EVENT_UP] ∧ rcvd w !! 1%nat = Some 0) as (w & Hr & Hrp & Hm).
  { eexists. split; [vm_compute; reflexivity|]. by vm_compute. }
  assert (Hup : EVENT_UP ∈ reports w) by (rewrite Hrp; by left).
  destruct (socks_client_up proxy [auth_none] (BAddr.IPV4 16777343 20480) _ _ _
              I eq_refl Hr Hup) as [_ (m & Hm' & Hs)].
  eexists _, w. split; [reflexivity|]. split; [exact Hr|]. split; [done|].
  rewrite Hm in Hm'. injection Hm' as <-. rewrite Hs. by vm_compute.
Defined.

(** C21: When the server's replies arrive, in pieces of any sizes, the client reports an error
    exactly when a message that is complete in what it has received (the choice of the
    method, the answer to the password, the header of the reply; each is judged only when
    all of its bytes are there, not at the first wrong one) is not acceptable: version,
    method offered and usable, password accepted, request granted, known address type; and
    it reports that it is up exactly when the replies are complete with no byte after them,
    allocation permitting. *)
Theorem socks_client_verdict server ais dest w0 es w bs w' :
  good_dest dest → init_world server ais dest = Ok w0 → run w0 es = Some (Ok w) →
  step w (Received bs true) = Some (Ok w') →
  (EVENT_ERROR ∈ reports w' ↔ judge ais (rcvd w') = Bad) ∧
  (EVENT_UP ∈ reports w' ↔ judge ais (rcvd w') = Complete []).
Proof.
  intros Hd H0 Hr Hs. apply client_init in H0 as [Hk HI]; [|done].
  destruct (socks_run _ _ Hk Hd _ _ _ HI Hr) as (w1 & [= <-] & Hw).
  destruct (socks_step _ _ Hk Hd _ _ _ Hw Hs) as (w2 & [= <-] & (_ & Hph & Hup & Hf) & Hres).
  destruct Hres as [Hal | (He & Hu & Hj)]; [|rewrite Hj; naive_solver].
  specialize (Hph Hal). apply alive_reports in Hal as [Hal _].
  destruct (decide (st (cli w') = STATE_UP)) as [Hst | Hst].
  - rewrite (up_judge _ _ _ (Hf (proj2 Hup Hst))). naive_solver.
  - rewrite (partial_judge _ _ _ Hph Hst). naive_solver.
Qed.

(** A reply that refuses the connection. *)
Lemma socks_client_verdict_witness :
  ∃ w0 w w', init_world proxy [auth_none] (BAddr.IPV4 1 2) = Ok w0 ∧
    run w0 [Connected true true; SendDone true; Received [5; 0] true; SendDone true] = Some (Ok w) ∧
    step w (Received [5; 1; 0; 1] true) = Some (Ok w') ∧ EVENT_ERROR ∈ reports w'.
Proof.
  assert (∃ w w', run (mkw (mk [auth_none] (BAddr.IPV4 1 2)
                              STATE_CONNECTING None 0 0 0) true false false false None None [] [] [])
    [Connected true true; SendDone true; Received [5; 0] true; SendDone true] = Some (Ok w) ∧
    step w (Received [5; 1; 0; 1] true) = Some (Ok w') ∧ judge [auth_none] (rcvd w') = Bad)
    as (w & w' & Hr & Hs & Hj).
  { eexists _, _. split; [vm_compute; reflexivity|]. split; [vm_compute; reflexivity|]. by vm_compute. }
  destruct (socks_client_verdict proxy [auth_none] (BAddr.IPV4 1 2) _ _ _ _ _ I eq_refl Hr Hs) as [[_ He] _].
  eexists _, w, w'. split; [reflexivity|]. auto.
Defined.

End SocksFacts.
