(* ===== verification/UdpGwProto.v ===== *)
(** * The protocol of the UDP gateway: protocol/udpgw_proto.h

    A packet of the protocol is a header (flags and a connection identifier), an address, and the
    payload of a datagram.  [encode] is its format; [parse] is the code both ends run
    on the packets they receive (recv_interface_handler_send of udpgw_client/UdpGwClient.c and
    client_recv_if_handler_send of udpgw/udpgw.c), and it undoes [encode]. *)

From S2P Require Import Prelude CMem Addr.

Definition UDPGW_CLIENT_FLAG_KEEPALIVE : Z := 1.
Definition UDPGW_CLIENT_FLAG_REBIND : Z := 2.
Definition UDPGW_CLIENT_FLAG_DNS : Z := 4.
Definition UDPGW_CLIENT_FLAG_IPV6 : Z := 8.

Definition sizeof_udpgw_header : Z := 3.
Definition sizeof_udpgw_addr_ipv4 : Z := 6.
Definition sizeof_udpgw_addr_ipv6 : Z := 18.

Definition udpgw_compute_mtu (dgram_mtu : Z) : Z :=
  let bs := bsize_add (bsize_fromsize sizeof_udpgw_header)
              (bsize_add (bsize_max (bsize_fromsize sizeof_udpgw_addr_ipv4)
                                    (bsize_fromsize sizeof_udpgw_addr_ipv6))
                         (bsize_fromint dgram_mtu)) in
  match bsize_toint bs with Some s => s | None => -1 end.

(** [flags & f] *)
Definition has_flag (flags f : Z) : bool := negb (Z.land flags f =? 0).

(** The bytes of the structures, packed. *)
Definition header_bytes (flags conid : Z) : list Z := ltoh8 flags :: le_bytes 2 (ltoh16 conid).

Definition addr_bytes (addr : BAddr.t) : list Z :=
  match addr with
  | BAddr.IPV4 ip port => le_bytes 4 ip ++ le_bytes 2 port
  | BAddr.IPV6 ip port => ip ++ le_bytes 2 port
  | _ => []
  end.

Definition is_ipv6 (addr : BAddr.t) : bool := BAddr.type_of addr =? BADDR_TYPE_IPV6.

(** The flags a packet with the address carries. *)
Definition flags_for (addr : BAddr.t) (flags : Z) : Z :=
  if is_ipv6 addr then Z.lor flags UDPGW_CLIENT_FLAG_IPV6 else flags.

(** The format of a packet. *)
Definition encode (flags conid : Z) (addr : BAddr.t) (payload : list Z) : list Z :=
  header_bytes (flags_for addr flags) conid ++ addr_bytes addr ++ payload.

(** A header and what follows it; [None] if it is missing. *)
Definition parse_header (data : list Z) : option (Z * Z * list Z) :=
  if Z.of_nat (length data) <? sizeof_udpgw_header then None else
  Some (ltoh8 (nth 0 data 0), ltoh16 (le_value (take 2 (drop 1 data))), drop 3 data).

(** An address and what follows it. *)
Definition parse_addr (flags : Z) (data : list Z) : option (BAddr.t * list Z) :=
  if has_flag flags UDPGW_CLIENT_FLAG_IPV6 then
    if Z.of_nat (length data) <? sizeof_udpgw_addr_ipv6 then None else
    Some (BAddr.InitIPv6 (take 16 data) (le_value (take 2 (drop 16 data))), drop 18 data)
  else
    if Z.of_nat (length data) <? sizeof_udpgw_addr_ipv4 then None else
    Some (BAddr.InitIPv4 (le_value (take 4 data)) (le_value (take 2 (drop 4 data))), drop 6 data).

Module ProtoFacts.
Import AddrFacts.

(** An IPv4 or IPv6 address. *)
Definition ip_addr (a : BAddr.t) : Prop := is_ip a ∧ a ≠ BAddr.NONE.

Lemma compute_mtu_value mtu :
  0 ≤ mtu ≤ INT_MAX → udpgw_compute_mtu mtu = if 21 + mtu <=? INT_MAX then 21 + mtu else -1.
Proof.
  intros Hm. unfold udpgw_compute_mtu, bsize_toint, bsize_add, bsize_fromint. cbn [is_overflow bs_value orb].
  change (bs_value (bsize_max _ _)) with 18. change (bs_value (bsize_fromsize _)) with 3.
  unfold to_size, SIZE_MAX, INT_MAX in *. rewrite (Z.mod_small mtu) by lia.
  rewrite (Z.mod_small (18 + mtu)), (Z.mod_small (3 + (18 + mtu))) by lia.
  repeat match goal with
  | |- context [?a <? ?b] => destruct (Z.ltb_spec a b); try lia
  end; cbn [orb]; destruct (Z.leb_spec (21 + mtu) (2 ^ 31 - 1)); cbn; lia.
Qed.

Lemma header_parse flags conid rest :
  0 ≤ flags < 256 → 0 ≤ conid < 2 ^ 16 →
  parse_header (header_bytes flags conid ++ rest) = Some (flags, conid, rest).
Proof.
  intros Hf Hc. unfold parse_header, header_bytes, ltoh8, htol8, ltoh16, htol16, to_u8, to_u16.
  rewrite (Z.mod_small flags), (Z.mod_small conid) by lia.
  cbn [app length nth]. rewrite length_app, length_le_bytes.
  rewrite (proj2 (Z.ltb_ge _ _)) by (unfold sizeof_udpgw_header; lia).
  cbn [drop le_bytes app take]. rewrite (Z.mod_small flags), take_0 by lia.
  change [conid mod 256; conid / 256 mod 256] with (le_bytes 2 conid).
  rewrite le_value_bytes by (simpl; lia). by rewrite Z.mod_small, drop_0 by lia.
Qed.

Lemma length_addr_bytes a :
  ip_addr a → length (addr_bytes a) = Z.to_nat (if is_ipv6 a then sizeof_udpgw_addr_ipv6 else sizeof_udpgw_addr_ipv4).
Proof.
  intros [Ha Hn]. destruct a as [|ip port|ip port|p|n]; try done.
  destruct Ha as [Hl _]. cbn [addr_bytes]. rewrite length_app, Hl. done.
Qed.

Lemma addr_parse flags a rest :
  ip_addr a → has_flag flags UDPGW_CLIENT_FLAG_IPV6 = is_ipv6 a →
  parse_addr flags (addr_bytes a ++ rest) = Some (a, rest).
Proof.
  intros Ha Hf. pose proof (length_addr_bytes a Ha) as Hl. unfold parse_addr. rewrite Hf, length_app, Hl.
  destruct Ha as [Ha Hn]. destruct a as [|ip port|ip port|p|n]; try done.
  - destruct Ha as [Hi Hp]. change (is_ipv6 (BAddr.IPV4 ip port)) with false. cbv iota.
    rewrite (proj2 (Z.ltb_ge _ _)) by (unfold sizeof_udpgw_addr_ipv4; lia). cbn [addr_bytes] in *.
    rewrite <- app_assoc. change (drop 6 _) with rest. change (take 4 _) with (le_bytes 4 ip).
    change (drop 4 _) with (le_bytes 2 port ++ rest). change (take 2 _) with (le_bytes 2 port).
    by rewrite !le_value_bytes by (simpl; lia).
  - destruct Ha as (Hl16 & Hi & Hp). change (is_ipv6 (BAddr.IPV6 ip port)) with true. cbv iota.
    rewrite (proj2 (Z.ltb_ge _ _)) by (unfold sizeof_udpgw_addr_ipv6; lia). cbn [addr_bytes] in *.
    rewrite <- app_assoc.
    assert (drop 18 (ip ++ le_bytes 2 port ++ rest) = rest) as ->.
    { rewrite app_assoc. change 18%nat with (Z.to_nat sizeof_udpgw_addr_ipv6). by apply drop_app_length'. }
    rewrite <- Hl16, take_app_length, drop_app_length.
    change (take 2 (le_bytes 2 port ++ rest)) with (le_bytes 2 port).
    rewrite le_value_bytes by (simpl; lia).
    unfold BAddr.InitIPv6, BAddr.MakeIPv6. by rewrite take_ge by lia.
Qed.

(** The flag for IPv6 is the fourth bit. *)
Lemma flags_for_ipv6 a flags :
  flags ∈ [0; 2; 4; 6] →
  has_flag (flags_for a flags) UDPGW_CLIENT_FLAG_IPV6 = is_ipv6 a ∧ 0 ≤ flags_for a flags < 256.
Proof.
  intros Hf. unfold flags_for. rewrite !elem_of_cons, elem_of_nil in Hf.
  destruct Hf as [->|[->|[->|[->|[]]]]]; destruct (is_ipv6 a); vm_compute; (split; [done|split; congruence]).
Qed.

End ProtoFacts.
