(* ===== verification/UdpGwClient.v ===== *)
(** * The UDP gateway client: udpgw_client/UdpGwClient.c

    Datagrams between pairs of a local and a remote address are sent over one stream to a gateway.  Each
    pair has a connection with an identifier and a send buffer (a PacketProtoFlow into the fair queue);
    when there are no more identifiers the least recently used connection is given to the new pair.
    Replies are matched by identifier and remote address.

    [UdpGwClient] has the handlers and operations; the connections are objects in a memory, by address,
    in two ordered sets and a list of least recent use.  [UdpGwClientWorld] runs
    them with the users, the writers of the send buffers, the decoder and the event loop;
    [UdpGwClientFacts] shows the invariant, what is sent and received, and the order of reuse. *)

From S2P Require Import Prelude CMem Tree Addr PacketProto UdpGwProto.

Module UdpGwClient.

Record conaddr := mkca {
  local_addr : BAddr.t;
  remote_addr : BAddr.t;
}.

(** A connection; [first_job] is whether the job is set.  The flow and its input are in the world. *)
Record connection := mkcon {
  con_addr : conaddr;
  first_flags : Z;
  first_data : ptr;
  first_data_len : Z;
  conid : Z;
  first_job : bool;
}.

(** [connections] is the memory of the connection objects; the trees and the list hold
    their addresses. *)
Record t := mk {
  udp_mtu : Z;
  max_connections : Z;
  send_buffer_size : Z;
  udpgw_mtu : Z;
  pp_mtu : Z;
  connections_tree_by_conaddr : list ptr;
  connections_tree_by_conid : list ptr;
  connections_list : list ptr;
  num_connections : Z;
  next_conid : Z;
  keepalive_sending : bool;
  have_server : bool;
  connections : gmap ptr connection;
}.

(** The calls the handlers make; [Conn_] calls are on the flow, queue flow and job of a connection. *)
Inductive call :=
| Recv_Done                                           (** [PacketPassInterface_Done(&o->recv_if)] *)
| Handler_servererror
| Handler_received (local remote : BAddr.t) (data : list Z)
| Keepalive_Send                                      (** [PacketPassInterface_Sender_Send(o->keepalive_if, ..)] *)
| Conn_StartPacket (c : ptr)                          (** [BufferWriter_StartPacket], successful *)
| Conn_EndPacket (c : ptr) (len : Z)                  (** [BufferWriter_EndPacket] *)
| Conn_Init (c : ptr)                                 (** the flow and queue flow *)
| Conn_Free (c : ptr)
| Send_Init | Send_Free                               (** the objects of the send path *)
| Send_PrepareFree
| Server_Init | Server_Free.                          (** decoder, sender and receive interface *)

Definition conaddr_comparator (v1 v2 : conaddr) : result Z :=
  r ← BAddr.CompareOrder (remote_addr v1) (remote_addr v2);
  if negb (r =? 0) then Ok r else BAddr.CompareOrder (local_addr v1) (local_addr v2).

Definition uint16_comparator (v1 v2 : Z) : Z := B_COMPARE v1 v2.

(** The values of the nodes of the trees.  Comparing the addresses of connections never fails, as they
    are IP addresses. *)
Definition conaddr_of (o : t) (c : ptr) : conaddr :=
  match connections o !! c with
  | Some x => con_addr x
  | None => mkca BAddr.NONE BAddr.NONE
  end.

Definition conid_of (o : t) (c : ptr) : Z :=
  match connections o !! c with Some x => conid x | None => 0 end.

Definition compare_conaddr (v1 v2 : conaddr) : Z :=
  match conaddr_comparator v1 v2 with Ok r => r | Fault _ => 0 end.

Definition find_connection_by_conaddr (o : t) (ca : conaddr) : option ptr :=
  Tree.LookupExact (λ c, compare_conaddr ca (conaddr_of o c)) (connections_tree_by_conaddr o).

Definition find_connection_by_conid (o : t) (id : Z) : option ptr :=
  Tree.LookupExact (λ c, uint16_comparator id (conid_of o c)) (connections_tree_by_conid o).

Definition set_connections (o : t) (cs : gmap ptr connection) : t :=
  mk (udp_mtu o) (max_connections o) (send_buffer_size o) (udpgw_mtu o) (pp_mtu o)
     (connections_tree_by_conaddr o) (connections_tree_by_conid o) (connections_list o)
     (num_connections o) (next_conid o) (keepalive_sending o) (have_server o) cs.

Definition set_indexes (o : t) (by_addr by_id lst : list ptr) (n : Z) : t :=
  mk (udp_mtu o) (max_connections o) (send_buffer_size o) (udpgw_mtu o) (pp_mtu o)
     by_addr by_id lst n (next_conid o) (keepalive_sending o) (have_server o) (connections o).

Definition set_next_conid (o : t) (id : Z) : t :=
  mk (udp_mtu o) (max_connections o) (send_buffer_size o) (udpgw_mtu o) (pp_mtu o)
     (connections_tree_by_conaddr o) (connections_tree_by_conid o) (connections_list o)
     (num_connections o) id (keepalive_sending o) (have_server o) (connections o).

Definition set_keepalive_sending (o : t) (b : bool) : t :=
  mk (udp_mtu o) (max_connections o) (send_buffer_size o) (udpgw_mtu o) (pp_mtu o)
     (connections_tree_by_conaddr o) (connections_tree_by_conid o) (connections_list o)
     (num_connections o) (next_conid o) b (have_server o) (connections o).

Definition set_have_server (o : t) (b : bool) : t :=
  mk (udp_mtu o) (max_connections o) (send_buffer_size o) (udpgw_mtu o) (pp_mtu o)
     (connections_tree_by_conaddr o) (connections_tree_by_conid o) (connections_list o)
     (num_connections o) (next_conid o) (keepalive_sending o) b (connections o).

(** [LinkedList1_Remove] and [LinkedList1_Append] of the node of [c] *)
Definition move_to_end (o : t) (c : ptr) : t :=
  set_indexes o (connections_tree_by_conaddr o) (connections_tree_by_conid o)
    (Tree.Remove (connections_list o) c ++ [c]) (num_connections o).

(** The loop of [find_unused_conid]; [None] when [fuel] iterations were not enough. *)
Fixpoint find_unused_loop (fuel : nat) (o : t) : option (t * Z) :=
  match find_connection_by_conid o (to_u16 (next_conid o)) with
  | None => Some (o, to_u16 (next_conid o))
  | Some _ =>
      let next := if next_conid o =? max_connections o - 1 then 0 else next_conid o + 1 in
      match fuel with
      | O => None
      | S fuel => find_unused_loop fuel (set_next_conid o next)
      end
  end.

(** It returns after at most [max_connections] iterations (see [find_unused_conid_terminates]). *)
Definition find_unused_conid (o : t) : result (t * Z) :=
  ASSERT (num_connections o <? max_connections o) ;;
  or_fault AssertFailed (find_unused_loop (Z.to_nat (max_connections o)) o).

(** [alloc] is what [malloc] returns, [flow_ok] what [PacketProtoFlow_Init] returns. *)
Definition connection_init (o : t) (ca : conaddr) (flags : Z) (data : ptr) (data_len : Z)
    (alloc : option ptr) (flow_ok : bool) : result (t * list call) :=
  ASSERT (num_connections o <? max_connections o) ;;
  ASSERT match find_connection_by_conaddr o ca with None => true | Some _ => false end ;;
  ASSERT (0 <=? data_len) ;;
  ASSERT (data_len <=? udp_mtu o) ;;
  match alloc with
  | None => Ok (o, [])
  | Some c =>
      '(o, id) ← find_unused_conid o;
      if negb flow_ok then Ok (o, []) else
      let o := set_connections o (<[c := mkcon ca flags data data_len id true]> (connections o)) in
      by_addr ← or_fault AssertFailed
        (Tree.Insert (λ x y, compare_conaddr (conaddr_of o x) (conaddr_of o y))
           (connections_tree_by_conaddr o) c);
      by_id ← or_fault AssertFailed
        (Tree.Insert (λ x y, uint16_comparator (conid_of o x) (conid_of o y))
           (connections_tree_by_conid o) c);
      Ok (set_indexes o by_addr by_id (connections_list o ++ [c]) (num_connections o + 1), [Conn_Init c])
  end.

Definition connection_free (o : t) (c : ptr) : t * list call :=
  let o := set_indexes o (Tree.Remove (connections_tree_by_conaddr o) c)
             (Tree.Remove (connections_tree_by_conid o) c)
             (Tree.Remove (connections_list o) c) (num_connections o - 1) in
  (set_connections o (delete c (connections o)), [Conn_Free c]).

(** [out] is what [BufferWriter_StartPacket] returns for the connection's writer. *)
Definition connection_send (o : t) (c : ptr) (x : connection) (flags : Z) (data : ptr) (data_len : Z)
    (out : option ptr) (m : mem) : result (mem * list call) :=
  ASSERT (0 <=? data_len) ;;
  ASSERT (data_len <=? udp_mtu o) ;;
  match out with
  | None => Ok (m, [])
  | Some out =>
      let remote := remote_addr (con_addr x) in
      let flags := if BAddr.type_of remote =? BADDR_TYPE_IPV6
                   then Z.lor flags UDPGW_CLIENT_FLAG_IPV6 else flags in
      m ← store m out (header_bytes flags (conid x));
      let out_pos := sizeof_udpgw_header in
      '(m, out_pos) ← match remote with
                      | BAddr.IPV4 ip port =>
                          m ← store m (out + out_pos) (le_bytes 4 ip ++ le_bytes 2 port);
                          Ok (m, out_pos + sizeof_udpgw_addr_ipv4)
                      | BAddr.IPV6 ip port =>
                          m ← store m (out + out_pos) (ip ++ le_bytes 2 port);
                          Ok (m, out_pos + sizeof_udpgw_addr_ipv6)
                      | _ => Ok (m, out_pos)
                      end;
      m ← memmove m (out + out_pos) data data_len;
      Ok (m, [Conn_StartPacket c; Conn_EndPacket c (out_pos + data_len)])
  end.

(** The job is unset when its handler is called. *)
Definition connection_first_job_handler (o : t) (c : ptr) (out : option ptr) (m : mem)
    : result (t * mem * list call) :=
  x ← or_fault BadAccess (connections o !! c);
  let o := set_connections o (<[c := mkcon (con_addr x) (first_flags x) (first_data x)
                                           (first_data_len x) (conid x) false]> (connections o)) in
  '(m, cs) ← connection_send o c x (Z.lor UDPGW_CLIENT_FLAG_REBIND (first_flags x))
               (first_data x) (first_data_len x) out m;
  Ok (o, m, cs).

Definition reuse_connection (o : t) (ca : conaddr) : result (t * ptr) :=
  ASSERT match find_connection_by_conaddr o ca with None => true | Some _ => false end ;;
  ASSERT (0 <? num_connections o) ;;
  c ← or_fault BadAccess (head (connections_list o));
  x ← or_fault BadAccess (connections o !! c);
  let o := set_indexes o (Tree.Remove (connections_tree_by_conaddr o) c)
             (connections_tree_by_conid o) (connections_list o) (num_connections o) in
  let o := set_connections o (<[c := mkcon ca (first_flags x) (first_data x) (first_data_len x)
                                           (conid x) (first_job x)]> (connections o)) in
  by_addr ← or_fault AssertFailed
    (Tree.Insert (λ x y, compare_conaddr (conaddr_of o x) (conaddr_of o y))
       (connections_tree_by_conaddr o) c);
  Ok (set_indexes o by_addr (connections_tree_by_conid o) (connections_list o) (num_connections o), c).

(** [writer] gives what [BufferWriter_StartPacket] returns for each connection. *)
Definition SubmitPacket (o : t) (local remote : BAddr.t) (is_dns : bool) (data : ptr) (data_len : Z)
    (alloc : option ptr) (flow_ok : bool) (writer : ptr → option ptr) (m : mem)
    : result (t * mem * list call) :=
  ASSERT ((BAddr.type_of local =? BADDR_TYPE_IPV4) || (BAddr.type_of local =? BADDR_TYPE_IPV6)) ;;
  ASSERT ((BAddr.type_of remote =? BADDR_TYPE_IPV4) || (BAddr.type_of remote =? BADDR_TYPE_IPV6)) ;;
  ASSERT (0 <=? data_len) ;;
  ASSERT (data_len <=? udp_mtu o) ;;
  let ca := mkca local remote in
  let con := find_connection_by_conaddr o ca in
  let flags := if is_dns then UDPGW_CLIENT_FLAG_DNS else 0 in
  '(o, con, flags) ←
    (if match con with None => true | Some _ => false end && (num_connections o =? max_connections o) then
       '(o, c) ← reuse_connection o ca;
       Ok (o, Some c, Z.lor flags UDPGW_CLIENT_FLAG_REBIND)
     else Ok (o, con, flags));
  match con with
  | None =>
      '(o, cs) ← connection_init o ca flags data data_len alloc flow_ok;
      Ok (o, m, cs)
  | Some c =>
      let o := move_to_end o c in
      x ← or_fault BadAccess (connections o !! c);
      '(m, cs) ← connection_send o c x flags data data_len (writer c) m;
      Ok (o, m, cs)
  end.

(** The packet's bytes are [data]; whatever is wrong with it, it has been accepted. *)
Definition recv_interface_handler_send (o : t) (data : list Z) : result (t * list call) :=
  ASSERT have_server o ;;
  ASSERT (Z.of_nat (length data) <=? udpgw_mtu o) ;;
  match parse_header data with
  | None => Ok (o, [Recv_Done])
  | Some (flags, id, data) =>
      match parse_addr flags data with
      | None => Ok (o, [Recv_Done])
      | Some (remote, data) =>
          if udp_mtu o <? Z.of_nat (length data) then Ok (o, [Recv_Done]) else
          match find_connection_by_conid o id with
          | None => Ok (o, [Recv_Done])
          | Some c =>
              let ca := conaddr_of o c in
              r ← BAddr.CompareOrder (remote_addr ca) remote;
              if negb (r =? 0) then Ok (o, [Recv_Done]) else
              Ok (move_to_end o c, [Recv_Done; Handler_received (local_addr ca) (remote_addr ca) data])
          end
      end
  end.

Definition decoder_handler_error (o : t) : result (list call) :=
  ASSERT have_server o ;; Ok [Handler_servererror].

(** [sendKeepAlive] is the global variable. *)
Definition send_monitor_handler (o : t) (sendKeepAlive : Z) : t * list call :=
  if sendKeepAlive =? 0 then (o, []) else
  if keepalive_sending o then (o, []) else
  (set_keepalive_sending o true, [Keepalive_Send]).

Definition keepalive_if_handler_done (o : t) : result t :=
  ASSERT keepalive_sending o ;; Ok (set_keepalive_sending o false).

Definition free_server : list call := [Server_Free].

(** [queue_ok] is what [PacketPassFairQueue_Init] returns; [None] is the failure return. *)
Definition Init (mtu max buffer : Z) (queue_ok : bool) : result (option (t * list call)) :=
  ASSERT (0 <=? mtu) ;;
  ASSERT (0 <=? udpgw_compute_mtu mtu) ;;
  ASSERT (udpgw_compute_mtu mtu <=? PACKETPROTO_MAXPAYLOAD) ;;
  ASSERT (0 <? max) ;;
  ASSERT (0 <? buffer) ;;
  let max := if UINT16_MAX + 1 <? max then UINT16_MAX + 1 else max in
  if queue_ok then
    Ok (Some (mk mtu max buffer (udpgw_compute_mtu mtu) (udpgw_compute_mtu mtu + packetproto_header_size)
                 [] [] [] 0 0 false false ∅, [Send_Init]))
  else Ok None.

(** The bytes of [keepalive_packet]: the frame's length and a header with the flag. *)
Definition keepalive_packet : list Z :=
  le_bytes 2 sizeof_udpgw_header ++ [UDPGW_CLIENT_FLAG_KEEPALIVE; 0; 0].

(** The loop of [UdpGwClient_Free], over the connections in the list. *)
Fixpoint free_connections (fuel : nat) (o : t) : t * list call :=
  match fuel, connections_list o with
  | S fuel, c :: _ =>
      let '(o, cs) := connection_free o c in
      let '(o, cs') := free_connections fuel o in (o, cs ++ cs')
  | _, _ => (o, [])
  end.

Definition Free (o : t) : t * list call :=
  let '(o, cs) := free_connections (length (connections_list o)) o in
  (o, Send_PrepareFree :: cs ++ (if have_server o then free_server else []) ++ [Send_Free]).

(** [decoder_ok] is what [PacketProtoDecoder_Init] returns. *)
Definition ConnectServer (o : t) (decoder_ok : bool) : result (t * bool * list call) :=
  ASSERT negb (have_server o) ;;
  if decoder_ok then Ok (set_have_server o true, true, [Server_Init]) else Ok (o, false, []).

Definition DisconnectServer (o : t) : result (t * list call) :=
  ASSERT have_server o ;; Ok (set_have_server o false, free_server).

End UdpGwClient.

(** ** The client and its surroundings *)

Module UdpGwClientWorld.
Import UdpGwClient.

(** The writer of a connection: the buffer its flow has asked to be filled, and the packets written. *)
Record writer := mkwr {
  w_out : option ptr;
  w_sent : list (list Z);
}.

(** [lent] is the buffer of the packet being submitted, which its owner does not touch before
    [job], the first job of a new connection, has run.  [received] are the packets
    passed to the user, [uses] the connections used, in order, [keepalive] whether the packet is
    with the queue, [server] and [send] whether these objects are initialised, [freeing] whether
    the queue is prepared for it. *)
Record world := mkw {
  cli : t;
  mm : mem;
  writers : gmap ptr writer;
  lent : option (ptr * Z);
  job : option ptr;
  keepalive : bool;
  server : bool;
  send : bool;
  freeing : bool;
  received : list (BAddr.t * BAddr.t * list Z);
  errors : nat;
  uses : list ptr;
}.

Definition set_cli (w : world) (o : t) (m : mem) : world :=
  mkw o m (writers w) (lent w) (job w) (keepalive w) (server w) (send w) (freeing w)
      (received w) (errors w) (uses w).

Definition set_writers (w : world) (ws : gmap ptr writer) (j : option ptr) : world :=
  mkw (cli w) (mm w) ws (lent w) j (keepalive w) (server w) (send w) (freeing w)
      (received w) (errors w) (uses w).

Definition set_lent (w : world) (l : option (ptr * Z)) : world :=
  mkw (cli w) (mm w) (writers w) l (job w) (keepalive w) (server w) (send w) (freeing w)
      (received w) (errors w) (uses w).

Definition set_flags (w : world) (ka srv snd fr : bool) : world :=
  mkw (cli w) (mm w) (writers w) (lent w) (job w) ka srv snd fr (received w) (errors w) (uses w).

Definition report (w : world) (r : list (BAddr.t * BAddr.t * list Z)) (e : nat) : world :=
  mkw (cli w) (mm w) (writers w) (lent w) (job w) (keepalive w) (server w) (send w) (freeing w)
      (received w ++ r) (e + errors w) (uses w).

Definition use (w : world) (c : option ptr) : world :=
  mkw (cli w) (mm w) (writers w) (lent w) (job w) (keepalive w) (server w) (send w) (freeing w)
      (received w) (errors w) (uses w ++ option_list c).

(** What [BufferWriter_StartPacket] returns. *)
Definition writer_out (w : world) (c : ptr) : option ptr := x ← writers w !! c; w_out x.

Definition do_call (w : world) (c : call) : result world :=
  match c with
  | Recv_Done => ASSERT server w ;; Ok w
  | Handler_servererror => Ok (report w [] 1)
  | Handler_received local remote data => Ok (report w [(local, remote, data)] 0)
  | Keepalive_Send => ASSERT negb (keepalive w) ;; Ok (set_flags w true (server w) (send w) (freeing w))
  | Conn_StartPacket c => _ ← or_fault AssertFailed (writer_out w c); Ok w
  | Conn_EndPacket c len =>
      x ← or_fault BadAccess (writers w !! c);
      p ← or_fault AssertFailed (w_out x);
      ASSERT ((0 <=? len) && (len <=? udpgw_mtu (cli w))) ;;
      bs ← load (mm w) p (Z.to_nat len);
      Ok (set_writers w (<[c := mkwr None (w_sent x ++ [bs])]> (writers w)) (job w))
  | Conn_Init c =>
      ASSERT bool_decide (writers w !! c = None) ;;
      ASSERT send w ;;
      Ok (set_writers w (<[c := mkwr None []]> (writers w)) (Some c))
  | Conn_Free c =>
      ASSERT bool_decide (is_Some (writers w !! c)) ;;
      ASSERT freeing w ;;
      Ok (set_writers w (delete c (writers w)) (if bool_decide (job w = Some c) then None else job w))
  | Send_Init => ASSERT negb (send w) ;; Ok (set_flags w (keepalive w) (server w) true false)
  | Send_PrepareFree => ASSERT send w ;; Ok (set_flags w (keepalive w) (server w) (send w) true)
  | Send_Free =>
      ASSERT send w ;;
      ASSERT negb (server w) ;;
      ASSERT bool_decide (writers w = ∅) ;;
      Ok (set_flags w false (server w) false false)
  | Server_Init => ASSERT negb (server w) ;; Ok (set_flags w (keepalive w) true (send w) (freeing w))
  | Server_Free => ASSERT server w ;; Ok (set_flags w (keepalive w) false (send w) (freeing w))
  end.

Inductive event :=
| Submit (local remote : BAddr.t) (is_dns : bool) (data : ptr) (data_len : Z)
    (alloc : option ptr) (flow_ok : bool)   (** [UdpGwClient_SubmitPacket] *)
| FirstJob (p : ptr)          (** the first job; the flow has just asked for a packet at [p] *)
| Return                      (** the owner of the submitted packet has its buffer back *)
| Asked (c p : ptr)           (** a flow asks for a packet at [p] *)
| SetMem (m : mem)            (** others write to memory *)
| Recv (data : list Z)        (** the decoder passes a packet *)
| DecoderError
| Monitor (sendKeepAlive : Z) (** the send path has been idle *)
| KeepaliveDone
| Connect (decoder_ok : bool)
| Disconnect.

(** The addresses of datagrams. *)
Definition ip_addr_b (a : BAddr.t) : bool :=
  match a with
  | BAddr.IPV4 ip port => (0 <=? ip) && (ip <? 2 ^ 32) && (0 <=? port) && (port <? 2 ^ 16)
  | BAddr.IPV6 ip port => (length ip =? 16)%nat && bool_decide (Forall is_byte ip)
                          && (0 <=? port) && (port <? 2 ^ 16)
  | _ => false
  end.

Definition mapped_b (m : mem) (p : ptr) (n : Z) : bool :=
  forallb (λ a, bool_decide (is_Some (m !! a))) (seqZ p n).

Definition disjoint_b (p n q k : Z) : bool := (p + n <=? q) || (q + k <=? p).

(** No buffer asked to be filled overlaps the region. *)
Definition apart (w : world) (q k : Z) : bool :=
  forallb (λ x, match w_out (snd x) with
                | Some p => disjoint_b p (udpgw_mtu (cli w)) q k
                | None => true
                end) (map_to_list (writers w)).

Definition buffers_mapped (w : world) (m : mem) : bool :=
  forallb (λ x, match w_out (snd x) with
                | Some p => mapped_b m p (udpgw_mtu (cli w))
                | None => true
                end) (map_to_list (writers w)).

(** A buffer a flow may ask to be filled. *)
Definition good_buffer (w : world) (p : ptr) : bool :=
  mapped_b (mm w) p (udpgw_mtu (cli w))
  && match lent w with Some (q, k) => disjoint_b p (udpgw_mtu (cli w)) q k | None => true end.

(** A handler's new state and calls. *)
Definition run_handler (w : world) (r : result (t * mem * list call)) : result world :=
  '(o, m, cs) ← r; run_calls do_call (set_cli w o m) cs.

Definition is_none {A} (x : option A) : bool := match x with None => true | Some _ => false end.

Definition step (w : world) (e : event) : option (result world) :=
  match e with
  | Submit local remote dns data len alloc flow_ok =>
      if is_none (lent w) && ip_addr_b local && ip_addr_b remote && (0 <=? len)
         && (len <=? udp_mtu (cli w)) && mapped_b (mm w) data len && apart w data len
         && match alloc with Some c => is_none (connections (cli w) !! c) | None => true end
      then Some (let w := set_lent w (Some (data, len)) in
                 w' ← run_handler w (SubmitPacket (cli w) local remote dns data len alloc flow_ok
                                       (writer_out w) (mm w));
                 Ok (use w' (find_connection_by_conaddr (cli w') (mkca local remote))))
      else None
  | FirstJob p =>
      match job w with
      | Some c =>
          if good_buffer w p then
            let w := set_writers w (<[c := mkwr (Some p) []]> (writers w)) None in
            Some (run_handler w (connection_first_job_handler (cli w) c (writer_out w c) (mm w)))
          else None
      | None => None
      end
  | Return => if is_none (job w) && bool_decide (is_Some (lent w)) then Some (Ok (set_lent w None)) else None
  | Asked c p =>
      match writers w !! c with
      | Some x =>
          if is_none (w_out x) && negb (bool_decide (job w = Some c)) && good_buffer w p
          then Some (Ok (set_writers w (<[c := mkwr (Some p) (w_sent x)]> (writers w)) (job w)))
          else None
      | None => None
      end
  | SetMem m =>
      if is_none (lent w) && buffers_mapped w m then Some (Ok (set_cli w (cli w) m)) else None
  | Recv data =>
      if server w && bool_decide (Forall is_byte data) && (Z.of_nat (length data) <=? udpgw_mtu (cli w))
      then Some (w' ← run_handler w ('(o, cs) ← recv_interface_handler_send (cli w) data; Ok (o, mm w, cs));
                 Ok (if (length (received w) <? length (received w'))%nat
                     then use w' (last (connections_list (cli w'))) else w'))
      else None
  | DecoderError =>
      if server w then Some (run_handler w (cs ← decoder_handler_error (cli w); Ok (cli w, mm w, cs)))
      else None
  | Monitor v => Some (run_handler w (let '(o, cs) := send_monitor_handler (cli w) v in Ok (o, mm w, cs)))
  | KeepaliveDone =>
      if keepalive w then
        Some (let w := set_flags w false (server w) (send w) (freeing w) in
              run_handler w (o ← keepalive_if_handler_done (cli w); Ok (o, mm w, [])))
      else None
  | Connect ok =>
      if server w then None else
      Some (run_handler w ('(o, _, cs) ← ConnectServer (cli w) ok; Ok (o, mm w, cs)))
  | Disconnect =>
      if server w then Some (run_handler w ('(o, cs) ← DisconnectServer (cli w); Ok (o, mm w, cs))) else None
  end.

Abbreviation run := (run_steps step).

Definition init_world (mtu max buffer : Z) (m : mem) : result world :=
  r ← Init mtu max buffer true;
  '(o, cs) ← or_fault AssertFailed r;
  run_calls do_call (mkw o m ∅ None None false false false false [] 0 []) cs.

Definition free_world (w : world) : result world :=
  let '(o, cs) := Free (cli w) in run_calls do_call (set_cli w o (mm w)) cs.

End UdpGwClientWorld.

Module UdpGwClientFacts.
Import UdpGwClient UdpGwClientWorld AddrFacts ProtoFacts.

(** ** The order of the connections *)

Lemma lex_lt_trans a b c : lex a b < 0 → lex b c < 0 → lex a c < 0.
Proof.
  intros H1 H2. pose proof (lex_trans a b c ltac:(lia) ltac:(lia)).
  destruct (decide (lex a c = 0)) as [Hac|]; [|lia]. apply lex_eq in Hac as <-.
  rewrite lex_sym in H2. lia.
Qed.

Definition is_ca (v : conaddr) : Prop := is_ip (remote_addr v) ∧ is_ip (local_addr v).

(** A pair of addresses of a datagram. *)
Definition good_ca (v : conaddr) : Prop := ip_addr (remote_addr v) ∧ ip_addr (local_addr v).

Lemma compare_conaddr_lex v1 v2 :
  is_ca v1 → is_ca v2 →
  compare_conaddr v1 v2 =
    let r := lex (key (remote_addr v1)) (key (remote_addr v2)) in
    if negb (r =? 0) then r else lex (key (local_addr v1)) (key (local_addr v2)).
Proof.
  intros [H1 H1'] [H2 H2']. unfold compare_conaddr, conaddr_comparator.
  rewrite (order_lex (remote_addr v1)), ok_bind by done. cbv zeta. case_if; [done|]. by rewrite order_lex by done.
Qed.

Lemma compare_conaddr_eq v1 v2 : is_ca v1 → is_ca v2 → compare_conaddr v1 v2 = 0 ↔ v1 = v2.
Proof.
  intros H1 H2. rewrite compare_conaddr_lex by done. destruct H1 as [H1 H1'], H2 as [H2 H2'].
  cbv zeta. case_if.
  - split; [done|]. intros ->. by rewrite (proj2 (lex_eq _ _)) in *.
  - apply lex_eq, key_inj in Heqb; [|done..]. rewrite lex_eq. destruct v1, v2; simpl in *. subst.
    split; [intros H; f_equal; by apply key_inj | by intros [= ->]].
Qed.

Lemma compare_conaddr_sym v1 v2 :
  is_ca v1 → is_ca v2 → compare_conaddr v2 v1 = - compare_conaddr v1 v2.
Proof.
  intros H1 H2. rewrite !compare_conaddr_lex by done. cbv zeta.
  rewrite (lex_sym (key (remote_addr v1))), (lex_sym (key (local_addr v1))).
  destruct (Z.eqb_spec (lex (key (remote_addr v1)) (key (remote_addr v2))) 0) as [->|]; [done|].
  rewrite (proj2 (Z.eqb_neq _ 0)) by lia. done.
Qed.

Lemma compare_conaddr_trans v1 v2 v3 :
  is_ca v1 → is_ca v2 → is_ca v3 →
  compare_conaddr v1 v2 < 0 → compare_conaddr v2 v3 < 0 → compare_conaddr v1 v3 < 0.
Proof.
  intros H1 H2 H3. rewrite !compare_conaddr_lex by done. cbv zeta.
  set (r1 := key (remote_addr v1)). set (r2 := key (remote_addr v2)). set (r3 := key (remote_addr v3)).
  clearbody r1 r2 r3.
  destruct (Z.eqb_spec (lex r1 r2) 0) as [E12|], (Z.eqb_spec (lex r2 r3) 0) as [E23|]; cbn [negb].
  - apply lex_eq in E12 as ->. rewrite E23. apply lex_lt_trans.
  - apply lex_eq in E12 as ->. by rewrite (proj2 (Z.eqb_neq _ _)).
  - apply lex_eq in E23 as <-. by rewrite (proj2 (Z.eqb_neq _ _)).
  - intros L1 L2. pose proof (lex_lt_trans _ _ _ L1 L2). by rewrite (proj2 (Z.eqb_neq _ _)) by lia.
Qed.

Lemma uint16_cases a b :
  (a < b ∧ uint16_comparator a b = -1) ∨ (a = b ∧ uint16_comparator a b = 0) ∨ (b < a ∧ uint16_comparator a b = 1).
Proof. apply b_compare_cases. Qed.

(** ** The invariant of the client *)

Definition addr_lt (o : t) (x y : ptr) : Prop := compare_conaddr (conaddr_of o x) (conaddr_of o y) < 0.

Definition id_lt (o : t) (x y : ptr) : Prop := uint16_comparator (conid_of o x) (conid_of o y) < 0.

(** What holds of a connection. *)
Record con_ok (max : Z) (x : connection) : Prop := {
  x_addr : good_ca (con_addr x);
  x_id : 0 ≤ conid x < max;
  x_flags : first_flags x = 0 ∨ first_flags x = UDPGW_CLIENT_FLAG_DNS;
}.

Record client_ok (o : t) : Prop := {
  k_mtu : 0 ≤ udp_mtu o;
  k_gwmtu : udpgw_mtu o = 21 + udp_mtu o ∧ udpgw_mtu o ≤ UINT16_MAX;
  k_max : 0 < max_connections o ≤ UINT16_MAX + 1;
  k_con : ∀ c x, connections o !! c = Some x → con_ok (max_connections o) x;
  k_list : ∀ c, c ∈ connections_list o ↔ is_Some (connections o !! c);
  k_nodup : NoDup (connections_list o);
  k_num : num_connections o = Z.of_nat (length (connections_list o));
  k_num_max : num_connections o ≤ max_connections o;
  k_addr : connections_tree_by_conaddr o ≡ₚ connections_list o;
  k_addr_sorted : Tree.sorted (addr_lt o) (connections_tree_by_conaddr o);
  k_ids : connections_tree_by_conid o ≡ₚ connections_list o;
  k_ids_sorted : Tree.sorted (id_lt o) (connections_tree_by_conid o);
  k_next : 0 ≤ next_conid o < max_connections o;
}.

Lemma good_is_ca v : good_ca v → is_ca v.
Proof. intros [[H1 _] [H2 _]]. by split. Qed.

Section client.
Context (o : t) (Hok : client_ok o).

Lemma conaddr_is_ca c : is_ca (conaddr_of o c).
Proof.
  unfold conaddr_of. destruct (connections o !! c) as [x|] eqn:Hx; [|done].
  apply good_is_ca. by eapply x_addr, (k_con _ Hok c).
Qed.

Lemma listed c : c ∈ connections_list o → ∃ x, connections o !! c = Some x ∧ con_ok (max_connections o) x.
Proof. intros Hc. apply (k_list _ Hok) in Hc as [x Hx]. eauto using k_con. Qed.

Lemma id_bound c x : connections o !! c = Some x → to_u16 (conid x) = conid x.
Proof.
  intros Hx. apply Z.mod_small. destruct (k_con _ Hok c x Hx) as [_ Hid _]. pose proof (k_max _ Hok).
  unfold UINT16_MAX in *. lia.
Qed.

(** Two connections have different addresses and identifiers. *)
Lemma ids_distinct c d : c ∈ connections_list o → d ∈ connections_list o → conid_of o c = conid_of o d → c = d.
Proof.
  intros Hc Hd He. rewrite <- (k_ids _ Hok) in Hc, Hd.
  destruct (TreeFacts.sorted_distinct _ _ c d (k_ids_sorted _ Hok) Hc Hd) as [|[H|H]]; [done|..];
    unfold id_lt in H; rewrite He in H; pose proof (uint16_cases (conid_of o d) (conid_of o d)); lia.
Qed.

Lemma addrs_distinct c d :
  c ∈ connections_list o → d ∈ connections_list o → conaddr_of o c = conaddr_of o d → c = d.
Proof.
  intros Hc Hd He. rewrite <- (k_addr _ Hok) in Hc, Hd.
  assert (compare_conaddr (conaddr_of o d) (conaddr_of o d) = 0) as H0.
  { by apply compare_conaddr_eq; try apply conaddr_is_ca. }
  destruct (TreeFacts.sorted_distinct _ _ c d (k_addr_sorted _ Hok) Hc Hd) as [|[H|H]]; [done|..];
    unfold addr_lt in H; rewrite He in H; lia.
Qed.

Lemma find_by_conid id :
  match find_connection_by_conid o id with
  | Some c => c ∈ connections_list o ∧ conid_of o c = id
  | None => ∀ c, c ∈ connections_list o → conid_of o c ≠ id
  end.
Proof.
  unfold find_connection_by_conid. destruct (Tree.LookupExact _ _) as [c|] eqn:Hl.
  - apply TreeFacts.LookupExact_Some in Hl as [Hc H0]. rewrite (k_ids _ Hok) in Hc.
    pose proof (uint16_cases id (conid_of o c)). split; [done | lia].
  - intros c Hc Hid. rewrite <- (k_ids _ Hok) in Hc.
    rewrite TreeFacts.LookupExact_None in Hl. apply (Hl c Hc).
    pose proof (uint16_cases id (conid_of o c)). lia.
Qed.

Lemma find_by_conaddr ca :
  is_ca ca →
  match find_connection_by_conaddr o ca with
  | Some c => c ∈ connections_list o ∧ conaddr_of o c = ca
  | None => ∀ c, c ∈ connections_list o → conaddr_of o c ≠ ca
  end.
Proof.
  intros Hca. unfold find_connection_by_conaddr. destruct (Tree.LookupExact _ _) as [c|] eqn:Hl.
  - apply TreeFacts.LookupExact_Some in Hl as [Hc H0]. rewrite (k_addr _ Hok) in Hc.
    split; [done|]. apply compare_conaddr_eq in H0; [done | done | apply conaddr_is_ca].
  - intros c Hc He. rewrite <- (k_addr _ Hok) in Hc.
    rewrite TreeFacts.LookupExact_None in Hl. apply (Hl c Hc). subst ca.
    by apply compare_conaddr_eq.
Qed.

End client.

(** ** Finding an identifier *)

Lemma find_by_conid_next o id id' : find_connection_by_conid (set_next_conid o id) id' = find_connection_by_conid o id'.
Proof. done. Qed.

(** The identifier [k] steps after the next one. *)
Definition nth_id (o : t) (k : Z) : Z := (next_conid o + k) mod max_connections o.

Lemma find_unused_step fuel : ∀ o,
  client_ok o →
  match find_unused_loop fuel o with
  | Some (o', id) => ∃ k, 0 ≤ k ≤ Z.of_nat fuel ∧ id = nth_id o k ∧ o' = set_next_conid o id ∧
      find_connection_by_conid o id = None ∧ ∀ j, 0 ≤ j < k → is_Some (find_connection_by_conid o (nth_id o j))
  | None => ∀ j, 0 ≤ j ≤ Z.of_nat fuel → is_Some (find_connection_by_conid o (nth_id o j))
  end.
Proof.
  assert (Hsmall : ∀ o, client_ok o → to_u16 (next_conid o) = next_conid o ∧ nth_id o 0 = next_conid o).
  { intros o Ho. pose proof (k_next _ Ho). pose proof (k_max _ Ho). unfold UINT16_MAX in *. split.
    - apply Z.mod_small. lia.
    - unfold nth_id. rewrite Z.add_0_r. by apply Z.mod_small. }
  induction fuel as [|fuel IH]; intros o Ho; destruct (Hsmall o Ho) as [Hu H0]; cbn [find_unused_loop]; rewrite Hu;
    destruct (find_connection_by_conid o (next_conid o)) as [c|] eqn:Hf.
  - intros j Hj. replace j with 0 by lia. rewrite H0, Hf. by eexists.
  - exists 0. rewrite H0. split; [lia|]. split; [done|]. split; [by destruct o|]. split; [done | lia].
  - set (nx := if next_conid o =? max_connections o - 1 then 0 else next_conid o + 1).
    pose proof (k_next _ Ho) as Hn. pose proof (k_max _ Ho) as Hm.
    assert (Hnx : nx = nth_id o 1).
    { unfold nx, nth_id. destruct (Z.eqb_spec (next_conid o) (max_connections o - 1)) as [->|].
      - replace (max_connections o - 1 + 1) with (max_connections o) by lia. by rewrite Z.mod_same by lia.
      - rewrite Z.mod_small; lia. }
    assert (Hnth : ∀ j, nth_id (set_next_conid o nx) j = nth_id o (j + 1)).
    { intros j. unfold nth_id. cbn [next_conid max_connections set_next_conid]. rewrite Hnx. unfold nth_id.
      rewrite Zplus_mod_idemp_l. f_equal. lia. }
    assert (Hok' : client_ok (set_next_conid o nx)).
    { destruct Ho. constructor; try done. cbn. rewrite Hnx. apply Z.mod_pos_bound. lia. }
    specialize (IH _ Hok'). destruct (find_unused_loop fuel (set_next_conid o nx)) as [[o' id]|].
    + destruct IH as (k & Hk & -> & -> & Hfree & Hused). rewrite Hnth in *. exists (k + 1).
      split; [lia|]. split; [done|]. split; [done|]. split; [done|].
      intros j Hj. destruct (decide (j = 0)) as [->|]; [rewrite H0, Hf; by eexists|].
      specialize (Hused (j - 1) ltac:(lia)). rewrite Hnth in Hused.
      by replace (j - 1 + 1) with j in Hused by lia.
    + intros j Hj. destruct (decide (j = 0)) as [->|]; [rewrite H0, Hf; by eexists|].
      specialize (IH (j - 1) ltac:(lia)). rewrite Hnth in IH. by replace (j - 1 + 1) with j in IH by lia.
  - exists 0. rewrite H0. split; [lia|]. split; [done|]. split; [by destruct o|]. split; [done | lia].
Qed.

(** If all identifiers are used there are as many connections. *)
Lemma all_used o :
  client_ok o → (∀ j, 0 ≤ j ≤ max_connections o → is_Some (find_connection_by_conid o (nth_id o j))) →
  max_connections o ≤ num_connections o.
Proof.
  intros Ho Hall. pose proof (k_max _ Ho). rewrite (k_num _ Ho).
  assert (Hsub : seqZ 0 (max_connections o) ⊆+ (conid_of o <$> connections_list o)).
  { apply NoDup_submseteq; [apply NoDup_seqZ|]. intros id Hid. apply elem_of_seqZ in Hid.
    pose proof (k_next _ Ho).
    assert (∃ j, 0 ≤ j ≤ max_connections o ∧ nth_id o j = id) as (j & Hj & <-).
    { exists ((id - next_conid o) mod max_connections o).
      pose proof (Z.mod_pos_bound (id - next_conid o) (max_connections o) ltac:(lia)). split; [lia|].
      unfold nth_id. rewrite Zplus_mod_idemp_r. replace (next_conid o + (id - next_conid o)) with id by lia.
      apply Z.mod_small. lia. }
    destruct (Hall j Hj) as [c Hc]. pose proof (find_by_conid o Ho (nth_id o j)) as Hf. rewrite Hc in Hf.
    destruct Hf as [Hin <-]. by apply list_elem_of_fmap_2. }
  apply submseteq_length in Hsub. rewrite length_fmap, length_seqZ in Hsub. lia.
Qed.

Lemma find_unused_ok o :
  client_ok o → num_connections o < max_connections o →
  ∃ k, 0 ≤ k ∧ find_unused_conid o = Ok (set_next_conid o (nth_id o k), nth_id o k) ∧
    0 ≤ nth_id o k < max_connections o ∧
    (∀ c, c ∈ connections_list o → conid_of o c ≠ nth_id o k) ∧
    ∀ j, 0 ≤ j < k → ∃ c, c ∈ connections_list o ∧ conid_of o c = nth_id o j.
Proof.
  intros Ho Hn. unfold find_unused_conid. run_assert. pose proof (k_max _ Ho).
  pose proof (find_unused_step (Z.to_nat (max_connections o)) o Ho) as Hs.
  destruct (find_unused_loop _ o) as [[o' id]|].
  - destruct Hs as (k & Hk & -> & -> & Hfree & Hused). exists k. split; [lia|]. split; [done|].
    split; [apply Z.mod_pos_bound; lia|]. split.
    + pose proof (find_by_conid o Ho (nth_id o k)) as Hf. by rewrite Hfree in Hf.
    + intros j Hj. destruct (Hused j Hj) as [c Hc]. pose proof (find_by_conid o Ho (nth_id o j)) as Hf.
      rewrite Hc in Hf. eauto.
  - exfalso. rewrite Z2Nat.id in Hs by lia. pose proof (all_used o Ho Hs). lia.
Qed.

(** ** Writing a packet *)

Lemma connection_send_ok o c x flags data len out m bs :
  0 ≤ len ≤ udp_mtu o → udpgw_mtu o = 21 + udp_mtu o → ip_addr (remote_addr (con_addr x)) →
  mapped m out (udpgw_mtu o) → load m data (Z.to_nat len) = Ok bs →
  out + udpgw_mtu o ≤ data ∨ data + len ≤ out →
  let pkt := encode flags (conid x) (remote_addr (con_addr x)) bs in
  ∃ m', connection_send o c x flags data len (Some out) m
        = Ok (m', [Conn_StartPacket c; Conn_EndPacket c (Z.of_nat (length pkt))]) ∧
    store m out pkt = Ok m' ∧ Z.of_nat (length pkt) ≤ udpgw_mtu o.
Proof.
  intros Hlen Hmtu Hip Hout Hbs Hd pkt. unfold connection_send. do 2 run_assert.
  set (a := remote_addr (con_addr x)) in *.
  change (if BAddr.type_of a =? BADDR_TYPE_IPV6 then Z.lor flags UDPGW_CLIENT_FLAG_IPV6 else flags)
    with (flags_for a flags). cbv zeta.
  apply load_ok in Hbs as [Hlb Hbs].
  pose proof (length_addr_bytes a Hip) as Hal.
  assert (Hhl : length (header_bytes (flags_for a flags) (conid x)) = 3%nat) by done.
  assert (Hpl : Z.of_nat (length pkt) = 3 + Z.of_nat (length (addr_bytes a)) + len).
  { unfold pkt, encode. rewrite !length_app, Hhl, Hlb. lia. }
  assert (Hal18 : (length (addr_bytes a) ≤ 18)%nat).
  { rewrite Hal. unfold sizeof_udpgw_addr_ipv6, sizeof_udpgw_addr_ipv4. destruct (is_ipv6 a); lia. }
  destruct (store_mapped_ok m out (header_bytes (flags_for a flags) (conid x))) as [m1 Hm1].
  { rewrite Hhl. eapply mapped_sub; [exact Hout | lia | lia]. }
  rewrite Hm1, ok_bind.
  destruct (store_mapped_ok m1 (out + 3) (addr_bytes a)) as [m2 Hm2].
  { eapply store_mapped; [exact Hm1|]. eapply mapped_sub; [exact Hout | lia | lia]. }
  assert (Hh2 : holds_at m2 data bs).
  { eapply store_frame; [exact Hm2 | eapply store_frame; [exact Hm1 | exact Hbs | rewrite Hhl; lia] | lia]. }
  destruct (memmove_ok m2 (out + 3 + Z.of_nat (length (addr_bytes a))) data len bs) as (m3 & Hmv & Hm3); [done|done| |lia|].
  { eapply store_mapped; [exact Hm2|]. eapply store_mapped; [exact Hm1|]. eapply mapped_sub; [exact Hout | lia | lia]. }
  exists m3. split; [|split; [|lia]].
  - assert (Hend : sizeof_udpgw_header + Z.of_nat (length (addr_bytes a)) + len = Z.of_nat (length pkt)) by
      (rewrite Hpl; done).
    destruct Hip as [Hip Hnone]. destruct a as [|ip port|ip port|p|n] eqn:Ea; try done;
      cbn [addr_bytes] in *;
      change (out + sizeof_udpgw_header) with (out + 3); rewrite Hm2, ok_bind.
    + change (length (le_bytes 4 ip ++ le_bytes 2 port)) with (Z.to_nat sizeof_udpgw_addr_ipv4) in *.
      change (Z.of_nat (Z.to_nat sizeof_udpgw_addr_ipv4)) with sizeof_udpgw_addr_ipv4 in *.
      rewrite ok_bind, Z.add_assoc. change (out + sizeof_udpgw_header) with (out + 3).
      by rewrite Hmv, ok_bind, Hend.
    + rewrite Hal in *. change (is_ipv6 (BAddr.IPV6 ip port)) with true in *. cbv iota in *.
      change (Z.of_nat (Z.to_nat sizeof_udpgw_addr_ipv6)) with sizeof_udpgw_addr_ipv6 in *.
      rewrite ok_bind, Z.add_assoc. change (out + sizeof_udpgw_header) with (out + 3).
      by rewrite Hmv, ok_bind, Hend.
  - unfold pkt, encode. rewrite store_app, Hm1, ok_bind, Hhl. change (Z.of_nat 3) with 3.
    by rewrite store_app, Hm2, ok_bind.
Qed.

(** ** The operations keep the invariant *)

Lemma insert_addr o t c :
  (∀ x, is_ca (conaddr_of o x)) → Tree.sorted (addr_lt o) t →
  (∀ d, d ∈ t → conaddr_of o d ≠ conaddr_of o c) →
  ∃ t', Tree.Insert (λ x y, compare_conaddr (conaddr_of o x) (conaddr_of o y)) t c = Some t' ∧
    Tree.sorted (addr_lt o) t' ∧ t' ≡ₚ c :: t.
Proof.
  intros Hca Hs Hne. apply TreeFacts.Insert_ok; [done | | |done|].
  - intros x y. unfold addr_lt. rewrite (compare_conaddr_sym (conaddr_of o x)) by done. lia.
  - intros x y z. by apply compare_conaddr_trans.
  - intros d Hd H0. apply compare_conaddr_eq in H0; [|done..]. by eapply Hne.
Qed.

Lemma insert_id o t c :
  Tree.sorted (id_lt o) t → (∀ d, d ∈ t → conid_of o d ≠ conid_of o c) →
  ∃ t', Tree.Insert (λ x y, uint16_comparator (conid_of o x) (conid_of o y)) t c = Some t' ∧
    Tree.sorted (id_lt o) t' ∧ t' ≡ₚ c :: t.
Proof.
  intros Hs Hne. apply TreeFacts.Insert_ok; [done | | |done|].
  - intros x y. unfold id_lt. pose proof (uint16_cases (conid_of o x) (conid_of o y)).
    pose proof (uint16_cases (conid_of o y) (conid_of o x)). lia.
  - intros x y z. unfold id_lt. pose proof (uint16_cases (conid_of o x) (conid_of o y)).
    pose proof (uint16_cases (conid_of o y) (conid_of o z)).
    pose proof (uint16_cases (conid_of o x) (conid_of o z)). lia.
  - intros d Hd H0. specialize (Hne d Hd). pose proof (uint16_cases (conid_of o c) (conid_of o d)). lia.
Qed.

Lemma of_insert o c x d :
  conaddr_of (set_connections o (<[c := x]> (connections o))) d
    = (if decide (c = d) then con_addr x else conaddr_of o d) ∧
  conid_of (set_connections o (<[c := x]> (connections o))) d
    = (if decide (c = d) then conid x else conid_of o d).
Proof. unfold conaddr_of, conid_of. cbn [connections set_connections]. rewrite lookup_insert. by case_decide. Qed.

(** The trees stay sorted when another object changes. *)
Lemma sorted_insert o c x t :
  c ∉ t → (Tree.sorted (addr_lt o) t → Tree.sorted (addr_lt (set_connections o (<[c := x]> (connections o)))) t)
    ∧ (Tree.sorted (id_lt o) t → Tree.sorted (id_lt (set_connections o (<[c := x]> (connections o)))) t).
Proof.
  intros Hc. split; apply TreeFacts.sorted_ext; intros y z Hy Hz; unfold addr_lt, id_lt;
    destruct (of_insert o c x y) as [E1 E2], (of_insert o c x z) as [E3 E4];
    rewrite ?E1, ?E2, ?E3, ?E4; rewrite !decide_False by (intros ->; done); done.
Qed.

Lemma move_ok o c : client_ok o → c ∈ connections_list o → client_ok (move_to_end o c).
Proof.
  intros Ho Hc. assert (Hp : Tree.Remove (connections_list o) c ++ [c] ≡ₚ connections_list o).
  { rewrite (TreeFacts.Remove_perm _ _ Hc) at 2. by rewrite Permutation_app_comm. }
  destruct Ho. constructor; try done; cbn [connections_list move_to_end set_indexes connections
    connections_tree_by_conaddr connections_tree_by_conid num_connections].
  - intros d. by rewrite Hp.
  - by rewrite Hp.
  - by rewrite Hp.
  - by rewrite Hp.
  - by rewrite Hp.
Qed.

Lemma init_ok o ca flags data len c flow_ok :
  client_ok o → good_ca ca → flags = 0 ∨ flags = UDPGW_CLIENT_FLAG_DNS → 0 ≤ len ≤ udp_mtu o →
  num_connections o < max_connections o → find_connection_by_conaddr o ca = None →
  connections o !! c = None →
  ∃ id o', connection_init o ca flags data len (Some c) flow_ok = Ok (o', if flow_ok then [Conn_Init c] else []) ∧
    client_ok o' ∧
    o' = (if flow_ok then
            mk (udp_mtu o) (max_connections o) (send_buffer_size o) (udpgw_mtu o) (pp_mtu o)
               (connections_tree_by_conaddr o') (connections_tree_by_conid o') (connections_list o ++ [c])
               (num_connections o + 1) id (keepalive_sending o) (have_server o)
               (<[c := mkcon ca flags data len id true]> (connections o))
          else set_next_conid o id).
Proof.
  intros Ho Hca Hfl Hlen Hn Hf Hc. unfold connection_init. run_assert. rewrite Hf. do 3 run_assert.
  destruct (find_unused_ok o Ho Hn) as (k & Hk & -> & Hid & Hfree & _). rewrite ok_bind.
  set (id := nth_id o k) in *. set (o1 := set_next_conid o id).
  assert (Ho1 : client_ok o1) by (destruct Ho; by constructor).
  destruct flow_ok; cbn [negb]; [|by exists id, o1].
  set (x := mkcon ca flags data len id true).
  set (o2 := set_connections o1 (<[c := x]> (connections o1))).
  assert (Hcl : c ∉ connections_list o) by (rewrite (k_list _ Ho), Hc; by intros []).
  assert (Hof : ∀ d, conaddr_of o2 d = (if decide (c = d) then ca else conaddr_of o d) ∧
                     conid_of o2 d = (if decide (c = d) then id else conid_of o d)).
  { intros d. exact (of_insert o1 c x d). }
  assert (Hca2 : ∀ d, is_ca (conaddr_of o2 d)).
  { intros d. rewrite (proj1 (Hof d)). case_decide; [by apply good_is_ca | by apply conaddr_is_ca]. }
  destruct (insert_addr o2 (connections_tree_by_conaddr o) c) as (ta & Ha & Hsa & Hpa); [done| |..].
  { apply (sorted_insert o1); [by rewrite (k_addr _ Ho)|]. apply (k_addr_sorted _ Ho1). }
  { intros d Hd. rewrite (proj1 (Hof d)), (proj1 (Hof c)), (decide_True_pi (P := c = c) eq_refl).
    rewrite (k_addr _ Ho) in Hd. rewrite decide_False by (intros ->; done).
    pose proof (find_by_conaddr o Ho ca (good_is_ca _ Hca)) as Hx. rewrite Hf in Hx. by apply Hx. }
  destruct (insert_id o2 (connections_tree_by_conid o) c) as (ti & Hi & Hsi & Hpi).
  { apply (sorted_insert o1); [by rewrite (k_ids _ Ho)|]. apply (k_ids_sorted _ Ho1). }
  { intros d Hd. rewrite (proj2 (Hof d)), (proj2 (Hof c)), (decide_True_pi (P := c = c) eq_refl).
    rewrite (k_ids _ Ho) in Hd. rewrite decide_False by (intros ->; done). by apply Hfree. }
  change (connections_tree_by_conaddr o) with (connections_tree_by_conaddr o2) in Ha.
  change (connections_tree_by_conid o) with (connections_tree_by_conid o2) in Hi.
  exists id. cbn zeta. fold x. fold o2. rewrite Ha. cbn [or_fault]. rewrite ok_bind, Hi. cbn [or_fault].
  rewrite ok_bind. eexists. split; [done|]. split; [|done].
  destruct Ho. constructor; try done; cbn [connections_list set_indexes set_connections connections o2 o1
    connections_tree_by_conaddr connections_tree_by_conid num_connections set_next_conid max_connections next_conid].
  - intros d y. rewrite lookup_insert. case_decide; [|by eauto]. intros [= <-]. by constructor.
  - intros d. rewrite elem_of_app, list_elem_of_singleton, lookup_insert, k_list0. case_decide; naive_solver.
  - apply NoDup_app. split; [done|]. split; [|apply NoDup_singleton].
    intros d Hd ->%list_elem_of_singleton. done.
  - rewrite length_app, Nat2Z.inj_add. cbn [length]. lia.
  - lia.
  - rewrite Hpa, k_addr0. by rewrite Permutation_app_comm.
  - rewrite Hpi, k_ids0. by rewrite Permutation_app_comm.
Qed.

Lemma reuse_ok o ca :
  client_ok o → good_ca ca → find_connection_by_conaddr o ca = None → 0 < num_connections o →
  ∃ c rest x by_addr, connections_list o = c :: rest ∧ connections o !! c = Some x ∧
    let o' := mk (udp_mtu o) (max_connections o) (send_buffer_size o) (udpgw_mtu o) (pp_mtu o)
               by_addr (connections_tree_by_conid o) (connections_list o)
               (num_connections o) (next_conid o) (keepalive_sending o) (have_server o)
               (<[c := mkcon ca (first_flags x) (first_data x) (first_data_len x)
                             (conid x) (first_job x)]> (connections o)) in
    reuse_connection o ca = Ok (o', c) ∧ client_ok o'.
Proof.
  intros Ho Hca Hf Hn. unfold reuse_connection. rewrite Hf. run_assert. run_assert.
  pose proof (k_num _ Ho) as Hnum. destruct (connections_list o) as [|c rest] eqn:Hl; [simpl in Hnum; lia|].
  cbn [head or_fault]. rewrite ok_bind.
  assert (Hc : c ∈ connections_list o) by (rewrite Hl; by left).
  destruct (listed o Ho c Hc) as (x & Hx & Hxok). rewrite Hx. cbn [or_fault]. rewrite ok_bind.
  set (x' := mkcon ca (first_flags x) (first_data x) (first_data_len x) (conid x) (first_job x)).
  set (o1 := set_indexes o (Tree.Remove (connections_tree_by_conaddr o) c) (connections_tree_by_conid o)
               (connections_list o) (num_connections o)).
  set (o2 := set_connections o1 (<[c := x']> (connections o1))).
  assert (Hof : ∀ d, conaddr_of o2 d = (if decide (c = d) then ca else conaddr_of o d) ∧
                     conid_of o2 d = (if decide (c = d) then conid x else conid_of o d)).
  { intros d. exact (of_insert o1 c x' d). }
  assert (Hca2 : ∀ d, is_ca (conaddr_of o2 d)).
  { intros d. rewrite (proj1 (Hof d)). case_decide; [by apply good_is_ca | by apply conaddr_is_ca]. }
  assert (Hlt : ∀ a b, 0 < compare_conaddr (conaddr_of o a) (conaddr_of o b) ↔ addr_lt o b a).
  { intros a b. unfold addr_lt. rewrite (compare_conaddr_sym (conaddr_of o a)) by (by apply conaddr_is_ca). lia. }
  destruct (TreeFacts.Remove_sorted (λ a b, compare_conaddr (conaddr_of o a) (conaddr_of o b)) (addr_lt o)
    ltac:(done) Hlt ltac:(intros a b d; apply compare_conaddr_trans; by apply conaddr_is_ca)
    (connections_tree_by_conaddr o) c (k_addr_sorted _ Ho)) as [Hsr Hrem].
  set (tr := Tree.Remove (connections_tree_by_conaddr o) c) in *.
  destruct (insert_addr o2 tr c) as (ta & Ha & Hsa & Hpa); [done| |..].
  { apply (sorted_insert o1); [by intros Hin; apply Hrem in Hin as [??]|]. exact Hsr. }
  { intros d Hd. rewrite (proj1 (Hof d)), (proj1 (Hof c)), (decide_True_pi (P := c = c) eq_refl).
    apply Hrem in Hd as [Hne Hd]. rewrite (k_addr _ Ho) in Hd. rewrite decide_False by congruence.
    pose proof (find_by_conaddr o Ho ca (good_is_ca _ Hca)) as Hy. rewrite Hf in Hy. by apply Hy. }
  exists c, rest, x, ta. split; [done|]. split; [done|]. cbv zeta. fold x'.
  rewrite <- Hl. fold tr. change tr with (connections_tree_by_conaddr o2) in Ha. fold o1. fold o2. rewrite Ha. cbn [or_fault]. rewrite ok_bind. split; [done|].
  assert (Hids : ∀ d, conid_of o2 d = conid_of o d).
  { intros d. rewrite (proj2 (Hof d)). case_decide as E; [|done]. subst d. unfold conid_of. by rewrite Hx. }
  destruct Ho. constructor; try done; cbn [connections_list connections connections_tree_by_conaddr
    connections_tree_by_conid num_connections max_connections].
  - intros d y. rewrite lookup_insert. case_decide; [|by eauto]. intros [= <-]. destruct Hxok. by constructor.
  - intros d. rewrite k_list0, lookup_insert. case_decide as E; [|done]. subst d. rewrite Hx. split; by eexists.
  - rewrite Hpa, <- k_addr0. symmetry. apply TreeFacts.Remove_perm. by rewrite k_addr0.
  - eapply TreeFacts.sorted_ext; [|exact k_ids_sorted0]. intros a b _ _. unfold id_lt.
    change (conid_of _ a) with (conid_of o2 a) at 2. change (conid_of _ b) with (conid_of o2 b) at 2.
    by rewrite !Hids.
Qed.

(** ** The invariant of the client and its surroundings *)

Definition disjoint (p n q k : Z) : Prop := p + n ≤ q ∨ q + k ≤ p.

Record world_ok (w : world) : Prop := {
  i_client : client_ok (cli w);
  i_writers : ∀ c, is_Some (writers w !! c) ↔ is_Some (connections (cli w) !! c);
  i_out : ∀ c p, writer_out w c = Some p → mapped (mm w) p (udpgw_mtu (cli w)) ∧
            ∀ q k, lent w = Some (q, k) → disjoint p (udpgw_mtu (cli w)) q k;
  i_lent : ∀ q k, lent w = Some (q, k) → 0 ≤ k ≤ udp_mtu (cli w) ∧ mapped (mm w) q k;
  i_job : ∀ c, job w = Some c → ∃ x, connections (cli w) !! c = Some x ∧
            lent w = Some (first_data x, first_data_len x) ∧ writers w !! c = Some (mkwr None []);
  i_first : ∀ c x, connections (cli w) !! c = Some x → first_job x = bool_decide (job w = Some c);
  i_keepalive : keepalive w = keepalive_sending (cli w);
  i_server : server w = have_server (cli w);
  i_send : send w = true;
}.

(** The list of the client is that of last uses. *)
Definition uses_ok (w : world) : Prop := connections_list (cli w) = remove_dups (uses w).

Lemma remove_dups_snoc (l : list Z) c : remove_dups (l ++ [c]) = Tree.Remove (remove_dups l) c ++ [c].
Proof.
  induction l as [|x l IH]; [done|]. cbn [app remove_dups].
  destruct (decide_rel elem_of x (l ++ [c])) as [H1|H1], (decide_rel elem_of x l) as [H2|H2];
    rewrite elem_of_app, list_elem_of_singleton in H1; rewrite IH; try tauto.
  - destruct H1 as [?| ->]; [done|]. f_equal. cbn [Tree.Remove]. rewrite bool_decide_true by done.
    rewrite <- elem_of_remove_dups in H2. revert H2. generalize (remove_dups l). clear.
    induction l as [|y l IH]; [done|]. intros [Hne Hn]%not_elem_of_cons. cbn [Tree.Remove].
    rewrite bool_decide_false by done. f_equal. auto.
  - cbn [Tree.Remove]. by rewrite bool_decide_false by (intros ->; tauto).
Qed.

Lemma mapped_b_ok m p n : mapped_b m p n = true → mapped m p n.
Proof.
  unfold mapped_b. intros H a Ha. rewrite forallb_forall in H. eapply bool_decide_eq_true_1, H.
  apply list_elem_of_In, elem_of_seqZ. lia.
Qed.

Lemma disjoint_b_ok p n q k : disjoint_b p n q k = true → disjoint p n q k.
Proof. unfold disjoint_b, disjoint. intros [H|H]%orb_true_iff; zify_bool; lia. Qed.

Lemma writers_forallb w (P : ptr → bool) c p :
  forallb (λ x, match w_out (snd x) with Some p => P p | None => true end) (map_to_list (writers w)) = true →
  writer_out w c = Some p → P p = true.
Proof.
  intros H Hc. unfold writer_out in Hc. destruct (writers w !! c) as [x|] eqn:Hx; [|done]. simpl in Hc.
  rewrite forallb_forall in H. specialize (H (c, x)). simpl in H. rewrite Hc in H. apply H.
  by apply list_elem_of_In, elem_of_map_to_list.
Qed.

Lemma ip_addr_b_ok a :
  ip_addr_b a = true → ip_addr a ∧ ((BAddr.type_of a =? BADDR_TYPE_IPV4) || (BAddr.type_of a =? BADDR_TYPE_IPV6)) = true.
Proof.
  destruct a as [|ip port|ip port|p|n]; simpl; try done; intros H; zify_bool; (split; [|done]); split; try done.
  split; [by apply Nat.eqb_eq | done].
Qed.

(** What memory and the other connections' writers keep when one writes. *)
Lemma send_calls w o m' c x p pkt m :
  writers w !! c = Some x → w_out x = Some p → store m p pkt = Ok m' →
  Z.of_nat (length pkt) ≤ udpgw_mtu o →
  run_calls do_call (set_cli w o m') [Conn_StartPacket c; Conn_EndPacket c (Z.of_nat (length pkt))]
  = Ok (set_writers (set_cli w o m') (<[c := mkwr None (w_sent x ++ [pkt])]> (writers w)) (job w)).
Proof.
  intros Hx Hp Hm Hl. cbn [run_calls do_call].
  assert (writer_out (set_cli w o m') c = Some p) as ->.
  { unfold writer_out. cbn [writers set_cli]. rewrite Hx. exact Hp. }
  cbn [or_fault]. rewrite !ok_bind. cbn [writers set_cli cli mm]. rewrite Hx. cbn [or_fault]. rewrite ok_bind, Hp.
  cbn [or_fault]. rewrite ok_bind.
  rewrite c_assert_true by (apply andb_true_iff; split; apply Z.leb_le; lia). rewrite Nat2Z.id.
  rewrite (proj2 (load_ok m' p (length pkt) pkt)) by (split; [done | by eapply store_holds]). done.
Qed.

(** The writers after a packet was given to one, if it could take it. *)
Definition sent_on (ws : gmap ptr writer) (c : ptr) (pkt : list Z) : gmap ptr writer :=
  match ws !! c with
  | Some x => match w_out x with Some _ => <[c := mkwr None (w_sent x ++ [pkt])]> ws | None => ws end
  | None => ws
  end.

(** The packets given to the writer of a connection. *)
Definition packets (w : world) (c : ptr) : list (list Z) :=
  match writers w !! c with Some x => w_sent x | None => [] end.

Lemma sent_on_lookup ws c pkt d y :
  sent_on ws c pkt !! d = Some y →
  ∃ x, ws !! d = Some x ∧ (y = x ∨ d = c ∧ is_Some (w_out x) ∧ y = mkwr None (w_sent x ++ [pkt])).
Proof.
  unfold sent_on. intros H. destruct (ws !! c) as [x|] eqn:Hx; [|eauto].
  destruct (w_out x) as [p|] eqn:Hp; [|eauto]. rewrite lookup_insert in H. case_decide as E; [|eauto].
  simplify_eq. exists x. split; [done|]. right. split; [done|]. split; [by rewrite Hp | done].
Qed.

Lemma sent_on_dom ws c pkt d : is_Some (sent_on ws c pkt !! d) ↔ is_Some (ws !! d).
Proof.
  unfold sent_on. destruct (ws !! c) as [x|] eqn:Hx; [|done]. destruct (w_out x); [|done].
  rewrite lookup_insert. case_decide as E; [|done]. subst d. rewrite Hx. split; by eexists.
Qed.

Lemma world_sent w c pkt m' :
  world_ok w → (∀ p n, mapped (mm w) p n → mapped m' p n) →
  world_ok (set_writers (set_cli w (cli w) m') (sent_on (writers w) c pkt) (job w)).
Proof.
  intros [] Hm. constructor; try done; cbn [writers set_writers set_cli cli mm lent job].
  - intros d. by rewrite sent_on_dom.
  - intros d p. unfold writer_out. cbn [writers set_writers].
    destruct (sent_on (writers w) c pkt !! d) as [y|] eqn:Hy; [|done]. intros Hp. simpl in Hp.
    destruct (sent_on_lookup _ _ _ _ _ Hy) as (x & Hx & [->|(_ & _ & ->)]); [|done].
    destruct (i_out0 d p) as [H1 H2]; [unfold writer_out; by rewrite Hx|]. split; [by apply Hm | done].
  - intros q k Hq. destruct (i_lent0 q k Hq). split; [done | by apply Hm].
  - intros d Hd. destruct (i_job0 d Hd) as (x & Hx & Hl & Hw). exists x. split; [done|]. split; [done|].
    unfold sent_on. destruct (writers w !! c) as [y|] eqn:Hy; [|done]. destruct (w_out y) eqn:Hp; [|done].
    rewrite lookup_insert. case_decide as E; [|done]. subst d. by simplify_eq.
Qed.

(** Sending the packet lent to the client on a connection. *)
Lemma send_lent w c x flags data len :
  world_ok w → lent w = Some (data, len) → connections (cli w) !! c = Some x →
  ∃ m' cs bs, connection_send (cli w) c x flags data len (writer_out w c) (mm w) = Ok (m', cs) ∧
    load (mm w) data (Z.to_nat len) = Ok bs ∧ (∀ p n, mapped (mm w) p n → mapped m' p n) ∧
    let pkt := encode flags (conid x) (remote_addr (con_addr x)) bs in
    run_calls do_call (set_cli w (cli w) m') cs
    = Ok (set_writers (set_cli w (cli w) m') (sent_on (writers w) c pkt) (job w)).
Proof.
  intros Hw Hl Hx. destruct (i_lent _ Hw _ _ Hl) as [Hlen Hmap].
  destruct (load_mapped (mm w) data (Z.to_nat len)) as [bs Hbs]; [by rewrite Z2Nat.id by lia|].
  pose proof (proj2 (i_writers _ Hw c) (ex_intro _ _ Hx)) as [wr Hwr].
  destruct (writer_out w c) as [p|] eqn:Hp.
  - destruct (i_out _ Hw c p Hp) as [Hmp Hd]. specialize (Hd _ _ Hl).
    destruct (k_con _ (i_client _ Hw) c x Hx) as [[Hrem _] _ _].
    destruct (connection_send_ok (cli w) c x flags data len p (mm w) bs) as (m' & Hs & Hst & Hpl);
      [done | by apply k_gwmtu, (i_client _ Hw) | done | done | done | exact Hd |].
    eexists m', _, bs. split; [done|]. split; [done|]. split; [by eauto using store_mapped|].
    cbv zeta. unfold writer_out in Hp. rewrite Hwr in Hp. simpl in Hp.
    rewrite (send_calls w (cli w) m' c wr p _ (mm w) Hwr Hp Hst Hpl).
    unfold sent_on. by rewrite Hwr, Hp.
  - exists (mm w), [], bs. split.
    { unfold connection_send. pose proof (k_mtu _ (i_client _ Hw)). by do 2 run_assert. }
    split; [done|]. split; [done|]. cbv zeta. unfold sent_on. unfold writer_out in Hp. rewrite Hwr in *.
    simpl in Hp. rewrite Hp. by destruct w.
Qed.

Lemma uses_move w w' c :
  uses_ok w → connections_list (cli w') = connections_list (move_to_end (cli w) c) → uses w' = uses w →
  uses_ok (use w' (Some c)).
Proof.
  unfold uses_ok. intros Hu Hl Hu'. change (connections_list (cli w') = remove_dups (uses w' ++ [c])).
  rewrite Hl, Hu', remove_dups_snoc, <- Hu. done.
Qed.

(** A change of the client that keeps its connections apart from their addresses. *)
Lemma world_readdress w o' :
  world_ok w → client_ok o' → udp_mtu o' = udp_mtu (cli w) → udpgw_mtu o' = udpgw_mtu (cli w) →
  keepalive_sending o' = keepalive_sending (cli w) → have_server o' = have_server (cli w) →
  (∀ c, match connections o' !! c, connections (cli w) !! c with
        | Some y, Some x => (first_data y, first_data_len y, first_job y) = (first_data x, first_data_len x, first_job x)
        | None, None => True
        | _, _ => False
        end) →
  world_ok (set_cli w o' (mm w)).
Proof.
  intros [] Ho H1 H2 H3 H4 Hc. constructor; try done; cbn [cli set_cli mm writers lent job keepalive server].
  - intros c. rewrite i_writers0. specialize (Hc c).
    destruct (connections o' !! c), (connections (cli w) !! c); try done; split; by eexists.
  - rewrite H2. done.
  - rewrite H1. done.
  - intros c Hj. destruct (i_job0 c Hj) as (x & Hx & Hl & Hwr). specialize (Hc c). rewrite Hx in Hc.
    destruct (connections o' !! c) as [y|]; [|done]. injection Hc as Hc1 Hc2 Hc3. exists y. by rewrite Hc1, Hc2.
  - intros c y Hy. specialize (Hc c). rewrite Hy in Hc.
    destruct (connections (cli w) !! c) as [x|] eqn:Hx; [|done]. injection Hc as Hc1 Hc2 Hc3. rewrite Hc3. by apply i_first0.
  - by rewrite H3.
  - by rewrite H4.
Qed.

(** ** Submitting a packet *)

Definition readdress (x : connection) (ca : conaddr) : connection :=
  mkcon ca (first_flags x) (first_data x) (first_data_len x) (conid x) (first_job x).

(** What submitting a packet does to the connections and what is sent. *)
Definition submitted (w : world) (ca : conaddr) (dns : bool) (data : ptr) (len : Z) (bs : list Z)
    (alloc : option ptr) (flow_ok : bool) (w' : world) : Prop :=
  let flags := if dns then UDPGW_CLIENT_FLAG_DNS else 0 in
  match find_connection_by_conaddr (cli w) ca with
  | Some c =>
      ∃ x, connections (cli w) !! c = Some x ∧ con_addr x = ca ∧
        connections (cli w') = connections (cli w) ∧
        writers w' = sent_on (writers w) c (encode flags (conid x) (remote_addr ca) bs)
  | None =>
      if num_connections (cli w) =? max_connections (cli w) then
        ∃ c x, head (remove_dups (uses w)) = Some c ∧ connections (cli w) !! c = Some x ∧
          connections (cli w') = <[c := readdress x ca]> (connections (cli w)) ∧
          writers w' = sent_on (writers w) c
                         (encode (Z.lor flags UDPGW_CLIENT_FLAG_REBIND) (conid x) (remote_addr ca) bs)
      else match alloc, flow_ok with
           | Some c, true =>
               connections (cli w) !! c = None ∧
               ∃ id, connections (cli w') = <[c := mkcon ca flags data len id true]> (connections (cli w)) ∧
                 writers w' = <[c := mkwr None []]> (writers w) ∧ job w' = Some c
           | _, _ => connections (cli w') = connections (cli w) ∧ writers w' = writers w
           end
  end.

(** The connection of the addresses, once it has been found. *)
Lemma found o c x ca :
  client_ok o → connections o !! c = Some x → con_addr x = ca → is_ca ca → find_connection_by_conaddr o ca = Some c.
Proof.
  intros Ho Hx Hxa Hca. pose proof (find_by_conaddr o Ho ca Hca) as Hf.
  assert (Hc : c ∈ connections_list o) by (rewrite (k_list _ Ho), Hx; by eexists).
  assert (Ha : conaddr_of o c = ca) by (unfold conaddr_of; by rewrite Hx).
  destruct (find_connection_by_conaddr o ca) as [d|].
  - destruct Hf as [Hd Hda]. f_equal. apply (addrs_distinct o Ho); congruence.
  - by destruct (Hf c Hc).
Qed.

(** The end of [SubmitPacket] with a connection found or reused. *)
Lemma submit_send w c x ca flags data len :
  world_ok w → uses_ok w → lent w = Some (data, len) → connections (cli w) !! c = Some x → con_addr x = ca →
  ∃ w' bs, (w' ← run_handler w
                 ('(m, cs) ← connection_send (move_to_end (cli w) c) c x flags data len (writer_out w c) (mm w);
                  Ok (move_to_end (cli w) c, m, cs));
            Ok (use w' (find_connection_by_conaddr (cli w') ca))) = Ok w' ∧ world_ok w' ∧ uses_ok w' ∧
    load (mm w) data (Z.to_nat len) = Ok bs ∧ connections (cli w') = connections (cli w) ∧
    writers w' = sent_on (writers w) c (encode flags (conid x) (remote_addr ca) bs).
Proof.
  intros Hw Hu Hl Hx Hxa. assert (Hc : c ∈ connections_list (cli w)).
  { rewrite (k_list _ (i_client _ Hw)), Hx. by eexists. }
  assert (Hca : is_ca ca).
  { subst ca. apply good_is_ca. by eapply x_addr, (k_con _ (i_client _ Hw) c). }
  pose proof (move_ok _ _ (i_client _ Hw) Hc) as Hmv.
  assert (Hw1 : world_ok (set_cli w (move_to_end (cli w) c) (mm w))).
  { apply world_readdress; try done. intros d. cbn [connections move_to_end set_indexes]. by destruct (connections (cli w) !! d). }
  destruct (send_lent _ c x flags data len Hw1 Hl Hx) as (m' & cs & bs & Hs & Hbs & Hm & Hrun).
  cbv zeta in Hrun. cbn [cli set_cli mm] in Hs. change (writer_out (set_cli _ _ _) c) with (writer_out w c) in Hs.
  rewrite Hs, ok_bind. unfold run_handler. rewrite ok_bind.
  change (set_cli w (move_to_end (cli w) c) m') with
    (set_cli (set_cli w (move_to_end (cli w) c) (mm w)) (cli (set_cli w (move_to_end (cli w) c) (mm w))) m').
  rewrite Hrun, ok_bind. eexists _, bs. split; [done|].
  pose proof (world_sent _ c (encode flags (conid x) (remote_addr (con_addr x)) bs) m' Hw1 Hm) as Hw2.
  rewrite Hxa in *. split; [by destruct Hw2|]. split; [|split; [done|split; [done|done]]].
  set (w2 := set_writers _ _ _) in *.
  rewrite (found (cli w2) c x ca (i_client _ Hw2) Hx Hxa Hca). by apply (uses_move w).
Qed.

Lemma world_lent w data len :
  world_ok w → lent w = None → 0 ≤ len ≤ udp_mtu (cli w) → mapped (mm w) data len → apart w data len = true →
  world_ok (set_lent w (Some (data, len))).
Proof.
  intros [] Hl Hlen Hm Ha. constructor; try done; cbn [lent set_lent mm cli job].
  - intros c p Hp. change (writer_out w c = Some p) in Hp. split; [by apply (i_out0 c)|]. intros q k [= <- <-].
    apply disjoint_b_ok. unfold apart in Ha.
    exact (writers_forallb w (λ p, disjoint_b p (udpgw_mtu (cli w)) data len) c p Ha Hp).
  - intros q k [= <- <-]. done.
  - intros c Hc. destruct (i_job0 c Hc) as (x & _ & H & _). congruence.
Qed.

(** With the identifiers all in use. *)
Lemma submit_reuse w c x rest ca by_addr :
  world_ok w → connections_list (cli w) = c :: rest → connections (cli w) !! c = Some x →
  let o' := mk (udp_mtu (cli w)) (max_connections (cli w)) (send_buffer_size (cli w)) (udpgw_mtu (cli w))
             (pp_mtu (cli w)) by_addr (connections_tree_by_conid (cli w)) (connections_list (cli w))
             (num_connections (cli w)) (next_conid (cli w)) (keepalive_sending (cli w)) (have_server (cli w))
             (<[c := readdress x ca]> (connections (cli w))) in
  client_ok o' → world_ok (set_cli w o' (mm w)).
Proof.
  intros Hw Hl Hx o' Ho. apply world_readdress; try done. intros d. cbn [connections o'].
  rewrite lookup_insert. case_decide as E; [subst d; by rewrite Hx|]. by destruct (connections (cli w) !! d).
Qed.

(** With a new connection. *)
Lemma submit_new w ca flags data len c id ta ti :
  world_ok w → lent w = Some (data, len) → job w = None → connections (cli w) !! c = None →
  let o' := mk (udp_mtu (cli w)) (max_connections (cli w)) (send_buffer_size (cli w)) (udpgw_mtu (cli w))
              (pp_mtu (cli w)) ta ti (connections_list (cli w) ++ [c]) (num_connections (cli w) + 1) id
              (keepalive_sending (cli w)) (have_server (cli w))
              (<[c := mkcon ca flags data len id true]> (connections (cli w))) in
  client_ok o' →
  run_calls do_call (set_cli w o' (mm w)) [Conn_Init c]
    = Ok (set_writers (set_cli w o' (mm w)) (<[c := mkwr None []]> (writers w)) (Some c)) ∧
  world_ok (set_writers (set_cli w o' (mm w)) (<[c := mkwr None []]> (writers w)) (Some c)).
Proof.
  intros Hw Hl Hj Hc o' Ho. assert (Hwc : writers w !! c = None).
  { destruct (writers w !! c) eqn:E; [|done]. destruct (proj1 (i_writers _ Hw c)) as [x Hx]; [by eexists | congruence]. }
  split.
  { cbn [run_calls do_call]. cbn [writers set_cli send]. rewrite (i_send _ Hw), Hwc. done. }
  destruct Hw. constructor; try done; cbn [writers set_writers set_cli cli mm lent job connections o'].
  - intros d. rewrite !lookup_insert. case_decide; [by split; eexists | done].
  - intros d p. unfold writer_out. cbn [writers set_writers]. rewrite lookup_insert.
    case_decide; [done|]. apply i_out0.
  - intros d [= <-]. rewrite !lookup_insert, !decide_True by done. eexists. split; [done|]. by rewrite Hl.
  - intros d x. rewrite lookup_insert. case_decide as E; intros Hx.
    + subst d. injection Hx as <-. by rewrite bool_decide_true.
    + rewrite (i_first0 d x Hx), Hj. rewrite !bool_decide_false by congruence. done.
Qed.

Lemma submit_ok w local remote dns data len alloc flow_ok r :
  world_ok w → uses_ok w → step w (Submit local remote dns data len alloc flow_ok) = Some r →
  ∃ w' bs, r = Ok w' ∧ world_ok w' ∧ uses_ok w' ∧ load (mm w) data (Z.to_nat len) = Ok bs ∧
    submitted w (mkca local remote) dns data len bs alloc flow_ok w'.
Proof.
  intros Hw Hu Hs. cbn [step] in Hs. case_if; [|done]. injection Hs as <-.
  destruct (ip_addr_b_ok local) as [Hli Hlt]; [done|]. destruct (ip_addr_b_ok remote) as [Hri Hrt]; [done|].
  assert (Hl : lent w = None) by (by destruct (lent w)).
  assert (Hmap : mapped (mm w) data len) by (by apply mapped_b_ok).
  assert (Hj : job w = None).
  { destruct (job w) as [c|] eqn:Hj; [|done]. destruct (i_job _ Hw c Hj) as (x & _ & E & _). congruence. }
  set (ca := mkca local remote). assert (Hca : good_ca ca) by done.
  pose proof (world_lent w data len Hw Hl ltac:(lia) Hmap ltac:(done)) as Hw0.
  assert (Hu0 : uses_ok (set_lent w (Some (data, len)))) by done.
  set (w0 := set_lent w (Some (data, len))) in *.
  assert (Hbs : ∃ bs, load (mm w) data (Z.to_nat len) = Ok bs).
  { apply load_mapped. by rewrite Z2Nat.id by lia. }
  destruct Hbs as [bs Hbs]. set (fl := if dns then UDPGW_CLIENT_FLAG_DNS else 0).
  assert (Hfl : fl = 0 ∨ fl = UDPGW_CLIENT_FLAG_DNS) by (unfold fl; destruct dns; auto).
  unfold submitted, SubmitPacket. rewrite (c_assert_true _ _ Hlt), (c_assert_true _ _ Hrt). do 2 run_assert.
  fold fl. cbv zeta. fold ca.
  pose proof (find_by_conaddr (cli w) (i_client _ Hw) ca (good_is_ca _ Hca)) as Hf.
  destruct (find_connection_by_conaddr (cli w) ca) as [c|] eqn:Hfind; cbn [andb].
  - destruct Hf as [Hc Hcaddr]. destruct (listed _ (i_client _ Hw) c Hc) as (x & Hx & Hxo).
    assert (Hxa : con_addr x = ca) by (unfold conaddr_of in Hcaddr; by rewrite Hx in Hcaddr).
    rewrite ok_bind. change (connections (move_to_end (cli w) c)) with (connections (cli w)). rewrite Hx.
    cbn [or_fault]. rewrite ok_bind.
    destruct (submit_send w0 c x ca fl data len Hw0 Hu0 eq_refl Hx Hxa) as (w' & bs' & Hrun & Hw' & Hu' & Hbs' & Hc' & Hwr).
    exists w', bs'. split; [exact Hrun|]. split; [done|]. split; [done|]. split; [done|].
    exists x. split; [done|]. split; [done|]. split; [exact Hc' | exact Hwr].
  - destruct (Z.eqb_spec (num_connections (cli w)) (max_connections (cli w))) as [Hfull|Hfull]; cbn [negb].
    + destruct (reuse_ok (cli w) ca (i_client _ Hw) Hca Hfind) as (c & rest & x & ta & Hlist & Hx & Hre & Ho').
      { pose proof (k_max _ (i_client _ Hw)). lia. }
      cbv zeta in Hre, Ho'. rewrite Hre, !ok_bind.
      set (o' := mk _ _ _ _ _ ta _ _ _ _ _ _ _) in *.
      pose proof (submit_reuse w0 c x rest ca ta Hw0 Hlist Hx Ho') as Hw1. set (w1 := set_cli w0 _ _) in Hw1.
      assert (Hx1 : connections (cli w1) !! c = Some (readdress x ca)) by apply lookup_insert_eq.
      destruct (submit_send w1 c (readdress x ca) ca (Z.lor fl UDPGW_CLIENT_FLAG_REBIND) data len Hw1 Hu0 eq_refl Hx1 eq_refl)
        as (w' & bs' & Hrun & Hw' & Hu' & Hbs' & Hc' & Hwr).
      exists w', bs'. split.
      { change (connections (move_to_end o' c)) with (connections (cli w1)). rewrite Hx1. cbn [or_fault].
        rewrite ok_bind. exact Hrun. }
      split; [done|]. split; [done|]. split; [done|]. exists c, x.
      split; [by rewrite <- Hu, Hlist|]. split; [done|]. split; [exact Hc' | exact Hwr].
    + rewrite ok_bind. assert (Hn : num_connections (cli w) < max_connections (cli w)).
      { pose proof (k_num_max _ (i_client _ Hw)). lia. }
      assert (Huse : ∀ w', world_ok w' → uses w' = uses w → connections_list (cli w') = connections_list (cli w) →
        connections (cli w') = connections (cli w) →
        uses_ok (use w' (find_connection_by_conaddr (cli w') ca)) ∧ use w' (find_connection_by_conaddr (cli w') ca) = w').
      { intros w' Hw' Hus Hls Hcs. pose proof (find_by_conaddr (cli w') (i_client _ Hw') ca (good_is_ca _ Hca)) as Hf'.
        destruct (find_connection_by_conaddr (cli w') ca) as [d|].
        - destruct Hf' as [Hd Hda]. rewrite Hls in Hd. destruct (Hf d Hd). unfold conaddr_of in *. by rewrite Hcs in Hda.
        - split; [|unfold use; cbn [option_list]; rewrite app_nil_r; by destruct w'].
          unfold uses_ok, use. cbn [uses cli option_list]. by rewrite app_nil_r, Hus, Hls, Hu. }
      destruct alloc as [c|].
      * assert (Hc : connections (cli w) !! c = None) by (by destruct (connections (cli w) !! c)).
        destruct (init_ok (cli w) ca fl data len c flow_ok (i_client _ Hw) Hca Hfl ltac:(lia) Hn Hfind Hc)
          as (id & o' & -> & Ho' & Eo'). rewrite !ok_bind. unfold run_handler. rewrite ok_bind.
        destruct flow_ok.
        -- change (cli w) with (cli w0) in Eo'. change (mm w) with (mm w0). rewrite Eo' in Ho' |- *.
           destruct (submit_new w0 ca fl data len c id _ _ Hw0 eq_refl Hj Hc Ho') as [-> Hw1].
           rewrite ok_bind. set (w1 := set_writers _ _ _) in *.
           assert (Hx1 : connections (cli w1) !! c = Some (mkcon ca fl data len id true)) by apply lookup_insert_eq.
           rewrite (found (cli w1) c _ ca (i_client _ Hw1) Hx1 eq_refl (good_is_ca _ Hca)).
           eexists _, bs. split; [done|]. split; [by destruct Hw1|]. split; [|split; [done|split; [done|by eexists]]].
           unfold uses_ok. change (connections_list (cli w) ++ [c] = remove_dups (uses w ++ [c])).
           rewrite remove_dups_snoc, <- Hu. f_equal. symmetry.
           assert (c ∉ connections_list (cli w)) as Hnc by (rewrite (k_list _ (i_client _ Hw)), Hc; by intros []).
           revert Hnc. generalize (connections_list (cli w)). clear. induction l as [|y l IH]; [done|].
           intros [Hne Hnc]%not_elem_of_cons. cbn [Tree.Remove]. rewrite bool_decide_false by done. f_equal. auto.
        -- cbn [run_calls]. rewrite ok_bind. subst o'.
           assert (Hw1 : world_ok (set_cli w0 (set_next_conid (cli w) id) (mm w))).
           { apply (world_readdress w0); try done. intros d. cbn. by destruct (connections (cli w) !! d). }
           destruct (Huse _ Hw1 eq_refl eq_refl eq_refl) as [Hu1 Hu2]. rewrite Hu2 in *.
           eexists _, bs. split; [done|]. split; [done|]. done.
      * unfold connection_init. run_assert. rewrite Hfind. do 3 run_assert. rewrite !ok_bind. unfold run_handler.
        rewrite ok_bind. cbn [run_calls]. rewrite ok_bind.
        assert (Hw1 : world_ok (set_cli w0 (cli w) (mm w))) by (by destruct w).
        destruct (Huse _ Hw1 eq_refl eq_refl eq_refl) as [Hu1 Hu2]. rewrite Hu2 in *.
        eexists _, bs. split; [done|]. done.
Qed.

(** ** The other events *)

(** The first job sends the packet it was created for, as the first one, with the flag for rebinding. *)
Lemma first_job_ok w p r :
  world_ok w → uses_ok w → step w (FirstJob p) = Some r →
  ∃ w' c x bs, r = Ok w' ∧ world_ok w' ∧ uses_ok w' ∧ job w = Some c ∧ job w' = None ∧
    connections (cli w) !! c = Some x ∧ load (mm w) (first_data x) (Z.to_nat (first_data_len x)) = Ok bs ∧
    packets w' c = [encode (Z.lor UDPGW_CLIENT_FLAG_REBIND (first_flags x)) (conid x) (remote_addr (con_addr x)) bs] ∧
    ∀ d, d ≠ c → writers w' !! d = writers w !! d.
Proof.
  intros Hw Hu Hs. cbn [step] in Hs. destruct (job w) as [c|] eqn:Hj; [|done]. case_if; [|done].
  injection Hs as <-. destruct (i_job _ Hw c Hj) as (x & Hx & Hl & Hwr).
  unfold good_buffer in *. rewrite Hl in *. zify_bool.
  set (w1 := set_writers w (<[c := mkwr (Some p) []]> (writers w)) None).
  unfold connection_first_job_handler. cbn [cli w1 set_writers]. rewrite Hx. cbn [or_fault]. rewrite ok_bind.
  set (x' := mkcon (con_addr x) (first_flags x) (first_data x) (first_data_len x) (conid x) false).
  set (o2 := set_connections (cli w) (<[c := x']> (connections (cli w)))).
  assert (Ho2 : client_ok o2).
  { assert (Hof : ∀ d, conaddr_of o2 d = conaddr_of (cli w) d ∧ conid_of o2 d = conid_of (cli w) d).
    { intros d. pose proof (of_insert (cli w) c x' d) as [E1 E2]. fold o2 in E1, E2. rewrite E1, E2.
      unfold conaddr_of, conid_of. case_decide as E; [subst d; by rewrite Hx | done]. }
    pose proof (k_con _ (i_client _ Hw) c x Hx) as Hxo.
    destruct (i_client _ Hw). constructor; try done; cbn [connections_list o2 set_connections connections].
    - intros d y. rewrite lookup_insert. case_decide as E; [intros [= <-]; by destruct Hxo | by eauto].
    - intros d. rewrite k_list0, lookup_insert. case_decide as E; [subst d; rewrite Hx; split; by eexists | done].
    - eapply TreeFacts.sorted_ext; [|exact k_addr_sorted0]. intros a b _ _. unfold addr_lt.
      by rewrite (proj1 (Hof a)), (proj1 (Hof b)).
    - eapply TreeFacts.sorted_ext; [|exact k_ids_sorted0]. intros a b _ _. unfold id_lt.
      by rewrite (proj2 (Hof a)), (proj2 (Hof b)). }
  set (w2 := set_writers (set_cli w o2 (mm w)) (<[c := mkwr (Some p) []]> (writers w)) None).
  assert (Hw2 : world_ok w2).
  { destruct Hw. constructor; try done; cbn [w2 writers set_writers set_cli cli mm lent job connections o2 set_connections].
    - intros d. rewrite !lookup_insert. case_decide; [split; intros _; by eexists | done].
    - intros d q. unfold writer_out. cbn [writers set_writers w2]. rewrite lookup_insert. case_decide as E.
      + simpl. intros [= <-]. split; [by apply mapped_b_ok|]. intros q k Hq. rewrite Hl in Hq. injection Hq as <- <-.
        by apply disjoint_b_ok.
      + apply i_out0.
    - intros d y. rewrite lookup_insert. case_decide as E; intros Hy.
      + injection Hy as <-. by rewrite bool_decide_false.
      + rewrite (i_first0 d y Hy), Hj, !bool_decide_false by congruence. done. }
  destruct (send_lent w2 c x' (Z.lor UDPGW_CLIENT_FLAG_REBIND (first_flags x)) (first_data x) (first_data_len x) Hw2 Hl)
    as (m' & cs & bs & Hsend & Hbs & Hm & Hrun); [apply lookup_insert_eq|].
  change (connection_send (cli w2) c x' ?f ?d ?l (writer_out w2 c) (mm w2)) with
    (connection_send o2 c x f d l (writer_out w1 c) (mm w)) in Hsend.
  change (connection_send _ c x _ _ _ _ _) with
    (connection_send o2 c x (Z.lor UDPGW_CLIENT_FLAG_REBIND (first_flags x)) (first_data x) (first_data_len x) (writer_out w1 c) (mm w)).
  rewrite Hsend, ok_bind. unfold run_handler. rewrite ok_bind. cbv zeta in Hrun.
  change (set_cli w1 o2 m') with (set_cli w2 (cli w2) m'). rewrite Hrun.
  eexists _, c, x, bs. split; [done|]. split; [by apply world_sent|]. split; [done|]. split; [done|].
  split; [done|]. split; [done|]. split; [done|].
  assert (Hso : sent_on (writers w2) c (encode (Z.lor UDPGW_CLIENT_FLAG_REBIND (first_flags x)) (conid x')
    (remote_addr (con_addr x')) bs) = <[c := mkwr None [encode (Z.lor UDPGW_CLIENT_FLAG_REBIND (first_flags x)) (conid x)
    (remote_addr (con_addr x)) bs]]> (writers w2)).
  { unfold sent_on. cbn [w2 writers set_writers]. by rewrite lookup_insert_eq. }
  rewrite Hso. split.
  - unfold packets. cbn [writers set_writers]. by rewrite lookup_insert_eq.
  - intros d Hd. cbn [writers set_writers w2]. by rewrite !lookup_insert_ne by done.
Qed.

(** What a packet from the gateway amounts to: the payload, for the connection's addresses. *)
Definition reply (o : t) (data : list Z) : option (ptr * BAddr.t * BAddr.t * list Z) :=
  '(flags, id, data) ← parse_header data;
  '(remote, payload) ← parse_addr flags data;
  if udp_mtu o <? Z.of_nat (length payload) then None else
  c ← find_connection_by_conid o id;
  if bool_decide (remote_addr (conaddr_of o c) = remote)
  then Some (c, local_addr (conaddr_of o c), remote, payload) else None.

Lemma le_value_range l n : Forall is_byte l → (length l = n)%nat → 0 ≤ le_value l < 256 ^ Z.of_nat n.
Proof. intros Hl <-. by apply le_value_bound. Qed.

Lemma parse_addr_is_ip flags data a rest :
  Forall is_byte data → parse_addr flags data = Some (a, rest) → is_ip a.
Proof.
  intros Hd H. unfold parse_addr in H. case_if.
  - destruct (Z.ltb_spec (Z.of_nat (length data)) sizeof_udpgw_addr_ipv6) as [|Hl]; [done|].
    unfold sizeof_udpgw_addr_ipv6 in Hl. injection H as <- <-. unfold BAddr.InitIPv6, BAddr.MakeIPv6.
    rewrite take_take. split; [rewrite length_take; lia|]. split; [by apply Forall_take|].
    apply (le_value_range _ 2); [by apply Forall_take, Forall_drop | rewrite length_take, length_drop; lia].
  - destruct (Z.ltb_spec (Z.of_nat (length data)) sizeof_udpgw_addr_ipv4) as [|Hl]; [done|].
    unfold sizeof_udpgw_addr_ipv4 in Hl. injection H as <- <-. split.
    + apply (le_value_range _ 4); [by apply Forall_take | rewrite length_take; lia].
    + apply (le_value_range _ 2); [by apply Forall_take, Forall_drop | rewrite length_take, length_drop; lia].
Qed.

Lemma recv_handler_ok o data :
  client_ok o → have_server o = true → Forall is_byte data → Z.of_nat (length data) ≤ udpgw_mtu o →
  recv_interface_handler_send o data =
    match reply o data with
    | Some (c, local, remote, payload) =>
        Ok (move_to_end o c, [Recv_Done; Handler_received local remote payload])
    | None => Ok (o, [Recv_Done])
    end ∧
  match reply o data with Some (c, _, _, _) => c ∈ connections_list o | None => True end.
Proof.
  intros Ho Hs Hd Hl. unfold recv_interface_handler_send, reply. rewrite Hs. do 2 run_assert.
  destruct (parse_header data) as [[[flags id] d1]|] eqn:Hh; [|done]. cbn [mbind option_bind].
  assert (Hd1 : Forall is_byte d1).
  { unfold parse_header in Hh. case_if; [done|]. injection Hh as <- <- <-. by apply Forall_drop. }
  destruct (parse_addr flags d1) as [[remote payload]|] eqn:Ha; [|done]. cbn [mbind option_bind].
  case_if; [done|]. pose proof (find_by_conid o Ho id) as Hf.
  destruct (find_connection_by_conid o id) as [c|]; [|done]. cbn [mbind option_bind]. destruct Hf as [Hc _].
  assert (Hri : is_ip remote) by (by eapply parse_addr_is_ip).
  pose proof (conaddr_is_ca o Ho c) as [Hci _]. rewrite order_lex by done. change (Ok ?x ≫= ?f) with (f x). cbv beta.
  case_bool_decide as E.
  - rewrite E. by rewrite (proj2 (lex_eq _ _)).
  - rewrite (proj2 (Z.eqb_neq _ _)); [done|]. intros H0%lex_eq. apply E. by apply key_inj.
Qed.

Lemma world_report w r e : world_ok w → world_ok (report w r e).
Proof. intros []. by constructor. Qed.

Lemma conn_recv_ok w data r :
  world_ok w → uses_ok w → step w (Recv data) = Some r →
  ∃ w', r = Ok w' ∧ world_ok w' ∧ uses_ok w' ∧ writers w' = writers w ∧
    connections (cli w') = connections (cli w) ∧
    received w' = received w ++ match reply (cli w) data with
                                | Some (_, local, remote, payload) => [(local, remote, payload)]
                                | None => []
                                end.
Proof.
  intros Hw Hu Hs. cbn [step] in Hs. case_if; [|done]. injection Hs as <-.
  destruct (recv_handler_ok (cli w) data) as [Hr Hc]; [apply Hw | by rewrite <- (i_server _ Hw) | done | lia |].
  rewrite Hr. destruct (reply (cli w) data) as [[[[c local] remote] payload]|].
  - rewrite ok_bind. unfold run_handler. rewrite ok_bind. cbn [run_calls do_call].
    change (server (set_cli w _ _)) with (server w). rewrite c_assert_true by done. rewrite !ok_bind.
    set (w1 := report (set_cli w (move_to_end (cli w) c) (mm w)) [(local, remote, payload)] 0).
    assert (Hlen : (length (received w) <? length (received w1))%nat = true).
    { apply Nat.ltb_lt. cbn [received w1 report set_cli]. rewrite length_app. simpl. lia. }
    rewrite Hlen. assert (Hlast : last (connections_list (cli w1)) = Some c) by (cbn; apply last_snoc).
    rewrite Hlast. eexists. split; [done|]. split.
    + assert (Hw1 : world_ok w1); [|by destruct Hw1]. apply world_report, world_readdress; try done.
      * by apply move_ok; [apply Hw|].
      * intros d. cbn [connections move_to_end set_indexes]. by destruct (connections (cli w) !! d).
    + split; [by apply (uses_move w)|]. done.
  - rewrite ok_bind. unfold run_handler. rewrite ok_bind. cbn [run_calls do_call].
    change (server (set_cli w _ _)) with (server w). rewrite c_assert_true by done. rewrite !ok_bind.
    change (received (set_cli w (cli w) (mm w))) with (received w). rewrite Nat.ltb_irrefl.
    eexists. split; [done|]. split; [by destruct w|]. split; [done|]. split; [done|]. split; [done|].
    by rewrite app_nil_r.
Qed.

(** Changes of the flags that concern the keepalive packet and the server. *)
Lemma world_flags w o ka srv :
  world_ok w → client_ok o → udp_mtu o = udp_mtu (cli w) → udpgw_mtu o = udpgw_mtu (cli w) →
  connections o = connections (cli w) → keepalive_sending o = ka → have_server o = srv →
  world_ok (set_flags (set_cli w o (mm w)) ka srv (send w) (freeing w)).
Proof.
  intros [] Ho H1 H2 H3 H4 H5. constructor; try done; cbn [cli set_flags set_cli mm writers lent job keepalive server].
  - by rewrite H3.
  - by rewrite H2.
  - by rewrite H1.
  - by rewrite H3.
  - by rewrite H3.
Qed.

Definition world_inv (w : world) : Prop := world_ok w ∧ uses_ok w.

Lemma udpgw_step w e r : world_inv w → step w e = Some r → ∃ w', r = Ok w' ∧ world_inv w'.
Proof.
  intros [Hw Hu] Hs. pose proof (i_client _ Hw) as Ho.
  destruct e as [local remote dns data len alloc flow_ok|p| |c p|m|data| |v| |ok|].
  - destruct (submit_ok _ _ _ _ _ _ _ _ _ Hw Hu Hs) as (w' & bs & -> & H1 & H2 & _). exists w'. by split.
  - destruct (first_job_ok _ _ _ Hw Hu Hs) as (w' & c & x & bs & -> & H1 & H2 & _). exists w'. by split.
  - cbn [step] in Hs. case_if; [|done]. injection Hs as <-. eexists. split; [done|]. split; [|done].
    assert (Hj : job w = None) by (by destruct (job w)). destruct Hw. constructor; try done; cbn [lent set_lent job].
    + intros c p Hp. split; [by apply (i_out0 c)|done].
    + intros c Hc. congruence.
  - cbn [step] in Hs. destruct (writers w !! c) as [x|] eqn:Hx; [|done]. case_if; [|done]. injection Hs as <-.
    unfold good_buffer in *. zify_bool. eexists. split; [done|]. split; [|done].
    destruct Hw. constructor; try done; cbn [writers set_writers mm cli job lent].
    + intros d. rewrite <- i_writers0, lookup_insert. case_decide as E; [|done]. subst d. rewrite Hx. by split; intros _; eexists.
    + intros d q. unfold writer_out. cbn [writers set_writers]. rewrite lookup_insert. case_decide as E; [|apply i_out0].
      simpl. intros [= <-]. split; [by apply mapped_b_ok|]. intros q k Hq. rewrite Hq in *. by apply disjoint_b_ok.
    + intros d Hd. destruct (i_job0 d Hd) as (y & Hy & Hl & Hwr). exists y. split; [done|]. split; [done|].
      rewrite lookup_insert_ne by congruence. done.
  - cbn [step] in Hs. case_if; [|done]. injection Hs as <-. eexists. split; [done|]. split; [|done].
    assert (Hl : lent w = None) by (by destruct (lent w)).
    destruct Hw. constructor; try done; cbn [mm set_cli lent cli].
    + intros c p Hp. change (writer_out w c = Some p) in Hp. split; [|congruence]. apply mapped_b_ok.
      by apply (writers_forallb w (λ p, mapped_b m p (udpgw_mtu (cli w))) c).
    + intros q k Hq. congruence.
  - destruct (conn_recv_ok _ _ _ Hw Hu Hs) as (w' & -> & H1 & H2 & _). exists w'. by split.
  - cbn [step] in Hs. case_if; [|done]. injection Hs as <-. unfold decoder_handler_error.
    rewrite c_assert_true by (by rewrite <- (i_server _ Hw)). eexists. split; [done|]. split; [|done].
    by apply world_report; destruct w.
  - cbn [step] in Hs. injection Hs as <-. unfold send_monitor_handler. case_if; [|case_if].
    + eexists. split; [done|]. split; [by destruct w | done].
    + eexists. split; [done|]. split; [by destruct w | done].
    + unfold run_handler. rewrite ok_bind. cbn [run_calls do_call].
      change (keepalive (set_cli _ _ _)) with (keepalive w). rewrite (i_keepalive _ Hw).
      rewrite c_assert_true by (apply negb_true_iff; done). eexists. split; [done|]. split; [|done].
      apply (world_flags w (set_keepalive_sending (cli w) true) true (server w)); try done; [by destruct Ho; constructor | by rewrite (i_server _ Hw)].
  - cbn [step] in Hs. case_if; [|done]. injection Hs as <-. unfold keepalive_if_handler_done.
    rewrite c_assert_true by (by rewrite <- (i_keepalive _ Hw)). eexists. split; [done|]. split; [|done].
    apply (world_flags w (set_keepalive_sending (cli w) false) false (server w)); try done;
      [by destruct Ho; constructor | by rewrite (i_server _ Hw)].
  - cbn [step] in Hs. case_if; [done|]. injection Hs as <-. unfold ConnectServer.
    rewrite c_assert_true by (by rewrite <- (i_server _ Hw), Heqb). destruct ok.
    + rewrite ok_bind. unfold run_handler. rewrite ok_bind. cbn [run_calls do_call].
      change (server (set_cli _ _ _)) with (server w). rewrite Heqb. eexists. split; [done|]. split; [|done].
      apply (world_flags w (set_have_server (cli w) true) (keepalive w) true); try done;
        [by destruct Ho; constructor | by rewrite (i_keepalive _ Hw)].
    + eexists. split; [done|]. split; [by destruct w | done].
  - cbn [step] in Hs. case_if; [|done]. injection Hs as <-. unfold DisconnectServer.
    rewrite c_assert_true by (by rewrite <- (i_server _ Hw)). rewrite ok_bind. unfold run_handler. rewrite ok_bind.
    cbn [run_calls do_call free_server]. change (server (set_cli _ _ _)) with (server w).
    rewrite c_assert_true by done. eexists. split; [done|]. split; [|done].
    apply (world_flags w (set_have_server (cli w) false) (keepalive w) false); try done;
      [by destruct Ho; constructor | by rewrite (i_keepalive _ Hw)].
Qed.

Lemma udpgw_init mtu max buffer m w : init_world mtu max buffer m = Ok w → 0 ≤ mtu ≤ INT_MAX → world_inv w.
Proof.
  intros H Hm. unfold init_world, Init in H. rewrite compute_mtu_value in H by done. inv_ok. zify_bool.
  unfold PACKETPROTO_MAXPAYLOAD, UINT16_MAX, INT_MAX in *.
  destruct (Z.leb_spec (21 + mtu) (2 ^ 31 - 1)); [|lia].
  cbn [run_calls do_call send negb] in *. inv_ok. split; [|done]. constructor; try done.
  - constructor; try done; cbn; unfold UINT16_MAX.
    + case_if; lia.
    + intros c. split; [by intros ?%not_elem_of_nil | intros [? H']; by rewrite lookup_empty in H'].
    + constructor.
    + case_if; lia.
    + case_if; lia.
  - intros c. cbn. by rewrite !lookup_empty.
Qed.

(** Freeing the client frees each connection once, then the server and the send path. *)
Lemma free_connections_ok n : ∀ w,
  freeing w = true → send w = true → NoDup (connections_list (cli w)) → n = length (connections_list (cli w)) →
  (∀ c, c ∈ connections_list (cli w) ↔ is_Some (writers w !! c)) →
  ∃ w', (let '(o, cs) := free_connections n (cli w) in run_calls do_call (set_cli w o (mm w)) cs) = Ok w' ∧
    writers w' = ∅ ∧ freeing w' = true ∧ send w' = true ∧ server w' = server w.
Proof.
  induction n as [|n IH]; intros w Hf Hsnd Hnd Hn Hdom.
  - destruct (connections_list (cli w)) as [|c l] eqn:Hl; [|done]. cbn [free_connections].
    exists (set_cli w (cli w) (mm w)). split; [done|]. split; [|done]. cbn [writers set_cli].
    apply map_empty. intros c. destruct (writers w !! c) eqn:E; [|done].
    assert (c ∈ []) as []%not_elem_of_nil by (apply Hdom; rewrite E; by eexists).
  - destruct (connections_list (cli w)) as [|c l] eqn:Hl; [done|]. cbn [free_connections]. rewrite Hl.
    destruct (connection_free (cli w) c) as [o1 cs1] eqn:Hcf. unfold connection_free in Hcf. injection Hcf as <- <-.
    set (o1 := set_connections _ _).
    assert (Hl1 : connections_list o1 = l) by (cbn; rewrite Hl; cbn; by rewrite bool_decide_true).
    apply NoDup_cons in Hnd as [Hc Hnd].
    set (w1 := set_writers (set_cli w o1 (mm w)) (delete c (writers w)) (if bool_decide (job w = Some c) then None else job w)).
    destruct (IH w1) as (w' & Hrun & Hw'); try done.
    + change (NoDup (connections_list o1)). by rewrite Hl1.
    + change (n = length (connections_list o1)). rewrite Hl1. by injection Hn.
    + intros d. change (d ∈ connections_list o1 ↔ is_Some (delete c (writers w) !! d)). rewrite Hl1, lookup_delete_is_Some, <- Hdom, elem_of_cons.
      naive_solver.
    + exists w'. change (cli w1) with o1 in Hrun. destruct (free_connections n o1) as [o2 cs2].
      split; [|done]. cbn [app run_calls do_call]. cbn [writers set_cli freeing].
      rewrite bool_decide_true by (apply Hdom; by left). cbn [c_assert]. rewrite Hf. cbn [c_assert]. rewrite ok_bind. exact Hrun.
Qed.

Lemma free_connections_server n : ∀ o, have_server (fst (free_connections n o)) = have_server o.
Proof.
  induction n as [|n IH]; intros o; [done|]. cbn [free_connections]. destruct (connections_list o) as [|c l]; [done|].
  destruct (connection_free o c) as [o1 cs1] eqn:Hc. unfold connection_free in Hc. injection Hc as <- <-.
  match goal with |- context [free_connections n ?o1] => specialize (IH o1); destruct (free_connections n o1) end.
  exact IH.
Qed.

Lemma udpgw_free w :
  world_inv w → ∃ w', free_world w = Ok w' ∧ writers w' = ∅ ∧ server w' = false ∧ send w' = false.
Proof.
  intros [Hw _]. pose proof (i_client _ Hw) as Ho. unfold free_world, Free.
  set (n := length (connections_list (cli w))).
  destruct (free_connections_ok n (set_flags w (keepalive w) (server w) (send w) true)) as (w1 & Hr & He & Hf & Hs & Hsrv);
    [done | apply Hw | by apply k_nodup | done | |].
  { intros c. cbn [cli set_flags writers]. by rewrite (k_list _ Ho), (i_writers _ Hw). }
  change (cli (set_flags _ _ _ _ _)) with (cli w) in Hr. pose proof (free_connections_server n (cli w)) as Hos.
  destruct (free_connections n (cli w)) as [o cs]. cbn [fst] in Hos.
  cbn [run_calls do_call]. change (send (set_cli w o (mm w))) with (send w). rewrite (i_send _ Hw). cbn [c_assert].
  rewrite ok_bind, run_calls_app. change (server (set_flags _ _ _ _ _)) with (server w) in Hsrv.
  change (set_flags (set_cli w o (mm w)) (keepalive (set_cli w o (mm w))) (server (set_cli w o (mm w))) true true)
    with (set_flags (set_cli w o (mm w)) (keepalive w) (server w) true true).
  change (mm (set_flags _ _ _ _ _)) with (mm w) in Hr. rewrite (i_send _ Hw) in Hr.
  change (set_flags (set_cli w o (mm w)) (keepalive w) (server w) true true) with
    (set_cli (set_flags w (keepalive w) (server w) true true) o (mm w)). rewrite Hr, ok_bind.
  rewrite Hos, <- (i_server _ Hw). destruct (server w) eqn:Esrv.
  - cbn [app run_calls do_call free_server]. rewrite Hsrv. cbn [c_assert]. rewrite ok_bind.
    cbn [send set_flags server negb writers]. rewrite Hs, He. cbn. by eexists.
  - cbn [app run_calls do_call]. rewrite Hs, Hsrv, He. cbn. by eexists.
Qed.

(** ** The theorems *)

(** The states the client can be in. *)
Definition reachable (mtu max buffer : Z) (m : mem) (w : world) : Prop :=
  0 ≤ mtu ≤ INT_MAX ∧ ∃ w0 es, init_world mtu max buffer m = Ok w0 ∧ run w0 es = Some (Ok w).

Lemma reachable_inv mtu max buffer m w : reachable mtu max buffer m w → world_inv w.
Proof.
  intros (Hm & w0 & es & Hi & Hr). apply udpgw_init in Hi; [|done].
  destruct (run_steps_inv step world_inv udpgw_step es w0 (Ok w) Hi Hr) as (w' & [= <-] & Hw). done.
Qed.

(** C28: No run of the UDP client fails: its connections always have different identifiers below
    the maximum and different pairs of addresses, are in both sorted trees and in the list
    exactly once, and are at most as many as the maximum; and freeing the client at any time
    frees each of them once, the server's objects and the send path. *)
Theorem udpgw_client_safe mtu max buffer m w0 es r :
  0 ≤ mtu ≤ INT_MAX → init_world mtu max buffer m = Ok w0 → run w0 es = Some r →
  ∃ w, r = Ok w ∧ client_ok (cli w) ∧
    ∃ w', free_world w = Ok w' ∧ writers w' = ∅ ∧ server w' = false ∧ send w' = false.
Proof.
  intros Hm Hi Hr. apply udpgw_init in Hi; [|done].
  destruct (run_steps_inv step world_inv udpgw_step es w0 r Hi Hr) as (w & -> & Hw).
  exists w. split; [done|]. split; [apply Hw | by apply udpgw_free].
Qed.

(** The search for an identifier returns, within max_connections iterations, the first
    unused one at or after the next one, cyclically. *)
Theorem find_unused_conid_terminates mtu max buffer m w :
  reachable mtu max buffer m w → num_connections (cli w) < max_connections (cli w) →
  ∃ k, 0 ≤ k ∧ find_unused_conid (cli w) = Ok (set_next_conid (cli w) (nth_id (cli w) k), nth_id (cli w) k) ∧
    0 ≤ nth_id (cli w) k < max_connections (cli w) ∧
    (∀ c, c ∈ connections_list (cli w) → conid_of (cli w) c ≠ nth_id (cli w) k) ∧
    ∀ j, 0 ≤ j < k → ∃ c, c ∈ connections_list (cli w) ∧ conid_of (cli w) c = nth_id (cli w) j.
Proof. intros [Hw _]%reachable_inv. by apply find_unused_ok, i_client. Qed.

(** C26: Submitting a datagram writes exactly its encoding, for the connection of its two
    addresses, to that connection's writer if it can take it, and nothing else; without a
    connection, the least recently used one is given to the addresses and the packet marked
    for rebinding when all identifiers are in use, and otherwise one connection is created
    with the packet as its first one. *)
Theorem submit_packet mtu max buffer m w local remote dns data len alloc flow_ok r :
  reachable mtu max buffer m w → step w (Submit local remote dns data len alloc flow_ok) = Some r →
  connections_list (cli w) = remove_dups (uses w) ∧
  ∃ w' bs, r = Ok w' ∧ load (mm w) data (Z.to_nat len) = Ok bs ∧
    submitted w (mkca local remote) dns data len bs alloc flow_ok w'.
Proof.
  intros [Hw Hu]%reachable_inv Hs. split; [done|].
  destruct (submit_ok _ _ _ _ _ _ _ _ _ Hw Hu Hs) as (w' & bs & -> & _ & _ & Hbs & Hsub). eauto.
Qed.

(** The first job of a new connection always finds room, reads the packet where it was
    submitted, and writes it as the connection's first packet, marked for rebinding. *)
Theorem first_packet mtu max buffer m w p r :
  reachable mtu max buffer m w → step w (FirstJob p) = Some r →
  ∃ w' c x bs, r = Ok w' ∧ job w = Some c ∧ connections (cli w) !! c = Some x ∧
    lent w = Some (first_data x, first_data_len x) ∧
    load (mm w) (first_data x) (Z.to_nat (first_data_len x)) = Ok bs ∧
    packets w' c = [encode (Z.lor UDPGW_CLIENT_FLAG_REBIND (first_flags x)) (conid x) (remote_addr (con_addr x)) bs].
Proof.
  intros [Hw Hu]%reachable_inv Hs.
  destruct (first_job_ok _ _ _ Hw Hu Hs) as (w' & c & x & bs & -> & _ & _ & Hj & _ & Hx & Hbs & Hp & _).
  destruct (i_job _ Hw c Hj) as (x' & Hx' & Hl & _). exists w', c, x, bs. by simplify_eq.
Qed.

Lemma encode_reply o c x flags payload :
  client_ok o → connections o !! c = Some x → flags ∈ [0; 2; 4; 6] → Z.of_nat (length payload) ≤ udp_mtu o →
  reply o (encode flags (conid x) (remote_addr (con_addr x)) payload)
  = Some (c, local_addr (con_addr x), remote_addr (con_addr x), payload).
Proof.
  intros Ho Hx Hf Hl. destruct (k_con _ Ho c x Hx) as [[Hrem _] Hid _].
  pose proof (k_max _ Ho) as Hmax. unfold UINT16_MAX in Hmax.
  destruct (flags_for_ipv6 (remote_addr (con_addr x)) flags Hf) as [Hv6 Hrange].
  unfold reply, encode. rewrite header_parse by lia. cbn [mbind option_bind].
  rewrite addr_parse by done. cbn [mbind option_bind]. rewrite (proj2 (Z.ltb_ge _ _)) by done.
  pose proof (find_by_conid o Ho (conid x)) as Hfind.
  assert (Hc : c ∈ connections_list o) by (rewrite (k_list _ Ho), Hx; by eexists).
  assert (Hcid : conid_of o c = conid x) by (unfold conid_of; by rewrite Hx).
  destruct (find_connection_by_conid o (conid x)) as [d|]; [|by destruct (Hfind c Hc)].
  destruct Hfind as [Hd Hdid]. assert (d = c) as -> by (apply (ids_distinct o Ho); congruence).
  cbn [mbind option_bind]. unfold conaddr_of. rewrite Hx. by rewrite bool_decide_true.
Qed.

(** C27: A packet from the gateway is passed to the user exactly when it parses, fits the MTU
    and its identifier and remote address are those of a connection, and then with that
    connection's addresses; what the client's encoding of a packet on a connection would
    bring back is delivered to that connection's local address. *)
Theorem replies mtu max buffer m w data r :
  reachable mtu max buffer m w → step w (Recv data) = Some r →
  ∃ w', r = Ok w' ∧
    received w' = received w ++ match reply (cli w) data with
                                | Some (_, local, remote, payload) => [(local, remote, payload)]
                                | None => []
                                end ∧
    ∀ c x flags payload, connections (cli w) !! c = Some x → flags ∈ [0; 2; 4; 6] →
      Z.of_nat (length payload) ≤ udp_mtu (cli w) →
      data = encode flags (conid x) (remote_addr (con_addr x)) payload →
      received w' = received w ++ [(local_addr (con_addr x), remote_addr (con_addr x), payload)].
Proof.
  intros [Hw Hu]%reachable_inv Hs. destruct (conn_recv_ok _ _ _ Hw Hu Hs) as (w' & -> & _ & _ & _ & _ & Hr).
  exists w'. split; [done|]. split; [done|]. intros c x flags payload Hx Hf Hl ->.
  by rewrite Hr, (encode_reply _ c x flags payload (i_client _ Hw) Hx Hf Hl).
Qed.

(** *** A client with one connection, and two users of the same remote address *)

Definition ex_remote : BAddr.t := BAddr.IPV4 (8 + 256 * 8) 53.
Definition ex_local1 : BAddr.t := BAddr.IPV4 10 1001.
Definition ex_local2 : BAddr.t := BAddr.IPV4 10 1002.
Definition ex_mem : mem :=
  match store (map_block (map_block ∅ 1000 25) 100 4) 100 [11; 12; 13; 14] with Ok m => m | Fault _ => ∅ end.
Definition ex_world (max : Z) : world :=
  match init_world 4 max 1 ex_mem with
  | Ok w => w
  | Fault _ => mkw (mk 0 0 0 0 0 [] [] [] 0 0 false false ∅) ∅ ∅ None None false false false false [] 0 []
  end.
Definition state_after (max : Z) (es : list event) : world :=
  match run (ex_world max) es with Some (Ok w) => w | _ => ex_world max end.

(** The first user's packet is sent. *)
Definition ex_first : list event :=
  [Submit ex_local1 ex_remote false 100 2 (Some 5) true; FirstJob 1000; Return].

(** The second user's packets: one that finds the buffer full, and one that is sent. *)
Definition ex_second : list event :=
  [Submit ex_local2 ex_remote false 101 2 (Some 6) true; Return; Asked 5 1000;
   Submit ex_local2 ex_remote false 102 2 (Some 6) true; Return].

Lemma ex_reachable max es :
  0 < max → run (ex_world max) es = Some (Ok (state_after max es)) → reachable 4 max 1 ex_mem (state_after max es).
Proof.
  intros Hm Hr. split; [unfold INT_MAX; lia|]. exists (ex_world max), es. split; [|done].
  unfold ex_world, init_world, Init. do 5 run_assert. done.
Qed.

Lemma udpgw_client_safe_witness :
  ∃ w0 w, init_world 4 1 1 ex_mem = Ok w0 ∧ run w0 (ex_first ++ ex_second) = Some (Ok w) ∧
    num_connections (cli w) = 1 ∧ is_ok (free_world w).
Proof.
  assert (Hr : ∃ w, run (ex_world 1) (ex_first ++ ex_second) = Some (Ok w) ∧ num_connections (cli w) = 1).
  { eexists. split; [vm_compute; reflexivity|]. vm_compute. reflexivity. }
  destruct Hr as (w & Hr & Hn). assert (Hi : init_world 4 1 1 ex_mem = Ok (ex_world 1)) by (vm_compute; reflexivity).
  destruct (udpgw_client_safe 4 1 1 ex_mem (ex_world 1) _ _ ltac:(unfold INT_MAX; lia) Hi Hr)
    as (w1 & [= <-] & _ & w' & Hf & _).
  exists (ex_world 1), w. split; [exact Hi|]. split; [exact Hr|]. split; [exact Hn | by exists w'].
Defined.

Lemma find_unused_conid_terminates_witness :
  ∃ k, find_unused_conid (cli (state_after 3 ex_first)) = Ok (set_next_conid (cli (state_after 3 ex_first)) 1, 1)
    ∧ 1 = nth_id (cli (state_after 3 ex_first)) k.
Proof.
  destruct (find_unused_conid_terminates 4 3 1 ex_mem (state_after 3 ex_first)) as (k & _ & Hf & _).
  - apply ex_reachable; [lia | vm_compute; reflexivity].
  - vm_compute. reflexivity.
  - assert (Hv : find_unused_conid (cli (state_after 3 ex_first)) = Ok (set_next_conid (cli (state_after 3 ex_first)) 1, 1))
      by (vm_compute; reflexivity).
    exists k. split; [exact Hv|]. rewrite Hf in Hv.
    symmetry. exact (f_equal (λ r : result (t * Z), match r with Ok p => snd p | Fault _ => 0 end) Hv).
Defined.

Lemma submit_packet_witness :
  ∃ w', step (state_after 1 ex_first) (Submit ex_local2 ex_remote true 101 2 None false) = Some (Ok w') ∧
    connections_list (cli w') = [5] ∧ conaddr_of (cli w') 5 = mkca ex_local2 ex_remote.
Proof.
  assert (Hs : ∃ w', step (state_after 1 ex_first) (Submit ex_local2 ex_remote true 101 2 None false) = Some (Ok w') ∧
    connections_list (cli w') = [5]).
  { eexists. split; [vm_compute; reflexivity|]. vm_compute. reflexivity. }
  destruct Hs as (w' & Hs & Hl). exists w'. split; [exact Hs|]. split; [exact Hl|].
  destruct (submit_packet 4 1 1 ex_mem (state_after 1 ex_first) ex_local2 ex_remote true 101 2 None false (Ok w'))
    as (_ & w'' & bs & Hw & _ & Hsub);
    [apply ex_reachable; [lia | vm_compute; reflexivity] | exact Hs |].
  injection Hw as <-. unfold submitted in Hsub.
  assert (E1 : find_connection_by_conaddr (cli (state_after 1 ex_first)) (mkca ex_local2 ex_remote) = None)
    by (vm_compute; reflexivity).
  assert (E2 : (num_connections (cli (state_after 1 ex_first)) =? max_connections (cli (state_after 1 ex_first))) = true)
    by (vm_compute; reflexivity).
  assert (E3 : head (remove_dups (uses (state_after 1 ex_first))) = Some 5) by (vm_compute; reflexivity).
  rewrite E1, E2 in Hsub. destruct Hsub as (c & x & Hc & _ & Hcs & _). rewrite E3 in Hc. injection Hc as <-.
  unfold conaddr_of. rewrite Hcs, lookup_insert_eq. reflexivity.
Defined.

Lemma first_packet_witness :
  ∃ w', step (state_after 1 (take 1 ex_first)) (FirstJob 1000) = Some (Ok w') ∧
    packets w' 5 = [encode UDPGW_CLIENT_FLAG_REBIND 0 ex_remote [11; 12]].
Proof.
  assert (Hs : ∃ w', step (state_after 1 (take 1 ex_first)) (FirstJob 1000) = Some (Ok w')) by
    (eexists; vm_compute; reflexivity).
  destruct Hs as (w' & Hs). exists w'. split; [exact Hs|].
  destruct (first_packet 4 1 1 ex_mem (state_after 1 (take 1 ex_first)) 1000 (Ok w'))
    as (w'' & c & x & bs & Hw & Hj & Hx & _ & Hbs & Hp);
    [apply ex_reachable; [lia | vm_compute; reflexivity] | exact Hs |].
  injection Hw as <-. assert (Hj' : job (state_after 1 (take 1 ex_first)) = Some 5) by (vm_compute; reflexivity).
  rewrite Hj' in Hj. injection Hj as <-.
  assert (Hx' : connections (cli (state_after 1 (take 1 ex_first))) !! 5
    = Some (mkcon (mkca ex_local1 ex_remote) 0 100 2 0 true)) by (vm_compute; reflexivity).
  rewrite Hx' in Hx. injection Hx as <-.
  assert (Hbs' : load (mm (state_after 1 (take 1 ex_first))) 100 2 = Ok [11; 12]) by (vm_compute; reflexivity).
  cbn [first_data first_data_len] in Hbs. change (Z.to_nat 2) with 2%nat in Hbs. rewrite Hbs' in Hbs.
  injection Hbs as <-. exact Hp.
Defined.

Lemma replies_witness :
  ∃ w', step (state_after 1 (ex_first ++ [Connect true])) (Recv (encode 0 0 ex_remote [7; 7; 7])) = Some (Ok w') ∧
    received w' = [(ex_local1, ex_remote, [7; 7; 7])].
Proof.
  assert (Hs : ∃ w', step (state_after 1 (ex_first ++ [Connect true])) (Recv (encode 0 0 ex_remote [7; 7; 7])) = Some (Ok w'))
    by (eexists; vm_compute; reflexivity).
  destruct Hs as (w' & Hs). exists w'. split; [exact Hs|].
  destruct (replies 4 1 1 ex_mem (state_after 1 (ex_first ++ [Connect true]))
              (encode 0 0 ex_remote [7; 7; 7]) (Ok w')) as (w'' & Hw & _ & Hr);
    [apply ex_reachable; [lia | vm_compute; reflexivity] | exact Hs |].
  injection Hw as <-.
  apply (Hr 5 (mkcon (mkca ex_local1 ex_remote) 0 100 2 0 false) 0 [7; 7; 7]).
  - vm_compute. reflexivity.
  - left.
  - vm_compute. discriminate.
  - reflexivity.
Defined.

Theorem rebind_lost :
  ∃ w w', run (ex_world 1) (ex_first ++ ex_second) = Some (Ok w) ∧
    packets w 5 = [encode UDPGW_CLIENT_FLAG_REBIND 0 ex_remote [11; 12]; encode 0 0 ex_remote [13; 14]] ∧
    run w [Connect true; Recv (encode 0 0 ex_remote [7])] = Some (Ok w') ∧
    received w' = [(ex_local2, ex_remote, [7])].
Proof.
  eexists _, _. split; [vm_compute; reflexivity|]. split; [vm_compute; reflexivity|].
  split; vm_compute; reflexivity.
Qed.

End UdpGwClientFacts.
