(* ===== verification/SocksUdpGwClient.v ===== *)
(** * The UDP gateway client over SOCKS: tun2socks/SocksUdpGwClient.c

    Keeps the UDP gateway client (UdpGwClient.v) connected to its gateway through the SOCKS client (SocksClient.v):
    it opens a SOCKS connection, connects the gateway client to it when it is up, and after an error frees it and opens
    another when a timer has expired.

    [SocksUdpGwClient] has the functions; [SocksUdpGwWorld] runs them with the two clients, each in its own world,
    and the timer; [SocksUdpGwFacts] shows that the three are always used as they require, that there is always either a
    connection or a timer that leads to one, what every event does, and that it can always become connected. *)

From S2P Require Import Prelude CMem Interfaces Addr SocksClient UdpGwClient.

Module SocksUdpGwClient.

(** The parts, [udpgw_client], [socks_client] and [reconnect_timer], are in the world. *)
Record t := mk {
  udp_mtu : Z;
  socks_server_addr : BAddr.t;
  auth_info : list SocksClient.auth_info;
  remote_udpgw_addr : BAddr.t;
  have_socks : bool;
  socks_up : bool;
}.

Definition set_socks (o : t) (have up : bool) : t :=
  mk (udp_mtu o) (socks_server_addr o) (auth_info o) (remote_udpgw_addr o) have up.

Inductive call :=
| Socks_Init                            (** [BSocksClient_Init], successful *)
| Socks_Free
| SetTimer | RemoveTimer                (** of the reconnect timer *)
| Udpgw_ConnectServer (ok : bool)       (** returns [ok] *)
| Udpgw_DisconnectServer
| Udpgw_SubmitPacket (local remote : BAddr.t) (is_dns : bool) (data : ptr) (data_len : Z)
| Udpgw_Free
| Handler_received (local remote : BAddr.t) (data : list Z).

Definition free_socks (o : t) : result (t * list call) :=
  ASSERT have_socks o ;;
  Ok (set_socks o false (socks_up o), (if socks_up o then [Udpgw_DisconnectServer] else []) ++ [Socks_Free]).

(** [running] is [BTimer_IsRunning(&o->reconnect_timer)], [socks_ok] what [BSocksClient_Init] returns. *)
Definition try_connect (o : t) (running socks_ok : bool) : result (t * list call) :=
  ASSERT negb (have_socks o) ;;
  ASSERT negb running ;;
  if socks_ok then Ok (set_socks o true false, [Socks_Init]) else Ok (o, [SetTimer]).

Definition reconnect_timer_handler (o : t) (running socks_ok : bool) : result (t * list call) :=
  ASSERT negb (have_socks o) ;; try_connect o running socks_ok.

(** [connect_ok] is what [UdpGwClient_ConnectServer] returns. *)
Definition socks_client_handler (o : t) (event : SocksClient.event) (connect_ok : bool) : result (t * list call) :=
  ASSERT have_socks o ;;
  match event with
  | SocksClient.EVENT_UP =>
      ASSERT negb (socks_up o) ;;
      if connect_ok then Ok (set_socks o (have_socks o) true, [Udpgw_ConnectServer true])
      else '(o, cs) ← free_socks o; Ok (o, Udpgw_ConnectServer false :: cs ++ [SetTimer])
  | SocksClient.EVENT_ERROR | SocksClient.EVENT_ERROR_CLOSED =>
      '(o, cs) ← free_socks o; Ok (o, cs ++ [SetTimer])
  end.

Definition udpgw_handler_servererror (o : t) : result (t * list call) :=
  ASSERT have_socks o ;;
  ASSERT socks_up o ;;
  '(o, cs) ← free_socks o; Ok (o, cs ++ [SetTimer]).

Definition udpgw_handler_received (o : t) (local remote : BAddr.t) (data : list Z) : list call :=
  [Handler_received local remote data].

(** [udpgw_ok] is what [UdpGwClient_Init] returns; [Ok None] is the failure return. *)
Definition Init (mtu : Z) (server : BAddr.t) (auths : list SocksClient.auth_info) (remote : BAddr.t)
    (udpgw_ok socks_ok : bool) : result (option (t * list call)) :=
  invalid ← BAddr.IsInvalid server;
  ASSERT negb invalid ;;
  ASSERT ((BAddr.type_of remote =? BADDR_TYPE_IPV4) || (BAddr.type_of remote =? BADDR_TYPE_IPV6)) ;;
  if negb udpgw_ok then Ok None else
  r ← try_connect (mk mtu server auths remote false false) false socks_ok;
  Ok (Some r).

Definition Free (o : t) : result (t * list call) :=
  '(o, cs) ← (if have_socks o then free_socks o else Ok (o, []));
  Ok (o, cs ++ [RemoveTimer; Udpgw_Free]).

Definition SubmitPacket (o : t) (local remote : BAddr.t) (is_dns : bool) (data : ptr) (data_len : Z) : list call :=
  [Udpgw_SubmitPacket local remote is_dns data data_len].

End SocksUdpGwClient.

Module SocksUdpGwWorld.
Import SocksUdpGwClient.

(** [gw] and [socks] are the two clients with their surroundings, [timer] whether the reconnect timer is running,
    [received] the datagrams given to the user, and [attempts] the number of SOCKS connections tried. *)
Record world := mkw {
  cli : t;
  gw : UdpGwClientWorld.world;
  socks : option SocksWorld.world;
  timer : bool;
  received : list (BAddr.t * BAddr.t * list Z);
  attempts : nat;
}.

Definition set_cli (w : world) (o : t) : world := mkw o (gw w) (socks w) (timer w) (received w) (attempts w).
Definition set_gw (w : world) (g : UdpGwClientWorld.world) : world :=
  mkw (cli w) g (socks w) (timer w) (received w) (attempts w).
Definition set_conn (w : world) (s : option SocksWorld.world) (t : bool) : world :=
  mkw (cli w) (gw w) s t (received w) (attempts w).

(** A call of the gateway client; [None] is one that it does not allow. *)
Definition gw_call (w : world) (e : UdpGwClientWorld.event) : result world :=
  r ← or_fault AssertFailed (UdpGwClientWorld.step (gw w) e);
  g ← r; Ok (set_gw w g).

(** Nothing of a SOCKS client is left. *)
Definition released (s : SocksWorld.world) : bool :=
  negb (SocksWorld.connector s) && negb (SocksWorld.con s) && negb (SocksWorld.control_io s) && negb (SocksWorld.up_io s).

(** The gateway client uses the interfaces of the SOCKS client while it is connected: they have to be there when it is
    connected, and it has to be disconnected before they are freed.  [alloc] and [flow_ok] are for a packet submitted. *)
Definition do_call (alloc : option ptr) (flow_ok : bool) (w : world) (c : call) : result world :=
  match c with
  | Socks_Init =>
      ASSERT bool_decide (socks w = None) ;;
      s ← SocksWorld.init_world (socks_server_addr (cli w)) (auth_info (cli w)) (remote_udpgw_addr (cli w));
      Ok (mkw (cli w) (gw w) (Some s) (timer w) (received w) (S (attempts w)))
  | Socks_Free =>
      s ← or_fault AssertFailed (socks w);
      ASSERT negb (UdpGwClientWorld.server (gw w)) ;;
      s ← SocksWorld.free_world s;
      ASSERT released s ;;
      Ok (set_conn w None (timer w))
  | SetTimer => Ok (set_conn w (socks w) true)
  | RemoveTimer => Ok (set_conn w (socks w) false)
  | Udpgw_ConnectServer ok =>
      s ← or_fault AssertFailed (socks w);
      ASSERT SocksWorld.up_io s ;;
      gw_call w (UdpGwClientWorld.Connect ok)
  | Udpgw_DisconnectServer => gw_call w UdpGwClientWorld.Disconnect
  | Udpgw_SubmitPacket l r d p n => gw_call w (UdpGwClientWorld.Submit l r d p n alloc flow_ok)
  | Udpgw_Free => g ← UdpGwClientWorld.free_world (gw w); Ok (set_gw w g)
  | Handler_received l r d =>
      Ok (mkw (cli w) (gw w) (socks w) (timer w) (received w ++ [(l, r, d)]) (attempts w))
  end.

Definition run_handler (w : world) (r : result (t * list call)) : result world :=
  '(o, cs) ← r; run_calls (do_call None false) (set_cli w o) cs.

(** The SOCKS client's calls of its handler. *)
Fixpoint socks_reports (w : world) (es : list SocksClient.event) (connect_ok : bool) : result world :=
  match es with
  | [] => Ok w
  | e :: es => w ← run_handler w (socks_client_handler (cli w) e connect_ok); socks_reports w es connect_ok
  end.

(** The gateway client's calls of its two handlers. *)
Definition gw_received (w : world) (ds : list (BAddr.t * BAddr.t * list Z)) : result world :=
  run_calls (do_call None false) w (concat ((λ '(l, r, d), udpgw_handler_received (cli w) l r d) <$> ds)).

Fixpoint gw_errors (w : world) (n : nat) : result world :=
  match n with
  | O => Ok w
  | S n => w ← run_handler w (udpgw_handler_servererror (cli w)); gw_errors w n
  end.

(** Something happens to the SOCKS client; to the gateway client; a packet is submitted; the timer expires. *)
Inductive event :=
| Socks (i : SocksWorld.input) (connect_ok : bool)
| Gw (e : UdpGwClientWorld.event)
| Submit (local remote : BAddr.t) (is_dns : bool) (data : ptr) (data_len : Z) (alloc : option ptr) (flow_ok : bool)
| Timer (socks_ok : bool).

(** What happens to the gateway client by itself. *)
Definition own_event (e : UdpGwClientWorld.event) : bool :=
  match e with
  | UdpGwClientWorld.Submit _ _ _ _ _ _ _ | UdpGwClientWorld.Connect _ | UdpGwClientWorld.Disconnect => false
  | _ => true
  end.

(** After an event of the gateway client's, what it has reported. *)
Definition after_gw (w : world) (g : UdpGwClientWorld.world) : result world :=
  let ds := drop (length (UdpGwClientWorld.received (gw w))) (UdpGwClientWorld.received g) in
  let n := (UdpGwClientWorld.errors g - UdpGwClientWorld.errors (gw w))%nat in
  w ← gw_received (set_gw w g) ds; gw_errors w n.

Definition step (w : world) (e : event) : option (result world) :=
  match e with
  | Socks i connect_ok =>
      match socks w with
      | Some s =>
          match SocksWorld.step s i with
          | Some r =>
              Some (s' ← r;
                    socks_reports (set_conn w (Some s') (timer w))
                      (drop (length (SocksWorld.reports s)) (SocksWorld.reports s')) connect_ok)
          | None => None
          end
      | None => None
      end
  | Gw e =>
      if own_event e then
        match UdpGwClientWorld.step (gw w) e with
        | Some r => Some (g ← r; after_gw w g)
        | None => None
        end
      else None
  | Submit l r d p n alloc flow_ok =>
      if bool_decide (is_Some (UdpGwClientWorld.step (gw w) (UdpGwClientWorld.Submit l r d p n alloc flow_ok))) then
        Some (run_calls (do_call alloc flow_ok) w (SubmitPacket (cli w) l r d p n))
      else None
  | Timer socks_ok =>
      if timer w then
        let w := set_conn w (socks w) false in
        Some (run_handler w (reconnect_timer_handler (cli w) (timer w) socks_ok))
      else None
  end.

Abbreviation run := (run_steps step).

Definition init_world (mtu max buffer : Z) (m : mem) (server : BAddr.t) (auths : list SocksClient.auth_info)
    (remote : BAddr.t) (socks_ok : bool) : result world :=
  g ← UdpGwClientWorld.init_world mtu max buffer m;
  r ← Init mtu server auths remote true socks_ok;
  '(o, cs) ← or_fault AssertFailed r;
  run_calls (do_call None false) (mkw o g None false [] 0) cs.

Definition free_world (w : world) : result world := run_handler w (Free (cli w)).

End SocksUdpGwWorld.

Module SocksUdpGwFacts.
Import SocksUdpGwClient SocksUdpGwWorld.

(** *** What the SOCKS client reports *)

Definition told (cs : list SocksClient.call) : list SocksClient.event :=
  omap (λ c, match c with SocksClient.Report e => Some e | _ => None end) cs.

Lemma socks_told cs : ∀ w w', run_calls SocksWorld.do_call w cs = Ok w' →
  SocksWorld.reports w' = SocksWorld.reports w ++ told cs.
Proof.
  induction cs as [|c cs IH]; intros w w' H; cbn [run_calls] in H; [simplify_eq; by rewrite app_nil_r|].
  apply bind_ok in H as (w1 & Hc & H). rewrite (IH _ _ H).
  destruct c; cbn [SocksWorld.do_call] in Hc; inv_ok; try done. cbn. by rewrite <- app_assoc.
Qed.

(** At most one report, and that the client is up only from its last state. *)
Definition few (o : SocksClient.t) (cs : list SocksClient.call) : Prop :=
  told cs = [] ∨ ∃ e, told cs = [e] ∧ (e = SocksClient.EVENT_UP → SocksClient.st o ≠ SocksClient.STATE_UP).

Lemma few_none o cs : told cs = [] → few o cs.
Proof. by left. Qed.

Lemma few_error o cs : told cs = [SocksClient.EVENT_ERROR] → few o cs.
Proof. right. by exists SocksClient.EVENT_ERROR. Qed.

Ltac handler_cases :=
  repeat first [progress inv_ok | case_if | match goal with
    | H : context [match ?x with _ => _ end] |- _ => destruct x eqn:? end].

Ltac few := handler_cases; first [by apply few_none | by apply few_error | idtac].

Lemma connector_few o a b c o' cs : SocksClient.connector_handler o a b c = Ok (o', cs) → few o cs.
Proof. unfold SocksClient.connector_handler. intros H. few. Qed.

Lemma auth_few o o1 a o' cs : SocksClient.auth_finished o1 a = Ok (o', cs) → few o cs.
Proof. unfold SocksClient.auth_finished. intros H. few. Qed.

Lemma receive_none o d n o' cs : SocksClient.start_receive o d n = Ok (o', cs) → told cs = [].
Proof. unfold SocksClient.start_receive, SocksClient.do_receive. intros H. by inv_ok. Qed.

Lemma password_few o o1 ai a o' cs : SocksClient.send_password o1 ai a = Ok (o', cs) → few o cs.
Proof. unfold SocksClient.send_password. intros H. few. Qed.

Lemma hello_few o o1 a o' cs : SocksClient.received_hello o1 a = Ok (o', cs) → few o cs.
Proof.
  unfold SocksClient.received_hello. intros H. few; eauto using auth_few, password_few.
Qed.

Lemma reply_header_few o o1 o' cs : SocksClient.received_reply_header o1 = Ok (o', cs) → few o cs.
Proof.
  unfold SocksClient.received_reply_header. intros H. few;
    match goal with H : SocksClient.start_receive _ _ _ = Ok ?r |- _ =>
      destruct r; apply receive_none in H; by apply few_none end.
Qed.

Lemma password_reply_few o o1 a o' cs : SocksClient.received_password_reply o1 a = Ok (o', cs) → few o cs.
Proof. unfold SocksClient.received_password_reply. intros H. few; eauto using auth_few. Qed.

Lemma recv_few o n a o' cs : SocksClient.recv_handler_done o n a = Ok (o', cs) → few o cs.
Proof.
  unfold SocksClient.recv_handler_done, SocksClient.do_receive. intros H.
  few; eauto using hello_few, reply_header_few, password_reply_few.
  right. exists SocksClient.EVENT_UP. split; [done|]. simpl in *. congruence.
Qed.

Lemma send_few o a o' cs : SocksClient.send_handler_done o a = Ok (o', cs) → few o cs.
Proof.
  unfold SocksClient.send_handler_done, SocksClient.await. intros H. few;
    match goal with H : SocksClient.start_receive _ _ _ = Ok ?r |- _ =>
      destruct r; apply receive_none in H; by apply few_none end.
Qed.

Lemma connection_few o c cs : SocksClient.connection_handler o c = Ok cs → few o cs.
Proof.
  unfold SocksClient.connection_handler. intros H. few. right. by exists SocksClient.EVENT_ERROR_CLOSED.
Qed.

(** The reports of one event. *)
Lemma socks_news s i s' :
  SocksWorld.step s i = Some (Ok s') →
  ∃ new, SocksWorld.reports s' = SocksWorld.reports s ++ new ∧
    (new = [] ∨ ∃ e, new = [e] ∧
       (e = SocksClient.EVENT_UP → SocksClient.st (SocksWorld.cli s) ≠ SocksClient.STATE_UP)).
Proof.
  intros Hs. unfold SocksWorld.step in Hs. case_if; [done|].
  assert (Hrun : ∀ w h, SocksWorld.run_handler w h = Ok s' → SocksWorld.reports w = SocksWorld.reports s →
    (∀ o cs, h = Ok (o, cs) → few (SocksWorld.cli s) cs) →
    ∃ new, SocksWorld.reports s' = SocksWorld.reports s ++ new ∧
    (new = [] ∨ ∃ e, new = [e] ∧
       (e = SocksClient.EVENT_UP → SocksClient.st (SocksWorld.cli s) ≠ SocksClient.STATE_UP))).
  { intros w h Hr Hw Hf. unfold SocksWorld.run_handler in Hr. apply bind_ok in Hr as ([o cs] & Hh & Hr).
    apply socks_told in Hr. simpl in Hr. rewrite Hw in Hr. exists (told cs). split; [done|].
    destruct (Hf _ _ Hh) as [->|(e & -> & He)]; eauto. }
  destruct i as [con_ok alloc| |alloc|bs alloc|closed].
  - case_if; [|done]. simplify_eq. eapply Hrun; eauto using connector_few.
  - case_if; [|done]. simplify_eq. eapply Hrun; eauto using connector_few.
  - destruct (SocksWorld.w_send s) as [[off len]|]; [|done]. simplify_eq. inv_ok.
    eapply Hrun; [eassumption | done | eauto using send_few].
  - destruct (SocksWorld.w_recv s) as [[off len]|]; [|done]. case_if; [|done]. simplify_eq. inv_ok.
    eapply Hrun; [eassumption | done |]. intros o cs Hc. simpl in Hc. apply recv_few in Hc.
    match goal with H : SocksClient.buf_write _ _ _ = Ok ?o1 |- _ =>
      assert (SocksClient.st o1 = SocksClient.st (SocksWorld.cli s)) as Hst
        by (unfold SocksClient.buf_write in H; handler_cases; done) end.
    destruct Hc as [?|(e & ? & He)]; [by left|]. right. exists e. by rewrite <- Hst.
  - case_if; [|done]. simplify_eq. eapply Hrun; [eassumption|done|].
    intros o cs Hc. inv_ok. eauto using connection_few.
Qed.

(** *** What the gateway client reports *)

(** A call that changes nothing of what it reports, nor its server. *)
Definition quiet (c : UdpGwClient.call) : bool :=
  match c with
  | UdpGwClient.Handler_servererror | UdpGwClient.Handler_received _ _ _
  | UdpGwClient.Server_Init | UdpGwClient.Server_Free => false
  | _ => true
  end.

Definition same_reports (g g' : UdpGwClientWorld.world) : Prop :=
  UdpGwClientWorld.received g' = UdpGwClientWorld.received g ∧ UdpGwClientWorld.errors g' = UdpGwClientWorld.errors g ∧
  UdpGwClientWorld.server g' = UdpGwClientWorld.server g.

Lemma quiet_calls cs : forallb quiet cs = true → ∀ g g',
  run_calls UdpGwClientWorld.do_call g cs = Ok g' → same_reports g g'.
Proof.
  induction cs as [|c cs IH]; intros Hq g g' H; cbn [run_calls forallb] in *; [by simplify_eq|].
  apply andb_true_iff in Hq as [Hc Hq]. apply bind_ok in H as (g1 & H1 & H).
  unfold same_reports in *. destruct (IH Hq _ _ H) as (-> & -> & ->).
  destruct c; try done; cbn [UdpGwClientWorld.do_call] in H1; inv_ok; done.
Qed.

Lemma send_quiet o c x f d n out m m' cs : UdpGwClient.connection_send o c x f d n out m = Ok (m', cs) → forallb quiet cs = true.
Proof. unfold UdpGwClient.connection_send. intros H. handler_cases; done. Qed.

Lemma init_quiet o ca f d n a b o' cs : UdpGwClient.connection_init o ca f d n a b = Ok (o', cs) → forallb quiet cs = true.
Proof. unfold UdpGwClient.connection_init. intros H. handler_cases; done. Qed.

Lemma submit_quiet o l r d p n a b wr m o' m' cs :
  UdpGwClient.SubmitPacket o l r d p n a b wr m = Ok (o', m', cs) → forallb quiet cs = true.
Proof.
  unfold UdpGwClient.SubmitPacket. intros H. handler_cases; eauto using send_quiet, init_quiet.
Qed.

Lemma first_job_quiet o c out m o' m' cs :
  UdpGwClient.connection_first_job_handler o c out m = Ok (o', m', cs) → forallb quiet cs = true.
Proof. unfold UdpGwClient.connection_first_job_handler. intros H. handler_cases; eauto using send_quiet. Qed.

Lemma quiet_handler g h g' :
  UdpGwClientWorld.run_handler g h = Ok g' → (∀ o m cs, h = Ok (o, m, cs) → forallb quiet cs = true) → same_reports g g'.
Proof.
  unfold UdpGwClientWorld.run_handler. intros H Hq. apply bind_ok in H as ([[o m] cs] & Hh & H).
  exact (quiet_calls cs (Hq _ _ _ Hh) _ _ H).
Qed.

(** What each event can report. *)
Definition gw_news (g : UdpGwClientWorld.world) (e : UdpGwClientWorld.event) (g' : UdpGwClientWorld.world) : Prop :=
  match e with
  | UdpGwClientWorld.DecoderError =>
      UdpGwClientWorld.received g' = UdpGwClientWorld.received g ∧
      UdpGwClientWorld.errors g' = S (UdpGwClientWorld.errors g) ∧
      UdpGwClientWorld.server g' = true ∧ UdpGwClientWorld.server g = true ∧
      UdpGwClientWorld.cli g' = UdpGwClientWorld.cli g ∧ UdpGwClientWorld.writers g' = UdpGwClientWorld.writers g
  | UdpGwClientWorld.Recv _ =>
      (∃ ds, UdpGwClientWorld.received g' = UdpGwClientWorld.received g ++ ds) ∧
      UdpGwClientWorld.errors g' = UdpGwClientWorld.errors g ∧ UdpGwClientWorld.server g' = UdpGwClientWorld.server g
  | UdpGwClientWorld.Connect _ | UdpGwClientWorld.Disconnect => True
  | _ => same_reports g g'
  end.

Lemma gw_step_news g e g' : UdpGwClientWorld.step g e = Some (Ok g') → gw_news g e g'.
Proof.
  intros H. destruct e as [l r d p n a b|p| |c p|m|data| |v| |ok|]; cbn [UdpGwClientWorld.step gw_news] in *; try done.
  - case_if; [|done]. simplify_eq. apply bind_ok in H as (g1 & H & [= <-]).
    change (same_reports g g1). apply quiet_handler in H; [done|]. intros *. apply submit_quiet.
  - destruct (UdpGwClientWorld.job g) as [c|]; [|done]. case_if; [|done]. simplify_eq.
    apply quiet_handler in H; [done|]. intros *. apply first_job_quiet.
  - case_if; [|done]. by simplify_eq.
  - destruct (_ !! c) as [x|]; [|done]. case_if; [|done]. by simplify_eq.
  - case_if; [|done]. by simplify_eq.
  - case_if; [|done]. simplify_eq. apply bind_ok in H as (g1 & H & H'). 
    assert (∃ ds, UdpGwClientWorld.received g1 = UdpGwClientWorld.received g ++ ds ∧
      UdpGwClientWorld.errors g1 = UdpGwClientWorld.errors g ∧ UdpGwClientWorld.server g1 = UdpGwClientWorld.server g)
      as (ds & Hr & He & Hv).
    { unfold UdpGwClientWorld.run_handler, UdpGwClient.recv_interface_handler_send in H. handler_cases;
        first [by exists []; rewrite app_nil_r | eexists; by split_and!]. }
    injection H' as <-. case_if; (split; [by exists ds | done]).
  - destruct (UdpGwClientWorld.server g) eqn:Hv; [|done]. simplify_eq.
    unfold UdpGwClientWorld.run_handler, UdpGwClient.decoder_handler_error in H. handler_cases. rewrite app_nil_r. done.
  - simplify_eq. apply quiet_handler in H; [done|]. intros * Hm. unfold UdpGwClient.send_monitor_handler in Hm.
    by handler_cases.
  - destruct (UdpGwClientWorld.keepalive g); [|done]. simplify_eq.
    apply quiet_handler in H; [done|]. intros * Hm. by inv_ok.
Qed.

(** *** The invariant *)

Section invariant.
Context (server : BAddr.t) (auths : list SocksClient.auth_info) (remote : BAddr.t).
Context (Hauths : forallb SocksClient.known_auth auths = true) (Hremote : SocksSpec.good_dest remote).
Context (Hserver : BAddr.IsInvalid server = Ok false).

Definition is_up (s : SocksWorld.world) : bool :=
  bool_decide (SocksClient.st (SocksWorld.cli s) = SocksClient.STATE_UP).

(** Either there is a SOCKS client, which is connected to the gateway client when it is up, or the timer is running. *)
Record inv (w : world) : Prop := {
  v_gw : UdpGwClientFacts.world_inv (gw w);
  v_args : socks_server_addr (cli w) = server ∧ auth_info (cli w) = auths ∧ remote_udpgw_addr (cli w) = remote;
  v_conn :
    match socks w with
    | Some s => SocksFacts.Inv auths remote s ∧ SocksWorld.alive s = true ∧ have_socks (cli w) = true ∧
                timer w = false ∧ socks_up (cli w) = is_up s ∧ UdpGwClientWorld.server (gw w) = is_up s
    | None => have_socks (cli w) = false ∧ timer w = true ∧ UdpGwClientWorld.server (gw w) = false
    end;
}.

(** The gateway client after it is disconnected: it keeps its connections, and what they have to send. *)
Definition cut (g : UdpGwClientWorld.world) : UdpGwClientWorld.world :=
  UdpGwClientWorld.set_flags
    (UdpGwClientWorld.set_cli g (UdpGwClient.set_have_server (UdpGwClientWorld.cli g) false) (UdpGwClientWorld.mm g))
    (UdpGwClientWorld.keepalive g) false (UdpGwClientWorld.send g) (UdpGwClientWorld.freeing g).

Lemma gw_disconnect g :
  UdpGwClientFacts.world_inv g → UdpGwClientWorld.server g = true →
  UdpGwClientWorld.step g UdpGwClientWorld.Disconnect = Some (Ok (cut g)) ∧ UdpGwClientFacts.world_inv (cut g).
Proof.
  intros Hg Hs. assert (Hstep : UdpGwClientWorld.step g UdpGwClientWorld.Disconnect = Some (Ok (cut g))).
  { cbn [UdpGwClientWorld.step]. rewrite Hs. unfold UdpGwClientWorld.run_handler, UdpGwClient.DisconnectServer.
    rewrite <- (UdpGwClientFacts.i_server _ (proj1 Hg)), Hs. cbn [c_assert]. rewrite !ok_bind.
    cbn [run_calls UdpGwClient.free_server UdpGwClientWorld.do_call UdpGwClientWorld.server UdpGwClientWorld.set_cli].
    rewrite Hs. cbn [c_assert]. by rewrite ok_bind. }
  split; [done|]. destruct (UdpGwClientFacts.udpgw_step _ _ _ Hg Hstep) as (g' & [= <-] & Hg'). done.
Qed.

(** Freeing the SOCKS client, whatever state it is in. *)
Lemma free_socks_ok w s :
  UdpGwClientFacts.world_inv (gw w) → socks w = Some s → SocksFacts.resources auths remote s →
  have_socks (cli w) = true → UdpGwClientWorld.server (gw w) = socks_up (cli w) →
  ∃ o cs w' g, free_socks (cli w) = Ok (o, cs) ∧ run_calls (do_call None false) (set_cli w o) cs = Ok w' ∧
    o = set_socks (cli w) false (socks_up (cli w)) ∧ w' = mkw o g None (timer w) (received w) (attempts w) ∧
    g = (if socks_up (cli w) then cut (gw w) else gw w) ∧ UdpGwClientFacts.world_inv g ∧
    UdpGwClientWorld.server g = false.
Proof.
  intros Hg Hs Hres Hh Hv. unfold free_socks. rewrite Hh. cbn [c_assert].
  destruct (SocksFacts.free_ok _ _ s Hres) as (s' & Hf & H1 & H2 & H3 & H4).
  assert (Hend : ∀ w1, socks w1 = Some s → UdpGwClientWorld.server (gw w1) = false →
    run_calls (do_call None false) w1 [Socks_Free] = Ok (set_conn w1 None (timer w1))).
  { intros w1 Hs1 Hv1. cbn [run_calls do_call]. rewrite Hs1. cbn [or_fault]. rewrite ok_bind, Hv1. cbn [negb c_assert].
    rewrite Hf, ok_bind. unfold released. by rewrite H1, H2, H3, H4. }
  set (g := if socks_up (cli w) then cut (gw w) else gw w). set (o := set_socks (cli w) false (socks_up (cli w))).
  exists o. eexists. exists (mkw o g None (timer w) (received w) (attempts w)), g. split; [reflexivity|]. subst o g.
  destruct (socks_up (cli w)) eqn:Hu.
  - destruct (gw_disconnect _ Hg Hv) as [Hd Hc].
    assert (∀ o, run_calls (do_call None false) (set_cli w o) [Udpgw_DisconnectServer] = Ok (set_gw (set_cli w o) (cut (gw w))))
      as E by (intros o; cbn [run_calls do_call]; unfold gw_call; cbn [gw set_cli]; by rewrite Hd).
    rewrite run_calls_app, E, ok_bind, Hend by done. done.
  - cbn [app]. rewrite Hend by done. done.
Qed.

(** The connection is lost: the timer runs, and the gateway client has kept what it had. *)
Definition lost (w w' : world) : Prop :=
  socks w' = None ∧ timer w' = true ∧ UdpGwClientWorld.server (gw w') = false ∧ received w' = received w ∧
  UdpGwClient.connections (UdpGwClientWorld.cli (gw w')) = UdpGwClient.connections (UdpGwClientWorld.cli (gw w)) ∧
  UdpGwClient.connections_list (UdpGwClientWorld.cli (gw w')) = UdpGwClient.connections_list (UdpGwClientWorld.cli (gw w)) ∧
  UdpGwClientWorld.writers (gw w') = UdpGwClientWorld.writers (gw w).

(** The ends of the handlers that free the SOCKS client. *)
Lemma lose_ok w s h pre :
  UdpGwClientFacts.world_inv (gw w) → socks w = Some s → SocksFacts.resources auths remote s →
  have_socks (cli w) = true → UdpGwClientWorld.server (gw w) = socks_up (cli w) →
  socks_server_addr (cli w) = server ∧ auth_info (cli w) = auths ∧ remote_udpgw_addr (cli w) = remote →
  h = ('(o, cs) ← free_socks (cli w); Ok (o, pre ++ cs ++ [SetTimer])) →
  (∀ o cs, run_calls (do_call None false) (set_cli w o) (pre ++ cs) = run_calls (do_call None false) (set_cli w o) cs) →
  ∃ w', run_handler w h = Ok w' ∧ inv w' ∧ lost w w'.
Proof.
  intros Hg Hs Hres Hh Hv Hargs -> Hpre.
  destruct (free_socks_ok w s Hg Hs Hres Hh Hv) as (o & cs & w1 & g & Hf & Hr & -> & -> & Hge & Hg' & Hv').
  unfold run_handler. rewrite Hf, !ok_bind, app_assoc, run_calls_app, Hpre, Hr, ok_bind.
  eexists. split; [reflexivity|]. split; [by split|]. unfold lost. simpl. subst g. by destruct (socks_up (cli w)).
Qed.

(** The gateway client after it is connected. *)
Definition joined (g : UdpGwClientWorld.world) : UdpGwClientWorld.world :=
  UdpGwClientWorld.set_flags
    (UdpGwClientWorld.set_cli g (UdpGwClient.set_have_server (UdpGwClientWorld.cli g) true) (UdpGwClientWorld.mm g))
    (UdpGwClientWorld.keepalive g) true (UdpGwClientWorld.send g) (UdpGwClientWorld.freeing g).

Lemma gw_connect g ok :
  UdpGwClientFacts.world_inv g → UdpGwClientWorld.server g = false →
  UdpGwClientWorld.step g (UdpGwClientWorld.Connect ok) = Some (Ok (if ok then joined g else g)) ∧
  UdpGwClientFacts.world_inv (if ok then joined g else g).
Proof.
  intros Hg Hs.
  assert (Hstep : UdpGwClientWorld.step g (UdpGwClientWorld.Connect ok) = Some (Ok (if ok then joined g else g))).
  { cbn [UdpGwClientWorld.step]. rewrite Hs. unfold UdpGwClientWorld.run_handler, UdpGwClient.ConnectServer.
    rewrite <- (UdpGwClientFacts.i_server _ (proj1 Hg)), Hs. cbn [negb c_assert]. destruct ok; rewrite !ok_bind.
    - cbn [run_calls UdpGwClientWorld.do_call UdpGwClientWorld.server UdpGwClientWorld.set_cli].
      rewrite Hs. cbn [negb c_assert]. by rewrite ok_bind.
    - by destruct g. }
  split; [done|]. destruct (UdpGwClientFacts.udpgw_step _ _ _ Hg Hstep) as (g' & [= <-] & Hg'). done.
Qed.

(** What an event does. *)
Definition effect (w : world) (e : event) (w' : world) : Prop :=
  match e with
  | Timer socks_ok =>
      socks w = None ∧ gw w' = gw w ∧ received w' = received w ∧
      if socks_ok then
        timer w' = false ∧ attempts w' = S (attempts w) ∧
        ∃ s, socks w' = Some s ∧ SocksWorld.init_world server auths remote = Ok s
      else timer w' = true ∧ socks w' = None
  | Socks i connect_ok =>
      ∃ s s' new, socks w = Some s ∧ SocksWorld.step s i = Some (Ok s') ∧
        SocksWorld.reports s' = SocksWorld.reports s ++ new ∧
        match new with
        | [] => socks w' = Some s' ∧ timer w' = false ∧ gw w' = gw w ∧ received w' = received w
        | [SocksClient.EVENT_UP] =>
            if connect_ok then
              socks w' = Some s' ∧ timer w' = false ∧ received w' = received w ∧
              UdpGwClientWorld.step (gw w) (UdpGwClientWorld.Connect true) = Some (Ok (gw w'))
            else lost w w'
        | _ => lost w w'
        end
  | Gw UdpGwClientWorld.DecoderError => lost w w'
  | Gw e =>
      UdpGwClientWorld.step (gw w) e = Some (Ok (gw w')) ∧ socks w' = socks w ∧ timer w' = timer w ∧
      ∃ ds, UdpGwClientWorld.received (gw w') = UdpGwClientWorld.received (gw w) ++ ds ∧ received w' = received w ++ ds
  | Submit l r d p n alloc flow_ok =>
      UdpGwClientWorld.step (gw w) (UdpGwClientWorld.Submit l r d p n alloc flow_ok) = Some (Ok (gw w')) ∧
      socks w' = socks w ∧ timer w' = timer w ∧ received w' = received w
  end.

Lemma timer_ok w socks_ok r :
  inv w → step w (Timer socks_ok) = Some r → ∃ w', r = Ok w' ∧ inv w' ∧ effect w (Timer socks_ok) w'.
Proof.
  intros [Hg Hargs Hc] Hs. cbn [step] in Hs. destruct (timer w) eqn:Ht; [|done]. apply (inj Some) in Hs as <-.
  destruct (socks w) as [s|] eqn:Hsk; [destruct_and!; congruence|]. destruct Hc as (Hh & _ & Hv).
  unfold reconnect_timer_handler, try_connect. cbn [cli timer set_conn]. rewrite Hh. cbn [negb c_assert].
  destruct socks_ok; unfold run_handler; rewrite ok_bind.
  - cbn [run_calls do_call]. cbn [socks set_cli set_conn]. rewrite bool_decide_true by done. cbn [c_assert].
    pose proof Hargs as (E1 & E2 & E3).
    cbn [cli set_cli set_conn set_socks socks_server_addr auth_info remote_udpgw_addr]. rewrite E1, E2, E3.
    assert (Hi : ∃ s, SocksWorld.init_world server auths remote = Ok s).
    { unfold SocksWorld.init_world, SocksClient.Init. rewrite Hserver, ok_bind. cbn [negb c_assert].
      assert ((BAddr.type_of remote =? BADDR_TYPE_IPV4) || (BAddr.type_of remote =? BADDR_TYPE_IPV6) = true) as ->
        by (by destruct remote). rewrite Hauths. by eexists. }
    destruct Hi as [s Hi]. rewrite Hi, !ok_bind. eexists. split; [reflexivity|].
    pose proof (SocksFacts.client_init _ _ _ _ Hremote Hi) as [_ HI].
    assert (Hup : is_up s = false ∧ SocksWorld.alive s = true).
    { unfold SocksWorld.init_world in Hi. inv_ok. unfold SocksClient.Init in *. by inv_ok. }
    split; [split; simpl; [done..|]|].
    + destruct Hup as [-> ->]. done.
    + simpl. split_and!; try done. by exists s.
  - eexists. split; [reflexivity|]. split; [by split|]. by split_and!.
Qed.

(** The gateway client changes, but not whether it is connected. *)
Lemma inv_gw w g :
  inv w → UdpGwClientFacts.world_inv g → UdpGwClientWorld.server g = UdpGwClientWorld.server (gw w) → inv (set_gw w g).
Proof. intros [_ ? ?] Hg Hs. split; [done|done|]. cbn [socks set_gw cli timer gw]. by rewrite Hs. Qed.

Lemma inv_received w ds :
  inv w → inv (mkw (cli w) (gw w) (socks w) (timer w) ds (attempts w)).
Proof. intros []. by split. Qed.

Lemma gw_received_ok w ds :
  gw_received w ds = Ok (mkw (cli w) (gw w) (socks w) (timer w) (received w ++ ds) (attempts w)).
Proof.
  unfold gw_received. assert (∀ w', run_calls (do_call None false) w'
    (concat ((λ '(l, r, d), udpgw_handler_received (cli w) l r d) <$> ds)) =
    Ok (mkw (cli w') (gw w') (socks w') (timer w') (received w' ++ ds) (attempts w'))) as H; [|by rewrite H].
  induction ds as [|[[l r] d] ds IH]; intros w'; [by destruct w'; simpl; rewrite app_nil_r|].
  cbn. rewrite IH. simpl. by rewrite <- app_assoc.
Qed.

Lemma submit_event_ok w l r d p n alloc flow_ok res :
  inv w → step w (Submit l r d p n alloc flow_ok) = Some res →
  ∃ w', res = Ok w' ∧ inv w' ∧ effect w (Submit l r d p n alloc flow_ok) w'.
Proof.
  intros Hi Hs. cbn [step] in Hs. case_if; [|done]. apply (inj Some) in Hs as <-.
  match goal with H : is_Some _ |- _ => destruct H as [rg Hg] end.
  destruct (UdpGwClientFacts.udpgw_step _ _ _ (v_gw _ Hi) Hg) as (g & -> & Hg').
  pose proof (gw_step_news _ _ _ Hg) as (_ & _ & Hsame).
  unfold SubmitPacket. cbn [run_calls do_call]. unfold gw_call. rewrite Hg. cbn [or_fault]. rewrite !ok_bind.
  eexists. split; [reflexivity|]. split; [by apply inv_gw | by split_and!].
Qed.

(** What the gateway client reports after an event that is not an error. *)
Lemma quiet_gw_ok w e g ds :
  inv w → UdpGwClientWorld.step (gw w) e = Some (Ok g) →
  UdpGwClientWorld.received g = UdpGwClientWorld.received (gw w) ++ ds →
  UdpGwClientWorld.errors g = UdpGwClientWorld.errors (gw w) →
  UdpGwClientWorld.server g = UdpGwClientWorld.server (gw w) →
  ∃ w', after_gw w g = Ok w' ∧ inv w' ∧
    UdpGwClientWorld.step (gw w) e = Some (Ok (gw w')) ∧ socks w' = socks w ∧ timer w' = timer w ∧
    ∃ ds, UdpGwClientWorld.received (gw w') = UdpGwClientWorld.received (gw w) ++ ds ∧ received w' = received w ++ ds.
Proof.
  intros Hi Hs Hr He Hv. destruct (UdpGwClientFacts.udpgw_step _ _ _ (v_gw _ Hi) Hs) as (g' & [= <-] & Hg).
  unfold after_gw. rewrite Hr, He, drop_app_length, Nat.sub_diag, gw_received_ok, ok_bind. cbn [gw_errors].
  eexists. split; [reflexivity|]. split; [apply (inv_received (set_gw w g)), inv_gw; done|].
  split_and!; try done. by exists ds.
Qed.

Lemma gw_event_ok w e r :
  inv w → step w (Gw e) = Some r → ∃ w', r = Ok w' ∧ inv w' ∧ effect w (Gw e) w'.
Proof.
  intros Hi Hs. cbn [step] in Hs. destruct (own_event e) eqn:Ho; [|done].
  destruct (UdpGwClientWorld.step (gw w) e) as [rg|] eqn:Hg; [|done]. apply (inj Some) in Hs as <-.
  destruct (UdpGwClientFacts.udpgw_step _ _ _ (v_gw _ Hi) Hg) as (g & -> & Hg'). rewrite ok_bind.
  pose proof (gw_step_news _ _ _ Hg) as Hn.
  assert (Hquiet : same_reports (gw w) g → ∃ w', after_gw w g = Ok w' ∧ inv w' ∧
    UdpGwClientWorld.step (gw w) e = Some (Ok (gw w')) ∧ socks w' = socks w ∧ timer w' = timer w ∧
    ∃ ds, UdpGwClientWorld.received (gw w') = UdpGwClientWorld.received (gw w) ++ ds ∧ received w' = received w ++ ds).
  { intros (Hr & He & Hv). apply (quiet_gw_ok w e g []); try done. by rewrite app_nil_r. }
  destruct e; try done; cbn [gw_news effect] in Hn |- *; try exact (Hquiet Hn).
  - destruct Hn as ([ds Hr] & He & Hv). by apply (quiet_gw_ok w _ g ds).
  - destruct Hn as (Hr & He & Hv & Hv0 & Ecli & Ewr). destruct Hi as [_ Hargs Hc].
    destruct (socks w) as [s|] eqn:Hsk; [|destruct_and!; congruence].
    destruct Hc as (HI & Hal & Hh & Ht & Hu & Hsv).
    unfold after_gw. rewrite Hr, He, drop_all, gw_received_ok, ok_bind.
    replace (S (UdpGwClientWorld.errors (gw w)) - UdpGwClientWorld.errors (gw w))%nat with 1%nat by lia.
    cbn [gw_errors]. unfold udpgw_handler_servererror. cbn [cli set_gw]. rewrite Hh, Hu, <- Hsv, Hv0. cbn [c_assert].
    set (w1 := mkw (cli w) g (socks w) (timer w) (received w ++ []) (attempts w)).
    destruct (lose_ok w1 s ('(o, cs) ← free_socks (cli w); Ok (o, cs ++ [SetTimer])) [])
      as (w' & Hw' & Hi' & Hl); try done; simpl; [exact (proj1 HI) | congruence |].
    subst w1. rewrite Hw', ok_bind. exists w'. split; [done|]. split; [done|].
    unfold lost in *. cbn [received gw] in Hl. by rewrite app_nil_r, Ecli, Ewr in Hl.
Qed.

(** The SOCKS client has made progress. *)
Lemma progress_ok w s s' :
  inv w → socks w = Some s → SocksFacts.Inv auths remote s' → SocksWorld.reports s' = SocksWorld.reports s →
  inv (set_conn w (Some s') (timer w)).
Proof.
  intros [Hg Hargs Hc] Hs HI' Hr. rewrite Hs in Hc. destruct Hc as (HI & Hal & Hh & Ht & Hu & Hv).
  assert (Hup : is_up s' = is_up s).
  { unfold is_up. apply bool_decide_ext. destruct HI as (_ & _ & <- & _), HI' as (_ & _ & <- & _). by rewrite Hr. }
  split; [done|done|]. cbn [socks set_conn cli timer gw]. rewrite Hup. split_and!; try done.
  unfold SocksWorld.alive in *. by rewrite Hr.
Qed.

Lemma socks_event_ok w i connect_ok r :
  inv w → step w (Socks i connect_ok) = Some r → ∃ w', r = Ok w' ∧ inv w' ∧ effect w (Socks i connect_ok) w'.
Proof.
  intros Hi Hs. cbn [step] in Hs. destruct (socks w) as [s|] eqn:Hsk; [|done].
  destruct (SocksWorld.step s i) as [rs|] eqn:Hst; [|done]. apply (inj Some) in Hs as <-.
  pose proof Hi as [Hg Hargs Hc]. rewrite Hsk in Hc. destruct Hc as (HI & Hal & Hh & Ht & Hu & Hv).
  destruct (SocksFacts.socks_step _ _ Hauths Hremote s i rs HI Hst) as (s' & -> & HI' & _). rewrite ok_bind.
  destruct (socks_news s i s' Hst) as (new & Hr & Hnew). rewrite Hr, drop_app_length.
  set (w1 := set_conn w (Some s') (timer w)).
  assert (Hlose : ∀ h pre, h = ('(o, cs) ← free_socks (cli w1); Ok (o, pre ++ cs ++ [SetTimer])) →
    (∀ o cs, run_calls (do_call None false) (set_cli w1 o) (pre ++ cs) = run_calls (do_call None false) (set_cli w1 o) cs) →
    ∃ w', run_handler w1 h = Ok w' ∧ inv w' ∧ lost w w').
  { intros h pre Hh' Hpre. apply (lose_ok w1 s' h pre); try done; [exact (proj1 HI')|]. simpl. congruence. }
  destruct Hnew as [->|(e & -> & He)].
  - exists w1. split; [done|]. rewrite app_nil_r in Hr. split; [by eapply progress_ok|].
    exists s, s', []. rewrite app_nil_r. by split_and!.
  - cbn [socks_reports]. unfold socks_client_handler. cbn [cli w1 set_conn]. rewrite Hh. cbn [c_assert].
    assert (Herr : ∃ w', (w ← run_handler w1 ('(o, cs) ← free_socks (cli w); Ok (o, cs ++ [SetTimer])); Ok w) = Ok w' ∧
      inv w' ∧ lost w w').
    { destruct (Hlose ('(o, cs) ← free_socks (cli w); Ok (o, cs ++ [SetTimer])) []) as (w' & Hw' & Hi' & Hl); try done.
      exists w'. by rewrite Hw'. }
    destruct e; cbn [negb c_assert].
    1, 3: destruct Herr as (w' & Hw' & Hi' & Hl); exists w'; split; [exact Hw'|]; split; [done|];
      exists s, s'; eexists; by split_and!.
    specialize (He eq_refl). assert (is_up s = false) as Hd by (by apply bool_decide_false).
    assert (SocksClient.st (SocksWorld.cli s') = SocksClient.STATE_UP) as Hst'.
    { destruct HI' as (_ & _ & <- & _). rewrite Hr. apply elem_of_app. right. by left. }
    assert (is_up s' = true) as Hu' by (by apply bool_decide_true).
    assert (SocksWorld.up_io s' = true) as Hio.
    { destruct HI' as ((_ & _ & _ & _ & -> & _) & _). by apply bool_decide_true. }
    rewrite Hu, Hd in *. cbn [negb c_assert].
    destruct (gw_connect (gw w) connect_ok Hg Hv) as [Hcon Hgc]. destruct connect_ok.
    + unfold run_handler. rewrite ok_bind. cbn [run_calls do_call]. cbn [socks set_cli w1 set_conn or_fault].
      rewrite ok_bind, Hio. cbn [c_assert]. unfold gw_call. cbn [gw set_cli w1 set_conn]. rewrite Hcon.
      cbn [or_fault]. rewrite !ok_bind. eexists. split; [reflexivity|]. split.
      * split; [done..|]. simpl. rewrite Hu'. split_and!; try done.
        unfold SocksWorld.alive in *. rewrite Hr. zify_bool. rewrite !bool_decide_true; [done|..];
          rewrite elem_of_app, list_elem_of_singleton; naive_solver.
      * exists s, s', [SocksClient.EVENT_UP]. by split_and!.
    + destruct (Hlose ('(o, cs) ← free_socks (cli w); Ok (o, Udpgw_ConnectServer false :: cs ++ [SetTimer]))
        [Udpgw_ConnectServer false]) as (w' & Hw' & Hi' & Hl); try done.
      * intros o cs. cbn [app run_calls do_call]. cbn [socks set_cli w1 set_conn or_fault].
        rewrite ok_bind, Hio. cbn [c_assert]. unfold gw_call. cbn [gw set_cli w1 set_conn]. rewrite Hcon.
        cbn [or_fault]. rewrite !ok_bind. done.
      * rewrite Hw', ok_bind. exists w'. split; [done|]. split; [done|].
        exists s, s', [SocksClient.EVENT_UP]. by split_and!.
Qed.

Lemma gateway_step w e r : inv w → step w e = Some r → ∃ w', r = Ok w' ∧ inv w' ∧ effect w e w'.
Proof.
  destruct e; [apply socks_event_ok | apply gw_event_ok | apply submit_event_ok | apply timer_ok].
Qed.

(** *** The start and the end *)

Lemma gateway_init mtu max buffer m socks_ok w :
  0 ≤ mtu ≤ INT_MAX → init_world mtu max buffer m server auths remote socks_ok = Ok w → inv w.
Proof.
  intros Hm Hi. unfold init_world in Hi. apply bind_ok in Hi as (g & Hg & Hi).
  pose proof (UdpGwClientFacts.udpgw_init _ _ _ _ _ Hg Hm) as Hgi.
  assert (Hv : UdpGwClientWorld.server g = false).
  { unfold UdpGwClientWorld.init_world, UdpGwClient.Init in Hg. handler_cases; done. }
  unfold Init, try_connect in Hi. rewrite Hserver, ok_bind in Hi. cbn [negb c_assert] in Hi.
  assert ((BAddr.type_of remote =? BADDR_TYPE_IPV4) || (BAddr.type_of remote =? BADDR_TYPE_IPV6) = true) as E
    by (by destruct remote). rewrite E in Hi. cbn [c_assert have_socks] in Hi.
  set (w0 := mkw (mk mtu server auths remote false false) g None true [] 0).
  assert (H0 : inv w0) by (by split).
  destruct (timer_ok w0 socks_ok _ H0 eq_refl) as (w' & Hr & Hi' & _).
  enough (w' = w) as <- by done. cbn [step w0 timer set_conn] in Hr.
  unfold reconnect_timer_handler, try_connect in Hr. cbn [cli set_conn have_socks negb c_assert timer] in Hr.
  destruct socks_ok; cbn -[SocksWorld.init_world] in Hr, Hi.
  - destruct (SocksWorld.init_world server auths remote); [|done]. cbn in Hr, Hi. by injection Hr as <-; injection Hi as <-.
  - by injection Hr as <-; injection Hi as <-.
Qed.

Lemma gateway_free w :
  inv w → ∃ w', free_world w = Ok w' ∧ socks w' = None ∧ timer w' = false ∧
    UdpGwClientWorld.writers (gw w') = ∅ ∧ UdpGwClientWorld.server (gw w') = false ∧ UdpGwClientWorld.send (gw w') = false.
Proof.
  intros [Hg Hargs Hc]. unfold free_world, run_handler, Free.
  assert (Hend : ∀ w1, UdpGwClientFacts.world_inv (gw w1) → socks w1 = None →
    ∃ w', run_calls (do_call None false) w1 [RemoveTimer; Udpgw_Free] = Ok w' ∧ socks w' = None ∧ timer w' = false ∧
    UdpGwClientWorld.writers (gw w') = ∅ ∧ UdpGwClientWorld.server (gw w') = false ∧ UdpGwClientWorld.send (gw w') = false).
  { intros w1 Hg1 Hs1. destruct (UdpGwClientFacts.udpgw_free _ Hg1) as (g & Hf & H1 & H2 & H3).
    cbn [run_calls do_call]. rewrite ok_bind. cbn [gw set_conn]. rewrite Hf, !ok_bind. eexists. split; [reflexivity|]. done. }
  destruct (socks w) as [s|] eqn:Hs.
  - destruct Hc as (HI & _ & Hh & _ & Hu & Hv). rewrite Hh.
    destruct (free_socks_ok w s Hg Hs (proj1 HI) Hh ltac:(congruence)) as (o & cs & w1 & g & -> & Hr & -> & -> & _ & Hg' & _).
    rewrite !ok_bind, run_calls_app, Hr, ok_bind. by apply Hend.
  - destruct Hc as (-> & _). rewrite !ok_bind. by apply Hend.
Qed.

(** *** Connecting again *)

(** A SOCKS client can fail at any time before it is up. *)
Lemma can_fail s :
  SocksFacts.resources auths remote s → SocksWorld.alive s = true →
  ∃ i s', SocksWorld.step s i = Some (Ok s') ∧ SocksWorld.reports s' = SocksWorld.reports s ++ [SocksClient.EVENT_ERROR].
Proof.
  intros (_ & _ & _ & Hcn & _) Hal.
  destruct (decide (SocksClient.st (SocksWorld.cli s) = SocksClient.STATE_CONNECTING)) as [Hst|Hst].
  - exists SocksWorld.ConnectFailed. eexists. unfold SocksWorld.step. rewrite Hal. cbn [negb].
    rewrite bool_decide_true by done. unfold SocksClient.connector_handler. rewrite bool_decide_true by done.
    cbn [c_assert]. split; [reflexivity | done].
  - exists (SocksWorld.ConEvent false). eexists. unfold SocksWorld.step. rewrite Hal. cbn [negb].
    rewrite Hcn, bool_decide_true by done. unfold SocksClient.connection_handler. rewrite bool_decide_false by done.
    cbn [negb c_assert]. rewrite andb_false_r. split; [reflexivity | done].
Qed.

(** The inputs of a handshake that succeeds lead to a connection. *)
Lemma handshake_ok es : ∀ w s s',
  inv w → socks w = Some s → is_up s = false → SocksWorld.run s es = Some (Ok s') →
  SocksClient.EVENT_UP ∈ SocksWorld.reports s' →
  ∃ es' w', run w es' = Some (Ok w') ∧ UdpGwClientWorld.server (gw w') = true.
Proof.
  assert (Hno : ∀ s, SocksFacts.Inv auths remote s → is_up s = false → SocksClient.EVENT_UP ∉ SocksWorld.reports s).
  { intros s (_ & _ & -> & _) Hu. by apply bool_decide_eq_false in Hu. }
  induction es as [|i es IH]; intros w s s' Hi Hs Hu Hr Hup; cbn [run_steps] in Hr.
  - injection Hr as <-. destruct Hi as [_ _ Hc]. rewrite Hs in Hc. by destruct (Hno _ (proj1 Hc) Hu).
  - destruct (SocksWorld.step s i) as [r|] eqn:Hst; [|done].
    pose proof Hi as [_ _ Hc]. rewrite Hs in Hc. destruct Hc as (HI & _ & _ & _ & _ & Hv).
    destruct (SocksFacts.socks_step _ _ Hauths Hremote s i r HI Hst) as (s1 & -> & HI1 & _).
    assert (Hstep : ∃ r, step w (Socks i true) = Some r) by (cbn [step]; rewrite Hs, Hst; by eexists).
    destruct Hstep as [r Hstep]. destruct (socks_event_ok w i true r Hi Hstep) as (w1 & -> & Hi1 & Heff).
    destruct Heff as (s0 & s2 & new & Hs0 & Hst0 & Hrep & Heff). rewrite Hs in Hs0. injection Hs0 as <-.
    rewrite Hst in Hst0. injection Hst0 as <-.
    destruct (socks_news s i s1 Hst) as (new' & Hrep' & Hnew). rewrite Hrep in Hrep'. apply app_inv_head in Hrep' as <-.
    destruct Hnew as [->|(e & -> & He)].
    + destruct Heff as (Hs1 & _). rewrite app_nil_r in Hrep.
      destruct (IH w1 s1 s' Hi1 Hs1) as (es' & w' & Hr' & Hv'); try done.
      { unfold is_up. apply bool_decide_false. destruct HI1 as (_ & _ & <- & _). rewrite Hrep. by apply Hno. }
      exists (Socks i true :: es'), w'. split; [|done]. cbn [run_steps]. by rewrite Hstep.
    + assert (Hdead : e ≠ SocksClient.EVENT_UP → False).
      { intros Hne. assert (SocksWorld.alive s1 = false) as Hal.
        { unfold SocksWorld.alive. rewrite Hrep. apply andb_false_iff.
          destruct e; [left|done|right]; apply bool_decide_false; intros H; apply H, elem_of_app; right; by left. }
        destruct es as [|i' es]; cbn [run_steps] in Hr.
        - injection Hr as <-. rewrite Hrep, elem_of_app, list_elem_of_singleton in Hup. destruct Hup as [Hup|]; [|congruence].
          by apply (Hno s).
        - unfold SocksWorld.step in Hr. by rewrite Hal in Hr. }
      destruct e; try (by destruct Hdead). destruct Heff as (_ & _ & _ & Hcon).
      exists [Socks i true], w1. cbn [run_steps]. rewrite Hstep. split; [done|].
      assert (Hv0 : UdpGwClientWorld.server (gw w) = false) by congruence.
      destruct (gw_connect (gw w) true (v_gw _ Hi) Hv0) as [Hcon' _]. rewrite Hcon in Hcon'. by injection Hcon' as ->.
Qed.

(** From a state without a connection the timer starts an attempt. *)
Lemma attempt_ok w es s0 s :
  inv w → socks w = None → SocksWorld.init_world server auths remote = Ok s0 →
  SocksWorld.run s0 es = Some (Ok s) → SocksClient.EVENT_UP ∈ SocksWorld.reports s →
  ∃ es' w', run w es' = Some (Ok w') ∧ UdpGwClientWorld.server (gw w') = true.
Proof.
  intros Hi Hs Hs0 Hr Hup. pose proof Hi as [_ _ Hc]. rewrite Hs in Hc. destruct Hc as (_ & Ht & _).
  assert (Hstep : ∃ r, step w (Timer true) = Some r) by (cbn [step]; rewrite Ht; by eexists).
  destruct Hstep as [r Hstep]. destruct (timer_ok w true r Hi Hstep) as (w1 & -> & Hi1 & _ & _ & _ & _ & _ & s1 & Hs1 & H1).
  assert (s1 = s0) as -> by congruence.
  assert (Hup0 : is_up s0 = false) by (unfold SocksWorld.init_world, SocksClient.Init in Hs0; by inv_ok).
  destruct (handshake_ok es w1 s0 s Hi1 Hs1 Hup0 Hr Hup) as (es' & w' & Hr' & Hv).
  exists (Timer true :: es'), w'. cbn [run_steps]. by rewrite Hstep.
Qed.

Lemma recover_ok w es s0 s :
  inv w → SocksWorld.init_world server auths remote = Ok s0 →
  SocksWorld.run s0 es = Some (Ok s) → SocksClient.EVENT_UP ∈ SocksWorld.reports s →
  ∃ es' w', run w es' = Some (Ok w') ∧ UdpGwClientWorld.server (gw w') = true.
Proof.
  intros Hi Hs0 Hr Hup. destruct (socks w) as [s1|] eqn:Hs; [|by eapply attempt_ok].
  pose proof Hi as [_ _ Hc]. rewrite Hs in Hc. destruct Hc as (HI & Hal & _ & _ & _ & Hv).
  destruct (is_up s1) eqn:Hu; [by exists [], w|].
  destruct (can_fail s1 (proj1 HI) Hal) as (i & s2 & Hst & Hrep).
  assert (Hstep : ∃ r, step w (Socks i true) = Some r) by (cbn [step]; rewrite Hs, Hst; by eexists).
  destruct Hstep as [r Hstep]. destruct (socks_event_ok w i true r Hi Hstep) as (w1 & -> & Hi1 & Heff).
  destruct Heff as (s0' & s2' & new & Hs' & Hst' & Hrep' & Heff). rewrite Hs in Hs'. injection Hs' as <-.
  rewrite Hst in Hst'. injection Hst' as <-. rewrite Hrep in Hrep'. apply app_inv_head in Hrep' as <-.
  destruct Heff as (Hn & _). destruct (attempt_ok w1 es s0 s Hi1 Hn Hs0 Hr Hup) as (es' & w' & Hr' & Hv').
  exists (Socks i true :: es'), w'. cbn [run_steps]. by rewrite Hstep.
Qed.

End invariant.

(** *** The theorems *)

(** The states the client can be in. *)
Definition reachable (mtu max buffer : Z) (m : mem) (server : BAddr.t) (auths : list SocksClient.auth_info)
    (remote : BAddr.t) (w : world) : Prop :=
  0 ≤ mtu ≤ INT_MAX ∧ SocksSpec.good_dest remote ∧
  ∃ socks_ok w0 es, init_world mtu max buffer m server auths remote socks_ok = Ok w0 ∧ run w0 es = Some (Ok w).

(** The parameters of a start that succeeds are good. *)
Lemma init_server mtu max buffer m server auths remote socks_ok w :
  init_world mtu max buffer m server auths remote socks_ok = Ok w → BAddr.IsInvalid server = Ok false.
Proof.
  unfold init_world, Init. intros H. apply bind_ok in H as (g & _ & H). apply bind_ok in H as (r & H & _).
  destruct (BAddr.IsInvalid server) as [[|]|]; done.
Qed.

Lemma run_inv mtu max buffer m server auths remote socks_ok w0 es r :
  0 ≤ mtu ≤ INT_MAX → SocksSpec.good_dest remote → forallb SocksClient.known_auth auths = true →
  init_world mtu max buffer m server auths remote socks_ok = Ok w0 → run w0 es = Some r →
  ∃ w, r = Ok w ∧ inv server auths remote w.
Proof.
  intros Hm Hd Hk Hi Hr. pose proof (init_server _ _ _ _ _ _ _ _ _ Hi) as Hs.
  apply (gateway_init server auths remote Hk Hd Hs) in Hi; [|done].
  refine (run_steps_inv step (inv server auths remote) _ es w0 r Hi Hr).
  intros w e r' Hw Hst. destruct (gateway_step server auths remote Hk Hd Hs w e r' Hw Hst) as (w' & -> & Hw' & _). eauto.
Qed.

(** C13: The UDP gateway client over SOCKS, composed with both clients, whatever happens to
    either of them and in whatever order: no call breaks their rules and no assertion fails;
    there is always exactly one of a SOCKS client and a running reconnect timer; the gateway
    client is connected exactly while that SOCKS client is up; and freeing it at any time
    releases both clients and the timer. *)
Theorem gateway_safe mtu max buffer m server auths remote socks_ok w0 es r :
  0 ≤ mtu ≤ INT_MAX → SocksSpec.good_dest remote → forallb SocksClient.known_auth auths = true →
  init_world mtu max buffer m server auths remote socks_ok = Ok w0 → run w0 es = Some r →
  ∃ w, r = Ok w ∧
    (timer w = true ↔ socks w = None) ∧
    (UdpGwClientWorld.server (gw w) = true ↔ ∃ s, socks w = Some s ∧ SocksClient.EVENT_UP ∈ SocksWorld.reports s) ∧
    (∀ s, socks w = Some s → SocksWorld.alive s = true) ∧
    UdpGwClientFacts.client_ok (UdpGwClientWorld.cli (gw w)) ∧
    ∃ w', free_world w = Ok w' ∧ socks w' = None ∧ timer w' = false ∧ UdpGwClientWorld.writers (gw w') = ∅ ∧
      UdpGwClientWorld.server (gw w') = false ∧ UdpGwClientWorld.send (gw w') = false.
Proof.
  intros Hm Hd Hk Hi Hr. destruct (run_inv _ _ _ _ _ _ _ _ _ _ _ Hm Hd Hk Hi Hr) as (w & -> & Hw).
  exists w. split; [done|]. pose proof (gateway_free server auths remote w Hw) as Hf. destruct Hw as [Hg Hargs Hc].
  destruct (socks w) as [s|].
  - destruct Hc as ((_ & _ & Hup & _) & Hal & _ & Ht & _ & Hv). rewrite Ht, Hv. unfold is_up. split_and!; try done.
    + rewrite bool_decide_eq_true, <- Hup. split; [intros ?; by exists s | by intros (? & [= <-] & ?)].
    + by intros ? [= <-].
    + apply Hg.
  - destruct Hc as (_ & Ht & Hv). rewrite Ht, Hv. split_and!; try done.
    + split; [done | by intros (? & ? & _)].
    + apply Hg.
Qed.

(** C14: What every event does, exactly: the timer starts a new SOCKS client, or is set again
    when that fails; the SOCKS client's being up connects the gateway client; an error of
    SOCKS or of the gateway's stream frees the SOCKS client and sets the timer, and the
    gateway client keeps its connections and what they have to send; datagrams go to and
    come from the gateway client unchanged and in order. *)
Theorem gateway_effect mtu max buffer m server auths remote w e r :
  reachable mtu max buffer m server auths remote w → forallb SocksClient.known_auth auths = true →
  step w e = Some r →
  ∃ w', r = Ok w' ∧ effect server auths remote w e w'.
Proof.
  intros (Hm & Hd & socks_ok & w0 & es & Hi & Hr) Hk Hst.
  destruct (run_inv _ _ _ _ _ _ _ _ _ _ _ Hm Hd Hk Hi Hr) as (w1 & [= <-] & Hw).
  destruct (gateway_step server auths remote Hk Hd (init_server _ _ _ _ _ _ _ _ _ Hi) w e r Hw Hst) as (w' & -> & _ & He).
  by exists w'.
Qed.

(** C15: From every state it can be in, the client can become connected to its gateway, if there
    is a handshake the SOCKS client accepts: an attempt that fails leads to the timer, and
    the timer to an attempt. *)
Theorem gateway_recovers mtu max buffer m server auths remote w es s0 s :
  reachable mtu max buffer m server auths remote w → forallb SocksClient.known_auth auths = true →
  SocksWorld.init_world server auths remote = Ok s0 → SocksWorld.run s0 es = Some (Ok s) →
  SocksClient.EVENT_UP ∈ SocksWorld.reports s →
  ∃ es' w', run w es' = Some (Ok w') ∧ UdpGwClientWorld.server (gw w') = true.
Proof.
  intros (Hm & Hd & socks_ok & w0 & es0 & Hi & Hr) Hk Hs0 Hrs Hup.
  destruct (run_inv _ _ _ _ _ _ _ _ _ _ _ Hm Hd Hk Hi Hr) as (w1 & [= <-] & Hw).
  by apply (recover_ok server auths remote Hk Hd (init_server _ _ _ _ _ _ _ _ _ Hi) w es s0 s).
Qed.

(** *** The local proxy, a gateway behind it, and a handshake *)

Definition ex_proxy : BAddr.t := BAddr.IPV4 16777343 14340.
Definition ex_remote : BAddr.t := BAddr.IPV4 16777343 20480.
Definition ex_auths : list SocksClient.auth_info := [SocksClient.auth_none].
Definition ex_handshake : list SocksWorld.input :=
  [SocksWorld.Connected true true; SocksWorld.SendDone true; SocksWorld.Received [5; 0] true; SocksWorld.SendDone true;
   SocksWorld.Received [5; 0; 0; 1] true; SocksWorld.Received [127; 0; 0; 1; 0; 80] true].
Definition ex_world : world :=
  match init_world 4 2 1 ∅ ex_proxy ex_auths ex_remote true with
  | Ok w => w
  | Fault _ => mkw (mk 0 ex_proxy [] ex_remote false false) (UdpGwClientFacts.ex_world 1) None true [] 0
  end.
Definition state_after (es : list event) : world :=
  match run ex_world es with Some (Ok w) => w | _ => ex_world end.

(** Connected, then the gateway sends something that is not a frame, and the timer expires. *)
Definition ex_connect : list event := (λ i, Socks i true) <$> ex_handshake.
Definition ex_lose : list event := ex_connect ++ [Gw UdpGwClientWorld.DecoderError].

Lemma ex_init : init_world 4 2 1 ∅ ex_proxy ex_auths ex_remote true = Ok ex_world.
Proof. vm_compute. reflexivity. Qed.

Lemma ex_run_reachable es w : run ex_world es = Some (Ok w) → reachable 4 2 1 ∅ ex_proxy ex_auths ex_remote w.
Proof.
  intros Hr. split; [unfold INT_MAX; lia|]. split; [done|]. exists true, ex_world, es. split; [exact ex_init | exact Hr].
Qed.

Lemma gateway_safe_witness :
  ∃ w1 w2, run ex_world ex_connect = Some (Ok w1) ∧ UdpGwClientWorld.server (gw w1) = true ∧
    run ex_world ex_lose = Some (Ok w2) ∧ timer w2 = true ∧ socks w2 = None ∧ is_ok (free_world w1).
Proof.
  assert (H1 : ∃ w, run ex_world ex_connect = Some (Ok w) ∧
    SocksWorld.reports <$> socks w = Some [SocksClient.EVENT_UP]) by (eexists; split; [vm_compute; reflexivity|]; reflexivity).
  assert (H2 : ∃ w, run ex_world ex_lose = Some (Ok w) ∧ timer w = true) by (eexists; split; [vm_compute; reflexivity|]; reflexivity).
  destruct H1 as (w1 & Hr1 & Hp1), H2 as (w2 & Hr2 & Ht2). exists w1, w2.
  destruct (gateway_safe 4 2 1 ∅ ex_proxy ex_auths ex_remote true ex_world ex_connect (Ok w1))
    as (w1' & E1 & _ & Hv & _ & _ & wf & Hf & _); [unfold INT_MAX; lia | exact I | reflexivity | exact ex_init | exact Hr1 |].
  destruct (gateway_safe 4 2 1 ∅ ex_proxy ex_auths ex_remote true ex_world ex_lose (Ok w2))
    as (w2' & E2 & Hs & _); [unfold INT_MAX; lia | exact I | reflexivity | exact ex_init | exact Hr2 |].
  injection E1 as <-. injection E2 as <-. split; [exact Hr1|]. split.
  { apply Hv. destruct (socks w1) as [s|]; [|discriminate Hp1]. exists s. split; [reflexivity|].
    injection Hp1 as ->. left. }
  split; [exact Hr2|]. split; [exact Ht2|]. split; [exact (proj1 Hs Ht2) | by exists wf].
Defined.

(** The next attempt, after the connection was lost. *)
Lemma gateway_effect_witness :
  ∃ w w', run ex_world ex_lose = Some (Ok w) ∧ step w (Timer true) = Some (Ok w') ∧
    timer w' = false ∧ attempts w' = S (attempts w) ∧ is_Some (socks w').
Proof.
  assert (H : ∃ w w', run ex_world ex_lose = Some (Ok w) ∧ step w (Timer true) = Some (Ok w'))
    by (eexists _, _; split; [vm_compute; reflexivity|]; vm_compute; reflexivity).
  destruct H as (w & w' & Hr & Hs). exists w, w'. split; [exact Hr|]. split; [exact Hs|].
  destruct (gateway_effect 4 2 1 ∅ ex_proxy ex_auths ex_remote w (Timer true) (Ok w'))
    as (w1 & E & _ & _ & _ & Ht & Ha & s & Hsk & _); [exact (ex_run_reachable _ _ Hr) | reflexivity | exact Hs |].
  injection E as <-. split; [exact Ht|]. split; [exact Ha | by exists s].
Defined.

(** From the middle of a handshake. *)
Lemma gateway_recovers_witness :
  ∃ w es w', run ex_world (take 3 ex_connect) = Some (Ok w) ∧ run w es = Some (Ok w') ∧
    UdpGwClientWorld.server (gw w') = true.
Proof.
  assert (H : ∃ w, run ex_world (take 3 ex_connect) = Some (Ok w)) by (eexists; vm_compute; reflexivity).
  destruct H as (w & Hr).
  assert (Hs : ∃ s0 s, SocksWorld.init_world ex_proxy ex_auths ex_remote = Ok s0 ∧
    SocksWorld.run s0 ex_handshake = Some (Ok s) ∧ SocksWorld.reports s = [SocksClient.EVENT_UP])
    by (eexists _, _; split; [reflexivity|]; split; [vm_compute; reflexivity|]; reflexivity).
  destruct Hs as (s0 & s & Hs0 & Hrs & Hp).
  destruct (gateway_recovers 4 2 1 ∅ ex_proxy ex_auths ex_remote w ex_handshake s0 s) as (es & w' & Hr' & Hv);
    [exact (ex_run_reachable _ _ Hr) | reflexivity | exact Hs0 | exact Hrs | rewrite Hp; left |].
  exists w, es, w'. split; [exact Hr|]. split; [exact Hr' | exact Hv].
Defined.

End SocksUdpGwFacts.
