(* ===== verification/Tun2Socks.v ===== *)
(** * A TCP connection through tun2socks: tun2socks/tun2socks.c

    For each connection that lwip accepts, tun2socks opens one through the SOCKS server and carries
    the bytes both ways: [client_recv_func] buffers what the TCP client sends until SOCKS has taken it,
    and only then widens the receive window; [client_socks_recv_send_out] queues what SOCKS delivers as far as lwip
    takes it, and continues in [client_sent_func].  Either side can close first; the other one stays
    until its data is delivered.

    [TcpClient] has the functions, with the calls they make; [TcpClientWorld] runs them between lwip and
    the SOCKS client, including the SOCKS handlers that run inside of lwip's callbacks when these
    synchronise with the reactor; [TcpClientFacts] shows that nothing is used after it is freed, that no byte is lost or reordered,
    and that a half-closed connection ends. *)

From S2P Require Import Prelude CMem.

Definition TCP_WND : Z := 5840.
Definition CLIENT_SOCKS_RECV_BUF_SIZE : Z := 8192.

(** The result codes of lwip that matter; [ERR_OTHER] is any other error. *)
Inductive err_t := ERR_OK | ERR_MEM | ERR_ABRT | ERR_OTHER.

#[export] Instance err_t_eq_dec : EqDecision err_t.
Proof. solve_decision. Defined.

(** [dst[off .. off + length src) = src] *)
Definition splice (dst : list Z) (off : Z) (src : list Z) : list Z :=
  take (Z.to_nat off) dst ++ src ++ drop (Z.to_nat off + length src) dst.

Module TcpClient.

(** [list_node] is the client's address.  Fields that are not initialised by [listener_accept_func] are set
    when SOCKS comes up. *)
Record tcp_client := mk {
  list_node : ptr;
  client_closed : bool;
  buf : list Z;
  buf_used : Z;
  socks_up : bool;
  socks_closed : bool;
  socks_recv_buf : list Z;
  socks_recv_buf_used : Z;
  socks_recv_buf_sent : Z;
  socks_recv_waiting : bool;
  socks_recv_tcp_pending : Z;
}.

(** What a pointer that notices the end of its object points to: nothing, the variable of the function that is
    running, and whether it was set, or the variable of a function that has returned. *)
Inductive dead_t := Dead_null | Dead_running (killed : bool) | Dead_returned.

(** The client, until it is freed, and the globals.  [dead_client] is the client's; when the client is freed it is kept
    for the function whose variable it points to. *)
Record st := mkst {
  client : option tcp_client;
  num_clients : Z;
  tcp_clients : list ptr;
  dead_client : dead_t;
}.

(** [Tcp_err], [Tcp_recv] and [Tcp_sent] set ([true]) or remove the callbacks of the pcb; the calls with
    a result carry it. *)
Inductive call :=
| Tcp_accepted | Tcp_nagle_disable | Tcp_arg
| Tcp_err (set : bool) | Tcp_recv (set : bool) | Tcp_sent (set : bool)
| Tcp_close (ok : bool) | Tcp_abort
| Tcp_recved (len : Z)
| Tcp_sndbuf | Tcp_write (data : list Z) (err : err_t) | Tcp_output
| Socks_Init | Socks_Free
| Socks_Send (len : Z)            (** from the start of [buf] *)
| Socks_Recv                      (** into [socks_recv_buf] *)
| Pbuf_free
| Free_client.                    (** [free(client)] *)

(** A function on the state that can fail and makes calls. *)
Definition M (A : Type) : Type := st → result (A * st * list call).

#[global] Instance M_ret : MRet M := λ A a s, Ok (a, s, []).
#[global] Instance M_bind : MBind M := λ A B f m s,
  match m s with
  | Fault e => Fault e
  | Ok (a, s, cs) =>
      match f a s with
      | Fault e => Fault e
      | Ok (b, s, cs') => Ok (b, s, cs ++ cs')
      end
  end.

Definition fail {A} (f : fault) : M A := λ s, Fault f.
Definition get : M st := λ s, Ok (s, s, []).
Definition emit (c : call) : M unit := λ s, Ok (tt, s, [c]).
Definition modify (f : st → st) : M unit := λ s, Ok (tt, f s, []).
Definition require (b : bool) : M unit := if b then mret tt else fail AssertFailed.

(** Access to the client; it must not have been freed. *)
Definition get_client : M tcp_client := λ s,
  match client s with Some c => Ok (c, s, []) | None => Fault BadAccess end.
Definition put_client (c : tcp_client) : M unit := λ s,
  match client s with
  | Some _ => Ok (tt, mkst (Some c) (num_clients s) (tcp_clients s) (dead_client s), [])
  | None => Fault BadAccess
  end.

Definition set_client_closed (c : tcp_client) : tcp_client :=
  mk (list_node c) true (buf c) (buf_used c) (socks_up c) (socks_closed c) (socks_recv_buf c)
     (socks_recv_buf_used c) (socks_recv_buf_sent c) (socks_recv_waiting c) (socks_recv_tcp_pending c).

Definition set_socks_closed (c : tcp_client) : tcp_client :=
  mk (list_node c) (client_closed c) (buf c) (buf_used c) (socks_up c) true (socks_recv_buf c)
     (socks_recv_buf_used c) (socks_recv_buf_sent c) (socks_recv_waiting c) (socks_recv_tcp_pending c).

Definition set_buf (c : tcp_client) (b : list Z) (used : Z) : tcp_client :=
  mk (list_node c) (client_closed c) b used (socks_up c) (socks_closed c) (socks_recv_buf c)
     (socks_recv_buf_used c) (socks_recv_buf_sent c) (socks_recv_waiting c) (socks_recv_tcp_pending c).

Definition set_recv (c : tcp_client) (b : list Z) (used sent : Z) (waiting : bool) (pending : Z) : tcp_client :=
  mk (list_node c) (client_closed c) (buf c) (buf_used c) (socks_up c) (socks_closed c) b
     used sent waiting pending.

Definition set_up (c : tcp_client) : tcp_client :=
  mk (list_node c) (client_closed c) (buf c) (buf_used c) true (socks_closed c) (socks_recv_buf c)
     (socks_recv_buf_used c) (socks_recv_buf_sent c) (socks_recv_waiting c) (socks_recv_tcp_pending c).

(** [DEAD_KILL(client->dead_client)], and around a wait [DEAD_ENTER] and [DEAD_LEAVE2]; the callbacks do not
    nest, so that there is no pointer to be restored.  A killed pointer is left as it is. *)
Definition set_dead (s : st) (d : dead_t) : st := mkst (client s) (num_clients s) (tcp_clients s) d.

Definition DEAD_KILL : M unit := λ s,
  match dead_client s with
  | Dead_null => Ok (tt, s, [])
  | Dead_running _ => Ok (tt, set_dead s (Dead_running true), [])
  | Dead_returned => Fault BadAccess
  end.

Definition DEAD_ENTER : M unit := λ s,
  match dead_client s with
  | Dead_null => Ok (tt, set_dead s (Dead_running false), [])
  | _ => Fault BadAccess
  end.

(** It returns [DEAD_KILLED]. *)
Definition DEAD_LEAVE : M bool := λ s,
  match dead_client s with
  | Dead_running killed => Ok (killed, set_dead s (if killed then Dead_returned else Dead_null), [])
  | _ => Fault BadAccess
  end.

Definition client_dealloc : M unit :=
  c ← get_client;
  require (client_closed c) ;;
  require (socks_closed c) ;;
  s ← get;
  require (0 <? num_clients s) ;;
  modify (λ s, mkst None (num_clients s - 1) (filter (λ n, n ≠ list_node c) (tcp_clients s)) (dead_client s)) ;;
  emit Free_client.

(** The callbacks removed before the pcb is freed. *)
Definition remove_callbacks : M unit := emit (Tcp_err false) ;; emit (Tcp_recv false) ;; emit (Tcp_sent false).

(** The functions that close one side and then perhaps the other call each other.  [fuel] bounds the depth of
    the calls: a side is closed only once, so four are enough (see [free_socks_wp]).  [close_ok] is whether lwip's
    [tcp_close] succeeds; it is [true] where no pcb is left to close. *)
Fixpoint client_handle_freed_client (fuel : nat) (close_ok : bool) : M unit :=
  match fuel with
  | O => fail AssertFailed
  | S fuel =>
      c ← get_client;
      require (negb (client_closed c)) ;;
      DEAD_KILL ;;
      put_client (set_client_closed c) ;;
      if (0 <? buf_used c) && negb (socks_closed c) then mret tt
      else if negb (socks_closed c) then client_free_socks fuel close_ok
      else client_dealloc
  end
with client_free_client (fuel : nat) (close_ok : bool) : M unit :=
  match fuel with
  | O => fail AssertFailed
  | S fuel =>
      c ← get_client;
      require (negb (client_closed c)) ;;
      remove_callbacks ;;
      emit (Tcp_close close_ok) ;;
      (if close_ok then mret tt else emit Tcp_abort) ;;
      client_handle_freed_client fuel close_ok
  end
with client_free_socks (fuel : nat) (close_ok : bool) : M unit :=
  match fuel with
  | O => fail AssertFailed
  | S fuel =>
      c ← get_client;
      require (negb (socks_closed c)) ;;
      (if socks_up c && negb (client_closed c) then emit (Tcp_recv false) else mret tt) ;;
      emit Socks_Free ;;
      put_client (set_socks_closed c) ;;
      if socks_up c && ((0 <=? socks_recv_buf_used c) || (0 <? socks_recv_tcp_pending c))
         && negb (client_closed c) then mret tt
      else if negb (client_closed c) then client_free_client fuel close_ok
      else client_dealloc
  end.

Definition depth : nat := 4.

Definition client_abort_client : M unit :=
  c ← get_client;
  require (negb (client_closed c)) ;;
  remove_callbacks ;;
  emit Tcp_abort ;;
  client_handle_freed_client depth true.

Definition client_murder : M unit :=
  c ← get_client;
  (if negb (client_closed c) then
     remove_callbacks ;;
     emit Tcp_abort ;;
     DEAD_KILL ;;
     put_client (set_client_closed c)
   else mret tt) ;;
  c ← get_client;
  (if negb (socks_closed c) then
     emit Socks_Free ;;
     put_client (set_socks_closed c)
   else mret tt) ;;
  client_dealloc.

Definition client_err_func : M unit :=
  c ← get_client;
  require (negb (client_closed c)) ;;
  client_handle_freed_client depth true.

Definition client_send_to_socks : M unit :=
  c ← get_client;
  require (negb (socks_closed c)) ;;
  require (socks_up c) ;;
  require (0 <? buf_used c) ;;
  emit (Socks_Send (buf_used c)).

(** The call of the receive callback without data: the TCP client has closed. *)
Definition client_recv_func_closed (close_ok : bool) : M err_t :=
  c ← get_client;
  require (negb (client_closed c)) ;;
  client_free_client depth close_ok ;;
  mret ERR_ABRT.

(** The call with the data [p], up to the point where it lets other jobs run; [None] for that,
    and otherwise what it returns. *)
Definition client_recv_func (p : list Z) : M (option err_t) :=
  c ← get_client;
  require (negb (client_closed c)) ;;
  let tot_len := Z.of_nat (length p) in
  require (0 <? tot_len) ;;
  if TCP_WND - buf_used c <? tot_len then mret (Some ERR_MEM) else
  let c := set_buf c (splice (buf c) (buf_used c) p) (buf_used c + tot_len) in
  put_client c ;;
  if (buf_used c =? tot_len) && socks_up c then
    require (negb (socks_closed c)) ;;
    client_send_to_socks ;;
    DEAD_ENTER ;;
    mret None
  else emit Pbuf_free ;; mret (Some ERR_OK).

(** Its rest. *)
Definition client_recv_func_resume : M err_t :=
  killed ← DEAD_LEAVE;
  if killed : bool then mret ERR_ABRT else emit Pbuf_free ;; mret ERR_OK.

Definition client_socks_recv_initiate : M unit :=
  c ← get_client;
  require (negb (client_closed c)) ;;
  require (negb (socks_closed c)) ;;
  require (socks_up c) ;;
  require (socks_recv_buf_used c =? -1) ;;
  emit Socks_Recv.

Inductive socks_event := EVENT_ERROR | EVENT_UP | EVENT_ERROR_CLOSED.

Definition client_socks_handler (event : socks_event) (close_ok : bool) : M unit :=
  c ← get_client;
  require (negb (socks_closed c)) ;;
  match event with
  | EVENT_ERROR => client_free_socks depth close_ok
  | EVENT_UP =>
      require (negb (socks_up c)) ;;
      let c := set_recv c (socks_recv_buf c) (-1) (socks_recv_buf_sent c) (socks_recv_waiting c) 0 in
      put_client c ;;
      (if negb (client_closed c) then emit (Tcp_sent true) else mret tt) ;;
      put_client (set_up c) ;;
      (if 0 <? buf_used c then client_send_to_socks else mret tt) ;;
      if negb (client_closed c) then client_socks_recv_initiate else mret tt
  | EVENT_ERROR_CLOSED =>
      require (socks_up c) ;;
      client_free_socks depth close_ok
  end.

Definition client_socks_send_handler_done (data_len : Z) : M unit :=
  c ← get_client;
  require (negb (socks_closed c)) ;;
  require (socks_up c) ;;
  require (0 <? buf_used c) ;;
  require (0 <? data_len) ;;
  require (data_len <=? buf_used c) ;;
  let moved := take (Z.to_nat (buf_used c - data_len)) (drop (Z.to_nat data_len) (buf c)) in
  let c := set_buf c (splice (buf c) 0 moved) (buf_used c - data_len) in
  put_client c ;;
  (if negb (client_closed c) then emit (Tcp_recved data_len) else mret tt) ;;
  if 0 <? buf_used c then emit (Socks_Send (buf_used c))
  else if client_closed c then client_free_socks depth true
  else mret tt.

(** The loop of [client_socks_recv_send_out].  [net] is what [tcp_sndbuf] and [tcp_write] return in each
    iteration, the send buffer being full when it ends; the result is whether [tcp_write] failed. *)
Fixpoint send_loop (net : list (Z * err_t)) : M bool :=
  c ← get_client;
  emit Tcp_sndbuf ;;
  match net with
  | [] => mret false
  | (sndbuf, err) :: net =>
      let to_write := bmin_int (socks_recv_buf_used c - socks_recv_buf_sent c) sndbuf in
      if to_write =? 0 then mret false else
      emit (Tcp_write (take (Z.to_nat to_write) (drop (Z.to_nat (socks_recv_buf_sent c)) (socks_recv_buf c))) err) ;;
      match err with
      | ERR_OK =>
          let sent := socks_recv_buf_sent c + to_write in
          put_client (set_recv c (socks_recv_buf c) (socks_recv_buf_used c) sent (socks_recv_waiting c)
                        (socks_recv_tcp_pending c + to_write)) ;;
          if sent <? socks_recv_buf_used c then send_loop net else mret false
      | ERR_MEM => mret false
      | _ => client_abort_client ;; mret true
      end
  end.

(** [true] is the return value -1: the pcb has been aborted. *)
Definition client_socks_recv_send_out (net : list (Z * err_t)) (output_ok : bool) : M bool :=
  c ← get_client;
  require (negb (client_closed c)) ;;
  require (socks_up c) ;;
  require (0 <? socks_recv_buf_used c) ;;
  require (socks_recv_buf_sent c <? socks_recv_buf_used c) ;;
  require (negb (socks_recv_waiting c)) ;;
  failed ← send_loop net;
  if failed : bool then mret true else
  emit Tcp_output ;;
  if negb output_ok then client_abort_client ;; mret true else
  c ← get_client;
  if socks_recv_buf_sent c <? socks_recv_buf_used c then
    if socks_recv_tcp_pending c =? 0 then client_abort_client ;; mret true
    else
      put_client (set_recv c (socks_recv_buf c) (socks_recv_buf_used c) (socks_recv_buf_sent c) true
                    (socks_recv_tcp_pending c)) ;;
      mret false
  else
    put_client (set_recv c (socks_recv_buf c) (-1) (socks_recv_buf_sent c) (socks_recv_waiting c)
                  (socks_recv_tcp_pending c)) ;;
    mret false.

Definition client_socks_recv_handler_done (data_len : Z) (net : list (Z * err_t)) (output_ok : bool) : M unit :=
  c ← get_client;
  require (0 <? data_len) ;;
  require (data_len <=? CLIENT_SOCKS_RECV_BUF_SIZE) ;;
  require (negb (socks_closed c)) ;;
  require (socks_up c) ;;
  require (socks_recv_buf_used c =? -1) ;;
  if client_closed c then mret tt else
  put_client (set_recv c (socks_recv_buf c) data_len 0 false (socks_recv_tcp_pending c)) ;;
  aborted ← client_socks_recv_send_out net output_ok;
  if aborted : bool then mret tt else
  c ← get_client;
  if socks_recv_buf_used c =? -1 then client_socks_recv_initiate else mret tt.

(** Up to the point where it lets other jobs run, as [client_recv_func]. *)
Definition client_sent_func (len : Z) (net : list (Z * err_t)) (output_ok close_ok : bool) : M (option err_t) :=
  c ← get_client;
  require (negb (client_closed c)) ;;
  require (socks_up c) ;;
  require (0 <? len) ;;
  require (len <=? socks_recv_tcp_pending c) ;;
  let c := set_recv c (socks_recv_buf c) (socks_recv_buf_used c) (socks_recv_buf_sent c) (socks_recv_waiting c)
             (socks_recv_tcp_pending c - len) in
  put_client c ;;
  if 0 <? socks_recv_buf_used c then
    require (socks_recv_waiting c) ;;
    require (socks_recv_buf_sent c <? socks_recv_buf_used c) ;;
    put_client (set_recv c (socks_recv_buf c) (socks_recv_buf_used c) (socks_recv_buf_sent c) false
                  (socks_recv_tcp_pending c)) ;;
    aborted ← client_socks_recv_send_out net output_ok;
    if aborted : bool then mret (Some ERR_ABRT) else
    c ← get_client;
    require (0 <? socks_recv_tcp_pending c) ;;
    if (socks_recv_buf_used c =? -1) && negb (socks_closed c) then
      client_socks_recv_initiate ;;
      DEAD_ENTER ;;
      mret None
    else mret (Some ERR_OK)
  else if socks_closed c && (socks_recv_tcp_pending c =? 0) then
    client_free_client depth close_ok ;;
    mret (Some ERR_ABRT)
  else mret (Some ERR_OK).

Definition client_sent_func_resume : M err_t :=
  killed ← DEAD_LEAVE;
  mret (if killed : bool then ERR_ABRT else ERR_OK).

(** [alloc] is the result of [malloc], [name_ok] whether building the user name succeeded, [init_ok] whether
    [BSocksClient_Init] did; [garbage] is what is in the memory of the fields that are not set yet.
    As [client_recv_func]. *)
Definition listener_accept_func (alloc : option ptr) (name_ok init_ok : bool) (garbage : tcp_client)
    : M (option err_t) :=
  emit Tcp_accepted ;;
  match alloc with
  | None => mret (Some ERR_MEM)
  | Some node =>
      if negb name_ok then emit Free_client ;; mret (Some ERR_MEM) else
      if negb init_ok then emit Free_client ;; mret (Some ERR_MEM) else
      emit Socks_Init ;;
      s ← get;
      require (0 <=? num_clients s) ;;
      modify (λ s, mkst (Some (mk node false (buf garbage) 0 false false (socks_recv_buf garbage)
                                 (socks_recv_buf_used garbage) (socks_recv_buf_sent garbage)
                                 (socks_recv_waiting garbage) (socks_recv_tcp_pending garbage)))
                     (num_clients s + 1) (tcp_clients s ++ [node]) Dead_null) ;;
      emit Tcp_nagle_disable ;;
      emit Tcp_arg ;;
      emit (Tcp_err true) ;;
      emit (Tcp_recv true) ;;
      DEAD_ENTER ;;
      mret None
  end.

Definition listener_accept_func_resume : M err_t :=
  killed ← DEAD_LEAVE;
  mret (if killed : bool then ERR_ABRT else ERR_OK).

End TcpClient.

(** ** lwip and the SOCKS client around a connection *)

Module TcpClientWorld.
Import TcpClient.

(** The callbacks of the pcb. *)
Record callbacks := mkcb {
  cb_err : bool;
  cb_recv : bool;
  cb_sent : bool;
}.

(** The pcb: the client's, with its callbacks, or not any more, because the client has closed it, has aborted it, or lwip has
    taken care of it. *)
Inductive conn_t := Open (p : callbacks) | Closed | Aborted | Freed.

#[global] Instance callbacks_eq_dec : EqDecision callbacks.
Proof. solve_decision. Defined.

#[global] Instance conn_t_eq_dec : EqDecision conn_t.
Proof. solve_decision. Defined.

(** [conn] is the pcb, which may only be used while it is open, [socks] is the SOCKS client's state: whether it is up.  [sending] is the
    length of the send outstanding at it, [receiving] whether a receive is.  The histories: what was received
    from the TCP client, what SOCKS has taken of it, how much of it was confirmed to lwip; what SOCKS
    delivered, what lwip was given of it, and how much of that the TCP client has acknowledged.
    [socks_failed] and [tcp_failed]: whether that side ended before it was done, or was ended.
    [returned] is what the last callback of lwip returned, [frees] and [allocs] count the clients' memory. *)
Record world := mkw {
  state : st;
  conn : conn_t;
  socks : option bool;
  sending : option Z;
  receiving : bool;
  from_tcp : list Z;
  to_socks : list Z;
  recved : Z;
  from_socks : list Z;
  to_tcp : list Z;
  acked : Z;
  socks_failed : bool;
  tcp_failed : bool;
  returned : err_t;
  allocs : nat;
  frees : nat;
}.

Definition pcb (w : world) : option callbacks := match conn w with Open p => Some p | _ => None end.

Definition set_state (w : world) (s : st) : world :=
  mkw s (conn w) (socks w) (sending w) (receiving w) (from_tcp w) (to_socks w) (recved w) (from_socks w)
      (to_tcp w) (acked w) (socks_failed w) (tcp_failed w) (returned w) (allocs w) (frees w).

Definition set_conn (w : world) (p : conn_t) : world :=
  mkw (state w) p (socks w) (sending w) (receiving w) (from_tcp w) (to_socks w) (recved w) (from_socks w)
      (to_tcp w) (acked w) (socks_failed w) (tcp_failed w) (returned w) (allocs w) (frees w).

Definition set_socks (w : world) (k : option bool) (n : option Z) (r : bool) : world :=
  mkw (state w) (conn w) k n r (from_tcp w) (to_socks w) (recved w) (from_socks w)
      (to_tcp w) (acked w) (socks_failed w) (tcp_failed w) (returned w) (allocs w) (frees w).

Definition set_up_history (w : world) (f t : list Z) (n : Z) : world :=
  mkw (state w) (conn w) (socks w) (sending w) (receiving w) f t n (from_socks w)
      (to_tcp w) (acked w) (socks_failed w) (tcp_failed w) (returned w) (allocs w) (frees w).

Definition set_down_history (w : world) (f t : list Z) (n : Z) : world :=
  mkw (state w) (conn w) (socks w) (sending w) (receiving w) (from_tcp w) (to_socks w) (recved w) f
      t n (socks_failed w) (tcp_failed w) (returned w) (allocs w) (frees w).

Definition set_failed (w : world) (k t : bool) : world :=
  mkw (state w) (conn w) (socks w) (sending w) (receiving w) (from_tcp w) (to_socks w) (recved w) (from_socks w)
      (to_tcp w) (acked w) (k || socks_failed w) (t || tcp_failed w) (returned w) (allocs w) (frees w).

Definition set_returned (w : world) (e : err_t) : world :=
  mkw (state w) (conn w) (socks w) (sending w) (receiving w) (from_tcp w) (to_socks w) (recved w) (from_socks w)
      (to_tcp w) (acked w) (socks_failed w) (tcp_failed w) e (allocs w) (frees w).

Definition count (w : world) (a f : nat) : world :=
  mkw (state w) (conn w) (socks w) (sending w) (receiving w) (from_tcp w) (to_socks w) (recved w) (from_socks w)
      (to_tcp w) (acked w) (socks_failed w) (tcp_failed w) (returned w) (a + allocs w) (f + frees w).

(** Any use of a pcb or of a SOCKS client that was freed is a fault, and so are a second send or receive, and
    freeing a client while its pcb or SOCKS client is there. *)
Definition with_pcb (w : world) (f : callbacks → world) : result world :=
  p ← or_fault BadAccess (pcb w); Ok (f p).

Definition do_call (w : world) (c : call) : result world :=
  match c with
  | Tcp_accepted | Pbuf_free => Ok w
  | Tcp_nagle_disable | Tcp_arg | Tcp_sndbuf | Tcp_output => with_pcb w (λ _, w)
  | Tcp_err b => with_pcb w (λ p, set_conn w (Open (mkcb b (cb_recv p) (cb_sent p))))
  | Tcp_recv b => with_pcb w (λ p, set_conn w (Open (mkcb (cb_err p) b (cb_sent p))))
  | Tcp_sent b => with_pcb w (λ p, set_conn w (Open (mkcb (cb_err p) (cb_recv p) b)))
  | Tcp_close ok => with_pcb w (λ p, if ok then set_conn w Closed else w)
  | Tcp_abort => with_pcb w (λ _, set_failed (set_conn w Aborted) false true)
  | Tcp_recved n =>
      ASSERT (0 <=? n) ;;
      with_pcb w (λ _, set_up_history w (from_tcp w) (to_socks w) (recved w + n))
  | Tcp_write data err =>
      with_pcb w (λ _, if bool_decide (err = ERR_OK)
                       then set_down_history w (from_socks w) (to_tcp w ++ data) (acked w) else w)
  | Socks_Init => ASSERT bool_decide (socks w = None) ;; Ok (set_socks w (Some false) None false)
  | Socks_Free => ASSERT bool_decide (is_Some (socks w)) ;; Ok (set_socks w None None false)
  | Socks_Send n =>
      ASSERT bool_decide (socks w = Some true) ;;
      ASSERT bool_decide (sending w = None) ;;
      ASSERT (0 <? n) ;;
      Ok (set_socks w (socks w) (Some n) (receiving w))
  | Socks_Recv =>
      ASSERT bool_decide (socks w = Some true) ;;
      ASSERT negb (receiving w) ;;
      Ok (set_socks w (socks w) (sending w) true)
  | Free_client =>
      ASSERT bool_decide (socks w = None) ;;
      Ok (count w 0 1)
  end.

(** What the SOCKS client can do. *)
Inductive sevent :=
| SocksError (close_ok : bool)         (** the connection to the server failed *)
| SocksUp
| SocksClosed (close_ok : bool)        (** the connection to the server ended *)
| SendDone (n : Z)
| RecvDone (data : list Z) (net : list (Z * err_t)) (output_ok : bool).

(** What lwip and the program can do; without a receive callback lwip drops what the TCP client sends and does not
    tell that it has closed, which changes nothing here.  [inner] are the events of the SOCKS client while a callback lets other
    jobs run. *)
Inductive event :=
| Accept (alloc : option ptr) (name_ok init_ok : bool) (garbage : tcp_client) (inner : list sevent)
| TcpRecv (data : list Z) (inner : list sevent)
| TcpClosed (close_ok : bool)
| TcpErr
| TcpSent (len : Z) (net : list (Z * err_t)) (output_ok close_ok : bool) (inner : list sevent)
| Socks (e : sevent)
| Murder                               (** the program ends *)
| Others (clients : list ptr).         (** other connections come and go *)

(** Run a function of the client and its calls. *)
Definition run_client {A} (w : world) (m : M A) : result (A * world) :=
  '(a, s, cs) ← m (state w);
  w ← run_calls do_call (set_state w s) cs;
  Ok (a, w).

Definition run_unit (w : world) (m : M unit) : result world := '(_, w) ← run_client w m; Ok w.

Definition net_ok (net : list (Z * err_t)) : bool :=
  forallb (λ x, (0 <=? fst x) && (fst x <=? UINT16_MAX) && negb (bool_decide (snd x = ERR_ABRT))) net.

(** The bytes of an outstanding send are those in the client's buffer. *)
Definition sent_bytes (w : world) (n : Z) : list Z :=
  match client (state w) with Some c => take (Z.to_nat n) (buf c) | None => [] end.

(** SOCKS delivers into the client's buffer. *)
Definition deliver (w : world) (data : list Z) : world :=
  match client (state w) with
  | Some c => set_state w (mkst (Some (set_recv c (splice (socks_recv_buf c) 0 data) (socks_recv_buf_used c)
                                        (socks_recv_buf_sent c) (socks_recv_waiting c) (socks_recv_tcp_pending c)))
                             (num_clients (state w)) (tcp_clients (state w)) (dead_client (state w)))
  | None => w
  end.

(** After an error the SOCKS client must have been freed by its handler. *)
Definition must_be_freed (w : world) : result world := ASSERT bool_decide (socks w = None) ;; Ok w.

Definition socks_step (w : world) (e : sevent) : option (result world) :=
  match e with
  | SocksError close_ok =>
      if bool_decide (socks w = Some false)
      then Some (run_unit (set_failed w true false) (client_socks_handler EVENT_ERROR close_ok) ≫= must_be_freed)
      else None
  | SocksUp =>
      if bool_decide (socks w = Some false)
      then Some (run_unit (set_socks w (Some true) None false) (client_socks_handler EVENT_UP true))
      else None
  | SocksClosed close_ok =>
      if bool_decide (socks w = Some true)
      then Some (run_unit (set_failed w true false) (client_socks_handler EVENT_ERROR_CLOSED close_ok) ≫= must_be_freed)
      else None
  | SendDone n =>
      match sending w with
      | Some len =>
          if (0 <? n) && (n <=? len) then
            let w := set_socks w (socks w) None (receiving w) in
            let w := set_up_history w (from_tcp w) (to_socks w ++ sent_bytes w n) (recved w) in
            Some (run_unit w (client_socks_send_handler_done n))
          else None
      | None => None
      end
  | RecvDone data net output_ok =>
      if receiving w && (0 <? Z.of_nat (length data)) && (Z.of_nat (length data) <=? CLIENT_SOCKS_RECV_BUF_SIZE)
         && net_ok net
      then let w := set_socks (deliver w data) (socks w) (sending w) false in
           let w := set_down_history w (from_socks w ++ data) (to_tcp w) (acked w) in
           Some (run_unit w (client_socks_recv_handler_done (Z.of_nat (length data)) net output_ok))
      else None
  end.

Definition is_none {A} (x : option A) : bool := match x with None => true | Some _ => false end.

(** lwip takes [ERR_ABRT] to mean that the pcb is not to be used any more: a callback must return it if it has aborted the
    pcb, which is then freed.  lwip's documentation does not allow it otherwise, but the client's callbacks
    also return it when they have closed the pcb, which may be freed then, too.  With the pcb open it must not be
    returned. *)
Definition finish_callback (w : world) (e : err_t) : result world :=
  ASSERT Bool.eqb (bool_decide (e = ERR_ABRT)) (is_none (pcb w)) ;;
  Ok (set_returned w e).

(** A callback of lwip: its first part, the events while it waits, and its second part.  [note] adds what was
    received to the history. *)
Definition run_callback (w : world) (first : M (option err_t)) (note : world → world) (inner : list sevent)
    (resume : M err_t) : option (result world) :=
  match run_client w first with
  | Fault e => Some (Fault e)
  | Ok (Some e, w) =>
      match inner with
      | [] => Some (finish_callback (if bool_decide (e = ERR_OK) then note w else w) e)
      | _ => None
      end
  | Ok (None, w) =>
      match run_steps socks_step (note w) inner with
      | Some (Ok w) => Some ('(e, w) ← run_client w resume; finish_callback w e)
      | r => r
      end
  end.

Definition has_callback (w : world) (cb : callbacks → bool) : bool :=
  match pcb w with Some p => cb p | None => false end.

Definition step (w : world) (e : event) : option (result world) :=
  match e with
  | Accept alloc name_ok init_ok garbage inner =>
      if is_none (client (state w)) && is_none (pcb w) && is_none (socks w)
         && match alloc with Some p => bool_decide (p ∉ tcp_clients (state w)) | None => true end
         && (length (buf garbage) =? Z.to_nat TCP_WND)%nat
         && (length (socks_recv_buf garbage) =? Z.to_nat CLIENT_SOCKS_RECV_BUF_SIZE)%nat
      then
        let w := mkw (state w) (Open (mkcb false false false)) None None false [] [] 0 [] [] 0 false false ERR_OK
                     (allocs w + (if alloc is Some _ then 1 else 0)) (frees w) in
        match run_callback w (listener_accept_func alloc name_ok init_ok garbage) id inner listener_accept_func_resume with
        | Some (Ok w) =>
            (* lwip aborts the connection if it was refused *)
            Some (Ok (match returned w with ERR_OK | ERR_ABRT => w | _ => set_conn w Freed end))
        | r => r
        end
      else None
  | TcpRecv data inner =>
      if has_callback w cb_recv && (0 <? Z.of_nat (length data)) && (Z.of_nat (length data) <=? UINT16_MAX) then
        run_callback w (client_recv_func data) (λ w, set_up_history w (from_tcp w ++ data) (to_socks w) (recved w))
          inner client_recv_func_resume
      else None
  | TcpClosed close_ok =>
      if has_callback w cb_recv then
        Some ('(e, w) ← run_client (set_failed w false true) (client_recv_func_closed close_ok); finish_callback w e)
      else None
  | TcpErr =>
      if has_callback w cb_err then
        Some (run_unit (set_failed (set_conn w Freed) false true) client_err_func)
      else None
  | TcpSent len net output_ok close_ok inner =>
      if has_callback w cb_sent && (0 <? len) && (len <=? UINT16_MAX)
         && (acked w + len <=? Z.of_nat (length (to_tcp w))) && net_ok net then
        run_callback (set_down_history w (from_socks w) (to_tcp w) (acked w + len))
          (client_sent_func len net output_ok close_ok) id inner client_sent_func_resume
      else None
  | Socks e => socks_step w e
  | Murder =>
      match client (state w) with
      | Some _ => Some (run_unit (set_failed w true true) client_murder)
      | None => None
      end
  | Others l =>
      if bool_decide (NoDup l) && match client (state w) with
                                  | Some c => bool_decide (list_node c ∈ l)
                                  | None => true
                                  end
      then Some (Ok (set_state w (mkst (client (state w)) (Z.of_nat (length l)) l (dead_client (state w)))))
      else None
  end.

Definition init : world :=
  mkw (mkst None 0 [] Dead_null) Freed None None false [] [] 0 [] [] 0 false false ERR_OK 0 0.

End TcpClientWorld.

Module TcpClientFacts.
Import TcpClient TcpClientWorld.

(** ** Running functions of the client *)

(** [m] runs without a fault, with its calls, and [Q] holds of its result and of the world it leaves. *)
Definition wp {A} (w : world) (m : M A) (Q : A → world → Prop) : Prop :=
  ∃ a w', run_client w m = Ok (a, w') ∧ Q a w'.

Lemma result_ok_inj {A} (a b : A) : Ok a = Ok b → a = b.
Proof. by intros [= ->]. Qed.

Lemma do_call_state w c w' : do_call w c = Ok w' → state w' = state w.
Proof.
  destruct c; cbn; unfold with_pcb; intros H; inv_ok; try done.
  all: repeat case_if; simplify_eq; done.
Qed.

Lemma tcp_calls_app w cs cs' w1 w2 :
  run_calls do_call w cs = Ok w1 → run_calls do_call w1 cs' = Ok w2 → run_calls do_call w (cs ++ cs') = Ok w2.
Proof.
  revert w. induction cs as [|c cs IH]; intros w H1 H2; simpl in *; [by simplify_eq|].
  destruct (do_call w c); simpl in *; [by eapply IH | done].
Qed.

Lemma set_state_id w : set_state w (state w) = w.
Proof. by destruct w. Qed.

Lemma set_state_call w c s w' : do_call w c = Ok w' → do_call (set_state w s) c = Ok (set_state w' s).
Proof.
  destruct c; cbn; unfold with_pcb, pcb; cbn; intros H.
  all: repeat match goal with
  | H : c_assert ?b _ = _ |- _ => destruct b; [cbn in H |- *|done]
  | H : or_fault _ ?x ≫= _ = _ |- _ => destruct x; [cbn in H |- *|done]
  end.
  all: apply result_ok_inj in H; subst w'; try done.
  all: repeat case_if; done.
Qed.

Lemma set_state_calls cs s : ∀ w w', run_calls do_call w cs = Ok w' →
  run_calls do_call (set_state w s) cs = Ok (set_state w' s) ∧ state w' = state w.
Proof.
  induction cs as [|c cs IH]; intros w w' H; cbn [run_calls] in *.
  { apply result_ok_inj in H as ->. done. }
  destruct (do_call w c) as [w1|] eqn:Hc; cbn in H; [|done].
  rewrite (set_state_call _ _ s _ Hc), ok_bind. destruct (IH _ _ H) as [-> ->].
  split; [done|]. by eapply do_call_state.
Qed.

Lemma wp_ret {A} w (a : A) (Q : A → world → Prop) : Q a w → wp w (mret a) Q.
Proof. intros H. exists a, w. split; [|done]. unfold run_client. simpl. by rewrite set_state_id. Qed.

Lemma run_client_ok {A} w (m : M A) a w' :
  run_client w m = Ok (a, w') ↔
  ∃ s cs, m (state w) = Ok (a, s, cs) ∧ run_calls do_call (set_state w s) cs = Ok w'.
Proof.
  unfold run_client. split.
  - intros H. destruct (m (state w)) as [[[a' s] cs]|]; cbn in H; [|done].
    destruct (run_calls do_call (set_state w s) cs) as [w1|] eqn:Hr; cbn in H; [|done].
    apply result_ok_inj in H. simplify_eq. eauto.
  - intros (s & cs & -> & Hr). cbn. by rewrite Hr.
Qed.

Lemma wp_bind {A B} w (m : M A) (f : A → M B) Q :
  wp w m (λ a w', wp w' (f a) Q) → wp w (m ≫= f) Q.
Proof.
  intros (a & w1 & H1 & b & w2 & H2 & HQ). exists b, w2. split; [|done].
  apply run_client_ok in H1 as (s1 & cs1 & Hm & Hr1), H2 as (s2 & cs2 & Hf & Hr2).
  destruct (set_state_calls cs1 s2 _ _ Hr1) as [Hr' E]. cbn in E, Hr'. rewrite E in Hf.
  apply run_client_ok. exists s2, (cs1 ++ cs2). split.
  - change ((m ≫= f) (state w)) with (M_bind A B f m (state w)). unfold M_bind. by rewrite Hm, Hf.
  - by eapply tcp_calls_app.
Qed.

Lemma wp_emit w c Q w' : do_call w c = Ok w' → Q tt w' → wp w (emit c) Q.
Proof.
  intros H HQ. exists tt, w'. split; [|done]. unfold run_client, emit. simpl. rewrite set_state_id, H. done.
Qed.

Lemma wp_require w b Q : b = true → Q tt w → wp w (require b) Q.
Proof. intros -> HQ. by apply wp_ret. Qed.

Lemma wp_get_client w c Q : client (state w) = Some c → Q c w → wp w get_client Q.
Proof.
  intros H HQ. exists c, w. split; [|done]. unfold run_client, get_client. rewrite H. simpl. by rewrite set_state_id.
Qed.

Lemma wp_get w Q : Q (state w) w → wp w get Q.
Proof. intros HQ. exists (state w), w. split; [|done]. unfold run_client, get. simpl. by rewrite set_state_id. Qed.

(** The world with the client changed. *)
Definition with_client (w : world) (c : tcp_client) : world :=
  set_state w (mkst (Some c) (num_clients (state w)) (tcp_clients (state w)) (dead_client (state w))).

Lemma wp_put_client w c c' Q : client (state w) = Some c → Q tt (with_client w c') → wp w (put_client c') Q.
Proof. intros H HQ. exists tt, (with_client w c'). split; [|done]. unfold run_client, put_client. by rewrite H. Qed.

Lemma wp_modify w f Q : Q tt (set_state w (f (state w))) → wp w (modify f) Q.
Proof. intros HQ. by exists tt, (set_state w (f (state w))). Qed.

Lemma wp_mono {A} w (m : M A) (Q Q' : A → world → Prop) : wp w m Q → (∀ a w', Q a w' → Q' a w') → wp w m Q'.
Proof. intros (a & w' & Hr & HQ) H. exists a, w'. eauto. Qed.

Lemma wp_DEAD_KILL w Q :
  dead_client (state w) ≠ Dead_returned →
  Q tt (set_state w (set_dead (state w)
          (match dead_client (state w) with Dead_running _ => Dead_running true | d => d end))) →
  wp w DEAD_KILL Q.
Proof.
  intros Hd HQ. unfold wp, run_client, DEAD_KILL. destruct (dead_client (state w)) eqn:E; [|by eexists _, _|done].
  eexists _, _. split; [reflexivity|]. destruct w as [[]]. cbn in *. by rewrite E.
Qed.

Lemma wp_DEAD_ENTER w Q :
  dead_client (state w) = Dead_null → Q tt (set_state w (set_dead (state w) (Dead_running false))) → wp w DEAD_ENTER Q.
Proof. intros Hd HQ. unfold wp, run_client, DEAD_ENTER. rewrite Hd. by eexists _, _. Qed.

Lemma wp_DEAD_LEAVE w killed Q :
  dead_client (state w) = Dead_running killed →
  Q killed (set_state w (set_dead (state w) (if killed then Dead_returned else Dead_null))) → wp w DEAD_LEAVE Q.
Proof. intros Hd HQ. unfold wp, run_client, DEAD_LEAVE. rewrite Hd. by eexists _, _. Qed.

(** One step of a function; what cannot be seen from its syntax is left to be shown. *)
Ltac wp_step :=
  lazymatch goal with
  | |- wp _ (mret _) _ => apply wp_ret
  | |- wp _ get_client _ => eapply wp_get_client; [try first [eassumption | reflexivity]|]
  | |- wp _ get _ => apply wp_get
  | |- wp _ (require _) _ => apply wp_require
  | |- wp _ (put_client _) _ => eapply wp_put_client; [try first [eassumption | reflexivity]|]
  | |- wp _ (modify _) _ => apply wp_modify
  | |- wp _ DEAD_KILL _ => apply wp_DEAD_KILL; [first [done | by eauto with dead]|]
  | |- wp _ DEAD_ENTER _ => apply wp_DEAD_ENTER; [first [done | by eauto with dead]|]
  | |- wp _ (_ ≫= _) _ => apply wp_bind
  | |- wp ?w (if true then ?x else _) ?Q => change (wp w x Q)
  | |- wp ?w (if false then _ else ?y) ?Q => change (wp w y Q)
  end.

(** ** The invariant *)

(** What SOCKS has delivered and lwip has not been given. *)
Definition unsent (c : tcp_client) : list Z :=
  if 0 <? socks_recv_buf_used c
  then take (Z.to_nat (socks_recv_buf_used c - socks_recv_buf_sent c))
         (drop (Z.to_nat (socks_recv_buf_sent c)) (socks_recv_buf c))
  else [].

(** The TCP client has everything that SOCKS delivered, and has acknowledged it. *)
Definition drained (w : world) : Prop :=
  from_socks w = to_tcp w ∧ acked w = Z.of_nat (length (to_tcp w)).

(** What holds of a client and its surroundings even in the middle of its functions, between the calls that
    close one of the sides. *)
Record core (w : world) (c : tcp_client) : Prop := {
  c_node : list_node c ∈ tcp_clients (state w);
  c_alloc : allocs w = S (frees w);
  c_pcb : pcb w = if client_closed c then None
                  else Some (mkcb true (negb (socks_closed c && socks_up c)) (socks_up c));
  c_socks : socks w = if socks_closed c then None else Some (socks_up c);
  c_buf : length (buf c) = Z.to_nat TCP_WND ∧ 0 ≤ buf_used c ≤ TCP_WND;
  c_up : from_tcp w = to_socks w ++ take (Z.to_nat (buf_used c)) (buf c);
  c_recved : client_closed c = false → recved w = Z.of_nat (length (to_socks w));
  c_rbuf : length (socks_recv_buf c) = Z.to_nat CLIENT_SOCKS_RECV_BUF_SIZE;
  c_down : client_closed c = false →
    if socks_up c
    then from_socks w = to_tcp w ++ unsent c ∧
         socks_recv_tcp_pending c = Z.of_nat (length (to_tcp w)) - acked w ∧ 0 ≤ socks_recv_tcp_pending c
    else from_socks w = [] ∧ to_tcp w = [] ∧ acked w = 0;
  c_used : client_closed c = false → socks_up c = true →
    socks_recv_buf_used c = -1 ∨
    (0 ≤ socks_recv_buf_sent c ≤ socks_recv_buf_used c ∧
     0 < socks_recv_buf_used c ≤ CLIENT_SOCKS_RECV_BUF_SIZE);
  c_tcp_end : client_closed c = true → tcp_failed w = true ∨ (drained w ∧ socks_closed c = true);
  c_socks_end : socks_closed c = true → socks_failed w = true ∨ buf_used c = 0;
  c_prefix : client_closed c = true → to_tcp w `prefix_of` from_socks w;
}.

(** A send is outstanding exactly while there is data to send. *)
Definition send_ok (w : world) (c : tcp_client) : Prop :=
  if socks_up c && negb (socks_closed c)
  then (buf_used c = 0 ∧ sending w = None) ∨ (∃ n, sending w = Some n ∧ 0 < n ≤ buf_used c)
  else sending w = None.

(** When the receive buffer is not free, lwip has been given data that is not acknowledged. *)
Definition snd_recv (c : tcp_client) : Prop :=
  socks_up c = true →
  socks_recv_buf_used c = -1 ∨
  (socks_recv_buf_sent c < socks_recv_buf_used c ∧ socks_recv_waiting c = true ∧ 0 < socks_recv_tcp_pending c).

(** A receive is outstanding exactly while the receive buffer is free. *)
Definition recv_ok (w : world) (c : tcp_client) : Prop :=
  (if socks_up c && negb (socks_closed c)
   then if client_closed c then receiving w = true → socks_recv_buf_used c = -1
        else receiving w = (socks_recv_buf_used c =? -1)
   else receiving w = false) ∧
  (client_closed c = false → snd_recv c).

(** Why the client is still there: at most one of the sides is closed, and then the other one has data left. *)
Definition stays (c : tcp_client) : Prop :=
  (client_closed c = true → socks_closed c = false ∧ 0 < buf_used c) ∧
  (socks_closed c = true → socks_up c = true ∧ (0 <= socks_recv_buf_used c ∨ 0 < socks_recv_tcp_pending c)).

Definition globals (w : world) : Prop :=
  NoDup (tcp_clients (state w)) ∧ num_clients (state w) = Z.of_nat (length (tcp_clients (state w))).

(** [entered] is whether a callback is waiting; then its variable tells whether the pcb is gone.  The pointer to a
    variable that is no more is left only in a client that has no pcb and does not use it. *)
Definition dead_shape (entered : bool) (w : world) : Prop :=
  match dead_client (state w) with
  | Dead_null => entered = false
  | Dead_running _ => entered = true
  | Dead_returned => False
  end.

Definition dead_ok (entered : bool) (w : world) : Prop :=
  match dead_client (state w) with
  | Dead_null => entered = false
  | Dead_running b => entered = true ∧ (b = true ↔ pcb w = None)
  | Dead_returned => entered = false ∧ pcb w = None
  end.

(** After the client is freed nothing of it is left, and what a side that ended in order had left was delivered. *)
Record gone (w : world) : Prop := {
  g_pcb : pcb w = None;
  g_socks : socks w = None ∧ sending w = None ∧ receiving w = false;
  g_alloc : allocs w = frees w;
  g_up : socks_failed w = false → to_socks w = from_tcp w;
  g_down : tcp_failed w = false → drained w;
  g_prefix : to_socks w `prefix_of` from_tcp w ∧ to_tcp w `prefix_of` from_socks w;
}.

Definition inv (entered : bool) (w : world) : Prop :=
  globals w ∧ dead_ok entered w ∧
  match client (state w) with
  | Some c => core w c ∧ send_ok w c ∧ recv_ok w c ∧ stays c
  | None => gone w
  end.

Lemma dead_ok_shape e w c : core w c → client_closed c = false → dead_ok e w → dead_shape e w.
Proof.
  intros [] Hcc. rewrite Hcc in c_pcb0. unfold dead_ok, dead_shape. rewrite c_pcb0.
  destruct (dead_client (state w)); naive_solver.
Qed.

Lemma dead_shape_kill e w : dead_shape e w → dead_client (state w) ≠ Dead_returned.
Proof. unfold dead_shape. by destruct (dead_client (state w)). Qed.

Lemma dead_shape_enter w : dead_shape false w → dead_client (state w) = Dead_null.
Proof. unfold dead_shape. by destruct (dead_client (state w)). Qed.

Create HintDb dead.
#[local] Hint Resolve dead_ok_shape dead_shape_kill dead_shape_enter : dead.

Lemma dead_ok_same e w w' :
  dead_client (state w') = dead_client (state w) → (pcb w' = None ↔ pcb w = None) → dead_ok e w → dead_ok e w'.
Proof. unfold dead_ok. intros -> H. destruct (dead_client (state w)); naive_solver. Qed.

(** *** Closing the sides *)

Lemma filter_keep (l : list ptr) n : n ∉ l → filter (λ x, x ≠ n) l = l.
Proof.
  induction l as [|x l IH]; intros Hn; [done|]. apply not_elem_of_cons in Hn as [Hx Hn].
  rewrite filter_cons_True by congruence. by rewrite IH.
Qed.

Lemma filter_node (l : list ptr) n : NoDup l → n ∈ l →
  NoDup (filter (λ x, x ≠ n) l) ∧ S (length (filter (λ x, x ≠ n) l)) = length l.
Proof.
  intros Hnd Hin. split; [by apply NoDup_filter|].
  apply list_elem_of_split in Hin as (l1 & l2 & ->). rewrite filter_app, filter_cons_False by tauto.
  apply NoDup_app in Hnd as (_ & H1 & [H2 _]%NoDup_cons).
  rewrite !filter_keep; [rewrite !length_app; simpl; lia | done |].
  intros Hx. apply (H1 _ Hx). by left.
Qed.

Lemma dealloc_wp e w c :
  client (state w) = Some c → core w c → globals w → dead_ok e w →
  client_closed c = true → socks_closed c = true → sending w = None → receiving w = false →
  wp w client_dealloc (λ _ w', inv e w' ∧ pcb w' = None ∧ socks w' = None).
Proof.
  intros Hc [] [Hnd Hnum] Hd Hcc Hsc Hs Hr. rewrite Hcc in *. rewrite Hsc in *.
  destruct (filter_node _ _ Hnd c_node0) as [Hnd' Hlen]. unfold client_dealloc.
  wp_step. wp_step. do 2 (wp_step; wp_step; [done|]). do 2 wp_step. wp_step. wp_step; [apply Z.ltb_lt; lia|].
  wp_step. wp_step. eapply wp_emit; [cbn; by rewrite c_socks0|]. split; [|done].
  split_and!; [split; cbn; [done|lia] | done |]. cbn. split; cbn; try done.
  - intros Hf. destruct c_socks_end0 as [|Hu]; [done|congruence|].
    rewrite c_up0, Hu. cbn. by rewrite app_nil_r.
  - intros Hf. destruct (c_tcp_end0 eq_refl) as [?|[? _]]; [congruence|done].
  - split; [by eexists|by apply c_prefix0].
Qed.

(** The pcb is gone; SOCKS stays only to take what is buffered. *)
Lemma handle_freed_wp e w c fuel ok :
  (2 ≤ fuel)%nat → client (state w) = Some c → client_closed c = false → core w (set_client_closed c) → globals w →
  dead_shape e w → send_ok w c → (receiving w = true → socks_recv_buf_used c = -1) →
  (socks_closed c = true → sending w = None ∧ receiving w = false) →
  (socks_up c = false → receiving w = false) →
  wp w (client_handle_freed_client fuel ok) (λ _ w', inv e w' ∧ pcb w' = None ∧ (socks_closed c = true → socks w' = None)).
Proof.
  intros Hfuel Hc Hcc Hcore Hg Hd Hs Hr Hsc Hup. destruct fuel as [|[|fuel]]; [lia..|]. cbn [client_handle_freed_client].
  wp_step. wp_step. wp_step. wp_step; [by rewrite Hcc|]. wp_step. wp_step. wp_step. wp_step.
  set (w1 := with_client _ _).
  assert (Hc1 : client (state w1) = Some (set_client_closed c)) by done.
  assert (Hd1 : dead_ok e w1).
  { unfold dead_ok, dead_shape in *. cbn. pose proof (c_pcb _ _ Hcore) as Hp. cbn in Hp.
    by destruct (dead_client (state w)). }
  assert (Hcore1 : core w1 (set_client_closed c)) by (destruct Hcore; by split).
  assert (Hg1 : globals w1) by done. pose proof (c_pcb _ _ Hcore1) as Hp. cbn in Hp.
  destruct (0 <? buf_used c) eqn:Hu, (socks_closed c) eqn:Hk; cbn [andb negb]; zify_bool.
  - eapply wp_mono; [eapply dealloc_wp; try done; apply Hsc; done|]. naive_solver.
  - wp_step. split; [|done]. split_and!; [done|done|]. rewrite Hc1. split_and!; [done| | |].
    + unfold send_ok in *. cbn. by rewrite Hk in *.
    + unfold recv_ok. cbn. rewrite Hk in *. split; [|done]. destruct (socks_up c); cbn; auto.
    + split; [done|]. cbn. congruence.
  - eapply wp_mono; [eapply dealloc_wp; try done; apply Hsc; done|]. naive_solver.
  - cbn [client_free_socks]. wp_step. wp_step. wp_step. wp_step; [cbn; by rewrite Hk|].
    cbn [set_client_closed client_closed negb]. rewrite !andb_false_r. do 3 wp_step.
    eapply wp_emit; [pose proof (c_socks _ _ Hcore1) as Hso; cbn in Hso |- *; rewrite Hso, Hk; done|]. wp_step. wp_step.
    eapply wp_mono; [eapply (dealloc_wp e _ (set_socks_closed (set_client_closed c))); try done|naive_solver].
    destruct Hcore1. split; try done; cbn.
    { intros _. destruct (c_tcp_end0 eq_refl) as [|[]]; auto. }
    right. pose proof (proj2 c_buf0). cbn in *. lia.
Qed.

(** The pcb is freed: [w'] is the world without it. *)
Lemma remove_callbacks_wp w c Q :
  pcb w = Some c → Q tt (set_conn w (Open (mkcb false false false))) → wp w remove_callbacks Q.
Proof.
  intros Hp HQ. unfold remove_callbacks. wp_step. eapply wp_emit; [cbn; unfold with_pcb; by rewrite Hp|].
  wp_step. eapply wp_emit; [done|]. by eapply wp_emit.
Qed.

Lemma close_core w c b x :
  core w c → client_closed c = false → (b = true ∨ tcp_failed w = true ∨ (drained w ∧ socks_closed c = true)) →
  pcb (set_conn w x) = None →
  core (set_failed (set_conn w x) false b) (set_client_closed c).
Proof.
  intros [] Hcc Hb Hx. split; try done; cbn; intros _.
  - destruct Hb as [->|[->|Hb]]; [by left | left; by destruct b | by right].
  - specialize (c_down0 Hcc). destruct (socks_up c); [by destruct c_down0 as [? _]; eexists|].
    by destruct c_down0 as (_ & -> & _); apply prefix_nil.
Qed.

(** The client's abort, whatever was done to the histories. *)
Lemma abort_wp e w c :
  client (state w) = Some c → client_closed c = false → core w c → globals w → dead_shape e w →
  send_ok w c → (receiving w = true → socks_recv_buf_used c = -1) →
  (socks_closed c = true → sending w = None ∧ receiving w = false) →
  (socks_up c = false → receiving w = false) →
  wp w client_abort_client (λ _ w', inv e w' ∧ pcb w' = None ∧ (socks_closed c = true → socks w' = None)).
Proof.
  intros Hc Hcc Hcore Hg Hd Hs Hr Hsc Hup. unfold client_abort_client. wp_step. wp_step.
  wp_step. wp_step; [by rewrite Hcc|]. wp_step. pose proof (c_pcb _ _ Hcore) as Hp. rewrite Hcc in Hp.
  eapply remove_callbacks_wp; [exact Hp|]. wp_step. eapply wp_emit; [done|].
  eapply handle_freed_wp; try done; [unfold depth; lia|].
  apply (close_core w c true Aborted) in Hcore as []; [|done|by left|done]. by split.
Qed.

Lemma free_client_wp e w c fuel ok :
  (3 ≤ fuel)%nat → client (state w) = Some c → client_closed c = false → core w c → globals w → dead_shape e w →
  (tcp_failed w = true ∨ (drained w ∧ socks_closed c = true)) →
  send_ok w c → (receiving w = true → socks_recv_buf_used c = -1) →
  (socks_closed c = true → sending w = None ∧ receiving w = false) →
  (socks_up c = false → receiving w = false) →
  wp w (client_free_client fuel ok) (λ _ w', inv e w' ∧ pcb w' = None ∧ (socks_closed c = true → socks w' = None)).
Proof.
  intros Hfuel Hc Hcc Hcore Hg Hd Ht Hs Hr Hsc Hup. destruct fuel as [|fuel]; [lia|]. cbn [client_free_client].
  wp_step. wp_step. wp_step. wp_step; [by rewrite Hcc|]. wp_step.
  pose proof (c_pcb _ _ Hcore) as Hp. rewrite Hcc in Hp. eapply remove_callbacks_wp; [exact Hp|].
  wp_step. eapply wp_emit; [done|]. wp_step. destruct ok.
  - wp_step. eapply handle_freed_wp; try done; [lia|].
    apply (close_core w c false Closed) in Hcore as []; [|done|by right|done]. by split.
  - eapply wp_emit; [done|]. eapply handle_freed_wp; try done; [lia|].
    apply (close_core w c true Aborted) in Hcore as []; [|done|by left|done]. by split.
Qed.

(** SOCKS is freed; the TCP client stays only to be given the rest. *)
Lemma free_socks_wp e w c fuel ok :
  (4 ≤ fuel)%nat → client (state w) = Some c → socks_closed c = false → core w c → globals w → dead_ok e w →
  (socks_failed w = true ∨ buf_used c = 0) → (client_closed c = false → snd_recv c) →
  wp w (client_free_socks fuel ok) (λ _ w', inv e w' ∧ socks w' = None).
Proof.
  intros Hfuel Hc Hsc Hcore Hg Hd Hf Hr. destruct fuel as [|fuel]; [lia|]. cbn [client_free_socks].
  pose proof (c_socks _ _ Hcore) as Hso. rewrite Hsc in Hso. pose proof (c_pcb _ _ Hcore) as Hp. rewrite Hsc in Hp.
  wp_step. wp_step. wp_step. wp_step; [by rewrite Hsc|]. wp_step.
  set (c' := set_socks_closed c).
  destruct (client_closed c) eqn:Hcc; cbn [negb]; rewrite ?andb_false_r, ?andb_true_r.
  - do 2 wp_step. eapply wp_emit; [cbn; by rewrite Hso|]. wp_step. wp_step.
    eapply wp_mono; [eapply (dealloc_wp e _ c'); try done|naive_solver].
    destruct Hcore. split; try done; cbn; try (by rewrite Hcc).
    intros _. destruct (c_tcp_end0 Hcc) as [|[]]; auto.
  - assert (Hshape : dead_shape e w) by eauto with dead.
    destruct (socks_up c) eqn:Hup; cbn [andb]; cbn [negb] in Hp.
    + eapply wp_emit; [cbn; unfold with_pcb; by rewrite Hp|]. wp_step. eapply wp_emit; [cbn; by rewrite Hso|].
      wp_step. wp_step.
      pose proof (Hr eq_refl Hup) as Hused. destruct Hcore. rewrite Hcc, Hup in *.
      destruct (c_down0 eq_refl) as (Hdn & Hpend & Hpend0). pose proof (c_used0 eq_refl eq_refl) as Hru.
      case_if.
      * wp_step. split; [|done]. split_and!; [done | by eapply dead_ok_same; [| |exact Hd]; [done|cbn; rewrite Hp] |]. cbn.
        split_and!.
        -- split; try done; cbn; rewrite ?Hcc, ?Hup; try done.
        -- unfold send_ok. cbn. by rewrite andb_false_r.
        -- split; [cbn; by rewrite andb_false_r|]. intros _ _. exact Hused.
        -- split; [by cbn; rewrite Hcc|]. intros _. split; [done|]. match goal with H : _ || _ = true |- _ => apply orb_true_iff in H as [|] end; zify_bool; auto.
      * assert (drained w) as Hdr.
        { split; [|lia]. rewrite Hdn. unfold unsent. rewrite (proj2 (Z.ltb_ge _ _)) by lia. by rewrite app_nil_r. }
        eapply wp_mono; [eapply (free_client_wp e _ c'); try done; cbn; try lia; try (by right)|naive_solver].
        -- split; try done; cbn; rewrite ?Hcc, ?Hup; try done.
        -- unfold send_ok. cbn. by rewrite andb_false_r.
    + wp_step. wp_step. eapply wp_emit; [cbn; by rewrite Hso|]. wp_step. wp_step.
      destruct Hcore. rewrite Hcc, Hup in *. destruct (c_down0 eq_refl) as (Hd1 & Hd2 & Hd3).
      eapply wp_mono; [eapply (free_client_wp e _ c'); try done; cbn; try lia|naive_solver].
      * split; try done; cbn; rewrite ?Hcc, ?Hup; try done.
      * right. split; [|done]. split; cbn; [congruence|]. by rewrite Hd2, Hd3.
      * unfold send_ok. cbn. by rewrite andb_false_r.
Qed.


Lemma set_socks_same w : set_socks w (socks w) (sending w) (receiving w) = w.
Proof. by destruct w. Qed.

(** *** The handlers of the SOCKS client *)

Lemma run_unit_wp w (m : M unit) (Q : world → Prop) :
  wp w m (λ _ w', Q w') → ∃ w', run_unit w m = Ok w' ∧ Q w'.
Proof. intros ([] & w' & Hr & HQ). exists w'. unfold run_unit. by rewrite Hr. Qed.

(** While the SOCKS client is there, so is the client. *)
Lemma inv_socks e w up : inv e w → socks w = Some up →
  ∃ c, client (state w) = Some c ∧ socks_closed c = false ∧ socks_up c = up ∧
    globals w ∧ dead_ok e w ∧ core w c ∧ send_ok w c ∧ recv_ok w c ∧ stays c.
Proof.
  intros (Hg & Hd & H) Hs. destruct (client (state w)) as [c|]; [|destruct H as [_ [? _] _ _ _]; congruence].
  destruct H as (Hc & ? & ? & ?). pose proof (c_socks _ _ Hc) as Hso. exists c.
  destruct (socks_closed c); [congruence|]. split_and!; try done. rewrite Hs in Hso. by simplify_eq.
Qed.

(** A failure of SOCKS changes nothing by itself. *)
Lemma core_failed w c k t : core w c → core (set_failed w k t) c.
Proof. intros []. split; try done; cbn; intros H; [destruct c_tcp_end0|destruct c_socks_end0]; try done; auto;
  left; by destruct k, t, (tcp_failed w), (socks_failed w). Qed.

Lemma socks_end_wp e w c ev ok :
  client (state w) = Some c → socks_closed c = false → globals w → dead_ok e w → core w c → recv_ok w c →
  ev = EVENT_ERROR ∨ (ev = EVENT_ERROR_CLOSED ∧ socks_up c = true) → socks_failed w = true →
  wp w (client_socks_handler ev ok) (λ _ w', inv e w' ∧ socks w' = None).
Proof.
  intros Hc Hsc Hg Hd Hcore [_ Hr] Hev Hf. unfold client_socks_handler. wp_step. wp_step. wp_step.
  wp_step; [by rewrite Hsc|]. destruct Hev as [->|[-> Hup]].
  - by eapply free_socks_wp; [unfold depth; lia|..|left|].
  - wp_step. wp_step; [done|]. by eapply free_socks_wp; [unfold depth; lia|..|left|].
Qed.

Lemma send_wp w c Q :
  client (state w) = Some c → socks_closed c = false → socks_up c = true → 0 < buf_used c →
  socks w = Some true → sending w = None → Q tt (set_socks w (Some true) (Some (buf_used c)) (receiving w)) →
  wp w client_send_to_socks Q.
Proof.
  intros Hc Hsc Hup Hu Hs Hn HQ. unfold client_send_to_socks. do 3 wp_step. wp_step; [by rewrite Hsc|].
  wp_step. wp_step; [done|]. wp_step. wp_step; [by apply Z.ltb_lt|].
  eapply wp_emit; [|exact HQ]. cbn. rewrite Hs, Hn. cbn. by rewrite (proj2 (Z.ltb_lt _ _) Hu).
Qed.

Lemma initiate_wp w c Q :
  client (state w) = Some c → client_closed c = false → socks_closed c = false → socks_up c = true →
  socks_recv_buf_used c = -1 → socks w = Some true → receiving w = false →
  Q tt (set_socks w (Some true) (sending w) true) → wp w client_socks_recv_initiate Q.
Proof.
  intros Hc Hcc Hsc Hup Hu Hs Hn HQ. unfold client_socks_recv_initiate. do 3 wp_step. wp_step; [by rewrite Hcc|].
  wp_step. wp_step; [by rewrite Hsc|]. wp_step. wp_step; [done|]. wp_step. wp_step; [by rewrite Hu|].
  eapply wp_emit; [|exact HQ]. cbn. rewrite Hs, Hn. done.
Qed.

Lemma up_wp e w c ok :
  client (state w) = Some c → socks_closed c = false → socks_up c = false →
  socks w = Some true → sending w = None → receiving w = false →
  globals w → dead_ok e w → core (set_socks w (Some false) None false) c → stays c →
  wp w (client_socks_handler EVENT_UP ok) (λ _ w', inv e w' ∧ socks w' = Some true).
Proof.
  intros Hc Hsc Hup Hs Hsd Hrv Hg Hd Hcore [Hst _]. unfold client_socks_handler. do 3 wp_step.
  wp_step; [by rewrite Hsc|]. wp_step. wp_step; [by rewrite Hup|]. wp_step. wp_step.
  cbn [set_recv client_closed buf_used]. destruct Hcore. cbn in *. rewrite Hsc, Hup in *. cbn in *.
  change (pcb (set_socks w (Some false) None false)) with (pcb w) in *.
  set (c1 := set_up (set_recv c (socks_recv_buf c) (-1) (socks_recv_buf_sent c) (socks_recv_waiting c) 0)) in *.
  assert (Hend : ∀ p n r, p = (if client_closed c then None else Some (mkcb true true true)) →
    n = (if 0 <? buf_used c then Some (buf_used c) else None) → r = negb (client_closed c) →
    ∀ w', state w' = mkst (Some c1) (num_clients (state w)) (tcp_clients (state w)) (dead_client (state w)) →
    (pcb w', socks w', sending w', receiving w') = (p, Some true, n, r) →
    (from_tcp w', to_socks w', recved w', from_socks w', to_tcp w', acked w') =
      (from_tcp w, to_socks w, recved w, from_socks w, to_tcp w, acked w) →
    (socks_failed w', tcp_failed w', allocs w', frees w') = (socks_failed w, tcp_failed w, allocs w, frees w) →
    inv e w' ∧ socks w' = Some true).
  { intros p n r Hp Hn Hr w' Hs' E1 E2 E3. simplify_eq. split; [|congruence]. split_and!.
    - unfold globals in *. by rewrite Hs'.
    - eapply dead_ok_same; [| |exact Hd]; [by rewrite Hs'|]. rewrite c_pcb0. destruct (client_closed c); naive_solver.
    - rewrite Hs'. cbn [client]. split_and!.
      + split; cbn; rewrite ?Hs', ?Hsc; cbn; try congruence; try done.
        * intros Hcc. pose proof (c_recved0 Hcc). congruence.
        * intros Hcc. destruct (c_down0 Hcc) as (E4 & E5 & E6). rewrite app_nil_r. split_and!; [congruence| |done].
          replace (to_tcp w') with (@nil Z) by congruence. replace (acked w') with 0 by congruence. done.
        * intros. by left.
        * intros Hcc. unfold drained in *. cbn in *. destruct (c_tcp_end0 Hcc) as [|[]]; [left; congruence | right; split; congruence].
        * intros Hcc. replace (to_tcp w') with (to_tcp w) by congruence. replace (from_socks w') with (from_socks w) by congruence. auto.
      + unfold send_ok. cbn. rewrite Hsc. cbn. case_if; [right; eexists; split; [done|lia]|left; split; [lia|done]].
      + split; [cbn; rewrite Hsc; cbn; by destruct (client_closed c)|]. intros _ _. by left.
      + split; cbn; rewrite Hsc; [exact Hst|done]. }
  destruct (client_closed c) eqn:Hcc; cbn [negb] in *.
  - repeat wp_step. case_if.
    + eapply send_wp; try done. wp_step. eapply Hend; try done; unfold pcb in *; cbn; by rewrite ?c_pcb0, ?Hrv, ?Hs, ?Hsd.
    + repeat wp_step. eapply Hend; try done; unfold pcb in *; cbn; by rewrite ?c_pcb0, ?Hrv, ?Hs, ?Hsd.
  - wp_step. eapply wp_emit; [cbn; unfold with_pcb, pcb in *; cbn; by rewrite c_pcb0|]. do 3 wp_step. case_if.
    + eapply send_wp; try done. eapply initiate_wp; try done.
      eapply Hend; try done; unfold pcb in *; cbn; by rewrite ?c_pcb0, ?Hrv, ?Hs, ?Hsd.
    + wp_step. eapply initiate_wp; try done. eapply Hend; try done; unfold pcb in *; cbn; by rewrite ?c_pcb0, ?Hrv, ?Hs, ?Hsd.
Qed.

Lemma splice_start (l d : list Z) : (length d ≤ length l)%nat →
  length (splice l 0 d) = length l ∧ take (length d) (splice l 0 d) = d.
Proof.
  intros Hl. unfold splice. change (Z.to_nat 0) with 0%nat. rewrite take_0. cbn [app Nat.add]. split.
  - rewrite length_app, length_drop. lia.
  - by rewrite take_app_length.
Qed.

(** What SOCKS took leaves the buffer. *)
Lemma take_done (l : list Z) used n : 0 < n ≤ used → used ≤ Z.of_nat (length l) →
  let moved := take (Z.to_nat (used - n)) (drop (Z.to_nat n) l) in
  take (Z.to_nat used) l = take (Z.to_nat n) l ++ moved ∧
  length (splice l 0 moved) = length l ∧ take (Z.to_nat (used - n)) (splice l 0 moved) = moved.
Proof.
  intros Hn Hu moved.
  assert (Hl : length moved = Z.to_nat (used - n)) by (unfold moved; rewrite length_take, length_drop; lia).
  split; [|rewrite <- Hl; apply splice_start; lia].
  unfold moved. rewrite <- (take_drop (Z.to_nat n) (take (Z.to_nat used) l)), take_take.
  rewrite Nat.min_l by lia. f_equal. rewrite skipn_firstn_comm. f_equal. lia.
Qed.

Lemma core_io w c n r : core w c → core (set_socks w (socks w) n r) c.
Proof. intros []. by split. Qed.

Lemma send_done_wp e w c n :
  client (state w) = Some c → socks_closed c = false → socks_up c = true → globals w → dead_ok e w →
  core w c → recv_ok w c → stays c → 0 < n ≤ buf_used c →
  let w1 := set_up_history (set_socks w (socks w) None (receiving w)) (from_tcp w)
              (to_socks w ++ take (Z.to_nat n) (buf c)) (recved w) in
  wp w1 (client_socks_send_handler_done n) (λ _ w', inv e w' ∧ (socks w' = Some true ∨ socks w' = None)).
Proof.
  intros Hc Hsc Hup Hg Hd Hcore Hr [Hst1 Hst2] Hn w1. unfold client_socks_send_handler_done.
  destruct Hcore. rewrite Hsc, Hup in *. cbn in c_pcb0.
  do 3 wp_step. wp_step; [by rewrite Hsc|]. do 2 wp_step; [done|]. do 2 wp_step; [by apply Z.ltb_lt; lia|].
  do 2 wp_step; [by apply Z.ltb_lt; lia|]. do 2 wp_step; [by apply Z.leb_le; lia|]. cbv zeta.
  destruct (take_done (buf c) (buf_used c) n Hn) as (Ht1 & Ht2 & Ht3); [unfold TCP_WND in *; lia|].
  set (moved := take _ (drop _ (buf c))) in *. clearbody moved.
  set (c1 := set_buf c (splice (buf c) 0 moved) (buf_used c - n)). wp_step. wp_step.
  set (w2 := with_client w1 c1).
  set (w3 := if client_closed c then w2 else set_up_history w2 (from_tcp w) (to_socks w1) (recved w + n)).
  assert (Hcore3 : core w3 c1).
  { assert (Hlen : Z.of_nat (length (take (Z.to_nat n) (buf c))) = n) by (rewrite length_take; unfold TCP_WND in *; lia).
    unfold w3. destruct (client_closed c) eqn:Hcc; split; cbn; rewrite ?Hcc, ?Hsc, ?Hup; try done;
      try (rewrite Ht2; split; [tauto|lia]).
    - by rewrite <- app_assoc, Ht3, <- Ht1.
    - by rewrite <- app_assoc, Ht3, <- Ht1.
    - intros _. rewrite c_recved0 by done. rewrite length_app. lia. }
  wp_step. assert (Hw3 : ∀ Q, Q tt w3 →
    wp w2 (if negb (client_closed c1) then emit (Tcp_recved n) else mret tt) Q).
  { intros Q HQ. unfold w3 in *. cbn [c1 set_buf client_closed]. destruct (client_closed c); cbn [negb].
    - by wp_step.
    - eapply wp_emit; [|exact HQ]. cbn. rewrite (proj2 (Z.leb_le 0 n)) by lia. unfold with_pcb, pcb in *. cbn. by rewrite c_pcb0. }
  apply Hw3. assert (Hg3 : globals w3) by (unfold w3; by destruct (client_closed c)).
  assert (Hd3 : dead_ok e w3) by (unfold w3; by destruct (client_closed c)).
  assert (Hc3 : client (state w3) = Some c1) by (unfold w3; by destruct (client_closed c)).
  assert (Hr3 : receiving w3 = receiving w) by (unfold w3; by destruct (client_closed c)).
  assert (Hn3 : sending w3 = None) by (unfold w3; by destruct (client_closed c)).
  assert (Hs3 : socks w3 = Some true) by (unfold w3; by destruct (client_closed c)).
  clear Hw3. clearbody w3. clear w2. cbn [c1 set_buf buf_used client_closed].
  assert (Hinv : ∀ n', (buf_used c1 = 0 ∧ n' = None ∧ client_closed c = false) ∨ (n' = Some (buf_used c1) ∧ 0 < buf_used c1) →
    inv e (set_socks w3 (Some true) n' (receiving w3))).
  { intros n' Hn'. split_and!; [done|done|]. cbn. rewrite Hc3. split_and!.
    - rewrite <- Hs3. by apply core_io.
    - unfold send_ok. cbn [c1 set_buf socks_up socks_closed]. rewrite Hup, Hsc. cbn.
      destruct Hn' as [(? & -> & _)|[-> ?]]; [by left|right; eexists; split; [done|]; cbn in *; lia].
    - unfold recv_ok in *. cbn. by rewrite Hr3.
    - split; cbn; [|by rewrite Hsc]. intros Hcc. split; [done|].
      destruct Hn' as [(_ & _ & ?)|[_ ?]]; [congruence|done]. }
  destruct (Z.ltb_spec 0 (buf_used c - n)) as [Hlt|Hge]; [|case_if].
  - eapply wp_emit; [cbn [do_call]; by rewrite Hs3, Hn3, (proj2 (Z.ltb_lt 0 (buf_used c - n)) Hlt)|].
    split; [|by left]. apply Hinv. by right.
  - eapply wp_mono; [eapply (free_socks_wp e w3 c1); try done; [right; cbn; lia|cbn; congruence]|naive_solver].
  - wp_step. split; [|by left]. rewrite <- (set_socks_same w3), Hs3, Hn3. apply Hinv. left. cbn. split_and!; [lia|done|by destruct (client_closed c)].
Qed.

(** *** Sending to the TCP client *)

(** The client while the receive buffer is being sent; [advance] is the client once it is sent up to [sent]. *)
Record flush (e : bool) (w : world) (c : tcp_client) : Prop := {
  f_client : client (state w) = Some c;
  f_open : client_closed c = false;
  f_up : socks_up c = true;
  f_range : 0 ≤ socks_recv_buf_sent c ≤ socks_recv_buf_used c ∧ 0 < socks_recv_buf_used c;
  f_core : core w c;
  f_globals : globals w;
  f_dead : dead_ok e w;
  f_send : send_ok w c;
  f_receiving : receiving w = false;
}.

Definition advance (c : tcp_client) (sent : Z) : tcp_client :=
  set_recv c (socks_recv_buf c) (socks_recv_buf_used c) sent (socks_recv_waiting c)
    (socks_recv_tcp_pending c + (sent - socks_recv_buf_sent c)).

Definition aborted (e : bool) (c : tcp_client) (w : world) : Prop :=
  inv e w ∧ pcb w = None ∧ (socks_closed c = true → socks w = None).

Lemma flush_abort e w c : flush e w c → wp w client_abort_client (λ _ w', aborted e c w').
Proof.
  intros []. eapply abort_wp; try done; [by eapply dead_ok_shape|rewrite f_receiving0; done|].
  intros Hsc. unfold send_ok in f_send0. by rewrite Hsc, andb_false_r in f_send0.
Qed.

Lemma unsent_advance c n :
  0 ≤ socks_recv_buf_sent c → 0 < socks_recv_buf_used c → 0 ≤ n ≤ socks_recv_buf_used c - socks_recv_buf_sent c →
  unsent c = take (Z.to_nat n) (drop (Z.to_nat (socks_recv_buf_sent c)) (socks_recv_buf c)) ++
             unsent (advance c (socks_recv_buf_sent c + n)).
Proof.
  intros Hs Hu Hn. unfold unsent. cbn [advance set_recv socks_recv_buf_used socks_recv_buf_sent socks_recv_buf].
  rewrite (proj2 (Z.ltb_lt _ _) Hu). set (l := drop (Z.to_nat (socks_recv_buf_sent c)) (socks_recv_buf c)).
  rewrite <- (take_drop (Z.to_nat n) (take _ l)), take_take, Nat.min_l by lia. f_equal.
  rewrite skipn_firstn_comm. unfold l. rewrite drop_drop. f_equal; [lia|]. f_equal. lia.
Qed.

Lemma flush_write e w c n :
  flush e w c → 0 < n ≤ socks_recv_buf_used c - socks_recv_buf_sent c →
  let data := take (Z.to_nat n) (drop (Z.to_nat (socks_recv_buf_sent c)) (socks_recv_buf c)) in
  flush e (with_client (set_down_history w (from_socks w) (to_tcp w ++ data) (acked w))
             (advance c (socks_recv_buf_sent c + n))) (advance c (socks_recv_buf_sent c + n)).
Proof.
  intros [] Hn data. destruct f_core0.
  pose proof (unsent_advance c n ltac:(lia) ltac:(lia) ltac:(lia)) as Hun.
  pose proof (c_down0 f_open0) as H. rewrite f_up0 in H. destruct H as (Hd1 & Hd2 & Hd3).
  assert (Hlen : Z.of_nat (length data) = n).
  { destruct (c_used0 f_open0 f_up0); [lia|]. unfold data. rewrite length_take, length_drop, c_rbuf0. lia. }
  rewrite Hun, app_assoc in Hd1.
  split; try done; cbn; [lia|]. split; try done; cbn; rewrite ?f_open0, ?f_up0.
  - intros _. rewrite length_app. split_and!; [exact Hd1|fold data; lia|lia].
  - intros _ _. destruct (c_used0 f_open0 f_up0); lia.
  - done.
  - done.
Qed.

Lemma advance_advance c n m : advance (advance c n) m = advance c m.
Proof. unfold advance, set_recv. cbn. f_equal. lia. Qed.

Lemma advance_same c : advance c (socks_recv_buf_sent c) = c.
Proof. destruct c. unfold advance, set_recv. cbn. f_equal. lia. Qed.

Lemma send_loop_wp e net : ∀ w c, net_ok net = true → flush e w c →
  wp w (send_loop net) (λ failed w',
    if failed then aborted e c w'
    else ∃ sent, socks_recv_buf_sent c ≤ sent ∧ flush e w' (advance c sent)).
Proof.
  induction net as [|[sndbuf err] net IH]; intros w c Hnet Hf; pose proof Hf as []; cbn [send_loop].
  all: pose proof (c_pcb _ _ f_core0) as Hp; rewrite f_open0 in Hp.
  all: do 3 wp_step; eapply wp_emit; [cbn; unfold with_pcb; by rewrite Hp|].
  all: assert (Hsame : flush e w (advance c (socks_recv_buf_sent c))) by (by rewrite advance_same).
  { wp_step. eexists; split; [|done]. lia. }
  cbn [net_ok forallb fst snd] in Hnet. apply andb_true_iff in Hnet as [[[H1 H2]%andb_true_iff _]%andb_true_iff Hnet].
  set (n := bmin_int _ _).
  assert (Hn : 0 ≤ n ≤ socks_recv_buf_used c - socks_recv_buf_sent c) by (unfold n, bmin_int; case_if; lia).
  destruct (Z.eqb_spec n 0) as [?|Hn0]; [wp_step; eexists; split; [|done]; lia|].
  wp_step. destruct (decide (err = ERR_OK)) as [->|Herr].
  - eapply wp_emit; [cbn; unfold with_pcb; by rewrite Hp|]. wp_step. wp_step.
    pose proof (flush_write e w c n Hf ltac:(lia)) as Hf'.
    unfold advance in Hf'. replace (socks_recv_buf_sent c + n - socks_recv_buf_sent c) with n in Hf' by lia.
    match goal with |- wp ?w' _ _ => set (w1 := w') end.
    match type of Hf' with flush _ _ ?c' => set (c1 := c') in * end.
    change (flush e w1 c1) in Hf'. case_if.
    + eapply wp_mono; [by eapply IH|]. intros [] w'; [done|]. cbn [c1 set_recv socks_recv_buf_sent].
      intros (sent & Hs & Hfl). exists sent. split; [lia|].
      replace (advance c sent) with (advance c1 sent); [done|].
      unfold advance, set_recv. cbn. f_equal. lia.
    + wp_step. eexists; split; [|unfold advance; replace (socks_recv_buf_sent c + n - socks_recv_buf_sent c) with n by lia; exact Hf'].
      lia.
  - eapply wp_emit; [cbn; unfold with_pcb; by rewrite Hp|]. rewrite bool_decide_eq_false_2 by done. destruct err; [done| | |].
    + wp_step. eexists; split; [|done]. lia.
    + wp_step. eapply wp_mono; [by eapply flush_abort|]. intros ? w' ?. by wp_step.
    + wp_step. eapply wp_mono; [by eapply flush_abort|]. intros ? w' ?. by wp_step.
Qed.

(** The client after that, before it receives again; [closed] is whether SOCKS is closed. *)
Record flushed (e closed : bool) (w : world) (c : tcp_client) : Prop := {
  d_client : client (state w) = Some c;
  d_open : client_closed c = false;
  d_closed : socks_closed c = closed;
  d_up : socks_up c = true;
  d_core : core w c;
  d_globals : globals w;
  d_dead : dead_ok e w;
  d_send : send_ok w c;
  d_receiving : receiving w = false;
  d_pending : 0 < socks_recv_tcp_pending c;
  d_used : socks_recv_buf_used c = -1 ∨
    (socks_recv_buf_sent c < socks_recv_buf_used c ∧ socks_recv_waiting c = true);
}.

Lemma flush_done e w c :
  flush e w c → 0 < socks_recv_tcp_pending c →
  let c' := if socks_recv_buf_sent c <? socks_recv_buf_used c
            then set_recv c (socks_recv_buf c) (socks_recv_buf_used c) (socks_recv_buf_sent c) true
                   (socks_recv_tcp_pending c)
            else set_recv c (socks_recv_buf c) (-1) (socks_recv_buf_sent c) (socks_recv_waiting c)
                   (socks_recv_tcp_pending c) in
  flushed e (socks_closed c) (with_client w c') c'.
Proof.
  intros [] Hpd c'. unfold c'. clear c'. destruct f_core0.
  pose proof (c_down0 f_open0) as H. rewrite f_up0 in H. destruct H as (Hd1 & Hd2 & Hd3).
  destruct (Z.ltb_spec (socks_recv_buf_sent c) (socks_recv_buf_used c)).
  - split; try done. by right.
  - assert (unsent c = []) as Hnil.
    { unfold unsent. rewrite (proj2 (Z.ltb_lt _ _)) by lia.
      by replace (Z.to_nat (socks_recv_buf_used c - socks_recv_buf_sent c)) with 0%nat by lia. }
    rewrite Hnil in Hd1. split; try done; cbn; [|by left]. split; try done; cbn; rewrite ?f_open0, ?f_up0; [done|].
    intros _ _. by left.
Qed.

Lemma send_out_wp e w c net ok :
  net_ok net = true → flush e w c → socks_recv_buf_sent c < socks_recv_buf_used c → socks_recv_waiting c = false →
  wp w (client_socks_recv_send_out net ok) (λ failed w',
    if failed then aborted e c w' else ∃ c', flushed e (socks_closed c) w' c').
Proof.
  intros Hnet Hf Hlt Hw. pose proof Hf as []. unfold client_socks_recv_send_out.
  do 3 wp_step. wp_step; [by rewrite f_open0|]. do 2 wp_step; [done|]. do 2 wp_step; [by apply Z.ltb_lt; lia|].
  do 2 wp_step; [by apply Z.ltb_lt|]. do 2 wp_step; [by rewrite Hw|]. wp_step.
  eapply wp_mono; [by eapply send_loop_wp|]. intros [] w1; [intros H; by wp_step|].
  intros (sent & Hs & Hf1). pose proof Hf1 as Hf1'. destruct Hf1'.
  pose proof (c_pcb _ _ f_core1) as Hp. cbn in Hp. rewrite f_open0 in Hp.
  assert (Habort : ∀ w, flush e w (advance c sent) → wp w (_ ← client_abort_client; mret true)
    (λ (failed : bool) w', if failed then aborted e c w' else ∃ c', flushed e (socks_closed c) w' c')).
  { intros w2 H. wp_step. eapply wp_mono; [by eapply flush_abort|]. intros ? w3 H3. by wp_step. }
  wp_step. eapply wp_emit; [cbn; unfold with_pcb; by rewrite Hp|].
  destruct ok; cbn [negb]; [|by apply Habort]. do 2 wp_step.
  assert (Hpd : 0 ≤ socks_recv_tcp_pending c).
  { pose proof (c_down _ _ f_core0 f_open0) as H. rewrite f_up0 in H. tauto. }
  pose proof (flush_done _ _ _ Hf1) as Hdone. cbn [advance set_recv socks_recv_buf_sent socks_recv_buf_used] in *.
  destruct (Z.ltb_spec sent (socks_recv_buf_used c)).
  - destruct (Z.eqb_spec (socks_recv_tcp_pending (advance c sent)) 0) as [?|Hne]; [by apply Habort|].
    cbn in Hne.
    do 2 wp_step. wp_step. eexists. apply Hdone. cbn. lia.
  - do 2 wp_step. wp_step. eexists. apply Hdone. cbn. lia.
Qed.

Lemma flushed_inv e closed w c :
  flushed e closed w c → (socks_recv_buf_used c = -1 → closed = true) → inv e w.
Proof.
  intros [] H. split_and!; [done|done|]. rewrite d_client0. split_and!; [done|done| |].
  - split; [|intros _ _; naive_solver]. rewrite d_up0, d_open0, d_closed0. cbn.
    destruct closed; cbn; [done|]. rewrite d_receiving0.
    destruct (Z.eqb_spec (socks_recv_buf_used c) (-1)); [naive_solver|done].
  - split; [congruence|]. intros _. split; [done|by right].
Qed.

Lemma flushed_initiate_wp e w c :
  flushed e false w c → socks_recv_buf_used c = -1 →
  wp w client_socks_recv_initiate (λ _ w', inv e w' ∧ client (state w') = Some c ∧ pcb w' = pcb w).
Proof.
  intros [] Hu. pose proof (c_socks _ _ d_core0) as Hs. rewrite d_closed0, d_up0 in Hs.
  eapply initiate_wp; try done. split; [|done]. split_and!; [done|done|]. cbn. rewrite d_client0. split_and!.
  - destruct d_core0. split; try done. cbn. by rewrite d_closed0, d_up0.
  - unfold send_ok in *. by rewrite d_closed0, d_up0 in *.
  - split; [|intros _ _; naive_solver]. rewrite d_up0, d_open0, d_closed0, Hu. done.
  - split; congruence.
Qed.

Lemma recv_done_wp e w c data net ok :
  client (state w) = Some c → socks_closed c = false → socks_up c = true → globals w → dead_ok e w → core w c →
  send_ok w c → recv_ok w c → stays c → receiving w = true →
  0 < Z.of_nat (length data) ≤ CLIENT_SOCKS_RECV_BUF_SIZE → net_ok net = true →
  let w1 := set_socks (deliver w data) (socks w) (sending w) false in
  let w2 := set_down_history w1 (from_socks w ++ data) (to_tcp w) (acked w) in
  wp w2 (client_socks_recv_handler_done (Z.of_nat (length data)) net ok) (λ _ w', inv e w').
Proof.
  intros Hc Hsc Hup Hg Hd Hcore Hs [Hr1 Hr2] [Hst _] Hrv Hlen Hnet w1 w2. unfold client_socks_recv_handler_done.
  rewrite Hup, Hsc, Hrv in Hr1. cbn [andb negb] in Hr1.
  assert (Hu : socks_recv_buf_used c = -1) by (destruct (client_closed c); [auto|lia]).
  set (c1 := set_recv c (splice (socks_recv_buf c) 0 data) (socks_recv_buf_used c) (socks_recv_buf_sent c)
               (socks_recv_waiting c) (socks_recv_tcp_pending c)).
  assert (Hc2 : client (state w2) = Some c1) by (unfold w2, w1, deliver; by rewrite Hc).
  unfold w2, w1, deliver in *. rewrite Hc in *. clear w1 w2.
  destruct (splice_start (socks_recv_buf c) data) as [Hl1 Hl2]; [rewrite (c_rbuf _ _ Hcore); lia|].
  do 3 wp_step. wp_step; [by apply Z.ltb_lt; lia|]. do 2 wp_step; [by apply Z.leb_le; lia|].
  do 2 wp_step; [by cbn; rewrite Hsc|]. do 2 wp_step; [done|]. do 2 wp_step; [by cbn; rewrite Hu|].
  cbn [c1 set_recv client_closed]. destruct Hcore. destruct (client_closed c) eqn:Hcc.
  - wp_step. split_and!; [done|done|]. rewrite Hc2. split_and!.
    + split; try done; cbn; rewrite ?Hcc, ?Hsc, ?Hup in *; try done; [congruence| |].
      { intros _. destruct (c_tcp_end0 eq_refl) as [|[]]; [by left|done]. }
      intros _. by apply prefix_app_r, c_prefix0.
    + unfold send_ok in *. cbn. by rewrite Hup, Hsc in *.
    + split; cbn; [by rewrite Hup, Hsc, Hcc|congruence].
    + split; cbn; [by intros _; apply Hst|congruence].
  - do 2 wp_step. wp_step.
    match goal with |- wp ?w' (client_socks_recv_send_out _ _) _ => set (w3 := w') end.
    set (c2 := set_recv c1 (socks_recv_buf c1) (Z.of_nat (length data)) 0 false (socks_recv_tcp_pending c1)).
    pose proof (c_down0 eq_refl) as Hdn. rewrite Hup in Hdn. destruct Hdn as (Hd1 & Hd2 & Hd3).
    assert (Hf : flush e w3 c2).
    { split; try done; cbn; [lia|]. split; try done; cbn; rewrite ?Hcc, ?Hsc, ?Hup in *; try done.
      - congruence.
      - intros _. split_and!; [|done|done]. rewrite Hd1. unfold unsent. cbn. rewrite Hu. cbn [Z.ltb Z.compare].
        rewrite app_nil_r, (proj2 (Z.ltb_lt _ _)) by lia. change (Z.to_nat 0) with 0%nat. rewrite drop_0, Z.sub_0_r.
        by rewrite Nat2Z.id, Hl2.
      - intros _ _. right. lia. }
    eapply wp_mono; [eapply send_out_wp; try done; cbn; lia|]. intros [] w4; [intros []; by wp_step|].
    intros [c4 Hfl]. cbn in Hfl. rewrite Hsc in Hfl. pose proof Hfl as []. do 2 wp_step.
    destruct (Z.eqb_spec (socks_recv_buf_used c4) (-1)).
    + eapply wp_mono; [by eapply flushed_initiate_wp|naive_solver].
    + wp_step. eapply flushed_inv; [done|]. intros ?. congruence.
Qed.

(** *** The events of the SOCKS client *)

Lemma inv_open e w : inv e w → is_Some (sending w) ∨ receiving w = true → socks w = Some true.
Proof.
  intros (Hg & Hd & H) Hio. destruct (client (state w)) as [c|].
  - destruct H as (Hcore & Hs & [Hr _] & _). pose proof (c_socks _ _ Hcore) as Hso. unfold send_ok in Hs.
    destruct (socks_up c), (socks_closed c); cbn in *; [|done|..]; destruct Hio as [[? ?]|?]; congruence.
  - destruct H as [_ (? & ? & ?) _ _ _]. destruct Hio as [[? ?]|?]; congruence.
Qed.

Lemma must_be_freed_ok (P : world → Prop) (r : result world) :
  (∃ w', r = Ok w' ∧ P w' ∧ socks w' = None) → ∃ w', r ≫= must_be_freed = Ok w' ∧ P w'.
Proof.
  intros (w' & -> & HP & Hs). exists w'. split; [|done]. cbn. unfold must_be_freed. by rewrite Hs.
Qed.

Lemma socks_step_inv e w ev r : inv e w → socks_step w ev = Some r → ∃ w', r = Ok w' ∧ inv e w'.
Proof.
  intros Hinv. destruct ev as [ok| |ok|n|data net ok]; cbn [socks_step].
  - case_bool_decide as Hs; [|done]. intros [= <-].
    destruct (inv_socks _ _ _ Hinv Hs) as (c & Hc & Hsc & Hup & Hg & Hd & Hcore & Hsend & Hrecv & Hst).
    apply must_be_freed_ok, run_unit_wp. eapply socks_end_wp; try done; [by apply core_failed|by left].
  - case_bool_decide as Hs; [|done]. intros [= <-].
    destruct (inv_socks _ _ _ Hinv Hs) as (c & Hc & Hsc & Hup & Hg & Hd & Hcore & Hsend & Hrecv & Hst).
    apply run_unit_wp. eapply wp_mono; [eapply up_wp; try done|by intros ? ? []]. destruct Hcore. split; try done. cbn. by rewrite Hsc, Hup.
  - case_bool_decide as Hs; [|done]. intros [= <-].
    destruct (inv_socks _ _ _ Hinv Hs) as (c & Hc & Hsc & Hup & Hg & Hd & Hcore & Hsend & Hrecv & Hst).
    apply must_be_freed_ok, run_unit_wp. eapply socks_end_wp; try done; [by apply core_failed|by right].
  - destruct (sending w) as [len|] eqn:Hn; [|done]. case_if; [|done]. intros [= <-].
    assert (Hs : socks w = Some true) by (eapply inv_open; [done|left; by rewrite Hn]).
    destruct (inv_socks _ _ _ Hinv Hs) as (c & Hc & Hsc & Hup & Hg & Hd & Hcore & Hsend & Hrecv & Hst).
    apply run_unit_wp. unfold sent_bytes. cbn. rewrite Hc.
    eapply wp_mono; [apply send_done_wp; try done|by intros ? ? []].
    unfold send_ok in Hsend. rewrite Hup, Hsc in Hsend. cbn in Hsend. destruct Hsend as [[? ?]|(? & ? & ?)]; [congruence|].
    simplify_eq. lia.
  - case_if; [|done]. intros [= <-].
    assert (Hs : socks w = Some true) by (eapply inv_open; eauto).
    destruct (inv_socks _ _ _ Hinv Hs) as (c & Hc & Hsc & Hup & Hg & Hd & Hcore & Hsend & Hrecv & Hst).
    apply run_unit_wp. pose proof (recv_done_wp e w c data net ok) as Hwp. cbv zeta in Hwp.
    unfold deliver in *. rewrite Hc in *. by apply Hwp.
Qed.

Lemma socks_steps_inv e w evs r : inv e w → run_steps socks_step w evs = Some r → ∃ w', r = Ok w' ∧ inv e w'.
Proof. intros Hi Hr. eapply run_steps_inv; [|done..]. intros *. apply socks_step_inv. Qed.

(** *** The callbacks of lwip *)

Lemma callback_finish_ok w e :
  inv false w → (e = ERR_ABRT ↔ pcb w = None) → ∃ w', finish_callback w e = Ok w' ∧ inv false w' ∧ pcb w' = pcb w.
Proof.
  intros Hi He. exists (set_returned w e). unfold finish_callback.
  assert (Hb : Bool.eqb (bool_decide (e = ERR_ABRT)) (is_none (pcb w)) = true).
  { case_bool_decide; destruct (pcb w); try done; naive_solver. }
  rewrite Hb. split_and!; [done| |done]. destruct Hi as (Hg & Hd & Hc). split_and!; [done|done|]. cbn.
  destruct (client (state w)); [|by destruct Hc; split]. destruct Hc as (Hcore & Hc). split; [|done].
  destruct Hcore. by split.
Qed.

(** What the first part of a callback leaves, once it is noted, and the second part. *)
Definition first_ok (note : world → world) (r : option err_t) (w : world) : Prop :=
  match r with
  | None => inv true (note w)
  | Some e => let w := if bool_decide (e = ERR_OK) then note w else w in
              inv false w ∧ (e = ERR_ABRT ↔ pcb w = None)
  end.

Lemma first_error note e w :
  e ≠ ERR_OK → inv false w ∧ (e = ERR_ABRT ↔ pcb w = None) → first_ok note (Some e) w.
Proof. intros He H. cbn. by rewrite bool_decide_eq_false_2. Qed.

Lemma first_done note w :
  inv false (note w) ∧ (ERR_OK = ERR_ABRT ↔ pcb (note w) = None) → first_ok note (Some ERR_OK) w.
Proof. intros H. cbn. by rewrite bool_decide_eq_true_2. Qed.

Lemma run_callback_inv w first note inner resume r :
  wp w first (first_ok note) →
  (∀ w, inv true w → wp w resume (λ e w', inv false w' ∧ (e = ERR_ABRT ↔ pcb w' = None))) →
  run_callback w first note inner resume = Some r → ∃ w', r = Ok w' ∧ inv false w'.
Proof.
  intros (a & w1 & H1 & Hf) Hres. unfold run_callback. rewrite H1. destruct a as [e|].
  - destruct inner; [|done]. intros [= <-]. destruct Hf as [Hi He]. destruct (callback_finish_ok _ _ Hi He) as (w' & -> & ? & ?). eauto.
  - destruct (run_steps socks_step (note w1) inner) as [r'|] eqn:Hr; [|done].
    destruct (socks_steps_inv true _ _ _ Hf Hr) as (w2 & -> & Hi). intros [= <-].
    destruct (Hres _ Hi) as (e & w3 & Hrun & Hi3 & He). rewrite Hrun. cbn.
    destruct (callback_finish_ok _ _ Hi3 He) as (w' & -> & ? & ?). eauto.
Qed.

(** A callback that waited learns from its variable whether the pcb is gone. *)
Lemma leave_wp w (Q : bool → world → Prop) :
  inv true w → (∀ b w', inv false w' → (b = true ↔ pcb w' = None) → socks w' = socks w → Q b w') →
  wp w DEAD_LEAVE Q.
Proof.
  intros (Hg & Hd & Hi) HQ. unfold dead_ok in Hd. destruct (dead_client (state w)) as [|b|] eqn:E; [done| |naive_solver].
  destruct Hd as [_ Hb]. apply (wp_DEAD_LEAVE _ b); [done|]. apply HQ; [|done|done].
  split_and!; [done|unfold dead_ok; cbn; destruct b; naive_solver|]. cbn.
  destruct (client (state w)); [|by destruct Hi; split].
  destruct Hi as (Hcore & Hi). split; [by destruct Hcore; split|done].
Qed.

Lemma recv_resume_wp w :
  inv true w → wp w client_recv_func_resume (λ e w',
    (inv false w' ∧ (e = ERR_ABRT ↔ pcb w' = None)) ∧ e ≠ ERR_MEM).
Proof.
  intros Hi. unfold client_recv_func_resume. wp_step. apply leave_wp; [done|]. intros [] w' Hi' Hb _.
  - wp_step. naive_solver.
  - wp_step. eapply wp_emit; [done|]. wp_step. split; [|done]. split; [done|]. naive_solver.
Qed.

Lemma sent_resume_wp w :
  inv true w → wp w client_sent_func_resume (λ e w',
    (inv false w' ∧ (e = ERR_ABRT ↔ pcb w' = None)) ∧ socks w' = socks w).
Proof.
  intros Hi. unfold client_sent_func_resume. wp_step. apply leave_wp; [done|]. intros [] w' Hi' Hb Hs; wp_step; naive_solver.
Qed.

(** While the pcb is there, so is the client; its callbacks tell how far SOCKS is. *)
Lemma inv_pcb e w p : inv e w → pcb w = Some p →
  ∃ c, client (state w) = Some c ∧ client_closed c = false ∧ cb_recv p = negb (socks_closed c && socks_up c) ∧
    cb_sent p = socks_up c ∧ globals w ∧ dead_ok e w ∧ core w c ∧ send_ok w c ∧ recv_ok w c ∧ stays c.
Proof.
  intros (Hg & Hd & H) Hp. destruct (client (state w)) as [c|]; [|destruct H; congruence].
  destruct H as (Hc & ? & ? & ?). pose proof (c_pcb _ _ Hc) as Hpc. rewrite Hp in Hpc.
  destruct (client_closed c) eqn:Hcc; [done|]. simplify_eq. exists c. by split_and!.
Qed.

Lemma inv_cb e w cb : inv e w → has_callback w cb = true → ∃ p, pcb w = Some p ∧ cb p = true.
Proof. unfold has_callback. destruct (pcb w); [eauto|done]. Qed.

(** With a receive callback, SOCKS has not ended. *)
Lemma recv_open c : negb (socks_closed c && socks_up c) = true → stays c →
  socks_closed c = false.
Proof. intros H [_ Hst]. cbn in H. destruct (socks_closed c); [|done]. destruct Hst as [E _]; [done|]. by rewrite E in H. Qed.

(** What closing the pcb needs to know. *)
Lemma open_sides w c : client_closed c = false → send_ok w c → recv_ok w c →
  (receiving w = true → socks_recv_buf_used c = -1) ∧
  (socks_closed c = true → sending w = None ∧ receiving w = false) ∧ (socks_up c = false → receiving w = false).
Proof.
  intros Hcc Hs [Hr _]. unfold send_ok in Hs. rewrite Hcc in Hr.
  destruct (socks_up c), (socks_closed c); cbn in *; split_and!; try done; try congruence.
  intros Hrv. rewrite Hrv in Hr. by apply Z.eqb_eq.
Qed.

Lemma splice_end (l d : list Z) used : 0 ≤ used → (Z.to_nat used + length d ≤ length l)%nat →
  length (splice l used d) = length l ∧
  take (Z.to_nat (used + Z.of_nat (length d))) (splice l used d) = take (Z.to_nat used) l ++ d.
Proof.
  intros Hu Hl. unfold splice. split; [rewrite !length_app, length_take, length_drop; lia|].
  rewrite app_assoc. apply take_app_length'. rewrite length_app, length_take. lia.
Qed.

Lemma tcp_recv_wp w c data :
  client (state w) = Some c → client_closed c = false → socks_closed c = false →
  globals w → dead_ok false w → core w c → send_ok w c → recv_ok w c → stays c → 0 < Z.of_nat (length data) →
  wp w (client_recv_func data) (λ r w',
    first_ok (λ w, set_up_history w (from_tcp w ++ data) (to_socks w) (recved w)) r w' ∧
    (Z.of_nat (length data) ≤ TCP_WND - buf_used c → r = None ∨ r = Some ERR_OK)).
Proof.
  intros Hc Hcc Hsc Hg Hd Hcore Hs Hr Hst Hlen. unfold client_recv_func. cbv zeta.
  do 3 wp_step. wp_step; [by rewrite Hcc|]. do 2 wp_step; [by apply Z.ltb_lt|].
  pose proof (c_pcb _ _ Hcore) as Hp. rewrite Hcc in Hp.
  assert (Hnull : dead_client (state w) = Dead_null) by eauto with dead.
  destruct (Z.ltb_spec (TCP_WND - buf_used c) (Z.of_nat (length data))) as [Hfull|Hroom].
  { wp_step. split; [|lia]. apply first_error; [done|]. split; [|by rewrite Hp]. split_and!; [done|done|]. by rewrite Hc. }
  pose proof Hcore as []. destruct (splice_end (buf c) data (buf_used c)) as [Hb1 Hb2]; [lia|unfold TCP_WND in *; lia|].
  set (c1 := set_buf c _ _). do 2 wp_step.
  set (w1 := with_client w c1). set (w2 := set_up_history w1 (from_tcp w1 ++ data) (to_socks w1) (recved w1)).
  assert (Hcore2 : core w2 c1).
  { split; try done; cbn; rewrite ?Hcc, ?Hsc in *; try done; [rewrite Hb1; lia|].
    by rewrite Hb2, c_up0, app_assoc. }
  assert (Hrecv2 : recv_ok w2 c1) by done.
  assert (Hst2 : stays c1) by (split; cbn; congruence).
  change (socks_up c1) with (socks_up c). change (buf_used c1) with (buf_used c + Z.of_nat (length data)).
  destruct (socks_up c) eqn:Hup; rewrite ?andb_true_r, ?andb_false_r.
  - unfold send_ok in Hs. rewrite Hup, Hsc in Hs. cbn in Hs. rewrite Hsc in c_socks0.
    destruct (Z.eqb_spec (buf_used c + Z.of_nat (length data)) (Z.of_nat (length data))) as [Hu0|Hu0].
    + destruct Hs as [[Hu Hn]|(n & _ & ?)]; [|lia].
      do 2 wp_step; [by cbn; rewrite Hsc|]. wp_step. eapply send_wp; try done; [cbn; lia|]. do 3 wp_step. split; [|by left]. cbn [first_ok].
      split_and!; [done| |].
      * unfold dead_ok in *. unfold pcb in *. cbn. by rewrite Hp.
      * cbn. rewrite <- c_socks0 at 1. split_and!; [by destruct Hcore2; split| |done|done].
        unfold send_ok. cbn. rewrite Hup, Hsc. cbn. right. eexists. split; [done|]. cbn. lia.
    + wp_step. eapply wp_emit; [done|]. wp_step. split; [|by right]. apply first_done. split; [|by unfold pcb in *; cbn; rewrite Hp].
      split_and!; [done|done|]. cbn. split_and!; [done| |done|done].
      unfold send_ok. cbn. rewrite Hup, Hsc. cbn. right.
      destruct Hs as [[Hu Hn]|(n & Hn & ?)]; [lia|]. exists n. split; [done|]. cbn. lia.
  - wp_step. eapply wp_emit; [done|]. wp_step. split; [|by right]. apply first_done. split; [|by unfold pcb in *; cbn; rewrite Hp].
    split_and!; [done|done|]. cbn. split_and!; [done| |done|done].
    unfold send_ok in *. cbn. rewrite Hup in *. done.
Qed.

Lemma tcp_closed_wp w c ok :
  client (state w) = Some c → client_closed c = false → globals w → dead_ok false w → core w c → send_ok w c →
  recv_ok w c → tcp_failed w = true →
  wp w (client_recv_func_closed ok) (λ e w', inv false w' ∧ (e = ERR_ABRT ↔ pcb w' = None)).
Proof.
  intros Hc Hcc Hg Hd Hcore Hs Hr Hf. unfold client_recv_func_closed. do 3 wp_step. wp_step; [by rewrite Hcc|].
  destruct (open_sides _ _ Hcc Hs Hr) as (? & ? & ?).
  wp_step. eapply wp_mono; [eapply free_client_wp; try done; [unfold depth; lia|by eapply dead_ok_shape|by left]|].
  intros ? w' (Hi & Hp & _). wp_step. by split.
Qed.

Lemma tcp_err_wp w c :
  client (state w) = Some c → client_closed c = false → globals w → dead_ok false w → core w c → send_ok w c →
  recv_ok w c →
  wp (set_failed (set_conn w Freed) false true) client_err_func (λ _ w', inv false w').
Proof.
  intros Hc Hcc Hg Hd Hcore Hs Hr. unfold client_err_func. do 3 wp_step. wp_step; [by rewrite Hcc|].
  destruct (open_sides _ _ Hcc Hs Hr) as (? & ? & ?).
  eapply wp_mono; [eapply handle_freed_wp; try done|naive_solver].
  - unfold depth. lia.
  - apply close_core; [done|done|by left|done].
  - exact (dead_ok_shape _ _ _ Hcore Hcc Hd).
Qed.

Lemma net_pcb w c : core w c → client_closed c = false → pcb w = None → False.
Proof. intros [] Hcc. rewrite c_pcb0, Hcc. done. Qed.

Lemma tcp_sent_wp w c len net ok ok' :
  client (state w) = Some c → client_closed c = false → socks_up c = true →
  globals w → dead_ok false w → core w c → send_ok w c → recv_ok w c → stays c →
  0 < len → acked w + len ≤ Z.of_nat (length (to_tcp w)) → net_ok net = true →
  let w1 := set_down_history w (from_socks w) (to_tcp w) (acked w + len) in
  wp w1 (client_sent_func len net ok ok') (λ r w', first_ok id r w' ∧ (socks w = None → socks w' = None)).
Proof.
  intros Hc Hcc Hup Hg Hd Hcore Hs Hr [Hst1 Hst2] Hlen Hack Hnet w1. unfold client_sent_func.
  destruct (open_sides _ _ Hcc Hs Hr) as (Hs1 & Hs2 & Hs3). destruct Hr as [Hr1 Hr2].
  pose proof Hcore as []. pose proof (c_down0 Hcc) as Hdn. rewrite Hup in Hdn. destruct Hdn as (Hd1 & Hd2 & Hd3).
  do 3 wp_step. wp_step; [by rewrite Hcc|]. do 2 wp_step; [done|]. do 2 wp_step; [by apply Z.ltb_lt|].
  do 2 wp_step; [by apply Z.leb_le; lia|]. cbv zeta. do 2 wp_step.
  set (c1 := set_recv c _ _ _ _ _). set (w2 := with_client w1 c1).
  assert (Hcore2 : core w2 c1).
  { split; try done; cbn; rewrite ?Hcc, ?Hup; [|done]. intros _. split_and!; [exact Hd1|lia|lia]. }
  assert (Hk1 : socks w = None → socks_closed c = true) by (rewrite c_socks0; by destruct (socks_closed c)).
  pose proof (Hr2 Hcc Hup) as Hused. specialize (c_used0 Hcc Hup). cbn [c1 set_recv socks_recv_buf_used].
  destruct (Z.ltb_spec 0 (socks_recv_buf_used c)) as [Hu|Hu].
  - destruct Hused as [|(Hlt & Hw & _)]; [lia|]. do 2 wp_step; [done|]. do 2 wp_step; [by apply Z.ltb_lt|]. do 2 wp_step.
    set (c3 := set_recv c1 _ _ _ _ _). change (set_recv _ _ _ _ _ _) with c3. set (w3 := with_client w2 c3).
    assert (Hrv : receiving w = false) by (destruct (receiving w); [|done]; rewrite Hs1 in Hu by done; lia).
    assert (Hf : flush false w3 c3).
    { split; try done; cbn; [lia|]. destruct Hcore2. by split. }
    wp_step. eapply wp_mono; [by eapply send_out_wp|]. intros [] w4.
    { intros (Hi & Hp & Hk). wp_step. split; [by apply first_error|auto]. }
    intros [c4 Hfl]. pose proof Hfl as []. do 3 wp_step. wp_step; [by apply Z.ltb_lt|].
    destruct (Z.eqb_spec (socks_recv_buf_used c4) (-1)) as [Hu4|Hu4], (socks_closed c4) eqn:Hk4; cbn [andb negb].
    1, 3, 4: wp_step; split; [apply first_done; split; [eapply flushed_inv; [done|intros; congruence]|];
      cbn; split; [done|intros Hp; exfalso; by eapply net_pcb]|].
    1-3: intros Hk; specialize (Hk1 Hk); cbn in d_closed0; rewrite (c_socks _ _ d_core0), Hk4; congruence.
    wp_step. eapply wp_mono; [by eapply flushed_initiate_wp; [rewrite d_closed0; exact Hfl|]|].
    intros ? w5 (Hi & Hc5 & Hp5). assert (Hnull : dead_client (state w5) = Dead_null).
    { destruct Hi as (_ & Hd5 & Hi). rewrite Hc5 in Hi. destruct Hi as (Hcore5 & _). eauto with dead. }
    do 3 wp_step. split; [|intros Hk; specialize (Hk1 Hk); cbn in d_closed0; congruence].
    cbn. destruct Hi as (Hg5 & Hd5 & Hi). split_and!; [done| |].
    + unfold dead_ok. unfold pcb in *. cbn. rewrite Hp5. split; [done|]. split; [done|]. intros Hp. exfalso; by eapply net_pcb.
    + cbn. rewrite Hc5 in *. destruct Hi as (Hcore5 & Hi). split; [by destruct Hcore5; split|done].
  - assert (Hu1 : socks_recv_buf_used c = -1) by lia.
    match goal with |- wp _ (if ?b then _ else _) _ => destruct b eqn:He end.
    + apply andb_true_iff in He as [Hk Hpend%Z.eqb_eq]. cbn in Hk, Hpend.
      wp_step. eapply wp_mono; [eapply (free_client_wp false _ c1); try done|].
      * unfold depth; lia.
      * exact (dead_ok_shape _ _ _ Hcore Hcc Hd).
      * right. split; [|done]. split; cbn; [|lia]. rewrite Hd1. unfold unsent. rewrite Hu1. by rewrite app_nil_r.
      * intros ? w' (Hi & Hp & Hk'). wp_step. split; [by apply first_error|auto].
    + wp_step. split; [|done]. apply first_done. cbn. split; [|split; [done|intros Hp; exfalso; by eapply net_pcb]].
      split_and!; [done|done|]. cbn. split_and!; [done|done| |].
      * split; [done|]. intros _ _. by left.
      * split; cbn; [congruence|]. intros Hk. split; [done|]. right.
        cbn in He. rewrite Hk in He. cbn in He. lia.
Qed.

(** *** Accepting and ending a connection *)

Lemma inv_returned e w r : inv e w → inv e (set_returned w r).
Proof.
  intros (Hg & Hd & H). split_and!; [done|done|]. cbn. destruct (client (state w)).
  - destruct H as (Hcore & H). split; [by destruct Hcore; split|done].
  - by destruct H; split.
Qed.

Lemma accept_wp w alloc name_ok init_ok garbage :
  client (state w) = None → inv false w →
  (match alloc with Some p => p ∉ tcp_clients (state w) | None => True end) →
  length (buf garbage) = Z.to_nat TCP_WND → length (socks_recv_buf garbage) = Z.to_nat CLIENT_SOCKS_RECV_BUF_SIZE →
  let w0 := mkw (state w) (Open (mkcb false false false)) None None false [] [] 0 [] [] 0 false false ERR_OK
              (allocs w + (if alloc is Some _ then 1 else 0)) (frees w) in
  wp w0 (listener_accept_func alloc name_ok init_ok garbage) (λ r w1,
    match r with
    | Some e => e = ERR_MEM ∧ is_Some (pcb w1) ∧ inv false (set_conn w1 Freed)
    | None => inv true w1
    end).
Proof.
  intros Hc ([Hnd Hnum] & Hd & Hi) Hnode Hb Hrb w0. rewrite Hc in Hi. destruct Hi. unfold listener_accept_func.
  assert (Hfresh : ∀ a f, a = f → inv false
    (mkw (state w) Freed None None false [] [] 0 [] [] 0 false false ERR_OK a f)).
  { intros a f ->. split_and!; [done| |].
    - unfold dead_ok in *. cbn. destruct (dead_client (state w)); naive_solver.
    - cbn. rewrite Hc. by split. }
  wp_step. eapply wp_emit; [done|]. destruct alloc as [node|].
  2: { wp_step. split_and!; [done..|]. apply Hfresh; cbn; lia. }
  assert (Herr : wp w0 (_ ← emit Free_client; mret (Some ERR_MEM)) (λ r w1,
    match r with
    | Some e => e = ERR_MEM ∧ is_Some (pcb w1) ∧ inv false (set_conn w1 Freed)
    | None => inv true w1
    end)).
  { wp_step. eapply wp_emit; [done|]. wp_step. split_and!; [done..|]. apply Hfresh; cbn; lia. }
  destruct name_ok; cbn [negb]; [|done]. destruct init_ok; cbn [negb]; [|done]. clear Herr.
  wp_step. eapply wp_emit; [done|]. do 3 wp_step. wp_step; [apply Z.leb_le; cbn; lia|]. do 2 wp_step.
  do 4 (wp_step; eapply wp_emit; [done|]). do 3 wp_step. split_and!.
  - split; cbn; [|rewrite length_app; cbn; lia].
    apply NoDup_app. split_and!; [done| |apply NoDup_singleton]. intros x Hx ->%list_elem_of_singleton. done.
  - done.
  - cbn. split_and!; [|done|done|done]. split; cbn; try done.
    + apply elem_of_app. right. by left.
    + lia.
Qed.

Lemma murder_socks_wp e w c :
  client (state w) = Some c → client_closed c = true → core w c → globals w → dead_ok e w → socks_failed w = true →
  (socks_closed c = true → sending w = None ∧ receiving w = false) → tcp_failed w = true →
  wp w (c ← get_client;
        (if negb (socks_closed c) then emit Socks_Free ;; put_client (set_socks_closed c) else mret tt) ;;
        client_dealloc) (λ _ w', inv e w').
Proof.
  intros Hc Hcc Hcore Hg Hd Hf Hsc Ht. do 3 wp_step. destruct (socks_closed c) eqn:Hk; cbn [negb].
  - destruct (Hsc eq_refl). wp_step. eapply wp_mono; [by eapply dealloc_wp|naive_solver].
  - pose proof (c_socks _ _ Hcore) as Hs. rewrite Hk in Hs. wp_step. eapply wp_emit; [cbn; by rewrite Hs|]. wp_step.
    eapply wp_mono; [eapply (dealloc_wp e _ (set_socks_closed c)); try done|naive_solver].
    destruct Hcore. split; try done; cbn; [unfold pcb in *; cbn; by rewrite c_pcb0, Hcc|intros _; by left..].
Qed.

Lemma murder_wp e w c :
  client (state w) = Some c → inv e w → wp (set_failed w true true) client_murder (λ _ w', inv e w').
Proof.
  intros Hc (Hg & Hd & Hi). rewrite Hc in Hi. destruct Hi as (Hcore & Hs & Hr & Hst).
  apply (core_failed _ _ true true) in Hcore. unfold client_murder. do 3 wp_step.
  destruct (client_closed c) eqn:Hcc; cbn [negb].
  - wp_step. eapply murder_socks_wp; try done. destruct Hst as [Hst _]. destruct (Hst Hcc). congruence.
  - destruct (open_sides _ _ Hcc Hs Hr) as (_ & Hs2 & _). pose proof (c_pcb _ _ Hcore) as Hp. rewrite Hcc in Hp.
    pose proof (dead_ok_shape _ _ _ Hcore Hcc Hd) as Hd'. pose proof (dead_shape_kill _ _ Hd') as Hkill.
    wp_step. eapply remove_callbacks_wp; [exact Hp|]. wp_step. eapply wp_emit; [done|]. do 2 wp_step. wp_step.
    eapply (murder_socks_wp e _ (set_client_closed c)); try done.
    + apply (close_core _ c true Aborted) in Hcore as []; [|done|by left|done]. by split.
    + unfold dead_ok, dead_shape in *. cbn.
      destruct (dead_client (state w)); naive_solver.
Qed.

Lemma accept_resume_wp w :
  inv true w → wp w listener_accept_func_resume (λ e w',
    (inv false w' ∧ (e = ERR_ABRT ↔ pcb w' = None)) ∧ (e = ERR_OK ∨ e = ERR_ABRT)).
Proof.
  intros Hi. unfold listener_accept_func_resume. wp_step. apply leave_wp; [done|]. intros [] w' Hi' Hb Hs; wp_step; naive_solver.
Qed.

Lemma accept_step w alloc name_ok init_ok garbage inner r :
  inv false w → step w (Accept alloc name_ok init_ok garbage inner) = Some r → ∃ w', r = Ok w' ∧ inv false w'.
Proof.
  intros Hi. cbn [step]. case_if; [|done]. destruct (client (state w)) eqn:Hc; [done|].
  destruct (accept_wp w alloc name_ok init_ok garbage Hc Hi) as (a & w1 & Hrun & Ha); [|by apply Nat.eqb_eq..|].
  { destruct alloc; [|done]. by case_bool_decide. }
  unfold run_callback. rewrite Hrun. destruct a as [e|].
  - destruct Ha as (-> & [p Hp] & Hi1). destruct inner; [|done].
    change (bool_decide (ERR_MEM = ERR_OK)) with false. unfold finish_callback. rewrite Hp. cbn.
    intros [= <-]. eexists; split; [done|]. by apply (inv_returned false (set_conn w1 Freed)).
  - destruct (run_steps socks_step (id w1) inner) as [r'|] eqn:Hr; [|done].
    destruct (socks_steps_inv true _ _ _ Ha Hr) as (w2 & -> & Hi2).
    destruct (accept_resume_wp _ Hi2) as (e & w3 & Hrun3 & Hi3 & He). rewrite Hrun3, ok_bind.
    destruct (callback_finish_ok _ _ (proj1 Hi3) (proj2 Hi3)) as (w4 & Hf & Hi4 & Hp4).
    rewrite Hf. unfold finish_callback in Hf. destruct (Bool.eqb _ _); [|done]. cbn in Hf. apply result_ok_inj in Hf.
    intros [= <-]. eexists; split; [done|]. rewrite <- Hf. cbn. rewrite <- Hf in Hi4. by destruct He as [-> | ->].
Qed.

Lemma step_inv w ev r : inv false w → step w ev = Some r → ∃ w', r = Ok w' ∧ inv false w'.
Proof.
  intros Hi. destruct ev as [alloc n i g inner|data inner|ok| |len net ok ok' inner|ev| |l].
  - by apply accept_step.
  - cbn [step]. case_if; [|done]. destruct (inv_cb _ _ _ Hi H) as (p & Hp & Hcb).
    destruct (inv_pcb _ _ _ Hi Hp) as (c & Hc & Hcc & Hr & Hs & Hg & Hd & Hcore & Hsend & Hrecv & Hst).
    apply run_callback_inv.
    + eapply wp_mono; [apply (tcp_recv_wp w c); try done; apply (recv_open c); congruence|]. by intros ? ? [].
    + intros w1 Hi1. eapply wp_mono; [by apply recv_resume_wp|]. by intros ? ? [].
  - cbn [step]. case_if; [|done]. destruct (inv_cb _ _ _ Hi Heqb) as (p & Hp & Hcb). intros [= <-].
    destruct (inv_pcb _ _ _ Hi Hp) as (c & Hc & Hcc & Hr & Hs & Hg & Hd & Hcore & Hsend & Hrecv & Hst).
    destruct (tcp_closed_wp (set_failed w false true) c ok) as (e & w1 & Hrun & Hi1 & He); try done; [by apply core_failed|].
    rewrite Hrun, ok_bind. destruct (callback_finish_ok _ _ Hi1 He) as (w2 & -> & ? & ?). eauto.
  - cbn [step]. case_if; [|done]. destruct (inv_cb _ _ _ Hi Heqb) as (p & Hp & Hcb). intros [= <-].
    destruct (inv_pcb _ _ _ Hi Hp) as (c & Hc & Hcc & Hr & Hs & Hg & Hd & Hcore & Hsend & Hrecv & Hst).
    apply run_unit_wp. by eapply tcp_err_wp.
  - cbn [step]. case_if; [|done]. destruct (inv_cb _ _ _ Hi H) as (p & Hp & Hcb).
    destruct (inv_pcb _ _ _ Hi Hp) as (c & Hc & Hcc & Hr & Hs & Hg & Hd & Hcore & Hsend & Hrecv & Hst).
    apply run_callback_inv; [|by intros; eapply wp_mono; [by apply sent_resume_wp|intros ? ? []]].
    eapply wp_mono; [apply (tcp_sent_wp w c); try done; congruence|]. by intros ? ? [].
  - by apply socks_step_inv.
  - cbn [step]. destruct (client (state w)) as [c|] eqn:Hc; [|done]. intros [= <-].
    apply run_unit_wp. by eapply murder_wp.
  - cbn [step]. destruct (bool_decide (NoDup l) && _) eqn:Hb; [|done]. intros [= <-]. eexists; split; [done|].
    apply andb_true_iff in Hb as [Hnd%bool_decide_eq_true Hin]. destruct Hi as ([_ _] & Hd & Hi). split_and!; [done|done|].
    cbn. destruct (client (state w)); [|by destruct Hi; split]. apply bool_decide_eq_true in Hin.
    destruct Hi as (Hcore & Hi). split; [by destruct Hcore; split|done].
Qed.

Lemma tcp_init_inv : inv false init.
Proof. split_and!; [split; [constructor|done]|done|]. by split. Qed.

Lemma tcp_reachable_inv es r : run_steps step init es = Some r → ∃ w, r = Ok w ∧ inv false w.
Proof. intros Hr. eapply run_steps_inv; [|apply tcp_init_inv|done]. intros *. apply step_inv. Qed.

(** ** The properties of a connection *)

(** What the client's calls leave as it is. *)
Record kept (w w' : world) : Prop := {
  k_from_tcp : from_tcp w' = from_tcp w;
  k_to_socks : to_socks w' = to_socks w;
  k_from_socks : from_socks w' = from_socks w;
  k_acked : acked w' = acked w;
  k_pcb : pcb w = None → pcb w' = None;
  k_freed : conn w ≠ Freed → conn w' ≠ Freed;
}.

Lemma kept_trans w1 w2 w3 : kept w1 w2 → kept w2 w3 → kept w1 w3.
Proof. intros [] []. split; auto; congruence. Qed.

Lemma do_call_kept w c w' : do_call w c = Ok w' → kept w w'.
Proof.
  destruct c; cbn; unfold with_pcb; intros H.
  all: repeat match goal with
  | H : c_assert ?b _ = _ |- _ => destruct b; [cbn in H |- *|done]
  | H : or_fault _ ?x ≫= _ = _ |- _ => destruct x eqn:?; [cbn in H |- *|done]
  end.
  all: apply result_ok_inj in H; subst w'; repeat case_if; split; try done; unfold pcb in *; cbn in *; congruence.
Qed.

Lemma run_calls_kept cs : ∀ w w', run_calls do_call w cs = Ok w' → kept w w'.
Proof.
  induction cs as [|c cs IH]; intros w w' H; cbn [run_calls] in H.
  { apply result_ok_inj in H as ->. by split. }
  destruct (do_call w c) as [w1|] eqn:Hc; [|done]. cbn in H.
  eapply kept_trans; [by eapply do_call_kept|by apply IH].
Qed.

Lemma run_client_kept {A} w (m : M A) a w' : run_client w m = Ok (a, w') → kept w w'.
Proof.
  intros (s & cs & _ & Hr)%run_client_ok. apply run_calls_kept in Hr as []. by split.
Qed.

Lemma run_unit_kept w (m : M unit) w' : run_unit w m = Ok w' → kept w w'.
Proof.
  unfold run_unit. destruct (run_client w m) as [[[] w1]|] eqn:H; [|done]. cbn.
  intros ->%result_ok_inj. by eapply run_client_kept.
Qed.

Lemma must_be_freed_kept w r w' : r ≫= must_be_freed = Ok w' → (∀ w1, r = Ok w1 → kept w w1) → kept w w'.
Proof.
  destruct r as [w1|]; [|done]. cbn. unfold must_be_freed. destruct (bool_decide _); [|done].
  intros ->%result_ok_inj H. by apply H.
Qed.

(** What SOCKS does leaves what was received, and does not make lwip take the pcb. *)
Definition frame (w w' : world) : Prop := from_tcp w' = from_tcp w ∧ (conn w ≠ Freed → conn w' ≠ Freed).

Lemma kept_frame w w1 w' : kept w1 w' → from_tcp w1 = from_tcp w → conn w1 = conn w → frame w w'.
Proof. intros [] Hf Hc. split; [congruence|]. rewrite <- Hc. auto. Qed.

Lemma socks_step_frame w e w' : socks_step w e = Some (Ok w') → frame w w'.
Proof.
  intros H. assert (Hk : ∃ w1, kept w1 w' ∧ from_tcp w1 = from_tcp w ∧ conn w1 = conn w);
    [|destruct Hk as (w1 & ? & ? & ?); by eapply kept_frame].
  destruct e; cbn [socks_step] in H; repeat case_match; try done.
  all: apply (inj Some) in H.
  - eexists; split; [by eapply must_be_freed_kept; [|apply run_unit_kept]|done].
  - eexists; split; [by apply run_unit_kept in H|done].
  - eexists; split; [by eapply must_be_freed_kept; [|apply run_unit_kept]|done].
  - eexists; split; [by apply run_unit_kept in H|done].
  - eexists; split; [by apply run_unit_kept in H|]. unfold deliver. by destruct (client (state w)).
Qed.

Lemma socks_steps_frame es : ∀ w w', run_steps socks_step w es = Some (Ok w') → frame w w'.
Proof.
  induction es as [|e es IH]; intros w w' H; cbn [run_steps] in H; [by simplify_eq|].
  destruct (socks_step w e) as [[w1|]|] eqn:He; [|done..].
  destruct (IH _ _ H) as [H1 ?], (socks_step_frame _ _ _ He) as [H2 ?]. split; [by rewrite H1|auto].
Qed.

Lemma finish_is w e w' :
  finish_callback w e = Ok w' → from_tcp w' = from_tcp w ∧ returned w' = e ∧ conn w' = conn w ∧ (e = ERR_ABRT ↔ pcb w = None).
Proof.
  unfold finish_callback. destruct (Bool.eqb _ _) eqn:He; [|done]. intros <-%result_ok_inj. split_and!; [done..|].
  apply eqb_prop in He. destruct (pcb w); case_bool_decide; naive_solver.
Qed.

(** What a callback returns to lwip: [ERR_ABRT] exactly if the pcb was aborted or closed in it. *)
Definition answered (w : world) : Prop := returned w = ERR_ABRT ↔ conn w = Closed ∨ conn w = Aborted.

Lemma finish_answered w e w' : finish_callback w e = Ok w' → conn w ≠ Freed → answered w'.
Proof.
  intros (_ & Hr & Hc & He)%finish_is Hf. unfold answered. rewrite Hr, Hc, He. unfold pcb. destruct (conn w); naive_solver.
Qed.

Lemma callback_answered w first note inner resume w' :
  run_callback w first note inner resume = Some (Ok w') → conn w ≠ Freed → (∀ w, conn (note w) = conn w) → answered w'.
Proof.
  unfold run_callback. intros H Hf Hn. destruct (run_client w first) as [[[e|] w1]|] eqn:E1; [..|done];
    pose proof (k_freed _ _ (run_client_kept _ _ _ _ E1) Hf) as Hf1.
  - destruct inner; [|done]. apply (inj Some) in H. eapply finish_answered; [exact H|]. case_match; by rewrite ?Hn.
  - destruct (run_steps _ _ _) as [[w2|]|] eqn:E2; [|done..]. apply (inj Some) in H.
    destruct (run_client w2 resume) as [[e w3]|] eqn:E3; [|done]. cbn in H. eapply finish_answered; [exact H|].
    apply (k_freed _ _ (run_client_kept _ _ _ _ E3)), (proj2 (socks_steps_frame _ _ _ E2)). by rewrite Hn.
Qed.

(** The events in which lwip calls the client and takes an answer. *)
Definition is_callback (e : event) : bool :=
  match e with Accept _ _ _ _ _ | TcpRecv _ _ | TcpClosed _ | TcpSent _ _ _ _ _ => true | _ => false end.

Lemma has_callback_open w cb : has_callback w cb = true → conn w ≠ Freed.
Proof. unfold has_callback, pcb. by destruct (conn w). Qed.

Lemma step_answered w e w' : step w e = Some (Ok w') → is_callback e = true → answered w'.
Proof.
  intros H He. destruct e; try done; cbn [step] in H; case_if; try done.
  - match type of H with match ?r with _ => _ end = _ => destruct r as [[w1|]|] eqn:E; [|done..] end.
    apply callback_answered in E; [|done..]. apply (inj Some), result_ok_inj in H. unfold answered in *.
    by destruct (returned w1) eqn:Hr; subst w'; cbn; rewrite ?Hr in *; naive_solver.
  - by apply callback_answered in H; [| |done]; [|eapply has_callback_open; naive_solver].
  - apply (inj Some) in H. destruct (run_client _ _) as [[e w1]|] eqn:E; [|done]. cbn in H. eapply finish_answered; [exact H|].
    apply (k_freed _ _ (run_client_kept _ _ _ _ E)). by eapply has_callback_open.
  - by apply callback_answered in H; [| |done]; [|eapply has_callback_open; naive_solver].
Qed.

(** *** Ending a connection of which one side is closed *)

Lemma inv_both e w : inv e w → pcb w = None → socks w = None → client (state w) = None.
Proof.
  intros (_ & _ & Hi) Hp Hs. destruct (client (state w)) as [c|]; [|done]. destruct Hi as ([] & _ & _ & Hst1 & _).
  rewrite c_pcb0 in Hp. rewrite c_socks0 in Hs. destruct (client_closed c), (socks_closed c); try done.
  by destruct Hst1.
Qed.

(** The TCP client acknowledges, SOCKS connects and takes what it was sent. *)
Definition delivery (e : event) : Prop :=
  match e with
  | TcpSent _ _ _ _ [] | Socks SocksUp | Socks (SendDone _) => True
  | _ => False
  end.

Lemma run_step_then w e w1 es w2 :
  step w e = Some (Ok w1) → run_steps step w1 es = Some (Ok w2) → run_steps step w (e :: es) = Some (Ok w2).
Proof. intros H1 H2. cbn [run_steps]. by rewrite H1. Qed.

(** SOCKS is closed: each acknowledgement is less to be acknowledged. *)
Lemma ack_step w c :
  inv false w → client (state w) = Some c → socks w = None →
  ∃ len w', step w (TcpSent len [(UINT16_MAX, ERR_OK)] true true []) = Some (Ok w') ∧ inv false w' ∧ socks w' = None ∧
    0 < len ∧ from_socks w' = from_socks w ∧ acked w' = acked w + len ∧ acked w' ≤ Z.of_nat (length (from_socks w)).
Proof.
  intros Hi Hc Hs. pose proof Hi as (Hg & Hd & H). rewrite Hc in H. destruct H as (Hcore & Hsend & Hrecv & Hst).
  pose proof Hcore as []. destruct Hst as [Hst1 Hst2].
  assert (Hsc : socks_closed c = true) by (rewrite Hs in c_socks0; by destruct (socks_closed c)).
  destruct (Hst2 Hsc) as [Hup Hrest].
  assert (Hcc : client_closed c = false) by (destruct (client_closed c); [destruct Hst1; congruence|done]).
  pose proof (c_down0 Hcc) as Hdn. rewrite Hup in Hdn. destruct Hdn as (Hd1 & Hd2 & Hd3).
  assert (Hpos : 0 < socks_recv_tcp_pending c) by (destruct Hrecv as [_ Hr2]; destruct (Hr2 Hcc Hup); lia).
  rewrite Hcc, Hup in c_pcb0.
  assert (Hle : (length (to_tcp w) ≤ length (from_socks w))%nat) by (rewrite Hd1, length_app; lia).
  set (len := Z.min UINT16_MAX (socks_recv_tcp_pending c)).
  assert (Hlen : 0 < len ≤ UINT16_MAX ∧ len ≤ socks_recv_tcp_pending c) by (unfold len, UINT16_MAX; lia).
  clearbody len.
  destruct (tcp_sent_wp w c len [(UINT16_MAX, ERR_OK)] true true) as (a & w1 & Hrun & Hf & Hk); try done; [lia..|].
  pose proof (run_client_kept _ _ _ _ Hrun) as [].
  assert (Hen : has_callback w cb_sent && (0 <? len) && (len <=? UINT16_MAX)
         && (acked w + len <=? Z.of_nat (length (to_tcp w))) && net_ok [(UINT16_MAX, ERR_OK)] = true).
  { unfold has_callback. rewrite c_pcb0, !andb_true_iff. split_and!; [done|lia..|done]. }
  exists len. cbn [step]. rewrite Hen. unfold run_callback. rewrite Hrun. destruct a as [e|].
  - cbn [first_ok id] in Hf. rewrite Tauto.if_same in *. destruct Hf as [Hi1 He].
    destruct (callback_finish_ok _ _ Hi1 He) as (w' & Hfin & Hi' & _). rewrite Hfin. exists w'.
    unfold finish_callback in Hfin. destruct (Bool.eqb _ _); [|done]. apply result_ok_inj in Hfin as <-.
    cbn in *. split_and!; try done; [auto|lia|lia].
  - cbn [run_steps id]. cbn [first_ok id] in Hf.
    destruct (sent_resume_wp _ Hf) as (e & w2 & Hrun2 & [Hi2 He] & Hs2). rewrite Hrun2, ok_bind.
    pose proof (run_client_kept _ _ _ _ Hrun2) as [].
    destruct (callback_finish_ok _ _ Hi2 He) as (w' & Hfin & Hi' & _). rewrite Hfin. exists w'.
    unfold finish_callback in Hfin. destruct (Bool.eqb _ _); [|done]. apply result_ok_inj in Hfin as <-.
    cbn in *. split_and!; try done; [rewrite Hs2; auto|lia|congruence|lia|lia].
Qed.

Lemma drain_acks n : ∀ w, inv false w → socks w = None →
  (Z.to_nat (Z.of_nat (length (from_socks w)) - acked w) ≤ n)%nat →
  ∃ es w', Forall delivery es ∧ run_steps step w es = Some (Ok w') ∧ client (state w') = None.
Proof.
  induction n as [|n IH]; intros w Hi Hs Hn; (destruct (client (state w)) as [c|] eqn:Hc; [|by exists [], w]).
  all: destruct (ack_step w c Hi Hc Hs) as (len & w1 & Hstep & Hi1 & Hs1 & Hpos & Hf & Ha & Hle).
  - lia.
  - destruct (IH w1) as (es & w2 & Hes & Hrun & Hend); [done|done|rewrite Hf; lia|].
    exists (TcpSent len [(UINT16_MAX, ERR_OK)] true true [] :: es), w2.
    split_and!; [by constructor|by eapply run_step_then|done].
Qed.

(** The TCP client is gone: SOCKS takes the rest. *)
Lemma take_step w c :
  inv false w → client (state w) = Some c → pcb w = None → socks w = Some true →
  ∃ n w', step w (Socks (SendDone n)) = Some (Ok w') ∧ inv false w' ∧ pcb w' = None ∧
    (socks w' = Some true ∨ client (state w') = None) ∧
    (length (from_tcp w') - length (to_socks w') < length (from_tcp w) - length (to_socks w))%nat.
Proof.
  intros Hi Hc Hp Hs.
  destruct (inv_socks _ _ _ Hi Hs) as (c' & Hc' & Hsc & Hup & Hg & Hd & Hcore & Hsend & Hrecv & Hst).
  rewrite Hc in Hc'. apply (inj Some) in Hc' as <-. pose proof Hcore as [].
  assert (Hcc : client_closed c = true) by (rewrite Hp in c_pcb0; by destruct (client_closed c)).
  destruct (proj1 Hst Hcc) as [_ Hu].
  unfold send_ok in Hsend. rewrite Hup, Hsc in Hsend. destruct Hsend as [[? _]|(n & Hn & Hle)]; [lia|].
  destruct (send_done_wp false w c n) as ([] & w' & Hrun & Hi' & Hso); try done.
  pose proof (run_client_kept _ _ _ _ Hrun) as []. cbn in *. exists n, w'.
  split_and!; [|done|by apply k_pcb0| |].
  - rewrite Hn, (proj2 (Z.ltb_lt 0 n)), Z.leb_refl by lia. unfold sent_bytes. cbn. rewrite Hc.
    unfold run_unit. by rewrite Hrun.
  - destruct Hso as [?|Hso]; [by left|right]. eapply inv_both; eauto.
  - rewrite k_from_tcp0, k_to_socks0, c_up0, !length_app, !length_take. unfold TCP_WND in *. lia.
Qed.

Lemma drain_sends n : ∀ w, inv false w → pcb w = None → socks w = Some true →
  (length (from_tcp w) - length (to_socks w) ≤ n)%nat →
  ∃ es w', Forall delivery es ∧ run_steps step w es = Some (Ok w') ∧ client (state w') = None.
Proof.
  induction n as [|n IH]; intros w Hi Hp Hs Hn; (destruct (client (state w)) as [c|] eqn:Hc; [|by exists [], w]).
  all: destruct (take_step w c Hi Hc Hp Hs) as (m & w1 & Hstep & Hi1 & Hp1 & Hs1 & Hlt).
  - lia.
  - destruct Hs1 as [Hs1|Hend].
    + destruct (IH w1) as (es & w2 & Hes & Hrun & Hend); [done|done|done|lia|].
      exists (Socks (SendDone m) :: es), w2. split_and!; [by constructor|by eapply run_step_then|done].
    + exists [Socks (SendDone m)], w1. split_and!; [by repeat constructor|by eapply run_step_then|done].
Qed.

(** SOCKS has still to connect. *)
Lemma up_step w : inv false w → pcb w = None → socks w = Some false →
  ∃ w', step w (Socks SocksUp) = Some (Ok w') ∧ inv false w' ∧ pcb w' = None ∧ socks w' = Some true.
Proof.
  intros Hi Hp Hs. destruct (inv_socks _ _ _ Hi Hs) as (c & Hc & Hsc & Hup & Hg & Hd & Hcore & Hsend & Hrecv & Hst).
  destruct (up_wp false (set_socks w (Some true) None false) c true) as ([] & w' & Hrun & Hi' & Hs'); try done.
  { destruct Hcore. split; try done. cbn. by rewrite Hsc, Hup. }
  pose proof (run_client_kept _ _ _ _ Hrun) as []. exists w'. cbn [step socks_step].
  rewrite bool_decide_eq_true_2 by done. unfold run_unit. rewrite Hrun. split_and!; auto.
Qed.

(** Whatever the two sides do and in whatever order, the client is used only while it is there and so are
    its pcb and its SOCKS client: no call is made on one that was freed, no assertion fails, and an error of SOCKS
    always frees the SOCKS client.  The client is freed, exactly once, when both of its sides are, and the list of the
    clients stays consistent with their number.  A callback returns [ERR_ABRT] exactly if the pcb is not the client's any
    more. *)

(** C3: Whatever the TCP client, SOCKS and the program do and in whatever order, also while a
    callback waits: no call is made on a pcb, SOCKS client or client that was closed,
    aborted or freed, no assertion fails, an error of SOCKS always frees the SOCKS client;
    the client is freed exactly once, when both its sides are, and num_clients counts the
    list; and each callback of lwip returns ERR_ABRT exactly if it has aborted or closed the
    pcb (of which lwip's documentation allows only the first: see the findings). *)
Theorem tcp_client_safe es r :
  run_steps step init es = Some r →
  ∃ w, r = Ok w ∧
    (client (state w) = None ↔ pcb w = None ∧ socks w = None) ∧
    allocs w = (frees w + if client (state w) is Some _ then 1 else 0)%nat ∧
    NoDup (tcp_clients (state w)) ∧ num_clients (state w) = Z.of_nat (length (tcp_clients (state w))) ∧
    ∀ e w', step w e = Some (Ok w') → is_callback e = true →
      (returned w' = ERR_ABRT ↔ conn w' = Closed ∨ conn w' = Aborted).
Proof.
  intros Hr. destruct (tcp_reachable_inv _ _ Hr) as (w & -> & Hg & Hd & Hi). exists w.
  pose proof (inv_both false w ltac:(done)) as Hboth. destruct (client (state w)) as [c|] eqn:Hc.
  - destruct Hi as ([] & _). split_and!; [done| |lia|apply Hg..|exact (step_answered w)]. split; [done|]. intros []. by apply Hboth.
  - destruct Hi as [? (? & _ & _) ? _ _ _]. split_and!; [done|done|lia|apply Hg..|exact (step_answered w)].
Qed.

(** What SOCKS is given is a prefix of what the TCP client sent, and the reverse; and a side that was closed
    in order has delivered all of it when the client is freed: nothing is lost, changed or reordered. *)

(** C4: What SOCKS is given is a prefix of what the TCP client sent and what lwip is given a
    prefix of what SOCKS delivered; when the client is freed, a side that was not broken off
    has delivered all of it, and the TCP client has acknowledged it: nothing is lost,
    changed or reordered. *)
Theorem tcp_client_streams es w :
  run_steps step init es = Some (Ok w) →
  to_socks w `prefix_of` from_tcp w ∧ to_tcp w `prefix_of` from_socks w ∧
  (client (state w) = None →
     (socks_failed w = false → to_socks w = from_tcp w) ∧
     (tcp_failed w = false → to_tcp w = from_socks w ∧ acked w = Z.of_nat (length (from_socks w)))).
Proof.
  intros Hr. destruct (tcp_reachable_inv _ _ Hr) as (w' & <-%result_ok_inj & Hg & Hd & Hi).
  destruct (client (state w)) as [c|].
  - destruct Hi as ([] & _ & _ & _). split_and!; [by eexists| |done].
    destruct (client_closed c); [auto|]. specialize (c_down0 eq_refl).
    destruct (socks_up c); [by destruct c_down0 as [? _]; eexists|].
    by destruct c_down0 as (_ & -> & _); apply prefix_nil.
  - destruct Hi as [_ _ _ Hup Hdown [? ?]]. split_and!; [done|done|]. intros _. split; [done|].
    intros Hf. destruct (Hdown Hf) as [E ?]. by rewrite E.
Qed.

(** The TCP client's window is exact: lwip is told of what SOCKS has taken and no more, so that what the TCP
    client may have sent always fits the buffer: data within the window is never refused. *)

(** C5: Flow control is exact: lwip's window is opened by exactly what SOCKS has taken, so that
    what the TCP client may have sent fits the buffer, and data within the window is never
    refused but taken whole. *)
Theorem tcp_client_window es w data inner r :
  run_steps step init es = Some (Ok w) →
  step w (TcpRecv data inner) = Some r →
  recved w = Z.of_nat (length (to_socks w)) ∧ Z.of_nat (length (from_tcp w)) - recved w ≤ TCP_WND ∧
  (Z.of_nat (length data) ≤ TCP_WND - (Z.of_nat (length (from_tcp w)) - recved w) →
   ∃ w', r = Ok w' ∧ from_tcp w' = from_tcp w ++ data ∧ returned w' ≠ ERR_MEM).
Proof.
  intros Hr Hstep. destruct (tcp_reachable_inv _ _ Hr) as (w1 & <-%result_ok_inj & Hi).
  destruct (step_inv _ _ _ Hi Hstep) as (w' & -> & Hi'). cbn [step] in Hstep. case_if; [|done].
  destruct (inv_cb _ _ _ Hi H) as (p & Hp & Hcb).
  destruct (inv_pcb _ _ _ Hi Hp) as (c & Hc & Hcc & Hrc & Hs & Hg & Hd & Hcore & Hsend & Hrecv & Hst).
  destruct Hcore. specialize (c_recved0 Hcc).
  assert (Hlen : Z.of_nat (length (from_tcp w)) = recved w + buf_used c).
  { rewrite c_up0, length_app, length_take. unfold TCP_WND in *. lia. }
  split_and!; [done|lia|]. intros Hroom. exists w'. split; [done|].
  destruct (tcp_recv_wp w c data) as (a & w1 & Hrun & Hf & Ha); try done; [apply (recv_open c); congruence|].
  pose proof (k_from_tcp _ _ (run_client_kept _ _ _ _ Hrun)) as Hk.
  unfold run_callback in Hstep. rewrite Hrun in Hstep. destruct Ha as [-> | ->]; [lia|..].
  - cbn [first_ok] in Hf. destruct (run_steps _ _ inner) as [[w2|]|] eqn:Hin; [|done..].
    destruct (socks_steps_inv true _ _ _ Hf Hin) as (w3 & <-%result_ok_inj & Hi2).
    destruct (recv_resume_wp _ Hi2) as (e & w3 & Hrun3 & _ & He). rewrite Hrun3 in Hstep. cbn in Hstep.
    apply (inj Some) in Hstep. destruct (finish_is _ _ _ Hstep) as (Hft & -> & _). split; [|done].
    rewrite Hft, (k_from_tcp _ _ (run_client_kept _ _ _ _ Hrun3)), (proj1 (socks_steps_frame _ _ _ Hin)). cbn. by rewrite Hk.
  - destruct inner; [|done]. change (bool_decide (ERR_OK = ERR_OK)) with true in Hstep. apply (inj Some) in Hstep.
    destruct (finish_is _ _ _ Hstep) as (-> & -> & _). cbn. by rewrite Hk.
Qed.

(** A half-closed connection ends: whatever happened before, once one of the sides is gone, it takes only the other
    side's taking what it is given - the TCP client acknowledging, or SOCKS connecting and taking the rest - for
    the client to be freed; nothing waits for an event that does not come. *)

(** C6: A half-closed connection ends: from every state in which one side is gone, the other
    side's taking what it is given (the TCP client acknowledging, or SOCKS connecting and
    taking the rest) is enough for the client to be freed. *)
Theorem tcp_client_drains es w :
  run_steps step init es = Some (Ok w) →
  pcb w = None ∨ socks w = None →
  ∃ rest w', Forall delivery rest ∧ run_steps step w rest = Some (Ok w') ∧ client (state w') = None.
Proof.
  intros Hr Hend. destruct (tcp_reachable_inv _ _ Hr) as (w' & <-%result_ok_inj & Hi).
  destruct (socks w) as [[]|] eqn:Hs; [destruct Hend as [Hp|]; [|done]..|].
  - by eapply drain_sends.
  - destruct (up_step w Hi Hp Hs) as (w1 & Hstep & Hi1 & Hp1 & Hs1).
    destruct (drain_sends _ w1 Hi1 Hp1 Hs1 (le_n _)) as (rest & w2 & Hd & Hrun & Hc).
    exists (Socks SocksUp :: rest), w2. split_and!; [by constructor|by eapply run_step_then|done].
  - by eapply drain_acks.
Qed.

(** ** Examples *)

Definition ex_garbage : tcp_client :=
  mk 0 false (replicate (Z.to_nat TCP_WND) 0) 0 false false (replicate (Z.to_nat CLIENT_SOCKS_RECV_BUF_SIZE) 0) 9 9 true 9.

(** A connection that both sides use, until SOCKS closes it and the TCP client has acknowledged all. *)
Definition ex_start : list event :=
  [ Accept (Some 100) true true ex_garbage []; TcpRecv [1; 2; 3] []; Socks SocksUp; Socks (SendDone 2);
    Socks (RecvDone [7; 8; 9] [(2, ERR_OK); (0, ERR_OK)] true) ].
Definition ex_life : list event :=
  ex_start ++ [ Socks (SendDone 1); TcpSent 2 [(5, ERR_OK)] true true [];
                Socks (RecvDone [10] [(5, ERR_OK)] true); Socks (SocksClosed true);
                TcpSent 2 [] true true [] ].

Definition ex_ran (es : list event) : option world :=
  match run_steps step init es with Some (Ok w) => Some w | _ => None end.

Lemma ex_ran_run es P : match ex_ran es with Some w => P w | None => False end →
  ∃ w, run_steps step init es = Some (Ok w) ∧ P w.
Proof. unfold ex_ran. destruct (run_steps step init es) as [[w|]|]; [eauto|done..]. Qed.

Lemma tcp_client_safe_witness :
  ∃ w, run_steps step init ex_life = Some (Ok w) ∧ (pcb w = None ∧ socks w = None) ∧ allocs w = 1%nat ∧ frees w = 1%nat.
Proof.
  destruct (ex_ran_run ex_life (λ w, client (state w) = None ∧ allocs w = 1%nat)) as (w & Hr & Hc & Ha).
  { vm_compute. split; reflexivity. }
  destruct (tcp_client_safe ex_life _ Hr) as (w' & Hw & Hfree & Hal & _). apply result_ok_inj in Hw as <-.
  exists w. split; [exact Hr|]. rewrite Hc in Hal. split; [by apply Hfree|]. split; [exact Ha|]. lia.
Defined.

Lemma tcp_client_streams_witness :
  ∃ w, run_steps step init ex_life = Some (Ok w) ∧ to_tcp w = [7; 8; 9; 10] ∧ from_socks w = [7; 8; 9; 10] ∧ acked w = 4.
Proof.
  destruct (ex_ran_run ex_life (λ w, client (state w) = None ∧ tcp_failed w = false ∧ from_socks w = [7; 8; 9; 10]))
    as (w & Hr & Hc & Hf & Hs).
  { vm_compute. repeat split; reflexivity. }
  destruct (tcp_client_streams ex_life w Hr) as (_ & _ & Hend). destruct (Hend Hc) as [_ Hd].
  destruct (Hd Hf) as [Ht Ha]. exists w. rewrite Ht, Ha, Hs. split; [exact Hr|]. repeat split.
Defined.

Lemma tcp_client_window_witness :
  ∃ w w', run_steps step init ex_start = Some (Ok w) ∧ step w (TcpRecv [4; 5] []) = Some (Ok w') ∧
    from_tcp w' = [1; 2; 3; 4; 5].
Proof.
  destruct (ex_ran_run ex_start (λ w, from_tcp w = [1; 2; 3] ∧ recved w = 2 ∧ is_Some (step w (TcpRecv [4; 5] []))))
    as (w & Hr & Hf & Hrec & [r Hs]).
  { vm_compute. split; [reflexivity|]. split; [reflexivity|]. eexists. reflexivity. }
  destruct (tcp_client_window ex_start w [4; 5] [] r Hr Hs) as (_ & _ & Hw).
  destruct Hw as (w' & Hw & Hf' & _); [rewrite Hf, Hrec; vm_compute; discriminate|].
  exists w, w'. rewrite <- Hw. split; [exact Hr|]. split; [exact Hs|]. by rewrite Hf', Hf.
Defined.

Lemma tcp_client_drains_witness :
  ∃ w w' rest, run_steps step init (ex_start ++ [TcpErr]) = Some (Ok w) ∧ socks w = Some true ∧
    run_steps step w rest = Some (Ok w') ∧ client (state w') = None.
Proof.
  destruct (ex_ran_run (ex_start ++ [TcpErr]) (λ w, pcb w = None ∧ socks w = Some true)) as (w & Hr & Hp & Hs).
  { vm_compute. split; reflexivity. }
  destruct (tcp_client_drains _ w Hr (or_introl Hp)) as (rest & w' & _ & Hrun & Hc).
  exists w, w', rest. repeat (split; [assumption|]). exact Hc.
Defined.

End TcpClientFacts.
