(* ===== verification/Program.v ===== *)
(** * The program: tun2socks/tun2socks.c (start, end and arguments) and misc/read_file.h

    Android's service calls [runTun2Socks], possibly many times in one process: it sets the options and calls
    [run], which opens the device, starts the UDP gateway client and lwip, enters the event loop, and in the end, or when
    any of these fails, releases what it has.  What outlives a run are static variables, among them lwip's lists of
    connections (Lwip.v), which must be empty for the next run to listen.

    [ReadFile] reads the password file.  [Program] has the options, their processing, the handlers that start and
    end the program, the accepting and ending of clients, and [run] with its labels, over a record of everything that
    has to be released.  [ProgramFacts] shows that [run] releases all of it and leaves no connections, whatever fails and
    whatever happens in the loop, when assertions are compiled out or signals caught; that it then can listen again; that
    it ends when it is told to; and what it does when assertions are compiled in and signals not caught. *)

From Stdlib Require Import Ascii String.
From S2P Require Import Prelude CMem Strings IpAddr6 Addr UdpGwProto PacketProto SocksClient SocksUdpGwClient IpPackets TunDevice Signals Lwip.

(** ** misc/read_file.h *)

Module ReadFile.

(** A file that is open: what is left of it, and whether reading fails after that, or it ends. *)
Record file := mkfile {
  rest : list Z;
  fails : bool;
}.

(** [fread] reads less than it is asked for only at the end or after an error. *)
Definition fread (f : file) (n : Z) : list Z * file :=
  (take (Z.to_nat n) (rest f), mkfile (drop (Z.to_nat n) (rest f)) (fails f)).

(** The successful calls on the buffer, and [fclose]. *)
Inductive call := Malloc (n : Z) | Realloc (n : Z) | Free_buf | Fclose.

#[global] Instance call_eq_dec : EqDecision call.
Proof. solve_decision. Defined.

Definition fail1 (cs : list call) : result (option (list Z) * list call) := Ok (None, cs ++ [Fclose]).
Definition fail (cs : list call) : result (option (list Z) * list call) := fail1 (cs ++ [Free_buf]).

(** The loop, with the buffer's contents and size and the calls so far; [grow] is whether [realloc] succeeds for a size.
    Each iteration reads at least one byte or is the last, so that one more than the file's length is
    enough fuel ([read_file_ok]). *)
Fixpoint read_loop (fuel : nat) (f : file) (grow : Z → bool) (buf : list Z) (buf_size : Z) (cs : list call)
    : result (option (list Z) * list call) :=
  match fuel with
  | O => Fault AssertFailed
  | S fuel =>
      let read buf_size cs :=
        let '(bytes, f) := fread f (buf_size - Z.of_nat (length buf)) in
        match bytes with
        | [] => if fails f then fail cs else Ok (Some buf, cs ++ [Fclose])
        | _ => read_loop fuel f grow (buf ++ bytes) buf_size cs
        end in
      if Z.of_nat (length buf) =? buf_size then
        if SIZE_MAX / buf_size <? 2 then fail cs else
        let newsize := to_size (2 * buf_size) in
        if negb (grow newsize) then fail cs else read newsize (cs ++ [Realloc newsize])
      else read buf_size cs
  end.

(** [opened] is what [fopen] returns, [alloc] whether the first [malloc] succeeds. *)
Definition read_file (opened : option file) (alloc : bool) (grow : Z → bool)
    : result (option (list Z) * list call) :=
  match opened with
  | None => Ok (None, [])
  | Some f => if negb alloc then fail1 [] else read_loop (length (rest f) + 1) f grow [] 128 [Malloc 128]
  end.

End ReadFile.

Module ReadFileFacts.
Import ReadFile.

(** What is allocated after the calls, by its size, and whether the file is open; [None] for a call that is not allowed. *)
Definition account (st : option Z * bool) (c : call) : option (option Z * bool) :=
  match c, st with
  | Malloc n, (None, b) => Some (Some n, b)
  | Realloc n, (Some _, b) => Some (Some n, b)
  | Free_buf, (Some _, b) => Some (None, b)
  | Fclose, (a, true) => Some (a, false)
  | _, _ => None
  end.

Definition accounts (cs : list call) : option (option Z * bool) :=
  foldl (λ st c, st ≫= λ st, account st c) (Some (None, true)) cs.

Lemma accounts_snoc cs c : accounts (cs ++ [c]) = accounts cs ≫= λ st, account st c.
Proof. unfold accounts. by rewrite foldl_snoc. Qed.

(** The outcome: the whole file, in a buffer that holds it, or nothing. *)
Definition outcome (all : list Z) (bad : bool) (r : option (list Z)) (cs : list call) : Prop :=
  match r with
  | Some bs => bs = all ∧ bad = false ∧ ∃ n, Z.of_nat (length all) ≤ n ∧ accounts cs = Some (Some n, false)
  | None => accounts cs = Some (None, false)
  end.

Lemma read_fail_ok all bad n cs : accounts cs = Some (Some n, true) →
  ∃ cs', fail cs = Ok (None, cs') ∧ outcome all bad None cs'.
Proof. intros H. eexists. split; [done|]. unfold outcome. by rewrite !accounts_snoc, H. Qed.

Lemma fread_split f n : (fread f n).1 ++ rest (fread f n).2 = rest f ∧ fails (fread f n).2 = fails f.
Proof. simpl. by rewrite take_drop. Qed.

Lemma read_loop_ok fuel : ∀ f grow buf size cs,
  (length (rest f) < fuel)%nat → Z.of_nat (length buf) ≤ size → 0 < size ≤ SIZE_MAX →
  accounts cs = Some (Some size, true) →
  ∃ r cs', read_loop fuel f grow buf size cs = Ok (r, cs') ∧ outcome (buf ++ rest f) (fails f) r cs' ∧
    ((∀ n, n ≤ 2 * Z.of_nat (length (buf ++ rest f)) → grow n = true) → fails f = false →
     2 * Z.of_nat (length (buf ++ rest f)) ≤ SIZE_MAX → r = Some (buf ++ rest f)).
Proof.
  induction fuel as [|fuel IH]; intros f grow buf size cs Hfuel Hlen Hsize Hcs; [lia|]. cbn [read_loop].
  assert (Hread : ∀ size' cs', Z.of_nat (length buf) < size' ≤ SIZE_MAX → accounts cs' = Some (Some size', true) →
    ∃ r cs'', (let '(bytes, f) := fread f (size' - Z.of_nat (length buf)) in
       match bytes with
       | [] => if fails f then fail cs' else Ok (Some buf, cs' ++ [Fclose])
       | _ => read_loop fuel f grow (buf ++ bytes) size' cs'
       end) = Ok (r, cs'') ∧ outcome (buf ++ rest f) (fails f) r cs'' ∧
      ((∀ n, n ≤ 2 * Z.of_nat (length (buf ++ rest f)) → grow n = true) → fails f = false →
       2 * Z.of_nat (length (buf ++ rest f)) ≤ SIZE_MAX → r = Some (buf ++ rest f))).
  { intros size' cs' Hlt Hcs'. destruct (fread_split f (size' - Z.of_nat (length buf))) as [Hsp Hff].
    assert (Hbl : Z.of_nat (length (fread f (size' - Z.of_nat (length buf))).1) ≤ size' - Z.of_nat (length buf)).
    { simpl. rewrite length_take. lia. }
    assert (Hnil : (fread f (size' - Z.of_nat (length buf))).1 = [] → rest f = []).
    { simpl. destruct (rest f); [done|]. destruct (Z.to_nat _) eqn:E; [lia|done]. }
    destruct (fread f _) as [bytes f']. simpl in Hsp, Hff, Hbl, Hnil. rewrite <- Hff. destruct bytes as [|b bytes].
    - rewrite (Hnil eq_refl), app_nil_r. destruct (fails f').
      + destruct (read_fail_ok buf true size' cs' Hcs') as (cs'' & E & Ho). exists None, cs''. split_and!; done.
      + exists (Some buf), (cs' ++ [Fclose]). split; [done|]. split; [|done]. split_and!; [done..|].
        exists size'. split; [lia|]. by rewrite accounts_snoc, Hcs'.
    - destruct (IH f' grow (buf ++ b :: bytes) size' cs') as (r & cs'' & E & Ho & Hc); [..|done|].
      { rewrite <- Hsp in Hfuel. rewrite length_app in Hfuel. simpl in Hfuel. lia. }
      { rewrite length_app. lia. }
      { lia. }
      rewrite <- app_assoc, Hsp in Ho, Hc. exists r, cs''. split_and!; done. }
  destruct (Z.eqb_spec (Z.of_nat (length buf)) size) as [He|He]; [|by apply Hread; [lia|]].
  destruct (Z.ltb_spec (SIZE_MAX / size) 2) as [Hd|Hd].
  - destruct (read_fail_ok (buf ++ rest f) (fails f) size cs Hcs) as (cs' & E & Ho). exists None, cs'. split_and!; [done..|].
    intros _ _ Hb. rewrite length_app in Hb. assert (2 ≤ SIZE_MAX / size) by (apply Z.div_le_lower_bound; lia). lia.
  - assert (2 * size ≤ SIZE_MAX) by (pose proof (Z.mul_div_le SIZE_MAX size); nia).
    assert (to_size (2 * size) = 2 * size) as -> by (apply Z.mod_small; lia).
    destruct (grow (2 * size)) eqn:Hg; cbn [negb].
    + apply Hread; [lia|]. by rewrite accounts_snoc, Hcs.
    + destruct (read_fail_ok (buf ++ rest f) (fails f) size cs Hcs) as (cs' & E & Ho). exists None, cs'. split_and!; [done..|].
      intros Hgrow. rewrite Hgrow in Hg; [done|]. rewrite length_app. lia.
Qed.

(** Reading a file returns, with all of the file in a buffer that is not freed, or with nothing allocated; the file
    is closed; and it succeeds if the file can be read, there is memory and half of SIZE_MAX is enough. *)
Lemma read_file_ok f alloc grow :
  ∃ r cs, read_file (Some f) alloc grow = Ok (r, cs) ∧ outcome (rest f) (fails f) r cs ∧
    (alloc = true → (∀ n, n ≤ 2 * Z.of_nat (length (rest f)) → grow n = true) → fails f = false →
     2 * Z.of_nat (length (rest f)) ≤ SIZE_MAX → r = Some (rest f)).
Proof.
  unfold read_file. destruct alloc; cbn [negb]; [|by exists None, [Fclose]].
  destruct (read_loop_ok (length (rest f) + 1) f grow [] 128 [Malloc 128]) as (r & cs & E & Ho & Hc);
    [lia|simpl; lia|unfold SIZE_MAX; lia|done|]. exists r, cs. split_and!; auto.
Qed.

End ReadFileFacts.

(** ** tun2socks/tun2socks.c *)

Module Program.

Definition DEFAULT_UDPGW_MAX_CONNECTIONS : Z := 256.
Definition DEFAULT_UDPGW_CONNECTION_BUFFER_SIZE : Z := 8.

Definition sizeof_udp_header : Z := 8.

(** A string is its characters; [None] is NULL. *)
Record options := mkopts {
  netif_ipaddr : option (list Z);
  netif_netmask : option (list Z);
  netif_ip6addr : option (list Z);
  socks_server_addr : option (list Z);
  username : option (list Z);
  password : option (list Z);
  password_file : option (list Z);
  append_source_to_username : bool;
  udpgw_remote_server_addr : option (list Z);
  udpgw_max_connections : Z;
  udpgw_connection_buffer_size : Z;
  udpgw_transparent_dns : bool;
  tundev : option (list Z);
  tun_fd : Z;
  tun_mtu : Z;
  set_signal : bool;
  loglevel : Z;
}.

(** [tun_mtu] keeps its value. *)
Definition init_arguments (old : options) : options :=
  {| netif_ipaddr := None; netif_netmask := None; netif_ip6addr := None; socks_server_addr := None;
     username := None; password := None; password_file := None; append_source_to_username := false;
     udpgw_remote_server_addr := None; udpgw_max_connections := DEFAULT_UDPGW_MAX_CONNECTIONS;
     udpgw_connection_buffer_size := DEFAULT_UDPGW_CONNECTION_BUFFER_SIZE; udpgw_transparent_dns := false;
     tundev := None; tun_fd := 0; tun_mtu := tun_mtu old; set_signal := true; loglevel := -1 |}.

(** What the Java service passes to [runTun2Socks]. *)
Record java_args := mkjava {
  vpnInterfaceFileDescriptor : Z;
  vpnInterfaceMTU : Z;
  vpnIpAddress : list Z;
  vpnNetMask : list Z;
  socksServerAddress : list Z;
  udpgwServerAddress : list Z;
  udpgwTransparentDNS : bool;
}.

Definition java_options (old : options) (j : java_args) : options :=
  let o := init_arguments old in
  {| netif_ipaddr := Some (vpnIpAddress j); netif_netmask := Some (vpnNetMask j); netif_ip6addr := netif_ip6addr o;
     socks_server_addr := Some (socksServerAddress j); username := username o; password := password o;
     password_file := password_file o; append_source_to_username := append_source_to_username o;
     udpgw_remote_server_addr := Some (udpgwServerAddress j); udpgw_max_connections := udpgw_max_connections o;
     udpgw_connection_buffer_size := udpgw_connection_buffer_size o; udpgw_transparent_dns := udpgwTransparentDNS j;
     tundev := tundev o; tun_fd := vpnInterfaceFileDescriptor j; tun_mtu := vpnInterfaceMTU j;
     set_signal := false; loglevel := 2 |}.

(** *** What has to be released *)

(** [Client n] is a [struct tcp_client] with its SOCKS client (Tun2Socks.v), [Udpgw_client] the client with its connection
    and timer (SocksUdpGwClient.v).  The blocks of connections are in lwip's lists (Lwip.v). *)
Inductive res :=
| Password_file_contents | Reactor | Device | Device_read_interface | Device_read_buffer | Udpgw_client
| Lwip_init_job | Device_write_buf | Netif | Pcb | Pcb_ip6 | Listener | Listener_ip6 | Client (n : nat).

#[global] Instance res_eq_dec : EqDecision res.
Proof. solve_decision. Defined.

Definition res_code (r : res) : nat :=
  match r with
  | Password_file_contents => 0 | Reactor => 1 | Device => 2 | Device_read_interface => 3 | Device_read_buffer => 4
  | Udpgw_client => 5 | Lwip_init_job => 6 | Device_write_buf => 7 | Netif => 8 | Pcb => 9
  | Pcb_ip6 => 10 | Listener => 11 | Listener_ip6 => 12 | Client n => 13 + n
  end.

Definition res_decode (n : nat) : option res :=
  match n with
  | 0 => Some Password_file_contents | 1 => Some Reactor | 2 => Some Device | 3 => Some Device_read_interface
  | 4 => Some Device_read_buffer | 5 => Some Udpgw_client | 6 => Some Lwip_init_job | 7 => Some Device_write_buf
  | 8 => Some Netif | 9 => Some Pcb | 10 => Some Pcb_ip6 | 11 => Some Listener
  | 12 => Some Listener_ip6 | S (S (S (S (S (S (S (S (S (S (S (S (S n)))))))))))) => Some (Client n)
  end%nat.

#[global] Instance res_countable : Countable res.
Proof. refine (inj_countable res_code res_decode _). by intros []. Defined.

(** The process: what is live, the system's view of it, the static variables that outlive a run ([bnetwork_initialized],
    [bsignal_global], lwip's lists), and those of a run: whether it ends, whether the job that starts lwip is set, the
    clients in their list with [client_closed], the reactor's descriptor, the device, and whether the TCP timer is set in
    the reactor. *)
Record world := mkw {
  live : gset res;
  sys : os;
  net : bool;
  sig : Signal.t;
  pcbs : Lwip.lists;
  quitting : bool;
  lwip_set : bool;
  tcp_clients : list (nat * bool);
  efd : Z;
  device : BTap.t;
  tcp_timer : bool;
}.

Definition with_live (w : world) (l : gset res) : world :=
  mkw l (sys w) (net w) (sig w) (pcbs w) (quitting w) (lwip_set w) (tcp_clients w) (efd w) (device w) (tcp_timer w).
Definition with_sys (w : world) (o : os) : world :=
  mkw (live w) o (net w) (sig w) (pcbs w) (quitting w) (lwip_set w) (tcp_clients w) (efd w) (device w) (tcp_timer w).
Definition with_net (w : world) (o : os) (b : bool) : world :=
  mkw (live w) o b (sig w) (pcbs w) (quitting w) (lwip_set w) (tcp_clients w) (efd w) (device w) (tcp_timer w).
Definition with_sig (w : world) (o : os) (g : Signal.t) : world :=
  mkw (live w) o (net w) g (pcbs w) (quitting w) (lwip_set w) (tcp_clients w) (efd w) (device w) (tcp_timer w).
Definition with_loop (w : world) (q l : bool) (cs : list (nat * bool)) : world :=
  mkw (live w) (sys w) (net w) (sig w) (pcbs w) q l cs (efd w) (device w) (tcp_timer w).
Definition with_efd (w : world) (n : Z) : world :=
  mkw (live w) (sys w) (net w) (sig w) (pcbs w) (quitting w) (lwip_set w) (tcp_clients w) n (device w) (tcp_timer w).
Definition with_device (w : world) (d : BTap.t) : world :=
  mkw (live w) (sys w) (net w) (sig w) (pcbs w) (quitting w) (lwip_set w) (tcp_clients w) (efd w) d (tcp_timer w).
Definition with_timer (w : world) (t : bool) : world :=
  mkw (live w) (sys w) (net w) (sig w) (pcbs w) (quitting w) (lwip_set w) (tcp_clients w) (efd w) (device w) t.
Definition with_conns (w : world) (cs : list (nat * bool)) (l : Lwip.lists) : world :=
  mkw (live w) (sys w) (net w) (sig w) l (quitting w) (lwip_set w) cs (efd w) (device w) (tcp_timer w).

Definition acquire (r : res) (w : world) : result world :=
  ASSERT bool_decide (r ∉ live w) ;; Ok (with_live w ({[r]} ∪ live w)).

Definition release (r : res) (w : world) : result world :=
  ASSERT bool_decide (r ∈ live w) ;; Ok (with_live w (live w ∖ {[r]})).

Definition release_if (r : res) (w : world) : result world :=
  if bool_decide (r ∈ live w) then release r w else Ok w.

(** *** Arguments *)

(** What [process_arguments] stores: the addresses and the authentication methods. *)
Record args := mkargs {
  ipaddr : Z;
  netmask : Z;
  ip6addr : option (list Z);
  socks_server : BAddr.t;
  auths : list SocksClient.auth_info;
  udpgw_remote : option BAddr.t;
}.

(** The resolver, and the file the password is read from, with its memory. *)
Record arg_inputs := mkai {
  getaddrinfo : resolver;
  ip6_before : list Z;
  opened : option ReadFile.file;
  file_alloc : bool;
  file_grow : Z → bool;
}.

(** The address of a string that must be an IPv4 address; a NULL string is a bad access. *)
Definition resolve_ipv4 (i : arg_inputs) (s : option (list Z)) : result (option Z) :=
  s ← or_fault BadAccess s;
  Ok match BIPAddr.Resolve (getaddrinfo i) s false with Some (BIPAddr.IPV4 ip) => Some ip | _ => None end.

Definition parse_ip6 (i : arg_inputs) (s : option (list Z)) : result (option (option (list Z))) :=
  match s with
  | None => Ok (Some None)
  | Some s => a ← IPv6.parse_addr_bin s (ip6_before i); Ok (match a with Some b => Some (Some b) | None => None end)
  end.

Definition parse_addr (i : arg_inputs) (s : list Z) : option BAddr.t :=
  fst <$> BAddr.Parse2 (getaddrinfo i) s None false.

(** The password, from the options or from the file, whose contents stay allocated. *)
Definition read_password (o : options) (i : arg_inputs) (w : world) : result (option (list Z) * world) :=
  match password o with
  | Some p => Ok (Some p, w)
  | None =>
      '(r, _) ← ReadFile.read_file (opened i) (file_alloc i) (file_grow i);
      match r with
      | Some p => w ← acquire Password_file_contents w; Ok (Some p, w)
      | None => Ok (None, w)
      end
  end.

Definition auth_list (o : options) (i : arg_inputs) (w : world)
    : result (option (list SocksClient.auth_info) * world) :=
  match username o with
  | None => Ok (Some [SocksClient.auth_none], w)
  | Some u =>
      '(p, w) ← read_password o i w;
      Ok (match p with Some p => Some [SocksClient.auth_none; SocksClient.auth_password u p] | None => None end, w)
  end.

Definition process_arguments (o : options) (i : arg_inputs) (w : world) : result (option args * world) :=
  ASSERT bool_decide (Password_file_contents ∉ live w) ;;
  ip ← resolve_ipv4 i (netif_ipaddr o);
  match ip with None => Ok (None, w) | Some ip =>
  mask ← resolve_ipv4 i (netif_netmask o);
  match mask with None => Ok (None, w) | Some mask =>
  ip6 ← parse_ip6 i (netif_ip6addr o);
  match ip6 with None => Ok (None, w) | Some ip6 =>
  s ← or_fault BadAccess (socks_server_addr o);
  match parse_addr i s with None => Ok (None, w) | Some server =>
  '(a, w) ← auth_list o i w;
  match a with None => Ok (None, w) | Some a =>
  match udpgw_remote_server_addr o with
  | None => Ok (Some (mkargs ip mask ip6 server a None), w)
  | Some s =>
      match parse_addr i s with
      | None => Ok (None, w)
      | Some r => Ok (Some (mkargs ip mask ip6 server a (Some r)), w)
      end
  end end end end end end.

(** *** The handlers that start and end the program *)

Definition terminate (w : world) : result world :=
  ASSERT negb (quitting w) ;; Ok (with_loop w true (lwip_set w) (tcp_clients w)).

Definition signal_handler (w : world) : result world := ASSERT negb (quitting w) ;; terminate w.

Definition device_error_handler (w : world) : result world := ASSERT negb (quitting w) ;; terminate w.

(** [flag] is [g_terminate].  A timer that has expired is not set any more, until it is set again; [tcp_tmr] is lwip's. *)
Definition tcp_timer_handler (flag : bool) (w : world) : result world :=
  ASSERT negb (quitting w) ;; if flag then terminate w else Ok (with_timer w true).

(** Whether lwip has memory: for the interface, for the blocks, with their addresses, and for the listeners. *)
Record lwip_answers := mklwip {
  on_netif_add : bool;
  on_tcp_new : option nat;
  on_listen : bool;
  on_tcp_new_ip6 : option nat;
  on_listen_ip6 : bool;
}.

(** A listener of either kind: [tcp_new], [tcp_bind_to_netif], [tcp_listen], which replaces the block; the flag is false
    for a failure. *)
Definition init_listener (pcb listener : res) (v6 : bool) (new : option nat) (listen : bool) (w : world)
    : result (world * bool) :=
  match new with
  | None => Ok (w, false)
  | Some n =>
      w ← acquire pcb w;
      let '(l, ok) := Lwip.tcp_bind_to_netif (pcbs w) (bool_decide (listener ∈ live w)) (Lwip.tcp_alloc n v6) in
      if negb ok then w ← release pcb w; Ok (w, false) else
      let w := with_conns w (tcp_clients w) l in
      if negb listen then
        w ← release pcb (with_conns w (tcp_clients w) (Lwip.unbind (pcbs w) n)); Ok (w, false)
      else
        w ← release pcb (with_conns w (tcp_clients w) (Lwip.unbind (pcbs w) n));
        w ← acquire listener w;
        Ok (w, true)
  end.

Definition lwip_init_job_handler (o : options) (k : lwip_answers) (w : world) : result world :=
  let fail w := if quitting w then Ok w else terminate w in
  ASSERT negb (quitting w) ;;
  ASSERT bool_decide (Netif ∉ live w) ;;
  ASSERT bool_decide (Listener ∉ live w) ;;
  ASSERT bool_decide (Listener_ip6 ∉ live w) ;;
  if negb (on_netif_add k) then fail w else
  w ← acquire Netif w;
  '(w, ok) ← init_listener Pcb Listener false (on_tcp_new k) (on_listen k) w;
  if negb ok then fail w else
  match netif_ip6addr o with
  | None => Ok w
  | Some _ =>
      '(w, ok) ← init_listener Pcb_ip6 Listener_ip6 true (on_tcp_new_ip6 k) (on_listen_ip6 k) w;
      if (ok : bool) then Ok w else fail w
  end.

(** *** Connections *)

(** [client_err_func], and the part of [client_handle_freed_client] that is seen here; it is a bad access if the client is
    not there any more. *)
Definition client_err_func (n : nat) (w : world) : result world :=
  b ← or_fault BadAccess (snd <$> head (filter (λ c, c.1 = n) (tcp_clients w)));
  ASSERT negb b ;;
  Ok (with_conns w (Lwip.leave_pcb n (tcp_clients w)) (pcbs w)).

(** The error callback of a client is called if it is set. *)
Definition tcp_abort (p : Lwip.pcb) (w : world) : result world :=
  let '(l, errf) := Lwip.tcp_abandon (pcbs w) p in
  let w := with_conns w (tcp_clients w) l in
  match errf with Some n => client_err_func n w | None => Ok w end.

(** [pcb->next] is read before the block is aborted. *)
Fixpoint tcp_remove (pcb_list : list Lwip.pcb) (w : world) : result world :=
  match pcb_list with
  | [] => Ok w
  | p :: l => w ← tcp_abort p w; tcp_remove l w
  end.

(** The accept callback, for which the client and its SOCKS client can be made or not: lwip aborts the connection if it
    fails ([tcp_process]). *)
Definition listener_accept_func (p : Lwip.pcb) (ok : bool) (w : world) : result world :=
  let n := Lwip.pid p in
  if negb ok then tcp_abort p w else
  w ← acquire (Client n) w;
  Ok (with_conns w (tcp_clients w ++ [(n, false)]) (Lwip.accepted (pcbs w) n)).

Definition client_dealloc (n : nat) (w : world) : result world :=
  w ← release (Client n) w;
  Ok (with_conns w (filter (λ c, c.1 ≠ n) (tcp_clients w)) (pcbs w)).

(** *** The event loop *)

(** [Syn] is a request for a connection; [Client_pcb], that a client gives up its block, by closing or aborting it, or because
    lwip reports an error; [Client_end] is the end of a client that has; [Pcb_settles] and [Pcb_waited] are the
    course of connections that are no client's.  What makes clients do this is in Tun2Socks.v. *)
Inductive event :=
| Lwip_init (k : lwip_answers)
| Tcp_timer_expired (flag : bool)
| Device_error
| Signal_caught
| Syn (n : nat) (v6 : bool)
| Accept (n : nat) (ok : bool)
| Client_pcb (n : nat) (to : Lwip.fate)
| Client_end (n : nat)
| Pcb_settles (n : nat) (to : Lwip.fate)
| Pcb_waited (n : nat).

(** An address that is not in use, for a client or a block. *)
Definition unused (n : nat) (w : world) : bool :=
  bool_decide (n ∉ (tcp_clients w).*1) && bool_decide (n ∉ Lwip.pid <$> (Lwip.active (pcbs w) ++ Lwip.tw (pcbs w))).

(** Pending jobs run before anything else is waited for, and the one that starts lwip was set last (Reactor.v).  The timer
    can expire when it is set. *)
Definition step (o : options) (w : world) (e : event) : option (result world) :=
  if quitting w then None else
  match e with
  | Lwip_init k =>
      if lwip_set w then Some (lwip_init_job_handler o k (with_loop w (quitting w) false (tcp_clients w))) else None
  | _ =>
      if lwip_set w then None else
      match e with
      | Lwip_init _ => None
      | Tcp_timer_expired flag =>
          if tcp_timer w then Some (tcp_timer_handler flag (with_timer w false)) else None
      | Device_error => Some (device_error_handler w)
      | Signal_caught => if set_signal o then Some (signal_handler w) else None
      | Syn n v6 =>
          if bool_decide ((if v6 then Listener_ip6 else Listener) ∈ live w) && unused n w then
            Some (Ok (with_conns w (tcp_clients w) (Lwip.tcp_listen_input (pcbs w) n v6)))
          else None
      | Accept n ok =>
          match Lwip.find_pcb (Lwip.active (pcbs w)) n with
          | Some p =>
              if bool_decide (Lwip.pstate p = Lwip.SYN_RCVD) && bool_decide (n ∉ (tcp_clients w).*1)
                 && bool_decide (Lwip.errf p = None) then
                Some (listener_accept_func p ok w)
              else None
          | None => None
          end
      | Client_pcb n to =>
          if bool_decide ((n, false) ∈ tcp_clients w) then
            Some (Ok (with_conns w (Lwip.leave_pcb n (tcp_clients w)) (Lwip.settle n to (pcbs w))))
          else None
      | Client_end n =>
          if bool_decide ((n, true) ∈ tcp_clients w) then Some (client_dealloc n w) else None
      | Pcb_settles n to =>
          match Lwip.find_pcb (Lwip.active (pcbs w)) n with
          | Some p =>
              if bool_decide (Lwip.errf p = None) then
                Some (Ok (with_conns w (tcp_clients w) (Lwip.settle n to (pcbs w))))
              else None
          | None => None
          end
      | Pcb_waited n => Some (Ok (with_conns w (tcp_clients w) (Lwip.waited n (pcbs w))))
      end
  end.

(** *** [run] *)

(** What the system answers before the loop. *)
Record inputs := mkin {
  on_sigpipe : bool;
  arg_in : arg_inputs;
  on_epoll_create : option Z;
  signal_alloc : bool;
  signal_ans : Z → UnixSignal.answer;
  tap_ans : BTap.answers;
  spb_alloc : option ptr;
  udpgw_ok : bool;
  socks_ok : bool;
  write_buf_ok : bool;
}.

Definition dev_call (w : world) (c : BTap.call) : result world :=
  match c with
  | BTap.Open n => o ← open_fd (sys w) n; Ok (with_sys w o)
  | BTap.Close n => o ← close_fd (sys w) n; Ok (with_sys w o)
  | BTap.AddFd n => o ← watch_fd (sys w) n; Ok (with_sys w o)
  | BTap.RemoveFd => o ← unwatch_fd (sys w) (BTap.fd (device w)); Ok (with_sys w o)
  | _ => Ok w
  end.

(** [BReactor_Init] and [BReactor_Free], as far as they concern the rest: nothing is left in the reactor that is freed. *)
Definition reactor_init (n : Z) (w : world) : result world :=
  o ← open_fd (sys w) n;
  w ← acquire Reactor w;
  Ok (with_efd (with_sys w o) n).

Definition reactor_free (w : world) : result world :=
  ASSERT bool_decide (live w ⊆ {[Reactor; Password_file_contents]}) ;;
  ASSERT bool_decide (watched (sys w) = ∅) ;;
  ASSERT negb (tcp_timer w) ;;
  o ← close_fd (sys w) (efd w);
  release Reactor (with_sys w o).

Definition device_free (w : world) : result world :=
  w ← run_calls dev_call w (BTap.Free (device w));
  release Device w.

Definition signal_finish (dbg : bool) (w : world) : result world :=
  '(o, g) ← Signal.Finish dbg (sys w) (sig w); Ok (with_sig w o g).

(** The labels. *)
Definition fail1 (w : world) : result world := release_if Password_file_contents w.

Definition fail2 (w : world) : result world := w ← reactor_free w; fail1 w.

Definition fail3 (dbg : bool) (w : world) : result world := w ← signal_finish dbg w; fail2 w.

Definition fail4 (dbg : bool) (w : world) : result world :=
  w ← release Device_read_interface w;
  w ← device_free w;
  fail3 dbg w.

Definition fail4a (dbg : bool) (w : world) : result world := w ← release Device_read_buffer w; fail4 dbg w.

Definition fail5 (dbg : bool) (o : options) (w : world) : result world :=
  w ← release Lwip_init_job w;
  w ← (match udpgw_remote_server_addr o with Some _ => release Udpgw_client w | None => Ok w end);
  fail4a dbg w.

(** The payload size the UDP gateway client is made for. *)
Definition compute_udp_mtu (mtu : Z) (ip6 : bool) : Z :=
  let udp_mtu := mtu - (Ipv4.sizeof + sizeof_udp_header) in
  let udp_mtu :=
    if ip6 then
      let udp_ip6_mtu := mtu - (Ipv6.sizeof + sizeof_udp_header) in
      if udp_mtu <? udp_ip6_mtu then udp_ip6_mtu else udp_mtu
    else udp_mtu in
  if udp_mtu <? 0 then 0 else udp_mtu.

Definition udpgw_too_large (udp_mtu : Z) : bool :=
  let udpgw_mtu := udpgw_compute_mtu udp_mtu in
  (udpgw_mtu <? 0) || (PACKETPROTO_MAXPAYLOAD <? udpgw_mtu).

(** The device: the descriptor of the service, or one that is opened by name. *)
Definition open_device (o : options) (i : inputs) (w : world) : result (world * bool) :=
  '(d, cs) ← (if tun_fd o =? 0 then BTap.Init (tundev o) true (tap_ans i)
              else Ok (BTap.InitWithFD (tun_fd o) (tun_mtu o) (BTap.on_add (tap_ans i))));
  w ← run_calls dev_call w cs;
  match d with
  | None => Ok (w, false)
  | Some d => w ← acquire Device (with_device w d); Ok (w, true)
  end.

(** The event loop is entered, with the configuration of its handlers, or it was not. *)
Inductive started := Entered (c : Device.config) (w : world) | Ended (w : world).

Definition ends (r : result world) : result started := w ← r; Ok (Ended w).

Definition start_rest (dbg : bool) (o : options) (i : inputs) (a : args) (mtu : Z) (udp_mtu : Z) (w : world)
    : result started :=
  w ← acquire Lwip_init_job w;
  let w := with_loop w (quitting w) true (tcp_clients w) in
  if negb (write_buf_ok i) then ends (fail5 dbg o w) else
  w ← acquire Device_write_buf w;
  let w := with_timer w true in
  let w := with_loop w (quitting w) (lwip_set w) [] in
  Ok (Entered (Device.mkcfg (bool_decide (is_Some (udpgw_remote_server_addr o))) (udpgw_transparent_dns o)
                 (bool_decide (is_Some (netif_ip6addr o))) (ipaddr a) udp_mtu mtu) w).

Definition start_device (dbg : bool) (o : options) (i : inputs) (a : args) (w : world) : result started :=
  '(w, ok) ← open_device o i w;
  if negb ok then ends (fail3 dbg w) else
  let mtu := BTap.GetMTU (device w) in
  w ← acquire Device_read_interface w;
  b ← SinglePacketBuffer.Init mtu mtu (spb_alloc i);
  match b with
  | None => ends (fail4 dbg w)
  | Some _ =>
      w ← acquire Device_read_buffer w;
      match udpgw_remote_server_addr o with
      | None => start_rest dbg o i a mtu 0 w
      | Some _ =>
          let udp_mtu := compute_udp_mtu mtu (bool_decide (is_Some (netif_ip6addr o))) in
          if udpgw_too_large udp_mtu then ends (fail4a dbg w) else
          remote ← or_fault BadAccess (udpgw_remote a);
          g ← SocksUdpGwClient.Init udp_mtu (socks_server a) (auths a) remote (udpgw_ok i) (socks_ok i);
          match g with
          | None => ends (fail4a dbg w)
          | Some _ => w ← acquire Udpgw_client w; start_rest dbg o i a mtu udp_mtu w
          end
      end
  end.

Definition start (dbg : bool) (o : options) (i : inputs) (w : world) : result started :=
  '(s, b, ok) ← BNetwork_GlobalInit dbg (sys w) (net w) (on_sigpipe i);
  let w := with_net w s b in
  if negb ok then ends (fail1 w) else
  '(a, w) ← process_arguments o (arg_in i) w;
  match a with
  | None => ends (fail1 w)
  | Some a =>
      match on_epoll_create i with
      | None => ends (fail1 w)
      | Some n =>
          w ← reactor_init n w;
          let w := with_loop w false (lwip_set w) (tcp_clients w) in
          if set_signal o then
            '(s, g, ok) ← Signal.Init dbg (sys w) (sig w) (signal_alloc i) (signal_ans i);
            let w := with_sig w s g in
            if (ok : bool) then start_device dbg o i a w else ends (fail2 w)
          else start_device dbg o i a w
      end
  end.

(** The part of [client_murder] before [client_dealloc]: a client that has not given up its block removes its callbacks and
    aborts it. *)
Definition client_abort (n : nat) (w : world) : result world :=
  let w := with_conns w (tcp_clients w)
    (Lwip.mklists (Lwip.bound (pcbs w)) (Lwip.set_pcb (Lwip.active (pcbs w)) n (Lwip.tcp_err None)) (Lwip.tw (pcbs w))) in
  p ← or_fault BadAccess (Lwip.find_pcb (Lwip.active (pcbs w)) n);
  tcp_abort p w.

(** [while (node = LinkedList1_GetFirst(&tcp_clients))]: [cs] is the list. *)
Fixpoint murder_clients (cs : list (nat * bool)) (w : world) : result world :=
  match cs with
  | [] => Ok w
  | (n, client_closed) :: cs =>
      w ← (if client_closed then Ok w else client_abort n w);
      w ← release (Client n) w;
      murder_clients cs (with_conns w cs (pcbs w))
  end.

(** After the loop.  [BReactor_RemoveTimer] may be called for a timer that is not set. *)
Definition finish (dbg : bool) (o : options) (w : world) : result world :=
  w ← murder_clients (tcp_clients w) w;
  w ← release_if Listener_ip6 w;
  w ← release_if Listener w;
  w ← release_if Netif w;
  w ← tcp_remove (Lwip.bound (pcbs w)) w;
  w ← tcp_remove (Lwip.active (pcbs w)) w;
  w ← tcp_remove (Lwip.tw (pcbs w)) w;
  let w := with_timer w false in
  w ← release Device_write_buf w;
  fail5 dbg o w.

(** [None] while the loop runs. *)
Definition run (dbg : bool) (o : options) (i : inputs) (es : list event) (w : world) : option (result world) :=
  match start dbg o i w with
  | Fault f => Some (Fault f)
  | Ok (Ended w) => Some (Ok w)
  | Ok (Entered _ w) =>
      r ← run_steps (step o) w es;
      match r with
      | Fault f => Some (Fault f)
      | Ok w => if quitting w then Some (finish dbg o w) else None
      end
  end.

Definition runTun2Socks (dbg : bool) (old : options) (j : java_args) (i : inputs) (es : list event) (w : world)
    : option (result world) := run dbg (java_options old j) i es w.

End Program.

Module ProgramFacts.
Import SignalFacts Program.

(** A computation succeeds with a result that has a property. *)
Definition post {A} (r : result A) (Q : A → Prop) : Prop := ∃ a, r = Ok a ∧ Q a.

Lemma post_ok {A} (a : A) (Q : A → Prop) : Q a → post (Ok a) Q.
Proof. by exists a. Qed.

Lemma post_bind {A B} (r : result A) (f : A → result B) P (Q : B → Prop) :
  post r P → (∀ a, P a → post (f a) Q) → post (r ≫= f) Q.
Proof. intros (a & -> & Ha) H. rewrite ok_bind. auto. Qed.

Lemma post_mono {A} (r : result A) (P Q : A → Prop) : post r P → (∀ a, P a → Q a) → post r Q.
Proof. intros (a & -> & Ha) H. exists a. auto. Qed.

Lemma post_assert {A} b (k : result A) Q : b = true → post k Q → post (c_assert b k) Q.
Proof. by intros ->. Qed.

(** *** Resources *)

Lemma acquire_post r w (Q : world → Prop) :
  r ∉ live w → Q (with_live w ({[r]} ∪ live w)) → post (acquire r w) Q.
Proof. intros H HQ. apply post_assert; [by apply bool_decide_eq_true | by apply post_ok]. Qed.

Lemma release_ok r w : r ∈ live w → release r w = Ok (with_live w (live w ∖ {[r]})).
Proof. intros H. unfold release. by rewrite bool_decide_true. Qed.

Lemma release_post r w (Q : world → Prop) :
  r ∈ live w → Q (with_live w (live w ∖ {[r]})) → post (release r w) Q.
Proof. intros H HQ. apply post_assert; [by apply bool_decide_eq_true | by apply post_ok]. Qed.

Lemma release_if_post r w (Q : world → Prop) :
  (r ∈ live w → Q (with_live w (live w ∖ {[r]}))) → (r ∉ live w → Q w) → post (release_if r w) Q.
Proof. intros H1 H2. unfold release_if. case_bool_decide; [by apply release_post; auto | by apply post_ok, H2]. Qed.

(** The variables of the process that outlive a run, and the device and the reactor, are the same. *)
Definition same (w w' : world) : Prop :=
  sys w' = sys w ∧ net w' = net w ∧ sig w' = sig w ∧ efd w' = efd w ∧ device w' = device w.

#[global] Instance same_preorder : PreOrder same.
Proof. split; [done|]. unfold same. intros ??? (?&?&?&?&?) (?&?&?&?&?). split_and!; congruence. Qed.

(** The timer is not set, and there are no connections. *)
Definition quiet (w : world) : Prop := tcp_timer w = false ∧ pcbs w = Lwip.no_pcbs.

(** The resources [l], and perhaps the password, and nothing else. *)
Definition has (l : gset res) (w : world) : Prop :=
  ∃ p, p ⊆ {[Password_file_contents]} ∧ live w = l ∪ p ∧ quiet w.

Lemma has_acquire r l l' w :
  has l w → r ∉ l → r ≠ Password_file_contents → {[r]} ∪ l = l' → 
    post (acquire r w) (λ w', has l' w' ∧ same w w' ∧ quitting w' = quitting w ∧ lwip_set w' = lwip_set w).
Proof.
  intros (p & Hp & Hl & Hk) Hr Hn <-. apply acquire_post; [rewrite Hl; set_solver + Hp Hr Hn|]. split; [|done].
  exists p. split; [done|]. split; [|done]. simpl. rewrite Hl. set_solver +.
Qed.

Lemma has_release r l l' w :
  has l w → r ∈ l → r ≠ Password_file_contents → l ∖ {[r]} = l' → post (release r w) (λ w', has l' w' ∧ same w w').
Proof.
  intros (p & Hp & Hl & Hk) Hr Hn <-. apply release_post; [rewrite Hl; set_solver + Hr|]. split; [|done].
  exists p. split; [done|]. split; [|done]. simpl. rewrite Hl. set_solver + Hp Hr Hn.
Qed.

(** *** The labels *)

(** The system when only the reactor is open: [s] is what is left in the end. *)
Definition with_reactor (s : os) (w : world) : os := mkos ({[efd w]} ∪ files s) (watched s) (handlers s) (ignored s).

(** Whether the assertion of [BSignal_Finish] that signals are caught fails: it is compiled in, and they are not. *)
Definition aborts (dbg : bool) (g : Signal.t) : bool := dbg && negb (Signal.initialized g).

(** What is left after the signals are not caught any more. *)
Definition after_finish (g g' : Signal.t) : Prop :=
  UnixSignal.entries (Signal.signal g') = [] ∧
  (UnixSignal.arr (Signal.signal g) = UnixSignal.Null → UnixSignal.arr (Signal.signal g') = UnixSignal.Null).

(** The outcome of a run that leaves the system [s]. *)
Definition released (s : os) (w' : world) : Prop := live w' = ∅ ∧ sys w' = s ∧ quiet w'.

Lemma fail1_ok s w : has ∅ w → sys w = s → post (fail1 w) (λ w', released s w' ∧ net w' = net w ∧ sig w' = sig w).
Proof.
  intros (p & Hp & Hl & Hk) Hs. apply release_if_post; rewrite Hl; intros Hin; (split; [split|]); try done; simpl; rewrite ?Hl;
    [set_solver + Hp | set_solver + Hp Hin].
Qed.

Lemma fail2_ok s w :
  has {[Reactor]} w → efd w ∉ files s → watched s = ∅ → sys w = with_reactor s w →
  post (fail2 w) (λ w', released s w' ∧ net w' = net w ∧ sig w' = sig w).
Proof.
  intros (p & Hp & Hl & Hk) He Hw Hs. unfold fail2, reactor_free. rewrite Hs. unfold with_reactor. cbn [watched].
  rewrite Hw, !bool_decide_true by (try done; rewrite Hl; set_solver + Hp). rewrite (proj1 Hk). cbn [c_assert negb].
  rewrite close_fd_ok, ok_bind by (simpl; set_solver +). cbn [files watched handlers ignored].
  rewrite release_ok, ok_bind by (simpl; rewrite Hl; set_solver +).
  eapply post_mono; [apply (fail1_ok s)|done].
  - exists p. split; [done|]. split; [|done]. simpl. rewrite Hl. set_solver + Hp.
  - simpl. apply os_eq; simpl; [set_solver + He | done | done | done].
Qed.

(** What the system has with the reactor and the signals, and then with the device. *)
Definition caught (w : world) : list UnixSignal.entry := UnixSignal.entries (Signal.signal (sig w)).
Definition with_signals (s : os) (w : world) : os := with_entries (with_reactor s w) (caught w).
Definition with_open_device (s : os) (w : world) : os :=
  mkos ({[BTap.fd (device w)]} ∪ files (with_signals s w)) ({[BTap.fd (device w)]} ∪ watched (with_signals s w))
       (handlers (with_signals s w)) (ignored (with_signals s w)).

(** The descriptors are different ones, and the signals are not freed. *)
Record ready (dbg : bool) (s : os) (w : world) : Prop := {
  r_efd : efd w ∉ files s;
  r_watched : watched s = ∅;
  r_fresh : fresh (with_reactor s w) (caught w);
  r_arr : UnixSignal.arr (Signal.signal (sig w)) ≠ UnixSignal.Freed;
  r_signals : dbg = true → Signal.finished (sig w) = false;
}.

Record device_ok (s : os) (w : world) : Prop := {
  d_close : BTap.close_fd (device w) = true;
  d_files : BTap.fd (device w) ∉ files (with_signals s w);
  d_watched : BTap.fd (device w) ∉ watched (with_signals s w);
}.

Lemma ready_same dbg s w w' : same w w' → ready dbg s w → ready dbg s w'.
Proof.
  intros (Hs & Hn & Hg & He & Hd) [H1 H2 H3 H4 H5]. unfold caught, with_reactor in *.
  split; unfold caught, with_reactor; rewrite ?Hg, ?He; done.
Qed.

Lemma device_ok_same s w w' : same w w' → device_ok s w → device_ok s w'.
Proof.
  intros (Hs & Hn & Hg & He & Hd) [H1 H2 H3]. split; unfold with_signals, caught, with_reactor in *; rewrite ?Hg, ?He, ?Hd; done.
Qed.

Lemma open_device_same s w w' : same w w' → sys w = with_open_device s w → sys w' = with_open_device s w'.
Proof. intros (Hs & _ & Hg & He & Hd). unfold with_open_device, with_signals, caught, with_reactor. by rewrite Hs, Hg, He, Hd. Qed.

(** How a run ends from a state. *)
Definition ended (s : os) (w w' : world) : Prop :=
  released s w' ∧ net w' = net w ∧ after_finish (sig w) (sig w').

(** The outcome at a label below which the signals are finished. *)
Definition final (dbg : bool) (s : os) (w : world) (r : result world) : Prop :=
  if aborts dbg (sig w) then r = Fault AssertFailed else post r (ended s w).

Lemma ended_same s w w1 w' : same w w1 → ended s w1 w' → ended s w w'.
Proof. intros (_ & Hn & Hg & _) (? & ? & ?). unfold ended. rewrite <- Hn, <- Hg. done. Qed.

Lemma final_same dbg s w w1 r : same w w1 → final dbg s w1 r → final dbg s w r.
Proof.
  intros Hs H. unfold final in *. assert (sig w = sig w1) as -> by by destruct Hs as (_ & _ & -> & _).
  destruct (aborts _ _); [done|]. eapply post_mono; [exact H|]. intros w'. by apply ended_same.
Qed.

Lemma signal_finish_ok dbg s w :
  aborts dbg (sig w) = false → ready dbg s w → sys w = with_signals s w →
  post (signal_finish dbg w) (λ w', ∃ g, w' = with_sig w (with_reactor s w) g ∧ after_finish (sig w) g).
Proof.
  intros Hb [_ _ Hf Ha Hd] Hs. unfold aborts, signal_finish, Signal.Finish, assert_if, UnixSignal.Free in *.
  assert (negb dbg || Signal.initialized (sig w) = true) as -> by (destruct dbg, (Signal.initialized (sig w)); done).
  assert (negb dbg || negb (Signal.finished (sig w)) = true) as -> by (destruct dbg; [by rewrite Hd | done]).
  cbn [c_assert]. rewrite Hs. unfold with_signals, caught in *. rewrite free_entries_ok, ok_bind by done.
  unfold after_finish. destruct (UnixSignal.arr (Signal.signal (sig w))); [..|done]; cbn [UnixSignal.BFree_array];
    rewrite !ok_bind; apply post_ok; eexists; (split; [done|]); simpl; done.
Qed.

Lemma fail3_ok dbg s w :
  has {[Reactor]} w → ready dbg s w → sys w = with_signals s w → final dbg s w (fail3 dbg w).
Proof.
  intros Hl Hr Hs. unfold final, fail3. destruct (aborts dbg (sig w)) eqn:Hb.
  { apply andb_true_iff in Hb as [-> Hb]. unfold signal_finish, Signal.Finish, assert_if.
    apply negb_true_iff in Hb. by rewrite Hb. }
  eapply post_bind; [by eapply signal_finish_ok|].
  intros w' (g & -> & Ha). destruct Hr. eapply post_mono; [apply (fail2_ok s)|]; try done.
  intros w' (Hrel & Hn & Hg). split_and!; [done..|]. by rewrite Hg.
Qed.

Lemma device_free_ok dbg s w :
  has {[Device; Reactor]} w → ready dbg s w → device_ok s w → sys w = with_open_device s w →
  post (device_free w) (λ w', has {[Reactor]} w' ∧ ready dbg s w' ∧ sys w' = with_signals s w' ∧
    net w' = net w ∧ sig w' = sig w).
Proof.
  intros (p & Hp & Hl & Hk) Hr [Hc Hf Hw] Hs. unfold device_free, BTap.Free. rewrite Hc. cbn [app run_calls dev_call].
  rewrite ok_bind, Hs. unfold with_open_device. rewrite unwatch_ok, !ok_bind by (simpl; set_solver +).
  cbn [with_sys sys dev_call files watched handlers ignored].
  rewrite close_fd_ok, !ok_bind by (cbn [files watched]; first [set_solver + | set_solver + Hw]).
  cbn [files watched handlers ignored]. rewrite release_ok by (simpl; rewrite Hl; set_solver +). apply post_ok.
  split_and!; [|by destruct Hr| |done..].
  - exists p. split; [done|]. split; [|done]. simpl. rewrite Hl. set_solver + Hp.
  - simpl. unfold with_signals, caught. apply os_eq; cbn [files watched handlers ignored with_entries];
      [set_solver + Hf | set_solver + Hw | done | done].
Qed.

Lemma fail4_ok dbg s w :
  has {[Device_read_interface; Device; Reactor]} w → ready dbg s w → device_ok s w → sys w = with_open_device s w →
  final dbg s w (fail4 dbg w).
Proof.
  intros Hl Hr Hd Hs. unfold fail4.
  destruct (has_release Device_read_interface _ {[Device; Reactor]} _ Hl) as (w1 & -> & Hl1 & Hw1); [set_solver + | done | set_solver + |].
  rewrite ok_bind. apply (final_same _ _ _ w1); [done|].
  destruct (device_free_ok dbg s w1) as (w2 & -> & Hl2 & Hr2 & Hs2 & Hn2 & Hg2);
    [done | by eapply ready_same | by eapply device_ok_same | by eapply open_device_same |].
  rewrite ok_bind. pose proof (fail3_ok dbg s w2 Hl2 Hr2 Hs2) as H. unfold final, ended in *. by rewrite Hn2, Hg2 in H.
Qed.

(** What is open when the event loop runs, in the order in which it is released. *)
Definition at_fail4a : gset res := {[Device_read_buffer; Device_read_interface; Device; Reactor]}.
Definition at_fail5 (o : options) : gset res :=
  {[Lwip_init_job]} ∪ (match udpgw_remote_server_addr o with Some _ => {[Udpgw_client]} | None => ∅ end) ∪ at_fail4a.
Definition in_loop (o : options) : gset res := {[Device_write_buf]} ∪ at_fail5 o.

Definition running (dbg : bool) (s : os) (w : world) : Prop :=
  ready dbg s w ∧ device_ok s w ∧ sys w = with_open_device s w.

Lemma running_same dbg s w w' : same w w' → running dbg s w → running dbg s w'.
Proof. intros Hw (H1 & H2 & H3). split; [by eapply ready_same|]. split; [by eapply device_ok_same | by eapply open_device_same]. Qed.

(** A step to a label's state, whose end is the end of the state before. *)
Lemma ends_via dbg s w (r : result world) (f : world → result world) (l : gset res) :
  running dbg s w → post r (λ w', has l w' ∧ same w w') →
  (∀ w', has l w' → running dbg s w' → final dbg s w' (f w')) → final dbg s w (r ≫= f).
Proof.
  intros Hw (w' & -> & Hl & Hs) Hf. rewrite ok_bind. apply (final_same _ _ _ w'); [done|].
  apply Hf; [done | by eapply running_same].
Qed.

Lemma fail4a_ok dbg s w : has at_fail4a w → running dbg s w → final dbg s w (fail4a dbg w).
Proof.
  intros Hl Hr. unfold fail4a. eapply (ends_via dbg _ _ _ _ {[Device_read_interface; Device; Reactor]}); [done|..].
  - apply (has_release _ _ _ _ Hl); [set_solver + | done | set_solver +].
  - intros w' Hl' (H1 & H2 & H3). by apply fail4_ok.
Qed.

Lemma fail5_ok dbg o s w : has (at_fail5 o) w → running dbg s w → final dbg s w (fail5 dbg o w).
Proof.
  intros Hl Hr. unfold fail5, at_fail5 in *. destruct (udpgw_remote_server_addr o).
  - eapply (ends_via dbg _ _ _ _ ({[Udpgw_client]} ∪ at_fail4a)); [done|..].
    { apply (has_release _ _ _ _ Hl); [set_solver + | done | unfold at_fail4a; set_solver +]. }
    intros w1 Hl1 Hr1. eapply (ends_via dbg _ _ _ _ at_fail4a); [done|..].
    { apply (has_release _ _ _ _ Hl1); [set_solver + | done | unfold at_fail4a; set_solver +]. }
    intros w2 Hl2 Hr2. by apply fail4a_ok.
  - eapply (ends_via dbg _ _ _ _ at_fail4a); [done|..].
    { apply (has_release _ _ _ _ Hl); [set_solver + | done | unfold at_fail4a; set_solver +]. }
    intros w1 Hl1 Hr1. rewrite ok_bind. by apply fail4a_ok.
Qed.

(** *** The event loop *)

(** What is open in the loop: what was opened before, lwip's interface and listeners, and the clients of the list, who own
    the connections of lwip's lists that have a callback; and the timer is set. *)
Record loop_inv (dbg : bool) (o : options) (s : os) (w : world) : Prop := {
  l_base : in_loop o ⊆ live w;
  l_live : ∀ r, r ∈ live w → r ∈ in_loop o ∨ r ∈ ({[Password_file_contents; Netif; Listener; Listener_ip6]} : gset res) ∨
             ∃ n, r = Client n ∧ n ∈ (tcp_clients w).*1;
  l_clients : ∀ n, n ∈ (tcp_clients w).*1 → Client n ∈ live w;
  l_nodup : NoDup (tcp_clients w).*1;
  l_conns : LwipFacts.conns (tcp_clients w) (pcbs w);
  l_timer : quitting w = false → tcp_timer w = true;
  l_lwip : lwip_set w = true → Netif ∉ live w ∧ Listener ∉ live w ∧ Listener_ip6 ∉ live w ∧ pcbs w = Lwip.no_pcbs;
  l_running : running dbg s w;
}.

Lemma with_live_eq w l : l = live w → with_live w l = w.
Proof. intros ->. by destruct w. Qed.

Lemma with_conns_eq w cs l : cs = tcp_clients w → l = pcbs w → with_conns w cs l = w.
Proof. intros -> ->. by destruct w. Qed.

Lemma release_if_ok r w : release_if r w = Ok (with_live w (live w ∖ {[r]})).
Proof.
  unfold release_if. case_bool_decide as H; [by apply release_ok|]. f_equal. symmetry.
  apply with_live_eq. set_solver + H.
Qed.

Lemma loop_flags dbg o s w q t :
  loop_inv dbg o s w → (t = true → lwip_set w = true) → (q = false → quitting w = false) →
  loop_inv dbg o s (with_loop w q t (tcp_clients w)).
Proof. intros [H1 H2 H3 H4 H5 H6 H7 (H8 & H9 & H10)] Ht Hq. split; simpl; auto. split_and!; [by destruct H8 | by destruct H9 | done]. Qed.

(** What is open and the connections change. *)
Lemma loop_change dbg o s w l cs L :
  loop_inv dbg o s w → lwip_set w = false → in_loop o ⊆ l →
  (∀ r, r ∈ l → r ∈ in_loop o ∨ r ∈ ({[Password_file_contents; Netif; Listener; Listener_ip6]} : gset res) ∨
     ∃ n, r = Client n ∧ n ∈ cs.*1) →
  (∀ n, n ∈ cs.*1 → Client n ∈ l) → NoDup cs.*1 → LwipFacts.conns cs L →
  loop_inv dbg o s (with_conns (with_live w l) cs L).
Proof.
  intros [_ _ _ _ _ H6 _ (H8 & H9 & H10)] Ht Hb Hl Hc Hn HL. split; simpl; try done; [by rewrite Ht|].
  split_and!; [by destruct H8 | by destruct H9 | done].
Qed.

Lemma loop_conns dbg o s w cs L :
  loop_inv dbg o s w → lwip_set w = false → cs.*1 = (tcp_clients w).*1 → LwipFacts.conns cs L →
  loop_inv dbg o s (with_conns w cs L).
Proof.
  intros H Ht E HL. rewrite <- (with_live_eq w (live w) eq_refl) at 1. destruct H. apply loop_change; try (rewrite E); done.
Qed.

Lemma terminate_ok dbg o s w :
  loop_inv dbg o s w → quitting w = false →
  post (terminate w) (λ w', loop_inv dbg o s w' ∧ quitting w' = true).
Proof. intros H Hq. unfold terminate. rewrite Hq. apply post_ok. split; [|done]. by apply loop_flags. Qed.

(** With nothing left in lwip's lists, a listener is there unless there is no memory. *)
Lemma lwip_listener_ok pcb l v6 new listen w :
  pcb ∉ live w → l ∉ live w → pcb ≠ l → pcbs w = Lwip.no_pcbs →
  init_listener pcb l v6 new listen w =
    Ok (if bool_decide (is_Some new) && listen then (with_live w ({[l]} ∪ live w), true) else (w, false)).
Proof.
  intros Hp Hl Hne HL. unfold init_listener, acquire. destruct new as [n|]; [|done].
  rewrite bool_decide_true by done. cbn [c_assert]. rewrite ok_bind. cbn [pcbs live with_live].
  rewrite HL, LwipFacts.tcp_bind_ok, bool_decide_false by (rewrite elem_of_union, elem_of_singleton; naive_solver).
  cbn [negb tcp_clients with_live pcbs with_conns].
  rewrite !LwipFacts.unbind_ok, bool_decide_true by by eexists.
  set (w1 := with_conns _ _ _).
  assert (Hrel : release pcb w1 = Ok w).
  { rewrite release_ok by (simpl; set_solver +). f_equal. unfold w1. destruct w. simpl in *. unfold with_live, with_conns. simpl.
    f_equal; [set_solver + Hp|done]. }
  destruct listen; cbn [negb andb]; rewrite Hrel, ok_bind; [|done]. by rewrite bool_decide_true.
Qed.

Definition fixed : gset res :=
  {[Device_write_buf; Lwip_init_job; Udpgw_client; Device_read_buffer; Device_read_interface; Device; Reactor]}.

Lemma in_loop_fixed o : in_loop o ⊆ fixed.
Proof. unfold in_loop, at_fail5, at_fail4a, fixed. destruct (udpgw_remote_server_addr o); set_solver +. Qed.

Lemma not_live dbg o s w r :
  loop_inv dbg o s w → r ∉ fixed → r ∉ ({[Password_file_contents; Netif; Listener; Listener_ip6]} : gset res) →
  (∀ n, r = Client n → n ∉ (tcp_clients w).*1) → r ∉ live w.
Proof.
  intros H Hf Hs Hn Hr. destruct (l_live _ _ _ _ H r Hr) as [Hi|[Hi|(n & He & Hi)]]; [|done|by apply (Hn n)].
  by apply Hf, (in_loop_fixed o).
Qed.

Lemma loop_add dbg o s w r :
  loop_inv dbg o s w → lwip_set w = false → r ∈ ({[Netif; Listener; Listener_ip6]} : gset res) →
  loop_inv dbg o s (with_live w ({[r]} ∪ live w)).
Proof.
  intros H Ht Hr. pose proof H as [Hb Hl Hc Hn HL Htm _ (Hr1 & Hr2 & Hr3)].
  split; [set_solver + Hb| |set_solver + Hc|done|done|done|by simpl; rewrite Ht|].
  - intros r'. simpl. rewrite elem_of_union, elem_of_singleton. intros [->|Hin]; [|by apply Hl].
    right. left. set_solver + Hr.
  - split_and!; [by destruct Hr1 | by destruct Hr2 | done].
Qed.

(** lwip has the memory it needs. *)
Definition has_memory (o : options) (k : lwip_answers) : Prop :=
  on_netif_add k = true ∧ is_Some (on_tcp_new k) ∧ on_listen k = true ∧
  (is_Some (netif_ip6addr o) → is_Some (on_tcp_new_ip6 k) ∧ on_listen_ip6 k = true).

Lemma lwip_init_ok dbg o s k w :
  loop_inv dbg o s w → lwip_set w = true → quitting w = false →
  post (lwip_init_job_handler o k (with_loop w false false (tcp_clients w))) (λ w', loop_inv dbg o s w' ∧
    (quitting w' = false → lwip_set w' = false ∧ Netif ∈ live w' ∧ Listener ∈ live w') ∧
    (has_memory o k → quitting w' = false)).
Proof.
  intros H Ht Hq. destruct (l_lwip _ _ _ _ H Ht) as (H1 & H2 & H3 & HL).
  assert (H0 : loop_inv dbg o s (with_loop w false false (tcp_clients w))) by by apply loop_flags.
  assert (Hpcb : Pcb ∉ live w) by (apply (not_live _ _ _ _ _ H); [set_solver + | set_solver + | done]).
  assert (Hpcb6 : Pcb_ip6 ∉ live w) by (apply (not_live _ _ _ _ _ H); [set_solver + | set_solver + | done]).
  set (w0 := with_loop w false false (tcp_clients w)) in *. unfold lwip_init_job_handler.
  rewrite !bool_decide_true by done. cbn [quitting w0 with_loop negb c_assert].
  assert (Hfail : ∀ w1, loop_inv dbg o s w1 → quitting w1 = false → ¬ has_memory o k →
    post (if quitting w1 then Ok w1 else terminate w1) (λ w', loop_inv dbg o s w' ∧
      (quitting w' = false → lwip_set w' = false ∧ Netif ∈ live w' ∧ Listener ∈ live w') ∧ (has_memory o k → quitting w' = false))).
  { intros w1 Hw1 Hq1 Hm. rewrite Hq1. eapply post_mono; [by eapply terminate_ok|]. intros w' [? Hq']. split; [done|].
    split; [congruence|done]. }
  destruct (on_netif_add k) eqn:Hk1; cbn [negb]; [|apply (Hfail w0); [done|done|intros (? & _); congruence]].
  unfold acquire at 1. rewrite bool_decide_true by done. cbn [c_assert]. rewrite ok_bind.
  set (w1 := with_live w0 ({[Netif]} ∪ live w0)).
  assert (Hi1 : loop_inv dbg o s w1) by (apply loop_add; [done|done|set_solver +]).
  rewrite lwip_listener_ok, ok_bind by (simpl; first [done | set_solver + Hpcb | set_solver + H2]).
  destruct (bool_decide _ && _) eqn:Hk2; cbn [negb].
  2:{ apply (Hfail w1); [done|done|]. intros (_ & Hn & Hk & _). rewrite bool_decide_true, Hk in Hk2; done. }
  set (w2 := with_live w1 ({[Listener]} ∪ live w1)).
  assert (Hi2 : loop_inv dbg o s w2) by (apply loop_add; [done|done|set_solver +]).
  destruct (netif_ip6addr o) eqn:E6.
  - rewrite lwip_listener_ok, ok_bind by (simpl; first [done | set_solver + Hpcb6 | set_solver + H3]).
    destruct (bool_decide (is_Some (on_tcp_new_ip6 k)) && _) eqn:Hk3.
    2:{ apply (Hfail w2); [done|done|]. intros (_ & _ & _ & H6). destruct H6 as [Hn Hk]; [by rewrite E6|].
        rewrite bool_decide_true, Hk in Hk3; done. }
    apply post_ok. split_and!; [|intros _; split; [done|simpl; set_solver +]|done].
    apply loop_add; [done|done|set_solver +].
  - apply post_ok. split_and!; [done| |done]. intros _. split; [done|]. simpl. set_solver +.
Qed.

(** Aborting a block without a callback takes it out of its list. *)
Lemma abort_ok p w :
  Lwip.pstate p ≠ Lwip.TIME_WAIT → Lwip.errf p = None →
  tcp_abort p w = Ok (with_conns w (tcp_clients w) (Lwip.settle (Lwip.pid p) Lwip.Freed (pcbs w))).
Proof. intros Hs He. unfold tcp_abort, Lwip.tcp_abandon. rewrite He. by destruct (Lwip.pstate p). Qed.

Lemma accept_ok dbg o s w n ok p :
  loop_inv dbg o s w → lwip_set w = false → Lwip.find_pcb (Lwip.active (pcbs w)) n = Some p →
  Lwip.pstate p = Lwip.SYN_RCVD → n ∉ (tcp_clients w).*1 → Lwip.errf p = None →
  post (listener_accept_func p ok w) (loop_inv dbg o s).
Proof.
  intros H Ht [Hp <-]%LwipFacts.find_spec Hst Hn He. unfold listener_accept_func. destruct ok; cbn [negb].
  2:{ rewrite abort_ok by congruence. apply post_ok. apply loop_conns; [done..|].
      by eapply LwipFacts.conns_settle_free; [destruct H | ..]. }
  assert (Client (Lwip.pid p) ∉ live w).
  { apply (not_live _ _ _ _ _ H); [set_solver + | set_solver + |]. by intros n' [= <-]. }
  unfold acquire. rewrite bool_decide_true by done. cbn [c_assert]. rewrite ok_bind. apply post_ok.
  pose proof H as [Hb Hl Hc Hnd HL _ _ _]. apply loop_change; [done|done|set_solver + Hb| | | |].
  - intros r. rewrite elem_of_union, elem_of_singleton, fmap_app. intros [->|Hr].
    + right. right. exists (Lwip.pid p). split; [done|]. set_solver +.
    + destruct (Hl r Hr) as [?|[?|(n' & ? & ?)]]; [by left | by right; left |]. right. right. exists n'. split; [done|].
      apply elem_of_app. by left.
  - intros n'. rewrite fmap_app, elem_of_app. simpl. rewrite list_elem_of_singleton, elem_of_union, elem_of_singleton.
    intros [?| ->]; auto.
  - rewrite fmap_app. apply NoDup_app. split; [done|]. split; [|apply NoDup_singleton]. intros x Hx.
    simpl. rewrite list_elem_of_singleton. by intros ->.
  - by eapply LwipFacts.conns_accepted.
Qed.

Lemma clients_without cs (n m : nat) : m ∈ (filter (λ c : nat * bool, c.1 ≠ n) cs).*1 ↔ m ∈ cs.*1 ∧ m ≠ n.
Proof.
  rewrite !list_elem_of_fmap. split.
  - intros (c & -> & [Hne Hin]%list_elem_of_filter). split; [by exists c|done].
  - intros [(c & -> & Hin) Hne]. exists c. split; [done|]. by apply list_elem_of_filter.
Qed.

Lemma dealloc_ok dbg o s w n :
  loop_inv dbg o s w → lwip_set w = false → (n, true) ∈ tcp_clients w → post (client_dealloc n w) (loop_inv dbg o s).
Proof.
  intros H Ht Hin. pose proof H as [Hb Hl Hc Hn HL _ _ _].
  assert (Hin1 : n ∈ (tcp_clients w).*1) by (apply list_elem_of_fmap; by exists (n, true)).
  unfold client_dealloc. rewrite release_ok, ok_bind by auto. apply post_ok. cbn [tcp_clients pcbs with_live].
  apply loop_change; [done|done| | | | |].
  - intros r Hr. apply elem_of_difference. split; [by apply Hb|]. intros ->%elem_of_singleton.
    apply in_loop_fixed in Hr. revert Hr. unfold fixed. set_solver +.
  - intros r. rewrite elem_of_difference, elem_of_singleton. intros [Hr Hne].
    destruct (Hl r Hr) as [?|[?|(n' & -> & ?)]]; [by left | by right; left |]. right. right. exists n'. split; [done|].
    apply clients_without. split; [done|congruence].
  - intros n' [Hn' Hne]%clients_without. apply elem_of_difference. split; [by apply Hc|]. rewrite elem_of_singleton. congruence.
  - by apply LwipFacts.without_nodup.
  - by apply LwipFacts.conns_without.
Qed.

Lemma timer_handler_ok dbg o s w flag :
  loop_inv dbg o s w → quitting w = false → post (tcp_timer_handler flag (with_timer w false)) (loop_inv dbg o s).
Proof.
  intros [H1 H2 H3 H4 H5 H6 H7 (H8 & H9 & H10)] Hq. unfold tcp_timer_handler, terminate. cbn [quitting with_timer]. rewrite Hq.
  cbn [negb c_assert]. destruct flag; apply post_ok; (split; simpl; [done..|]); (split_and!; [by destruct H8 | by destruct H9 | done]).
Qed.

Lemma program_step_ok dbg o s w e r :
  loop_inv dbg o s w → step o w e = Some r → ∃ w', r = Ok w' ∧ loop_inv dbg o s w'.
Proof.
  intros H Hs. unfold step in Hs. destruct (quitting w) eqn:Hq; [done|].
  assert (Hterm : post (terminate w) (loop_inv dbg o s)).
  { eapply post_mono; [by eapply terminate_ok|]. by intros w' []. }
  destruct e as [k|flag| | |n v6|n ok|n to|n|n to|n]; destruct (lwip_set w) eqn:Ht; try done;
    try (injection Hs as <-).
  - eapply post_mono; [by eapply lwip_init_ok|]. by intros w' [].
  - destruct (tcp_timer w); [|done]. injection Hs as <-. by apply timer_handler_ok.
  - unfold device_error_handler. by rewrite Hq.
  - destruct (set_signal o); [|done]. injection Hs as <-. unfold signal_handler. by rewrite Hq.
  - destruct (_ && _) eqn:E; [|done]. injection Hs as <-. apply post_ok. apply loop_conns; [done..|].
    apply andb_true_iff in E as [_ [_ E%bool_decide_eq_true]%andb_true_iff]. rewrite fmap_app, not_elem_of_app in E.
    apply LwipFacts.conns_syn; [by destruct H|tauto].
  - destruct (Lwip.find_pcb _ n) as [p|] eqn:Hp; [|done]. destruct (_ && _) eqn:E; [|done]. injection Hs as <-.
    apply andb_true_iff in E as [[E1%bool_decide_eq_true E2%bool_decide_eq_true]%andb_true_iff E3%bool_decide_eq_true].
    by eapply accept_ok.
  - case_bool_decide; [|done]. injection Hs as <-. apply post_ok. apply loop_conns; [done|done|apply LwipFacts.leave_fst|].
    apply LwipFacts.conns_settle. by destruct H.
  - case_bool_decide; [|done]. injection Hs as <-. by apply dealloc_ok.
  - destruct (Lwip.find_pcb _ n) as [p|] eqn:Hp; [|done]. case_bool_decide; [|done]. injection Hs as <-. apply post_ok.
    apply LwipFacts.find_spec in Hp as [Hp Ep]. apply loop_conns; [done..|].
    by eapply LwipFacts.conns_settle_free; [destruct H | ..].
  - apply post_ok. apply loop_conns; [done..|]. apply LwipFacts.conns_waited. by destruct H.
Qed.

(** *** The end *)

Lemma client_abort_ok n cs w :
  NoDup ((n, false) :: cs).*1 → LwipFacts.conns ((n, false) :: cs) (pcbs w) →
  post (client_abort n w) (λ w', live w' = live w ∧ same w w' ∧ LwipFacts.conns cs (pcbs w')).
Proof.
  intros Hn H. pose proof (LwipFacts.conns_settle _ _ n Lwip.Closing H) as H1. rewrite LwipFacts.leave_head in H1 by done.
  destruct (LwipFacts.c_open _ _ H n) as (p & Hp & Ep & _); [left|].
  unfold client_abort. set (w1 := with_conns w _ _). change (Lwip.settle n Lwip.Closing (pcbs w)) with (pcbs w1) in H1.
  destruct (LwipFacts.find_some (Lwip.active (pcbs w1)) (Lwip.tcp_err None p)) as [q Hq].
  { pose proof (LwipFacts.in_set _ n (Lwip.tcp_err None) _ Hp) as Hin. by rewrite bool_decide_true in Hin. }
  cbn [Lwip.pid Lwip.tcp_err] in Hq. rewrite Ep in Hq. rewrite Hq. cbn [or_fault]. rewrite ok_bind.
  apply LwipFacts.find_spec in Hq as [Hq Eq]. destruct (LwipFacts.c_active _ _ H1 q Hq) as [Hst He].
  assert (Hnone : Lwip.errf q = None).
  { destruct (Lwip.errf q) as [m|]; [|done]. destruct (He m eq_refl) as [-> Hin]. rewrite Eq in Hin.
    rewrite fmap_cons in Hn. apply NoDup_cons in Hn as [Hn _]. apply elem_of_cons in Hin as [|Hin]; [done|].
    destruct Hn. apply list_elem_of_fmap. by exists (n, false). }
  rewrite abort_ok by done. apply post_ok. split; [done|]. split; [done|]. rewrite Eq. cbn [pcbs with_conns].
  apply (LwipFacts.conns_drop n). apply (LwipFacts.conns_settle _ _ n Lwip.Freed) in H1.
  by rewrite LwipFacts.leave_head in H1.
Qed.

Lemma murder_ok cs : ∀ w, NoDup cs.*1 → (∀ n, n ∈ cs.*1 → Client n ∈ live w) → LwipFacts.conns cs (pcbs w) →
  post (murder_clients cs w) (λ w', live w' = live w ∖ list_to_set (Client <$> cs.*1) ∧ same w w' ∧ LwipFacts.conns [] (pcbs w')).
Proof.
  induction cs as [|[n b] cs IH]; intros w Hn Hc HL; cbn [murder_clients].
  - apply post_ok. split; [|done]. simpl. set_solver +.
  - apply (post_bind _ _ (λ w', live w' = live w ∧ same w w' ∧ LwipFacts.conns cs (pcbs w'))).
    { destruct b; [|by apply client_abort_ok]. apply post_ok. split; [done|]. split; [done|]. by eapply LwipFacts.conns_drop. }
    intros w1 (Hl1 & Hs1 & HL1). rewrite fmap_cons in Hn. apply NoDup_cons in Hn as [Hnin Hn].
    rewrite release_ok, ok_bind by (rewrite Hl1; apply Hc; left).
    eapply post_mono; [apply IH; [done| |done]|].
    + intros n' Hin. simpl. rewrite Hl1. apply elem_of_difference. split; [apply Hc; by right|].
      rewrite elem_of_singleton. by intros [= ->].
    + intros w' (Hl & Hs & HL'). split; [|split; [by transitivity w1|done]]. rewrite Hl. simpl. rewrite Hl1. set_solver +.
Qed.

Lemma remove_active_ok l : ∀ w, Lwip.active (pcbs w) = l →
  (∀ p, p ∈ l → Lwip.pstate p ≠ Lwip.TIME_WAIT ∧ Lwip.errf p = None) →
  tcp_remove l w = Ok (with_conns w (tcp_clients w) (Lwip.mklists (Lwip.bound (pcbs w)) [] (Lwip.tw (pcbs w)))).
Proof.
  induction l as [|p l IH]; intros w E H; cbn [tcp_remove].
  - rewrite with_conns_eq; [done|done|]. rewrite <- E. by destruct (pcbs w).
  - destruct (H p) as [Hs He]; [left|]. rewrite abort_ok, ok_bind by done. rewrite IH; [done| |].
    + simpl. rewrite E. simpl. by rewrite bool_decide_true.
    + intros q Hq. apply H. by right.
Qed.

Lemma remove_tw_ok l : ∀ w, Lwip.tw (pcbs w) = l → (∀ p, p ∈ l → Lwip.pstate p = Lwip.TIME_WAIT) →
  tcp_remove l w = Ok (with_conns w (tcp_clients w) (Lwip.mklists (Lwip.bound (pcbs w)) (Lwip.active (pcbs w)) [])).
Proof.
  induction l as [|p l IH]; intros w E H; cbn [tcp_remove].
  - rewrite with_conns_eq; [done|done|]. rewrite <- E. by destruct (pcbs w).
  - unfold tcp_abort, Lwip.tcp_abandon. rewrite (H p), ok_bind by left. rewrite IH; [done| |].
    + simpl. rewrite E. simpl. by rewrite bool_decide_true.
    + intros q Hq. apply H. by right.
Qed.

(** Nothing is left in the lists once the clients are gone. *)
Lemma tcp_remove_ok w (k : world → result world) : LwipFacts.conns [] (pcbs w) →
  (w ← tcp_remove (Lwip.bound (pcbs w)) w;
   w ← tcp_remove (Lwip.active (pcbs w)) w;
   w ← tcp_remove (Lwip.tw (pcbs w)) w; k w) = k (with_conns w (tcp_clients w) Lwip.no_pcbs).
Proof.
  intros [H1 H2 H3 _ _]. rewrite H1. cbn [tcp_remove]. rewrite ok_bind.
  rewrite remove_active_ok, ok_bind; [|done|].
  - rewrite remove_tw_ok, ok_bind; [|done|done]. simpl. by rewrite H1.
  - intros p Hp. destruct (H2 p Hp) as [? He]. split; [done|]. destruct (Lwip.errf p) as [n|]; [|done].
    by destruct (He n eq_refl) as [_ ?%not_elem_of_nil].
Qed.

Lemma loop_finish_ok dbg o s w : loop_inv dbg o s w → final dbg s w (finish dbg o w).
Proof.
  intros H. pose proof H as [Hb Hl Hc Hn HL _ _ Hr]. unfold finish.
  destruct (murder_ok (tcp_clients w) w Hn Hc HL) as (w1 & -> & Hl1 & Hs1 & HL1). rewrite ok_bind. do 3 rewrite release_if_ok, ok_bind.
  rewrite tcp_remove_ok by done.
  match goal with |- final _ _ _ (release _ ?x ≫= _) => set (w2 := x) end.
  assert (Hs2 : same w w2) by (transitivity w1; done).
  assert (Hl2 : has (in_loop o) w2).
  { exists (live w ∩ {[Password_file_contents]}). split; [set_solver +|]. split; [|done].
    cbn [w2 with_timer with_conns with_live live]. rewrite Hl1.
    apply leibniz_equiv. intros r. rewrite !elem_of_difference, !not_elem_of_singleton, elem_of_list_to_set, elem_of_union, elem_of_intersection,
      elem_of_singleton, list_elem_of_fmap. split.
    - intros [[[[Hin Hnc] ?] ?] ?]. destruct (Hl r Hin) as [?|[Hf|(n & -> & Hin')]]; [by left| |].
      + right. rewrite !elem_of_union, !elem_of_singleton in Hf. naive_solver.
      + destruct Hnc. by exists n.
    - intros [Hin|[Hin ->]]; [|split_and!; try done; by intros (n & ? & _)].
      assert (Hfix := in_loop_fixed o r Hin). split_and!; [by apply Hb| |intros ->; revert Hfix; unfold fixed; set_solver +..].
      intros (n & -> & _). revert Hfix. unfold fixed. set_solver +. }
  apply (final_same _ _ _ w2); [done|].
  assert (Hr2 : running dbg s w2) by by eapply running_same. clearbody w2. clear - Hl2 Hr2. unfold in_loop in Hl2.
  assert (Htt : Device_write_buf ∉ at_fail5 o).
  { unfold at_fail5, at_fail4a. destruct (udpgw_remote_server_addr o); set_solver +. }
  eapply (ends_via dbg _ _ _ _ (at_fail5 o)); [done|..].
  { apply (has_release _ _ _ _ Hl2); [set_solver + | done | set_solver + Htt]. }
  intros w4 Hl4 Hr4. by apply fail5_ok.
Qed.

(** *** The start *)

(** How the start comes out: the loop is entered, with everything open, or it has gone to a label. *)
Definition start_post (dbg : bool) (o : options) (s : os) (w : world) (r : result started) : Prop :=
  (∃ c w', r = Ok (Entered c w') ∧ loop_inv dbg o s w' ∧ quitting w' = false ∧ lwip_set w' = true ∧ tcp_clients w' = [] ∧
      net w' = net w ∧ sig w' = sig w) ∨
  (∃ r', r = ends r' ∧ final dbg s w r').

Lemma start_ends dbg o s w w1 r :
  same w w1 → final dbg s w1 r → start_post dbg o s w (ends r).
Proof. intros Hs Hr. right. exists r. split; [done|]. by apply (final_same _ _ _ w1). Qed.

Lemma start_rest_ok dbg o i a mtu udp_mtu s w :
  has ((match udpgw_remote_server_addr o with Some _ => {[Udpgw_client]} | None => ∅ end) ∪ at_fail4a) w →
  running dbg s w → quitting w = false →
  start_post dbg o s w (start_rest dbg o i a mtu udp_mtu w).
Proof.
  intros Hl Hr Hq. unfold start_rest.
  destruct (has_acquire Lwip_init_job _ (at_fail5 o) _ Hl) as (w1 & -> & Hl1 & Hs1 & Hq1 & _);
    [|done|unfold at_fail5; set_solver + |].
  { unfold at_fail4a. destruct (udpgw_remote_server_addr o); set_solver +. }
  rewrite ok_bind. set (w2 := with_loop w1 _ _ _).
  assert (Hl2 : has (at_fail5 o) w2) by (destruct Hl1 as (p & ? & ?); by exists p).
  assert (Hs2 : same w w2) by (transitivity w1; done). assert (Hr2 : running dbg s w2) by by eapply running_same.
  destruct (write_buf_ok i); cbn [negb]; [|by apply (start_ends _ _ _ _ w2 _ Hs2), fail5_ok].
  assert (Htt : Device_write_buf ∉ at_fail5 o).
  { unfold at_fail5, at_fail4a. destruct (udpgw_remote_server_addr o); set_solver +. }
  destruct (has_acquire Device_write_buf _ (in_loop o) _ Hl2) as (w3 & -> & Hl3 & Hs3 & Hq3 & Ht3);
    [done | done | unfold in_loop; set_solver + |]. rewrite ok_bind. cbn [quitting lwip_set with_timer]. rewrite Hq3, Ht3.
  left. do 2 eexists. split; [done|]. assert (Hs5 : same w w3) by by transitivity w2.
  cbn [quitting lwip_set tcp_clients with_loop with_timer w2]. destruct Hl3 as (p & Hp & Hl3 & _ & Hc3).
  split_and!; try (by destruct Hs5 as (?&?&?&?)).
  - assert (Hfix := in_loop_fixed o). split; cbn [live tcp_clients with_loop with_timer lwip_set pcbs]; rewrite ?Hl3, ?Hc3.
    + set_solver +.
    + intros r. rewrite elem_of_union. intros [?|Hin]; [by left|]. right. left. set_solver + Hp Hin.
    + by intros n ?%not_elem_of_nil.
    + apply NoDup_nil_2.
    + apply LwipFacts.conns_none.
    + done.
    + intros _. split_and!; [..|done]; (intros [Hin%Hfix|Hin%Hp]%elem_of_union; [revert Hin; unfold fixed; set_solver + | set_solver + Hin]).
    + eapply (running_same _ _ w); [exact Hs5 | exact Hr].
  - by rewrite Hq1.
Qed.

(** *** The device *)

(** The descriptor of the service is the program's from when the device is opened. *)
Definition given (o : options) : gset Z := if tun_fd o =? 0 then ∅ else {[tun_fd o]}.
Definition without_given (o : options) (s : os) : os := mkos (files s ∖ given o) (watched s) (handlers s) (ignored s).

(** The kernel's new descriptors are not in use; the service's is open. *)
Definition good_device (o : options) (k : BTap.answers) (used : gset Z) (s : os) : Prop :=
  if tun_fd o =? 0 then
    (∀ n, BTap.on_open k = Some n → n ∉ used) ∧
    (∀ n, BTap.on_socket k = Some n → n ∉ used ∧ BTap.on_open k ≠ Some n)
  else tun_fd o ∈ files s.

Lemma fresh_mono o o' es :
  fresh o es → files o' ⊆ files o → watched o' ⊆ watched o → handlers o' ⊆ handlers o → ignored o' ⊆ ignored o → fresh o' es.
Proof.
  intros [H1 H2 H3 H4 H5 H6] Hf Hw Hh Hg.
  split; [done|done|set_solver + H3 Hf|set_solver + H4 Hw|set_solver + H5 Hh|set_solver + H6 Hg].
Qed.

Lemma ready_without dbg o s w : ready dbg s w → ready dbg (without_given o s) w.
Proof.
  intros [H1 H2 H3 H4 H5]. split; [simpl; set_solver + H1|done| |done|done].
  eapply fresh_mono; [exact H3|..]; simpl; set_solver +.
Qed.

Lemma watched_signals dbg s w n : ready dbg s w → n ∈ watched (with_signals s w) → n ∈ fds_of (caught w).
Proof.
  intros [_ Hw _ _ _]. simpl. rewrite Hw, elem_of_union, elem_of_list_to_set. intros [?%not_elem_of_empty|H]; [done|].
  by apply reads_fds.
Qed.

Lemma watched_files dbg s w n : ready dbg s w → n ∉ files (with_signals s w) → n ∉ watched (with_signals s w).
Proof. intros Hr Hn Hw. apply Hn. eapply watched_signals in Hw; [|done]. simpl. rewrite elem_of_union, elem_of_list_to_set. by right. Qed.

(** What opening the device does not change. *)
Definition kept (w w' : world) : Prop :=
  net w' = net w ∧ sig w' = sig w ∧ efd w' = efd w ∧ quitting w' = quitting w ∧ lwip_set w' = lwip_set w.

Definition device_post (dbg : bool) (s : os) (w : world) (r : world * bool) : Prop :=
  kept w r.1 ∧ ready dbg s r.1 ∧
  if r.2 then has {[Device; Reactor]} r.1 ∧ device_ok s r.1 ∧ sys r.1 = with_open_device s r.1
  else has {[Reactor]} r.1 ∧ sys r.1 = with_signals s r.1.

Lemma ready_kept dbg s w w' : kept w w' → ready dbg s w → ready dbg s w'.
Proof.
  intros (Hn & Hg & He & _) [H1 H2 H3 H4 H5]. unfold caught, with_reactor in *.
  split; unfold caught, with_reactor; rewrite ?Hg, ?He; done.
Qed.

(** The device is open, watched, and not the system's that is left. *)
Lemma device_opened_ok dbg s w n mtu t :
  has {[Reactor]} w → ready dbg s w → n ∉ files (with_signals s w) → files t = {[n]} ∪ files (with_signals s w) →
  watched t = {[n]} ∪ watched (with_signals s w) → handlers t = handlers (with_signals s w) →
  ignored t = ignored (with_signals s w) →
  post (w' ← acquire Device (with_device (with_sys w t) (BTap.mk mtu NULL true n 0)); Ok (w', true)) (device_post dbg s w).
Proof.
  intros (p & Hp & Hl & Hk) Hr Hn H1 H2 H3 H4. unfold acquire. cbn [live with_device with_sys].
  rewrite bool_decide_true by (rewrite Hl; set_solver + Hp). cbn [c_assert]. rewrite ok_bind. apply post_ok.
  split; [done|]. split; [by apply (ready_kept _ _ w)|]. cbn [fst snd]. split; [|split].
  - exists p. split; [done|]. split; [|done]. cbn [live with_live with_device with_sys]. rewrite Hl. set_solver +.
  - split; [done|exact Hn|]. exact (watched_files dbg s w n Hr Hn).
  - apply os_eq; [exact H1 | exact H2 | exact H3 | exact H4].
Qed.

Lemma closed_ok dbg s w t :
  has {[Reactor]} w → ready dbg s w → t = with_signals s w →
  device_post dbg s w (with_sys w t, false).
Proof. intros Hl Hr ->. split; [done|]. split; [by apply (ready_kept _ _ w)|]. done. Qed.

Lemma with_sys_eq w t : t = sys w → with_sys w t = w.
Proof. intros ->. by destruct w. Qed.

(** Opening and closing, watching and not. *)
Lemma open_files o n : n ∉ files o → open_fd o n = Ok (mkos ({[n]} ∪ files o) (watched o) (handlers o) (ignored o)).
Proof. apply open_ok. Qed.

Lemma open_close o n : n ∉ files o → n ∉ watched o →
  close_fd (mkos ({[n]} ∪ files o) (watched o) (handlers o) (ignored o)) n = Ok o.
Proof. intros H1 H2. rewrite close_fd_ok by (simpl; first [done | set_solver +]). f_equal. apply os_eq; simpl; [set_solver + H1|done|done|done]. Qed.

(** The device by name. *)
Lemma open_named_ok dbg o i s w :
  tun_fd o = 0 → has {[Reactor]} w → ready dbg s w → sys w = with_signals s w →
  good_device o (tap_ans i) (files (with_signals s w)) s →
  post (open_device o i w) (device_post dbg s w).
Proof.
  intros E Hl Hr Hs Hg. unfold open_device, good_device in *. rewrite E in *. cbn [Z.eqb] in *. destruct Hg as [Hopen Hsock].
  assert (Hnone : device_post dbg s w (w, false)) by (split; [done|]; by split).
  unfold BTap.Init, BTap.Init2, BTap.configure.
  destruct (BTap.on_open (tap_ans i)) as [n|]; [|exact (post_ok _ _ Hnone)].
  assert (Hn : n ∉ files (sys w)) by (rewrite Hs; by apply Hopen).
  assert (Hnw : n ∉ watched (sys w)) by (rewrite Hs; apply (watched_files dbg); [done|by apply Hopen]).
  set (t := mkos ({[n]} ∪ files (sys w)) (watched (sys w)) (handlers (sys w)) (ignored (sys w))).
  assert (Hcl : post (w' ← run_calls dev_call (with_sys w t) [BTap.Close n]; Ok (w', false)) (device_post dbg s w)).
  { cbn [run_calls dev_call with_sys sys]. unfold t. rewrite open_close, !ok_bind by done. apply post_ok.
    change (device_post dbg s w (with_sys w (sys w), false)). rewrite (with_sys_eq w (sys w) eq_refl). exact Hnone. }
  assert (Hop : ∀ cs, run_calls dev_call w (BTap.Open n :: cs) = run_calls dev_call (with_sys w t) cs).
  { intros cs. cbn [run_calls dev_call]. by rewrite open_files, !ok_bind by done. }
  destruct (BTap.on_tunsetiff _ _ _) as [name|]; [|by rewrite ok_bind, Hop]. cbv iota beta zeta. unfold BTap.query_mtu.
  destruct (BTap.on_socket (tap_ans i)) as [sock|]; [|by rewrite ok_bind; cbn [app]; rewrite Hop].
  destruct (Hsock sock eq_refl) as [Hsf Hsn]. rewrite <- Hs in Hsf.
  assert (Hsw : sock ∉ watched (sys w)) by (rewrite Hs; apply (watched_files dbg); [done|by rewrite <- Hs]).
  assert (Hsk : ∀ cs, run_calls dev_call (with_sys w t) (BTap.Open sock :: BTap.Close sock :: cs) = run_calls dev_call (with_sys w t) cs).
  { intros cs. cbn [run_calls dev_call with_sys sys].
    assert (sock ∉ files t) by (simpl; rewrite elem_of_union, elem_of_singleton; naive_solver).
    rewrite open_files, !ok_bind by done. cbn [with_sys sys]. by rewrite open_close, !ok_bind by done. }
  destruct (BTap.on_getmtu _ _) as [ifr_mtu|]; [|by rewrite ok_bind; cbn [app]; rewrite Hop, Hsk].
  cbv iota beta zeta. destruct (BTap.on_fcntl (tap_ans i)); [|by rewrite ok_bind; cbn [app]; rewrite Hop, Hsk].
  unfold BTap.finish. destruct (BTap.on_add (tap_ans i)); [|by rewrite ok_bind; cbn [app]; rewrite Hop, Hsk].
  rewrite ok_bind. cbn [app]. rewrite Hop, Hsk. cbn [run_calls dev_call with_sys sys].
  rewrite watch_ok, !ok_bind by (simpl; first [done | set_solver +]). cbn [with_sys files watched handlers ignored t].
  change (with_sys (with_sys w t) ?x) with (with_sys w x).
  apply device_opened_ok; try done; rewrite Hs in *; done.
Qed.

(** The service's descriptor. *)
Lemma open_given_ok dbg o i s w :
  tun_fd o ≠ 0 → has {[Reactor]} w → ready dbg s w → sys w = with_signals s w → tun_fd o ∈ files s →
  post (open_device o i w) (device_post dbg (without_given o s) w).
Proof.
  intros E Hl Hr Hs Hin. pose proof (ready_without dbg o s w Hr) as Hr'. unfold open_device.
  rewrite (proj2 (Z.eqb_neq _ 0) E), ok_bind. unfold BTap.InitWithFD, BTap.finish. set (n := tun_fd o) in *.
  assert (Hg : given o = {[n]}) by (unfold given; fold n; by rewrite (proj2 (Z.eqb_neq _ 0) E)).
  assert (Hfd : n ∉ fds_of (caught w)).
  { intros Hx. destruct Hr as [_ _ Hf _ _]. apply (f_files _ _ Hf n Hx). simpl. set_solver + Hin. }
  assert (Hw : n ∉ watched (sys w)) by (rewrite Hs; intros Hx; by eapply watched_signals in Hx).
  assert (He : n ≠ efd w) by (destruct Hr as [He _ _ _ _]; congruence).
  assert (Hn : n ∉ files (with_signals (without_given o s) w)).
  { simpl. rewrite Hg. rewrite !elem_of_union, elem_of_singleton, elem_of_difference, elem_of_list_to_set, elem_of_singleton. naive_solver. }
  assert (Hu : {[n]} ∪ files (with_signals (without_given o s) w) = files (sys w)).
  { rewrite Hs. simpl. rewrite Hg. apply leibniz_equiv. intros x.
    rewrite !elem_of_union, !elem_of_difference, !elem_of_singleton, !elem_of_list_to_set.
    destruct (decide (x = n)) as [->|]; naive_solver. }
  assert (Hinw : n ∈ files (sys w)) by (rewrite <- Hu; set_solver +).
  destruct (BTap.on_add (tap_ans i)); cbn [app run_calls dev_call].
  - rewrite watch_ok, !ok_bind by done. apply (device_opened_ok dbg); try done; cbn [files watched handlers ignored]; by rewrite Hs.
  - rewrite close_fd_ok, !ok_bind by done. apply post_ok. apply closed_ok; [done|done|].
    apply os_eq; cbn [files watched handlers ignored]; [|by rewrite Hs..]. rewrite <- Hu. set_solver + Hn.
Qed.

Lemma program_device_ok dbg o i s w :
  has {[Reactor]} w → ready dbg s w → sys w = with_signals s w →
  good_device o (tap_ans i) (files (with_signals s w)) s →
  post (open_device o i w) (device_post dbg (without_given o s) w).
Proof.
  intros Hl Hr Hs Hg. destruct (decide (tun_fd o = 0)) as [E|E].
  - assert (without_given o s = s) as ->.
    { unfold without_given, given. rewrite E. apply os_eq; simpl; [set_solver + |done|done|done]. }
    by apply open_named_ok.
  - apply open_given_ok; try done. unfold good_device in Hg. by rewrite (proj2 (Z.eqb_neq _ 0) E) in Hg.
Qed.

Lemma final_kept dbg s w w1 r : kept w w1 → final dbg s w1 r → final dbg s w r.
Proof. intros (Hn & Hg & _). unfold final, ended. by rewrite Hn, Hg. Qed.

Lemma start_post_kept dbg o s w w1 r : kept w w1 → start_post dbg o s w1 r → start_post dbg o s w r.
Proof.
  intros Hk [(c & w' & -> & H)|(r' & -> & H)]; [left|right].
  - exists c, w'. destruct Hk as (Hn & Hg & _). split; [done|]. by rewrite <- Hn, <- Hg.
  - exists r'. split; [done|]. by eapply final_kept.
Qed.

Lemma start_post_same dbg o s w w1 r : same w w1 → start_post dbg o s w1 r → start_post dbg o s w r.
Proof.
  intros Hk [(c & w' & -> & H)|(r' & -> & H)]; [left|right].
  - exists c, w'. destruct Hk as (_ & Hn & Hg & _). split; [done|]. by rewrite <- Hn, <- Hg.
  - exists r'. split; [done|]. by eapply final_same.
Qed.

(** What is parsed is the address of an IPv4 or IPv6 host. *)
Definition is_host (a : BAddr.t) : Prop := match a with BAddr.IPV4 _ _ | BAddr.IPV6 _ _ => True | _ => False end.

Lemma parse_addr_host i s a : parse_addr i s = Some a → is_host a.
Proof.
  unfold parse_addr, BAddr.Parse2. intros H. repeat case_match; simplify_eq; try done;
  repeat (case_match || simplify_option_eq); try done.
Qed.

(** *** The arguments *)

(** The required options are given, as the command line and the service ensure. *)
Definition given_options (o : options) : Prop :=
  is_Some (netif_ipaddr o) ∧ is_Some (netif_netmask o) ∧ is_Some (socks_server_addr o).

(** [netif_ip6addr] is an address. *)
Definition good_args (i : arg_inputs) : Prop := length (ip6_before i) = 16%nat ∧ Forall is_byte (ip6_before i).

(** What is stored: addresses that the clients can use, and one of the gateway if there is to be one. *)
Definition args_ok (o : options) (a : args) : Prop :=
  is_host (socks_server a) ∧
  match udpgw_remote_server_addr o with
  | Some _ => ∃ r, udpgw_remote a = Some r ∧ is_host r
  | None => udpgw_remote a = None
  end.

Definition args_post (o : options) (w : world) (r : option args * world) : Prop :=
  has ∅ r.2 ∧ same w r.2 ∧ ∀ a, r.1 = Some a → args_ok o a.

Lemma read_password_ok o i w :
  has ∅ w → live w = ∅ → post (read_password o i w) (λ r, has ∅ r.2 ∧ same w r.2).
Proof.
  intros H0 Hl.
  unfold read_password. destruct (password o); [by apply post_ok|].
  assert (∃ r cs, ReadFile.read_file (opened i) (file_alloc i) (file_grow i) = Ok (r, cs)) as (r & cs & ->).
  { destruct (opened i) as [f|]; [|by do 2 eexists].
    destruct (ReadFileFacts.read_file_ok f (file_alloc i) (file_grow i)) as (r & cs & E & _). eauto. }
  rewrite ok_bind. destruct r; [|by apply post_ok]. unfold acquire. rewrite bool_decide_true by (rewrite Hl; set_solver +).
  cbn [c_assert]. rewrite ok_bind. apply post_ok. split; [|done]. exists {[Password_file_contents]}. split; [done|]. destruct H0 as (_ & _ & _ & Hk). split; [|done].
  simpl. rewrite Hl. set_solver +.
Qed.

Lemma auth_list_ok o i w : has ∅ w → live w = ∅ → post (auth_list o i w) (λ r, has ∅ r.2 ∧ same w r.2).
Proof.
  intros H0 Hl. unfold auth_list. destruct (username o).
  - eapply post_bind; [by apply read_password_ok|]. intros [p w'] H. by apply post_ok.
  - by apply post_ok.
Qed.

Lemma process_arguments_ok o i w :
  live w = ∅ → quiet w → given_options o → good_args i → post (process_arguments o i w) (args_post o w).
Proof.
  intros Hl Hk ([ip Hip] & [mask Hmask] & [server Hserver]) [Hlen Hbytes]. unfold process_arguments.
  rewrite bool_decide_true by (rewrite Hl; set_solver +). cbn [c_assert]. unfold resolve_ipv4.
  rewrite Hip, Hmask. cbn [or_fault]. rewrite !ok_bind.
  assert (Hh : has ∅ w) by (exists ∅; split; [set_solver +|]; split; [rewrite Hl; set_solver +|done]).
  assert (H0 : args_post o w (None, w)) by done.
  destruct (match BIPAddr.Resolve _ ip _ with Some _ => _ | None => _ end); [|by apply post_ok]. rewrite ok_bind.
  destruct (match BIPAddr.Resolve _ mask _ with Some _ => _ | None => _ end); [|by apply post_ok].
  assert (∃ ip6, parse_ip6 i (netif_ip6addr o) = Ok ip6) as [ip6 ->].
  { unfold parse_ip6. destruct (netif_ip6addr o); [|by eexists].
    destruct (IPv6Facts.ipv6_parse_safe l (ip6_before i) Hlen Hbytes) as [(a & -> & _) _]. rewrite ok_bind. by eexists. }
  rewrite ok_bind. destruct ip6; [|by apply post_ok]. rewrite Hserver. cbn [or_fault]. rewrite ok_bind.
  destruct (parse_addr i server) as [s|] eqn:Hs; [|by apply post_ok].
  eapply post_bind; [by apply auth_list_ok|]. intros [[a|] w'] [Hh' Hsame]; [|by apply post_ok].
  destruct (udpgw_remote_server_addr o) as [u|] eqn:Hu.
  - destruct (parse_addr i u) as [r|] eqn:Hr; apply post_ok; (split; [done|]; split; [done|]); [|done].
    intros a' [= <-]. split; [by eapply parse_addr_host|]. rewrite Hu. exists r. split; [done|]. by eapply parse_addr_host.
  - apply post_ok. split; [done|]. split; [done|]. intros a' [= <-]. split; [by eapply parse_addr_host|]. by rewrite Hu.
Qed.

Lemma gateway_init_ok udp_mtu server auths remote g_ok s_ok :
  is_host server → is_host remote → ∃ g, SocksUdpGwClient.Init udp_mtu server auths remote g_ok s_ok = Ok g.
Proof.
  intros Hs Hr. unfold SocksUdpGwClient.Init. destruct server; try done; destruct remote; try done; destruct g_ok, s_ok; by eexists.
Qed.

(** *** Entering the loop *)

Lemma start_device_ok dbg o i a s w :
  has {[Reactor]} w → ready dbg s w → sys w = with_signals s w → quitting w = false → args_ok o a →
  good_device o (tap_ans i) (files (with_signals s w)) s →
  start_post dbg o (without_given o s) w (start_device dbg o i a w).
Proof.
  intros Hl Hr Hs Hq [Ha1 Ha2] Hg. unfold start_device.
  destruct (program_device_ok dbg o i s w Hl Hr Hs Hg) as ([w1 ok] & -> & Hk & Hr1 & H1). rewrite ok_bind. cbn [fst snd] in *.
  apply (start_post_kept _ _ _ _ w1); [done|]. set (s' := without_given o s) in *.
  destruct ok; cbn [negb].
  2:{ destruct H1. right. eexists. split; [done|]. by apply fail3_ok. }
  destruct H1 as (Hl1 & Hd1 & Hs1). assert (Hq1 : quitting w1 = false) by (destruct Hk as (_&_&_&->&_); done).
  assert (Hw1 : running dbg s' w1) by done.
  destruct (has_acquire Device_read_interface _ {[Device_read_interface; Device; Reactor]} _ Hl1) as (w2 & -> & Hl2 & Hs2 & Hq2 & _);
    [set_solver + |done|set_solver + |]. rewrite ok_bind.
  assert (Hw2 : running dbg s' w2) by by eapply running_same.
  apply (start_post_same _ _ _ _ w2); [done|]. unfold SinglePacketBuffer.Init. rewrite Z.leb_refl. cbn [c_assert].
  destruct (spb_alloc i); rewrite ok_bind.
  2:{ right. eexists. split; [done|]. destruct Hw2 as (? & ? & ?). by apply fail4_ok. }
  destruct (has_acquire Device_read_buffer _ at_fail4a _ Hl2) as (w3 & -> & Hl3 & Hs3 & Hq3 & _);
    [set_solver + |done|unfold at_fail4a; set_solver + |]. rewrite ok_bind.
  assert (Hw3 : running dbg s' w3) by by eapply running_same.
  apply (start_post_same _ _ _ _ w3); [done|].
  destruct (udpgw_remote_server_addr o) as [u|] eqn:Hu.
  2:{ apply start_rest_ok; [|done|congruence]. rewrite Hu. by rewrite (left_id_L ∅ _). }
  assert (Hfail : start_post dbg o s' w3 (ends (fail4a dbg w3))).
  { right. eexists. split; [done|]. by apply fail4a_ok. }
  destruct (udpgw_too_large _); [done|]. destruct Ha2 as (r & -> & Hhost). cbn [or_fault]. rewrite ok_bind.
  destruct (gateway_init_ok (compute_udp_mtu (BTap.GetMTU (device w1)) (bool_decide (is_Some (netif_ip6addr o))))
    (socks_server a) (auths a) r (udpgw_ok i) (socks_ok i) Ha1 Hhost) as [g ->]. rewrite ok_bind.
  destruct g; [|done].
  destruct (has_acquire Udpgw_client _ ({[Udpgw_client]} ∪ at_fail4a) _ Hl3) as (w4 & -> & Hl4 & Hs4 & Hq4 & _);
    [unfold at_fail4a; set_solver + |done|done|]. rewrite ok_bind.
  apply (start_post_same _ _ _ _ w4); [done|]. apply start_rest_ok; [by rewrite Hu|by eapply running_same|congruence].
Qed.

(** The descriptors that are in use when the device is opened. *)
Definition pipe_fds (ans : Z → UnixSignal.answer) (n : Z) : gset Z :=
  match UnixSignal.on_pipe (ans n) with Some (r, v) => {[r; v]} | None => ∅ end.
Definition used (i : inputs) (w : world) : gset Z :=
  files (sys w) ∪ (match on_epoll_create i with Some n => {[n]} | None => ∅ end)
  ∪ pipe_fds (signal_ans i) Signal.SIGTERM ∪ pipe_fds (signal_ans i) Signal.SIGINT.

(** A process in which nothing of the program is left: no objects, no timer, no connections of lwip's, nothing that is
    watched, and signals that were never caught. *)
Definition idle (w : world) : Prop :=
  live w = ∅ ∧ quiet w ∧ watched (sys w) = ∅ ∧ Signal.signal (sig w) = UnixSignal.mk UnixSignal.Null [].

(** The system with SIGPIPE ignored, and as it is from when the network is initialized. *)
Definition ignoring (s : os) : os := sigaction_ignore s SIGPIPE.
Definition base (i : inputs) (w : world) : os := if on_sigpipe i then ignoring (sys w) else sys w.

(** What a run starts from: nothing is left of earlier ones, and the kernel's answers are new descriptors.  With assertions
    compiled in, it is the first run. *)
Record startable (dbg : bool) (o : options) (i : inputs) (w : world) : Prop := {
  s_idle : idle w;
  s_first : dbg = true → net w = false ∧ Signal.initialized (sig w) = false ∧ Signal.finished (sig w) = false;
  s_options : given_options o;
  s_args : good_args (arg_in i);
  s_epoll : ∀ n, on_epoll_create i = Some n → n ∉ files (sys w);
  s_signals : set_signal o = true → ∀ n, on_epoll_create i = Some n →
    good_answers (mkos ({[n]} ∪ files (sys w)) ∅ (handlers (ignoring (sys w))) (ignored (ignoring (sys w))))
      [Signal.SIGTERM; Signal.SIGINT] (signal_ans i);
  s_device : good_device o (tap_ans i) (used i w) (sys w);
}.

Lemma s_live dbg o i w : startable dbg o i w → live w = ∅.
Proof. by intros [[? _]]. Qed.

Lemma s_watched dbg o i w : startable dbg o i w → watched (ignoring (sys w)) = ∅.
Proof. by intros [(_ & _ & ? & _)]. Qed.

Lemma s_never dbg o i w : startable dbg o i w → Signal.signal (sig w) = UnixSignal.mk UnixSignal.Null [].
Proof. by intros [(_ & _ & _ & ?)]. Qed.

(** What is left when the loop was not reached for want of arguments or a reactor: all is as before. *)
Definition as_before (i : inputs) (w w' : world) : Prop := released (base i w) w' ∧ sig w' = sig w.

(** The process once the network is initialized. *)
Definition networked (w : world) : world := with_net w (ignoring (sys w)) true.

Lemma network_ok dbg o i w : startable dbg o i w →
  BNetwork_GlobalInit dbg (sys w) (net w) (on_sigpipe i) =
    Ok (if on_sigpipe i then (ignoring (sys w), true, true) else (sys w, net w, false)).
Proof.
  intros H. unfold BNetwork_GlobalInit, assert_if. destruct dbg, (on_sigpipe i); try done;
  by destruct (s_first _ _ _ _ H eq_refl) as (-> & _ & _).
Qed.

Lemma arguments_ok dbg o i w : startable dbg o i w →
  post (process_arguments o (arg_in i) (networked w)) (args_post o (networked w)).
Proof. intros [(? & ? & _)]. by apply process_arguments_ok. Qed.

(** Up to the reactor. *)
Lemma start_early dbg o i w :
  startable dbg o i w →
  (∃ r, start dbg o i w = ends r ∧ post r (as_before i w)) ∨
  ∃ a w1 n, on_sigpipe i = true ∧ process_arguments o (arg_in i) (networked w) = Ok (Some a, w1) ∧
    on_epoll_create i = Some n.
Proof.
  intros H. unfold start. rewrite (network_ok _ _ _ _ H), ok_bind.
  assert (Hend : ∀ w1 b, has ∅ w1 → same (with_net w (base i w) b) w1 → post (fail1 w1) (as_before i w)).
  { intros w1 b Hl (Hs & _ & Hg & _). eapply post_mono; [by apply (fail1_ok (base i w))|].
    intros w' (? & _ & Hg'). split; [done|]. by rewrite Hg', Hg. }
  unfold base in Hend. destruct (on_sigpipe i); cbn [negb].
  2:{ left. eexists. split; [done|]. apply (Hend _ (net w)); [|done]. exists ∅. split; [set_solver +|].
      destruct H as [(Hl & Hk & _)]. split; [simpl; rewrite Hl; set_solver + | done]. }
  destruct (arguments_ok _ _ _ _ H) as ([[a|] w1] & Ha & Hh & Hs & _); cbn [fst snd] in *; unfold networked in Ha; rewrite Ha, ok_bind;
    [|left; eexists; split; [done|]; by apply (Hend _ true)].
  destruct (on_epoll_create i) as [n|] eqn:He; [|left; eexists; split; [done|]; by apply (Hend _ true)].
  right. by exists a, w1, n.
Qed.

(** The reactor is there and nothing is watched yet. *)
Lemma reactor_ok dbg o i w w1 n :
  startable dbg o i w → has ∅ w1 → same (networked w) w1 → on_epoll_create i = Some n →
  post (reactor_init n w1) (λ w2, has {[Reactor]} w2 ∧ efd w2 = n ∧ sig w2 = sig w ∧
    sys w2 = mkos ({[n]} ∪ files (sys w)) ∅ (handlers (ignoring (sys w))) (ignored (ignoring (sys w)))).
Proof.
  intros H (p & Hp & Hl & Hk) (Hs & _ & Hg & _) He. unfold reactor_init. rewrite Hs. cbn [sys networked with_net].
  rewrite open_ok, ok_bind by by apply (s_epoll _ _ _ _ H). unfold acquire.
  rewrite bool_decide_true by (rewrite Hl; set_solver + Hp). cbn [c_assert]. rewrite ok_bind. apply post_ok.
  split; [|split; [done|split; [done|]]].
  - exists p. split; [done|]. split; [|done]. simpl. rewrite Hl. set_solver +.
  - cbn [sys with_efd with_live with_sys]. by rewrite (s_watched _ _ _ _ H).
Qed.

Lemma signals_used i w w2 n :
  on_epoll_create i = Some n → efd w2 = n →
  (∀ e, e ∈ caught w2 → made_for [Signal.SIGTERM; Signal.SIGINT] (signal_ans i) e) →
  files (with_signals (ignoring (sys w)) w2) ⊆ used i w.
Proof.
  intros He Hn Hm x. unfold used. rewrite He. simpl. rewrite Hn, !elem_of_union, elem_of_list_to_set.
  intros [[?|?]|Hx]; [by left; left; right|by left; left; left|]. unfold fds_of in Hx.
  apply list_elem_of_bind in Hx as (e & Hx & Hin). destruct (Hm e Hin) as [Hs Hp].
  assert (x ∈ pipe_fds (signal_ans i) (UnixSignal.signo e)).
  { unfold pipe_fds. rewrite Hp. rewrite elem_of_cons, list_elem_of_singleton in Hx. set_solver + Hx. }
  rewrite elem_of_cons, list_elem_of_singleton in Hs. destruct Hs as [<-|<-]; [left; by right | by right].
Qed.

Lemma good_device_mono o k u u' s : u ⊆ u' → good_device o k u' s → good_device o k u s.
Proof. unfold good_device. intros Hu. case_match; [|done]. intros [H1 H2]. split; [naive_solver|]. intros n Hn. split; [set_solver|by apply H2]. Qed.

(** From the reactor on. *)
Definition past_post (dbg : bool) (o : options) (w : world) (r : result started) : Prop :=
  (∃ w1, start_post dbg o (without_given o (ignoring (sys w))) w1 r ∧ aborts dbg (sig w1) = dbg && negb (set_signal o) ∧
     (set_signal o = false → Signal.signal (sig w1) = UnixSignal.mk UnixSignal.Null [])) ∨
  (set_signal o = true ∧ ∃ r', r = ends r' ∧ post r' (released (ignoring (sys w)))).

Lemma start_past dbg o i w a w1 n :
  startable dbg o i w → on_sigpipe i = true → process_arguments o (arg_in i) (networked w) = Ok (Some a, w1) →
  on_epoll_create i = Some n → past_post dbg o w (start dbg o i w).
Proof.
  intros H Hp Ha He. unfold start. rewrite (network_ok _ _ _ _ H), Hp, ok_bind. cbn [negb].
  change (with_net w (ignoring (sys w)) true) with (networked w). rewrite Ha, ok_bind, He.
  destruct (arguments_ok _ _ _ _ H) as (r & Ha' & Hh & Hs & Hargs). rewrite Ha in Ha'. injection Ha' as <-.
  specialize (Hargs a eq_refl). cbn [fst snd] in *.
  destruct (reactor_ok _ _ _ _ _ _ H Hh Hs He) as (w2 & -> & Hl2 & Hn & Hg & Hsys). rewrite ok_bind.
  set (w3 := with_loop w2 false (lwip_set w2) (tcp_clients w2)).
  assert (Hef : n ∉ files (sys w)) by by apply (s_epoll _ _ _ _ H).
  pose proof (s_watched _ _ _ _ H) as Hw. unfold past_post. set (s := ignoring (sys w)) in *.
  assert (Hbase : with_reactor s w3 = mkos ({[n]} ∪ files (sys w)) ∅ (handlers s) (ignored s)).
  { unfold with_reactor. rewrite Hw. simpl. by rewrite Hn. }
  assert (Hl3 : has {[Reactor]} w3) by exact Hl2.
  destruct (set_signal o) eqn:Hset.
  - unfold Signal.Init, assert_if. cbn [sys sig with_loop w3]. rewrite Hg, Hsys.
    assert (negb dbg || negb (Signal.initialized (sig w)) = true) as ->.
    { destruct dbg; [|done]. by destruct (s_first _ _ _ _ H eq_refl) as (_ & -> & _). }
    cbn [c_assert].
    pose proof (s_signals _ _ _ _ H Hset n He) as Hgood. fold s in Hgood.
    destruct (SignalFacts.unix_signal_ok _ (Signal.signal (sig w)) _ (signal_alloc i) (signal_ans i) Hgood) as (t & us & ok & -> & Hok). rewrite ok_bind. destruct ok; rewrite ok_bind.
    + destruct Hok as (Harr & _ & _ & Ht & Hf & Hm). left. set (w4 := with_sig _ _ _). exists w4.
      assert (Hbase4 : with_reactor s w4 = with_reactor s w3) by done.
      split; [|by destruct dbg].
      apply start_device_ok; try done.
      * split; [by rewrite <- Hn in Hef|done| |simpl; congruence|done]. unfold caught. rewrite Hbase4, Hbase. exact Hf.
      * simpl. rewrite Ht. unfold with_signals. rewrite Hbase4, Hbase. done.
      * eapply good_device_mono; [by eapply (signals_used i w w4 n)|]. by destruct H.
    + destruct Hok as [-> _]. right. split; [done|]. eexists. split; [done|]. set (w4 := with_sig _ _ _).
      eapply post_mono; [apply (fail2_ok s w4)|by intros w' (? & _)]; [done|by rewrite <- Hn in Hef|done|].
      simpl. symmetry. exact Hbase.
  - left. exists w3. assert (Hc : caught w3 = []) by (unfold caught; simpl; by rewrite Hg, (s_never _ _ _ _ H)).
    assert (Hws : with_signals s w3 = with_reactor s w3) by (unfold with_signals; rewrite Hc; apply with_none).
    split; [|split].
    + apply start_device_ok; try done.
      * split; [by rewrite <- Hn in Hef|done| | |].
        -- rewrite Hc. split; try apply NoDup_nil_2; by intros ? ?%not_elem_of_nil.
        -- simpl. by rewrite Hg, (s_never _ _ _ _ H).
        -- simpl. rewrite Hg. intros Hd. by destruct (s_first _ _ _ _ H Hd) as (_ & _ & ->).
      * rewrite Hws, Hbase. exact Hsys.
      * eapply good_device_mono; [apply (signals_used i w w3 n); [done|done|]|by destruct H].
        rewrite Hc. by intros e ?%not_elem_of_nil.
    + unfold aborts. simpl. rewrite Hg. destruct dbg; [|done]. by destruct (s_first _ _ _ _ H eq_refl) as (_ & -> & _).
    + intros _. simpl. rewrite Hg. by eapply s_never.
Qed.

(** *** Runs *)

Lemma terminate_sig w w' : terminate w = Ok w' → sig w' = sig w.
Proof. unfold terminate. intros. by inv_ok. Qed.

Lemma acquire_sig r w w' : acquire r w = Ok w' → sig w' = sig w.
Proof. unfold acquire. intros. by inv_ok. Qed.

Lemma release_sig r w w' : release r w = Ok w' → sig w' = sig w.
Proof. unfold release. intros. by inv_ok. Qed.

Lemma init_listener_sig pcb l v6 new listen w w' ok : init_listener pcb l v6 new listen w = Ok (w', ok) → sig w' = sig w.
Proof.
  unfold init_listener. intros H. destruct new; [|by inv_ok]. inv_ok. destruct (Lwip.tcp_bind_to_netif _ _ _) as [L []]; cbn [negb] in *;
    repeat case_if; inv_ok;
    repeat match goal with
    | H : acquire _ _ = Ok _ |- _ => apply acquire_sig in H
    | H : release _ _ = Ok _ |- _ => apply release_sig in H
    end; simpl in *; congruence.
Qed.

Lemma abort_sig p w w' : tcp_abort p w = Ok w' → sig w' = sig w.
Proof.
  unfold tcp_abort, client_err_func. destruct (Lwip.tcp_abandon _ _) as [L [n|]]; intros H; inv_ok; done.
Qed.

Lemma accept_sig p ok w w' : listener_accept_func p ok w = Ok w' → sig w' = sig w.
Proof.
  unfold listener_accept_func. intros H. destruct ok; cbn [negb] in H; [|by eapply abort_sig].
  inv_ok. match goal with H : acquire _ _ = Ok _ |- _ => by apply acquire_sig in H end.
Qed.

Lemma dealloc_sig n w w' : client_dealloc n w = Ok w' → sig w' = sig w.
Proof. unfold client_dealloc. intros H. inv_ok. match goal with H : release _ _ = Ok _ |- _ => by apply release_sig in H end. Qed.

Lemma lwip_init_sig o k w w' : lwip_init_job_handler o k w = Ok w' → sig w' = sig w.
Proof.
  unfold lwip_init_job_handler. intros H. repeat case_if; inv_ok; repeat case_if; inv_ok;
    repeat match goal with
    | H : (let '(_, _) := ?x in _) = Ok _ |- _ => destruct x
    | H : context [match ?x with Some _ => _ | None => _ end] |- _ => destruct x
    end; repeat case_if; inv_ok;
    repeat match goal with
    | H : (let '(_, _) := ?x in _) = Ok _ |- _ => destruct x
    end; repeat case_if; inv_ok;
    repeat match goal with
    | H : acquire _ _ = Ok _ |- _ => apply acquire_sig in H
    | H : terminate _ = Ok _ |- _ => apply terminate_sig in H
    | H : init_listener _ _ _ _ _ _ = Ok (_, _) |- _ => apply init_listener_sig in H
    end; simpl in *; congruence.
Qed.

Lemma step_sig o w e w' : step o w e = Some (Ok w') → sig w' = sig w.
Proof.
  unfold step, tcp_timer_handler, device_error_handler, signal_handler. intros H.
  destruct (quitting w); [done|]. destruct e; repeat (case_match || case_if); simplify_eq; try done; inv_ok;
    repeat match goal with
    | H : terminate _ = Ok _ |- _ => apply terminate_sig in H
    | H : lwip_init_job_handler _ _ _ = Ok _ |- _ => apply lwip_init_sig in H
    | H : listener_accept_func _ _ _ = Ok _ |- _ => apply accept_sig in H
    | H : client_dealloc _ _ = Ok _ |- _ => apply dealloc_sig in H
    end; simpl in *; repeat case_if; inv_ok; repeat match goal with H : terminate _ = Ok _ |- _ => apply terminate_sig in H end;
    simpl in *; congruence.
Qed.

Lemma run_steps_app o w es es' :
  run_steps (step o) w (es ++ es') =
    match run_steps (step o) w es with Some (Ok w') => run_steps (step o) w' es' | r => r end.
Proof. revert w. induction es as [|e es IH]; intros w; [done|]. simpl. by destruct (step o w e) as [[]|]. Qed.

(** The loop, from the state it is entered in. *)
Lemma loop_ok dbg o s w es r :
  loop_inv dbg o s w → run_steps (step o) w es = Some r → ∃ w', r = Ok w' ∧ loop_inv dbg o s w' ∧ sig w' = sig w.
Proof.
  intros H Hr.
  destruct (run_steps_inv (step o) (λ w', loop_inv dbg o s w' ∧ sig w' = sig w)) with (es := es) (w := w) (r := r)
    as (w' & ? & ?); [|done..|by exists w'].
  intros w1 e r' [H1 Hg] Hs. destruct (program_step_ok _ _ _ _ _ _ H1 Hs) as (w2 & -> & H2). exists w2. split; [done|]. split; [done|].
  by rewrite (step_sig _ _ _ _ Hs).
Qed.

(** A run from where the loop may be entered: it is still in the loop, or comes to the end of a label. *)
Lemma run_past dbg o i es s w w1 :
  start_post dbg o s w1 (start dbg o i w) →
  run dbg o i es w = None ∨ ∃ r w2, run dbg o i es w = Some r ∧ sig w2 = sig w1 ∧ final dbg s w2 r.
Proof.
  intros [(c & w' & E & Hi & _ & _ & _ & _ & Hg)|(r' & E & Hf)]; unfold run; rewrite E.
  - destruct (run_steps (step o) w' es) as [r|] eqn:Hr; [|by left]. destruct (loop_ok _ _ _ _ _ _ Hi Hr) as (w2 & -> & Hi2 & Hg2).
    simpl. destruct (quitting w2); [|by left]. right. eexists _, w2. split; [done|]. split; [congruence|].
    by apply loop_finish_ok.
  - right. destruct r' as [w'|f]; simpl.
    + eexists _, w1. split; [done|]. done.
    + eexists _, w1. split; [done|]. done.
Qed.

(** When the loop is entered, everything is open, and lwip has no connections. *)
Lemma entered_ok dbg o i w c w1 :
  startable dbg o i w → start dbg o i w = Ok (Entered c w1) →
  ∃ s, loop_inv dbg o s w1 ∧ quitting w1 = false ∧ lwip_set w1 = true.
Proof.
  intros H Hst. destruct (start_early _ _ _ _ H) as [(r & E & w' & -> & _)|(a & w' & n & Hp & Ha & He)]; [by rewrite E in Hst|].
  destruct (start_past _ _ _ _ _ _ _ H Hp Ha He) as [(w3 & [(c' & w4 & E & Hi & Hq & Hl & _)|(r & E & _)] & _)|(_ & r & E & _)];
    rewrite E in Hst; [simplify_eq; by eexists|destruct r; done..].
Qed.

(** Every run of a process in which nothing is left can listen. *)
Definition listens (dbg : bool) (o : options) (i : inputs) (w : world) : Prop :=
  ∀ c w1 k, start dbg o i w = Ok (Entered c w1) → has_memory o k →
    ∃ w2, step o w1 (Lwip_init k) = Some (Ok w2) ∧ quitting w2 = false ∧ Listener ∈ live w2.

Lemma listens_ok dbg o i w : startable dbg o i w → listens dbg o i w.
Proof.
  intros H c w1 k Hst Hk. destruct (entered_ok _ _ _ _ _ _ H Hst) as (s & Hi & Hq & Hl).
  destruct (lwip_init_ok _ _ _ k _ Hi Hl Hq) as (w2 & E & _ & H2 & Hm). exists w2. unfold step. rewrite Hq, Hl, E.
  split; [done|]. specialize (Hm Hk). split; [done|]. by apply H2.
Qed.

(** What a run of a process leaves when it has returned. *)
Definition leaves (dbg : bool) (o : options) (i : inputs) (w w' : world) : Prop :=
  live w' = ∅ ∧ tcp_timer w' = false ∧ pcbs w' = Lwip.no_pcbs ∧
  (sys w' = base i w ∨ sys w' = without_given o (base i w)) ∧
  ((∃ c w1, start dbg o i w = Ok (Entered c w1)) → sys w' = without_given o (ignoring (sys w))) ∧
  (set_signal o = false → idle w').

Lemma run_leaves dbg o i es w :
  startable dbg o i w → (dbg = true → set_signal o = true) →
  run dbg o i es w = None ∨ ∃ w', run dbg o i es w = Some (Ok w') ∧ leaves dbg o i w w'.
Proof.
  intros H Hd. pose proof (s_watched _ _ _ _ H) as Hw. unfold leaves.
  destruct (start_early _ _ _ _ H) as [(r & E & Hr)|(a & w1 & n & Hp & Ha & He)].
  - right. destruct Hr as (w' & -> & [(Hl & Hs & Hk) Hg]). exists w'. unfold run. rewrite E. simpl. split; [done|]. split; [done|].
    split; [apply Hk|]. split; [apply Hk|]. split; [by left|]. split; [by intros (c & w1 & ?)|]. intros _. split; [done|]. split; [done|].
    rewrite Hs, Hg. split; [|by eapply s_never]. unfold base. destruct (on_sigpipe i); [done|exact Hw].
  - assert (Hb : base i w = ignoring (sys w)) by (unfold base; by rewrite Hp). rewrite Hb.
    destruct (start_past _ _ _ _ _ _ _ H Hp Ha He) as [(w2 & Hst & Hab & Hsig)|(Hset & r & E & Hr)].
    + destruct (run_past _ _ i es _ w _ Hst) as [?|(r & w3 & E & Hg & Hf)]; [by left|]. right.
      unfold final in Hf. rewrite Hg, Hab in Hf. assert (dbg && negb (set_signal o) = false) as Hno.
      { destruct dbg; [by rewrite Hd|done]. }
      rewrite Hno in Hf. destruct Hf as (w' & -> & (Hl & Hs & Hk) & _ & Ha1 & Ha2). exists w'. split; [done|]. split; [done|].
      split; [apply Hk|]. split; [apply Hk|]. split; [by right|]. split; [done|]. intros Hset. split; [done|]. split; [done|].
      rewrite Hs. split; [exact Hw|].
      specialize (Hsig Hset). rewrite Hg, Hsig in Ha2. specialize (Ha2 eq_refl).
      destruct (Signal.signal (sig w')). simpl in *. by subst.
    + right. destruct Hr as (w' & -> & Hl & Hs & Hk). exists w'. unfold run. rewrite E. simpl. split; [done|]. split; [done|].
      split; [apply Hk|]. split; [apply Hk|]. split; [by left|]. split; [by intros (c & w2 & ?)|]. by rewrite Hset.
Qed.

(** C16: Whatever fails at the start and whatever happens in the event loop, run never fails an
    assertion or frees what is not there (if assertions are compiled out, or signals are
    caught), and when it has returned nothing is left: every object is released, in an order
    in which nothing is used after it is freed, the timer is not set, and lwip's lists of
    bound, active and waiting connections are empty, whatever connections there were;
    nothing is watched, and the system's descriptors and signal handlers are as before,
    except that SIGPIPE is ignored (if that call succeeds), and that the device's descriptor
    is closed, always if the event loop was entered. As the service calls it, the process is
    then one that run can start from again; and from such a process, a run that enters the
    event loop can bind and listen if lwip has memory. *)
Theorem run_releases dbg o i es w :
  startable dbg o i w → (dbg = true → set_signal o = true) →
  listens dbg o i w ∧
  (run dbg o i es w = None ∨
   ∃ w', run dbg o i es w = Some (Ok w') ∧ live w' = ∅ ∧ tcp_timer w' = false ∧ pcbs w' = Lwip.no_pcbs ∧
     (sys w' = base i w ∨ sys w' = without_given o (base i w)) ∧
     ((∃ c w1, start dbg o i w = Ok (Entered c w1)) → sys w' = without_given o (ignoring (sys w))) ∧
     (set_signal o = false → idle w')).
Proof. intros H Hd. split; [by apply listens_ok | by apply run_leaves]. Qed.

(** C18: With assertions compiled in and signals not caught, as the service calls it, a run
    whose arguments are good and that has a reactor never returns: BSignal_Finish, at the
    label all its ends pass, fails its assertion that BSignal_Init was called. *)
Theorem run_aborts o i es a w w1 n :
  startable true o i w → set_signal o = false →
  on_sigpipe i = true → process_arguments o (arg_in i) (networked w) = Ok (Some a, w1) → on_epoll_create i = Some n →
  run true o i es w = None ∨ run true o i es w = Some (Fault AssertFailed).
Proof.
  intros H Hset Hp Ha He. destruct (start_past _ _ _ _ _ _ _ H Hp Ha He) as [(w2 & Hst & Hab & _)|[? _]]; [|congruence].
  destruct (run_past _ _ i es _ w _ Hst) as [?|(r & w3 & E & Hg & Hf)]; [by left|]. right.
  unfold final in Hf. rewrite Hg, Hab, Hset in Hf. by rewrite E, Hf.
Qed.

(** A second run in the process: [bnetwork_initialized] is never reset. *)
Lemma second_run_aborts o i es w : net w = true → run true o i es w = Some (Fault AssertFailed).
Proof. intros H. unfold run, start, BNetwork_GlobalInit, assert_if. by rewrite H. Qed.

(** While the loop runs the timer is set, and its expiry with [g_terminate] set ends it. *)
Lemma expiry_ok dbg o s w : loop_inv dbg o s w → quitting w = false → lwip_set w = false →
  ∃ w', step o w (Tcp_timer_expired true) = Some (Ok w') ∧ quitting w' = true.
Proof.
  intros H Hq Hl. eexists. unfold step, tcp_timer_handler, terminate. rewrite Hq, Hl, (l_timer _ _ _ _ H Hq).
  cbn [quitting with_timer]. rewrite Hq. by split.
Qed.

(** C17: The program ends when it is told to: while the event loop it has entered runs, whatever
    has happened in it, the TCP timer is set, and its next expiry with g_terminate set
    (after the job that starts lwip, if that has not run yet) ends the loop; run then
    returns, with everything released and no connections left. *)
Theorem run_stops dbg o i es w c w1 w2 :
  startable dbg o i w → (dbg = true → set_signal o = true) → start dbg o i w = Ok (Entered c w1) →
  run_steps (step o) w1 es = Some (Ok w2) → quitting w2 = false →
  tcp_timer w2 = true ∧
  ∃ es', (length es' ≤ 2)%nat ∧ (lwip_set w2 = false → es' = [Tcp_timer_expired true]) ∧
    ∃ w', run dbg o i (es ++ es') w = Some (Ok w') ∧ live w' = ∅ ∧ quiet w'.
Proof.
  intros H Hd Hst Hes Hq. destruct (entered_ok _ _ _ _ _ _ H Hst) as (s & Hi & _).
  destruct (loop_ok _ _ _ _ _ _ Hi Hes) as (w' & [= <-] & Hi2 & _). split; [by eapply l_timer|].
  assert (Hend : ∀ es' w3, run_steps (step o) w2 es' = Some (Ok w3) → quitting w3 = true →
    ∃ w', run dbg o i (es ++ es') w = Some (Ok w') ∧ live w' = ∅ ∧ quiet w').
  { intros es' w3 Hes' Hq3. destruct (run_leaves dbg o i (es ++ es') w H Hd) as [Hn|(w' & E & Hl & Ht & Hp & _)]; [|by exists w'].
    exfalso. unfold run in Hn. rewrite Hst, run_steps_app, Hes, Hes' in Hn. simpl in Hn. by rewrite Hq3 in Hn. }
  destruct (lwip_set w2) eqn:Hl.
  - set (k := mklwip true (Some 0%nat) true (Some 1%nat) true).
    destruct (lwip_init_ok _ _ _ k _ Hi2 Hl Hq) as (w3 & E & Hi3 & Hn & Hk).
    assert (Hs3 : step o w2 (Lwip_init k) = Some (Ok w3)) by (unfold step; by rewrite Hq, Hl, E).
    assert (Hq3 : quitting w3 = false) by (apply Hk; split_and!; try done; by eexists).
    destruct (Hn Hq3) as [Hl3 _]. destruct (expiry_ok _ _ _ _ Hi3 Hq3 Hl3) as (w4 & Hs4 & Hq4).
    exists [Lwip_init k; Tcp_timer_expired true]. split; [simpl; lia|]. split; [done|]. apply (Hend _ w4); [|done].
    simpl. by rewrite Hs3, Hs4.
  - destruct (expiry_ok _ _ _ _ Hi2 Hq Hl) as (w3 & Hs3 & Hq3). exists [Tcp_timer_expired true]. split; [simpl; lia|]. split; [done|].
    apply (Hend _ w3); [|done]. simpl. by rewrite Hs3.
Qed.

(** *** The size of datagrams *)

(** The client is made for the payloads that fit an IPv4 packet of the device; the size for IPv6 is always smaller. *)
Lemma compute_udp_mtu_spec mtu ip6 : compute_udp_mtu mtu ip6 = Z.max 0 (mtu - 28).
Proof.
  unfold compute_udp_mtu. change (Ipv4.sizeof + sizeof_udp_header) with 28. change (Ipv6.sizeof + sizeof_udp_header) with 48.
  destruct ip6; repeat case_if; lia.
Qed.

(** *** An example *)

(** The service's call, with a device that is descriptor 7, and a session: lwip starts, connections come, one is refused,
    one client comes to its end and leaves its connection waiting, another has one that is still to be closed, the third
    is there and a fourth connection not accepted yet when the service ends it. *)
Definition ex_java : java_args :=
  mkjava 7 1500 (str "10.0.0.2") (str "255.255.255.0") (str "127.0.0.1:1080") (str "127.0.0.1:7300") true.
Definition ex_before : options :=
  mkopts None None None None None None None false None 0 0 false None 0 0 false 0.
Definition ex_options : options := java_options ex_before ex_java.
Definition ex_arg_inputs : arg_inputs := mkai AddrFacts.numeric_only (replicate 16 0) None true (λ _, true).
Definition ex_inputs : inputs :=
  mkin true ex_arg_inputs (Some 8) true (λ _, UnixSignal.mka None true true true)
    (BTap.mkans None (λ _ _, None) None (λ _, None) true true) (Some 4096) true false true.
Definition ex_process : world := mkw ∅ (mkos {[7]} ∅ ∅ ∅) false Signal.initial Lwip.no_pcbs false false [] 0 DeviceWorld.no_tap false.
Definition ex_session : list event :=
  [Lwip_init (mklwip true (Some 0%nat) true None true);
   Syn 1 false; Accept 1 true; Syn 2 false; Syn 3 false; Accept 3 true; Accept 2 false; Tcp_timer_expired false;
   Syn 4 false; Accept 4 true; Client_pcb 1 Lwip.Waiting; Client_end 1; Client_pcb 3 Lwip.Closing; Syn 5 false;
   Tcp_timer_expired false; Tcp_timer_expired true].

Lemma ex_startable dbg : startable dbg ex_options ex_inputs ex_process.
Proof.
  split; try done.
  - split; [done|]. apply Forall_replicate. unfold is_byte. lia.
  - intros n [= <-]. set_solver +.
Qed.

Lemma run_releases_witness :
  (∃ c w1 w2, start false ex_options ex_inputs ex_process = Ok (Entered c w1) ∧
     run_steps (step ex_options) w1 (take 15 ex_session) = Some (Ok w2) ∧
     length (Lwip.active (pcbs w2)) = 3%nat ∧ length (Lwip.tw (pcbs w2)) = 1%nat ∧ length (tcp_clients w2) = 2%nat) ∧
  ∃ w', run false ex_options ex_inputs ex_session ex_process = Some (Ok w') ∧ live w' = ∅ ∧ pcbs w' = Lwip.no_pcbs ∧
    sys w' = mkos ∅ ∅ ∅ {[SIGPIPE]} ∧ idle w'.
Proof.
  assert (Hin : match run false ex_options ex_inputs ex_session ex_process with Some _ => true | None => false end = true) by (vm_compute; reflexivity).
  assert (Hst : match start false ex_options ex_inputs ex_process with
    Ok (Entered _ w1) => match run_steps (step ex_options) w1 (take 15 ex_session) with
      Some (Ok w2) => Nat.eqb (length (Lwip.active (pcbs w2))) 3 && Nat.eqb (length (Lwip.tw (pcbs w2))) 1
                      && Nat.eqb (length (tcp_clients w2)) 2 | _ => false end | _ => false end = true) by (vm_compute; reflexivity).
  destruct (run_releases false ex_options ex_inputs ex_session ex_process (ex_startable false))
    as [_ [H|(w' & H & Hl & _ & Hp & _ & Hs & Hi)]]; [intros [=] | rewrite H in Hin; discriminate Hin |].
  destruct (start _ _ _ _) as [[c w1|]|] eqn:E1; [|discriminate Hst..].
  destruct (run_steps _ _ _) as [[w2|]|] eqn:E2; [|discriminate Hst..].
  apply andb_true_iff in Hst as [[Ha%Nat.eqb_eq Ht%Nat.eqb_eq]%andb_true_iff Hc%Nat.eqb_eq].
  split; [exists c, w1, w2; split; [reflexivity|]; split; [exact E2|]; split; [exact Ha|]; split; [exact Ht | exact Hc]|].
  exists w'. split; [exact H|]. split; [exact Hl|]. split; [exact Hp|]. split; [|exact (Hi eq_refl)].
  rewrite Hs; [vm_compute; reflexivity|]. exists c, w1. reflexivity.
Defined.

Lemma run_aborts_witness : run true ex_options ex_inputs ex_session ex_process = Some (Fault AssertFailed).
Proof.
  assert (Hin : match run true ex_options ex_inputs ex_session ex_process with Some _ => true | None => false end = true) by (vm_compute; reflexivity).
  assert (Ha : match process_arguments ex_options ex_arg_inputs (networked ex_process) with Ok (Some _, _) => true | _ => false end = true)
    by (vm_compute; reflexivity).
  destruct (process_arguments _ _ _) as [[[a|] w1]|] eqn:E; [|discriminate Ha..].
  destruct (run_aborts ex_options ex_inputs ex_session a ex_process w1 8 (ex_startable true)) as [H|H];
    [reflexivity | reflexivity | exact E | reflexivity | rewrite H in Hin; discriminate Hin | exact H].
Defined.

Lemma run_stops_witness :
  ∃ c w1 w2, start false ex_options ex_inputs ex_process = Ok (Entered c w1) ∧
    run_steps (step ex_options) w1 (take 15 ex_session) = Some (Ok w2) ∧
    ∃ w', run false ex_options ex_inputs (take 15 ex_session ++ [Tcp_timer_expired true]) ex_process = Some (Ok w') ∧
      live w' = ∅ ∧ quiet w'.
Proof.
  assert (Hst : match start false ex_options ex_inputs ex_process with
    Ok (Entered _ w1) => match run_steps (step ex_options) w1 (take 15 ex_session) with
      Some (Ok w2) => negb (quitting w2) && negb (lwip_set w2) | _ => false end | _ => false end = true) by (vm_compute; reflexivity).
  destruct (start _ _ _ _) as [[c w1|]|] eqn:E1; [|discriminate Hst..].
  destruct (run_steps _ _ _) as [[w2|]|] eqn:E2; [|discriminate Hst..]. apply andb_true_iff in Hst as [Hq%negb_true_iff Hl%negb_true_iff].
  exists c, w1, w2. split; [reflexivity|]. split; [exact E2|].
  destruct (run_stops false ex_options ex_inputs (take 15 ex_session) ex_process c w1 w2 (ex_startable false)) as (_ & es' & _ & Hes & Hw);
    [intros [=] | exact E1 | exact E2 | exact Hq |]. rewrite <- (Hes Hl). exact Hw.
Defined.

End ProgramFacts.
